(* ===== verification/_CoqProject ===== *)
-Q . S2P
Prelude.v
GoStd.v
GoStrings.v
GoScanner.v
GoJson.v
GoFloat.v
GoTemplate.v
GoSort.v
K8s.v
Requests.v
WorkQueue.v
KubeClient.v
KubeNode.v
AllocatorInterface.v
Bitmap.v
GoNet.v
GoHostPort.v
IPAllocator.v
HealthData.v
Topology.v
StorageCache.v
StorageConc.v
WrapperServer.v
HealthCheck.v
HealthVote.v
GoJsonValue.v
GoJsonStruct.v
GoBase64.v
LiteCodec.v
LiteStorage.v
LiteFiles.v
LiteGzip.v
LiteCache.v
LiteProxy.v
LiteCerts.v
LiteMux.v
Sha256.v
Sha1.v
HealthComm.v
Admission.v
DeepContains.v
GridClaim.v
GridTemplate.v
GridWorkload.v
GridReconcile.v
GridEvents.v
GridController.v
GridFed.v
GridKinds.v
GridService.v
SiteNodes.v
SiteManifests.v
SiteKins.v
WrapperUnits.v
HostsFile.v
HostsDaemon.v
SiteUnit.v
SiteGroup.v
TunnelContext.v
TunnelStream.v
TunnelSystem.v
TunnelFlow.v
TunnelTurns.v
TunnelSafety.v
TunnelNodes.v
TunnelRoute.v
TunnelServe.v
PenetratorJob.v
PenetratorPool.v
PenetratorSafety.v
PenetratorTask.v
PenetratorProgress.v
PenetratorWebhook.v
NodeFiles.v
AppsManager.v
HelperJob.v
HelperFacts.v
