(* ===== verification/Prelude.v ===== *)
(** * SuperEdge: a verification development

    SuperEdge runs Kubernetes on edge nodes grouped in units that are joined
    to the cloud by weak links.  This library models the programs under
    [src/pkg] whose logic decides what users of such a cluster see, and proves
    what makes them correct.  Every definition is a translation of Go code:
    the operations keep the names of their functions, their branches, early
    returns and errors, and they evaluate on concrete inputs.

    ** How the parts of the program work together

    - [edge-health] runs on every node.  Its check routine probes the other
      nodes of its unit, its communication routine exchanges the verdicts
      (signed with an HMAC), and its vote routine turns majorities into the
      annotation [superedgehealth/nodeunhealthy] of the node objects.
    - [edge-health-admission] keeps the cloud from evicting the pods and
      endpoints of nodes that are cut off from the cloud but that the vote
      holds to be healthy.
    - [application-grid-controller] turns a grid (of deployments, stateful
      sets or services) into one workload per unit, and, with federation,
      into copies in the namespaces of the member clusters.
    - [application-grid-wrapper] stands between kube-proxy and the API server
      of a node, and serves the endpoints and endpoint slices pruned to the
      addresses inside the unit, and without the addresses whose nodes
      [edge-health] holds to be unhealthy.
    - [site-manager] groups nodes into units and units into groups, and gives
      a unit of a high autonomy level a small cluster of its own.
    - [lite-apiserver] stands between the components of a node and the API
      server: it keeps what they read, and answers from it while the cloud is
      out of reach.
    - [tunnel] joins the cloud and the edge by streams that the edge nodes
      open, over which the cloud reaches the kubelets and pods of the edge,
      and pods reach each other.
    - [statefulset-grid-daemon] keeps a hosts file on each node, by which the
      pods of a stateful-set grid are found inside their unit.
    - [penetrator] installs new nodes: a task names machines, its controller
      compares them with the nodes that are there, and a job installs the
      others over ssh, several at a time.
    - [apps-manager] runs on every node and writes the manifests of static pods
      for the deployments that select it; [helper-job] moves a master or a
      node of an existing cluster to the edge, and back.
    - [pkg/util] has the allocators of address ranges and the helpers of the
      Kubernetes client.

    The claim [GridService.grid_traffic_local] joins two of these programs: a
    grid service created by the controller is served by the wrapper with the
    endpoints of its own unit only.  [PenetratorProgress.task_settles] joins
    the controller of the tasks with the runs of its jobs.

    ** The files

    Foundations.
    - [Prelude]: outcomes of code that may panic, integers, slices and maps
      with their nil values, tactics and hints.
    - Go's standard library, as far as the program uses it: [GoStd] and
      [GoStrings] (strings, numbers, [net.ParseIP]), [GoScanner] (lines and
      fields of a text), [GoSort], [GoFloat] (float64 on scores),
      [GoJson], [GoJsonValue], [GoJsonStruct] and [GoBase64]
      ([encoding/json], printers and parsers), [GoTemplate] (text/template
      and the splitting of manifests), [GoNet] and [GoHostPort] (package net),
      [Sha1], [Sha256] (with HMAC), executable.
    - [K8s]: the API objects, with the fields the program reads or writes.
    - [Requests]: client code as a tree of requests, run against a server,
      with its results and its histories of requests.
      [WorkQueue]: the rate-limited queue of the controllers, which tries a
      key a bounded number of times.
    - [KubeClient] and [KubeNode]: [pkg/util/kubeclient], manifests and
      nodes.

    The allocators.
    - [AllocatorInterface]: the interface of [util/allocator/interfaces.go] as
      a type class with laws.  [Bitmap]: [util/allocator/bitmap.go] and
      [utils.go].  [IPAllocator]: [util/ipallocator/*.go], proved over any
      allocator with the laws.

    The wrapper ([application-grid-wrapper]).
    - [HealthData]: the tables of [edge-health/data], and the node types both
      programs share.
    - [Topology]: pruning, [storage/util.go].
    - [StorageCache]: the cache and its informer handlers, [storage/cache.go]
      and the handlers next to it; an event is a step, and a run a list of
      events.  [StorageConc]: the same handlers cut at their lock boundaries,
      as a step relation of interleaved threads.
    - [WrapperServer]: the interceptors and the watches of [server/*.go].
      [WrapperUnits]: how the wrapper finds the cluster of its unit.

    Edge health ([edge-health], [edge-health-admission]).
    - [HealthCheck]: node selection, the probing plugins and the scores,
      [check/*.go] and [checkplugin/*.go].
    - [HealthVote]: [vote/vote.go].
    - [HealthComm]: [communicate/*.go], with the server's handlers and the
      worker pool of [/probe].
    - [Admission]: the webhooks, [admission/*.go].

    The grid controller ([application-grid-controller]).
    - [DeepContains]: [util/consistency.go], on reflected values.
    - [GridClaim]: adoption and release, [controller/*_manager.go] and
      [controller_ref_manager.go].
    - [GridTemplate]: grids, default and named templates and their hashes.
    - [GridWorkload], [GridReconcile]: one pass over the workloads of a grid;
      [WorkloadAPI] is the interface of a kind of workloads with its laws.
    - [GridEvents]: the informer handlers.
    - [GridController]: the sync handlers, over a record [GridKind].
    - [GridFed]: federation, over the class [FedGrid].
    - [GridKinds]: the deployment and the stateful-set controllers, instances
      of the interfaces.  [GridService]: the service controller.

    The site manager ([site-manager]).
    - [SiteNodes]: units and groups, their members and what is set on them.
    - [SiteUnit] and [SiteGroup]: the two controllers and their deleters.
    - [SiteKins]: the cluster of a unit, with the templates of
      [SiteManifests].

    The daemon of the stateful-set grids ([statefulset-grid-daemon]).
    - [HostsFile]: the hosts file, [hosts/*.go].  [HostsDaemon]: the
      controller that keeps it.

    The lite API server ([lite-apiserver]).
    - [LiteCodec] and [LiteStorage]: what is kept, and the interface of the
      stores with its laws.  [LiteFiles] and [LiteGzip]: concurrent calls of
      the file store and of the pool of buffers, as step relations.
    - [LiteCache]: the cache manager, over any store.  [LiteProxy]: the
      reverse proxy and its answers without the cloud.
    - [LiteCerts]: certificates, transports and proxies, three goroutines that
      talk over channels.  [LiteMux]: the multiplexed watches.

    The tunnel ([tunnel]).
    - [TunnelContext]: nodes, connections and handlers, in a heap of objects
      with identity.  [TunnelStream]: the handlers and the loops of a stream
      and of a connection.
    - [TunnelSystem]: a cloud and an edge process as a system of interleaved
      turns; [TunnelFlow] and [TunnelTurns] its invariant, [TunnelSafety] the
      theorems about bytes and panics.
    - [TunnelNodes]: tokens, and the hosts file of the connected nodes.
      [TunnelRoute]: the routes and the pass that keeps them.
      [TunnelServe]: the proxy servers of the cloud and the edge.

    New nodes ([penetrator]).
    - [PenetratorJob]: [job/conf], [util/ssh_util.go], and [addNode] of
      [job/addnode.go] with its deferred calls.  [PenetratorPool]: [AddNodes],
      a step relation of the main goroutine, the variables of its loop, the
      goroutines and the two channels.  [PenetratorSafety]: what runs of it
      bring about.
    - [PenetratorTask]: the controller of the tasks, [operator/controller],
      and [operator/crd].  [PenetratorWebhook]: [operator/admission].
      [PenetratorProgress]: controller and job together.

    The files of a node ([pkg/util], [apps-manager], [helper-job]).
    - [NodeFiles]: [util/file.go], over an interface of file systems with its
      laws; a reliable file system is one that never fails.
    - [AppsManager]: [utils/edploy.go] and the handlers of
      [controller/edeploy.go], and the directory they keep.
    - [HelperJob]: [helper-job/deploy], the jobs as programs of requests.
      [HelperFacts]: what they do.

    ** State, effects and outside code

    A method on shared state is a function from the state to the new state and
    its results; the requests it makes to the API server are values of its
    result, and the server's answers are arguments.  A loop over a Go map runs
    in the order an instance of [Prelude.GoRange] gives, of which only the
    laws of the language are known; goroutines and lock sections are steps of
    a relation, or of a list of steps in any order.  Panics are the [Panic] of
    [outcome], errors are options and sums, machine integers are [Z] at their
    width, nil slices and maps are told from empty ones ([gslice], [gomap]).

    What the code takes from outside [src/pkg] is an argument, with the
    documented behaviour it relies on as laws where a theorem needs them:
    [equality.Semantic.DeepEqual] ([Prelude.SemanticEq]), the API server's
    treatment of JSON patches ([Admission.JsonPatch]) and of workloads
    ([GridReconcile.WorkloadAPI]), defaulting ([SchemeDefault]), the dump
    behind a template's hash ([GenerateHash]), the validation of label keys
    and values, clocks, probes and the answers of servers.  Each theorem over
    such an argument comes with an instance at which it is evaluated.

    ** The theorems

    The properties the components are built for, of which the claims C1 to
    C40 are the most important; the conditions of each, and the lemmas that
    show what happens without them, are named above its statement:
    - the bitmap counts its bits in every reachable state and finds a free
      offset exactly when one is left;
    - the bytes written at one end of the tunnel are, in order, those read at
      the other, in every interleaving of the two processes, and nothing is
      lost while a connection is quiet, as long as no trace id is used twice
      and every call took the edge's message for its answer; no goroutine
      panics but in the three cases the statement names; the hosts file of the connected nodes is
      read back as it was meant; the routes settle after two passes; without
      the password of a user file the HTTP proxy reaches nothing, and a
      request is passed on between cloud pods once;
    - pruning keeps exactly the addresses the topology keys and the health
      verdicts allow, in and outside the cluster; after any run of events the
      cache holds what pruning the stored originals gives, with the last
      health report where a failed request cleared it since, and whoever
      replays the broadcasts of handlers that run one after the other holds
      the same; without pending steps the cache is coherent in every
      interleaving of the handlers; what the wrapper's server answers is pruned, and the ingress
      controller of a unit sees the narrowed cache through every change;
    - scores become the verdicts the score line gives, messages arrive as they
      were sent, the worker pool answers each target once and terminates, and
      a vote patches exactly the nodes with a strict majority against their
      annotation; the webhook on nodes makes the patches it means to;
    - a cached response is given back as it was, other requests are not
      touched by it, a watch leaves the list its events describe, a read of a
      file never sees half a value, and every certificate has a proxy with its
      current transport once the channels are empty;
    - a pass over a grid brings the server to the wanted workloads, whatever
      the order of the requests, and the next pass is idle; normalisation of a
      grid settles after two writes; the events of owned objects, of matching
      orphans and of nodes reach the queue; a round asks for nothing but what
      its own grid justifies;
    - one pass of a node unit sets every member and cleans who left, a unit is
      let go only at level L3 and after a pass that reports no error, and the DNS of a unit's cluster lies
      in its service network;
    - a job of new nodes is finite and blocks nowhere, runs at most one
      installation more than it has slots, and a node all of whose calls
      succeeded has its label, whatever they did to each other; a task is
      ready after as many jobs as it has machines; its controller configures
      a job for exactly the machines that are missing, and its webhook lets in
      what can be carried out;
    - the manifests on a node are those of the EDeployments that select it,
      over any sequence of notifications that fit together; a master that is changed and
      reverted has its manifest back, a node that joins the edge gets exactly
      the files it should, and its label only when its kubelet is ready;
    - the hosts file of the stateful-set daemon reads back to its map, and the
      whole sync makes of the pods exactly the names they should have.

    Some lemmas hold on the negative side and are kept because users of the
    code need to know them; they stand next to the theorems they limit, among
    them [HealthCheck.ping_race], [StorageConc.overtaken_broadcast],
    [StorageCache.clear_info_stale], [IPAllocator.range_alias_v6],
    [Admission.endPoint_two_lost], [GridReconcile.nil_replicas_panic],
    [GridFed.finalizer_stuck], [GridService.stale_topology_key],
    [GridService.dropped_update], [HostsFile.failed_write_is_final],
    [WrapperServer.k3s_watch_error], [TunnelSafety.stop_taken_for_success],
    [TunnelSafety.last_bytes_lost], [TunnelSafety.same_trace_id_twice_panics],
    [PenetratorSafety.machine_not_tried] and its neighbours,
    [PenetratorProgress.names_change], [PenetratorProgress.port_twice],
    [PenetratorWebhook.machine_lost], the examples that end [AppsManager] and
    [HelperFacts], and in [TunnelNodes], [TunnelRoute] and
    [TunnelServe] the examples that end each module.

    ** Bounds and fuel

    The JSON parsers take the length of the text as fuel, and consume at least
    a byte per step; the round trips prove that it is enough for every text
    the program prints.  The fields of a line take its length as fuel.  The
    scans of the bitmap run once over its [max] offsets.  A key of a work
    queue is tried at most sixteen times (once and [MaxRetries] retries),
    which [WorkQueue.retries_bounded] proves of the loop with that fuel.
    Loops that poll take the number of their ticks ([HelperJob] has two that
    the code does not bound; the theorems of [HelperFacts] hold from fuel 1 on), and the loop that draws
    names a number of draws; [PenetratorWebhook.task_admission] says when
    one is enough.  All other recursions are
    structural.

    ** Not modelled

    Code that only moves bytes or calls a library: listeners, TLS and gRPC,
    the copying of bytes between sockets, the installation of CRDs, leader
    election, flags, configuration files and the commands; everything
    generated (clients, informers, deep copies, conversions between versions
    of the API); the handlers of apps-manager whose bodies are comments.
    Goroutines are interleaved where a
    component's correctness depends on it ([StorageConc], [LiteFiles],
    [LiteGzip], [LiteCerts], [TunnelSystem], [PenetratorPool]); elsewhere a handler is one
    step. *)

From Stdlib Require Import ZArith Lia.
From stdpp Require Import base strings gmap numbers sorting list.

(** ** Outcomes of Go code

    A Go function that can panic (a nil dereference, an index out of range, a
    negative bit index) returns an [outcome]; the [error] results of Go are
    values of sum or option types in the definitions themselves. *)

Inductive outcome (A : Type) : Type :=
| Ret (a : A)
| Panic (why : string).

Arguments Ret {A} a.
Arguments Panic {A} why.

Definition outcome_bind {A B : Type} (m : outcome A) (f : A -> outcome B) : outcome B :=
  match m with
  | Ret a => f a
  | Panic w => Panic w
  end.

Declare Scope go_scope.
Delimit Scope go_scope with go.

Notation "'let*' x ':=' m 'in' k" := (outcome_bind m (fun x => k))
  (at level 10, x name, m at level 100, k at level 200) : go_scope.
Notation "'let*' ' p ':=' m 'in' k" := (outcome_bind m (fun z => match z with p => k end))
  (at level 10, p strict pattern, m at level 100, k at level 200) : go_scope.

(** ** Machine integers

    [int] and [int64] are 64-bit two's complement; [wrap64] is the truncation
    that a conversion to [int64] performs. *)

Definition wrap64 (z : Z) : Z := ((z + 2 ^ 63) mod 2 ^ 64 - 2 ^ 63)%Z.

Definition in_int64 (z : Z) : Prop := (- 2 ^ 63 <= z < 2 ^ 63)%Z.

Lemma wrap64_id z : in_int64 z -> wrap64 z = z.
Proof. unfold in_int64, wrap64. intros H. rewrite Z.mod_small; lia. Qed.

Lemma wrap64_range z : in_int64 (wrap64 z).
Proof.
  unfold in_int64, wrap64.
  pose proof (Z.mod_pos_bound (z + 2 ^ 63) (2 ^ 64) ltac:(lia)). lia.
Qed.

(** ** Slices and maps

    A Go slice or map value may be nil; [None] is the nil one.  Ranging over
    a nil slice, or reading a nil map, sees no element: [sl] and [mp]. *)

Notation gslice A := (option (list A)).
Definition sl {A : Type} (s : gslice A) : list A := default [] s.

Notation gomap V := (option (gmap string V)).
Definition mp {V : Type} (m : gomap V) : gmap string V := default ∅ m.

(** A [range] over a map visits every binding once, in an order the language
    leaves open.  [GoRange] is that choice of order; definitions that range
    over a map take it as an argument and the theorems hold for every one. *)

Class GoRange : Type := {
  go_range : forall {K V : Type} `{Countable K}, gmap K V -> list (K * V);
  go_range_perm : forall {K V : Type} `{Countable K} (m : gmap K V),
    go_range m ≡ₚ map_to_list m
}.

Definition range_in_key_order : GoRange := {|
  go_range := fun K V _ _ m => map_to_list m;
  go_range_perm := fun K V _ _ m => Permutation_refl _
|}.

Section Range.
Context `{R : GoRange} {K V : Type} `{Countable K}.
Implicit Types (m : gmap K V).

Lemma elem_of_go_range m k v : (k, v) ∈ go_range m <-> m !! k = Some v.
Proof. rewrite go_range_perm. apply elem_of_map_to_list. Qed.

Lemma NoDup_go_range_fst m : NoDup (go_range m).*1.
Proof. rewrite go_range_perm. apply NoDup_fst_map_to_list. Qed.

Lemma NoDup_go_range m : NoDup (go_range m).
Proof. eapply NoDup_fmap_1, NoDup_go_range_fst. Qed.

Lemma length_go_range m : length (go_range m) = size m.
Proof. rewrite go_range_perm. apply length_map_to_list. Qed.

Lemma list_to_map_go_range m : list_to_map (go_range m) = m.
Proof.
  apply map_eq. intros k. apply option_eq. intros v.
  rewrite <- elem_of_list_to_map by apply NoDup_go_range_fst. apply elem_of_go_range.
Qed.

Lemma length_filter_go_range (P : K * V -> Prop) `{!forall x, Decision (P x)} m :
  length (filter P (go_range m)) = size (filter P m).
Proof.
  assert (NoDup (filter P (go_range m)).*1) as Hnd.
  { apply NoDup_fmap_2_strong; [|apply NoDup_filter, NoDup_go_range].
    intros [k v] [k' v'] [_ Hk]%list_elem_of_filter [_ Hk']%list_elem_of_filter. simpl. intros <-.
    apply elem_of_go_range in Hk, Hk'. congruence. }
  assert (list_to_map (filter P (go_range m)) = filter P m) as E.
  { apply map_eq. intros k. apply option_eq. intros v. rewrite <- elem_of_list_to_map by done.
    rewrite list_elem_of_filter, map_lookup_filter_Some, elem_of_go_range. naive_solver. }
  rewrite <- E, <- length_map_to_list. symmetry. apply Permutation_length. by apply map_to_list_to_map.
Qed.

End Range.

(** ** Semantic equality

    [apiequality.Semantic.DeepEqual] of k8s.io/apimachinery is a parameter: an
    equivalence on the values it compares. *)

Class SemanticEq (A : Type) : Type := {
  DeepEqual : A -> A -> bool;
  #[global] DeepEqual_equiv :: Equivalence (fun x y => DeepEqual x y = true)
}.

Definition leibniz_semantic_eq (A : Type) `{EqDecision A} : SemanticEq A.
Proof.
  refine {| DeepEqual := fun x y => bool_decide (x = y) |}.
  split.
  - intros x. by apply bool_decide_eq_true.
  - intros x y Hxy. apply bool_decide_eq_true in Hxy. by apply bool_decide_eq_true.
  - intros x y z Hxy Hyz. apply bool_decide_eq_true in Hxy, Hyz.
    apply bool_decide_eq_true. by etrans.
Defined.

Section SemanticEq.
Context `{SemanticEq A}.

Lemma DeepEqual_refl (x : A) : DeepEqual x x = true.
Proof. apply (reflexivity (R := fun a b => DeepEqual a b = true)). Qed.

Lemma DeepEqual_sym (x y : A) : DeepEqual x y = true -> DeepEqual y x = true.
Proof. apply (symmetry (R := fun a b => DeepEqual a b = true)). Qed.

Lemma DeepEqual_trans (x y z : A) :
  DeepEqual x y = true -> DeepEqual y z = true -> DeepEqual x z = true.
Proof. apply (transitivity (R := fun a b => DeepEqual a b = true)). Qed.

End SemanticEq.

(** ** Automation *)

Create HintDb superedge.
#[export] Hint Resolve DeepEqual_refl wrap64_range : superedge.
#[export] Hint Extern 1 (_ <= _)%Z => lia : superedge.
#[export] Hint Extern 1 (_ < _)%Z => lia : superedge.

(** Case analysis on the innermost [match] scrutinee or boolean of the goal. *)
Ltac go_case :=
  match goal with
  | |- context [match ?x with _ => _ end] =>
      lazymatch x with
      | context [match _ with _ => _ end] => fail
      | _ => let E := fresh "E" in destruct x eqn:E
      end
  end.

(** The same in a hypothesis. *)
Ltac go_case_in H :=
  match type of H with
  | context [match ?x with _ => _ end] =>
      lazymatch x with
      | context [match _ with _ => _ end] => fail
      | _ => let E := fresh "E" in destruct x eqn:E
      end
  end.

Ltac go_cases := repeat (go_case; simplify_eq/=); try done.

(** Turn boolean comparisons of the context and the goal into propositions. *)
Ltac bool_to_prop :=
  repeat match goal with
  | H : (_ && _) = true |- _ => apply andb_true_iff in H; destruct H
  | H : (_ || _) = false |- _ => apply orb_false_iff in H; destruct H
  | H : negb _ = true |- _ => apply negb_true_iff in H
  | H : negb _ = false |- _ => apply negb_false_iff in H
  | H : (_ =? _)%Z = true |- _ => apply Z.eqb_eq in H
  | H : (_ =? _)%Z = false |- _ => apply Z.eqb_neq in H
  | H : (_ <? _)%Z = true |- _ => apply Z.ltb_lt in H
  | H : (_ <? _)%Z = false |- _ => apply Z.ltb_ge in H
  | H : (_ <=? _)%Z = true |- _ => apply Z.leb_le in H
  | H : (_ <=? _)%Z = false |- _ => apply Z.leb_gt in H
  | H : bool_decide _ = true |- _ => apply bool_decide_eq_true in H
  | H : bool_decide _ = false |- _ => apply bool_decide_eq_false in H
  end.

(** A constructor that is in no place of a concrete list. *)
Ltac list_not_in :=
  let H := fresh "H" in
  intros H; repeat (apply elem_of_cons in H as [H|H]; [discriminate|]); by apply elem_of_nil in H.

(** A decidable proposition about closed terms, by evaluation. *)
Ltac by_compute := cbv zeta; apply (bool_decide_unpack _); vm_compute; exact I.

(** ** Generic list lemmas *)

Section ListFilter.
Context {A B : Type}.

Lemma filter_iff_in (P Q : A -> Prop) `{!forall x, Decision (P x)} `{!forall x, Decision (Q x)}
    (l : list A) :
  (forall x, x ∈ l -> P x <-> Q x) -> filter P l = filter Q l.
Proof.
  induction l as [|x l IH]; intros Hl; [done|]. rewrite !filter_cons.
  rewrite IH by (intros; apply Hl; set_solver).
  assert (P x <-> Q x) by (apply Hl; set_solver).
  do 2 case_decide; naive_solver.
Qed.

Lemma filter_fmap_comm (f : A -> B) (P : B -> Prop) `{!forall x, Decision (P x)} (l : list A) :
  filter P (f <$> l) = f <$> filter (fun x => P (f x)) l.
Proof.
  induction l as [|x l IH]; [done|].
  rewrite fmap_cons, !filter_cons, IH. by case_decide.
Qed.

Lemma StronglySorted_filter (R : A -> A -> Prop) (P : A -> Prop) `{!forall x, Decision (P x)}
    (l : list A) :
  StronglySorted R l -> StronglySorted R (filter P l).
Proof.
  induction 1 as [|x l Hl IH Hx]; [constructor|]. rewrite filter_cons.
  case_decide; [|done]. constructor; [done|].
  rewrite Forall_forall in Hx |- *. intros y [_ Hy]%list_elem_of_filter. auto.
Qed.

Lemma filter_all (P : A -> Prop) `{!forall x, Decision (P x)} (l : list A) :
  (forall x, x ∈ l -> P x) -> filter P l = l.
Proof.
  induction l as [|x l IH]; intros Hl; [done|]. rewrite filter_cons.
  rewrite decide_True by (apply Hl; set_solver). f_equal. apply IH. set_solver.
Qed.

Lemma filter_none (P : A -> Prop) `{!forall x, Decision (P x)} (l : list A) :
  (forall x, x ∈ l -> ~ P x) -> filter P l = [].
Proof.
  induction l as [|x l IH]; intros Hl; [done|]. rewrite filter_cons.
  rewrite decide_False by (apply Hl; set_solver). apply IH. set_solver.
Qed.

(** Turning on one element of a duplicate-free list lengthens the filtered
    list by one. *)
Lemma length_filter_insert (P Q : A -> Prop)
    `{!forall x, Decision (P x)} `{!forall x, Decision (Q x)} (l : list A) (a : A) :
  NoDup l -> a ∈ l -> ~ P a -> Q a -> (forall x, x ≠ a -> P x <-> Q x) ->
  length (filter Q l) = S (length (filter P l)).
Proof.
  intros Hnd Ha HPa HQa Hother. induction Hnd as [|x l Hx Hnd IH]; [by apply not_elem_of_nil in Ha|].
  rewrite !filter_cons. apply elem_of_cons in Ha as [->|Ha].
  - rewrite (decide_True (P := Q x)), (decide_False (P := P x)) by done. simpl. f_equal.
    f_equal. apply filter_iff_in. intros y Hy. symmetry. apply Hother. by intros ->.
  - assert (x ≠ a) by (by intros ->). specialize (IH Ha). pose proof (Hother x ltac:(done)).
    do 2 case_decide; simpl; naive_solver lia.
Qed.

End ListFilter.

Lemma StronglySorted_seqZ m n : StronglySorted Z.lt (seqZ m n).
Proof.
  destruct (decide (0 <= n)%Z) as [Hn|Hn]; [|by rewrite seqZ_nil by lia; constructor].
  revert m. pattern n. apply natlike_ind; [intros m; rewrite seqZ_nil by lia; constructor| |done].
  intros k Hk IH m. rewrite seqZ_cons by lia. rewrite Z.pred_succ. constructor; [apply IH|].
  apply Forall_seqZ. lia.
Qed.

Lemma fold_left_reverse {A B : Type} (f : A -> B -> A) (l : list B) (a : A) :
  fold_left f (reverse l) a = foldr (fun x acc => f acc x) a l.
Proof.
  induction l as [|x l IH]; [done|]. by rewrite reverse_cons, fold_left_app, IH.
Qed.

(** ** Loops over the keys of a map *)

Section KeyLoops.
Context {K V : Type} `{Countable K}.
Implicit Types (m : gmap K V).

(** A loop that rewrites the value under each key once. *)
Lemma fold_alter (f : gmap K V -> K -> gmap K V) (g : K -> V -> V) (l : list K) m :
  NoDup l -> (forall m k v, m !! k = Some v -> f m k = <[k := g k v]> m) ->
  (forall k, k ∈ l -> is_Some (m !! k)) ->
  forall k, fold_left f l m !! k = if decide (k ∈ l) then g k <$> m !! k else m !! k.
Proof.
  intros Hnd Hf. revert m. induction Hnd as [|x l Hx Hnd IH]; intros m Hin k.
  { by rewrite decide_False by apply not_elem_of_nil. }
  simpl. destruct (Hin x) as [v Hv]; [by apply elem_of_cons; left|]. rewrite (Hf m x v Hv), IH.
  - destruct (decide (k = x)) as [-> |Hk].
    + rewrite decide_False, decide_True by (done || by apply elem_of_cons; left).
      by rewrite lookup_insert_eq, Hv.
    + rewrite lookup_insert_ne by done. apply decide_ext. rewrite elem_of_cons. naive_solver.
  - intros y Hy. destruct (decide (y = x)) as [-> |Hne]; [by rewrite lookup_insert_eq|].
    rewrite lookup_insert_ne by done. apply Hin. by apply elem_of_cons; right.
Qed.

(** A loop that deletes the keys that fail a test. *)
Lemma fold_delete (P : K -> Prop) `{!forall k, Decision (P k)} (l : list K) m :
  (forall k, is_Some (m !! k) -> k ∈ l) ->
  forall k, fold_left (fun m k => if bool_decide (P k) then m else delete k m) l m !! k
    = if decide (P k) then m !! k else None.
Proof.
  intros Hl. assert (forall k, fold_left (fun m k => if bool_decide (P k) then m else delete k m) l m !! k
    = if decide (k ∈ l /\ ~ P k) then None else m !! k) as Hk.
  { clear Hl. revert m. induction l as [|x l IH]; intros m k; cbn [fold_left].
    { case_decide as Hd; [|done]. by destruct Hd as [Hx%not_elem_of_nil _]. }
    rewrite IH. destruct (decide (k = x)) as [-> |Hne].
    - case_bool_decide as HP.
      + by rewrite !decide_False by naive_solver.
      + rewrite lookup_delete_eq. rewrite (decide_True (P := x ∈ x :: l /\ _)) by (split; [by apply elem_of_cons; left|done]).
        by case_decide.
    - assert ((if bool_decide (P x) then m else delete x m) !! k = m !! k) as ->
        by (case_bool_decide; [done|by rewrite lookup_delete_ne]).
      apply decide_ext. rewrite elem_of_cons. naive_solver. }
  intros k. rewrite Hk. destruct (decide (P k)); [by rewrite decide_False by naive_solver|].
  case_decide as Hc; [done|]. destruct (m !! k) eqn:E; [|done]. destruct Hc. split; [|done]. apply Hl. by rewrite E.
Qed.

End KeyLoops.

(** ** Reachability *)

(** An invariant of every step holds in every reachable state. *)
Lemma rtc_invariant {A : Type} (step : A -> A -> Prop) (P : A -> Prop) :
  (forall x y, step x y -> P x -> P y) -> forall x y, rtc step x y -> P x -> P y.
Proof. intros Hstep x y Hxy. induction Hxy; eauto. Qed.
