(* ===== verification/GoStd.v ===== *)
(** * What the code uses of the Go standard library

    [strings.Split] and [strings.Join] on a one-byte separator,
    [strings.TrimPrefix], [strconv.ParseInt] in base 10, [net.ParseIP] and
    [encoding/json] for a slice of strings.  Strings are byte strings; the
    parsers work on the list of their bytes. *)

From Stdlib Require Import ZArith Lia Ascii String.
From stdpp Require Import base strings gmap numbers sorting list.
From S2P Require Import Prelude.

Local Open Scope Z_scope.

(** ** Strings as lists of bytes *)

Definition byte_of (a : ascii) : Z := Z.of_N (N_of_ascii a).
Definition ascii_of_byte (b : Z) : ascii := ascii_of_N (Z.to_N b).

Fixpoint bytes_of (s : string) : list Z :=
  match s with
  | EmptyString => []
  | String a s' => byte_of a :: bytes_of s'
  end.

Fixpoint string_of (bs : list Z) : string :=
  match bs with
  | [] => EmptyString
  | b :: bs' => String (ascii_of_byte b) (string_of bs')
  end.

Lemma byte_of_range a : 0 <= byte_of a < 256.
Proof. unfold byte_of. pose proof (N_ascii_bounded a). lia. Qed.

Lemma ascii_of_byte_of a : ascii_of_byte (byte_of a) = a.
Proof. unfold ascii_of_byte, byte_of. rewrite N2Z.id. apply ascii_N_embedding. Qed.

Lemma byte_of_ascii_of b : 0 <= b < 256 -> byte_of (ascii_of_byte b) = b.
Proof. intros Hb. unfold ascii_of_byte, byte_of. rewrite N_ascii_embedding by lia. lia. Qed.

Lemma string_of_bytes_of s : string_of (bytes_of s) = s.
Proof. induction s as [|a s IH]; simpl; [done|]. by rewrite ascii_of_byte_of, IH. Qed.

Lemma bytes_of_range s : Forall (fun b => 0 <= b < 256) (bytes_of s).
Proof. induction s; simpl; constructor; [apply byte_of_range|done]. Qed.

Lemma bytes_of_inj s t : bytes_of s = bytes_of t -> s = t.
Proof. intros H. by rewrite <- (string_of_bytes_of s), H, string_of_bytes_of. Qed.

Lemma bytes_of_app s t : bytes_of (s +:+ t) = bytes_of s ++ bytes_of t.
Proof. induction s as [|a s IH]; simpl; [done|]. by rewrite IH. Qed.

Lemma string_of_app bs cs : string_of (bs ++ cs) = string_of bs +:+ string_of cs.
Proof. induction bs as [|b bs IH]; simpl; [done|]. by rewrite IH. Qed.

(** ** strings.Split, strings.Join, strings.TrimPrefix *)

(** [split_on sep s]: the pieces of [s] between occurrences of [sep]; at
    least one piece. *)
Fixpoint split_on (sep : ascii) (s : string) : list string :=
  match s with
  | EmptyString => [EmptyString]
  | String a s' =>
      if Ascii.eqb a sep then EmptyString :: split_on sep s'
      else match split_on sep s' with
           | [] => [String a EmptyString]
           | piece :: rest => String a piece :: rest
           end
  end.

Fixpoint join_with (sep : string) (l : list string) : string :=
  match l with
  | [] => EmptyString
  | [x] => x
  | x :: rest => x +:+ sep +:+ join_with sep rest
  end.

Fixpoint trim_prefix_aux (p s : string) : option string :=
  match p, s with
  | EmptyString, _ => Some s
  | String a p', String b s' => if Ascii.eqb a b then trim_prefix_aux p' s' else None
  | _, _ => None
  end.

Definition TrimPrefix (s p : string) : string := default s (trim_prefix_aux p s).

Definition free_of (sep : ascii) (s : string) : Prop := split_on sep s = [s].

Lemma append_assoc (s t u : string) : (s +:+ t) +:+ u = s +:+ (t +:+ u).
Proof.
  induction s as [|a s IH]; [done|].
  change (String a ((s +:+ t) +:+ u) = String a (s +:+ (t +:+ u))). by rewrite IH.
Qed.

Lemma split_on_nonempty sep s : split_on sep s <> [].
Proof. destruct s as [|a s]; simpl; [done|]. destruct (Ascii.eqb a sep); [done|]. by destruct (split_on sep s). Qed.

Lemma join_with_cons sep x rest : rest <> [] -> join_with sep (x :: rest) = x +:+ sep +:+ join_with sep rest.
Proof. by destruct rest. Qed.

(** Joining the pieces gives the string back. *)
Lemma join_split sep s : join_with (String sep EmptyString) (split_on sep s) = s.
Proof.
  induction s as [|a s IH]; [done|]. simpl split_on.
  pose proof (split_on_nonempty sep s) as Hne.
  destruct (Ascii.eqb_spec a sep) as [->|].
  - rewrite join_with_cons by done. simpl. by rewrite IH.
  - destruct (split_on sep s) as [|piece rest]; [done|].
    destruct rest as [|p2 rest]; [simpl in *; by rewrite IH|].
    rewrite join_with_cons in IH |- * by done.
    change (String a piece +:+ ?x) with (String a (piece +:+ x)). by rewrite IH.
Qed.

(** A separator between two parts splits them apart. *)
Lemma split_on_app sep s t :
  split_on sep (s +:+ String sep t) = split_on sep s ++ split_on sep t.
Proof.
  induction s as [|a s IH]; simpl.
  - by rewrite Ascii.eqb_refl.
  - destruct (Ascii.eqb a sep); [by rewrite IH|]. rewrite IH.
    pose proof (split_on_nonempty sep s). by destruct (split_on sep s).
Qed.

Lemma TrimPrefix_app p s : TrimPrefix (p +:+ s) p = s.
Proof.
  unfold TrimPrefix. enough (trim_prefix_aux p (p +:+ s) = Some s) as -> by done.
  induction p as [|a p IH]; simpl; [done|]. by rewrite Ascii.eqb_refl.
Qed.

(** ** strconv.ParseInt *)

Definition is_digit (b : Z) : bool := (48 <=? b) && (b <=? 57).

Fixpoint parse_digits (acc : Z) (bs : list Z) : option Z :=
  match bs with
  | [] => Some acc
  | b :: rest => if is_digit b then parse_digits (acc * 10 + (b - 48)) rest else None
  end.

Definition parse_nat (bs : list Z) : option Z :=
  match bs with [] => None | _ => parse_digits 0 bs end.

(** The optional sign: whether it is a minus, and what follows. *)
Definition split_sign (bs : list Z) : bool * list Z :=
  match bs with
  | 43 :: rest => (false, rest)
  | 45 :: rest => (true, rest)
  | _ => (false, bs)
  end.

(** [ParseInt s bitSize] is [strconv.ParseInt(s, 10, bitSize)]: [None] for a
    syntax error or a value out of range. *)
Definition ParseInt (s : string) (bitSize : Z) : option Z :=
  let '(neg, digits) := split_sign (bytes_of s) in
  match parse_nat digits with
  | None => None
  | Some un =>
      if neg then (if un <=? 2 ^ (bitSize - 1) then Some (- un) else None)
      else (if un <? 2 ^ (bitSize - 1) then Some un else None)
  end.

Lemma parse_digits_nonneg acc bs n : 0 <= acc -> parse_digits acc bs = Some n -> 0 <= n.
Proof.
  revert acc. induction bs as [|b bs IH]; intros acc Ha; simpl; [naive_solver|].
  unfold is_digit. destruct ((48 <=? b) && (b <=? 57)) eqn:Hd; [|done].
  bool_to_prop. apply IH. lia.
Qed.

Lemma ParseInt_range s w n : 0 < w -> ParseInt s w = Some n -> - 2 ^ (w - 1) <= n < 2 ^ (w - 1).
Proof.
  intros Hw. unfold ParseInt.
  assert (0 < 2 ^ (w - 1)) by (apply Z.pow_pos_nonneg; lia).
  destruct (split_sign (bytes_of s)) as [neg ds].
  destruct (parse_nat ds) as [un|] eqn:Hp; [|done].
  assert (0 <= un) by (destruct ds; [done|]; eapply parse_digits_nonneg; [|exact Hp]; lia).
  destruct neg; case_match; intros [= <-]; bool_to_prop; lia.
Qed.

(** ** net.ParseIP *)

Definition big_num : Z := 16777215.

(** [dtoi]: a decimal number at the head; the value, the bytes used, and
    whether there was one below the bound. *)
Fixpoint dtoi_loop (n i : Z) (bs : list Z) : Z * Z * bool :=
  match bs with
  | b :: rest =>
      if is_digit b then
        let n' := n * 10 + (b - 48) in
        if big_num <=? n' then (big_num, i, false) else dtoi_loop n' (i + 1) rest
      else (n, i, negb (i =? 0))
  | [] => (n, i, negb (i =? 0))
  end.

Definition dtoi (bs : list Z) : Z * Z * bool :=
  match dtoi_loop 0 0 bs with
  | (n, i, ok) => if i =? 0 then (0, 0, false) else (n, i, ok)
  end.

Definition hex_val (b : Z) : option Z :=
  if is_digit b then Some (b - 48)
  else if (97 <=? b) && (b <=? 102) then Some (b - 97 + 10)
  else if (65 <=? b) && (b <=? 70) then Some (b - 65 + 10)
  else None.

Fixpoint xtoi_loop (n i : Z) (bs : list Z) : Z * Z * bool :=
  match bs with
  | b :: rest =>
      match hex_val b with
      | Some d =>
          let n' := n * 16 + d in
          if big_num <=? n' then (0, i, false) else xtoi_loop n' (i + 1) rest
      | None => (n, i, negb (i =? 0))
      end
  | [] => (n, i, negb (i =? 0))
  end.

Definition xtoi (bs : list Z) : Z * Z * bool := xtoi_loop 0 0 bs.

(** The dotted quad: [k] components are still to come, [first] is whether
    none was read yet. *)
Fixpoint parseIPv4_loop (k : nat) (first : bool) (bs : list Z) : option (list Z) :=
  match k with
  | O => match bs with [] => Some [] | _ => None end
  | S k' =>
      match (if first then Some bs
             else match bs with 46 :: rest => Some rest | _ => None end) with
      | None => None
      | Some s =>
          match dtoi s with
          | (n, c, ok) =>
              if negb ok || (255 <? n) then None
              else if (1 <? c) && (match s with 48 :: _ => true | _ => false end) then None
              else match parseIPv4_loop k' false (drop (Z.to_nat c) s) with
                   | Some rest => Some (n :: rest)
                   | None => None
                   end
          end
      end
  end.

(** Four bytes, or [None]. *)
Definition parseIPv4 (bs : list Z) : option (list Z) :=
  match bs with [] => None | _ => parseIPv4_loop 4 true bs end.

(** Where the loop of [parseIPv6] ends: the bytes read, where the ellipsis
    stood, and the bytes left. *)
Fixpoint parseIPv6_loop (fuel : nat) (ip : list Z) (ellipsis : option nat) (s : list Z)
  : option (list Z * option nat * list Z) :=
  match fuel with
  | O => Some (ip, ellipsis, s)
  | S f =>
      if (16 <=? Z.of_nat (length ip)) then Some (ip, ellipsis, s) else
      match xtoi s with
      | (n, c, ok) =>
          if negb ok || (65535 <? n) then None else
          let s' := drop (Z.to_nat c) s in
          match s' with
          | 46 :: _ =>
              if (match ellipsis with None => negb (Z.of_nat (length ip) =? 12) | _ => false end)
              then None
              else if 16 <? Z.of_nat (length ip) + 4 then None
              else match parseIPv4 s with
                   | None => None
                   | Some ip4 => Some (ip ++ ip4, ellipsis, [])
                   end
          | [] => Some (ip ++ [n / 256; n mod 256], ellipsis, [])
          | 58 :: [] => None
          | 58 :: 58 :: rest =>
              let ip' := ip ++ [n / 256; n mod 256] in
              match ellipsis with
              | Some _ => None
              | None =>
                  match rest with
                  | [] => Some (ip', Some (length ip'), [])
                  | _ => parseIPv6_loop f ip' (Some (length ip')) rest
                  end
              end
          | 58 :: rest => parseIPv6_loop f (ip ++ [n / 256; n mod 256]) ellipsis rest
          | _ => None
          end
      end
  end.

(** Sixteen bytes, or [None]. *)
Definition parseIPv6 (bs : list Z) : option (list Z) :=
  match bs with
  | [58; 58] => Some (replicate 16 0)
  | _ =>
      let '(ellipsis, s) :=
        match bs with
        | 58 :: 58 :: rest => (Some 0%nat, rest)
        | _ => (None, bs)
        end in
      match parseIPv6_loop 9 [] ellipsis s with
      | None => None
      | Some (ip, ellipsis, rest) =>
          match rest with
          | _ :: _ => None
          | [] =>
              if Z.of_nat (length ip) <? 16 then
                match ellipsis with
                | None => None
                | Some e => Some (take e ip ++ replicate (16 - length ip) 0 ++ drop e ip)
                end
              else match ellipsis with Some _ => None | None => Some ip end
          end
      end
  end.

(** [ParseIP]: the first of '.' and ':' chooses the form; the result has
    sixteen bytes, an IPv4 address with its mapped prefix. *)
Definition v4InV6Prefix : list Z := [0; 0; 0; 0; 0; 0; 0; 0; 0; 0; 255; 255].

Fixpoint ParseIP_scan (all bs : list Z) : option (list Z) :=
  match bs with
  | [] => None
  | 46 :: _ => match parseIPv4 all with Some ip => Some (v4InV6Prefix ++ ip) | None => None end
  | 58 :: _ => parseIPv6 all
  | _ :: rest => ParseIP_scan all rest
  end.

Definition ParseIP (s : string) : option (list Z) := ParseIP_scan (bytes_of s) (bytes_of s).

Example ParseIP_v4 : ParseIP "10.0.0.1" = Some (v4InV6Prefix ++ [10; 0; 0; 1]).
Proof. reflexivity. Qed.
Example ParseIP_leading_zero : ParseIP "10.0.0.01" = None.
Proof. reflexivity. Qed.
Example ParseIP_v6 : ParseIP "fe80::1" = Some ([254; 128] ++ replicate 13 0 ++ [1]).
Proof. reflexivity. Qed.
Example ParseIP_v6_mixed : ParseIP "::ffff:1.2.3.4" = Some (v4InV6Prefix ++ [1; 2; 3; 4]).
Proof. reflexivity. Qed.
Example ParseIP_v6_bad : ParseIP "1::2::3" = None /\ ParseIP "1:2:3:4:5:6:7:8:9" = None
  /\ ParseIP "12345::" = None /\ ParseIP "localhost" = None.
Proof. repeat split; reflexivity. Qed.

Lemma bytes_of_string_of bs : Forall (fun b => 0 <= b < 256) bs -> bytes_of (string_of bs) = bs.
Proof. induction 1; simpl; [done|]. rewrite byte_of_ascii_of by done. by f_equal. Qed.

(** ** strings.TrimSpace

    White space is Unicode's: the ASCII spaces and the UTF-8 encodings of
    U+0085, U+00A0, U+1680, U+2000 to U+200A, U+2028, U+2029, U+202F, U+205F
    and U+3000. *)

Definition ascii_space (b : Z) : bool := (b =? 32) || ((9 <=? b) && (b <=? 13)).

(** A space at the head of the bytes, and what follows it. *)
Definition strip_space (bs : list Z) : option (list Z) :=
  match bs with
  | b :: rest =>
      if ascii_space b then Some rest else
      match bs with
      | 194 :: b1 :: rest => if (b1 =? 133) || (b1 =? 160) then Some rest else None
      | 225 :: 154 :: 128 :: rest => Some rest
      | 226 :: 128 :: b2 :: rest =>
          if ((128 <=? b2) && (b2 <=? 138)) || (b2 =? 168) || (b2 =? 169) || (b2 =? 175) then Some rest else None
      | 226 :: 129 :: 159 :: rest => Some rest
      | 227 :: 128 :: 128 :: rest => Some rest
      | _ => None
      end
  | [] => None
  end.

(** The same on the reversed bytes. *)
Definition strip_space_rev (bs : list Z) : option (list Z) :=
  match bs with
  | b :: rest =>
      if ascii_space b then Some rest else
      match bs with
      | b1 :: 194 :: rest => if (b1 =? 133) || (b1 =? 160) then Some rest else
          None
      | 128 :: 154 :: 225 :: rest => Some rest
      | 159 :: 129 :: 226 :: rest => Some rest
      | 128 :: 128 :: 227 :: rest => Some rest
      | b2 :: 128 :: 226 :: rest =>
          if ((128 <=? b2) && (b2 <=? 138)) || (b2 =? 168) || (b2 =? 169) || (b2 =? 175) then Some rest else None
      | _ => None
      end
  | [] => None
  end.

Fixpoint strip_all (strip : list Z -> option (list Z)) (fuel : nat) (bs : list Z) : list Z :=
  match fuel, strip bs with
  | S fuel, Some rest => strip_all strip fuel rest
  | _, _ => bs
  end.

Definition TrimSpace (s : string) : string :=
  let bs := bytes_of s in
  let left := strip_all strip_space (length bs) bs in
  string_of (reverse (strip_all strip_space_rev (length left) (reverse left))).

Example TrimSpace_ex : TrimSpace "  a b  " = "a b"%string /\ TrimSpace "   " = ""%string /\ TrimSpace "x" = "x"%string.
Proof. repeat split; reflexivity. Qed.

(** ** strconv.Atoi with its error ignored

    A syntax error gives zero, a value out of range the nearest bound; the
    digits are scanned from the left, and an overflow of 64 bits ends the
    scan. *)

Fixpoint atoi_scan (acc : Z) (bs : list Z) : option Z :=
  match bs with
  | [] => Some acc
  | b :: rest =>
      if is_digit b then
        let acc := acc * 10 + (b - 48) in
        if 2 ^ 64 <=? acc then Some (2 ^ 64 - 1) else atoi_scan acc rest
      else None
  end.

Definition Atoi (s : string) : Z :=
  let '(neg, digits) := split_sign (bytes_of s) in
  match digits with
  | [] => 0
  | _ =>
      match atoi_scan 0 digits with
      | None => 0
      | Some un =>
          if neg then (if 2 ^ 63 <? un then - 2 ^ 63 else - un)
          else (if 2 ^ 63 <=? un then 2 ^ 63 - 1 else un)
      end
  end.

Example Atoi_ex : Atoi "51005" = 51005 /\ Atoi "-7" = -7 /\ Atoi "5s" = 0 /\ Atoi "" = 0
  /\ Atoi "99999999999999999999" = 2 ^ 63 - 1.
Proof. repeat split; reflexivity. Qed.
