(* ===== verification/GoStrings.v ===== *)
(** * More of package strings

    Prefixes, suffixes and the first occurrence of a substring, trimming
    of a set of ASCII characters, [Fields] and [SplitN], and the slice
    expressions [s[lo:hi]], which panic out of range. *)

From Stdlib Require Import ZArith Lia Ascii String.
From stdpp Require Import base strings gmap numbers sorting list.
From S2P Require Import Prelude.
From S2P Require Import GoStd.

Local Open Scope Z_scope.

(** ** Searching *)

Definition HasPrefix (s p : string) : bool := match trim_prefix_aux p s with Some _ => true | None => false end.

Fixpoint contains_at (s p : string) : bool :=
  HasPrefix s p || match s with EmptyString => false | String _ s => contains_at s p end.

Definition HasSuffix (s p : string) : bool :=
  (String.length p <=? String.length s)%nat
  && String.eqb (substring (String.length s - String.length p) (String.length p) s) p.

(** [strings.Index], [None] for -1. *)
Fixpoint Index (s p : string) : option nat :=
  if HasPrefix s p then Some 0%nat
  else match s with EmptyString => None | String _ s => S <$> Index s p end.

(** [strings.LastIndex] of a byte. *)
Fixpoint LastIndexByte (s : string) (c : ascii) : option nat :=
  match s with
  | EmptyString => None
  | String a s =>
      match LastIndexByte s c with
      | Some i => Some (S i)
      | None => if Ascii.eqb a c then Some 0%nat else None
      end
  end.

(** ** Slices of a string *)

Fixpoint take_str (n : nat) (s : string) : string :=
  match n, s with S n, String a s => String a (take_str n s) | _, _ => EmptyString end.
Fixpoint drop_str (n : nat) (s : string) : string :=
  match n, s with S n, String _ s => drop_str n s | _, _ => s end.

(** [s[:n]] and [s[n:]] *)
Definition slice_to (s : string) (n : nat) : option string := if (n <=? String.length s)%nat then Some (take_str n s) else None.
Definition slice_from (s : string) (n : nat) : option string := if (n <=? String.length s)%nat then Some (drop_str n s) else None.

(** ** Trimming, replacing, splitting *)

Fixpoint trim_left (cut : ascii -> bool) (s : string) : string :=
  match s with String a s' => if cut a then trim_left cut s' else s | EmptyString => EmptyString end.

Fixpoint trim_right (cut : ascii -> bool) (s : string) : string :=
  match s with
  | EmptyString => EmptyString
  | String a s =>
      match trim_right cut s with
      | EmptyString => if cut a then EmptyString else String a EmptyString
      | r => String a r
      end
  end.

(** [strings.Trim] of ASCII characters. *)
Definition Trim (cutset : list ascii) (s : string) : string :=
  let cut a := existsb (Ascii.eqb a) cutset in trim_right cut (trim_left cut s).

Fixpoint map_str (f : ascii -> ascii) (s : string) : string :=
  match s with EmptyString => EmptyString | String a s => String (f a) (map_str f s) end.

(** [strings.Replace] of all occurrences of a one-byte string by another. *)
Definition ReplaceByte (old new : ascii) (s : string) : string := map_str (fun a => if Ascii.eqb a old then new else a) s.

(** [strings.SplitN(s, sep, 2)]: [None] when there is no separator. *)
Fixpoint cut_at (sep : ascii) (s : string) : option (string * string) :=
  match s with
  | EmptyString => None
  | String a s =>
      if Ascii.eqb a sep then Some (EmptyString, s)
      else match cut_at sep s with Some (x, y) => Some (String a x, y) | None => None end
  end.

(** A field: what comes before the next space, and the rest. *)
Fixpoint take_field (bs : list Z) : list Z * list Z :=
  match bs with
  | [] => ([], [])
  | b :: rest =>
      match strip_space bs with
      | Some _ => ([], bs)
      | None => let '(f, r) := take_field rest in (b :: f, r)
      end
  end.

Fixpoint fields_loop (fuel : nat) (bs : list Z) : list (list Z) :=
  match fuel, strip_all strip_space (length bs) bs with
  | S fuel, b :: rest => let '(f, r) := take_field (b :: rest) in f :: fields_loop fuel r
  | _, _ => []
  end.

Definition Fields (s : string) : list string := string_of <$> fields_loop (String.length s) (bytes_of s).

Example Fields_ex : Fields "  a bc	d " = ["a"; "bc"; "d"]%string /\ Fields "   " = [].
Proof. split; reflexivity. Qed.

(** ** Laws *)

Lemma trim_prefix_aux_app (p s : string) : trim_prefix_aux p (p +:+ s) = Some s.
Proof. induction p as [|a p IH]; simpl; [done|]. by rewrite Ascii.eqb_refl. Qed.

Lemma HasPrefix_app (s p : string) : HasPrefix s p = true -> exists rest, s = p +:+ rest.
Proof.
  unfold HasPrefix. revert s. induction p as [|c p IH]; intros s; [by exists s|].
  destruct s as [|c' s]; [done|]. cbn [trim_prefix_aux]. destruct (Ascii.eqb_spec c c') as [->|]; [|done].
  intros [rest ->]%IH. by exists rest.
Qed.

Lemma app_HasPrefix (p s : string) : HasPrefix (p +:+ s) p = true.
Proof. unfold HasPrefix. by rewrite trim_prefix_aux_app. Qed.

Lemma append_cons a (s t : string) : String a s +:+ t = String a (s +:+ t).
Proof. done. Qed.

Lemma append_nil_r (s : string) : s +:+ EmptyString = s.
Proof. induction s as [|a s IH]; [done|]. by rewrite append_cons, IH. Qed.

Lemma length_str_app (s t : string) : String.length (s +:+ t) = (String.length s + String.length t)%nat.
Proof. induction s as [|a s IH]; [done|]. rewrite append_cons. cbn [String.length]. by rewrite IH. Qed.

Lemma take_str_app (s t : string) : take_str (String.length s) (s +:+ t) = s.
Proof. induction s as [|a s IH]; [by destruct t|]. rewrite append_cons. cbn [String.length take_str]. by rewrite IH. Qed.

Lemma drop_str_app (s t : string) : drop_str (String.length s) (s +:+ t) = t.
Proof. induction s as [|a s IH]; [by destruct t|]. rewrite append_cons. cbn [String.length drop_str]. by rewrite IH. Qed.

Lemma slice_to_app (s t : string) : slice_to (s +:+ t) (String.length s) = Some s.
Proof. unfold slice_to. rewrite length_str_app, (proj2 (Nat.leb_le _ _)) by lia. by rewrite take_str_app. Qed.

Lemma slice_from_app (s t : string) : slice_from (s +:+ t) (String.length s) = Some t.
Proof. unfold slice_from. rewrite length_str_app, (proj2 (Nat.leb_le _ _)) by lia. by rewrite drop_str_app. Qed.

(** All characters of a string. *)
Fixpoint all_chars (P : ascii -> bool) (s : string) : bool :=
  match s with EmptyString => true | String a s => P a && all_chars P s end.

Lemma all_chars_app P s t : all_chars P (s +:+ t) = all_chars P s && all_chars P t.
Proof. induction s as [|a s IH]; [done|]. rewrite append_cons. cbn [all_chars]. by rewrite IH, andb_assoc. Qed.

Lemma all_chars_mono (P Q : ascii -> bool) s : (forall a, P a = true -> Q a = true) -> all_chars P s = true -> all_chars Q s = true.
Proof. intros H. induction s as [|a s IH]; [done|]. cbn [all_chars]. rewrite !andb_true_iff. intros [? ?]. auto. Qed.

Lemma cut_at_app sep s t : all_chars (fun a => negb (Ascii.eqb a sep)) s = true -> cut_at sep (s +:+ String sep t) = Some (s, t).
Proof.
  induction s as [|a s IH]; [change (EmptyString +:+ String sep t) with (String sep t); cbn [cut_at]; by rewrite Ascii.eqb_refl|]. rewrite append_cons. cbn [all_chars cut_at].
  destruct (Ascii.eqb a sep); cbn [negb andb]; [done|]. intros Hs. by rewrite IH.
Qed.

Lemma free_of_chars sep s : all_chars (fun a => negb (Ascii.eqb a sep)) s = true -> free_of sep s.
Proof.
  unfold free_of. induction s as [|a s IH]; [done|]. cbn [all_chars split_on]. destruct (Ascii.eqb a sep); cbn [negb andb]; [done|]. intros Hs. by rewrite IH.
Qed.

Lemma trim_left_none cut s : match s with String a _ => cut a = false | EmptyString => True end -> trim_left cut s = s.
Proof. destruct s as [|a s]; cbn; [done|]. by intros ->. Qed.

Lemma trim_right_none cut s t : t <> EmptyString -> all_chars (fun a => negb (cut a)) t = true -> trim_right cut (s +:+ t) = s +:+ t.
Proof.
  intros Hne Ht. assert (trim_right cut t = t) as Htt.
  { clear s. induction t as [|a t IH]; [done|]. cbn in Ht. apply andb_true_iff in Ht as [Ha Ht]. cbn.
    destruct t as [|b t]; [cbn; by destruct (cut a)|]. by rewrite IH. }
  induction s as [|a s IH]; [done|]. rewrite append_cons. cbn [trim_right]. rewrite IH.
  destruct (s +:+ t) as [|b u] eqn:E; [|done]. exfalso. by destruct s.
Qed.

Lemma trim_right_cut cut s a : cut a = true -> trim_right cut (s +:+ String a EmptyString) = trim_right cut s.
Proof.
  intros Ha. induction s as [|b s IH]; [change (EmptyString +:+ String a EmptyString) with (String a EmptyString); cbn [trim_right]; by rewrite Ha|].
  rewrite append_cons. cbn [trim_right]. by rewrite IH.
Qed.

Lemma map_str_id f s : all_chars (fun a => Ascii.eqb (f a) a) s = true -> map_str f s = s.
Proof.
  induction s as [|a s IH]; [done|]. cbn [all_chars map_str]. rewrite andb_true_iff. intros [->%Ascii.eqb_eq Hs]. by rewrite IH.
Qed.

(** Printable ASCII without the space. *)
Definition graphic (a : ascii) : bool := (33 <=? byte_of a) && (byte_of a <=? 126).

Lemma graphic_other a b : graphic b = false -> graphic a = true -> Ascii.eqb a b = false.
Proof. intros Hb Ha. destruct (Ascii.eqb_spec a b) as [->|]; [congruence|done]. Qed.

Lemma strip_space_graphic a bs : graphic a = true -> strip_space (byte_of a :: bs) = None.
Proof.
  unfold graphic. rewrite andb_true_iff, !Z.leb_le. intros [Hlo Hhi]. unfold strip_space, ascii_space.
  rewrite (proj2 (Z.eqb_neq _ _)), (proj2 (Z.leb_gt _ 13)) by lia. rewrite andb_false_r. cbn [orb].
  generalize dependent (byte_of a). intros b Hlo Hhi.
  destruct b as [|p|p]; try done. repeat (destruct p as [p|p|]; try done); lia.
Qed.

Lemma take_field_graphic s : all_chars graphic s = true -> take_field (bytes_of s) = (bytes_of s, []).
Proof.
  induction s as [|a s IH]; [done|]. cbn [all_chars bytes_of take_field]. rewrite andb_true_iff. intros [Ha Hs].
  by rewrite strip_space_graphic, IH.
Qed.

Lemma Fields_graphic s : s <> EmptyString -> all_chars graphic s = true -> Fields s = [s].
Proof.
  destruct s as [|a s]; [done|]. intros _ Hs. unfold Fields. pose proof (take_field_graphic _ Hs) as Ht.
  cbn [all_chars] in Hs. apply andb_true_iff in Hs as [Ha Hs]. cbn [String.length bytes_of fields_loop length strip_all] in *.
  rewrite strip_space_graphic by done. rewrite Ht. destruct (String.length s); cbn; by rewrite ascii_of_byte_of, string_of_bytes_of.
Qed.

(** *** The last occurrence of a byte, and the first of a substring *)

Lemma LastIndexByte_free c s : all_chars (fun a => negb (Ascii.eqb a c)) s = true -> LastIndexByte s c = None.
Proof. induction s as [|a s IH]; [done|]. cbn [all_chars LastIndexByte]. destruct (Ascii.eqb a c); cbn [negb andb]; [done|]. intros Hs. by rewrite IH. Qed.

Lemma LastIndexByte_app c s t : all_chars (fun a => negb (Ascii.eqb a c)) t = true -> LastIndexByte (s +:+ String c t) c = Some (String.length s).
Proof.
  intros Ht. induction s as [|a s IH].
  - change (EmptyString +:+ String c t) with (String c t). cbn [LastIndexByte String.length]. by rewrite LastIndexByte_free, Ascii.eqb_refl.
  - rewrite append_cons. cbn [LastIndexByte String.length]. by rewrite IH.
Qed.

Lemma LastIndexByte_Some c s i : LastIndexByte s c = Some i -> s = take_str i s +:+ String c (drop_str (S i) s).
Proof.
  revert i. induction s as [|a s IH]; intros i; [done|]. cbn [LastIndexByte]. destruct (LastIndexByte s c) as [j|] eqn:Ej.
  - intros [= <-]. cbn [take_str drop_str]. rewrite append_cons. f_equal. by apply IH.
  - destruct (Ascii.eqb_spec a c) as [->|]; [|done]. intros [= <-]. cbn [take_str drop_str]. by destruct s.
Qed.

(** The same last byte splits a string in one way only. *)
Lemma last_split_inj c s t s' t' : all_chars (fun a => negb (Ascii.eqb a c)) t = true -> all_chars (fun a => negb (Ascii.eqb a c)) t' = true ->
  s +:+ String c t = s' +:+ String c t' -> s = s' /\ t = t'.
Proof.
  intros Ht Ht' E. assert (String.length s = String.length s') as Hlen.
  { pose proof (LastIndexByte_app c s t Ht) as H. rewrite E, LastIndexByte_app in H by done. by injection H. }
  split.
  - by rewrite <- (take_str_app s (String c t)), E, Hlen, take_str_app.
  - assert (String c t = String c t') as [= ->]; [|done]. by rewrite <- (drop_str_app s (String c t)), E, Hlen, drop_str_app.
Qed.

Lemma HasPrefix_long s p : (String.length p <= String.length s)%nat -> forall t, HasPrefix (s +:+ t) p = HasPrefix s p.
Proof.
  intros Hlen t. unfold HasPrefix. revert s Hlen. induction p as [|b p IH]; intros s Hlen; [by destruct s|].
  destruct s as [|a s]; cbn [String.length] in Hlen; [lia|]. rewrite append_cons. cbn [trim_prefix_aux].
  destruct (Ascii.eqb b a); [|done]. apply IH. lia.
Qed.

Lemma Index_length s p i : Index s p = Some i -> (i + String.length p <= String.length s)%nat.
Proof.
  revert i. induction s as [|a s IH]; intros i; cbn [Index]; destruct (HasPrefix _ p) eqn:Hp.
  - intros [= <-]. apply HasPrefix_app in Hp as [rest E]. rewrite E, length_str_app. lia.
  - done.
  - intros [= <-]. apply HasPrefix_app in Hp as [rest E]. rewrite E, length_str_app. lia.
  - intros (j & Hj & ->)%fmap_Some. apply IH in Hj. cbn. lia.
Qed.

Lemma Index_app s p t i : Index s p = Some i -> Index (s +:+ t) p = Some i.
Proof.
  revert i. induction s as [|a s IH]; intros i Hi.
  - pose proof (Index_length _ _ _ Hi) as Hl. cbn in Hl. destruct p; [|cbn in Hl; lia]. cbn in Hi. injection Hi as <-. by destruct t.
  - pose proof (Index_length _ _ _ Hi) as Hl. rewrite append_cons. cbn [Index] in *. rewrite <- append_cons.
    rewrite HasPrefix_long by (cbn in *; lia). destruct (HasPrefix (String a s) p); [done|].
    apply fmap_Some in Hi as (j & Hj & ->). by rewrite (IH j Hj).
Qed.
