(* ===== verification/GoScanner.v ===== *)
(** * Go: reading a text by lines and fields

    bufio.Scanner with its default split function, and what the fields of a
    line are when it was written by joining words with spaces. *)

From Stdlib Require Import Ascii String ZArith Lia.
From stdpp Require Import base strings gmap numbers sorting list.
From S2P Require Import Prelude GoStd GoStrings.

Local Open Scope Z_scope.
Local Open Scope string_scope.

(** ** bufio.Scanner, ScanLines *)

Definition LF : ascii := "010".
Definition CR : ascii := "013".

Fixpoint dropCR (s : string) : string :=
  match s with
  | EmptyString => EmptyString
  | String a EmptyString => if Ascii.eqb a CR then EmptyString else s
  | String a s => String a (dropCR s)
  end.

(** The buffer holds at most [MaxScanTokenSize] bytes, line feed included: the
    scan ends without a word at a longer line. *)
Definition MaxScanTokenSize : Z := 65536.
Definition fits (line : string) : bool := (Z.of_nat (String.length line) <? MaxScanTokenSize)%Z.

(** The pieces between line feeds; the last one is a line only if it is not
    empty. *)
Fixpoint scan_pieces (pieces : list string) : list string :=
  match pieces with
  | [] => []
  | line :: rest =>
      match line, rest with
      | EmptyString, [] => []
      | _, _ => if fits line then dropCR line :: scan_pieces rest else []
      end
  end.

(** The texts of [for scanner.Scan() { scanner.Text() }]. *)
Definition scan_lines (content : string) : list string := scan_pieces (split_on LF content).

Example scan_lines_ex :
  scan_lines ("a b" +:+ String CR (String LF (String LF "c"))) = ["a b"; ""; "c"] /\
  scan_lines ("a" +:+ String LF EmptyString) = ["a"] /\ scan_lines EmptyString = [].
Proof. repeat split. Qed.

(** ** Words joined by spaces *)

Record word (s : string) : Prop := {
  word_nonempty : s <> EmptyString;
  word_graphic : all_chars graphic s = true
}.

#[export] Instance word_dec s : Decision (word s).
Proof.
  refine (cast_if (decide (s <> EmptyString /\ all_chars graphic s = true))); [by destruct a as [H1 H2]; split|].
  intros [H1 H2]. by apply n.
Defined.

(** What ends a field: nothing, or a space. *)
Definition ended (bs : list Z) : Prop := bs = [] \/ exists rest, bs = 32 :: rest.

Lemma take_field_ended s bs : all_chars graphic s = true -> ended bs -> take_field (bytes_of s ++ bs) = (bytes_of s, bs).
Proof.
  intros Hs Hbs. induction s as [|a s IH]; cbn [bytes_of all_chars app] in *.
  - destruct Hbs as [->|[rest ->]]; done.
  - apply andb_true_iff in Hs as [Ha Hs]. cbn [take_field]. by rewrite strip_space_graphic, IH.
Qed.

Lemma strip_all_graphic fuel a bs : graphic a = true -> strip_all strip_space fuel (byte_of a :: bs) = byte_of a :: bs.
Proof. intros Ha. destruct fuel as [|fuel]; [done|]. cbn [strip_all]. by rewrite strip_space_graphic. Qed.

(** Four spaces, the separator of the files written here. *)
Definition gap : string := "    ".

Lemma strip_all_gap n w bs : word w ->
  strip_all strip_space (S (S (S (S n)))) (bytes_of gap ++ bytes_of w ++ bs) = (bytes_of w ++ bs)%list.
Proof.
  intros [Hne Hw]. destruct w as [|a w]; [done|]. cbn [all_chars] in Hw. apply andb_true_iff in Hw as [Ha _].
  change (strip_all strip_space n (bytes_of (String a w) ++ bs) = (bytes_of (String a w) ++ bs)%list). cbn [bytes_of app].
  by apply strip_all_graphic.
Qed.

Definition gapped (ws : list string) : string := join_with gap ws.

Lemma gapped_cons w ws : ws <> [] -> gapped (w :: ws) = w +:+ gap +:+ gapped ws.
Proof. apply join_with_cons. Qed.

Lemma fields_loop_gapped ws : Forall word ws ->
  forall fuel, (String.length (gapped ws) <= fuel)%nat -> fields_loop fuel (bytes_of (gapped ws)) = bytes_of <$> ws /\
  (ws <> [] -> fields_loop fuel (bytes_of gap ++ bytes_of (gapped ws)) = bytes_of <$> ws).
Proof.
  induction 1 as [|w ws Hw Hws IH]; intros fuel Hf; [by destruct fuel|].
  assert (exists tl, bytes_of (gapped (w :: ws)) = (bytes_of w ++ tl)%list /\ ended tl /\
    (tl = [] /\ ws = [] \/ tl = (bytes_of gap ++ bytes_of (gapped ws))%list /\ ws <> [])) as (tl & Htl & Hend & Hcase).
  { destruct ws as [|w' ws].
    - exists []. rewrite app_nil_r. repeat split; [by left|by left].
    - exists (bytes_of gap ++ bytes_of (gapped (w' :: ws)))%list. rewrite gapped_cons, !bytes_of_app by done.
      repeat split; [|by right]. right. by eexists. }
  assert (forall fuel, (S (String.length (gapped ws)) <= fuel)%nat \/ ws = [] /\ (1 <= fuel)%nat ->
    fields_loop fuel (bytes_of w ++ tl) = bytes_of <$> (w :: ws)) as Hgo.
  { clear fuel Hf. intros fuel Hf. destruct fuel as [|fuel]; [lia|].
    destruct Hw as [Hne Hg]. pose proof (take_field_ended w tl Hg Hend) as Ht. destruct w as [|a w]; [done|].
    pose proof Hg as Ha. cbn [all_chars] in Ha. apply andb_true_iff in Ha as [Ha _].
    cbn [fields_loop]. cbn [bytes_of app] in Ht |- *. rewrite strip_all_graphic by done. rewrite Ht, fmap_cons. f_equal.
    destruct Hcase as [[-> ->]|[-> Hn]]; [by destruct fuel|]. apply IH; [by destruct Hf as [?|[? _]]; [lia|]|done]. }
  assert (S (String.length (gapped ws)) <= String.length (gapped (w :: ws)) \/ ws = [] /\ 1 <= String.length (gapped (w :: ws)))%nat as Hlen.
  { destruct Hw as [Hne _]. destruct w as [|a w]; [done|]. destruct ws as [|w' ws]; [right; split; [done|]; cbn; lia|].
    left. rewrite (gapped_cons (String a w)), !length_str_app by done. cbn [String.length]. lia. }
  assert (fields_loop fuel (bytes_of w ++ tl) = bytes_of <$> (w :: ws)) as H.
  { apply Hgo. destruct Hlen as [?|[? ?]]; [left; lia|right; split; [done|lia]]. }
  assert (0 < fuel)%nat as Hpos by (destruct Hlen as [?|[? ?]]; lia).
  rewrite Htl. split; [done|]. intros _. destruct fuel as [|fuel]; [lia|]. destruct Hw as [Hne Hg]. destruct w as [|a w]; [done|].
  pose proof Hg as Ha. cbn [all_chars] in Ha. apply andb_true_iff in Ha as [Ha _].
  cbn [fields_loop] in H |- *. cbn [bytes_of app] in H |- *. rewrite strip_all_graphic in H by done. rewrite length_app.
  change (length (bytes_of gap)) with 4%nat. cbn [Nat.add length].
  by rewrite (strip_all_gap _ (String a EmptyString) (bytes_of w ++ tl))
    by (split; [done|cbn [all_chars]; by rewrite Ha]).
Qed.

(** The fields of a line written by joining words are the words. *)
Lemma Fields_gapped ws : Forall word ws -> Fields (gapped ws) = ws.
Proof.
  intros H. unfold Fields. rewrite (proj1 (fields_loop_gapped ws H _ (le_n _))).
  clear H. induction ws as [|w ws IH]; [done|]. rewrite !fmap_cons, IH. by rewrite string_of_bytes_of.
Qed.

(** ** Lines written one by one *)

Definition line_end : string := String LF EmptyString.

Definition in_line (a : ascii) : bool := graphic a || Ascii.eqb a " ".

Lemma in_line_LF s : all_chars in_line s = true -> free_of LF s.
Proof.
  intros H. apply free_of_chars. revert H. apply all_chars_mono. intros a. unfold in_line.
  destruct (Ascii.eqb_spec a LF) as [->|]; [done|]. done.
Qed.

Lemma dropCR_in_line s : all_chars in_line s = true -> dropCR s = s.
Proof.
  induction s as [|a s IH]; [done|]. cbn [all_chars]. rewrite andb_true_iff. intros [Ha Hs]. cbn [dropCR].
  destruct s as [|b s]; [|by rewrite IH]. destruct (Ascii.eqb_spec a CR) as [->|]; done.
Qed.

(** A file written line by line is read back line by line. *)
Lemma scan_lines_written ls : Forall (fun l => all_chars in_line l = true /\ fits l = true) ls ->
  scan_lines (foldr (fun l rest => l +:+ line_end +:+ rest) EmptyString ls) = ls.
Proof.
  unfold scan_lines. induction 1 as [|l ls [Hin Hfit] Hls IH]; [done|]. cbn [foldr].
  change (line_end +:+ ?r) with (String LF r). rewrite split_on_app, (in_line_LF l Hin). cbn [app scan_pieces].
  rewrite Hfit, (dropCR_in_line l Hin), IH.
  pose proof (split_on_nonempty LF (foldr (fun l rest => l +:+ line_end +:+ rest) EmptyString ls)) as Hne.
  destruct l; [|done]. by destruct (split_on LF _).
Qed.

Lemma gapped_in_line ws : Forall word ws -> all_chars in_line (gapped ws) = true.
Proof.
  induction 1 as [|w ws [Hne Hg] Hws IH]; [done|].
  assert (all_chars in_line w = true) as Hw.
  { revert Hg. apply all_chars_mono. intros a Ha. unfold in_line. by rewrite Ha. }
  destruct ws as [|w' ws]; [done|]. by rewrite gapped_cons, !all_chars_app, Hw, IH by done.
Qed.
