(* ===== verification/GoJson.v ===== *)
(** * encoding/json for a slice of strings

    [MarshalStrings] is [json.Marshal] of a [[]string], with the escapes of
    the Go encoder; [UnmarshalStrings] is [json.Unmarshal] into a fresh
    [[]string], where any syntax error or element of another type is an
    error.  The grid controller writes the [topologyKeys] annotation with the
    one and the wrapper reads it with the other. *)

From Stdlib Require Import ZArith Lia Ascii String.
From stdpp Require Import base strings gmap numbers sorting list.
From S2P Require Import Prelude.
From S2P Require Import GoStd.

Local Open Scope Z_scope.

(** ** UTF-8 *)

Definition cont (lo hi b : Z) : bool := (lo <=? b) && (b <=? hi).

(** The width of the valid multi-byte sequence at the head, if there is one. *)
Definition utf8_width (bs : list Z) : option nat :=
  match bs with
  | b0 :: b1 :: rest =>
      if cont 194 223 b0 then (if cont 128 191 b1 then Some 2%nat else None)
      else match rest with
      | b2 :: rest' =>
          let ok1 := if b0 =? 224 then cont 160 191 b1
                     else if b0 =? 237 then cont 128 159 b1
                     else cont 225 239 b0 && cont 128 191 b1 in
          if ok1 && cont 128 191 b2 then Some 3%nat
          else match rest' with
          | b3 :: _ =>
              let ok2 := if b0 =? 240 then cont 144 191 b1
                         else if b0 =? 244 then cont 128 143 b1
                         else cont 241 243 b0 && cont 128 191 b1 in
              if ok2 && cont 128 191 b2 && cont 128 191 b3 then Some 4%nat else None
          | [] => None
          end
      | [] => None
      end
  | _ => None
  end.

(** The bytes of a code point. *)
Definition utf8_encode (r : Z) : list Z :=
  if r <? 128 then [r]
  else if r <? 2048 then [192 + r / 64; 128 + r mod 64]
  else if r <? 65536 then [224 + r / 4096; 128 + (r / 64) mod 64; 128 + r mod 64]
  else [240 + r / 262144; 128 + (r / 4096) mod 64; 128 + (r / 64) mod 64; 128 + r mod 64].

Definition replacement : list Z := [239; 191; 189].

(** ** Encoding *)

Definition hex_digit (d : Z) : Z := if d <? 10 then 48 + d else 97 + (d - 10).

(** [\u00XY] for a byte. *)
Definition u_escape (b : Z) : list Z := [92; 117; 48; 48; hex_digit (b / 16); hex_digit (b mod 16)].

Definition escape_ascii (b : Z) : list Z :=
  if (b =? 92) || (b =? 34) then [92; b]
  else if b =? 10 then [92; 110]
  else if b =? 13 then [92; 114]
  else if b =? 9 then [92; 116]
  else if (b <? 32) || (b =? 60) || (b =? 62) || (b =? 38) then u_escape b
  else [b].

Fixpoint encode_body (fuel : nat) (bs : list Z) : list Z :=
  match fuel with
  | O => []
  | S f =>
      match bs with
      | [] => []
      | b :: rest =>
          if b <? 128 then escape_ascii b ++ encode_body f rest
          else match utf8_width bs with
               | None => [92; 117; 102; 102; 102; 100] ++ encode_body f rest
               | Some n =>
                   match bs with
                   | 226 :: 128 :: 168 :: rest' => [92; 117; 50; 48; 50; 56] ++ encode_body f rest'
                   | 226 :: 128 :: 169 :: rest' => [92; 117; 50; 48; 50; 57] ++ encode_body f rest'
                   | _ => take n bs ++ encode_body f (drop n bs)
                   end
               end
      end
  end.

Definition encode_string (s : string) : list Z :=
  34 :: encode_body (length (bytes_of s)) (bytes_of s) ++ [34].

Fixpoint encode_elems (l : list string) : list Z :=
  match l with
  | [] => []
  | [x] => encode_string x
  | x :: rest => encode_string x ++ 44 :: encode_elems rest
  end.

(** [json.Marshal(keys)] as a string. *)
Definition MarshalStrings (l : list string) : string := string_of (91 :: encode_elems l ++ [93]).

(** ** Decoding *)

Definition u4 (bs : list Z) : option Z :=
  match bs with
  | a :: b :: c :: d :: _ =>
      match hex_val a, hex_val b, hex_val c, hex_val d with
      | Some a, Some b, Some c, Some d => Some (((a * 16 + b) * 16 + c) * 16 + d)
      | _, _, _, _ => None
      end
  | _ => None
  end.

(** The low half of a surrogate pair, when one follows. *)
Definition low_surrogate (bs : list Z) : option Z :=
  match bs with
  | 92 :: 117 :: rest =>
      match u4 rest with
      | Some r => if cont 56320 57343 r then Some r else None
      | None => None
      end
  | _ => None
  end.

(** After the opening quote: the decoded bytes and what follows the closing
    quote. *)
Fixpoint decode_body (fuel : nat) (bs : list Z) : option (list Z * list Z) :=
  match fuel with
  | O => None
  | S f =>
      let emit (out : list Z) (rest : list Z) :=
        match decode_body f rest with
        | Some (tl, after) => Some (out ++ tl, after)
        | None => None
        end in
      match bs with
      | [] => None
      | 34 :: rest => Some ([], rest)
      | 92 :: c :: rest =>
          if (c =? 34) || (c =? 92) || (c =? 47) then emit [c] rest
          else if c =? 98 then emit [8] rest
          else if c =? 102 then emit [12] rest
          else if c =? 110 then emit [10] rest
          else if c =? 114 then emit [13] rest
          else if c =? 116 then emit [9] rest
          else if c =? 117 then
            match u4 rest with
            | None => None
            | Some r =>
                let rest' := drop 4 rest in
                if cont 55296 57343 r then
                  match (if r <=? 56319 then low_surrogate rest' else None) with
                  | Some r1 => emit (utf8_encode ((r - 55296) * 1024 + (r1 - 56320) + 65536)) (drop 6 rest')
                  | None => emit replacement rest'
                  end
                else emit (utf8_encode r) rest'
            end
          else None
      | b :: rest =>
          if b <? 32 then None
          else if b <? 128 then emit [b] rest
          else match utf8_width bs with
               | Some n => emit (take n bs) (drop n bs)
               | None => emit replacement rest
               end
      end
  end.

Fixpoint skip_ws (bs : list Z) : list Z :=
  match bs with
  | b :: rest => if (b =? 32) || (b =? 9) || (b =? 10) || (b =? 13) then skip_ws rest else bs
  | [] => []
  end.

(** One element of the array: a string, or [null], which leaves the zero
    value. *)
Definition decode_elem (bs : list Z) : option (string * list Z) :=
  match bs with
  | 34 :: rest =>
      match decode_body (length rest) rest with
      | Some (s, after) => Some (string_of s, after)
      | None => None
      end
  | 110 :: 117 :: 108 :: 108 :: rest => Some (EmptyString, rest)
  | _ => None
  end.

(** The elements from the first one on, up to the closing bracket. *)
Fixpoint decode_elems (fuel : nat) (bs : list Z) : option (list string * list Z) :=
  match fuel with
  | O => None
  | S f =>
      match decode_elem bs with
      | None => None
      | Some (x, rest) =>
          match skip_ws rest with
          | 93 :: after => Some ([x], after)
          | 44 :: rest' =>
              match decode_elems f (skip_ws rest') with
              | Some (xs, after) => Some (x :: xs, after)
              | None => None
              end
          | _ => None
          end
      end
  end.

(** [json.Unmarshal(data, &keys)] with [keys] a nil slice: [None] is an error. *)
Definition UnmarshalStrings (data : string) : option (gslice string) :=
  let bs := skip_ws (bytes_of data) in
  match bs with
  | 110 :: 117 :: 108 :: 108 :: rest =>
      match skip_ws rest with [] => Some None | _ => None end
  | 91 :: rest =>
      match skip_ws rest with
      | 93 :: after => match skip_ws after with [] => Some (Some []) | _ => None end
      | elems =>
          match decode_elems (length elems) elems with
          | Some (xs, after) => match skip_ws after with [] => Some (Some xs) | _ => None end
          | None => None
          end
      end
  | _ => None
  end.


(** ** Decoding what was encoded *)

Definition ascii_only (s : string) : Prop := Forall (fun b => b < 128) (bytes_of s).

Definition ascii_byte (b : Z) : Prop := 0 <= b < 128.

Lemma ascii_only_bytes s : ascii_only s -> Forall ascii_byte (bytes_of s).
Proof.
  intros H. pose proof (bytes_of_range s) as Hr. unfold ascii_only in H.
  rewrite Forall_forall in *. intros b Hb. specialize (H b Hb). specialize (Hr b Hb).
  unfold ascii_byte. lia.
Qed.

(** A property of all ASCII bytes, by enumeration. *)
Lemma ascii_byte_ind (P : Z -> Prop) :
  Forall P (seqZ 0 128) -> forall b, ascii_byte b -> P b.
Proof. rewrite Forall_seqZ. intros H b Hb. apply H. unfold ascii_byte in Hb. lia. Qed.

Ltac enum_ascii :=
  apply ascii_byte_ind;
  let l := eval vm_compute in (seqZ 0 128) in change (seqZ 0 128) with l;
  repeat (apply Forall_cons_2; [reflexivity|]); apply Forall_nil_2.

Lemma decode_escape f rest b : ascii_byte b ->
  decode_body (S f) (escape_ascii b ++ rest) =
    match decode_body f rest with
    | Some (tl, after) => Some (b :: tl, after)
    | None => None
    end.
Proof.
  revert b. enum_ascii.
Qed.

Lemma escape_ascii_range b : ascii_byte b -> Forall (fun c => 0 <= c < 256) (escape_ascii b).
Proof.
  intros Hb. enough (forallb (fun c => (0 <=? c) && (c <? 256)) (escape_ascii b) = true) as H.
  { rewrite forallb_forall in H. apply Forall_forall. intros c Hc.
    apply list_elem_of_In, H in Hc. bool_to_prop. lia. }
  revert b Hb. enum_ascii.
Qed.

Lemma escape_ascii_nonempty b : (1 <= length (escape_ascii b))%nat.
Proof. unfold escape_ascii, u_escape. repeat case_match; simpl; lia. Qed.

Lemma encode_body_ascii fuel bs : Forall ascii_byte bs -> (length bs <= fuel)%nat ->
  encode_body fuel bs = concat (escape_ascii <$> bs).
Proof.
  intros H. revert fuel. induction H as [|b bs Hb Hbs IH]; intros [|fuel] Hf; simpl in *; try done; [lia|].
  unfold ascii_byte in Hb. destruct (Z.ltb_spec b 128); [|lia]. by rewrite IH by lia.
Qed.

Lemma decode_body_encoded bs rest fuel : Forall ascii_byte bs -> (length bs < fuel)%nat ->
  decode_body fuel (concat (escape_ascii <$> bs) ++ 34 :: rest) = Some (bs, rest).
Proof.
  intros H. revert fuel. induction H as [|b bs Hb Hbs IH]; intros [|fuel] Hf; simpl in Hf; try lia; [done|].
  cbn [fmap list_fmap concat]. rewrite <- app_assoc, decode_escape by done.
  by rewrite IH by lia.
Qed.

Lemma concat_escape_length bs : (length bs <= length (concat (escape_ascii <$> bs)))%nat.
Proof.
  induction bs as [|b bs IH]; [done|]. rewrite fmap_cons. cbn [concat].
  rewrite length_app. pose proof (escape_ascii_nonempty b). simpl. lia.
Qed.

Lemma encode_string_ascii s : ascii_only s ->
  encode_string s = 34 :: concat (escape_ascii <$> bytes_of s) ++ [34].
Proof. intros H%ascii_only_bytes. unfold encode_string. by rewrite encode_body_ascii. Qed.

Lemma decode_elem_encoded s rest : ascii_only s ->
  decode_elem (encode_string s ++ rest) = Some (s, rest).
Proof.
  intros Hs. rewrite encode_string_ascii by done. apply ascii_only_bytes in Hs.
  simpl. rewrite <- app_assoc. simpl. rewrite decode_body_encoded; [by rewrite string_of_bytes_of|done|].
  rewrite length_app. simpl. pose proof (concat_escape_length (bytes_of s)). lia.
Qed.

Lemma encode_elems_head l : l <> [] -> exists tl, encode_elems l = 34 :: tl.
Proof. destruct l as [|x [|y l]]; [done| |]; intros _; eexists; reflexivity. Qed.

Lemma decode_elems_encoded l after fuel : l <> [] -> Forall ascii_only l -> (length l <= fuel)%nat ->
  decode_elems fuel (encode_elems l ++ 93 :: after) = Some (l, after).
Proof.
  intros Hne Hl. revert fuel. induction Hl as [|x l Hx Hl IH]; intros fuel Hf; [done|].
  destruct fuel as [|fuel]; simpl in Hf; [lia|]. destruct l as [|y l].
  - cbn [encode_elems decode_elems]. by rewrite decode_elem_encoded.
  - change (encode_elems (x :: y :: l)) with (encode_string x ++ 44 :: encode_elems (y :: l)).
    rewrite <- app_assoc. cbn [decode_elems]. rewrite decode_elem_encoded by done.
    destruct (encode_elems_head (y :: l)) as [tl Htl]; [done|].
    specialize (IH ltac:(done) fuel ltac:(simpl in *; lia)). rewrite Htl in IH |- *.
    simpl in IH |- *. by rewrite IH.
Qed.

Lemma encode_string_length s : (2 <= length (encode_string s))%nat.
Proof. unfold encode_string. simpl. rewrite length_app. simpl. lia. Qed.

Lemma encode_elems_length l : (length l <= length (encode_elems l))%nat.
Proof.
  induction l as [|x l IH]; [done|]. pose proof (encode_string_length x).
  destruct l as [|y l]; [simpl in *; lia|].
  change (encode_elems (x :: y :: l)) with (encode_string x ++ 44 :: encode_elems (y :: l)).
  rewrite length_app. simpl length in *. lia.
Qed.

Lemma encode_elems_range l : Forall ascii_only l -> Forall (fun b => 0 <= b < 256) (encode_elems l).
Proof.
  assert (forall x, ascii_only x -> Forall (fun b => 0 <= b < 256) (encode_string x)) as Hstr.
  { intros x Hx. rewrite encode_string_ascii by done. apply ascii_only_bytes in Hx.
    constructor; [lia|]. apply Forall_app. split; [|constructor; [lia|constructor]].
    apply Forall_concat. apply Forall_fmap. eapply Forall_impl; [exact Hx|].
    intros b Hb. by apply escape_ascii_range. }
  induction 1 as [|x l Hx Hl IH]; [constructor|]. destruct l as [|y l]; [by apply Hstr|].
  change (encode_elems (x :: y :: l)) with (encode_string x ++ 44 :: encode_elems (y :: l)).
  apply Forall_app. split; [by apply Hstr|]. constructor; [lia|done].
Qed.

(** Unmarshalling what [Marshal] wrote gives the strings back. *)
Lemma Unmarshal_Marshal l : Forall ascii_only l -> UnmarshalStrings (MarshalStrings l) = Some (Some l).
Proof.
  intros Hl. unfold UnmarshalStrings, MarshalStrings. rewrite bytes_of_string_of.
  2:{ constructor; [lia|]. apply Forall_app.
      split; [by apply encode_elems_range|constructor; [lia|constructor]]. }
  simpl. destruct l as [|x l]; [done|].
  pose proof (decode_elems_encoded (x :: l) [] (length (encode_elems (x :: l) ++ [93]))
    ltac:(done) Hl) as Hd.
  destruct (encode_elems_head (x :: l)) as [tl Htl]; [done|].
  pose proof (encode_elems_length (x :: l)) as Hlen.
  rewrite Htl in Hlen, Hd |- *. simpl in *. rewrite Hd; [done|]. rewrite length_app. lia.
Qed.
