(* ===== verification/GoFloat.v ===== *)
(** * Go's float64

    [float64] is IEEE 754 binary64, executed by the standard library's
    [SpecFloat] operations at 53 bits of precision.  The lemmas show that the
    operations the components use are exact on integers below [2 ^ 53]. *)

From Stdlib Require Import ZArith Lia SpecFloat.
From stdpp Require Import base strings gmap numbers sorting list.
From S2P Require Import Prelude.

Local Open Scope Z_scope.

Definition float64 : Type := spec_float.
Definition float64_of_int (n : Z) : float64 := binary_normalize 53 1024 n 0 false.
Definition fadd (x y : float64) : float64 := SFadd 53 1024 x y.
Definition fmul (x y : float64) : float64 := SFmul 53 1024 x y.
Definition fdiv (x y : float64) : float64 := SFdiv 53 1024 x y.

(** [x >= y]; false when one of them is NaN. *)
Definition fge (x y : float64) : bool := SFleb y x.

#[export] Instance spec_float_eq_dec : EqDecision spec_float.
Proof. solve_decision. Defined.

(** ** Exactness on integers *)

(** The float of [n / 2 ^ s]. *)
Definition fin (n s : Z) : float64 :=
  S754_finite false (Z.to_pos (n * 2 ^ (52 - Z.log2 n))) (Z.log2 n - 52 - s).

Lemma digits2_log2 p : Zpos (digits2_pos p) = Z.log2 (Zpos p) + 1.
Proof.
  induction p as [p IH|p IH|]; [| |done].
  - rewrite Pos2Z.inj_xI, Z.log2_succ_double by lia. simpl digits2_pos. lia.
  - rewrite Pos2Z.inj_xO, Z.log2_double by lia. simpl digits2_pos. lia.
Qed.

Lemma Zdigits2_log2 z : 0 < z -> Zdigits2 z = Z.log2 z + 1.
Proof. destruct z; try lia. intros _. apply digits2_log2. Qed.

Lemma iter_pos_iter {A : Type} (f : A -> A) p x : SpecFloat.iter_pos f p x = Pos.iter f x p.
Proof. revert x. induction p; intros x; simpl; rewrite ?IHp; try done. by rewrite !Pos.iter_swap. Qed.

Lemma shr_1_double m : 0 <= m -> shr_1 (Build_shr_record (2 * m) false false) = Build_shr_record m false false.
Proof. intros Hm. destruct m; [done|done|lia]. Qed.

Lemma shr_exact q k e : 0 <= q -> 0 <= k ->
  shr (Build_shr_record (q * 2 ^ k) false false) e k = (Build_shr_record q false false, e + k).
Proof.
  intros Hq Hk. destruct k as [|p|p]; [simpl; by rewrite Z.mul_1_r, Z.add_0_r| |lia].
  simpl shr. f_equal. rewrite iter_pos_iter. clear e Hk. revert q Hq.
  induction p as [|p IH] using Pos.peano_ind; intros q Hq.
  - simpl Pos.iter. replace (q * 2 ^ 1) with (2 * q) by lia. by apply shr_1_double.
  - rewrite Pos.iter_succ_r. transitivity (Pos.iter shr_1 (Build_shr_record (q * 2 ^ Z.pos p) false false) p);
      [|by apply IH]. f_equal.
    rewrite Pos2Z.inj_succ, Z.pow_succ_r by lia.
    replace (q * (2 * 2 ^ Z.pos p)) with (2 * (q * 2 ^ Z.pos p)) by lia.
    apply shr_1_double. assert (0 < 2 ^ Z.pos p) by (apply Z.pow_pos_nonneg; lia). nia.
Qed.

Lemma log2_mul_pow2' n k : 0 < n -> 0 <= k -> Z.log2 (n * 2 ^ k) = Z.log2 n + k.
Proof. intros. rewrite Z.log2_mul_pow2 by lia. lia. Qed.

(** Rounding [q * 2 ^ (k + e)] when [q] has exactly 53 bits. *)
Lemma shr_fexp_exact q k e : 0 < q -> Z.log2 q = 52 -> 0 <= k -> -1074 <= e + k ->
  shr_fexp 53 1024 (q * 2 ^ k) e loc_Exact = (Build_shr_record q false false, e + k).
Proof.
  intros Hq Hl Hk He. assert (0 < 2 ^ k) by (apply Z.pow_pos_nonneg; lia).
  unfold shr_fexp. rewrite Zdigits2_log2, log2_mul_pow2', Hl by nia. unfold fexp, emin.
  replace (Z.max (52 + k + 1 + e - 53) (3 - 1024 - 53) - e) with k by lia.
  simpl shr_record_of_loc. by apply shr_exact; lia.
Qed.

Lemma round_aux_exact q k e : 0 < q -> Z.log2 q = 52 -> 0 <= k -> -1074 <= e + k <= 971 ->
  binary_round_aux 53 1024 false (q * 2 ^ k) e loc_Exact = S754_finite false (Z.to_pos q) (e + k).
Proof.
  intros Hq Hl Hk He. unfold binary_round_aux. rewrite shr_fexp_exact by lia.
  cbn [shr_m loc_of_shr_record round_nearest_even].
  pose proof (shr_fexp_exact q 0 (e + k) Hq Hl ltac:(lia) ltac:(lia)) as E.
  rewrite Z.mul_1_r, Z.add_0_r in E. rewrite E. cbn [shr_m].
  destruct q as [|p|p]; [lia| |lia]. destruct (Z.leb_spec (e + k) (1024 - 53)); [done|lia].
Qed.

Lemma iter_xO m d : Zpos (Pos.iter xO m d) = Zpos m * 2 ^ Zpos d.
Proof.
  induction d as [|d IH] using Pos.peano_ind; [simpl; lia|]. 
  rewrite Pos.iter_succ, Pos2Z.inj_xO, IH, Pos2Z.inj_succ, Z.pow_succ_r by lia. lia.
Qed.

(** The integer [n] as a mantissa at exponent [e], shifted left [k] places. *)
Lemma normalize_exact n k e : 0 < n < 2 ^ 53 -> 0 <= k -> -1000 <= e + k <= 0 ->
  binary_normalize 53 1024 (n * 2 ^ k) e false = fin n (- (e + k)).
Proof.
  intros Hn Hk He. assert (0 < 2 ^ k) by (apply Z.pow_pos_nonneg; lia).
  assert (0 <= Z.log2 n <= 52) as Hlog.
  { split; [apply Z.log2_nonneg|]. assert (Z.log2 n < 53) by (apply Z.log2_lt_pow2; lia). lia. }
  destruct (n * 2 ^ k) as [|M|M] eqn:HM; [nia| |nia]. unfold binary_normalize, binary_round.
  rewrite digits2_log2, <- HM, log2_mul_pow2' by lia. unfold fexp, emin, fin.
  replace (Z.max (Z.log2 n + k + 1 + e - 53) (3 - 1024 - 53)) with (Z.log2 n + k + e - 52) by lia.
  unfold shl_align. set (q := n * 2 ^ (52 - Z.log2 n)).
  assert (0 < q /\ Z.log2 q = 52) as [Hq Hlq].
  { unfold q. split; [apply Z.mul_pos_pos; [lia|apply Z.pow_pos_nonneg; lia]|].
    rewrite log2_mul_pow2' by lia. lia. }
  destruct (Z.log2 n + k + e - 52 - e) as [|j|j] eqn:Hj.
  - replace (Zpos M) with (q * 2 ^ 0) by (unfold q; rewrite <- HM; replace (52 - Z.log2 n) with k by lia; lia).
    rewrite round_aux_exact by lia. f_equal. lia.
  - replace (Zpos M) with (q * 2 ^ Zpos j).
    { rewrite round_aux_exact by lia. f_equal. lia. }
    unfold q. rewrite <- HM, <- Z.mul_assoc, <- Z.pow_add_r by lia. f_equal. f_equal. lia.
  - rewrite iter_xO. replace (Zpos M * 2 ^ Zpos j) with (q * 2 ^ 0).
    { rewrite round_aux_exact by lia. f_equal. lia. }
    unfold q. rewrite <- HM, <- !Z.mul_assoc, <- !Z.pow_add_r by lia. f_equal. f_equal. lia.
Qed.

Lemma float64_of_int_exact n : 0 < n < 2 ^ 53 -> float64_of_int n = fin n 0.
Proof.
  intros Hn. unfold float64_of_int. rewrite <- (Z.mul_1_r n) at 1. change 1 with (2 ^ 0) at 1.
  by rewrite normalize_exact by lia.
Qed.

Lemma fin_mantissa n s : 0 < n < 2 ^ 53 -> exists m, fin n s = S754_finite false m (Z.log2 n - 52 - s)
  /\ Zpos m = n * 2 ^ (52 - Z.log2 n).
Proof.
  intros Hn. assert (Z.log2 n < 53) by (apply Z.log2_lt_pow2; lia).
  exists (Z.to_pos (n * 2 ^ (52 - Z.log2 n))). split; [done|]. rewrite Z2Pos.id; [done|].
  apply Z.mul_pos_pos; [lia|]. apply Z.pow_pos_nonneg; lia.
Qed.

Lemma fadd_one n : 0 <= n < 2 ^ 53 - 1 -> fadd (float64_of_int n) (float64_of_int 1) = fin (n + 1) 0.
Proof.
  intros Hn. destruct (decide (n = 0)) as [->|Hn0]; [vm_compute; reflexivity|].
  rewrite !float64_of_int_exact by lia. unfold fadd.
  destruct (fin_mantissa n 0) as (m & -> & Hm); [lia|].
  destruct (fin_mantissa 1 0) as (m1 & -> & Hm1); [lia|]. change (Z.log2 1) with 0 in *.
  assert (0 <= Z.log2 n <= 52) as Hlog.
  { split; [apply Z.log2_nonneg|]. assert (Z.log2 n < 53) by (apply Z.log2_lt_pow2; lia). lia. }
  cbn [SFadd cond_Zopp]. replace (Z.min (Z.log2 n - 52 - 0) (0 - 52 - 0)) with (-52) by lia.
  replace (Zpos (fst (shl_align m (Z.log2 n - 52 - 0) (-52)))) with (n * 2 ^ 52).
  2:{ unfold shl_align. destruct (-52 - (Z.log2 n - 52 - 0)) as [|j|j] eqn:Hj; [|lia|].
      - simpl. rewrite Hm. f_equal. f_equal. lia.
      - simpl. rewrite iter_xO, Hm, <- Z.mul_assoc, <- Z.pow_add_r by lia. f_equal. f_equal. lia. }
  replace (Zpos (fst (shl_align m1 (0 - 52 - 0) (-52)))) with (1 * 2 ^ 52) by (simpl; lia).
  rewrite <- Z.mul_add_distr_r. by rewrite normalize_exact by lia.
Qed.

Lemma fdiv_two n : 0 < n < 2 ^ 53 -> fdiv (fin n 0) (float64_of_int 2) = fin n 1.
Proof.
  intros Hn. rewrite float64_of_int_exact by lia. unfold fdiv.
  destruct (fin_mantissa n 0) as (m & -> & Hm); [lia|].
  destruct (fin_mantissa 2 0) as (m2 & -> & Hm2); [lia|]. change (Z.log2 2) with 1 in *.
  assert (0 <= Z.log2 n <= 52) as Hlog.
  { split; [apply Z.log2_nonneg|]. assert (Z.log2 n < 53) by (apply Z.log2_lt_pow2; lia). lia. }
  assert (Z.log2 (Zpos m) = 52) as Hlm by (rewrite Hm, log2_mul_pow2' by lia; lia).
  assert (m2 = 4503599627370496%positive) as -> by lia. clear Hm2.
  cbn [SFdiv]. unfold SFdiv_core_binary. cbn [Zdigits2]. rewrite digits2_log2, Hlm.
  change (Z.pos (digits2_pos 4503599627370496)) with 53. unfold fexp, emin.
  replace (Z.min _ _) with (Z.log2 n - 54) by lia.
  replace (Z.log2 n - 52 - 0 - (1 - 52 - 0) - (Z.log2 n - 54)) with 53 by lia.
  cbv beta iota. rewrite Z.shiftl_mul_pow2 by lia.
  pose proof (Z_div_exact_2 (Zpos m * 2 ^ 53) 4503599627370496) as Hd.
  unfold Z.div, Z.modulo in Hd. destruct (Z.div_eucl (Zpos m * 2 ^ 53) 4503599627370496) as [q r] eqn:Hqr.
  pose proof (Z_div_mod (Zpos m * 2 ^ 53) 4503599627370496 ltac:(lia)) as Hdm. rewrite Hqr in Hdm.
  assert (r = 0 /\ q = Zpos m * 2 ^ 1) as [-> ->] by lia.
  unfold new_location, new_location_even. simpl Z.even. cbv iota. simpl (0 =? 0). cbv iota.
  rewrite round_aux_exact by lia. unfold fin. rewrite <- Hm. f_equal. lia.
Qed.

(** Comparison at a common scale. *)
Lemma SFleb_fin a b s : 0 < a < 2 ^ 53 -> 0 < b < 2 ^ 53 -> SFleb (fin a s) (fin b s) = (a <=? b).
Proof.
  intros Ha Hb. destruct (fin_mantissa a s) as (ma & -> & Hma); [lia|].
  destruct (fin_mantissa b s) as (mb & -> & Hmb); [lia|]. unfold SFleb, SFcompare.
  destruct (Z.compare_spec (Z.log2 a - 52 - s) (Z.log2 b - 52 - s)) as [He|He|He].
  - change (Pos.compare_cont Eq ma mb) with (Pos.compare ma mb).
    assert (Z.log2 a = Z.log2 b) as Hlog by lia. rewrite Hlog in Hma.
    assert (Z.log2 b < 53) by (apply Z.log2_lt_pow2; lia).
    assert (0 < 2 ^ (52 - Z.log2 b)) by (apply Z.pow_pos_nonneg; lia).
    destruct (Pos.compare_spec ma mb); symmetry; [apply Z.leb_le|apply Z.leb_le|apply Z.leb_gt]; nia.
  - symmetry. apply Z.leb_le. assert (a < b) by (apply Z.log2_lt_cancel; lia). lia.
  - symmetry. apply Z.leb_gt. apply Z.log2_lt_cancel; lia.
Qed.

Lemma fin_double n : 0 < n < 2 ^ 52 -> fin n 0 = fin (2 * n) 1.
Proof.
  intros Hn. unfold fin. rewrite Z.log2_double by lia.
  assert (Z.log2 n < 52) by (apply Z.log2_lt_pow2; lia).
  f_equal; [|lia]. f_equal. replace (52 - Z.log2 n) with (Z.succ (52 - Z.succ (Z.log2 n))) by lia.
  rewrite Z.pow_succ_r by lia. lia.
Qed.

(** [float64(y) >= (float64(n) + 1) / 2] is exactly a strict majority. *)
Lemma fge_half n y : 0 <= n < 2 ^ 52 -> 0 < y < 2 ^ 52 ->
  fge (float64_of_int y) (fdiv (fadd (float64_of_int n) (float64_of_int 1)) (float64_of_int 2))
  = (n + 1 <=? 2 * y).
Proof.
  intros Hn Hy. unfold fge. rewrite fadd_one, fdiv_two, float64_of_int_exact, fin_double by lia.
  apply SFleb_fin; lia.
Qed.
