(* ===== verification/GoTemplate.v ===== *)
(** * text/template and the regular expression of the manifests

    The program's manifests are templates that use two actions of
    text/template, a field of the data and a loop over a slice:
    [Parse] and [Execute] are the parser and the interpreter for templates
    made of text and these actions; any other action is refused.
    [split_documents] is [regexp.Split] with the expression that separates
    the documents of a manifest, a line of three or more dashes. *)

From Stdlib Require Import ZArith Lia Ascii String.
From stdpp Require Import base strings gmap numbers sorting list.
From S2P Require Import Prelude.
From S2P Require Import GoStd.

(** ** Data *)

(** The data of a template: a string, a [map[string]interface{}], a struct,
    or a slice. *)
Inductive tvalue : Type :=
| TString (s : string)
| TMap (m : list (string * tvalue))
| TStruct (fields : list (string * tvalue))
| TSlice (l : list tvalue).

Fixpoint assoc {A : Type} (k : string) (l : list (string * A)) : option A :=
  match l with
  | [] => None
  | (k', v) :: l => if String.eqb k k' then Some v else assoc k l
  end.

(** ** Parsing *)

Inductive token : Type := TText (s : string) | TAction (s : string).

Definition string_rev (s : string) : string := String.rev s.

(** The text and the actions of a template; [cur] is what was read of the
    current one, backwards.  An action that is not closed is an error. *)
Fixpoint lex (inside : bool) (cur : string) (s : string) : option (list token) :=
  match s with
  | EmptyString => if inside then None else Some [TText (string_rev cur)]
  | String "{"%char (String "{"%char rest) =>
      if inside then None else option_map (cons (TText (string_rev cur))) (lex true EmptyString rest)
  | String "}"%char (String "}"%char rest) =>
      if inside then option_map (cons (TAction (TrimSpace (string_rev cur)))) (lex false EmptyString rest)
      else option_map id (lex inside (String "}"%char (String "}"%char cur)) rest)
  | String c rest => lex inside (String c cur) rest
  end.

Inductive tnode : Type :=
| NText (s : string)
| NField (name : string)
| NRange (name : string) (body : list tnode).

Inductive action : Type := AField (name : string) | ARange (name : string) | AEnd.

(** [.Name], [range $i, $x := .Name] and [end]; the loop variables are not
    used by the manifests. *)
Definition parse_action (s : string) : option action :=
  match s with
  | String "."%char name => Some (AField name)
  | _ =>
      if String.eqb s "end" then Some AEnd
      else match split_on " "%char s with
           | [r; _; _; eq; String "."%char name] =>
               if (String.eqb r "range" && String.eqb eq ":=")%bool then Some (ARange name) else None
           | _ => None
           end
  end.

(** [stack] has the loops that are open, with what came before each. *)
Fixpoint parse_tokens (toks : list token) (stack : list (string * list tnode)) (cur : list tnode) : option (list tnode) :=
  match toks with
  | [] => match stack with [] => Some (reverse cur) | _ => None end
  | TText s :: toks => parse_tokens toks stack (NText s :: cur)
  | TAction s :: toks =>
      match parse_action s with
      | Some (AField name) => parse_tokens toks stack (NField name :: cur)
      | Some (ARange name) => parse_tokens toks ((name, cur) :: stack) []
      | Some AEnd => match stack with
                     | (name, before) :: stack => parse_tokens toks stack (NRange name (reverse cur) :: before)
                     | [] => None
                     end
      | None => None
      end
  end.

Definition Parse (strtmpl : string) : option (list tnode) :=
  match lex false EmptyString strtmpl with
  | Some toks => parse_tokens toks [] []
  | None => None
  end.

(** ** Execution *)

Definition field (name : string) (dot : tvalue) : option tvalue :=
  match dot with
  | TMap m => Some (default (TString "<no value>") (assoc name m))
  | TStruct fields => assoc name fields
  | _ => None
  end.

Fixpoint exec (n : tnode) (dot : tvalue) : option string :=
  match n with
  | NText s => Some s
  | NField name => match field name dot with Some (TString s) => Some s | _ => None end
  | NRange name body =>
      let fix exec_body (body : list tnode) (dot : tvalue) : option string :=
        match body with
        | [] => Some EmptyString
        | n :: body => match exec n dot, exec_body body dot with Some s, Some t => Some (s +:+ t) | _, _ => None end
        end in
      match field name dot with
      | Some (TSlice l) =>
          foldr (fun x acc => match exec_body body x, acc with Some s, Some t => Some (s +:+ t) | _, _ => None end) (Some EmptyString) l
      | _ => None
      end
  end.

Fixpoint Execute (tmpl : list tnode) (dot : tvalue) : option string :=
  match tmpl with
  | [] => Some EmptyString
  | n :: tmpl => match exec n dot, Execute tmpl dot with Some s, Some t => Some (s +:+ t) | _, _ => None end
  end.

(** ** Documents *)

Fixpoint all_dashes (s : string) : bool :=
  match s with
  | EmptyString => true
  | String c s => (Ascii.eqb c "-"%char && all_dashes s)%bool
  end.

(** A line that [^-{3,}$] matches, line by line. *)
Definition separator (line : string) : bool := (Nat.leb 3 (String.length line) && all_dashes line)%bool.

Definition newline : ascii := ascii_of_nat 10.

(** The lines between separators, each followed by its newline: the text
    before a separator keeps its last newline and the text after it begins
    with one, as the expression matches neither. *)
Fixpoint split_lines (lines : list string) (cur : string) : list string :=
  match lines with
  | [] => [cur]
  | [line] => if separator line then [cur; EmptyString] else [cur +:+ line]
  | line :: lines =>
      if separator line then cur :: split_lines lines (String newline EmptyString)
      else split_lines lines (cur +:+ line +:+ String newline EmptyString)
  end.

Definition split_documents (s : string) : list string := split_lines (split_on newline s) EmptyString.

Definition lf : string := String newline EmptyString.

Example split_two : split_documents ("a: 1" +:+ lf +:+ "---" +:+ lf +:+ "b: 2" +:+ lf) = ["a: 1" +:+ lf; lf +:+ "b: 2" +:+ lf].
Proof. reflexivity. Qed.

Example execute_range :
  option_map (fun t => Execute t (TMap [("K", TString "k"); ("Nodes", TSlice [TStruct [("Name", TString "a")]; TStruct [("Name", TString "b")]])]))
    (Parse "{{ .K }}:{{range $i, $name := .Nodes}} {{ .Name }};{{end}} {{ .Missing }}") = Some (Some "k: a; b; <no value>").
Proof. vm_compute. reflexivity. Qed.
