(* ===== verification/GoSort.v ===== *)
(** * package sort on strings

    Go compares strings byte by byte; [Strings] is [sort.Strings]. *)

From Stdlib Require Import ZArith Lia Ascii String.
From stdpp Require Import base strings gmap numbers sorting list.
From S2P Require Import Prelude.
From S2P Require Import GoStd.

Local Open Scope Z_scope.

Fixpoint bytes_le (a b : list Z) : bool :=
  match a, b with
  | [], _ => true
  | _, [] => false
  | x :: a, y :: b => if x =? y then bytes_le a b else x <? y
  end.

Lemma bytes_le_total a b : bytes_le a b = true \/ bytes_le b a = true.
Proof.
  revert b. induction a as [|x a IH]; intros [|y b]; [by left..|by right|]. simpl. rewrite (Z.eqb_sym y x).
  destruct (Z.eqb_spec x y) as [-> |Hne]; [apply IH|]. destruct (Z.ltb_spec x y); [by left|]. right. apply Z.ltb_lt. lia.
Qed.

Lemma bytes_le_antisymm a b : bytes_le a b = true -> bytes_le b a = true -> a = b.
Proof.
  revert b. induction a as [|x a IH]; intros [|y b]; try done. simpl. rewrite (Z.eqb_sym y x).
  destruct (Z.eqb_spec x y) as [-> |Hne]; [intros; f_equal; auto|]. intros H1%Z.ltb_lt H2%Z.ltb_lt. lia.
Qed.

Lemma bytes_le_trans a b c : bytes_le a b = true -> bytes_le b c = true -> bytes_le a c = true.
Proof.
  revert b c. induction a as [|x a IH]; intros [|y b] [|z c]; try done. simpl.
  destruct (Z.eqb_spec x y) as [-> |Hxy]; destruct (Z.eqb_spec y z) as [-> |Hyz]; try done.
  - apply IH.
  - intros H%Z.ltb_lt _. rewrite (proj2 (Z.eqb_neq x z)) by done. by apply Z.ltb_lt.
  - intros H1%Z.ltb_lt H2%Z.ltb_lt. rewrite (proj2 (Z.eqb_neq x z)) by lia. apply Z.ltb_lt. lia.
Qed.

Definition string_le (s t : string) : Prop := bytes_le (bytes_of s) (bytes_of t) = true.

#[export] Instance string_le_dec s t : Decision (string_le s t).
Proof. unfold string_le. apply _. Defined.
#[export] Instance string_le_total : Total string_le.
Proof. intros s t. apply bytes_le_total. Qed.
#[export] Instance string_le_trans : Transitive string_le.
Proof. intros s t u. apply bytes_le_trans. Qed.
#[export] Instance string_le_antisymm : AntiSymm (=) string_le.
Proof. intros s t H1 H2. apply bytes_of_inj. by apply bytes_le_antisymm. Qed.

Definition Strings (l : list string) : list string := merge_sort string_le l.

Lemma Strings_perm l : Strings l ≡ₚ l.
Proof. apply merge_sort_Permutation. Qed.

Lemma elem_of_Strings x l : x ∈ Strings l <-> x ∈ l.
Proof. by rewrite Strings_perm. Qed.

Lemma Strings_sorted l : StronglySorted string_le (Strings l).
Proof. apply (StronglySorted_merge_sort _). Qed.

(** The result does not depend on the order of the argument. *)
Lemma Strings_unique l l' : l ≡ₚ l' -> Strings l = Strings l'.
Proof. intros H. apply (StronglySorted_unique string_le); [apply Strings_sorted..|]. by rewrite !Strings_perm. Qed.

Lemma Strings_again l : Strings (Strings l) = Strings l.
Proof. apply Strings_unique, Strings_perm. Qed.
