(* ===== verification/K8s.v ===== *)
(** * Kubernetes API objects

    The types of k8s.io/api and k8s.io/apimachinery that the components
    exchange, with the fields the code reads or writes; fields it only
    carries along are left out.  A pointer field is an [option], a slice or
    map field keeps its nil value ([gslice], [gomap]). *)

From Stdlib Require Import ZArith Lia.
From stdpp Require Import base strings gmap numbers sorting list.
From S2P Require Import Prelude.

Local Open Scope Z_scope.

(** ** Names *)

Record NamespacedName : Type := mkNN { nn_Namespace : string; nn_Name : string }.

#[export] Instance NamespacedName_eq_dec : EqDecision NamespacedName.
Proof. solve_decision. Defined.

#[export] Instance NamespacedName_countable : Countable NamespacedName.
Proof.
  refine (inj_countable' (fun k => (nn_Namespace k, nn_Name k)) (fun p => mkNN (fst p) (snd p)) _).
  by intros [].
Defined.

Definition NamespaceDefault : string := "default".

(** ** Object metadata *)

Record OwnerReference : Type := mkOwnerReference {
  or_APIVersion : string;
  or_Kind : string;
  or_Name : string;
  or_UID : string;
  or_Controller : option bool;
  or_BlockOwnerDeletion : option bool
}.

Record ObjectMeta : Type := mkObjectMeta {
  Name : string;
  Namespace : string;
  UID : string;
  Labels : gomap string;
  Annotations : gomap string;
  OwnerReferences : gslice OwnerReference;
  DeletionTimestamp : option Z
}.

Definition named (namespace name : string) : ObjectMeta :=
  mkObjectMeta name namespace EmptyString None None None None.

Record PartialObjectMetadata : Type := mkPartialObjectMetadata { pom_meta : ObjectMeta }.

Definition meta_key (m : ObjectMeta) : NamespacedName := mkNN (Namespace m) (Name m).

Definition with_labels (m : ObjectMeta) (l : gomap string) : ObjectMeta :=
  mkObjectMeta (Name m) (Namespace m) (UID m) l (Annotations m) (OwnerReferences m) (DeletionTimestamp m).

Definition with_annotations (m : ObjectMeta) (a : gomap string) : ObjectMeta :=
  mkObjectMeta (Name m) (Namespace m) (UID m) (Labels m) a (OwnerReferences m) (DeletionTimestamp m).

(** ** Nodes *)

Record Taint : Type := mkTaint { tt_Key : string; tt_Value : string; tt_Effect : string }.

Record NodeCondition : Type := mkNodeCondition { nc_Type : string; nc_Status : string }.

Record NodeAddress : Type := mkNodeAddress { na_Type : string; na_Address : string }.

Record Node : Type := mkNode {
  node_meta : ObjectMeta;
  node_Taints : gslice Taint;
  node_Conditions : gslice NodeCondition;
  node_Addresses : gslice NodeAddress
}.

(** ** Label selectors (metav1.LabelSelector) *)

Record LabelSelectorRequirement : Type := mkRequirement {
  lr_Key : string;
  lr_Operator : string;
  lr_Values : gslice string
}.

Record LabelSelector : Type := mkLabelSelector {
  MatchLabels : gomap string;
  MatchExpressions : gslice LabelSelectorRequirement
}.

(** ** Services, pods and config maps *)

Record Service : Type := mkService { svc_meta : ObjectMeta }.

Record Pod : Type := mkPod {
  pod_meta : ObjectMeta;
  pod_NodeName : string;
  pod_HostIP : string;
  pod_PodIP : string
}.

Record ConfigMap : Type := mkConfigMap { cm_meta : ObjectMeta; cm_Data : gomap string }.

(** ** Endpoints *)

Record ObjectReference : Type := mkObjectReference {
  ref_Kind : string;
  ref_Namespace : string;
  ref_Name : string;
  ref_UID : string;
  ref_APIVersion : string;
  ref_ResourceVersion : string;
  ref_FieldPath : string
}.

Record EndpointAddress : Type := mkEndpointAddressRef {
  ea_IP : string;
  ea_Hostname : string;
  ea_NodeName : option string;
  ea_TargetRef : option ObjectReference
}.

(** An address without host name and target. *)
Notation mkEndpointAddress ip nodeName := (mkEndpointAddressRef ip EmptyString nodeName None).

Record EndpointPort : Type := mkEndpointPort {
  ep_Name : string;
  ep_Port : Z;
  ep_Protocol : string
}.

Record EndpointSubset : Type := mkEndpointSubset {
  es_Addresses : gslice EndpointAddress;
  es_NotReadyAddresses : gslice EndpointAddress;
  es_Ports : gslice EndpointPort
}.

Record Endpoints : Type := mkEndpoints {
  eps_meta : ObjectMeta;
  eps_Subsets : gslice EndpointSubset
}.

(** ** Endpoint slices, discovery.k8s.io/v1 and v1beta1 *)

Record SlicePort : Type := mkSlicePort {
  sp_Name : option string;
  sp_Port : option Z;
  sp_Protocol : option string
}.

Record EndpointV1 : Type := mkEndpointV1 {
  e1_Addresses : gslice string;
  e1_NodeName : option string
}.

Record EndpointSliceV1 : Type := mkEndpointSliceV1 {
  slice1_meta : ObjectMeta;
  slice1_Endpoints : gslice EndpointV1;
  slice1_Ports : gslice SlicePort
}.

Record EndpointV1Beta1 : Type := mkEndpointV1Beta1 {
  eb_Addresses : gslice string;
  eb_Topology : gomap string
}.

Record EndpointSliceV1Beta1 : Type := mkEndpointSliceV1Beta1 {
  sliceb_meta : ObjectMeta;
  sliceb_Endpoints : gslice EndpointV1Beta1;
  sliceb_Ports : gslice SlicePort
}.

Definition ProtocolTCP : string := "TCP".

(** ** Decidable equality *)

#[export] Instance OwnerReference_eq_dec : EqDecision OwnerReference.
Proof. solve_decision. Defined.
#[export] Instance ObjectMeta_eq_dec : EqDecision ObjectMeta.
Proof. solve_decision. Defined.
#[export] Instance PartialObjectMetadata_eq_dec : EqDecision PartialObjectMetadata.
Proof. solve_decision. Defined.
#[export] Instance Taint_eq_dec : EqDecision Taint.
Proof. solve_decision. Defined.
#[export] Instance NodeCondition_eq_dec : EqDecision NodeCondition.
Proof. solve_decision. Defined.
#[export] Instance NodeAddress_eq_dec : EqDecision NodeAddress.
Proof. solve_decision. Defined.
#[export] Instance Node_eq_dec : EqDecision Node.
Proof. solve_decision. Defined.
#[export] Instance LabelSelectorRequirement_eq_dec : EqDecision LabelSelectorRequirement.
Proof. solve_decision. Defined.
#[export] Instance LabelSelector_eq_dec : EqDecision LabelSelector.
Proof. solve_decision. Defined.
#[export] Instance Service_eq_dec : EqDecision Service.
Proof. solve_decision. Defined.
#[export] Instance ObjectReference_eq_dec : EqDecision ObjectReference.
Proof. solve_decision. Defined.
#[export] Instance EndpointAddress_eq_dec : EqDecision EndpointAddress.
Proof. solve_decision. Defined.
#[export] Instance EndpointPort_eq_dec : EqDecision EndpointPort.
Proof. solve_decision. Defined.
#[export] Instance EndpointSubset_eq_dec : EqDecision EndpointSubset.
Proof. solve_decision. Defined.
#[export] Instance Endpoints_eq_dec : EqDecision Endpoints.
Proof. solve_decision. Defined.
#[export] Instance SlicePort_eq_dec : EqDecision SlicePort.
Proof. solve_decision. Defined.
#[export] Instance EndpointV1_eq_dec : EqDecision EndpointV1.
Proof. solve_decision. Defined.
#[export] Instance EndpointSliceV1_eq_dec : EqDecision EndpointSliceV1.
Proof. solve_decision. Defined.
#[export] Instance EndpointV1Beta1_eq_dec : EqDecision EndpointV1Beta1.
Proof. solve_decision. Defined.
#[export] Instance EndpointSliceV1Beta1_eq_dec : EqDecision EndpointSliceV1Beta1.
Proof. solve_decision. Defined.
