(* ===== verification/Requests.v ===== *)
(** * Requests to the API server

    A client's code between two requests is pure; what it does next depends on
    the reply.  [prog] is such code, as a tree of requests, and [run] its
    execution against a server, which also lists the requests made.  An [act]
    is a program that may end with an error; a client's [if err != nil { return
    err }] is its [let!]. *)

From Stdlib Require Import ZArith Lia.
From stdpp Require Import base strings gmap numbers sorting list.
From S2P Require Import Prelude.

(** ** Errors of the API server (k8s.io/apimachinery/pkg/api/errors) *)

Inductive api_error : Type := NotFound | AlreadyExists | Invalid | Conflict | OtherError (msg : string).

#[export] Instance api_error_eq_dec : EqDecision api_error.
Proof. solve_decision. Defined.

(** ** Programs *)

(** Requests [Rq]; a reply to [q] is an [Ans q] or an error. *)
Section Programs.
Context {Rq : Type} {Ans : Rq -> Type}.

Inductive prog (A : Type) : Type :=
| Done (a : A)
| Ask (q : Rq) (k : Ans q + api_error -> prog A).

Fixpoint bind {A B : Type} (p : prog A) (f : A -> prog B) : prog B :=
  match p with
  | Done _ a => f a
  | Ask _ q k => Ask B q (fun r => bind (k r) f)
  end.

End Programs.

Arguments prog {Rq} Ans A.
Arguments Done {Rq Ans A} a.
Arguments Ask {Rq Ans A} q k.

(** Programs that return a value or an error. *)
Notation act Ans E A := (prog Ans (A + E)).

Section Acts.
Context {Rq : Type} {Ans : Rq -> Type} {E : Type}.

Definition ok {A : Type} (a : A) : act Ans E A := Done (inl a).
Definition fail {A : Type} (e : E) : act Ans E A := Done (inr e).

Definition andthen {A B : Type} (m : act Ans E A) (f : A -> act Ans E B) : act Ans E B :=
  bind m (fun r => match r with inl a => f a | inr e => fail e end).

(** A loop that ends at the first error. *)
Fixpoint each {A : Type} (f : A -> act Ans E unit) (l : list A) : act Ans E unit :=
  match l with
  | [] => ok tt
  | x :: l => andthen (f x) (fun _ => each f l)
  end.

End Acts.

Definition call {Rq : Type} {Ans : Rq -> Type} (q : Rq) : act Ans api_error (Ans q) := Ask q Done.

Definition map_error {Rq : Type} {Ans : Rq -> Type} {E E' A : Type} (f : E -> E') (m : act Ans E A) : act Ans E' A :=
  bind m (fun r => Done (match r with inl a => inl a | inr e => inr (f e) end)).

(** [if err != nil && !errors.IsNotFound(err) { return err }] *)
Definition unless_gone {Rq : Type} {Ans : Rq -> Type} (m : act Ans api_error unit) : act Ans api_error unit :=
  bind m (fun r => Done (match r with inr NotFound => inl tt | r => r end)).

Notation "'let!' x ':=' m 'in' k" := (andthen m (fun x => k))
  (at level 10, x name, m at level 100, k at level 200) : go_scope.
Notation "'do!' m 'in' k" := (andthen m (fun _ => k))
  (at level 10, m at level 100, k at level 200) : go_scope.
Notation "'reply!' x ':=' m 'in' k" := (bind m (fun x => k))
  (at level 10, x name, m at level 100, k at level 200) : go_scope.

Create HintDb requests.

(** Programs in a language of requests as programs in a larger one. *)
Fixpoint lift {Rq Rq' : Type} {Ans : Rq -> Type} {Ans' : Rq' -> Type} {A : Type} (inj : Rq -> Rq')
    (back : forall q, Ans' (inj q) -> Ans q) (p : prog Ans A) : prog Ans' A :=
  match p with
  | Done a => Done a
  | Ask q k => Ask (inj q) (fun r => lift inj back (k (match r with inl a => inl (back q a) | inr e => inr e end)))
  end.

(** ** Execution *)

Section Run.
Context {Rq : Type} {Ans : Rq -> Type} {S : Type} (serve : forall q : Rq, S -> S * (Ans q + api_error)).

Fixpoint run {A : Type} (p : prog Ans A) (s : S) : S * list Rq * A :=
  match p with
  | Done a => (s, [], a)
  | Ask q k =>
      let '(s, r) := serve q s in
      let '(s, t, a) := run (k r) s in
      (s, q :: t, a)
  end.

(** [wp p Q s]: run from [s], [p] ends in a state, with requests and a result
    for which [Q] holds. *)
Definition wp {A : Type} (p : prog Ans A) (Q : S -> list Rq -> A -> Prop) (s : S) : Prop :=
  let '(s', t, a) := run p s in Q s' t a.

Lemma wp_done {A : Type} (a : A) Q s : wp (Done a) Q s <-> Q s [] a.
Proof. done. Qed.

Lemma wp_ask {A : Type} q (k : _ -> prog Ans A) Q s :
  wp (Ask q k) Q s <-> wp (k (snd (serve q s))) (fun s' t a => Q s' (q :: t) a) (fst (serve q s)).
Proof. unfold wp. cbn [run]. destruct (serve q s) as [s1 r]. simpl. by destruct (run (k r) s1) as [[s2 t] a]. Qed.

Lemma run_bind {A B : Type} (p : prog Ans A) (f : A -> prog Ans B) s :
  run (bind p f) s =
  let '(s1, t1, a) := run p s in let '(s2, t2, b) := run (f a) s1 in (s2, t1 ++ t2, b).
Proof.
  revert s. induction p as [a|q k IH]; intros s; cbn [bind run]; [by destruct (run (f a) s) as [[]]|].
  destruct (serve q s) as [s1 r]. rewrite IH. destruct (run (k r) s1) as [[s2 t] a]. by destruct (run (f a) s2) as [[]].
Qed.

Lemma wp_bind {A B : Type} (p : prog Ans A) (f : A -> prog Ans B) Q s :
  wp (bind p f) Q s <-> wp p (fun s1 t1 a => wp (f a) (fun s2 t2 b => Q s2 (t1 ++ t2) b) s1) s.
Proof.
  unfold wp. rewrite run_bind. destruct (run p s) as [[s1 t1] a]. by destruct (run (f a) s1) as [[s2 t2] b].
Qed.

Lemma wp_mono {A : Type} (p : prog Ans A) (Q Q' : S -> list Rq -> A -> Prop) s :
  wp p Q s -> (forall s' t a, Q s' t a -> Q' s' t a) -> wp p Q' s.
Proof. unfold wp. destruct (run p s) as [[s1 t] a]. auto. Qed.

Lemma wp_conj {A : Type} (p : prog Ans A) (Q Q' : S -> list Rq -> A -> Prop) s :
  wp p Q s -> wp p Q' s -> wp p (fun s' t a => Q s' t a /\ Q' s' t a) s.
Proof. unfold wp. destruct (run p s) as [[s1 t] a]. auto. Qed.

(** A program whose every request keeps an invariant keeps it. *)
Lemma wp_invariant {A : Type} (p : prog Ans A) (I : S -> Prop) s :
  (forall q s, I s -> I (fst (serve q s))) -> I s -> wp p (fun s' _ _ => I s') s.
Proof.
  intros Hserve. revert s. induction p as [a|q k IH]; intros s HI; [done|].
  apply wp_ask. by apply IH, Hserve.
Qed.

Context {E : Type}.

Lemma wp_ok {A : Type} (a : A) (Q : S -> list Rq -> A + E -> Prop) s : wp (ok a) Q s <-> Q s [] (inl a).
Proof. done. Qed.

Lemma wp_fail {A : Type} (e : E) (Q : S -> list Rq -> A + E -> Prop) s : wp (fail e) Q s <-> Q s [] (inr e).
Proof. done. Qed.

Lemma wp_andthen {A B : Type} (m : act Ans E A) (f : A -> act Ans E B) Q s :
  wp (andthen m f) Q s <-> wp m (fun s1 t1 r =>
    match r with
    | inl a => wp (f a) (fun s2 t2 b => Q s2 (t1 ++ t2) b) s1
    | inr e => Q s1 t1 (inr e)
    end) s.
Proof.
  unfold andthen. rewrite wp_bind. unfold wp at 1 3. destruct (run m s) as [[s1 t1] [a|e]]; [done|].
  rewrite wp_fail. by rewrite app_nil_r.
Qed.

Lemma wp_call q (Q : S -> list Rq -> Ans q + api_error -> Prop) s :
  wp (call q) Q s <-> Q (fst (serve q s)) [q] (snd (serve q s)).
Proof. unfold call. by rewrite wp_ask. Qed.

(** What the last part of a program asks for, if the parts before succeed. *)
Lemma wp_last {A C : Type} (m : act Ans E A) (f : A -> act Ans E C) (P : list Rq -> Prop) s :
  (forall t t', P t' -> P (t ++ t')) ->
  (forall a s, wp (f a) (fun _ t r => (exists c, r = inl c) -> P t) s) ->
  wp (andthen m f) (fun _ t r => (exists c, r = inl c) -> P t) s.
Proof.
  intros Happ Hf. apply wp_andthen. unfold wp at 1. destruct (run m s) as [[s1 t1] [a|e]]; [|by intros []].
  eapply wp_mono; [apply Hf|]. cbn beta. auto.
Qed.

(** A loop whose rounds have nothing to do. *)
Lemma each_nothing {A : Type} (f : A -> act Ans E unit) (l : list A) : (forall x, x ∈ l -> f x = ok tt) -> each f l = ok tt.
Proof.
  induction l as [|x l IH]; intros Hf; [done|]. cbn [each]. rewrite Hf by by left. apply IH. intros y Hy. apply Hf. by right.
Qed.

(** A loop, with what holds after each number of rounds. *)
Lemma wp_each {A : Type} (f : A -> act Ans E unit) (l : list A) (I : list A -> S -> list Rq -> Prop) s :
  I [] s [] ->
  (forall done x todo s t, l = done ++ x :: todo -> I done s t ->
     wp (f x) (fun s' t' r => r = inl tt /\ I (done ++ [x]) s' (t ++ t')) s) ->
  wp (each f l) (fun s' t r => r = inl tt /\ I l s' t) s.
Proof.
  intros H0 Hstep.
  assert (forall todo done s t, l = done ++ todo -> I done s t ->
            wp (each f todo) (fun s' t' r => r = inl tt /\ I l s' (t ++ t')) s) as Hgen.
  { induction todo as [|x todo IH]; intros done s1 t Hl HI.
    { rewrite app_nil_r in Hl. subst done. simpl. apply wp_ok. by rewrite app_nil_r. }
    cbn [each]. apply wp_andthen. eapply wp_mono; [by eapply Hstep|]. simpl.
    intros s2 t2 r [-> HI2]. eapply wp_mono; [apply (IH (done ++ [x]) s2 (t ++ t2)); [by rewrite <- app_assoc|done]|].
    simpl. intros s3 t3 r3 [-> HI3]. split; [done|]. by rewrite app_assoc. }
  by apply (Hgen l [] s []).
Qed.

End Run.

(** A loop over a map whose rounds each write the object under their key. *)
Section EachKey.
Context `{R : GoRange} {Rq : Type} {Ans : Rq -> Type} {S E O : Type}.
Context (serve : forall q : Rq, S -> S * (Ans q + api_error)) (view : S -> gmap string O).
Context (f : string * O -> act Ans E unit) (post : O -> O -> Prop).

Definition writes_key (k : string) (x : O) (s s' : S) : Prop :=
  (exists x', view s' !! k = Some x' /\ post x x') /\ forall k', k' ≠ k -> view s' !! k' = view s !! k'.

Lemma wp_each_key (m : gmap string O) (s0 : S) :
  (forall k x s, m !! k = Some x -> view s !! k = Some x ->
     wp serve (f (k, x)) (fun s' _ r => r = inl tt /\ writes_key k x s s') s) ->
  (forall k x, m !! k = Some x -> view s0 !! k = Some x) ->
  wp serve (each f (go_range m)) (fun s' _ r => r = inl tt
    /\ (forall k x, m !! k = Some x -> exists x', view s' !! k = Some x' /\ post x x')
    /\ forall k, m !! k = None -> view s' !! k = view s0 !! k) s0.
Proof.
  intros Hf H0. eapply wp_mono; [apply (wp_each serve f (go_range m) (fun done s _ =>
    (forall k x, (k, x) ∈ done -> exists x', view s !! k = Some x' /\ post x x')
    /\ forall k, k ∉ done.*1 -> view s !! k = view s0 !! k))|].
  - split; [|done]. intros k x Hx. by apply elem_of_nil in Hx.
  - intros done [k x] todo s t Hl [Hdone Hother].
    assert (NoDup (go_range m).*1) as Hnd by apply NoDup_go_range_fst.
    rewrite Hl, fmap_app, fmap_cons in Hnd. apply NoDup_app in Hnd as (_ & Hnd & _).
    assert (k ∉ done.*1) as Hk by (intros Hk; destruct (Hnd k Hk); by left).
    assert (m !! k = Some x) as Hmk by (apply elem_of_go_range; rewrite Hl, elem_of_app; right; by left).
    eapply wp_mono; [apply Hf; [done|by rewrite Hother; [apply H0|]]|]. intros s' t' r [-> [Hx Hs']].
    split; [done|]. split.
    + intros k' y [Hy|Hy%list_elem_of_singleton]%elem_of_app; [|by simplify_eq].
      rewrite Hs'; [by apply Hdone|]. intros ->. destruct Hk. apply list_elem_of_fmap. by exists (k, y).
    + intros k'. rewrite fmap_app, not_elem_of_app, fmap_cons, not_elem_of_cons. intros (Hd & Hne & _). rewrite Hs'; auto.
  - intros s' t r (-> & Hdone & Hother). split_and!; [done| |].
    + intros k x Hk. apply Hdone. by apply elem_of_go_range.
    + intros k Hk. apply Hother. intros ([k' x] & -> & Hx)%list_elem_of_fmap. apply elem_of_go_range in Hx. simpl in Hk. congruence.
Qed.

End EachKey.

(** ** Which requests a program can make *)

Section Requests.
Context {Rq : Type} {Ans : Rq -> Type} (P : Rq -> Prop).

(** Whatever the replies, every request satisfies [P]. *)
Fixpoint all_requests {A : Type} (p : prog Ans A) : Prop :=
  match p with
  | Done _ => True
  | Ask q k => P q /\ forall r, all_requests (k r)
  end.

Lemma all_bind {A B : Type} (p : prog Ans A) (f : A -> prog Ans B) :
  all_requests p -> (forall a, all_requests (f a)) -> all_requests (bind p f).
Proof. intros Hp Hf. induction p as [a|q k IH]; [apply Hf|]. destruct Hp as [Hq Hk]. split; [done|]. intros r. apply IH, Hk. Qed.

Lemma all_andthen {A B E : Type} (m : act Ans E A) (f : A -> act Ans E B) :
  all_requests m -> (forall a, all_requests (f a)) -> all_requests (andthen m f).
Proof. intros Hm Hf. apply all_bind; [done|]. intros [a|e]; [apply Hf|done]. Qed.

Lemma all_call (q : Rq) : P q -> all_requests (call (Ans := Ans) q).
Proof. by split. Qed.

Lemma all_each {A E : Type} (f : A -> act Ans E unit) (l : list A) :
  (forall x, x ∈ l -> all_requests (f x)) -> all_requests (each f l).
Proof.
  induction l as [|x l IH]; intros Hf; [done|]. cbn [each]. apply all_andthen; [apply Hf; by left|].
  intros _. apply IH. intros y Hy. apply Hf. by right.
Qed.

Lemma all_map_error {A E E' : Type} (f : E -> E') (m : act Ans E A) : all_requests m -> all_requests (map_error f m).
Proof. intros Hm. by apply all_bind. Qed.

Lemma all_unless_gone (m : act Ans api_error unit) : all_requests m -> all_requests (unless_gone m).
Proof. intros Hm. by apply all_bind. Qed.

Lemma all_of_all {A : Type} (p : prog Ans A) : (forall q, P q) -> all_requests p.
Proof. intros HP. induction p as [a|q k IH]; [done|]. by split. Qed.

(** The requests made in a run, and what they keep. *)
Lemma wp_all_requests {A S : Type} (serve : forall q : Rq, S -> S * (Ans q + api_error)) (p : prog Ans A) (I : S -> Prop) s :
  all_requests p -> (forall q s, P q -> I s -> I (fst (serve q s))) -> I s ->
  wp serve p (fun s' t _ => I s' /\ Forall P t) s.
Proof.
  intros Hp Hserve. revert s. induction p as [a|q k IH]; intros s HI; [done|]. destruct Hp as [Hq Hk].
  apply wp_ask. eapply wp_mono; [by apply IH; [apply Hk|apply Hserve]|]. simpl. intros s' t a [HI' Ht]. split; [done|by constructor].
Qed.

End Requests.

Lemma all_requests_mono {Rq A : Type} {Ans : Rq -> Type} (P Q : Rq -> Prop) (p : prog Ans A) :
  (forall q, P q -> Q q) -> all_requests P p -> all_requests Q p.
Proof. intros HPQ. induction p as [a|q k IH]; [done|]. intros [Hq Hk]. split; [by apply HPQ|]. intros r. by apply IH. Qed.

Lemma all_lift {Rq Rq' A : Type} {Ans : Rq -> Type} {Ans' : Rq' -> Type} (inj : Rq -> Rq') (back : forall q, Ans' (inj q) -> Ans q)
    (P : Rq' -> Prop) (p : prog Ans A) :
  all_requests (fun q => P (inj q)) p -> all_requests P (lift inj back p).
Proof. induction p as [a|q k IH]; [done|]. intros [Hq Hk]. split; [done|]. intros r. by apply IH. Qed.

(** A program of a smaller language runs against the part of the server that
    answers it. *)
Section Lifted.
Context {Rq Rq' S : Type} {Ans : Rq -> Type} {Ans' : Rq' -> Type} (inj : Rq -> Rq') (back : forall q, Ans' (inj q) -> Ans q).
Context (serve : forall q : Rq', S -> S * (Ans' q + api_error)).

Definition served (q : Rq) (s : S) : S * (Ans q + api_error) :=
  let '(s, r) := serve (inj q) s in (s, match r with inl a => inl (back q a) | inr e => inr e end).

Lemma wp_lift {A : Type} (p : prog Ans A) (Q : S -> list Rq' -> A -> Prop) s :
  wp serve (lift inj back p) Q s <-> wp served p (fun s' t a => Q s' (inj <$> t) a) s.
Proof.
  revert Q s. induction p as [a|q k IH]; intros Q s; [done|]. cbn [lift]. rewrite !wp_ask. unfold served at 2 3.
  destruct (serve (inj q) s) as [s1 [a|e]]; simpl; apply IH.
Qed.

End Lifted.

(** ** Requests and results under known replies *)

Section Under.
Context {Rq : Type} {Ans : Rq -> Type}.

(** Whatever the replies that [R] allows, every request satisfies [P] and the
    result [Q]. *)
Fixpoint under {A : Type} (R : forall q : Rq, Ans q + api_error -> Prop) (P : Rq -> Prop) (Q : A -> Prop) (p : prog Ans A) : Prop :=
  match p with
  | Done a => Q a
  | Ask q k => P q /\ forall r, R q r -> under R P Q (k r)
  end.

Lemma under_bind {A B : Type} R P (Q : A -> Prop) (Q' : B -> Prop) (p : prog Ans A) (f : A -> prog Ans B) :
  under R P Q p -> (forall a, Q a -> under R P Q' (f a)) -> under R P Q' (bind p f).
Proof. intros Hp Hf. induction p as [a|q k IH]; [by apply Hf|]. destruct Hp as [Hq Hk]. split; [done|]. intros r Hr. by apply IH, Hk. Qed.

Lemma wp_under {A S : Type} (serve : forall q : Rq, S -> S * (Ans q + api_error)) R P (Q : A -> Prop) (p : prog Ans A) s :
  (forall q s, R q (snd (serve q s))) -> under R P Q p -> wp serve p (fun _ t a => Forall P t /\ Q a) s.
Proof.
  intros HR. revert s. induction p as [a|q k IH]; intros s Hp; [by split; [constructor|]|]. destruct Hp as [Hq Hk].
  apply wp_ask. eapply wp_mono; [apply IH, Hk, HR|]. simpl. intros s' t a [Ht Ha]. split; [by constructor|done].
Qed.

End Under.

(** ** What a program can return *)

Section Results.
Context {Rq : Type} {Ans : Rq -> Type}.

(** Whatever the replies, the result satisfies [Q]. *)
Fixpoint results {A : Type} (Q : A -> Prop) (p : prog Ans A) : Prop :=
  match p with
  | Done a => Q a
  | Ask q k => forall r, results Q (k r)
  end.

Definition if_ok {A E : Type} (Q : A -> Prop) (r : A + E) : Prop := match r with inl a => Q a | inr _ => True end.

Lemma results_bind {A B : Type} (Q : A -> Prop) (Q' : B -> Prop) (p : prog Ans A) (f : A -> prog Ans B) :
  results Q p -> (forall a, Q a -> results Q' (f a)) -> results Q' (bind p f).
Proof. intros Hp Hf. induction p as [a|q k IH]; [by apply Hf|]. intros r. apply IH, Hp. Qed.

Lemma results_any {A : Type} (p : prog Ans A) : results (fun _ => True) p.
Proof. induction p as [a|q k IH]; [done|]. intros r. apply IH. Qed.

Lemma results_andthen {A B E : Type} (Q : B -> Prop) (m : act Ans E A) (f : A -> act Ans E B) :
  (forall a, results (if_ok Q) (f a)) -> results (if_ok Q) (andthen m f).
Proof. intros Hf. eapply results_bind; [apply results_any|]. intros [a|e] _; [apply Hf|done]. Qed.

Lemma all_bind_results {A B : Type} (P : Rq -> Prop) (p : prog Ans A) (f : A -> prog Ans B) :
  all_requests P p -> results (fun a => all_requests P (f a)) p -> all_requests P (bind p f).
Proof. intros Hp Hf. induction p as [a|q k IH]; [done|]. destruct Hp as [Hq Hk]. split; [done|]. intros r. by apply IH. Qed.

Lemma wp_results {A S : Type} (serve : forall q : Rq, S -> S * (Ans q + api_error)) (Q : A -> Prop) (p : prog Ans A) s :
  results Q p -> wp serve p (fun _ _ a => Q a) s.
Proof. revert s. induction p as [a|q k IH]; intros s Hp; [done|]. apply wp_ask. apply IH, Hp. Qed.

End Results.

(** ** Histories *)

Section Traces.
Context {Rq : Type} {Ans : Rq -> Type}.

Lemma under_all {A : Type} (R : forall q : Rq, Ans q + api_error -> Prop) (P : Rq -> Prop) (p : prog Ans A) :
  all_requests P p -> under R P (fun _ => True) p.
Proof. induction p as [a|q k IH]; [done|]. intros [Hq Hk]. split; [done|]. intros r _. by apply IH. Qed.

Lemma under_andthen {A B E : Type} R P (Q : A -> Prop) (Q' : B + E -> Prop) (m : act Ans E A) (f : A -> act Ans E B) :
  under R P (if_ok Q) m -> (forall e, Q' (inr e)) -> (forall a, Q a -> under R P Q' (f a)) -> under R P Q' (andthen m f).
Proof. intros Hm He Hf. eapply under_bind; [exact Hm|]. intros [a|e] Ha; [by apply Hf|apply He]. Qed.

Lemma under_mono {A : Type} R P (Q Q' : A -> Prop) (p : prog Ans A) : under R P Q p -> (forall a, Q a -> Q' a) -> under R P Q' p.
Proof. intros Hp HQ. induction p as [a|q k IH]; [by apply HQ|]. destruct Hp as [Hq Hk]. split; [done|]. intros r Hr. by apply IH, Hk. Qed.

Lemma under_conj {A : Type} (R : forall q : Rq, Ans q + api_error -> Prop) P (Q Q' : A -> Prop) (p : prog Ans A) :
  under R P Q p -> under R P Q' p -> under R P (fun a => Q a /\ Q' a) p.
Proof. induction p as [a|q k IH]; [by split|]. intros [Hq Hk] [_ Hk']. split; [done|]. intros r Hr. by apply IH; [apply Hk|apply Hk']. Qed.

(** With the replies that [Ok] allows, the whole history and the result satisfy
    [Q]. *)
Fixpoint traces {A : Type} (Ok : forall q : Rq, Ans q + api_error -> Prop) (Q : list Rq -> A -> Prop) (t : list Rq) (p : prog Ans A) : Prop :=
  match p with
  | Done a => Q t a
  | Ask q k => forall r, Ok q r -> traces Ok Q (t ++ [q]) (k r)
  end.

Lemma traces_bind {A B : Type} Ok (Q : list Rq -> B -> Prop) (p : prog Ans A) (f : A -> prog Ans B) t :
  traces Ok (fun t a => traces Ok Q t (f a)) t p -> traces Ok Q t (bind p f).
Proof. revert t. induction p as [a|q k IH]; intros t Hp; [exact Hp|]. intros r Hr. by apply IH, Hp. Qed.

Lemma traces_mono {A : Type} Ok (Q Q' : list Rq -> A -> Prop) (p : prog Ans A) t :
  traces Ok Q t p -> (forall t a, Q t a -> Q' t a) -> traces Ok Q' t p.
Proof. intros Hp HQ. revert t Hp. induction p as [a|q k IH]; intros t Hp; [by apply HQ|]. intros r Hr. by apply IH, Hp. Qed.

Lemma traces_andthen {A B E : Type} Ok (Q : list Rq -> B + E -> Prop) (m : act Ans E A) (f : A -> act Ans E B) t :
  traces Ok (fun t r => match r with inl a => traces Ok Q t (f a) | inr e => Q t (inr e) end) t m -> traces Ok Q t (andthen m f).
Proof. intros Hm. apply traces_bind. eapply traces_mono; [exact Hm|]. by intros t' [a|e]. Qed.

Lemma traces_conj {A : Type} Ok (Q Q' : list Rq -> A -> Prop) (p : prog Ans A) t :
  traces Ok Q t p -> traces Ok Q' t p -> traces Ok (fun t a => Q t a /\ Q' t a) t p.
Proof. revert t. induction p as [a|q k IH]; intros t H H'; [by split|]. intros r Hr. by apply IH; [apply H|apply H']. Qed.

Lemma traces_prefix {A : Type} Ok (p : prog Ans A) t : traces Ok (fun t' _ => exists l, t' = t ++ l) t p.
Proof.
  revert t. induction p as [a|q k IH]; intros t; [exists []; by rewrite app_nil_r|]. intros r Hr.
  eapply traces_mono; [apply IH|]. intros t' a [l ->]. exists (q :: l). by rewrite <- app_assoc.
Qed.

Lemma traces_under {A : Type} Ok P (F : A -> Prop) (p : prog Ans A) t : under Ok P F p -> traces Ok (fun _ a => F a) t p.
Proof. revert t. induction p as [a|q k IH]; intros t Hp; [exact Hp|]. intros r Hr. by apply IH, Hp. Qed.

Lemma traces_all {A : Type} Ok (N : Rq -> Prop) (p : prog Ans A) t :
  Forall N t -> all_requests N p -> traces Ok (fun t _ => Forall N t) t p.
Proof.
  revert t. induction p as [a|q k IH]; intros t Ht Hp; [done|]. intros r _. destruct Hp as [Hq Hk].
  apply IH; [|done]. apply Forall_app. split; [done|by constructor].
Qed.

Lemma traces_weaken {A : Type} (Ok Ok' : forall q : Rq, Ans q + api_error -> Prop) (Q : list Rq -> A -> Prop) (p : prog Ans A) t :
  (forall q r, Ok' q r -> Ok q r) -> traces Ok Q t p -> traces Ok' Q t p.
Proof. intros HO. revert t. induction p as [a|q k IH]; intros t Hp; [exact Hp|]. intros r Hr. by apply IH, Hp, HO. Qed.

Lemma wp_traces {A S : Type} (serve : forall q : Rq, S -> S * (Ans q + api_error)) Ok (Q : list Rq -> A -> Prop) (p : prog Ans A) t s :
  (forall q s, Ok q (snd (serve q s))) -> traces Ok Q t p -> wp serve p (fun _ t' a => Q (t ++ t') a) s.
Proof.
  intros HOk. revert t s. induction p as [a|q k IH]; intros t s Hp; [apply wp_done; by rewrite app_nil_r|].
  apply wp_ask. eapply wp_mono; [apply (IH _ (t ++ [q])), Hp, HOk|]. simpl. intros s' t' a H. by rewrite <- app_assoc in H.
Qed.

End Traces.

Section Histories.
Context {Rq : Type} {Ans : Rq -> Type}.

(** However the requests are answered, the whole history, [t] and what [p]
    adds to it, and the result satisfy [Q]. *)
Fixpoint histories {A : Type} (Q : list Rq -> A -> Prop) (t : list Rq) (p : prog Ans A) : Prop :=
  match p with
  | Done a => Q t a
  | Ask q k => forall r, histories Q (t ++ [q]) (k r)
  end.

Lemma histories_bind {A B : Type} (Q : list Rq -> B -> Prop) (p : prog Ans A) (f : A -> prog Ans B) t :
  histories (fun t a => histories Q t (f a)) t p -> histories Q t (bind p f).
Proof. revert t. induction p as [a|q k IH]; intros t; [done|]. intros Hp r. apply IH, Hp. Qed.

Lemma histories_mono {A : Type} (Q Q' : list Rq -> A -> Prop) (p : prog Ans A) t :
  histories Q t p -> (forall t a, Q t a -> Q' t a) -> histories Q' t p.
Proof. intros Hp HQ. revert t Hp. induction p as [a|q k IH]; intros t; [apply HQ|]. intros Hp r. apply IH, Hp. Qed.

(** Some history has the property. *)
Lemma histories_some {A : Type} (Q : list Rq -> A -> Prop) (p : prog Ans A) t :
  histories Q t p -> exists t' a, Q (t ++ t') a.
Proof.
  revert t. induction p as [a|q k IH]; intros t Hp; [exists [], a; by rewrite app_nil_r|].
  destruct (IH (inr NotFound) (t ++ [q])) as (t' & a & H); [apply Hp|]. exists (q :: t'), a. by rewrite <- app_assoc in H.
Qed.

(** At most [n] requests, all with [P]. *)
Fixpoint asks {A : Type} (P : Rq -> Prop) (n : nat) (p : prog Ans A) : Prop :=
  match p, n with
  | Done _, _ => True
  | Ask q k, O => False
  | Ask q k, S n => P q /\ forall r, asks P n (k r)
  end.

Lemma asks_le {A : Type} P n m (p : prog Ans A) : asks P n p -> (n <= m)%nat -> asks P m p.
Proof.
  revert n m. induction p as [a|q k IH]; intros [|n] [|m]; simpl; try done; [lia|]. intros [Hq Hk] Hle.
  split; [done|]. intros r. apply (IH r n); [apply Hk|lia].
Qed.

Lemma asks_bind {A B : Type} P n m (p : prog Ans A) (f : A -> prog Ans B) :
  asks P n p -> (forall a, asks P m (f a)) -> asks P (n + m) (bind p f).
Proof.
  intros Hp Hf. revert n Hp. induction p as [a|q k IH]; intros n; [intros _; eapply asks_le; [apply Hf|lia]|].
  destruct n as [|n]; [done|]. intros [Hq Hk]. split; [done|]. intros r. by apply IH.
Qed.

Lemma asks_andthen {A B E : Type} P n m (p : act Ans E A) (f : A -> act Ans E B) :
  asks P n p -> (forall a, asks P m (f a)) -> asks P (n + m) (andthen p f).
Proof. intros Hp Hf. apply asks_bind; [done|]. intros [a|e]; [apply Hf|by destruct m]. Qed.

Lemma asks_call P (q : Rq) : P q -> asks P 1 (call (Ans := Ans) q).
Proof. by split. Qed.

Lemma asks_histories {A : Type} P n (p : prog Ans A) t :
  asks P n p -> histories (fun t' _ => exists l, t' = t ++ l /\ Forall P l /\ (length l <= n)%nat) t p.
Proof.
  revert n t. induction p as [a|q k IH]; intros n t Hp; [exists []; rewrite app_nil_r; split_and!; simpl; [done|done|lia]|].
  destruct n as [|n]; [done|]. destruct Hp as [Hq Hk]. intros r. eapply histories_mono; [by apply (IH r n)|].
  intros t' a' (l & -> & Hl & Hn). exists (q :: l). rewrite <- app_assoc. split_and!; [done|by constructor|simpl; lia].
Qed.

End Histories.

Lemma asks_lift {Rq Rq' A : Type} {Ans : Rq -> Type} {Ans' : Rq' -> Type} (inj : Rq -> Rq') (back : forall q, Ans' (inj q) -> Ans q)
    (P : Rq' -> Prop) n (p : prog Ans A) :
  asks (fun q => P (inj q)) n p -> asks P n (lift inj back p).
Proof. revert n. induction p as [a|q k IH]; intros [|n]; simpl; try done. intros [Hq Hk]. split; [done|]. intros r. by apply IH. Qed.

#[export] Hint Resolve all_bind all_andthen all_each all_map_error all_unless_gone : requests.

(** Rewriting the rules away. *)
Ltac wp_simpl := progress repeat (first
  [ rewrite wp_andthen | rewrite wp_bind | rewrite wp_call | rewrite wp_ok | rewrite wp_fail | rewrite wp_ask | rewrite wp_done
  | progress simpl ]).
