(* ===== verification/WorkQueue.v ===== *)
(** * Work queues and informers

    The controllers take keys from a rate-limited queue, and put a key that
    failed back a bounded number of times; all of them have the same
    [handleErr] and the same loop.  A delete handler receives an object or a
    tombstone. *)

From Stdlib Require Import ZArith Lia.
From stdpp Require Import base strings gmap numbers sorting list.
From S2P Require Import Prelude.

Local Open Scope Z_scope.

(** ** The queue (controller.go) *)

Definition MaxRetries : Z := 15.

Inductive queue_action : Type := Forget | AddRateLimited.

(** [handleErr], given how often the key has been requeued. *)
Definition handleErr {E : Type} (err : option E) (NumRequeues : Z) : queue_action :=
  match err with
  | None => Forget
  | Some _ => if NumRequeues <? MaxRetries then AddRateLimited else Forget
  end.

(** The rate limiter counts the requeues of a key until it is forgotten. *)
Definition requeues (n : Z) (a : queue_action) : Z :=
  match a with Forget => 0 | AddRateLimited => n + 1 end.

(** Rounds of [processNextWorkItem] on one key, which is taken again as long
    as it is requeued: how many times the handler ran, and the count left. *)
Fixpoint process_key {E : Type} (syncHandler : nat -> option E) (fuel : nat) (round : nat) (n : Z) : nat * Z :=
  match fuel with
  | O => (round, n)
  | S fuel =>
      match handleErr (syncHandler round) n with
      | Forget => (S round, requeues n Forget)
      | AddRateLimited => process_key syncHandler fuel (S round) (requeues n AddRateLimited)
      end
  end.

(** ** Objects delivered by an informer *)

(** What a delete handler receives: the object, a tombstone with an object of
    the right type, or something else. *)
Inductive deleted (A : Type) : Type :=
| DeletedObject (a : A)
| Tombstone (a : option A)
| Unexpected.
Arguments DeletedObject {A} a.
Arguments Tombstone {A} a.
Arguments Unexpected {A}.

Definition deleted_object {A : Type} (d : deleted A) : option A :=
  match d with
  | DeletedObject a => Some a
  | Tombstone a => a
  | Unexpected => None
  end.

(** ** Retries are bounded *)

Lemma process_key_spec {E : Type} (h : nat -> option E) (fuel round : nat) (n : Z) :
  0 <= n -> n + Z.of_nat fuel = MaxRetries + 1 -> (0 < fuel)%nat ->
  let '(last, count) := process_key h fuel round n in
  count = 0 /\ (round < last <= round + fuel)%nat
  /\ (forall r, (round <= r)%nat -> (S r < last)%nat -> is_Some (h r))
  /\ (h (pred last) = None \/ last = (round + fuel)%nat).
Proof.
  revert round n. induction fuel as [|fuel IH]; intros round n Hn Hf Hpos; [lia|]. cbn [process_key handleErr].
  destruct (h round) as [e|] eqn:Eh; simpl.
  - destruct (Z.ltb_spec n MaxRetries) as [Hlt|Hge]; simpl.
    + specialize (IH (S round) (n + 1)). destruct (process_key h fuel (S round) (n + 1)) as [last count].
      destruct IH as (-> & Hr & Hall & Hend); [lia|lia|lia|]. split_and!; [done|lia|lia| |destruct Hend; [by left|right; lia]].
      intros r Hle Hlt'. destruct (decide (r = round)) as [-> |]; [by rewrite Eh|]. apply Hall; lia.
    + assert (fuel = 0)%nat as -> by (unfold MaxRetries in *; lia). split_and!; [done|lia|lia|lia|right; lia].
  - split_and!; [done|lia|lia|lia|by left].
Qed.

(** A key that keeps failing is given up after sixteen rounds.  Starting
    with a count of zero, the handler runs until its first success, at most
    sixteen times (once and [MaxRetries] retries), every round before the last
    failed, and the count is back at zero. *)
Theorem retries_bounded {E : Type} (syncHandler : nat -> option E) :
  let '(rounds, count) := process_key syncHandler 16 0 0 in
  count = 0 /\ (1 <= rounds <= 16)%nat
  /\ (forall r, (S r < rounds)%nat -> is_Some (syncHandler r))
  /\ (syncHandler (pred rounds) = None \/ rounds = 16%nat).
Proof.
  pose proof (process_key_spec syncHandler 16 0 0) as H. destruct (process_key syncHandler 16 0 0) as [rounds count].
  destruct H as (-> & Hr & Hall & Hend); [done|done|lia|]. split_and!; [done|lia|lia| |done].
  intros r Hr'. apply Hall; lia.
Qed.
