(* ===== verification/KubeNode.v ===== *)
(** * Nodes, namespaces and versions (pkg/util/kubeclient: client.go, create_resource.go)

    The helpers that change one node or one namespace: read it, change it,
    write it, and try again at the next tick of a timer unless that worked.
    [MarkNode] goes through a patch made of the node before and after.  The
    theorems give what the patch contains, and what becomes of it when the
    first attempt meets a conflict. *)

From Stdlib Require Import ZArith Lia Ascii String.
From stdpp Require Import base strings gmap numbers sorting list.
From S2P Require Import Prelude.
From S2P Require Import GoStd.
From S2P Require Import K8s.
From S2P Require Import Requests.

Local Open Scope Z_scope.
Local Open Scope go_scope.

Definition LabelHostname : string := "kubernetes.io/hostname".

Definition IsReadyNode (n : Node) : bool :=
  existsb (fun c => String.eqb (nc_Type c) "Ready" && String.eqb (nc_Status c) "True") (sl (node_Conditions n)).

Definition GetNodeListStatus (nodes : list Node) : gslice string * gslice string :=
  fold_left (fun '(ready, notReady) n =>
    if IsReadyNode n then (Some (sl ready ++ [Name (node_meta n)]), notReady)
    else (ready, Some (sl notReady ++ [Name (node_meta n)]))) nodes (None, None).

(** [Taint.MatchTaint] *)
Definition MatchTaint (t u : Taint) : bool := String.eqb (tt_Key t) (tt_Key u) && String.eqb (tt_Effect t) (tt_Effect u).

Definition with_node_labels (n : Node) (l : gomap string) : Node :=
  mkNode (with_labels (node_meta n) l) (node_Taints n) (node_Conditions n) (node_Addresses n).
Definition with_node_annotations (n : Node) (a : gomap string) : Node :=
  mkNode (with_annotations (node_meta n) a) (node_Taints n) (node_Conditions n) (node_Addresses n).
Definition with_taints (n : Node) (t : gslice Taint) : Node :=
  mkNode (node_meta n) t (node_Conditions n) (node_Addresses n).

(** ** Requests *)

Section Nodes.
(** A strategic merge patch, and how it is made of two nodes. *)
Context {P : Type} (CreateTwoWayMergePatch : Node -> Node -> P + string).

Inductive node_request : Type :=
| GetNode (name : string)
| UpdateNode (n : Node)
| PatchNodeRequest (name : string) (patch : P)
| GetNamespace (name : string)
| UpdateNamespace (ns : ObjectMeta).

Definition node_answer (q : node_request) : Type :=
  match q with
  | GetNode _ => Node
  | GetNamespace _ => ObjectMeta
  | UpdateNode _ | PatchNodeRequest _ _ | UpdateNamespace _ => unit
  end.

Definition get_node (name : string) : act node_answer api_error Node := call (GetNode name).
Definition update_node (n : Node) : act node_answer api_error unit := call (UpdateNode n).
Definition patch_node (name : string) (patch : P) : act node_answer api_error unit := call (PatchNodeRequest name patch).
Definition get_namespace (name : string) : act node_answer api_error ObjectMeta := call (GetNamespace name).
Definition update_namespace (ns : ObjectMeta) : act node_answer api_error unit := call (UpdateNamespace ns).

Inductive poll_error : Type :=
| Timeout
| ServerError (e : api_error)
| Patching (e : api_error)
| NoPatch (msg : string).

(** [wait.Poll] and [wait.PollImmediate] with a condition that keeps a state;
    [attempts] is how often the timer lets it run. *)
Fixpoint poll {St : Type} (attempts : nat) (condition : St -> prog node_answer (St * (bool + poll_error))) (st : St) :
    prog node_answer (St * (unit + poll_error)) :=
  match attempts with
  | O => Done (st, inr Timeout)
  | S attempts =>
      reply! r := condition st in
      match r with
      | (st, inl true) => Done (st, inl tt)
      | (st, inl false) => poll attempts condition st
      | (st, inr err) => Done (st, inr err)
      end
  end.

(** [PatchNodeOnce]; what [patchFn] captures is its state. *)
Definition PatchNodeOnce {St : Type} (nodeName : string) (patchFn : St -> Node -> St * Node) (st : St) :
    prog node_answer (St * (bool + poll_error)) :=
  reply! r := get_node nodeName in
  match r with
  | inr _ => Done (st, inl false)
  | inl n =>
      match mp (Labels (node_meta n)) !! LabelHostname with
      | None => Done (st, inl false)
      | Some _ =>
          let '(st, n') := patchFn st n in
          match CreateTwoWayMergePatch n n' with
          | inr msg => Done (st, inr (NoPatch msg))
          | inl patch =>
              reply! r := patch_node (Name (node_meta n)) patch in
              Done (st, match r with
                        | inl _ => inl true
                        | inr Conflict => inl false
                        | inr e => inr (Patching e)
                        end)
          end
      end
  end.

Definition PatchNode {St : Type} (attempts : nat) (nodeName : string) (patchFn : St -> Node -> St * Node) (st : St) :=
  poll attempts (PatchNodeOnce nodeName patchFn) st.

(** The old taints that no taint of the list matches, added one by one. *)
Definition add_old_taints (taints : gslice Taint) (old : list Taint) : gslice Taint :=
  fold_left (fun taints oldTaint =>
    if existsb (fun t => MatchTaint t oldTaint) (sl taints) then taints else Some (sl taints ++ [oldTaint])) old taints.

(** The function [MarkNode] hands to [PatchNode]: it appends to the slice it
    captured. *)
Definition mark (labels : gomap string) (taints : gslice Taint) (n : Node) : gslice Taint * Node :=
  let n1 := with_node_labels n (Some (mp labels ∪ mp (Labels (node_meta n)))) in
  let taints := add_old_taints taints (sl (node_Taints n1)) in
  (taints, with_taints n1 taints).

Definition MarkNode (attempts : nat) (nodeName : string) (labels : gomap string) (taints : gslice Taint) :
    prog node_answer (unit + poll_error) :=
  reply! r := PatchNode attempts nodeName (mark labels) taints in Done (snd r).

(** *** Labels (client.go) *)

Definition AddNameSpaceLabel (attempts : nat) (namespaceName : string) (labels : gomap string) : prog node_answer (unit + poll_error) :=
  reply! r := poll attempts (fun _ : unit =>
    reply! r := get_namespace namespaceName in
    match r with
    | inr _ => Done (tt, inl false)
    | inl ns =>
        reply! r := update_namespace (with_labels ns (Some (mp labels ∪ mp (Labels ns)))) in
        Done (tt, match r with inl _ => inl true | inr _ => inl false end)
    end) tt in
  Done (snd r).

Definition AddNodeLabel (attempts : nat) (nodeName : string) (labels : gomap string) : prog node_answer (unit + poll_error) :=
  reply! r := poll attempts (fun _ : unit =>
    reply! r := get_node nodeName in
    match r with
    | inr _ => Done (tt, inl false)
    | inl n =>
        reply! r := update_node (with_node_labels n (Some (mp labels ∪ mp (Labels (node_meta n))))) in
        Done (tt, match r with inl _ => inl true | inr _ => inl false end)
    end) tt in
  Done (snd r).

(** The labels that have the given value are deleted; a failing update ends
    the attempts. *)
Definition without_labels (labels : gomap string) (l : gomap string) : gomap string :=
  option_map (fun m => filter (fun '(k, v) => mp labels !! k <> Some v) m) l.

Definition DeleteNodeLabel (attempts : nat) (nodeName : string) (labels : gomap string) : prog node_answer (unit + poll_error) :=
  reply! r := poll attempts (fun _ : unit =>
    reply! r := get_node nodeName in
    match r with
    | inr _ => Done (tt, inl false)
    | inl n =>
        reply! r := update_node (with_node_labels n (without_labels labels (Labels (node_meta n)))) in
        Done (tt, match r with inl _ => inl true | inr e => inr (ServerError e) end)
    end) tt in
  Done (snd r).

Definition CheckNodeLabel (nodeName : string) (labels : gomap string) : act node_answer api_error bool :=
  let! n := get_node nodeName in ok (bool_decide (mp labels ⊆ mp (Labels (node_meta n)))).

End Nodes.

(** ** Versions *)

(** [strings.Replace(s, "v", "", -1)] *)
Fixpoint remove_v (s : string) : string :=
  match s with
  | EmptyString => EmptyString
  | String c s => if Ascii.eqb c "v"%char then remove_v s else String c (remove_v s)
  end.

(** A component, in two digits; longer ones are left out. *)
Definition two_digits (value : string) : string :=
  match String.length value with
  | O => "00"
  | 1%nat => "0" +:+ value
  | 2%nat => value
  | _ => EmptyString
  end.

Definition k8sVersionInt (version : string) : option Z :=
  let version := default EmptyString (head (split_on "-"%char version)) in
  ParseInt (foldr (fun v acc => two_digits v +:+ acc) EmptyString (take 3 (split_on "."%char (remove_v version)))) 64.

Definition IsOverK8sVersion (baseK8sVersion k8sVersion : string) : option bool :=
  match k8sVersionInt k8sVersion, k8sVersionInt baseK8sVersion with
  | Some drt, Some src => Some (drt <=? src)
  | _, _ => None
  end.

Example k8sVersionInt_vectors :
  k8sVersionInt <$> ["v1.8.7"; "v0.8.0"; "v1.18.2"; "v1.20.02"; "v1.16.07"]%string
  = [Some 10807; Some 800; Some 11802; Some 12002; Some 11607].
Proof. vm_compute. reflexivity. Qed.

(** ** What a patch contains *)

Lemma add_old_taints_spec (taints : gslice Taint) (old : list Taint) (t : Taint) :
  t ∈ sl (add_old_taints taints old) ->
  t ∈ sl taints \/ t ∈ old.
Proof.
  unfold add_old_taints. revert taints. induction old as [|u old IH]; intros taints Ht; [by left|].
  cbn [fold_left] in Ht. destruct (existsb _ _); apply IH in Ht as [Ht|Ht]; try (by left); try (right; by right).
  simpl in Ht. apply elem_of_app in Ht as [Ht|Ht%list_elem_of_singleton]; [by left|]. subst. right. by left.
Qed.

Lemma add_old_taints_keeps (taints : gslice Taint) (old : list Taint) (t : Taint) :
  t ∈ sl taints -> t ∈ sl (add_old_taints taints old).
Proof.
  unfold add_old_taints. revert taints. induction old as [|u old IH]; intros taints Ht; [done|].
  cbn [fold_left]. apply IH. destruct (existsb _ _); [done|]. simpl. apply elem_of_app. by left.
Qed.

(** Every taint of the node is matched in the list, if not in it. *)
Lemma add_old_taints_matches (taints : gslice Taint) (old : list Taint) (t : Taint) :
  t ∈ old -> exists u, u ∈ sl (add_old_taints taints old) /\ MatchTaint u t = true.
Proof.
  unfold add_old_taints. revert taints. induction old as [|u old IH]; intros taints Ht; [by apply elem_of_nil in Ht|].
  cbn [fold_left]. apply elem_of_cons in Ht as [-> |Ht]; [|by apply IH].
  destruct (existsb _ _) eqn:E.
  - apply existsb_exists in E as (v & Hv & Hm). exists v. split; [|done]. apply add_old_taints_keeps. by apply list_elem_of_In.
  - exists u. split; [|unfold MatchTaint; by rewrite !String.eqb_refl].
    apply add_old_taints_keeps. simpl. apply elem_of_app. right. by left.
Qed.

(** [MarkNode] keeps what it appended in the slice its closure captured: when
    the patch meets a conflict, the taints of the first reading are part of
    the second patch, though they were taken off the node in between. *)
Lemma mark_after_conflict (labels : gomap string) (taints : gslice Taint) (n n2 : Node) (t : Taint) :
  t ∈ sl (node_Taints n) ->
  exists u, u ∈ sl (node_Taints (snd (mark labels (fst (mark labels taints n)) n2))) /\ MatchTaint u t = true.
Proof.
  intros Ht. destruct (add_old_taints_matches taints (sl (node_Taints n)) t Ht) as (u & Hu & Hm).
  exists u. split; [|done]. by apply add_old_taints_keeps.
Qed.

(** ** Which versions are compared as numbers *)

Definition component (n : Z) : string := string_of (if n <? 10 then [48 + n] else [48 + n / 10; 48 + n mod 10]).
Definition version (a b c : Z) : string := "v" +:+ component a +:+ "." +:+ component b +:+ "." +:+ component c.

Lemma component_spec n : 0 <= n < 100 ->
  split_on "-"%char (component n) = [component n] /\ split_on "."%char (component n) = [component n]
  /\ remove_v (component n) = component n
  /\ bytes_of (two_digits (component n)) = [48 + n / 10; 48 + n mod 10].
Proof.
  intros Hn. assert (Forall (fun n => bool_decide (split_on "-"%char (component n) = [component n] /\ split_on "."%char (component n) = [component n]
    /\ remove_v (component n) = component n /\ bytes_of (two_digits (component n)) = [48 + n / 10; 48 + n mod 10]) = true) (seqZ 0 100)) as H.
  { apply (bool_decide_unpack _). vm_compute. exact I. }
  rewrite Forall_forall in H. specialize (H n). by apply bool_decide_eq_true in H; [|apply elem_of_seqZ; lia].
Qed.

Lemma remove_v_app s t : remove_v (s +:+ t) = remove_v s +:+ remove_v t.
Proof. induction s as [|c s IH]; simpl; [done|]. rewrite IH. by destruct (Ascii.eqb c "v"%char). Qed.

Lemma free_of_app sep s t : free_of sep s -> free_of sep t -> free_of sep (s +:+ t).
Proof.
  unfold free_of. intros Hs Ht. induction s as [|c s IH]; simpl in *; [done|].
  destruct (Ascii.eqb c sep); [by simplify_eq|].
  destruct (split_on sep s) as [|x l] eqn:E; [by destruct (split_on_nonempty sep s)|]. simplify_eq. by rewrite IH.
Qed.

Lemma split_sign_digit x l : 48 <= x -> split_sign (x :: l) = (false, x :: l).
Proof. intros Hx. destruct x as [|p|p]; [done| |done]. unfold split_sign. repeat (destruct p as [p|p|]; try done); lia. Qed.

Lemma parse_two_digits acc n rest : 0 <= n < 100 ->
  parse_digits acc ([48 + n / 10; 48 + n mod 10] ++ rest) = parse_digits (acc * 100 + n) rest.
Proof.
  intros Hn. assert (is_digit (48 + n / 10) = true /\ is_digit (48 + n mod 10) = true) as [H1 H2].
  { unfold is_digit. pose proof (Z.mod_pos_bound n 10). split; apply andb_true_iff; split; apply Z.leb_le; try lia;
    pose proof (Z.div_pos n 10); pose proof (Z.div_lt_upper_bound n 10 10); lia. }
  cbn [app parse_digits]. rewrite H1, H2. f_equal. pose proof (Z.div_mod n 10). lia.
Qed.

Lemma k8sVersionInt_version a b c : 0 <= a < 100 -> 0 <= b < 100 -> 0 <= c < 100 ->
  k8sVersionInt (version a b c) = Some (a * 10000 + b * 100 + c).
Proof.
  intros Ha Hb Hc. destruct (component_spec a Ha) as (Da & Pa & Ra & Ta).
  destruct (component_spec b Hb) as (Db & Pb & Rb & Tb). destruct (component_spec c Hc) as (Dc & Pc & Rc & Tc).
  unfold k8sVersionInt. assert (free_of "-"%char (version a b c)) as ->.
  { unfold version. do 5 (apply free_of_app; [done|]). done. }
  cbn [head default from_option id]. unfold version. rewrite !remove_v_app, Ra, Rb, Rc.
  change (remove_v "v" +:+ component a +:+ remove_v "." +:+ component b +:+ remove_v "." +:+ component c)
    with (component a +:+ String "."%char (component b +:+ String "."%char (component c))).
  rewrite !split_on_app, Pa, Pb, Pc. cbn [app take foldr]. unfold ParseInt. rewrite !bytes_of_app, Ta, Tb, Tc.
  rewrite <- app_comm_cons, split_sign_digit by (pose proof (Z.div_pos a 10); lia). unfold parse_nat.
  change ((48 + a `div` 10) :: ([48 + a `mod` 10] ++ [48 + b `div` 10; 48 + b `mod` 10] ++ [48 + c `div` 10; 48 + c `mod` 10] ++ bytes_of EmptyString))
    with ([48 + a `div` 10; 48 + a `mod` 10] ++ [48 + b `div` 10; 48 + b `mod` 10] ++ [48 + c `div` 10; 48 + c `mod` 10] ++ []).
  rewrite !parse_two_digits by done. cbn [parse_digits]. rewrite (proj2 (Z.ltb_lt _ _)) by lia. f_equal. lia.
Qed.

(** Versions of three components below 100 are compared component by
    component: [IsOverK8sVersion base v] holds exactly when [v] is not later
    than [base]. *)
Theorem IsOverK8sVersion_order (a b c a' b' c' : Z)
  (Ha : 0 <= a < 100) (Hb : 0 <= b < 100) (Hc : 0 <= c < 100)
  (Ha' : 0 <= a' < 100) (Hb' : 0 <= b' < 100) (Hc' : 0 <= c' < 100) :
  IsOverK8sVersion (version a b c) (version a' b' c')
  = Some (bool_decide (a' < a \/ (a' = a /\ (b' < b \/ (b' = b /\ c' <= c))))).
Proof.
  unfold IsOverK8sVersion. rewrite !k8sVersionInt_version by done. f_equal. symmetry.
  destruct (Z.leb_spec (a' * 10000 + b' * 100 + c') (a * 10000 + b * 100 + c));
    [apply bool_decide_eq_true|apply bool_decide_eq_false]; lia.
Qed.

(** Outside of that, a component of three digits is left out, and so is one
    that is missing. *)
Example k8sVersionInt_long : k8sVersionInt "v1.22.100" = Some 122 /\ k8sVersionInt "v1.22" = Some 122
  /\ IsOverK8sVersion "v1.22.100" "v1.22.6" = Some false.
Proof. vm_compute. done. Qed.
