(* ===== verification/AllocatorInterface.v ===== *)
(** * The allocator interface (pkg/util/allocator/interfaces.go)

    [Allocator] has the operations of [allocator.Interface] and
    [Snapshottable]; [AllocatorSpec] is what an implementation promises its
    clients: its state stands for a set of used offsets below a limit, and
    each operation acts on that set. *)

From Stdlib Require Import ZArith Lia.
From stdpp Require Import base strings gmap numbers sorting list.
From S2P Require Import Prelude.

Local Open Scope Z_scope.

(** [Intn] stands for the values of [rand.Intn] in one call. *)
Definition rand_ok (Intn : Z -> Z) : Prop := forall n, 0 < n -> 0 <= Intn n < n.

Class Allocator (S : Type) : Type := {
  al_Allocate : S -> Z -> outcome (S * bool);
  al_AllocateNext : (Z -> Z) -> S -> outcome (S * (Z * bool));
  al_Release : S -> Z -> outcome S;
  al_ForEach : S -> list Z;
  al_Has : S -> Z -> outcome bool;
  al_Free : S -> Z;
  al_Snapshot : S -> string * list Z;
  al_Restore : S -> string -> list Z -> S * bool
}.

Class AllocatorSpec (S : Type) `{Allocator S} : Type := {
  al_ok : S -> Prop;
  al_limit : S -> Z;
  al_used : S -> gset Z;
  al_used_range : forall s o, al_ok s -> o ∈ al_used s -> 0 <= o < al_limit s;
  al_Allocate_spec : forall s o, al_ok s -> 0 <= o < al_limit s ->
    exists s', al_Allocate s o = Ret (s', bool_decide (o ∉ al_used s))
      /\ al_ok s' /\ al_limit s' = al_limit s /\ al_used s' = {[o]} ∪ al_used s;
  al_AllocateNext_some : forall s Intn, al_ok s -> rand_ok Intn ->
    Z.of_nat (size (al_used s)) < al_limit s ->
    exists s' o, al_AllocateNext Intn s = Ret (s', (o, true))
      /\ 0 <= o < al_limit s /\ o ∉ al_used s
      /\ al_ok s' /\ al_limit s' = al_limit s /\ al_used s' = {[o]} ∪ al_used s;
  al_AllocateNext_full : forall s Intn, al_ok s ->
    al_limit s <= Z.of_nat (size (al_used s)) ->
    al_AllocateNext Intn s = Ret (s, (0, false));
  al_Release_spec : forall s o, al_ok s -> 0 <= o ->
    exists s', al_Release s o = Ret s'
      /\ al_ok s' /\ al_limit s' = al_limit s /\ al_used s' = al_used s ∖ {[o]};
  al_ForEach_spec : forall s, al_ok s ->
    NoDup (al_ForEach s) /\ forall o, o ∈ al_ForEach s <-> o ∈ al_used s;
  al_Has_spec : forall s o, al_ok s -> 0 <= o -> al_Has s o = Ret (bool_decide (o ∈ al_used s));
  al_Free_spec : forall s, al_ok s -> al_Free s = al_limit s - Z.of_nat (size (al_used s))
}.
