(* ===== verification/Bitmap.v ===== *)
(** * The allocation bitmap (pkg/util/allocator)

    [bitmap.go] keeps a set of offsets as the bits of a [big.Int] next to a
    running count; [utils.go] recounts the bits through a byte table.  The
    theorems show that the count is the number of set bits in every reachable
    state, that each operation acts as the corresponding operation on sets of
    offsets, that both scan strategies find a free offset exactly when one is
    left, that [ForEach] visits the allocated offsets once each in increasing
    order, and that [Restore] undoes [Snapshot]. *)

From Stdlib Require Import ZArith Lia.
From stdpp Require Import base strings gmap numbers sorting list.
From S2P Require Import Prelude.
From S2P Require Import AllocatorInterface.

Local Open Scope Z_scope.
Local Open Scope go_scope.

(** ** math/big: bits, words and bytes of a non-negative integer *)

Module Big.

Definition Bit (x i : Z) : outcome Z :=
  if i <? 0 then Panic "negative bit index" else Ret (Z.b2z (Z.testbit x i)).

Definition SetBit (x i b : Z) : outcome Z :=
  if i <? 0 then Panic "negative bit index"
  else Ret (if b =? 0 then Z.clearbit x i else Z.setbit x i).

(** Digits of [x] in base [2 ^ w], the least significant first, with no
    leading zero digit; [fuel] digits at most. *)
Fixpoint digits (w : Z) (fuel : nat) (x : Z) : list Z :=
  match fuel with
  | O => []
  | S f => if x =? 0 then [] else (x mod 2 ^ w) :: digits w f (x / 2 ^ w)
  end.

Definition digit_fuel (x : Z) : nat := S (Z.to_nat (Z.log2 x)).

(** [Bits]: the machine words of [x], least significant first. *)
Definition Bits (x : Z) : list Z := digits 64 (digit_fuel x) x.

(** [Bytes]: the big-endian bytes of [x]; [SetBytes] reads them back. *)
Definition Bytes (x : Z) : list Z := reverse (digits 8 (digit_fuel x) x).

Definition SetBytes (bs : list Z) : Z := fold_left (fun acc b => acc * 256 + b) bs 0.

End Big.

(** ** State and operations *)

Inductive bitAllocator : Type :=
| randomScanStrategy
| contiguousScanStrategy.

Record AllocationBitmap : Type := mkAllocationBitmap {
  strategy : bitAllocator;
  max : Z;
  rangeSpec : string;
  count : Z;
  allocated : Z
}.

Definition NewAllocationMap (max : Z) (rangeSpec : string) : AllocationBitmap :=
  mkAllocationBitmap randomScanStrategy max rangeSpec 0 0.

Definition NewContiguousAllocationMap (max : Z) (rangeSpec : string) : AllocationBitmap :=
  mkAllocationBitmap contiguousScanStrategy max rangeSpec 0 0.

Definition set_allocated (r : AllocationBitmap) (count allocated : Z) : AllocationBitmap :=
  mkAllocationBitmap (strategy r) (max r) (rangeSpec r) count allocated.

Definition Allocate (r : AllocationBitmap) (offset : Z) : outcome (AllocationBitmap * bool) :=
  let* b := Big.Bit (allocated r) offset in
  if b =? 1 then Ret (r, false) else
  let* a := Big.SetBit (allocated r) offset 1 in
  Ret (set_allocated r (count r + 1) a, true).

(** The loop of [randomScanStrategy.AllocateBit] from iteration [i]; [fuel]
    iterations are left. *)
Fixpoint random_scan (allocated max offset i : Z) (fuel : nat) : outcome (Z * bool) :=
  match fuel with
  | O => Ret (0, false)
  | S f =>
      let at_ := Z.rem (offset + i) max in
      let* b := Big.Bit allocated at_ in
      if b =? 0 then Ret (at_, true) else random_scan allocated max offset (i + 1) f
  end.

(** The loop of [contiguousScanStrategy.AllocateBit]. *)
Fixpoint contiguous_scan (allocated i : Z) (fuel : nat) : outcome (Z * bool) :=
  match fuel with
  | O => Ret (0, false)
  | S f =>
      let* b := Big.Bit allocated i in
      if b =? 0 then Ret (i, true) else contiguous_scan allocated (i + 1) f
  end.

(** [Intn] is what this call of [rand.Intn] returns. *)
Definition AllocateBit (s : bitAllocator) (Intn : Z -> Z) (allocated max count : Z)
  : outcome (Z * bool) :=
  if count >=? max then Ret (0, false) else
  match s with
  | randomScanStrategy => random_scan allocated max (Intn max) 0 (Z.to_nat max)
  | contiguousScanStrategy => contiguous_scan allocated 0 (Z.to_nat max)
  end.

Definition AllocateNext (Intn : Z -> Z) (r : AllocationBitmap)
  : outcome (AllocationBitmap * (Z * bool)) :=
  let* ' (next, ok) := AllocateBit (strategy r) Intn (allocated r) (max r) (count r) in
  if negb ok then Ret (r, (0, false)) else
  let* a := Big.SetBit (allocated r) next 1 in
  Ret (set_allocated r (count r + 1) a, (next, true)).

Definition Release (r : AllocationBitmap) (offset : Z) : outcome AllocationBitmap :=
  let* b := Big.Bit (allocated r) offset in
  if b =? 0 then Ret r else
  let* a := Big.SetBit (allocated r) offset 0 in
  Ret (set_allocated r (count r - 1) a).

(** [wordSize] is computed from the width of [big.Word], 64 bits here. *)
Definition notZero : Z := 2 ^ 64 - 1.
Definition wordPower : Z :=
  Z.land (Z.shiftr notZero 8) 1 + Z.land (Z.shiftr notZero 16) 1
  + Z.land (Z.shiftr notZero 32) 1.
Definition wordSize : Z := Z.shiftl 1 wordPower.

(** The inner loop of [ForEach] on one word, from bit position [bit]. *)
Fixpoint word_bits (fuel : nat) (base bit word : Z) : list Z :=
  match fuel with
  | O => []
  | S f =>
      if 0 <? word then
        (if Z.land word 1 =? 0 then [] else [base + bit])
        ++ word_bits f base (bit + 1) (Z.shiftr (Z.ldiff word 1) 1)
      else []
  end.

(** The offsets [ForEach] calls its argument on, in order. *)
Fixpoint words_bits (wordIdx : Z) (words : list Z) : list Z :=
  match words with
  | [] => []
  | word :: rest => word_bits 64 (wordIdx * wordSize * 8) 0 word ++ words_bits (wordIdx + 1) rest
  end.

Definition ForEach (r : AllocationBitmap) : list Z := words_bits 0 (Big.Bits (allocated r)).

Definition Has (r : AllocationBitmap) (offset : Z) : outcome bool :=
  let* b := Big.Bit (allocated r) offset in Ret (b =? 1).

Definition Free (r : AllocationBitmap) : Z := max r - count r.

Definition Snapshot (r : AllocationBitmap) : string * list Z :=
  (rangeSpec r, Big.Bytes (allocated r)).

Definition bitCounts : list Z := [
  0; 1; 1; 2; 1; 2; 2; 3;
  1; 2; 2; 3; 2; 3; 3; 4;
  1; 2; 2; 3; 2; 3; 3; 4;
  2; 3; 3; 4; 3; 4; 4; 5;
  1; 2; 2; 3; 2; 3; 3; 4;
  2; 3; 3; 4; 3; 4; 4; 5;
  2; 3; 3; 4; 3; 4; 4; 5;
  3; 4; 4; 5; 4; 5; 5; 6;
  1; 2; 2; 3; 2; 3; 3; 4;
  2; 3; 3; 4; 3; 4; 4; 5;
  2; 3; 3; 4; 3; 4; 4; 5;
  3; 4; 4; 5; 4; 5; 5; 6;
  2; 3; 3; 4; 3; 4; 4; 5;
  3; 4; 4; 5; 4; 5; 5; 6;
  3; 4; 4; 5; 4; 5; 5; 6;
  4; 5; 5; 6; 5; 6; 6; 7;
  1; 2; 2; 3; 2; 3; 3; 4;
  2; 3; 3; 4; 3; 4; 4; 5;
  2; 3; 3; 4; 3; 4; 4; 5;
  3; 4; 4; 5; 4; 5; 5; 6;
  2; 3; 3; 4; 3; 4; 4; 5;
  3; 4; 4; 5; 4; 5; 5; 6;
  3; 4; 4; 5; 4; 5; 5; 6;
  4; 5; 5; 6; 5; 6; 6; 7;
  2; 3; 3; 4; 3; 4; 4; 5;
  3; 4; 4; 5; 4; 5; 5; 6;
  3; 4; 4; 5; 4; 5; 5; 6;
  4; 5; 5; 6; 5; 6; 6; 7;
  3; 4; 4; 5; 4; 5; 5; 6;
  4; 5; 5; 6; 5; 6; 6; 7;
  4; 5; 5; 6; 5; 6; 6; 7;
  5; 6; 6; 7; 6; 7; 7; 8
].

Definition countBits (n : Z) : Z :=
  fold_left (fun c b => c + default 0 (bitCounts !! Z.to_nat b)) (Big.Bytes n) 0.

Definition Restore (r : AllocationBitmap) (rangeSpec_ : string) (data : list Z)
  : AllocationBitmap * bool :=
  if negb (String.eqb (rangeSpec r) rangeSpec_) then (r, false) else
  let a := Big.SetBytes data in
  (set_allocated r (countBits a) a, true).

(** ** The bits of an integer as a sorted list *)

(** The positions below [n] of the bits set in [x], in increasing order. *)
Definition bits_below (x n : Z) : list Z := filter (fun i => Z.testbit x i = true) (seqZ 0 n).

(** The number of bits set in a non-negative [x]. *)
Definition popcount (x : Z) : Z := Z.of_nat (length (bits_below x (Z.log2 x + 1))).

Lemma elem_of_bits_below x n i : i ∈ bits_below x n <-> 0 <= i < n /\ Z.testbit x i = true.
Proof. unfold bits_below. rewrite list_elem_of_filter, elem_of_seqZ. naive_solver lia. Qed.

Lemma bits_below_sorted x n : StronglySorted Z.lt (bits_below x n).
Proof. apply StronglySorted_filter, StronglySorted_seqZ. Qed.

Lemma NoDup_bits_below x n : NoDup (bits_below x n).
Proof. apply NoDup_filter, NoDup_seqZ. Qed.

(** The low [w] bits, then the rest shifted up. *)
Lemma bits_below_split x w n :
  0 <= w -> 0 <= n ->
  bits_below x (w + n) = bits_below (x mod 2 ^ w) w ++ (Z.add w <$> bits_below (x / 2 ^ w) n).
Proof.
  intros Hw Hn. unfold bits_below.
  rewrite seqZ_app, filter_app by lia. f_equal.
  - apply filter_iff_in. intros i Hi%elem_of_seqZ. by rewrite Z.mod_pow2_bits_low by lia.
  - replace (0 + w) with (w + 0) by lia. rewrite <- fmap_add_seqZ, filter_fmap_comm.
    f_equal. apply filter_iff_in. intros i Hi%elem_of_seqZ.
    rewrite Z.div_pow2_bits by lia. by replace (w + i) with (i + w) by lia.
Qed.

Lemma testbit_above x n i : 0 <= x < 2 ^ n -> n <= i -> Z.testbit x i = false.
Proof.
  intros Hx Hi. destruct (decide (x = 0)) as [->|]; [apply Z.bits_0|].
  destruct (decide (i < 0)); [by apply Z.testbit_neg_r|].
  apply Z.bits_above_log2; [lia|]. apply Z.log2_lt_pow2; [lia|].
  destruct Hx. eapply Z.lt_le_trans; [done|]. apply Z.pow_le_mono_r; lia.
Qed.

(** Widening past the highest bit adds nothing. *)
Lemma bits_below_widen x n m : 0 <= x < 2 ^ n -> 0 <= n <= m -> bits_below x m = bits_below x n.
Proof.
  intros Hx Hn. replace m with (n + (m - n)) by lia. unfold bits_below.
  rewrite seqZ_app, filter_app by lia. rewrite (filter_none _ (seqZ (0 + n) _)).
  - by rewrite app_nil_r.
  - intros i Hi%elem_of_seqZ. rewrite (testbit_above x n) by lia. done.
Qed.

Lemma below_log2 x : 0 <= x -> 0 <= x < 2 ^ (Z.log2 x + 1).
Proof.
  intros Hx. split; [done|]. destruct (decide (x = 0)) as [->|]; [done|].
  pose proof (Z.log2_spec x ltac:(lia)). unfold Z.succ in *. lia.
Qed.

(** The count does not depend on the bound, once it is high enough. *)
Lemma popcount_bound x n : 0 <= x < 2 ^ n -> 0 <= n ->
  popcount x = Z.of_nat (length (bits_below x n)).
Proof.
  intros Hx Hn. unfold popcount. pose proof (below_log2 x ltac:(lia)) as Hl.
  pose proof (Z.log2_nonneg x).
  destruct (decide (n <= Z.log2 x + 1)).
  - by rewrite (bits_below_widen x n) by lia.
  - by rewrite (bits_below_widen x (Z.log2 x + 1) n) by lia.
Qed.

Lemma popcount_split x w : 0 <= x -> 0 <= w ->
  popcount x = popcount (x mod 2 ^ w) + popcount (x / 2 ^ w).
Proof.
  intros Hx Hw. pose proof (below_log2 x Hx) as Hl. pose proof (Z.log2_nonneg x).
  assert (0 <= x / 2 ^ w < 2 ^ (Z.log2 x + 1)).
  { split; [apply Z.div_pos; lia|]. eapply Z.le_lt_trans; [|apply Hl].
    apply Z.div_le_upper_bound; [lia|]. nia. }
  pose proof (Z.mod_pos_bound x (2 ^ w) ltac:(lia)).
  pose proof (Z.pow_le_mono_r 2 (Z.log2 x + 1) (w + (Z.log2 x + 1)) ltac:(lia) ltac:(lia)).
  rewrite (popcount_bound x (w + (Z.log2 x + 1))) by lia.
  rewrite bits_below_split, length_app, length_fmap by lia.
  rewrite (popcount_bound (x mod 2 ^ w) w), (popcount_bound (x / 2 ^ w) (Z.log2 x + 1)) by lia.
  lia.
Qed.

Lemma popcount_nonneg x : 0 <= popcount x.
Proof. unfold popcount. lia. Qed.

(** ** Digits *)

Section Digits.
Context (w : Z) (Hw : 0 < w).

Definition undigits (ds : list Z) : Z := foldr (fun d acc => d + 2 ^ w * acc) 0 ds.

(** One digit uses up [w] bits. *)
Lemma digit_step fuel x :
  0 <= x < 2 ^ (w * Z.of_nat (S fuel)) -> 0 <= x / 2 ^ w < 2 ^ (w * Z.of_nat fuel).
Proof.
  intros Hx. split; [apply Z.div_pos; lia|]. apply Z.div_lt_upper_bound; [lia|].
  rewrite <- Z.pow_add_r by lia. replace (w + w * Z.of_nat fuel) with (w * Z.of_nat (S fuel)) by lia.
  lia.
Qed.

Lemma digit_fuel_enough x : 0 <= x -> 0 <= x < 2 ^ (w * Z.of_nat (Big.digit_fuel x)).
Proof.
  intros Hx. pose proof (below_log2 x Hx) as Hl. pose proof (Z.log2_nonneg x).
  split; [done|]. eapply Z.lt_le_trans; [apply Hl|]. apply Z.pow_le_mono_r; [lia|].
  unfold Big.digit_fuel. nia.
Qed.

Lemma undigits_digits fuel x :
  0 <= x < 2 ^ (w * Z.of_nat fuel) -> undigits (Big.digits w fuel x) = x.
Proof.
  revert x. induction fuel as [|f IH]; intros x Hx; simpl.
  - rewrite Z.mul_0_r in Hx. simpl in Hx. lia.
  - destruct (Z.eqb_spec x 0); simpl; [done|]. rewrite IH by (by apply digit_step).
    pose proof (Z.div_mod x (2 ^ w) ltac:(lia)). lia.
Qed.

Lemma digits_range fuel x : Forall (fun d => 0 <= d < 2 ^ w) (Big.digits w fuel x).
Proof.
  revert x. induction fuel as [|f IH]; intros x; simpl; [constructor|].
  destruct (x =? 0); constructor; [apply Z.mod_pos_bound; lia|apply IH].
Qed.

(** The counts of the digits add up. *)
Lemma popcount_digits fuel x :
  0 <= x < 2 ^ (w * Z.of_nat fuel) ->
  popcount x = foldr (fun d acc => popcount d + acc) 0 (Big.digits w fuel x).
Proof.
  revert x. induction fuel as [|f IH]; intros x Hx; simpl.
  - rewrite Z.mul_0_r in Hx. by replace x with 0 by lia.
  - destruct (Z.eqb_spec x 0) as [->|]; simpl; [done|].
    rewrite (popcount_split x w) by lia. f_equal. apply IH. by apply digit_step.
Qed.

End Digits.

Lemma SetBytes_undigits ds : Big.SetBytes (reverse ds) = undigits 8 ds.
Proof.
  unfold Big.SetBytes, undigits. rewrite fold_left_reverse.
  induction ds as [|d ds IH]; simpl; [done|]. rewrite IH. lia.
Qed.

Lemma SetBytes_Bytes x : 0 <= x -> Big.SetBytes (Big.Bytes x) = x.
Proof.
  intros Hx. unfold Big.Bytes. rewrite SetBytes_undigits.
  apply undigits_digits; [lia|]. apply digit_fuel_enough; lia.
Qed.

Lemma SetBytes_nonneg bs : Forall (fun b => 0 <= b) bs -> 0 <= Big.SetBytes bs.
Proof.
  intros Hbs. unfold Big.SetBytes.
  enough (forall a, 0 <= a -> 0 <= fold_left (fun acc b => acc * 256 + b) bs a) by (by apply H).
  induction Hbs as [|b bs Hb Hbs IH]; intros a Ha; simpl; [done|]. apply IH. lia.
Qed.

(** The table entry of every byte is its number of set bits. *)
Lemma bitCounts_spec b : 0 <= b < 256 -> default 0 (bitCounts !! Z.to_nat b) = popcount b.
Proof.
  intros Hb.
  assert (forallb (fun n => default 0 (bitCounts !! n) =? popcount (Z.of_nat n)) (seq 0 256) = true)
    as Hall by (vm_compute; reflexivity).
  rewrite forallb_forall in Hall. specialize (Hall (Z.to_nat b)).
  rewrite in_seq, Z.eqb_eq, Z2Nat.id in Hall by lia. apply Hall. lia.
Qed.

Lemma countBits_popcount x : 0 <= x -> countBits x = popcount x.
Proof.
  intros Hx. unfold countBits, Big.Bytes. rewrite fold_left_reverse.
  rewrite (popcount_digits 8 ltac:(lia) _ x (digit_fuel_enough 8 ltac:(lia) x Hx)).
  pose proof (digits_range 8 ltac:(lia) (Big.digit_fuel x) x) as Hr.
  induction Hr as [|d ds Hd Hds IH]; simpl; [done|]. rewrite IH, bitCounts_spec by done. lia.
Qed.

(** ** Setting and clearing one bit *)

Lemma below_of_bits x n : 0 <= n ->
  0 <= x -> (forall i, n <= i -> Z.testbit x i = false) -> 0 <= x < 2 ^ n.
Proof.
  intros Hn Hx Hb. assert (x mod 2 ^ n = x) as <-; [|apply Z.mod_pos_bound; lia].
  apply Z.bits_inj'. intros i Hi. destruct (decide (i < n)).
  - by rewrite Z.mod_pow2_bits_low by lia.
  - by rewrite Z.mod_pow2_bits_high, Hb by lia.
Qed.

Lemma setbit_below x n i : 0 <= x < 2 ^ n -> 0 <= i < n -> 0 <= Z.setbit x i < 2 ^ n.
Proof.
  intros Hx Hi. apply below_of_bits; [lia|rewrite Z.setbit_spec'; apply Z.lor_nonneg; lia|].
  intros j Hj. rewrite Z.setbit_neq by lia. by apply (testbit_above x n).
Qed.

Lemma clearbit_below x n i : 0 <= x < 2 ^ n -> 0 <= n -> 0 <= Z.clearbit x i < 2 ^ n.
Proof.
  intros Hx Hn. apply below_of_bits; [lia|rewrite Z.clearbit_spec'; apply Z.ldiff_nonneg; lia|].
  intros j Hj. rewrite Z.clearbit_eqb, (testbit_above x n) by done. done.
Qed.

Lemma popcount_setbit x i : 0 <= x -> 0 <= i -> Z.testbit x i = false ->
  popcount (Z.setbit x i) = popcount x + 1.
Proof.
  intros Hx Hi Hb. pose proof (below_log2 x Hx). pose proof (Z.log2_nonneg x).
  set (n := Z.log2 x + 1 + i + 1).
  pose proof (Z.pow_le_mono_r 2 (Z.log2 x + 1) n ltac:(lia) ltac:(lia)).
  rewrite (popcount_bound x n) by lia.
  rewrite (popcount_bound _ n) by (try apply setbit_below; lia).
  unfold bits_below.
  rewrite (length_filter_insert (fun j => Z.testbit x j = true)
             (fun j => Z.testbit (Z.setbit x i) j = true) _ i).
  - lia.
  - apply NoDup_seqZ.
  - apply elem_of_seqZ. lia.
  - by rewrite Hb.
  - by rewrite Z.setbit_eq.
  - intros j Hj. by rewrite Z.setbit_neq by done.
Qed.

Lemma popcount_clearbit x i : 0 <= x -> 0 <= i -> Z.testbit x i = true ->
  popcount (Z.clearbit x i) = popcount x - 1.
Proof.
  intros Hx Hi Hb.
  assert (0 <= Z.clearbit x i) by (rewrite Z.clearbit_spec'; apply Z.ldiff_nonneg; lia).
  assert (Z.setbit (Z.clearbit x i) i = x) as Hsc.
  { apply Z.bits_inj'. intros j Hj. destruct (decide (i = j)) as [<-|].
    - by rewrite Z.setbit_eq.
    - by rewrite Z.setbit_neq, Z.clearbit_neq. }
  rewrite <- Hsc at 2. rewrite popcount_setbit; [lia|done|done|apply Z.clearbit_eq].
Qed.

Lemma testbit_setbit x i j : 0 <= i -> 0 <= j ->
  Z.testbit (Z.setbit x i) j = true <-> j = i \/ Z.testbit x j = true.
Proof.
  intros Hi Hj. rewrite Z.setbit_eqb, orb_true_iff, Z.eqb_eq by done. naive_solver.
Qed.

Lemma testbit_clearbit x i j : 0 <= j ->
  Z.testbit (Z.clearbit x i) j = true <-> j ≠ i /\ Z.testbit x j = true.
Proof.
  intros Hj. rewrite Z.clearbit_eqb, andb_true_iff, negb_true_iff, Z.eqb_neq. naive_solver.
Qed.

(** A bitmap with fewer than [n] of its [n] bits set has a free one. *)
Lemma free_bit_exists x n : 0 <= x < 2 ^ n -> 0 <= n -> popcount x < n ->
  exists i, 0 <= i < n /\ Z.testbit x i = false.
Proof.
  intros Hx Hn Hlt.
  destruct (decide (Forall (fun i => Z.testbit x i = true) (seqZ 0 n))) as [Hall|Hnot].
  - exfalso. rewrite (popcount_bound x n) in Hlt by done. unfold bits_below in Hlt.
    rewrite filter_all in Hlt by (by apply Forall_forall). rewrite length_seqZ in Hlt. lia.
  - apply not_Forall_Exists in Hnot; [|apply _]. apply Exists_exists in Hnot as (i & Hi & Hb).
    apply elem_of_seqZ in Hi. exists i. split; [lia|]. by apply not_true_is_false.
Qed.

(** ** Traversal *)

Lemma word_bits_spec fuel base bit word :
  0 <= word < 2 ^ Z.of_nat fuel ->
  word_bits fuel base bit word = (fun i => base + bit + i) <$> bits_below word (Z.of_nat fuel).
Proof.
  revert bit word. induction fuel as [|f IH]; intros bit word Hw; [done|].
  replace (Z.of_nat (S f)) with (1 + Z.of_nat f) in * by lia.
  rewrite Z.pow_add_r in Hw by lia. simpl word_bits.
  assert (Z.shiftr (Z.ldiff word 1) 1 = word / 2 ^ 1) as ->.
  { apply Z.bits_inj'. intros j Hj. rewrite Z.shiftr_spec, Z.ldiff_spec, Z.div_pow2_bits by lia.
    rewrite (testbit_above 1 1) by lia. by rewrite andb_true_r. }
  rewrite bits_below_split by lia. rewrite IH by (split; [apply Z.div_pos|apply Z.div_lt_upper_bound]; lia).
  rewrite fmap_app, <- list_fmap_compose.
  destruct (Z.ltb_spec 0 word).
  - f_equal; [|apply list_fmap_ext; intros; simpl; lia].
    change 1 with (Z.ones 1) at 1. rewrite Z.land_ones by lia.
    pose proof (Z.mod_pos_bound word (2 ^ 1) ltac:(lia)).
    destruct (Z.eqb_spec (word mod 2 ^ 1) 0) as [->|]; [done|].
    assert (word mod 2 ^ 1 = 1) as -> by lia.
    change (bits_below 1 1) with [0]. rewrite fmap_cons, fmap_nil. by rewrite Z.add_0_r.
  - assert (word = 0) as -> by lia. rewrite Z.mod_0_l, Z.div_0_l by lia.
    unfold bits_below. by rewrite !filter_none by (intros; rewrite Z.bits_0; done).
Qed.

Lemma words_bits_spec fuel k x :
  0 <= x < 2 ^ (64 * Z.of_nat fuel) ->
  words_bits k (Big.digits 64 fuel x) = Z.add (64 * k) <$> bits_below x (64 * Z.of_nat fuel).
Proof.
  revert k x. induction fuel as [|f IH]; intros k x Hx; [done|].
  simpl Big.digits. destruct (Z.eqb_spec x 0) as [->|].
  - unfold bits_below. by rewrite filter_none by (intros; rewrite Z.bits_0; done).
  - cbn [words_bits]. pose proof (digit_step 64 ltac:(lia) f x Hx) as Hd.
    rewrite IH by done. change (wordSize) with 8.
    pose proof (Z.mod_pos_bound x (2 ^ 64) ltac:(lia)).
    rewrite word_bits_spec by (simpl Z.of_nat; lia).
    replace (64 * Z.of_nat (S f)) with (64 + 64 * Z.of_nat f) by lia.
    rewrite bits_below_split by lia. rewrite fmap_app, <- list_fmap_compose.
    f_equal; apply list_fmap_ext; intros; simpl; lia.
Qed.

(** The offsets visited are the set bits in increasing order. *)
Lemma ForEach_bits r n : 0 <= allocated r < 2 ^ n -> 0 <= n ->
  ForEach r = bits_below (allocated r) n.
Proof.
  intros Hx Hn. pose proof (digit_fuel_enough 64 ltac:(lia) (allocated r) ltac:(lia)) as Hf.
  unfold ForEach, Big.Bits. rewrite words_bits_spec by done.
  rewrite (list_fmap_ext _ id) by (intros; simpl; lia). rewrite list_fmap_id.
  destruct (decide (n <= 64 * Z.of_nat (Big.digit_fuel (allocated r)))).
  - apply bits_below_widen; lia.
  - symmetry. apply bits_below_widen; lia.
Qed.

(** ** Well-formed bitmaps

    [bm_wf]: the count is the number of set bits.  [bm_inv]: moreover every
    set bit is below [max], which the callers of [Allocate] ensure. *)

Definition bm_wf (r : AllocationBitmap) : Prop :=
  0 <= allocated r /\ count r = popcount (allocated r).

Definition bm_inv (r : AllocationBitmap) : Prop :=
  bm_wf r /\ 0 <= max r /\ allocated r < 2 ^ max r.

(** The set of offsets a bitmap stands for. *)
Definition used (r : AllocationBitmap) : gset Z := list_to_set (ForEach r).

Lemma Bit_eq x i : 0 <= i -> Big.Bit x i = Ret (Z.b2z (Z.testbit x i)).
Proof. intros Hi. unfold Big.Bit. destruct (Z.ltb_spec i 0); [lia|done]. Qed.

Lemma SetBit_one x i : 0 <= i -> Big.SetBit x i 1 = Ret (Z.setbit x i).
Proof. intros Hi. unfold Big.SetBit. destruct (Z.ltb_spec i 0); [lia|done]. Qed.

Lemma SetBit_zero x i : 0 <= i -> Big.SetBit x i 0 = Ret (Z.clearbit x i).
Proof. intros Hi. unfold Big.SetBit. destruct (Z.ltb_spec i 0); [lia|done]. Qed.

Lemma elem_of_used r o : 0 <= allocated r -> o ∈ used r <-> 0 <= o /\ Z.testbit (allocated r) o = true.
Proof.
  intros Hr. unfold used. rewrite elem_of_list_to_set.
  set (n := Z.log2 (allocated r) + 1).
  assert (0 <= allocated r < 2 ^ n) as Hn by (by apply below_log2).
  pose proof (Z.log2_nonneg (allocated r)).
  rewrite (ForEach_bits r n), elem_of_bits_below by lia.
  split; [naive_solver lia|]. intros [Ho Hb]. repeat split; [lia| |done].
  destruct (decide (o < n)); [done|]. rewrite (testbit_above _ n) in Hb by lia. done.
Qed.

Lemma size_used r : bm_wf r -> Z.of_nat (size (used r)) = count r.
Proof.
  intros [Hr Hc]. pose proof (below_log2 _ Hr). pose proof (Z.log2_nonneg (allocated r)).
  unfold used. rewrite (ForEach_bits r (Z.log2 (allocated r) + 1)) by lia.
  rewrite size_list_to_set by apply NoDup_bits_below. done.
Qed.

(** [Allocate] on a non-negative offset. *)
Lemma Allocate_eq r o : 0 <= o ->
  Allocate r o =
    Ret (if Z.testbit (allocated r) o then (r, false)
         else (set_allocated r (count r + 1) (Z.setbit (allocated r) o), true)).
Proof.
  intros Ho. unfold Allocate. rewrite Bit_eq, SetBit_one by done. simpl.
  by destruct (Z.testbit (allocated r) o).
Qed.

Lemma Release_eq r o : 0 <= o ->
  Release r o =
    Ret (if Z.testbit (allocated r) o
         then set_allocated r (count r - 1) (Z.clearbit (allocated r) o) else r).
Proof.
  intros Ho. unfold Release. rewrite Bit_eq, SetBit_zero by done. simpl.
  by destruct (Z.testbit (allocated r) o).
Qed.

Lemma Has_eq r o : 0 <= o -> Has r o = Ret (Z.testbit (allocated r) o).
Proof.
  intros Ho. unfold Has. rewrite Bit_eq by done. simpl. by destruct (Z.testbit _ _).
Qed.

(** Marking a free offset, and clearing a used one. *)
Definition mark (r : AllocationBitmap) (o : Z) : AllocationBitmap :=
  set_allocated r (count r + 1) (Z.setbit (allocated r) o).
Definition unmark (r : AllocationBitmap) (o : Z) : AllocationBitmap :=
  set_allocated r (count r - 1) (Z.clearbit (allocated r) o).

Lemma setbit_nonneg x i : 0 <= x -> 0 <= Z.setbit x i.
Proof. intros Hx. rewrite Z.setbit_spec'. apply Z.lor_nonneg. lia. Qed.

Lemma clearbit_nonneg x i : 0 <= x -> 0 <= Z.clearbit x i.
Proof. intros Hx. rewrite Z.clearbit_spec'. apply Z.ldiff_nonneg. lia. Qed.

Lemma mark_wf r o : bm_wf r -> 0 <= o -> Z.testbit (allocated r) o = false -> bm_wf (mark r o).
Proof.
  intros [Hr Hc] Ho Hb. split; simpl; [by apply setbit_nonneg|].
  rewrite popcount_setbit by done. lia.
Qed.

Lemma unmark_wf r o : bm_wf r -> 0 <= o -> Z.testbit (allocated r) o = true -> bm_wf (unmark r o).
Proof.
  intros [Hr Hc] Ho Hb. split; simpl; [by apply clearbit_nonneg|].
  rewrite popcount_clearbit by done. lia.
Qed.

Lemma mark_inv r o : bm_inv r -> 0 <= o < max r -> Z.testbit (allocated r) o = false ->
  bm_inv (mark r o).
Proof.
  intros (Hwf & Hm & Hlt) Ho Hb. split; [apply mark_wf; done || lia|]. simpl.
  split; [done|]. apply setbit_below; [|done]. destruct Hwf. lia.
Qed.

Lemma unmark_inv r o : bm_inv r -> 0 <= o -> Z.testbit (allocated r) o = true ->
  bm_inv (unmark r o).
Proof.
  intros (Hwf & Hm & Hlt) Ho Hb. split; [by apply unmark_wf|]. simpl.
  split; [done|]. apply clearbit_below; [|done]. destruct Hwf. lia.
Qed.

Lemma used_mark r o : 0 <= allocated r -> 0 <= o -> used (mark r o) = {[o]} ∪ used r.
Proof.
  intros Hr Ho. apply set_eq. intros j.
  rewrite elem_of_union, elem_of_singleton, !elem_of_used by (simpl; by try apply setbit_nonneg).
  simpl. destruct (decide (0 <= j)); [rewrite testbit_setbit by done|]; naive_solver.
Qed.

Lemma used_unmark r o : 0 <= allocated r -> used (unmark r o) = used r ∖ {[o]}.
Proof.
  intros Hr. apply set_eq. intros j.
  rewrite elem_of_difference, elem_of_singleton, !elem_of_used
    by (simpl; by try apply clearbit_nonneg).
  simpl. destruct (decide (0 <= j)); [rewrite testbit_clearbit by done|]; naive_solver.
Qed.

(** ** The scan strategies *)

(** The contiguous scan returns the least free offset. *)
Lemma contiguous_scan_spec a i fuel : 0 <= i ->
  (exists o, contiguous_scan a i fuel = Ret (o, true) /\ i <= o < i + Z.of_nat fuel
     /\ Z.testbit a o = false /\ forall j, i <= j < o -> Z.testbit a j = true)
  \/ (contiguous_scan a i fuel = Ret (0, false)
     /\ forall j, i <= j < i + Z.of_nat fuel -> Z.testbit a j = true).
Proof.
  revert i. induction fuel as [|f IH]; intros i Hi; [right; split; [done|lia]|].
  simpl. rewrite Bit_eq by done. simpl. destruct (Z.testbit a i) eqn:Hb; simpl.
  - destruct (IH (i + 1) ltac:(lia)) as [(o & Hs & Ho & Hf & Hleast)|[Hs Hall]].
    + left. exists o. split; [done|]. split; [lia|]. split; [done|]. intros j Hj.
      destruct (decide (j = i)) as [->|]; [done|]. apply Hleast. lia.
    + right. split; [done|]. intros j Hj.
      destruct (decide (j = i)) as [->|]; [done|]. apply Hall. lia.
  - left. exists i. split; [done|]. split; [lia|]. split; [done|]. lia.
Qed.

(** The random scan returns the first free offset at or after the draw,
    wrapping around. *)
Lemma random_scan_spec a m off i fuel : 0 < m -> 0 <= off -> 0 <= i ->
  (exists k, random_scan a m off i fuel = Ret ((off + k) mod m, true)
     /\ i <= k < i + Z.of_nat fuel /\ Z.testbit a ((off + k) mod m) = false
     /\ forall j, i <= j < k -> Z.testbit a ((off + j) mod m) = true)
  \/ (random_scan a m off i fuel = Ret (0, false)
     /\ forall k, i <= k < i + Z.of_nat fuel -> Z.testbit a ((off + k) mod m) = true).
Proof.
  intros Hm Hoff. revert i. induction fuel as [|f IH]; intros i Hi; [right; split; [done|lia]|].
  simpl. rewrite Z.rem_mod_nonneg by lia.
  pose proof (Z.mod_pos_bound (off + i) m Hm).
  rewrite Bit_eq by lia. simpl. destruct (Z.testbit a ((off + i) mod m)) eqn:Hb; simpl.
  - destruct (IH (i + 1) ltac:(lia)) as [(k & Hs & Hk & Hf & Hfirst)|[Hs Hall]].
    + left. exists k. split; [done|]. split; [lia|]. split; [done|]. intros j Hj.
      destruct (decide (j = i)) as [->|]; [done|]. apply Hfirst. lia.
    + right. split; [done|]. intros k Hk.
      destruct (decide (k = i)) as [->|]; [done|]. apply Hall. lia.
  - left. exists i. split; [done|]. split; [lia|]. split; [done|]. lia.
Qed.

(** Every offset below [m] is reached from any starting point. *)
Lemma cyclic_cover m off i : 0 < m -> 0 <= off < m -> 0 <= i < m ->
  exists k, 0 <= k < m /\ (off + k) mod m = i.
Proof.
  intros Hm Ho Hi. destruct (decide (off <= i)).
  - exists (i - off). split; [lia|]. rewrite Z.mod_small; lia.
  - exists (i - off + m). split; [lia|]. replace (off + (i - off + m)) with (i + 1 * m) by lia.
    rewrite Z.mod_add by lia. by apply Z.mod_small.
Qed.

(** Both strategies find a free offset below [max] when one is left. *)
Lemma AllocateBit_found s Intn a m c :
  rand_ok Intn -> 0 <= a < 2 ^ m -> c = popcount a -> c < m ->
  exists o, AllocateBit s Intn a m c = Ret (o, true) /\ 0 <= o < m /\ Z.testbit a o = false.
Proof.
  intros HI Ha -> Hc. pose proof (popcount_nonneg a).
  destruct (free_bit_exists a m Ha ltac:(lia) Hc) as (i & Hi & Hfree).
  unfold AllocateBit. destruct (Z.geb_spec (popcount a) m); [lia|].
  destruct s.
  - specialize (HI m ltac:(lia)).
    destruct (random_scan_spec a m (Intn m) 0 (Z.to_nat m))
      as [(k & Hs & _ & Hf & _)|[_ Hall]]; [lia..| |].
    + exists ((Intn m + k) mod m). split; [done|]. split; [apply Z.mod_pos_bound; lia|done].
    + destruct (cyclic_cover m (Intn m) i) as (k & Hk & Heq); [lia..|].
      rewrite <- Heq, Hall in Hfree by lia. done.
  - destruct (contiguous_scan_spec a 0 (Z.to_nat m))
      as [(o & Hs & Ho & Hf & _)|[_ Hall]]; [lia| |].
    + exists o. split; [done|]. split; [lia|done].
    + rewrite Hall in Hfree by lia. done.
Qed.

Lemma AllocateNext_marks r Intn : bm_inv r -> rand_ok Intn -> count r < max r ->
  exists o, AllocateNext Intn r = Ret (mark r o, (o, true)) /\ 0 <= o < max r
    /\ Z.testbit (allocated r) o = false.
Proof.
  intros ((Hr & Hc) & Hm & Hlt) HI Hfree.
  destruct (AllocateBit_found (strategy r) Intn (allocated r) (max r) (count r))
    as (o & Hs & Ho & Hb); [done..|].
  exists o. split; [|done]. unfold AllocateNext. rewrite Hs. simpl.
  by rewrite SetBit_one by lia.
Qed.

Lemma AllocateNext_none r Intn : max r <= count r -> AllocateNext Intn r = Ret (r, (0, false)).
Proof.
  intros Hfull. unfold AllocateNext, AllocateBit.
  destruct (Z.geb_spec (count r) (max r)); [done|lia].
Qed.

(** ** The bitmap implements the allocator interface *)

#[export] Instance bitmap_allocator : Allocator AllocationBitmap := {|
  al_Allocate := Allocate;
  al_AllocateNext := AllocateNext;
  al_Release := Release;
  al_ForEach := ForEach;
  al_Has := Has;
  al_Free := Free;
  al_Snapshot := Snapshot;
  al_Restore := Restore
|}.

Lemma used_range r o : bm_inv r -> o ∈ used r -> 0 <= o < max r.
Proof.
  intros ((Hr & _) & Hm & Hlt) [Ho Hb]%elem_of_used; [|done]. split; [done|].
  destruct (decide (o < max r)); [done|]. rewrite (testbit_above _ (max r)) in Hb by lia. done.
Qed.

Lemma Allocate_set r o : bm_inv r -> 0 <= o < max r ->
  exists r', Allocate r o = Ret (r', bool_decide (o ∉ used r))
    /\ bm_inv r' /\ max r' = max r /\ used r' = {[o]} ∪ used r.
Proof.
  intros Hi Ho. pose proof Hi as ((Hr & _) & _ & _). rewrite Allocate_eq by lia.
  destruct (Z.testbit (allocated r) o) eqn:Hb.
  - assert (o ∈ used r) by (apply elem_of_used; [done|split; [lia|done]]).
    exists r. rewrite bool_decide_eq_false_2 by set_solver. repeat split; try apply Hi. set_solver.
  - exists (mark r o). rewrite bool_decide_eq_true_2.
    + split; [done|]. split; [by apply mark_inv|]. split; [done|]. apply used_mark; lia.
    + rewrite elem_of_used by done. rewrite Hb. naive_solver.
Qed.

Lemma Release_set r o : bm_inv r -> 0 <= o ->
  exists r', Release r o = Ret r' /\ bm_inv r' /\ max r' = max r /\ used r' = used r ∖ {[o]}.
Proof.
  intros Hi Ho. pose proof Hi as ((Hr & _) & _ & _). rewrite Release_eq by done.
  destruct (Z.testbit (allocated r) o) eqn:Hb.
  - exists (unmark r o). split; [done|]. split; [by apply unmark_inv|]. split; [done|].
    by apply used_unmark.
  - exists r. repeat split; try apply Hi.
    assert (o ∉ used r) by (rewrite elem_of_used by done; rewrite Hb; naive_solver). set_solver.
Qed.

Lemma AllocateNext_set r Intn : bm_inv r -> rand_ok Intn -> count r < max r ->
  exists r' o, AllocateNext Intn r = Ret (r', (o, true)) /\ 0 <= o < max r /\ o ∉ used r
    /\ bm_inv r' /\ max r' = max r /\ used r' = {[o]} ∪ used r.
Proof.
  intros Hi HI Hlt. pose proof Hi as ((Hr & _) & _ & _).
  destruct (AllocateNext_marks r Intn Hi HI Hlt) as (o & Heq & Ho & Hb).
  exists (mark r o), o. split; [done|]. split; [done|].
  split; [rewrite elem_of_used by done; rewrite Hb; naive_solver|].
  split; [by apply mark_inv|]. split; [done|]. apply used_mark; lia.
Qed.

Lemma Has_set r o : 0 <= allocated r -> 0 <= o -> Has r o = Ret (bool_decide (o ∈ used r)).
Proof.
  intros Hr Ho. rewrite Has_eq by done. f_equal. apply eq_bool_prop_intro.
  rewrite bool_decide_spec, elem_of_used by done. rewrite Is_true_true. naive_solver.
Qed.

#[export] Instance bitmap_allocator_spec : AllocatorSpec AllocationBitmap.
Proof.
  refine {| al_ok := bm_inv; al_limit := max; al_used := used |}.
  - apply used_range.
  - apply Allocate_set.
  - intros r Intn Hi HI Hlt. rewrite size_used in Hlt by apply Hi. by apply AllocateNext_set.
  - intros r Intn Hi Hle. rewrite size_used in Hle by apply Hi. by apply AllocateNext_none.
  - apply Release_set.
  - intros r Hi. pose proof Hi as ((Hr & _) & _ & _).
    split; [|intros o; unfold used; by rewrite elem_of_list_to_set].
    pose proof (below_log2 _ Hr). pose proof (Z.log2_nonneg (allocated r)).
    simpl. rewrite (ForEach_bits r (Z.log2 (allocated r) + 1)) by lia. apply NoDup_bits_below.
  - intros r o Hi Ho. apply Has_set; [apply Hi|done].
  - intros r Hi. simpl. unfold Free. by rewrite size_used by apply Hi.
Defined.

(** ** Reachable bitmaps *)

(** One completed call; a call that panics leaves no successor. *)
Inductive bm_step : AllocationBitmap -> AllocationBitmap -> Prop :=
| step_Allocate r r' o b : Allocate r o = Ret (r', b) -> bm_step r r'
| step_AllocateNext r r' Intn res : AllocateNext Intn r = Ret (r', res) -> rand_ok Intn -> bm_step r r'
| step_Release r r' o : Release r o = Ret r' -> bm_step r r'
| step_Restore r r' spec data b :
    Forall (fun d => 0 <= d < 256) data -> Restore r spec data = (r', b) -> bm_step r r'.

(** An allocated bit found by a scan is free. *)
Lemma AllocateBit_free s Intn a m c o : rand_ok Intn -> 0 <= c ->
  AllocateBit s Intn a m c = Ret (o, true) -> 0 <= o /\ Z.testbit a o = false.
Proof.
  intros HI Hc. unfold AllocateBit. destruct (Z.geb_spec c m); [done|]. destruct s.
  - specialize (HI m ltac:(lia)).
    destruct (random_scan_spec a m (Intn m) 0 (Z.to_nat m)) as [(k & -> & _ & Hf & _)|[-> _]];
      [lia..| |done].
    intros [= <-]. split; [|done]. apply Z.mod_pos_bound. lia.
  - destruct (contiguous_scan_spec a 0 (Z.to_nat m)) as [(k & -> & Hk & Hf & _)|[-> _]];
      [lia| |done].
    intros [= <-]. split; [lia|done].
Qed.

Lemma bm_step_wf r r' : bm_step r r' -> bm_wf r -> bm_wf r'.
Proof.
  intros Hstep Hwf. pose proof Hwf as [Hr Hc]. destruct Hstep as [r r' o b Heq|r r' Intn res Heq HI|r r' o Heq|r r' spec data b Hd Heq].
  - destruct (decide (0 <= o)) as [Ho|Ho].
    + rewrite Allocate_eq in Heq by done. destruct (Z.testbit (allocated r) o) eqn:Hb; simplify_eq; [done|].
      by apply mark_wf.
    + unfold Allocate, Big.Bit in Heq. destruct (Z.ltb_spec o 0); [done|lia].
  - unfold AllocateNext in Heq.
    destruct (AllocateBit _ _ _ _ _) as [[o []]|w] eqn:Hs; simplify_eq/=; [|done].
    pose proof (popcount_nonneg (allocated r)).
    apply AllocateBit_free in Hs as [Ho Hb]; [|done|lia].
    rewrite SetBit_one in Heq by done. simplify_eq/=. by apply mark_wf.
  - destruct (decide (0 <= o)) as [Ho|Ho].
    + rewrite Release_eq in Heq by done. destruct (Z.testbit (allocated r) o) eqn:Hb; simplify_eq; [|done].
      by apply unmark_wf.
    + unfold Release, Big.Bit in Heq. destruct (Z.ltb_spec o 0); [done|lia].
  - unfold Restore in Heq. destruct (negb _); simplify_eq/=; [done|].
    assert (0 <= Big.SetBytes data).
    { apply SetBytes_nonneg. eapply Forall_impl; [exact Hd|]. simpl. lia. }
    split; simpl; [done|]. by apply countBits_popcount.
Qed.

(** ** Properties *)

(** C1: in every state reachable from a fresh bitmap through any sequence of
    completed calls (out-of-range offsets and arbitrary [Restore] data
    included), [count] is the number of offsets [ForEach] visits, and
    recounting the bytes with the table gives the same number. *)
Theorem bitmap_count_reachable (r0 r : AllocationBitmap) (m : Z) (spec : string) :
  r0 = NewAllocationMap m spec \/ r0 = NewContiguousAllocationMap m spec ->
  rtc bm_step r0 r ->
  count r = Z.of_nat (length (ForEach r)) /\ countBits (allocated r) = count r.
Proof.
  intros Hinit Hreach.
  assert (bm_wf r) as [Hr Hc].
  { eapply (rtc_invariant _ _ bm_step_wf); [done|]. by destruct Hinit as [->| ->]. }
  pose proof (below_log2 _ Hr). pose proof (Z.log2_nonneg (allocated r)).
  rewrite (ForEach_bits r (Z.log2 (allocated r) + 1)) by lia.
  rewrite countBits_popcount by done. done.
Qed.

Lemma bitmap_count_reachable_witness :
  count (mark (mark (NewAllocationMap 10 "test") 3) 70) =
    Z.of_nat (length (ForEach (mark (mark (NewAllocationMap 10 "test") 3) 70))).
Proof.
  apply (bitmap_count_reachable (NewAllocationMap 10 "test") _ 10 "test"); [by left|].
  eapply rtc_l; [apply (step_Allocate _ _ 3 true); reflexivity|].
  eapply rtc_l; [apply (step_Allocate _ _ 70 true); reflexivity|]. apply rtc_refl.
Defined.

(** C8: as long as fewer than [max] offsets are in use, [AllocateNext] under
    either strategy and any random draw returns an unused offset below [max]
    and marks exactly that one; the contiguous strategy returns the least
    unused offset.  When the range is full it returns [(0, false)] and
    changes nothing. *)
Theorem AllocateNext_correct (r : AllocationBitmap) (Intn : Z -> Z) :
  bm_inv r -> rand_ok Intn ->
  if Free r <=? 0 then AllocateNext Intn r = Ret (r, (0, false))
  else exists r' o, AllocateNext Intn r = Ret (r', (o, true))
    /\ 0 <= o < max r /\ o ∉ used r
    /\ bm_inv r' /\ used r' = {[o]} ∪ used r /\ Free r' = Free r - 1
    /\ (strategy r = contiguousScanStrategy -> forall j, 0 <= j < o -> j ∈ used r).
Proof.
  intros Hi HI. pose proof Hi as ((Hr & Hc) & Hm & Hlt). unfold Free.
  destruct (Z.leb_spec (max r - count r) 0); [apply AllocateNext_none; lia|].
  destruct (AllocateNext_marks r Intn Hi HI) as (o & Heq & Ho & Hb); [lia|].
  exists (mark r o), o. split; [done|]. split; [done|].
  split; [rewrite elem_of_used by done; rewrite Hb; naive_solver|].
  split; [by apply mark_inv|]. split; [apply used_mark; lia|]. split; [simpl; lia|].
  intros Hs j Hj. unfold AllocateNext, AllocateBit in Heq. rewrite Hs in Heq.
  destruct (Z.geb_spec (count r) (max r)); [lia|].
  destruct (contiguous_scan_spec (allocated r) 0 (Z.to_nat (max r)))
    as [(o' & Hsc & Ho' & _ & Hleast)|[Hsc _]]; [lia| |rewrite Hsc in Heq; done].
  rewrite Hsc in Heq. simpl in Heq. rewrite SetBit_one in Heq by lia. simplify_eq/=.
  apply elem_of_used; [done|]. split; [lia|]. by apply Hleast.
Qed.

Lemma AllocateNext_correct_witness :
  exists r' o, AllocateNext (fun n => n - 1) (mark (NewContiguousAllocationMap 4 "t") 0)
    = Ret (r', (o, true)) /\ 0 <= o < 4.
Proof.
  assert (bm_inv (mark (NewContiguousAllocationMap 4 "t") 0)) as Hi.
  { unfold bm_inv, bm_wf. split; [split|]; vm_compute; [discriminate|reflexivity|].
    split; [discriminate|reflexivity]. }
  assert (rand_ok (fun n => n - 1)) as HI by (intros n Hn; lia).
  pose proof (AllocateNext_correct _ _ Hi HI) as Hc. simpl in Hc.
  destruct Hc as (r' & o & Heq & Ho & _). exists r', o. split; [exact Heq|exact Ho].
Defined.

(** [Allocate], [Release] and [Has] act as insertion, deletion and
    membership on the set of used offsets, keep the bitmap well formed, and
    report whether the offset was free. *)
Theorem bitmap_refines_set (r : AllocationBitmap) (o : Z) :
  bm_inv r -> 0 <= o < max r ->
  (exists r', Allocate r o = Ret (r', bool_decide (o ∉ used r)) /\ bm_inv r'
     /\ used r' = {[o]} ∪ used r)
  /\ (exists r', Release r o = Ret r' /\ bm_inv r' /\ used r' = used r ∖ {[o]})
  /\ Has r o = Ret (bool_decide (o ∈ used r)).
Proof.
  intros Hi Ho. split; [|split].
  - destruct (Allocate_set r o Hi Ho) as (r' & ? & ? & _ & ?). eauto.
  - destruct (Release_set r o Hi ltac:(lia)) as (r' & ? & ? & _ & ?). eauto.
  - apply Has_set; [apply Hi|lia].
Qed.

Lemma bitmap_refines_set_witness :
  Has (NewAllocationMap 10 "test") 3 = Ret (bool_decide (3 ∈ used (NewAllocationMap 10 "test"))).
Proof.
  apply (bitmap_refines_set (NewAllocationMap 10 "test") 3).
  - unfold bm_inv, bm_wf. vm_compute. repeat split; discriminate.
  - simpl. lia.
Defined.

(** [ForEach] visits exactly the used offsets, each once, in increasing
    order. *)
Theorem ForEach_sorted (r : AllocationBitmap) :
  0 <= allocated r ->
  StronglySorted Z.lt (ForEach r)
  /\ forall o, o ∈ ForEach r <-> 0 <= o /\ Has r o = Ret true.
Proof.
  intros Hr. pose proof (below_log2 _ Hr). pose proof (Z.log2_nonneg (allocated r)). split.
  - rewrite (ForEach_bits r (Z.log2 (allocated r) + 1)) by lia. apply bits_below_sorted.
  - intros o. assert (o ∈ ForEach r <-> o ∈ used r) as ->
      by (unfold used; by rewrite elem_of_list_to_set).
    rewrite elem_of_used by done. split; intros [Ho Hb]; (split; [done|]).
    + by rewrite Has_eq, Hb.
    + rewrite Has_eq in Hb by done. by injection Hb.
Qed.

Lemma ForEach_sorted_witness : StronglySorted Z.lt (ForEach (mark (NewAllocationMap 200 "t") 130)).
Proof. apply (ForEach_sorted (mark (NewAllocationMap 200 "t") 130)). vm_compute. discriminate. Defined.

(** Restoring a snapshot of a well-formed bitmap into any bitmap of the
    same range gives back the same bits and the same count; another range
    specifier is refused and nothing changes. *)
Theorem Restore_Snapshot (r r0 : AllocationBitmap) :
  bm_wf r ->
  let '(spec, data) := Snapshot r in
  Restore r0 spec data =
    if String.eqb (rangeSpec r0) (rangeSpec r)
    then (set_allocated r0 (count r) (allocated r), true) else (r0, false).
Proof.
  intros [Hr Hc]. simpl. unfold Restore. rewrite SetBytes_Bytes, countBits_popcount by done.
  rewrite <- Hc. by destruct (String.eqb _ _).
Qed.

Lemma Restore_Snapshot_witness :
  Restore (NewAllocationMap 10 "test") "test" (Big.Bytes (2 ^ 9 + 1)) =
    (set_allocated (NewAllocationMap 10 "test") 2 (2 ^ 9 + 1), true).
Proof.
  apply (Restore_Snapshot (set_allocated (NewAllocationMap 10 "test") 2 (2 ^ 9 + 1))
           (NewAllocationMap 10 "test")).
  split; vm_compute; [discriminate|reflexivity].
Defined.
