(* ===== verification/GoNet.v ===== *)
(** * package net: addresses and networks

    [IP] values of 4 or 16 bytes, masks, [IPNet.Contains], [IPNet.String] and
    [ParseCIDR], as package net defines them, with the arithmetic reading of
    [Contains] on IPv4 networks. *)

From Stdlib Require Import ZArith Lia Ascii String.
From stdpp Require Import base strings gmap numbers sorting list pretty.
From S2P Require Import Prelude.
From S2P Require Import GoStd.
From S2P Require Import AllocatorInterface.
From S2P Require Import Bitmap.

Local Open Scope Z_scope.

(** An address is a byte slice; nil is the empty list here, as every use
    looks at its bytes and length only. *)
Notation IP := (list Z).

Record IPNet : Type := mkIPNet { net_IP : IP; net_Mask : list Z }.

Definition To4 (ip : IP) : option IP :=
  if (length ip =? 4)%nat then Some ip
  else if (length ip =? 16)%nat && bool_decide (take 12 ip = v4InV6Prefix) then Some (drop 12 ip)
  else None.

Definition To16 (ip : IP) : option IP :=
  if (length ip =? 4)%nat then Some (v4InV6Prefix ++ ip)
  else if (length ip =? 16)%nat then Some ip
  else None.

(** [IP.Equal]: an IPv4 address equals its mapped form. *)
Definition IP_Equal (x y : IP) : bool :=
  if (length x =? length y)%nat then bool_decide (x = y)
  else if (length x =? 4)%nat && (length y =? 16)%nat then
    bool_decide (take 12 y = v4InV6Prefix) && bool_decide (x = drop 12 y)
  else if (length x =? 16)%nat && (length y =? 4)%nat then
    bool_decide (take 12 x = v4InV6Prefix) && bool_decide (drop 12 x = y)
  else false.

(** [simpleMaskLength]: the leading ones of a mask of ones then zeros; -1
    for any other mask. *)
Fixpoint leading_ones (fuel : nat) (n v : Z) : Z * Z :=
  match fuel with
  | O => (n, v)
  | S f => if Z.testbit v 7 then leading_ones f (n + 1) ((v * 2) mod 256) else (n, v)
  end.

Fixpoint simpleMaskLength_loop (n : Z) (mask : list Z) : Z :=
  match mask with
  | [] => n
  | v :: rest =>
      if v =? 255 then simpleMaskLength_loop (n + 8) rest
      else let '(n', v') := leading_ones 8 n v in
           if negb (v' =? 0) then -1
           else if forallb (Z.eqb 0) rest then n' else -1
  end.

Definition simpleMaskLength (mask : list Z) : Z := simpleMaskLength_loop 0 mask.

(** [IPMask.Size]: ones and bits, both 0 for a mask not in canonical form. *)
Definition Mask_Size (mask : list Z) : Z * Z :=
  let ones := simpleMaskLength mask in
  if ones =? -1 then (0, 0) else (ones, 8 * Z.of_nat (length mask)).

Definition networkNumberAndMask (n : IPNet) : IP * list Z :=
  let ip := default (if (length (net_IP n) =? 16)%nat then net_IP n else []) (To4 (net_IP n)) in
  if (length ip =? 0)%nat then ([], []) else
  let m := net_Mask n in
  if (length m =? 4)%nat then (if (length ip =? 4)%nat then (ip, m) else ([], []))
  else if (length m =? 16)%nat then (if (length ip =? 4)%nat then (ip, drop 12 m) else (ip, m))
  else ([], []).

Definition Contains (n : IPNet) (ip : IP) : bool :=
  let '(nn, m) := networkNumberAndMask n in
  let ip := default ip (To4 ip) in
  if negb (length ip =? length nn)%nat then false
  else bool_decide (zip_with Z.land nn m = zip_with Z.land ip m).

(** [CIDRMask ones bits]. *)
Fixpoint CIDRMask_loop (len : nat) (n : Z) : list Z :=
  match len with
  | O => []
  | S l =>
      if 8 <=? n then 255 :: CIDRMask_loop l (n - 8)
      else Z.shiftr 65280 n mod 256 :: CIDRMask_loop l 0
  end.

Definition CIDRMask (ones bits : Z) : list Z := CIDRMask_loop (Z.to_nat (bits / 8)) ones.

Definition split_slash (s : string) : option (string * string) :=
  match split_on "/" s with
  | addr :: (m :: rest) => Some (addr, join_with "/" (m :: rest))
  | _ => None
  end.

(** [ParseCIDR]: the network of the address and its mask. *)
Definition ParseCIDR (s : string) : option IPNet :=
  match split_slash s with
  | None => None
  | Some (addr, mask) =>
      let '(ip, iplen) :=
        match parseIPv4 (bytes_of addr) with
        | Some ip => (Some ip, 4)
        | None => (parseIPv6 (bytes_of addr), 16)
        end in
      match ip, dtoi (bytes_of mask) with
      | Some ip, (n, i, ok) =>
          if negb ok || negb (i =? Z.of_nat (length (bytes_of mask))) || (8 * iplen <? n) then None
          else let m := CIDRMask n (8 * iplen) in
               Some (mkIPNet (zip_with Z.land ip m) m)
      | None, _ => None
      end
  end.

(** ** Printing *)

Definition dec (z : Z) : string := pretty (Z.to_N z).

(** [strconv.Itoa], and [%d] for an [int] *)
Definition Itoa (n : Z) : string := if n <? 0 then "-" +:+ dec (- n) else dec n.

Fixpoint hex_loop (fuel : nat) (z : Z) : list Z :=
  match fuel with
  | O => []
  | S f => let d := z mod 16 in
           let c := if d <? 10 then 48 + d else 97 + (d - 10) in
           if z / 16 =? 0 then [c] else hex_loop f (z / 16) ++ [c]
  end.

Definition hex (z : Z) : string := string_of (hex_loop 5 z).

(** The 16-bit groups of an address. *)
Fixpoint groups (ip : IP) : list Z :=
  match ip with
  | a :: b :: rest => a * 256 + b :: groups rest
  | _ => []
  end.

Fixpoint zero_run (gs : list Z) : nat :=
  match gs with
  | 0 :: rest => S (zero_run rest)
  | _ => O
  end.

(** The first longest run of at least one zero group: start and length. *)
Fixpoint longest_run (i : nat) (gs : list Z) (best : nat * nat) : nat * nat :=
  match gs with
  | [] => best
  | _ :: rest =>
      let k := zero_run gs in
      longest_run (S i) rest (if (snd best <? k)%nat then (i, k) else best)
  end.

Definition IP_String (ip : IP) : string :=
  match ip, To4 ip with
  | [], _ => "<nil>"
  | _, Some p4 => join_with "." (dec <$> p4)
  | _, None =>
      if negb (length ip =? 16)%nat then "?" +:+ string_of (concat ((fun b => hex_loop 2 (b / 16) ++ hex_loop 2 (b mod 16)) <$> ip))
      else
        let gs := groups ip in
        let '(e0, k) := longest_run 0 gs (0%nat, 0%nat) in
        if (k <=? 1)%nat then join_with ":" (hex <$> gs)
        else join_with ":" (hex <$> take e0 gs) +:+ "::" +:+ join_with ":" (hex <$> drop (e0 + k) gs)
  end.

Definition Mask_String (m : list Z) : string :=
  match m with
  | [] => "<nil>"
  | _ => string_of (concat ((fun b => hex_loop 2 (b / 16) ++ hex_loop 2 (b mod 16)) <$> m))
  end.

Definition IPNet_String (n : IPNet) : string :=
  let '(nn, m) := networkNumberAndMask n in
  match nn, m with
  | [], _ | _, [] => "<nil>"
  | _, _ =>
      let l := simpleMaskLength m in
      if l =? -1 then IP_String nn +:+ "/" +:+ Mask_String m
      else IP_String nn +:+ "/" +:+ dec l
  end.

Example IPNet_String_v4 : option_map IPNet_String (ParseCIDR "10.96.3.7/12") = Some "10.96.0.0/12".
Proof. reflexivity. Qed.
Example IPNet_String_v6 : option_map IPNet_String (ParseCIDR "2001:db8::1/64") = Some "2001:db8::/64".
Proof. reflexivity. Qed.

(** ** Networks as intervals of integers *)

Definition byte_list (l : list Z) : Prop := Forall (fun b => 0 <= b < 256) l.

Lemma SetBytes_snoc l b : Big.SetBytes (l ++ [b]) = Big.SetBytes l * 256 + b.
Proof. unfold Big.SetBytes. by rewrite fold_left_app. Qed.

Lemma byte_list_snoc l b : byte_list (l ++ [b]) <-> byte_list l /\ 0 <= b < 256.
Proof.
  unfold byte_list. rewrite Forall_app. split; intros [H1 H2]; (split; [done|]).
  - by inversion H2.
  - by constructor; [|constructor].
Qed.

Lemma SetBytes_range l : byte_list l -> 0 <= Big.SetBytes l < 256 ^ Z.of_nat (length l).
Proof.
  induction l as [|b l IH] using rev_ind; [done|]. intros [Hl Hb]%byte_list_snoc.
  rewrite SetBytes_snoc, length_app, Nat2Z.inj_add, Z.pow_add_r by lia. specialize (IH Hl).
  simpl. lia.
Qed.

Lemma SetBytes_inj l l' : length l = length l' -> byte_list l -> byte_list l' ->
  Big.SetBytes l = Big.SetBytes l' -> l = l'.
Proof.
  revert l'. induction l as [|b l IH] using rev_ind; intros l' Hlen Hl Hl' Heq.
  - by destruct l'.
  - destruct l' as [|b' l' _] using rev_ind; [rewrite length_app in Hlen; simpl in Hlen; lia|].
    rewrite !length_app in Hlen. simpl in Hlen.
    apply byte_list_snoc in Hl as [Hl Hb]. apply byte_list_snoc in Hl' as [Hl' Hb'].
    rewrite !SetBytes_snoc in Heq. f_equal; [apply IH; [lia|done|done|lia]|f_equal; lia].
Qed.

Lemma land_256 x y a b : 0 <= a < 256 -> 0 <= b < 256 ->
  Z.land (x * 256 + a) (y * 256 + b) = Z.land x y * 256 + Z.land a b.
Proof.
  intros Ha Hb. change 256 with (2 ^ 8) in *.
  assert (0 <= Z.land a b < 2 ^ 8) as Hab.
  { apply below_of_bits; [lia|apply Z.land_nonneg; lia|].
    intros i Hi. rewrite Z.land_spec, (testbit_above a 8) by lia. done. }
  assert (forall u v j, 0 <= v < 2 ^ 8 -> 0 <= j ->
            Z.testbit (u * 2 ^ 8 + v) j = if decide (j < 8) then Z.testbit v j else Z.testbit u (j - 8))
    as Hbit.
  { intros u v j Hv Hj. case_decide.
    - rewrite <- (Z.mod_pow2_bits_low (u * 2 ^ 8 + v) 8) by lia.
      rewrite Z.add_comm, Z.mod_add, Z.mod_small by lia. done.
    - replace j with (j - 8 + 8) at 1 by lia. rewrite <- Z.div_pow2_bits by lia.
      rewrite Z.add_comm, Z.div_add, Z.div_small by lia. done. }
  apply Z.bits_inj'. intros j Hj. rewrite Z.land_spec, !Hbit by done.
  case_decide; by rewrite Z.land_spec.
Qed.

Lemma SetBytes_land l m : length l = length m -> byte_list l -> byte_list m ->
  Big.SetBytes (zip_with Z.land l m) = Z.land (Big.SetBytes l) (Big.SetBytes m).
Proof.
  revert m. induction l as [|b l IH] using rev_ind; intros m Hlen Hl Hm; [done|].
  destruct m as [|c m _] using rev_ind; [rewrite length_app in Hlen; simpl in Hlen; lia|].
  rewrite !length_app in Hlen. simpl in Hlen.
  apply byte_list_snoc in Hl as [Hl Hb]. apply byte_list_snoc in Hm as [Hm Hc].
  rewrite zip_with_app by lia. simpl. rewrite !SetBytes_snoc, IH by (done || lia).
  by rewrite land_256.
Qed.

Lemma land_byte a b : 0 <= a < 256 -> 0 <= b < 256 -> 0 <= Z.land a b < 256.
Proof.
  intros Ha Hb. change 256 with (2 ^ 8) in *. apply below_of_bits; [lia|apply Z.land_nonneg; lia|].
  intros i Hi. rewrite Z.land_spec, (testbit_above a 8) by lia. done.
Qed.

Lemma byte_list_land l m : byte_list l -> byte_list m -> byte_list (zip_with Z.land l m).
Proof.
  unfold byte_list. intros Hl. revert m. induction Hl as [|a l Ha Hl IH]; intros m Hm; [constructor|].
  destruct Hm as [|b m Hb Hm]; [constructor|]. simpl. constructor; [by apply land_byte|by apply IH].
Qed.

(** The mask of an IPv4 prefix, by enumeration of the 33 lengths. *)
Lemma CIDRMask_32 ones : 0 <= ones <= 32 ->
  byte_list (CIDRMask ones 32) /\ length (CIDRMask ones 32) = 4%nat
  /\ Big.SetBytes (CIDRMask ones 32) = 2 ^ 32 - 2 ^ (32 - ones)
  /\ simpleMaskLength (CIDRMask ones 32) = ones.
Proof.
  intros Ho.
  assert (forallb (fun o => forallb (fun b => (0 <=? b) && (b <? 256)) (CIDRMask o 32)
            && (length (CIDRMask o 32) =? 4)%nat
            && (Big.SetBytes (CIDRMask o 32) =? 2 ^ 32 - 2 ^ (32 - o))
            && (simpleMaskLength (CIDRMask o 32) =? o)) (seqZ 0 33) = true) as H
    by (vm_compute; reflexivity).
  rewrite forallb_forall in H. specialize (H ones). rewrite <- list_elem_of_In in H.
  rewrite elem_of_seqZ in H. specialize (H ltac:(lia)). bool_to_prop.
  repeat split; [|by apply Nat.eqb_eq|done|done].
  apply Forall_forall. intros b Hb%list_elem_of_In. rewrite forallb_forall in *.
  match goal with H : forall x, In x _ -> _ |- _ => apply H in Hb end. bool_to_prop. lia.
Qed.

(** Masking clears the host part. *)
Lemma land_mask x h : 0 <= x < 2 ^ 32 -> 0 <= h <= 32 ->
  Z.land x (2 ^ 32 - 2 ^ h) = x / 2 ^ h * 2 ^ h.
Proof.
  intros Hx Hh. rewrite <- Z.shiftr_div_pow2, <- Z.shiftl_mul_pow2 by lia.
  apply Z.bits_inj'. intros j Hj. rewrite Z.land_spec.
  replace (2 ^ 32 - 2 ^ h) with (Z.shiftl (Z.ones (32 - h)) h).
  2:{ rewrite Z.shiftl_mul_pow2, Z.ones_equiv by lia. rewrite <- Z.sub_1_r, Z.mul_sub_distr_r.
      rewrite <- Z.pow_add_r by lia. f_equal; [f_equal; lia|lia]. }
  rewrite !Z.shiftl_spec by lia. destruct (decide (j < h)).
  - rewrite !(Z.testbit_neg_r _ (j - h)) by lia. by rewrite andb_false_r.
  - rewrite Z.shiftr_spec by lia. replace (j - h + h) with j by lia.
    destruct (decide (j < 32)).
    + rewrite Z.ones_spec_low by lia. by rewrite andb_true_r.
    + by rewrite (testbit_above x 32) by lia.
Qed.

(** An IPv4 network as [ParseCIDR] builds it: four bytes, a prefix mask, no
    host bits set. *)
Definition v4_net (n : IPNet) (ones : Z) : Prop :=
  0 <= ones <= 32 /\ net_Mask n = CIDRMask ones 32 /\ byte_list (net_IP n)
  /\ length (net_IP n) = 4%nat /\ (Big.SetBytes (net_IP n)) mod 2 ^ (32 - ones) = 0.

Definition v4_addr (ip : IP) : Prop := length ip = 4%nat /\ byte_list ip.

(** [Contains] on IPv4 is the interval of the network's addresses. *)
Lemma Contains_v4 n ones ip : v4_net n ones -> v4_addr ip ->
  Contains n ip = true <->
  Big.SetBytes (net_IP n) <= Big.SetBytes ip < Big.SetBytes (net_IP n) + 2 ^ (32 - ones).
Proof.
  intros (Ho & Hmask & Hb & Hlen & Hhost) [Hl Hip].
  destruct (CIDRMask_32 ones Ho) as (Hmb & Hml & Hmv & _).
  unfold Contains, networkNumberAndMask, To4. rewrite Hlen, Hl. cbn [Nat.eqb default from_option id].
  rewrite Hlen, Hmask, Hml. cbn [Nat.eqb]. rewrite Hlen, Hl. cbn [Nat.eqb negb].
  rewrite bool_decide_eq_true.
  pose proof (SetBytes_range _ Hip) as Hr. rewrite Hl in Hr.
  pose proof (SetBytes_range _ Hb) as Hrn. rewrite Hlen in Hrn.
  change (256 ^ Z.of_nat 4) with (2 ^ 32) in *.
  assert (zip_with Z.land (net_IP n) (CIDRMask ones 32) = zip_with Z.land ip (CIDRMask ones 32) <->
          Big.SetBytes (net_IP n) / 2 ^ (32 - ones) * 2 ^ (32 - ones)
          = Big.SetBytes ip / 2 ^ (32 - ones) * 2 ^ (32 - ones)) as ->.
  { rewrite <- !land_mask by lia. rewrite <- Hmv, <- !SetBytes_land by (done || lia).
    split; [by intros ->|]. apply SetBytes_inj.
    - rewrite !length_zip_with. lia.
    - by apply byte_list_land.
    - by apply byte_list_land. }
  assert (0 < 2 ^ (32 - ones)) as Hp by (apply Z.pow_pos_nonneg; lia).
  pose proof (Z.div_mod (Big.SetBytes (net_IP n)) (2 ^ (32 - ones)) ltac:(lia)) as Hd.
  pose proof (Z.div_mod (Big.SetBytes ip) (2 ^ (32 - ones)) ltac:(lia)) as Hd'.
  pose proof (Z.mod_pos_bound (Big.SetBytes ip) _ Hp).
  rewrite Hhost in Hd. split; [intros Heq; nia|]. intros [Hlo Hhi].
  assert (Big.SetBytes (net_IP n) / 2 ^ (32 - ones) = Big.SetBytes ip / 2 ^ (32 - ones)) as ->; [|done].
  nia.
Qed.

(** The bytes of a number between [2 ^ 24] and [2 ^ 32] are an IPv4 address. *)
Lemma Bytes_v4 x : 2 ^ 24 <= x < 2 ^ 32 -> v4_addr (Big.Bytes x) /\ Big.SetBytes (Big.Bytes x) = x.
Proof.
  intros Hx. split; [|apply SetBytes_Bytes; lia]. unfold Big.Bytes. split.
  - rewrite length_reverse. unfold Big.digit_fuel.
    assert (24 <= Z.log2 x) by (apply Z.log2_le_pow2; lia).
    replace (Z.to_nat (Z.log2 x)) with (4 + (Z.to_nat (Z.log2 x) - 4))%nat by lia.
    cbn [Nat.add Big.digits].
    assert (x / 2 ^ 8 / 2 ^ 8 / 2 ^ 8 / 2 ^ 8 = 0) as ->.
    { rewrite !Z.div_div by lia. apply Z.div_small. lia. }
    assert (0 < x / 2 ^ 8 / 2 ^ 8 / 2 ^ 8).
    { rewrite !Z.div_div by lia. apply Z.div_str_pos. lia. }
    assert (0 < x / 2 ^ 8 / 2 ^ 8) by (rewrite Z.div_div by lia; apply Z.div_str_pos; lia).
    assert (0 < x / 2 ^ 8) by (apply Z.div_str_pos; lia).
    rewrite !(proj2 (Z.eqb_neq _ _)) by lia. done.
  - unfold byte_list. apply Forall_reverse. apply (digits_range 8). lia.
Qed.
