(* ===== verification/GoHostPort.v ===== *)
(** * Go: host and port (package net)

    [SplitHostPort], [JoinHostPort] and [IP.IsLoopback]; splitting undoes
    joining. *)

From Stdlib Require Import Ascii String ZArith Lia.
From stdpp Require Import base strings gmap numbers sorting list.
From S2P Require Import Prelude GoStd GoStrings GoNet.

Local Open Scope string_scope.

Definition has_byte (c : ascii) (s : string) : bool := negb (all_chars (fun a => negb (Ascii.eqb a c)) s).

(** The position of the first occurrence. *)
Fixpoint IndexByte (s : string) (c : ascii) : option nat :=
  match s with
  | EmptyString => None
  | String a s => if Ascii.eqb a c then Some O else S <$> IndexByte s c
  end.

(** [AddrError]. *)
Definition addrErr (addr why : string) : (string * string) + string := inr ("address " +:+ addr +:+ ": " +:+ why).

Definition missingPort : string := "missing port in address".
Definition tooManyColons : string := "too many colons in address".

(** The host, where the search for brackets starts after it, or an error.
    [i] is the position of the last colon. *)
Definition split_host (hostport : string) (i : nat) : (string * nat * nat) + string :=
  match hostport with
  | String "[" rest =>
      match IndexByte hostport "]" with
      | None => inr "missing ']' in address"
      | Some e =>
          if (S e =? String.length hostport)%nat then inr missingPort
          else if (S e =? i)%nat then inl (take_str (e - 1) rest, 1%nat, S e)
          else match drop_str (S e) hostport with
               | String ":" _ => inr tooManyColons
               | _ => inr missingPort
               end
      end
  | _ =>
      let host := take_str i hostport in
      if has_byte ":" host then inr tooManyColons else inl (host, 0%nat, 0%nat)
  end.

Definition SplitHostPort (hostport : string) : (string * string) + string :=
  match LastIndexByte hostport ":" with
  | None => addrErr hostport missingPort
  | Some i =>
      match split_host hostport i with
      | inr why => addrErr hostport why
      | inl (host, j, k) =>
          if has_byte "[" (drop_str j hostport) then addrErr hostport "unexpected '[' in address"
          else if has_byte "]" (drop_str k hostport) then addrErr hostport "unexpected ']' in address"
          else inl (host, drop_str (S i) hostport)
      end
  end.

(** A host with colons is taken for an IPv6 address. *)
Definition JoinHostPort (host port : string) : string :=
  if has_byte ":" host then "[" +:+ host +:+ "]:" +:+ port else host +:+ ":" +:+ port.

Definition IPv6loopback : list Z := [0; 0; 0; 0; 0; 0; 0; 0; 0; 0; 0; 0; 0; 0; 0; 1]%Z.

Definition IsLoopback (ip : list Z) : bool :=
  match To4 ip with
  | Some (b :: _) => (b =? 127)%Z
  | Some [] => false
  | None => IP_Equal ip IPv6loopback
  end.

Example host_port_ex :
  SplitHostPort "web.default:80" = inl ("web.default", "80") /\ SplitHostPort "[::1]:443" = inl ("::1", "443")
  /\ SplitHostPort "::1:443" = inr "address ::1:443: too many colons in address"
  /\ SplitHostPort "web" = inr "address web: missing port in address"
  /\ SplitHostPort "[::1]" = inr "address [::1]: missing port in address"
  /\ SplitHostPort ":80" = inl (EmptyString, "80").
Proof. repeat split. Qed.

Definition free_byte (c : ascii) (s : string) : Prop := all_chars (fun a => negb (Ascii.eqb a c)) s = true.

Lemma has_byte_free c s : free_byte c s -> has_byte c s = false.
Proof. unfold free_byte, has_byte. by intros ->. Qed.

Lemma has_byte_app c s t : has_byte c (s +:+ t) = has_byte c s || has_byte c t.
Proof. unfold has_byte. rewrite all_chars_app. by destruct (all_chars _ s), (all_chars _ t). Qed.

Lemma IndexByte_app c s t : free_byte c s -> IndexByte (s +:+ String c t) c = Some (String.length s).
Proof.
  unfold free_byte. induction s as [|a s IH].
  - intros _. change (EmptyString +:+ ?x) with x. cbn. by rewrite Ascii.eqb_refl.
  - rewrite append_cons. cbn [all_chars IndexByte String.length]. destruct (Ascii.eqb a c); [done|]. intros Hs. by rewrite IH.
Qed.

Lemma drop_str_S n a s : drop_str (S n) (String a s) = drop_str n s.
Proof. done. Qed.
Lemma drop_str_0 s : drop_str 0 s = s.
Proof. by destruct s. Qed.

(** Past a text and a byte, or two. *)
Lemma drop_str_past s a t : drop_str (S (String.length s)) (s +:+ String a t) = t.
Proof. induction s as [|b s IH]; [by destruct t|]. rewrite append_cons. cbn [String.length]. by rewrite drop_str_S. Qed.
Lemma drop_str_past2 s a b t : drop_str (S (S (String.length s))) (s +:+ String a (String b t)) = t.
Proof. induction s as [|c s IH]; [by destruct t|]. rewrite append_cons. cbn [String.length]. by rewrite drop_str_S. Qed.

(** Splitting undoes joining. *)
Lemma Split_Join host port :
  free_byte "[" host -> free_byte "]" host -> free_byte ":" port -> free_byte "[" port -> free_byte "]" port ->
  SplitHostPort (JoinHostPort host port) = inl (host, port).
Proof.
  intros Ho Hc Pc Po Pcl. unfold SplitHostPort, JoinHostPort. destruct (has_byte ":" host) eqn:Hcol.
  - change ("[" +:+ host +:+ "]:" +:+ port) with (String "[" (host +:+ String "]" (String ":" port))).
    replace (LastIndexByte _ ":") with (Some (S (S (String.length host)))).
    2:{ rewrite <- (append_cons "[" host). change (String "]" (String ":" port)) with (String "]" EmptyString +:+ String ":" port).
        rewrite <- append_assoc, LastIndexByte_app by done. f_equal. rewrite length_str_app. cbn. lia. }
    unfold split_host. cbn [IndexByte Ascii.eqb Bool.eqb]. rewrite IndexByte_app by done. cbn [fmap option_fmap option_map].
    cbn [String.length]. rewrite length_str_app. cbn [String.length].
    rewrite (proj2 (Nat.eqb_neq _ _)), Nat.eqb_refl by lia. replace (S (String.length host) - 1)%nat with (String.length host) by lia.
    rewrite take_str_app, !drop_str_S, drop_str_0, drop_str_past, drop_str_past2.
    change (String "]" (String ":" port)) with ("]:" +:+ port). change (String ":" port) with (":" +:+ port).
    rewrite !has_byte_app, (has_byte_free _ _ Ho), (has_byte_free _ _ Po), (has_byte_free _ _ Pcl). done.
  - change (host +:+ ":" +:+ port) with (host +:+ String ":" port). rewrite LastIndexByte_app by done.
    assert (split_host (host +:+ String ":" port) (String.length host) = inl (host, 0%nat, 0%nat)) as ->.
    { assert (forall rest, host +:+ String ":" port <> String "[" rest) as Hno.
      { intros rest. destruct host as [|a host]; [by intros [=]|]. intros [= -> _]. unfold free_byte in Ho. by cbn in Ho. }
      unfold split_host. rewrite take_str_app, Hcol. destruct (host +:+ String ":" port) as [|a rest]; [done|].
      destruct (ascii_dec a "[") as [->|Ha]; [by destruct (Hno rest)|].
      destruct a as [[] [] [] [] [] [] [] []]; done. }
    rewrite !drop_str_0, drop_str_past. change (String ":" port) with (":" +:+ port).
    rewrite !has_byte_app, !(has_byte_free _ host), !(has_byte_free _ port) by done. cbn [orb].
    done.
Qed.
