(* ===== verification/IPAllocator.v ===== *)
(** * The IP allocator (pkg/util/ipallocator/allocator.go)

    A [Range] hands out the addresses of a CIDR block, less its first and
    last, through an offset allocator.  The operations are written against
    the allocator interface; the theorems use only what
    [AllocatorInterface.AllocatorSpec] promises, and [NewCIDRRange] is the
    range over the bitmap.  On IPv4 blocks, [AllocateNext] returns an address
    of the block that was free, and [Allocate] classifies every address; the
    last section shows where the offset arithmetic fails on large IPv6
    blocks. *)

From Stdlib Require Import ZArith Lia Ascii String.
From stdpp Require Import base strings gmap numbers sorting list.
From S2P Require Import Prelude.
From S2P Require Import GoStd.
From S2P Require Import AllocatorInterface.
From S2P Require Import Bitmap.
From S2P Require Import GoNet.

Local Open Scope Z_scope.
Local Open Scope go_scope.

Inductive ip_error : Type :=
| ErrFull
| ErrAllocated
| ErrMismatchedNetwork
| ErrNotInRange (ValidRange : string)
| ErrParse
| ErrSubnetTooSmall.

(** ** Address arithmetic *)

Definition maximum (a b : Z) : Z := if b <? a then a else b.

Definition bigForIP (ip : IP) : Z :=
  Big.SetBytes (match To4 ip with Some b => b | None => default [] (To16 ip) end).

(** [big.Int.Bytes] is of the absolute value. *)
Definition addIPOffset (base offset : Z) : IP := Big.Bytes (Z.abs (base + offset)).

(** [Int64] keeps the low 64 bits. *)
Definition calculateIPOffset (base : Z) (ip : IP) : Z := wrap64 (bigForIP ip - base).

Definition RangeSize (subnet : IPNet) : Z :=
  let '(ones, bits) := Mask_Size (net_Mask subnet) in
  if ((bits =? 32) && (31 <=? bits - ones)) || ((bits =? 128) && (127 <=? bits - ones)) then 0
  else if (bits =? 128) && (16 <=? bits - ones) then Z.shiftl 1 16
  else wrap64 (Z.shiftl 1 (bits - ones)).

Definition GetIndexedIP (subnet : IPNet) (index : Z) : ip_error + IP :=
  let ip := addIPOffset (bigForIP (net_IP subnet)) index in
  if negb (Contains subnet ip) then inl ErrSubnetTooSmall else inr ip.

Definition GetFirstIP (subnet : IPNet) : ip_error + IP := GetIndexedIP subnet 0.

Definition GetLastIP (subnet : IPNet) : ip_error + IP :=
  let size := RangeSize subnet in
  if size <=? 0 then inl ErrSubnetTooSmall else GetIndexedIP subnet (size - 1).

(** ** Ranges over any allocator *)

Record Range (S : Type) : Type := mkRange {
  rnet : IPNet;
  rbase : Z;
  rmax : Z;
  ralloc : S
}.
Arguments mkRange {S} _ _ _ _.
Arguments rnet {S} _.
Arguments rbase {S} _.
Arguments rmax {S} _.
Arguments ralloc {S} _.

Section Ranges.
Context {S : Type} `{Allocator S}.

Definition NewAllocatorCIDRRange (cidr : IPNet) (allocatorFactory : Z -> string -> S) : Range S :=
  let max := RangeSize cidr in
  let base := bigForIP (net_IP cidr) in
  let rangeSpec := IPNet_String cidr in
  let rmax := maximum 0 (max - 2) in
  mkRange cidr (base + 1) rmax (allocatorFactory rmax rangeSpec).

Definition with_alloc (r : Range S) (a : S) : Range S := mkRange (rnet r) (rbase r) (rmax r) a.

Definition range_Free (r : Range S) : Z := al_Free (ralloc r).

Definition Used (r : Range S) : Z := rmax r - al_Free (ralloc r).

Definition contains (r : Range S) (ip : IP) : bool * Z :=
  if negb (Contains (rnet r) ip) then (false, 0) else
  let offset := calculateIPOffset (rbase r) ip in
  if (offset <? 0) || (rmax r <=? offset) then (false, 0) else (true, offset).

Definition range_Allocate (r : Range S) (ip : IP) : outcome (Range S * option ip_error) :=
  let '(ok, offset) := contains r ip in
  if negb ok then Ret (r, Some (ErrNotInRange (IPNet_String (rnet r)))) else
  let* ' (a, allocated) := al_Allocate (ralloc r) offset in
  if negb allocated then Ret (with_alloc r a, Some ErrAllocated) else Ret (with_alloc r a, None).

Definition range_AllocateNext (Intn : Z -> Z) (r : Range S) : outcome (Range S * (ip_error + IP)) :=
  let* ' (a, (offset, ok)) := al_AllocateNext Intn (ralloc r) in
  if negb ok then Ret (with_alloc r a, inl ErrFull)
  else Ret (with_alloc r a, inr (addIPOffset (rbase r) offset)).

Definition range_Release (r : Range S) (ip : IP) : outcome (Range S) :=
  let '(ok, offset) := contains r ip in
  if negb ok then Ret r else
  let* a := al_Release (ralloc r) offset in Ret (with_alloc r a).

Definition range_ForEach (r : Range S) : list IP :=
  (fun offset => match GetIndexedIP (rnet r) (offset + 1) with inr ip => ip | inl _ => [] end)
  <$> al_ForEach (ralloc r).

Definition range_Has (r : Range S) (ip : IP) : outcome bool :=
  let '(ok, offset) := contains r ip in
  if negb ok then Ret false else al_Has (ralloc r) offset.

Definition range_Snapshot (r : Range S) : string * list Z := al_Snapshot (ralloc r).

(** The result of the inner [Restore] is dropped. *)
Definition range_Restore (r : Range S) (net : IPNet) (data : list Z) : Range S * option ip_error :=
  if negb (IP_Equal (net_IP net) (net_IP (rnet r)))
     || negb (String.eqb (Mask_String (net_Mask net)) (Mask_String (net_Mask (rnet r))))
  then (r, Some ErrMismatchedNetwork)
  else (with_alloc r (fst (al_Restore (ralloc r) (IPNet_String net) data)), None).

End Ranges.

(** ** Ranges over the bitmap *)

Definition NewCIDRRange (cidr : IPNet) : Range AllocationBitmap :=
  NewAllocatorCIDRRange cidr NewAllocationMap.

Definition NewFromSnapshot (snap : string * list Z) : ip_error + Range AllocationBitmap :=
  match ParseCIDR (fst snap) with
  | None => inl ErrParse
  | Some ipnet =>
      match range_Restore (NewCIDRRange ipnet) ipnet (snd snap) with
      | (_, Some e) => inl e
      | (r, None) => inr r
      end
  end.

(** ** IPv4 blocks *)

Lemma maximum_max a b : maximum a b = Z.max a b.
Proof. unfold maximum. destruct (Z.ltb_spec b a); lia. Qed.

Lemma bigForIP_v4 ip : length ip = 4%nat -> bigForIP ip = Big.SetBytes ip.
Proof. intros Hl. unfold bigForIP, To4. by rewrite Hl. Qed.

Lemma RangeSize_v4 n ones : v4_net n ones ->
  RangeSize n = if 31 <=? 32 - ones then 0 else 2 ^ (32 - ones).
Proof.
  intros (Ho & Hm & _). destruct (CIDRMask_32 ones Ho) as (_ & Hl & _ & Hs).
  unfold RangeSize, Mask_Size. rewrite Hm, Hs, Hl.
  destruct (Z.eqb_spec ones (-1)); [lia|]. change (8 * Z.of_nat 4) with 32.
  simpl ((32 =? 32) && _). simpl ((32 =? 128) && _). rewrite orb_false_r.
  destruct (Z.leb_spec 31 (32 - ones)); [done|]. cbn [andb].
  rewrite Z.shiftl_1_l. apply wrap64_id. unfold in_int64.
  assert (2 ^ (32 - ones) <= 2 ^ 31) by (apply Z.pow_le_mono_r; lia). lia.
Qed.

(** An address strictly between the first and the last of the block. *)
Definition usable (n : IPNet) (ones : Z) (ip : IP) : bool :=
  (Big.SetBytes (net_IP n) <? Big.SetBytes ip)
  && (Big.SetBytes ip <? Big.SetBytes (net_IP n) + 2 ^ (32 - ones) - 1).

Section V4.
Context {S : Type} `{AllocatorSpec S}.

(** A range over an IPv4 block of at most [2 ^ 30] addresses. *)
Definition range_ok (r : Range S) (ones : Z) : Prop :=
  v4_net (rnet r) ones /\ 2 <= ones
  /\ rbase r = Big.SetBytes (net_IP (rnet r)) + 1
  /\ rmax r = maximum 0 (2 ^ (32 - ones) - 2)
  /\ al_ok (ralloc r) /\ al_limit (ralloc r) = rmax r.

Lemma with_alloc_ok r ones a : range_ok r ones -> al_ok a -> al_limit a = al_limit (ralloc r) ->
  range_ok (with_alloc r a) ones.
Proof.
  intros (? & ? & ? & ? & ? & Hl) Ha Hla. unfold range_ok. simpl. rewrite Hla, Hl. done.
Qed.

Lemma with_alloc_same (r : Range S) : with_alloc r (ralloc r) = r.
Proof. by destruct r. Qed.

Lemma contains_v4 r ones ip : range_ok r ones -> v4_addr ip ->
  contains r ip =
    if usable (rnet r) ones ip then (true, Big.SetBytes ip - rbase r) else (false, 0).
Proof.
  intros (Hn & Ho & Hb & Hmax & _) Hip. pose proof Hn as (Ho' & _ & Hbl & Hlen & _).
  pose proof Hip as [Hl Hbip]. pose proof (Contains_v4 _ _ _ Hn Hip) as Hc.
  pose proof (SetBytes_range _ Hbip) as Hr. pose proof (SetBytes_range _ Hbl) as Hrn.
  rewrite Hl in Hr. rewrite Hlen in Hrn. change (256 ^ Z.of_nat 4) with (2 ^ 32) in *.
  assert (0 < 2 ^ (32 - ones)) by (apply Z.pow_pos_nonneg; lia).
  unfold contains, usable, calculateIPOffset. rewrite bigForIP_v4 by done.
  rewrite wrap64_id by (unfold in_int64; lia). rewrite Hmax, maximum_max, Hb.
  destruct (Contains (rnet r) ip).
  - destruct Hc as [Hc _]. specialize (Hc eq_refl). simpl.
    repeat case_match; bool_to_prop; try done; lia.
  - destruct Hc as [_ Hc].
    destruct ((_ <? _) && _) eqn:E; [|done]. bool_to_prop. exfalso.
    enough (false = true) by done. apply Hc. lia.
Qed.

(** [Has] is membership of the offset. *)
Lemma range_Has_eq r ones ip : range_ok r ones -> v4_addr ip ->
  range_Has r ip =
    Ret (usable (rnet r) ones ip && bool_decide (Big.SetBytes ip - rbase r ∈ al_used (ralloc r))).
Proof.
  intros Hr Hip. unfold range_Has. rewrite (contains_v4 r ones) by done.
  destruct Hr as (Hn & Ho & Hb & _ & Hok & _).
  destruct (usable _ _ _) eqn:Hu; [|done]. simpl. unfold usable in Hu. bool_to_prop.
  apply al_Has_spec; [done|lia].
Qed.

Lemma SetBytes_v4_inj ip ip' : v4_addr ip -> v4_addr ip' -> Big.SetBytes ip = Big.SetBytes ip' -> ip = ip'.
Proof. intros [Hl Hb] [Hl' Hb']. apply SetBytes_inj; [congruence|done..]. Qed.

(** Adding one offset to the used set adds exactly its address. *)
Lemma range_Has_insert r ones a ip ip' :
  range_ok r ones -> al_ok a -> al_limit a = al_limit (ralloc r) ->
  al_used a = {[Big.SetBytes ip - rbase r]} ∪ al_used (ralloc r) ->
  v4_addr ip -> v4_addr ip' -> usable (rnet r) ones ip = true ->
  range_Has (with_alloc r a) ip' = if decide (ip' = ip) then Ret true else range_Has r ip'.
Proof.
  intros Hr Ha Hla Hu Hip Hip' Huse.
  rewrite (range_Has_eq _ ones) by (try apply with_alloc_ok; done).
  rewrite (range_Has_eq r ones) by done. simpl. rewrite Hu.
  case_decide as Heq.
  - subst ip'. rewrite Huse, bool_decide_eq_true_2 by set_solver. done.
  - f_equal. f_equal. apply bool_decide_ext. rewrite elem_of_union, elem_of_singleton.
    split; [|by right]. intros [He|]; [|done]. destruct Heq. apply SetBytes_v4_inj; [done..|lia].
Qed.

(** Removing one offset from the used set removes exactly its address. *)
Lemma range_Has_delete r ones a ip ip' :
  range_ok r ones -> al_ok a -> al_limit a = al_limit (ralloc r) ->
  al_used a = al_used (ralloc r) ∖ {[Big.SetBytes ip - rbase r]} ->
  v4_addr ip -> v4_addr ip' ->
  range_Has (with_alloc r a) ip' = if decide (ip' = ip) then Ret false else range_Has r ip'.
Proof.
  intros Hr Ha Hla Hu Hip Hip'.
  rewrite (range_Has_eq _ ones) by (try apply with_alloc_ok; done).
  rewrite (range_Has_eq r ones) by done. simpl. rewrite Hu.
  case_decide as Heq.
  - subst ip'. rewrite bool_decide_eq_false_2 by set_solver. by rewrite andb_false_r.
  - f_equal. f_equal. apply bool_decide_ext. rewrite elem_of_difference, elem_of_singleton.
    split; [by intros [? _]|]. intros ?. split; [done|]. intros He. destruct Heq.
    apply SetBytes_v4_inj; [done..|lia].
Qed.

(** Every address of an IPv4 block is below [2 ^ 32]. *)
Lemma block_top n ones : v4_net n ones -> Big.SetBytes (net_IP n) + 2 ^ (32 - ones) <= 2 ^ 32.
Proof.
  intros (Ho & _ & Hbl & Hlen & Hhost). pose proof (SetBytes_range _ Hbl) as Hrn.
  rewrite Hlen in Hrn. change (256 ^ Z.of_nat 4) with (2 ^ 32) in *.
  assert (2 ^ 32 = 2 ^ (32 - ones) * 2 ^ ones) as Hsplit by (rewrite <- Z.pow_add_r by lia; f_equal; lia).
  assert (0 < 2 ^ (32 - ones)) by (apply Z.pow_pos_nonneg; lia).
  pose proof (Z.div_mod (Big.SetBytes (net_IP n)) (2 ^ (32 - ones)) ltac:(lia)) as Hd.
  rewrite Hhost in Hd. rewrite Hsplit in Hrn |- *.
  set (x := Big.SetBytes (net_IP n)) in *. set (h := 2 ^ (32 - ones)) in *.
  clearbody x h. clear Hsplit Hhost. set (q := x / h) in *. clearbody q. subst x.
  assert (q < 2 ^ ones) by (apply (Z.mul_lt_mono_pos_l h); lia).
  transitivity (h * (q + 1)); [lia|]. apply Z.mul_le_mono_nonneg_l; lia.
Qed.

(** The address of an offset below the limit. *)
Lemma offset_addr r ones o :
  range_ok r ones -> 2 ^ 24 <= Big.SetBytes (net_IP (rnet r)) -> 0 <= o < al_limit (ralloc r) ->
  v4_addr (addIPOffset (rbase r) o) /\ Big.SetBytes (addIPOffset (rbase r) o) = rbase r + o
  /\ usable (rnet r) ones (addIPOffset (rbase r) o) = true.
Proof.
  intros (Hn & Ho & Hb & Hmax & _ & Hlim) H24 Hor. pose proof (block_top _ _ Hn) as Htop.
  rewrite Hlim, Hmax, maximum_max in Hor. unfold addIPOffset. rewrite Z.abs_eq by lia.
  destruct (Bytes_v4 (rbase r + o)) as [Haddr Hval]; [lia|]. do 2 (split; [done|]).
  unfold usable. rewrite Hval. apply andb_true_iff. rewrite !Z.ltb_lt. lia.
Qed.

End V4.

Lemma NewCIDRRange_ok n ones : v4_net n ones -> 2 <= ones -> range_ok (NewCIDRRange n) ones.
Proof.
  intros Hn Ho. pose proof Hn as (Ho' & _ & _ & Hlen & _).
  assert (RangeSize n = 2 ^ (32 - ones)) as HR.
  { rewrite (RangeSize_v4 _ ones) by done. destruct (Z.leb_spec 31 (32 - ones)); [lia|done]. }
  unfold range_ok, NewCIDRRange, NewAllocatorCIDRRange. simpl.
  rewrite bigForIP_v4, HR by done. do 4 (split; [done|]). split; [|done].
  split; [done|]. simpl. rewrite maximum_max.
  split; [lia|]. apply Z.pow_pos_nonneg; lia.
Qed.

(** ** Properties *)

(** On an IPv4 block whose first octet is not zero, over any allocator
    that keeps the interface's promises: as long as an address is free,
    [AllocateNext] returns one that lies strictly between the network and the
    broadcast address, that [Has] did not know before, and that is the only
    one [Has] knows in addition afterwards; a full range answers [ErrFull]
    and is unchanged. *)
Theorem range_AllocateNext_v4 {A : Type} `{AllocatorSpec A} (r : Range A) (ones : Z) (Intn : Z -> Z) :
  range_ok r ones -> 2 ^ 24 <= Big.SetBytes (net_IP (rnet r)) -> rand_ok Intn ->
  if range_Free r <=? 0 then range_AllocateNext Intn r = Ret (r, inl ErrFull)
  else exists r' ip, range_AllocateNext Intn r = Ret (r', inr ip)
    /\ range_ok r' ones /\ v4_addr ip /\ usable (rnet r) ones ip = true
    /\ range_Has r ip = Ret false
    /\ forall ip', v4_addr ip' ->
         range_Has r' ip' = if decide (ip' = ip) then Ret true else range_Has r ip'.
Proof.
  intros Hr H24 HI. pose proof Hr as (Hn & Ho & Hb & Hmax & Hok & Hlim).
  unfold range_Free, range_AllocateNext. rewrite al_Free_spec by done.
  destruct (Z.leb_spec (al_limit (ralloc r) - Z.of_nat (size (al_used (ralloc r)))) 0).
  - rewrite al_AllocateNext_full by (done || lia). simpl. by rewrite with_alloc_same.
  - destruct (al_AllocateNext_some (ralloc r) Intn Hok HI) as (a & o & -> & Hor & Hfresh & Ha & Hla & Hu);
      [lia|]. simpl.
    destruct (offset_addr r ones o Hr H24 Hor) as (Haddr & Hval & Huse).
    exists (with_alloc r a), (addIPOffset (rbase r) o).
    split; [done|]. split; [by apply with_alloc_ok|]. do 2 (split; [done|]). split.
    + rewrite (range_Has_eq r ones) by done. rewrite Hval, Huse. simpl. f_equal.
      apply bool_decide_eq_false. by replace (rbase r + o - rbase r) with o by lia.
    + intros ip' Hip'. apply range_Has_insert with (ones := ones); try done.
      rewrite Hval. by replace (rbase r + o - rbase r) with o by lia.
Qed.

Lemma range_AllocateNext_v4_witness :
  let n := mkIPNet [10; 0; 0; 0] (CIDRMask 24 32) in
  ParseCIDR "10.0.0.0/24" = Some n
  /\ exists r' ip, range_AllocateNext (fun _ => 0) (NewCIDRRange n) = Ret (r', inr ip)
     /\ range_Has r' ip = Ret true.
Proof.
  split; [reflexivity|].
  destruct (range_AllocateNext_v4 (NewCIDRRange (mkIPNet [10; 0; 0; 0] (CIDRMask 24 32))) 24
              (fun _ => 0)) as (r' & ip & E & Hr' & Hip & _ & _ & Hhas).
  - apply NewCIDRRange_ok; [|lia]. repeat split; try lia; repeat constructor; lia.
  - vm_compute. discriminate.
  - intros m Hm. lia.
  - exists r', ip. split; [exact E|]. rewrite (Hhas ip Hip). by rewrite decide_True.
Defined.

(** On an IPv4 block, [Allocate] and [Release] act on exactly the address
    they are given.  A usable address is answered [ErrAllocated] if [Has]
    knows it and no error otherwise, and is known afterwards either way;
    [Release] makes it unknown.  Any other address, the network and broadcast
    addresses included, is refused with [ErrNotInRange], is never known, and
    [Release] of it does nothing. *)
Theorem range_Allocate_v4 {A : Type} `{AllocatorSpec A} (r : Range A) (ones : Z) (ip : IP) :
  range_ok r ones -> v4_addr ip ->
  if usable (rnet r) ones ip then
    (exists r' known, range_Has r ip = Ret known
       /\ range_Allocate r ip = Ret (r', if known : bool then Some ErrAllocated else None)
       /\ range_ok r' ones
       /\ forall ip', v4_addr ip' ->
            range_Has r' ip' = if decide (ip' = ip) then Ret true else range_Has r ip')
    /\ (exists r', range_Release r ip = Ret r' /\ range_ok r' ones
       /\ forall ip', v4_addr ip' ->
            range_Has r' ip' = if decide (ip' = ip) then Ret false else range_Has r ip')
  else range_Allocate r ip = Ret (r, Some (ErrNotInRange (IPNet_String (rnet r))))
    /\ range_Release r ip = Ret r /\ range_Has r ip = Ret false.
Proof.
  intros Hr Hip. unfold range_Allocate, range_Release. rewrite (range_Has_eq r ones) by done.
  rewrite (contains_v4 r ones) by done. destruct (usable (rnet r) ones ip) eqn:Hu; [|done]. simpl.
  assert (0 <= Big.SetBytes ip - rbase r < al_limit (ralloc r)) as Ho.
  { pose proof Hr as (_ & _ & Hb & Hmax & _ & ->). rewrite Hmax, maximum_max, Hb.
    unfold usable in Hu. bool_to_prop. lia. }
  pose proof Hr as (_ & _ & _ & _ & Hok & _). split.
  - destruct (al_Allocate_spec (ralloc r) _ Hok Ho) as (a & -> & Ha & Hla & Hset).
    exists (with_alloc r a), (bool_decide (Big.SetBytes ip - rbase r ∈ al_used (ralloc r))).
    split; [done|]. split.
    { simpl. rewrite bool_decide_not. by case_bool_decide. }
    split; [by apply with_alloc_ok|]. intros ip' Hip'. by apply range_Has_insert with (ones := ones).
  - destruct (al_Release_spec (ralloc r) (Big.SetBytes ip - rbase r) Hok) as (a & -> & Ha & Hla & Hset);
      [lia|].
    exists (with_alloc r a). split; [done|]. split; [by apply with_alloc_ok|].
    intros ip' Hip'. by apply range_Has_delete with (ones := ones).
Qed.

Lemma range_Allocate_v4_witness :
  let r := NewCIDRRange (mkIPNet [192; 168; 1; 0] (CIDRMask 30 32)) in
  range_Allocate r [192; 168; 1; 3] = Ret (r, Some (ErrNotInRange "192.168.1.0/30"))
  /\ exists r', range_Release r [192; 168; 1; 2] = Ret r'.
Proof.
  assert (range_ok (NewCIDRRange (mkIPNet [192; 168; 1; 0] (CIDRMask 30 32))) 30) as Hr.
  { apply NewCIDRRange_ok; [|lia]. repeat split; try lia; repeat constructor; lia. }
  split.
  - apply (range_Allocate_v4 _ 30 [192; 168; 1; 3] Hr). split; [done|]. repeat constructor; lia.
  - destruct (range_Allocate_v4 _ 30 [192; 168; 1; 2] Hr) as (_ & r' & E & _);
      [split; [done|]; repeat constructor; lia|]. by exists r'.
Defined.

(** On an IPv4 block whose first octet is not zero, [ForEach] visits the
    addresses [Has] knows, each once. *)
Theorem range_ForEach_v4 {A : Type} `{AllocatorSpec A} (r : Range A) (ones : Z) :
  range_ok r ones -> 2 ^ 24 <= Big.SetBytes (net_IP (rnet r)) ->
  NoDup (range_ForEach r)
  /\ forall ip, ip ∈ range_ForEach r <-> v4_addr ip /\ range_Has r ip = Ret true.
Proof.
  intros Hr H24. pose proof Hr as (Hn & Ho & Hb & _ & Hok & _).
  destruct (al_ForEach_spec (ralloc r) Hok) as [Hnd Hin].
  assert (range_ForEach r = addIPOffset (rbase r) <$> al_ForEach (ralloc r)) as ->.
  { unfold range_ForEach. apply list_fmap_ext. intros i o Hio.
    assert (0 <= o < al_limit (ralloc r)) as Hor.
    { apply (al_used_range (ralloc r) o Hok), Hin. by eapply list_elem_of_lookup_2. }
    destruct (offset_addr r ones o Hr H24 Hor) as (Ha & Hv & Hu). unfold GetIndexedIP.
    rewrite bigForIP_v4 by apply Hn. rewrite Hb in Ha, Hv, Hu |- *. unfold addIPOffset in *.
    replace (Big.SetBytes (net_IP (rnet r)) + (o + 1)) with (Big.SetBytes (net_IP (rnet r)) + 1 + o) by lia.
    rewrite (proj2 (Contains_v4 _ _ _ Hn Ha)); [done|]. unfold usable in Hu. bool_to_prop. lia. }
  split.
  - apply NoDup_fmap_2_strong; [|done]. intros o o' Ho1 Ho2 He.
    apply Hin, (al_used_range _ _ Hok) in Ho1. apply Hin, (al_used_range _ _ Hok) in Ho2.
    apply (f_equal Big.SetBytes) in He.
    destruct (offset_addr r ones o Hr H24 Ho1) as (_ & E1 & _).
    destruct (offset_addr r ones o' Hr H24 Ho2) as (_ & E2 & _). lia.
  - intros ip. rewrite list_elem_of_fmap. split.
    + intros (o & -> & Hio). apply Hin in Hio. pose proof (al_used_range _ _ Hok Hio) as Hor.
      destruct (offset_addr r ones o Hr H24 Hor) as (Ha & Hv & Hu). split; [done|].
      rewrite (range_Has_eq r ones), Hu, Hv by done. f_equal. apply bool_decide_eq_true.
      by replace (rbase r + o - rbase r) with o by lia.
    + intros [Hip Hh]. rewrite (range_Has_eq r ones) in Hh by done. injection Hh as Hh.
      bool_to_prop. exists (Big.SetBytes ip - rbase r). split; [|by apply Hin].
      destruct (offset_addr r ones (Big.SetBytes ip - rbase r) Hr H24) as (Ha & Hv & _);
        [by apply al_used_range|]. apply SetBytes_v4_inj; [done..|lia].
Qed.

Lemma range_ForEach_v4_witness :
  NoDup (range_ForEach (NewCIDRRange (mkIPNet [10; 1; 0; 0] (CIDRMask 16 32)))).
Proof.
  apply (range_ForEach_v4 _ 16); [|vm_compute; discriminate].
  apply NewCIDRRange_ok; [|lia]. repeat split; try lia; repeat constructor; lia.
Defined.

(** [contains] keeps only the low 64 bits of an address's distance from
    the base, so two addresses of one IPv6 block that differ by a multiple of
    [2 ^ 64] are one address to the range: [Has], [Allocate] and [Release]
    answer and act on them alike. *)
Theorem range_alias_v6 {A : Type} `{Allocator A} (r : Range A) (ip ip' : IP) :
  Contains (rnet r) ip = true -> Contains (rnet r) ip' = true ->
  (bigForIP ip - bigForIP ip') mod 2 ^ 64 = 0 ->
  range_Has r ip = range_Has r ip' /\ range_Allocate r ip = range_Allocate r ip'
  /\ range_Release r ip = range_Release r ip'.
Proof.
  intros Hc Hc' Hmod. enough (contains r ip = contains r ip') as E.
  { unfold range_Has, range_Allocate, range_Release. by rewrite E. }
  unfold contains. rewrite Hc, Hc'. simpl.
  assert (calculateIPOffset (rbase r) ip = calculateIPOffset (rbase r) ip') as ->; [|done].
  unfold calculateIPOffset, wrap64. f_equal.
  apply Z.mod_divide in Hmod as [k Hk]; [|lia].
  replace (bigForIP ip - rbase r + 2 ^ 63) with (bigForIP ip' - rbase r + 2 ^ 63 + k * 2 ^ 64) by lia.
  apply Z.mod_add. lia.
Qed.

(** In 2001:db8::/32, ::5 and 0:1::5 are the same address to the range. *)
Lemma range_alias_v6_witness :
  match ParseCIDR "2001:db8::/32", ParseIP "2001:db8::5", ParseIP "2001:db8:0:1::5" with
  | Some n, Some ip, Some ip' =>
      ip <> ip' /\ range_Has (NewCIDRRange n) ip = range_Has (NewCIDRRange n) ip'
  | _, _, _ => False
  end.
Proof.
  vm_compute ParseCIDR. vm_compute ParseIP. cbv beta iota. split; [discriminate|].
  apply range_alias_v6; vm_compute; reflexivity.
Defined.
