(* ===== verification/HealthData.v ===== *)
(** * Edge health: the shared tables (pkg/edge-health/data, check/pod_manager.go)

    The daemon's goroutines share four tables behind mutexes: the probe
    scores per checked address, the verdicts per checker and checked
    address, the node list and the config map list.  Each table is a
    component of [HealthState], each method of the data package a function on
    its table. *)

From Stdlib Require Import ZArith Lia.
From stdpp Require Import base strings gmap numbers sorting list.
From S2P Require Import Prelude.
From S2P Require Import GoFloat.
From S2P Require Import K8s.

Local Open Scope Z_scope.

(** ** The tables *)

Record ResultDetail : Type := mkResultDetail { Normal : bool; Hmac : string; Time : Z }.

#[export] Instance ResultDetail_eq_dec : EqDecision ResultDetail.
Proof. solve_decision. Defined.

Record CommunicateData : Type := mkCommunicateData {
  SourceIP : string;
  cd_ResultDetail : gomap ResultDetail;
  cd_Hmac : string
}.

(** checked ip -> plugin name -> score *)
Notation CheckInfoData := (gmap string (gmap string float64)).
(** checker ip -> checked ip -> verdict; the inner map may be nil. *)
Notation ResultData := (gmap string (gomap ResultDetail)).
Notation NodeListData := (list PartialObjectMetadata).
Notation ConfigMapListData := (list ConfigMap).

Record HealthState : Type := mkHealthState {
  CheckInfoResult : CheckInfoData;
  Result : ResultData;
  NodeList : NodeListData;
  ConfigMapList : ConfigMapListData
}.

Definition NewCheckInfoData : CheckInfoData := ∅.
Definition NewResultData : ResultData := ∅.
(** [make([]metav1.PartialObjectMetadata, 5)]: five unnamed nodes. *)
Definition NewNodeListData : NodeListData := replicate 5 (mkPartialObjectMetadata (named "" "")).
Definition NewConfigMapListData : ConfigMapListData := [].

Definition initData : HealthState :=
  mkHealthState NewCheckInfoData NewResultData NewNodeListData NewConfigMapListData.

Definition set_checkinfo (s : HealthState) (c : CheckInfoData) : HealthState :=
  mkHealthState c (Result s) (NodeList s) (ConfigMapList s).
Definition set_result (s : HealthState) (r : ResultData) : HealthState :=
  mkHealthState (CheckInfoResult s) r (NodeList s) (ConfigMapList s).
Definition set_nodelist (s : HealthState) (l : NodeListData) : HealthState :=
  mkHealthState (CheckInfoResult s) (Result s) l (ConfigMapList s).
Definition set_configmaplist (s : HealthState) (l : ConfigMapListData) : HealthState :=
  mkHealthState (CheckInfoResult s) (Result s) (NodeList s) l.

(** ** Probe scores (checkinfodata.go) *)

Definition SetCheckInfo (c : CheckInfoData) (checkedIp pluginName : string) (weight : float64)
    (score : Z) : CheckInfoData :=
  let c := match c !! checkedIp with None => <[checkedIp := ∅]> c | Some _ => c end in
  <[checkedIp := <[pluginName := fmul (float64_of_int score) weight]> (default ∅ (c !! checkedIp))]> c.

Definition SetCheckedIpCheckInfo (c : CheckInfoData) (checkedIp : string) : CheckInfoData :=
  match c !! checkedIp with None => <[checkedIp := ∅]> c | Some _ => c end.

Definition TraverseCheckedIpCheckInfo `{GoRange} (c : CheckInfoData) : list string := (go_range c).*1.

Definition DeleteCheckedIpCheckInfo (c : CheckInfoData) (ip : string) : CheckInfoData := delete ip c.

Definition GetLenCheckInfo (c : CheckInfoData) : Z := Z.of_nat (size c).

Definition CopyCheckInfo (c : CheckInfoData) : CheckInfoData := c.

(** ** Verdicts (resultdata.go) *)

(** The received times are replaced by the local clock's [now]. *)
Definition stamp (now : Z) (v : ResultDetail) : ResultDetail := mkResultDetail (Normal v) (Hmac v) now.

Definition SetResult (now : Z) (r : ResultData) (c : CommunicateData) : ResultData :=
  let r := match r !! SourceIP c with None => <[SourceIP c := Some ∅]> r | Some _ => r end in
  let detail := match cd_ResultDetail c with None => None | Some m => Some (stamp now <$> m) end in
  <[SourceIP c := detail]> r.

(** Writing to a nil map panics. *)
Definition SetResultFromCheckInfo (r : ResultData) (LocalIp desip : string) (result : ResultDetail)
    : outcome ResultData :=
  match r !! LocalIp with
  | None => Ret (<[LocalIp := Some {[desip := result]}]> r)
  | Some (Some m) => Ret (<[LocalIp := Some (<[desip := result]> m)]> r)
  | Some None => Panic "assignment to entry in nil map"
  end.

(** A read of an absent key gives the nil map. *)
Definition GetLocalResultData (r : ResultData) (localip : string) : gomap ResultDetail :=
  default None (r !! localip).

Definition CopyLocalResultData (r : ResultData) (localip : string) : gmap string ResultDetail :=
  mp (GetLocalResultData r localip).

Definition GetResultDataAll (r : ResultData) : ResultData := r.

Definition CopyResultDataAll (r : ResultData) : gmap string (gmap string ResultDetail) := mp <$> r.

(** [delete] on a nil or absent inner map does nothing. *)
Definition DeleteResultData (NodeIP : string) (r : ResultData) (ip : string) : ResultData :=
  delete ip (match r !! NodeIP with
             | Some (Some m) => <[NodeIP := Some (delete ip m)]> r
             | _ => r
             end).

(** ** Node metadata (nodemeta_listdata.go) *)

Definition pom_name (n : PartialObjectMetadata) : string := Name (pom_meta n).

Definition SetNodeListDataByNode (l : NodeListData) (node : PartialObjectMetadata) : NodeListData :=
  let l' := (fun e => if String.eqb (pom_name e) (pom_name node) then node else e) <$> l in
  if existsb (fun e => String.eqb (pom_name e) (pom_name node)) l then l' else l' ++ [node].

Fixpoint DeleteNodeListDataByNode (l : NodeListData) (node : PartialObjectMetadata) : NodeListData :=
  match l with
  | [] => []
  | e :: l' => if String.eqb (pom_name e) (pom_name node) then l' else e :: DeleteNodeListDataByNode l' node
  end.

Definition SetNodeListDataByNodeSlice (nodeslice : list PartialObjectMetadata) : NodeListData := nodeslice.

Definition GetLenListData (l : NodeListData) : Z := Z.of_nat (length l).

Definition CopyNodeListData (l : NodeListData) : list PartialObjectMetadata := l.

(** ** Config maps (configmapdata.go) *)

Definition SetConfigListData (l : ConfigMapListData) (cm : ConfigMap) : ConfigMapListData :=
  let same := fun e => String.eqb (Name (cm_meta e)) (Name (cm_meta cm)) in
  let l' := (fun e => if same e then cm else e) <$> l in
  if existsb same l then l' else l' ++ [cm].

Fixpoint DeleteConfigListData (l : ConfigMapListData) (cm : ConfigMap) : ConfigMapListData :=
  match l with
  | [] => []
  | e :: l' => if String.eqb (Name (cm_meta e)) (Name (cm_meta cm)) then l' else e :: DeleteConfigListData l' cm
  end.

(** Informer events ([None]: an object of another type). *)
Definition handleNodeAddUpdate (s : HealthState) (obj : option PartialObjectMetadata) : HealthState :=
  match obj with None => s | Some node => set_nodelist s (SetNodeListDataByNode (NodeList s) node) end.
Definition handleNodeDelete (s : HealthState) (obj : option PartialObjectMetadata) : HealthState :=
  match obj with None => s | Some node => set_nodelist s (DeleteNodeListDataByNode (NodeList s) node) end.
Definition handleConfigMapAddUpdate (s : HealthState) (obj : option ConfigMap) : HealthState :=
  match obj with None => s | Some cm => set_configmaplist s (SetConfigListData (ConfigMapList s) cm) end.
Definition handleConfigMapDelete (s : HealthState) (obj : option ConfigMap) : HealthState :=
  match obj with None => s | Some cm => set_configmaplist s (DeleteConfigListData (ConfigMapList s) cm) end.

(** ** The pod index (pod_manager.go)

    The store holds the running edge-health pods; [None] is a manager or
    store that is not initialised. *)

Definition PodStore : Type := option (list Pod).

Definition NodeIPKeyFunc (pod : Pod) : list string := [pod_HostIP pod].
Definition NodeNameKeyFunc (pod : Pod) : list string := [pod_NodeName pod].
Definition PodIPKeyFunc (pod : Pod) : list string := [pod_PodIP pod].

Definition ByIndex (keyFunc : Pod -> list string) (pods : list Pod) (key : string) : list Pod :=
  filter (fun p => key ∈ keyFunc p) pods.

(** Exactly one pod, or an error. *)
Definition one_pod (store : PodStore) (keyFunc : Pod -> list string) (key : string) : option Pod :=
  match store with
  | None => None
  | Some pods => match ByIndex keyFunc pods key with [p] => Some p | _ => None end
  end.

Definition GetPodIPByNodeIP (store : PodStore) (nodeIP : string) : option string :=
  pod_PodIP <$> one_pod store NodeIPKeyFunc nodeIP.
Definition GetNodeIPByNodeName (store : PodStore) (nodeName : string) : option string :=
  pod_HostIP <$> one_pod store NodeNameKeyFunc nodeName.
Definition GetNodeNameByNodeIP (store : PodStore) (nodeIP : string) : option string :=
  pod_NodeName <$> one_pod store NodeIPKeyFunc nodeIP.

(** ** Lemmas *)

Lemma lookup_SetCheckedIp c ip ip' :
  is_Some (SetCheckedIpCheckInfo c ip !! ip') <-> ip' = ip \/ is_Some (c !! ip').
Proof.
  unfold SetCheckedIpCheckInfo. destruct (c !! ip) eqn:E; [split; [by right|]; intros [-> |]; [by rewrite E|done]|].
  destruct (decide (ip' = ip)) as [-> |]; [rewrite lookup_insert_eq; naive_solver|].
  rewrite lookup_insert_ne by done. naive_solver.
Qed.

Lemma GetNodeNameByNodeIP_Some store ip name : GetNodeNameByNodeIP store ip = Some name ->
  exists pods p, store = Some pods /\ p ∈ pods /\ pod_HostIP p = ip /\ pod_NodeName p = name.
Proof.
  unfold GetNodeNameByNodeIP, one_pod, ByIndex. intros (p & H & ->)%fmap_Some.
  destruct store as [pods|]; [|done]. destruct (filter _ pods) as [|p' [|]] eqn:E; simplify_eq.
  assert (p ∈ filter (fun q => ip ∈ NodeIPKeyFunc q) pods) as [Hp Hin]%list_elem_of_filter by (rewrite E; set_solver).
  exists pods, p. unfold NodeIPKeyFunc in Hp. set_solver.
Qed.

Lemma CopyResultDataAll_lookup r k m : CopyResultDataAll r !! k = Some m <-> exists g, r !! k = Some g /\ m = mp g.
Proof. unfold CopyResultDataAll. rewrite lookup_fmap, fmap_Some. naive_solver. Qed.
