(* ===== verification/Topology.v ===== *)
(** * Service topology (pkg/application-grid-wrapper/storage/util.go)

    The wrapper on each edge node rewrites the endpoints kube-proxy sees: for
    a service with topology keys only endpoints on nodes that share a label
    value with the host remain, and nodes the neighbours report unhealthy are
    left out.  [pruneEndpoints], [pruneEndpointSliceV1] and
    [pruneEndpointSliceV1Beta1] are the three rewritings; the theorems say
    exactly which addresses remain, that rewriting twice is rewriting once,
    and how slice names and the topologyKeys annotation are read. *)

From Stdlib Require Import ZArith Lia Ascii String.
From stdpp Require Import base strings gmap numbers sorting list.
From S2P Require Import Prelude.
From S2P Require Import GoStd.
From S2P Require Import GoJson.
From S2P Require Import K8s.
From S2P Require Import HealthData.

Local Open Scope Z_scope.

Definition TopologyAnnotationsKey : string := "topologyKeys".
Definition EdgeLocalEndpoint : string := "superedge.io/local-endpoint".
Definition EdgeLocalPort : string := "superedge.io/local-port".
Definition MasterEndpointName : string := "kubernetes".

(** ** Containers (cache.go) *)

Record nodeContainer : Type := mkNodeContainer { node : Node; labels : gomap string }.
Record serviceContainer : Type := mkServiceContainer { svc : Service; keys : gslice string }.

Notation nodes_map := (gmap NamespacedName nodeContainer).
Notation services_map := (gmap NamespacedName serviceContainer).
Notation node_info := (gmap string ResultDetail).

(** ** Topology keys *)

Definition hasTopologyKey (objectMeta : ObjectMeta) : bool :=
  match Annotations objectMeta with
  | None => false
  | Some a => bool_decide (is_Some (a !! TopologyAnnotationsKey))
  end.

Definition getTopologyKeys (objectMeta : ObjectMeta) : gslice string :=
  if negb (hasTopologyKey objectMeta) then None else
  let keyData := default EmptyString (mp (Annotations objectMeta) !! TopologyAnnotationsKey) in
  match UnmarshalStrings keyData with
  | None => None
  | Some keys => keys
  end.

Definition hasIntersectionLabel (keys : list string) (n1 n2 : gomap string) : bool :=
  match n1, n2 with
  | Some m1, Some m2 =>
      existsb (fun key => match m1 !! key, m2 !! key with
                          | Some val1, Some val2 => String.eqb val1 val2
                          | _, _ => false
                          end) keys
  | _, _ => false
  end.

(** ** The local apiserver endpoint *)

(** The address and port annotations of the default kubernetes endpoints, if
    both are there and well formed. *)
Definition local_endpoint (m : ObjectMeta) : option (string * Z) :=
  if negb (String.eqb (Namespace m) NamespaceDefault) || negb (String.eqb (Name m) MasterEndpointName)
  then None else
  match mp (Annotations m) !! EdgeLocalEndpoint with
  | None => None
  | Some ipAddress =>
      match mp (Annotations m) !! EdgeLocalPort with
      | None => None
      | Some portStr =>
          match ParseInt portStr 32 with
          | None => None
          | Some port => match ParseIP ipAddress with None => None | Some _ => Some (ipAddress, port) end
          end
      end
  end.

Definition genLocalEndpoints (eps : Endpoints) : Endpoints :=
  match local_endpoint (eps_meta eps) with
  | None => eps
  | Some (ipAddress, port) =>
      mkEndpoints (eps_meta eps)
        (Some [mkEndpointSubset (Some [mkEndpointAddress ipAddress None]) None
                 (Some [mkEndpointPort "https" port ProtocolTCP])])
  end.

Definition genLocalEndpointSliceV1 (eps : EndpointSliceV1) : EndpointSliceV1 :=
  match local_endpoint (slice1_meta eps) with
  | None => eps
  | Some (ipAddress, port) =>
      mkEndpointSliceV1 (slice1_meta eps) (Some [mkEndpointV1 (Some [ipAddress]) None])
        (Some [mkSlicePort (Some "https"%string) (Some port) (Some ProtocolTCP)])
  end.

Definition genLocalEndpointSliceV1Beta1 (eps : EndpointSliceV1Beta1) : EndpointSliceV1Beta1 :=
  match local_endpoint (sliceb_meta eps) with
  | None => eps
  | Some (ipAddress, port) =>
      mkEndpointSliceV1Beta1 (sliceb_meta eps) (Some [mkEndpointV1Beta1 (Some [ipAddress]) None])
        (Some [mkSlicePort (Some "https"%string) (Some port) (Some ProtocolTCP)])
  end.

(** ** Filters

    [concerned] and [concerned_info] are the loop bodies the three address
    types share, on the node name an address carries. *)

Definition concerned (topologyKeys : list string) (hostNode : nodeContainer) (nodes : nodes_map)
    (localNodeInfo : node_info) (getLocalNodeInfo : bool) (nodeName : option string) : bool :=
  match nodeName with
  | None => false
  | Some nodeName =>
      match nodes !! mkNN "" nodeName with
      | None => false
      | Some epsNode =>
          let info := localNodeInfo !! Name (node_meta (node epsNode)) in
          let found := bool_decide (is_Some info) in
          let normal := match info with Some d => Normal d | None => false end in
          hasIntersectionLabel topologyKeys (labels hostNode) (labels epsNode)
          && ((getLocalNodeInfo && found && normal) || (getLocalNodeInfo && negb found) || negb getLocalNodeInfo)
      end
  end.

Definition concerned_info (nodes : nodes_map) (localNodeInfo : node_info) (nodeName : option string) : bool :=
  match nodeName with
  | None => false
  | Some nodeName =>
      match nodes !! mkNN "" nodeName with
      | None => false
      | Some epsNode =>
          let info := localNodeInfo !! Name (node_meta (node epsNode)) in
          let found := bool_decide (is_Some info) in
          let normal := match info with Some d => Normal d | None => false end in
          negb found || (found && normal)
      end
  end.

(** [nodeName := topology["kubernetes.io/hostname"]; &nodeName != nil]: the
    address of a variable is never nil, and a missing key reads as the empty
    string. *)
Definition beta1_nodeName (e : EndpointV1Beta1) : option string :=
  Some (default EmptyString (mp (eb_Topology e) !! "kubernetes.io/hostname")).

Section Filters.
Context (topologyKeys : list string) (hostName : string) (nodes : nodes_map).
Context (localNodeInfo : node_info) (getLocalNodeInfo : bool).

Definition filterConcernedAddresses (addresses : gslice EndpointAddress) : gslice EndpointAddress :=
  match nodes !! mkNN "" hostName with
  | None => None
  | Some hostNode =>
      Some (filter (fun addr => concerned topologyKeys hostNode nodes localNodeInfo getLocalNodeInfo (ea_NodeName addr) = true)
              (sl addresses))
  end.

Definition filterConcernedAddressesForEndpointSliceV1 (endpoints : gslice EndpointV1) : gslice EndpointV1 :=
  match nodes !! mkNN "" hostName with
  | None => None
  | Some hostNode =>
      Some (filter (fun e => concerned topologyKeys hostNode nodes localNodeInfo getLocalNodeInfo (e1_NodeName e) = true)
              (sl endpoints))
  end.

Definition filterConcernedAddressesForEndpointSliceV1Beta1 (endpoints : gslice EndpointV1Beta1)
    : gslice EndpointV1Beta1 :=
  match nodes !! mkNN "" hostName with
  | None => None
  | Some hostNode =>
      Some (filter (fun e => concerned topologyKeys hostNode nodes localNodeInfo getLocalNodeInfo (beta1_nodeName e) = true)
              (sl endpoints))
  end.

Definition filterLocalNodeInfoConcernedAddresses (addresses : gslice EndpointAddress) : gslice EndpointAddress :=
  Some (filter (fun addr => concerned_info nodes localNodeInfo (ea_NodeName addr) = true) (sl addresses)).

Definition filterLocalNodeInfoConcernedAddressesForEndpointSliceV1 (endpoints : gslice EndpointV1)
    : gslice EndpointV1 :=
  Some (filter (fun e => concerned_info nodes localNodeInfo (e1_NodeName e) = true) (sl endpoints)).

Definition filterLocalNodeInfoConcernedAddressesForEndpointSliceV1Beta1 (endpoints : gslice EndpointV1Beta1)
    : gslice EndpointV1Beta1 :=
  Some (filter (fun e => concerned_info nodes localNodeInfo (beta1_nodeName e) = true) (sl endpoints)).

End Filters.

(** ** Pruning *)

(** The rewriting of one [EndpointSubset] in place. *)
Definition map_subsets (f : gslice EndpointAddress -> gslice EndpointAddress) (eps : Endpoints) : Endpoints :=
  mkEndpoints (eps_meta eps)
    (match eps_Subsets eps with
     | None => None
     | Some l => Some ((fun s => mkEndpointSubset (f (es_Addresses s)) (f (es_NotReadyAddresses s)) (es_Ports s)) <$> l)
     end).

Definition with_endpoints1 (eps : EndpointSliceV1) (l : gslice EndpointV1) : EndpointSliceV1 :=
  mkEndpointSliceV1 (slice1_meta eps) l (slice1_Ports eps).
Definition with_endpointsb (eps : EndpointSliceV1Beta1) (l : gslice EndpointV1Beta1) : EndpointSliceV1Beta1 :=
  mkEndpointSliceV1Beta1 (sliceb_meta eps) l (sliceb_Ports eps).

(** The service a slice belongs to: its name without the last "-" part. *)
Definition dropSuffix (name : string) : string :=
  match split_on "-" name with
  | [] => EmptyString
  | s0 :: rest => fold_left (fun epsName s => epsName +:+ "-" +:+ s) (removelast rest) s0
  end.

Definition is_master (m : ObjectMeta) : bool :=
  String.eqb (Namespace m) NamespaceDefault && String.eqb (Name m) MasterEndpointName.

Definition pruneEndpoints (hostName : string) (nodes : nodes_map) (services : services_map)
    (eps : Endpoints) (localNodeInfo : node_info)
    (wrapperInCluster serviceAutonomyEnhancementEnabled : bool) : Endpoints :=
  let epsKey := mkNN (Namespace (eps_meta eps)) (Name (eps_meta eps)) in
  let eps := if wrapperInCluster then genLocalEndpoints eps else eps in
  match services !! epsKey with
  | None => eps
  | Some svc =>
      if (length (sl (keys svc)) =? 0)%nat then
        if is_master (eps_meta eps) then eps
        else if serviceAutonomyEnhancementEnabled
        then map_subsets (filterLocalNodeInfoConcernedAddresses nodes localNodeInfo) eps
        else eps
      else map_subsets (filterConcernedAddresses (sl (keys svc)) hostName nodes localNodeInfo
                          serviceAutonomyEnhancementEnabled) eps
  end.

Definition pruneEndpointSliceV1 (hostName : string) (nodes : nodes_map) (services : services_map)
    (eps : EndpointSliceV1) (localNodeInfo : node_info)
    (wrapperInCluster serviceAutonomyEnhancementEnabled : bool) : EndpointSliceV1 :=
  let epsKey := mkNN (Namespace (slice1_meta eps)) (dropSuffix (Name (slice1_meta eps))) in
  let eps := if wrapperInCluster then genLocalEndpointSliceV1 eps else eps in
  match services !! epsKey with
  | None => eps
  | Some svc =>
      if (length (sl (keys svc)) =? 0)%nat then
        if is_master (slice1_meta eps) then eps
        else if serviceAutonomyEnhancementEnabled
        then with_endpoints1 eps
               (filterLocalNodeInfoConcernedAddressesForEndpointSliceV1 nodes localNodeInfo (slice1_Endpoints eps))
        else eps
      else with_endpoints1 eps
             (filterConcernedAddressesForEndpointSliceV1 (sl (keys svc)) hostName nodes localNodeInfo
                serviceAutonomyEnhancementEnabled (slice1_Endpoints eps))
  end.

Definition pruneEndpointSliceV1Beta1 (hostName : string) (nodes : nodes_map) (services : services_map)
    (eps : EndpointSliceV1Beta1) (localNodeInfo : node_info)
    (wrapperInCluster serviceAutonomyEnhancementEnabled : bool) : EndpointSliceV1Beta1 :=
  let epsKey := mkNN (Namespace (sliceb_meta eps)) (dropSuffix (Name (sliceb_meta eps))) in
  let eps := if wrapperInCluster then genLocalEndpointSliceV1Beta1 eps else eps in
  match services !! epsKey with
  | None => eps
  | Some svc =>
      if (length (sl (keys svc)) =? 0)%nat then
        if is_master (sliceb_meta eps) then eps
        else if serviceAutonomyEnhancementEnabled
        then with_endpointsb eps
               (filterLocalNodeInfoConcernedAddressesForEndpointSliceV1Beta1 nodes localNodeInfo (sliceb_Endpoints eps))
        else eps
      else with_endpointsb eps
             (filterConcernedAddressesForEndpointSliceV1Beta1 (sl (keys svc)) hostName nodes localNodeInfo
                serviceAutonomyEnhancementEnabled (sliceb_Endpoints eps))
  end.

(** ** What the filters keep *)

(** Two nodes share a value of one of the keys. *)
Definition shares_label (keys : list string) (h n : nodeContainer) : Prop :=
  exists key v, key ∈ keys /\ mp (labels h) !! key = Some v /\ mp (labels n) !! key = Some v.

(** The neighbours do not report the node as failed. *)
Definition not_reported_bad (info : node_info) (n : nodeContainer) : Prop :=
  forall d, info !! Name (node_meta (node n)) = Some d -> Normal d = true.

(** The node an address names is known, close to the host, and not reported
    as failed when health information is used. *)
Definition close_to (keys : list string) (h : nodeContainer) (nodes : nodes_map) (info : node_info)
    (use_info : bool) (nodeName : option string) : Prop :=
  exists name n, nodeName = Some name /\ nodes !! mkNN "" name = Some n
    /\ shares_label keys h n /\ (use_info = true -> not_reported_bad info n).

Lemma hasIntersectionLabel_iff keys h n :
  hasIntersectionLabel keys (labels h) (labels n) = true <-> shares_label keys h n.
Proof.
  unfold hasIntersectionLabel, shares_label.
  destruct (labels h) as [m1|], (labels n) as [m2|]; simpl; setoid_rewrite lookup_empty || idtac;
    try (split; [done|naive_solver]).
  rewrite existsb_exists. split.
  - intros (key & Hin & Hk). apply list_elem_of_In in Hin.
    destruct (m1 !! key) eqn:E1, (m2 !! key) eqn:E2; try done.
    apply String.eqb_eq in Hk as ->. naive_solver.
  - intros (key & v & Hin & H1 & H2). exists key. apply list_elem_of_In in Hin. split; [done|].
    rewrite H1, H2. by apply String.eqb_eq.
Qed.

Lemma concerned_iff keys h nodes info use_info nm :
  concerned keys h nodes info use_info nm = true <-> close_to keys h nodes info use_info nm.
Proof.
  unfold concerned, close_to. destruct nm as [name|]; [|naive_solver].
  destruct (nodes !! mkNN "" name) as [n|] eqn:En; [|naive_solver].
  rewrite andb_true_iff, hasIntersectionLabel_iff. unfold not_reported_bad.
  destruct (info !! Name (node_meta (node n))) as [d|] eqn:Ed; simpl.
  - split.
    + intros [? Hd]. exists name, n. repeat split; try done. intros -> d' Hd'. replace d' with d by congruence. by destruct (Normal d).
    + intros (? & n' & [= <-] & Hn' & ? & Hd). assert (n' = n) as -> by congruence. split; [done|].
      destruct use_info; [|done]. by rewrite (Hd eq_refl d Ed).
  - split; [|by destruct use_info; naive_solver].
    intros [? _]. exists name, n. repeat split; try done. intros _ ? Hd. congruence.
Qed.

Lemma concerned_info_iff nodes info nm :
  concerned_info nodes info nm = true <->
  exists name n, nm = Some name /\ nodes !! mkNN "" name = Some n /\ not_reported_bad info n.
Proof.
  unfold concerned_info, not_reported_bad. destruct nm as [name|]; [|naive_solver].
  destruct (nodes !! mkNN "" name) as [n|] eqn:En; [|naive_solver].
  destruct (info !! Name (node_meta (node n))) as [d|] eqn:Ed; simpl.
  - split.
    + intros Hd. exists name, n. repeat split; try done. intros d' Hd'. by replace d' with d by congruence.
    + intros (? & n' & [= <-] & Hn' & Hd). assert (n' = n) as -> by congruence. by apply Hd.
  - split; [|done]. intros _. exists name, n. repeat split; try done. intros ? Hd. congruence.
Qed.

(** ** What pruning reads

    Of a node only its name and labels, of a service only its keys. *)

Definition node_view (c : nodeContainer) : string * gomap string := (Name (node_meta (node c)), labels c).

Definition same_nodes : relation nodes_map := fun m m' => node_view <$> m = node_view <$> m'.
Definition same_services : relation services_map := fun m m' => keys <$> m = keys <$> m'.

#[export] Instance same_nodes_equiv : Equivalence same_nodes.
Proof. unfold same_nodes. split; [by intros ?|by intros ??|by intros ??? ->]. Qed.
#[export] Instance same_services_equiv : Equivalence same_services.
Proof. unfold same_services. split; [by intros ?|by intros ??|by intros ??? ->]. Qed.

Lemma same_nodes_lookup m m' k : same_nodes m m' ->
  match m !! k, m' !! k with
  | Some c, Some c' => Name (node_meta (node c)) = Name (node_meta (node c')) /\ labels c = labels c'
  | None, None => True
  | _, _ => False
  end.
Proof.
  intros Hm. apply (f_equal (.!! k)) in Hm. rewrite !lookup_fmap in Hm.
  destruct (m !! k), (m' !! k); simpl in Hm; try done. by injection Hm.
Qed.

Lemma same_services_lookup m m' k : same_services m m' -> keys <$> m !! k = keys <$> m' !! k.
Proof. intros Hm. apply (f_equal (.!! k)) in Hm. by rewrite !lookup_fmap in Hm. Qed.

Lemma concerned_proper keys h h' nodes nodes' info use_info nm :
  labels h = labels h' -> same_nodes nodes nodes' ->
  concerned keys h nodes info use_info nm = concerned keys h' nodes' info use_info nm.
Proof.
  intros Hh Hn. unfold concerned. destruct nm as [name|]; [|done].
  pose proof (same_nodes_lookup _ _ (mkNN "" name) Hn) as Hk.
  destruct (nodes !! mkNN "" name), (nodes' !! mkNN "" name); try done.
  destruct Hk as [-> ->]. by rewrite Hh.
Qed.

Lemma concerned_info_proper nodes nodes' info nm : same_nodes nodes nodes' ->
  concerned_info nodes info nm = concerned_info nodes' info nm.
Proof.
  intros Hn. unfold concerned_info. destruct nm as [name|]; [|done].
  pose proof (same_nodes_lookup _ _ (mkNN "" name) Hn) as Hk.
  destruct (nodes !! mkNN "" name), (nodes' !! mkNN "" name); try done. by destruct Hk as [-> _].
Qed.

Lemma filter_bool_ext {A : Type} (f g : A -> bool) (l : list A) :
  (forall x, f x = g x) -> filter (fun x => f x = true) l = filter (fun x => g x = true) l.
Proof. intros H. apply filter_iff_in. intros x _. by rewrite H. Qed.

(** The case analysis the three filters and the three prunings share. *)
Ltac by_host Hn hostName :=
  let Hk := fresh "Hk" in
  pose proof (same_nodes_lookup _ _ (mkNN "" hostName) Hn) as Hk;
  destruct (_ !! mkNN "" hostName), (_ !! mkNN "" hostName); try done;
  f_equal; apply filter_bool_ext; intros; apply concerned_proper; [apply Hk|done].

Section FilterProper.
Context (topologyKeys : list string) (hostName : string) (nodes nodes' : nodes_map).
Context (info : node_info) (use_info : bool) (Hn : same_nodes nodes nodes').

Lemma filterConcernedAddresses_proper l :
  filterConcernedAddresses topologyKeys hostName nodes info use_info l =
  filterConcernedAddresses topologyKeys hostName nodes' info use_info l.
Proof using Hn. unfold filterConcernedAddresses. by_host Hn hostName. Qed.

Lemma filterConcernedV1_proper l :
  filterConcernedAddressesForEndpointSliceV1 topologyKeys hostName nodes info use_info l =
  filterConcernedAddressesForEndpointSliceV1 topologyKeys hostName nodes' info use_info l.
Proof using Hn. unfold filterConcernedAddressesForEndpointSliceV1. by_host Hn hostName. Qed.

Lemma filterConcernedV1Beta1_proper l :
  filterConcernedAddressesForEndpointSliceV1Beta1 topologyKeys hostName nodes info use_info l =
  filterConcernedAddressesForEndpointSliceV1Beta1 topologyKeys hostName nodes' info use_info l.
Proof using Hn. unfold filterConcernedAddressesForEndpointSliceV1Beta1. by_host Hn hostName. Qed.

Lemma filterInfo_proper {A : Type} (f : A -> option string) (l : list A) :
  filter (fun a => concerned_info nodes info (f a) = true) l =
  filter (fun a => concerned_info nodes' info (f a) = true) l.
Proof using Hn. apply filter_bool_ext. intros. by apply concerned_info_proper. Qed.

End FilterProper.

Lemma map_subsets_ext f g eps : (forall l, f l = g l) -> map_subsets f eps = map_subsets g eps.
Proof.
  intros H. unfold map_subsets. f_equal. destruct (eps_Subsets eps) as [l|]; [|done]. f_equal.
  apply list_fmap_ext. intros i s _. by rewrite !H.
Qed.

(** The three prunings, after [services !! epsKey], are one case analysis. *)
Ltac by_service Hs k :=
  pose proof (same_services_lookup _ _ k Hs) as Hk;
  destruct (_ !! k), (_ !! k); simpl in Hk; try done;
  injection Hk as Hk; rewrite Hk; repeat case_match; try done.

Section PruneProper.
Context (hostName : string) (nodes nodes' : nodes_map) (services services' : services_map).
Context (info : node_info) (wic sae : bool).
Context (Hn : same_nodes nodes nodes') (Hs : same_services services services').

Lemma pruneEndpoints_proper eps :
  pruneEndpoints hostName nodes services eps info wic sae =
  pruneEndpoints hostName nodes' services' eps info wic sae.
Proof using Hn Hs.
  unfold pruneEndpoints. by_service Hs (mkNN (Namespace (eps_meta eps)) (Name (eps_meta eps)));
    apply map_subsets_ext; intros l; try by apply filterConcernedAddresses_proper.
  all: unfold filterLocalNodeInfoConcernedAddresses; f_equal; by apply filterInfo_proper.
Qed.

Lemma pruneEndpointSliceV1_proper eps :
  pruneEndpointSliceV1 hostName nodes services eps info wic sae =
  pruneEndpointSliceV1 hostName nodes' services' eps info wic sae.
Proof using Hn Hs.
  unfold pruneEndpointSliceV1.
  by_service Hs (mkNN (Namespace (slice1_meta eps)) (dropSuffix (Name (slice1_meta eps))));
    f_equal; try by apply filterConcernedV1_proper.
  all: unfold filterLocalNodeInfoConcernedAddressesForEndpointSliceV1; f_equal; by apply filterInfo_proper.
Qed.

Lemma pruneEndpointSliceV1Beta1_proper eps :
  pruneEndpointSliceV1Beta1 hostName nodes services eps info wic sae =
  pruneEndpointSliceV1Beta1 hostName nodes' services' eps info wic sae.
Proof using Hn Hs.
  unfold pruneEndpointSliceV1Beta1.
  by_service Hs (mkNN (Namespace (sliceb_meta eps)) (dropSuffix (Name (sliceb_meta eps))));
    f_equal; try by apply filterConcernedV1Beta1_proper.
  all: unfold filterLocalNodeInfoConcernedAddressesForEndpointSliceV1Beta1; f_equal; by apply filterInfo_proper.
Qed.

End PruneProper.

(** ** The interface to the cache

    What the storage cache needs of a pruned resource: its metadata, which
    pruning keeps, and that pruning reads nodes and services only through
    their views. *)

Class Prunable (E : Type) : Type := {
  meta_of : E -> ObjectMeta;
  prune : string -> nodes_map -> services_map -> E -> node_info -> bool -> bool -> E;
  prune_meta : forall h n s e i w a, meta_of (prune h n s e i w a) = meta_of e;
  prune_proper : forall h n n' s s' e i w a, same_nodes n n' -> same_services s s' ->
    prune h n s e i w a = prune h n' s' e i w a
}.

Lemma genLocalEndpoints_meta eps : eps_meta (genLocalEndpoints eps) = eps_meta eps.
Proof. unfold genLocalEndpoints. by repeat case_match. Qed.
Lemma genLocalEndpointSliceV1_meta eps : slice1_meta (genLocalEndpointSliceV1 eps) = slice1_meta eps.
Proof. unfold genLocalEndpointSliceV1. by repeat case_match. Qed.
Lemma genLocalEndpointSliceV1Beta1_meta eps : sliceb_meta (genLocalEndpointSliceV1Beta1 eps) = sliceb_meta eps.
Proof. unfold genLocalEndpointSliceV1Beta1. by repeat case_match. Qed.

#[export] Hint Rewrite genLocalEndpoints_meta genLocalEndpointSliceV1_meta genLocalEndpointSliceV1Beta1_meta : superedge.

Lemma pruneEndpoints_meta h n s e i w a : eps_meta (pruneEndpoints h n s e i w a) = eps_meta e.
Proof. unfold pruneEndpoints. repeat case_match; simpl; by autorewrite with superedge. Qed.
Lemma pruneV1_meta h n s e i w a : slice1_meta (pruneEndpointSliceV1 h n s e i w a) = slice1_meta e.
Proof. unfold pruneEndpointSliceV1. repeat case_match; simpl; by autorewrite with superedge. Qed.
Lemma pruneV1Beta1_meta h n s e i w a : sliceb_meta (pruneEndpointSliceV1Beta1 h n s e i w a) = sliceb_meta e.
Proof. unfold pruneEndpointSliceV1Beta1. repeat case_match; simpl; by autorewrite with superedge. Qed.

#[export] Instance Endpoints_prunable : Prunable Endpoints.
Proof.
  refine {| meta_of := eps_meta; prune := pruneEndpoints |}.
  - apply pruneEndpoints_meta.
  - intros. by apply pruneEndpoints_proper.
Defined.

#[export] Instance EndpointSliceV1_prunable : Prunable EndpointSliceV1.
Proof.
  refine {| meta_of := slice1_meta; prune := pruneEndpointSliceV1 |}.
  - apply pruneV1_meta.
  - intros. by apply pruneEndpointSliceV1_proper.
Defined.

#[export] Instance EndpointSliceV1Beta1_prunable : Prunable EndpointSliceV1Beta1.
Proof.
  refine {| meta_of := sliceb_meta; prune := pruneEndpointSliceV1Beta1 |}.
  - apply pruneV1Beta1_meta.
  - intros. by apply pruneEndpointSliceV1Beta1_proper.
Defined.

(** ** Idempotence *)

Lemma filter_bool_idem {A : Type} (f : A -> bool) (l : list A) :
  filter (fun x => f x = true) (filter (fun x => f x = true) l) = filter (fun x => f x = true) l.
Proof. apply filter_all. intros x. by intros [? _]%list_elem_of_filter. Qed.

(** A filter of addresses that is idempotent and does not tell nil and empty
    slices apart. *)
Definition stable {A : Type} (f : gslice A -> gslice A) : Prop := forall l, f (f l) = f l.

Lemma filterConcerned_stable keys h nodes info u : stable (filterConcernedAddresses keys h nodes info u).
Proof. intros l. unfold filterConcernedAddresses. case_match; [|done]. simpl. by rewrite filter_bool_idem. Qed.
Lemma filterInfo_stable nodes info : stable (filterLocalNodeInfoConcernedAddresses nodes info).
Proof. intros l. unfold filterLocalNodeInfoConcernedAddresses. simpl. by rewrite filter_bool_idem. Qed.
Lemma filterConcernedV1_stable keys h nodes info u :
  stable (filterConcernedAddressesForEndpointSliceV1 keys h nodes info u).
Proof.
  intros l. unfold filterConcernedAddressesForEndpointSliceV1. case_match; [|done].
  simpl. by rewrite filter_bool_idem.
Qed.
Lemma filterInfoV1_stable nodes info : stable (filterLocalNodeInfoConcernedAddressesForEndpointSliceV1 nodes info).
Proof.
  intros l. unfold filterLocalNodeInfoConcernedAddressesForEndpointSliceV1. simpl. by rewrite filter_bool_idem.
Qed.
Lemma filterConcernedV1Beta1_stable keys h nodes info u :
  stable (filterConcernedAddressesForEndpointSliceV1Beta1 keys h nodes info u).
Proof.
  intros l. unfold filterConcernedAddressesForEndpointSliceV1Beta1. case_match; [|done].
  simpl. by rewrite filter_bool_idem.
Qed.
Lemma filterInfoV1Beta1_stable nodes info :
  stable (filterLocalNodeInfoConcernedAddressesForEndpointSliceV1Beta1 nodes info).
Proof.
  intros l. unfold filterLocalNodeInfoConcernedAddressesForEndpointSliceV1Beta1. simpl. by rewrite filter_bool_idem.
Qed.

Lemma map_subsets_stable f eps : stable f -> map_subsets f (map_subsets f eps) = map_subsets f eps.
Proof.
  intros Hf. unfold map_subsets. simpl. f_equal. destruct (eps_Subsets eps) as [l|]; [|done]. f_equal.
  rewrite <- list_fmap_compose. apply list_fmap_ext. intros i s _. simpl. by rewrite !Hf.
Qed.

Lemma map_subsets_compose f g eps :
  map_subsets f (map_subsets g eps) = map_subsets (fun l => f (g l)) eps.
Proof.
  unfold map_subsets. simpl. f_equal. destruct (eps_Subsets eps) as [l|]; [|done]. f_equal.
  by rewrite <- list_fmap_compose.
Qed.

(** On the pruned master endpoints the annotations are read again. *)
Lemma genLocalEndpoints_map f eps :
  genLocalEndpoints (map_subsets f (genLocalEndpoints eps)) =
  match local_endpoint (eps_meta eps) with None => map_subsets f eps | Some _ => genLocalEndpoints eps end.
Proof.
  unfold genLocalEndpoints at 1. simpl. rewrite genLocalEndpoints_meta.
  unfold genLocalEndpoints. destruct (local_endpoint (eps_meta eps)) as [[ip port]|]; done.
Qed.

Lemma genLocalEndpoints_idem eps : genLocalEndpoints (genLocalEndpoints eps) = genLocalEndpoints eps.
Proof.
  unfold genLocalEndpoints at 1. rewrite genLocalEndpoints_meta. unfold genLocalEndpoints.
  by destruct (local_endpoint (eps_meta eps)) as [[ip port]|].
Qed.

(** Slices: local generation after a rewriting of the endpoints. *)
Lemma genLocalV1_with eps l :
  genLocalEndpointSliceV1 (with_endpoints1 (genLocalEndpointSliceV1 eps) l) =
  match local_endpoint (slice1_meta eps) with
  | None => with_endpoints1 eps l
  | Some _ => genLocalEndpointSliceV1 eps
  end.
Proof.
  unfold genLocalEndpointSliceV1 at 1. simpl. rewrite genLocalEndpointSliceV1_meta.
  unfold genLocalEndpointSliceV1. by destruct (local_endpoint (slice1_meta eps)) as [[ip port]|].
Qed.

Lemma genLocalV1Beta1_with eps l :
  genLocalEndpointSliceV1Beta1 (with_endpointsb (genLocalEndpointSliceV1Beta1 eps) l) =
  match local_endpoint (sliceb_meta eps) with
  | None => with_endpointsb eps l
  | Some _ => genLocalEndpointSliceV1Beta1 eps
  end.
Proof.
  unfold genLocalEndpointSliceV1Beta1 at 1. simpl. rewrite genLocalEndpointSliceV1Beta1_meta.
  unfold genLocalEndpointSliceV1Beta1. by destruct (local_endpoint (sliceb_meta eps)) as [[ip port]|].
Qed.

Lemma with_endpoints1_same eps : with_endpoints1 eps (slice1_Endpoints eps) = eps.
Proof. by destruct eps. Qed.
Lemma with_endpointsb_same eps : with_endpointsb eps (sliceb_Endpoints eps) = eps.
Proof. by destruct eps. Qed.

Lemma genLocalV1_none eps : local_endpoint (slice1_meta eps) = None -> genLocalEndpointSliceV1 eps = eps.
Proof. intros H. unfold genLocalEndpointSliceV1. by rewrite H. Qed.
Lemma genLocalV1Beta1_none eps : local_endpoint (sliceb_meta eps) = None -> genLocalEndpointSliceV1Beta1 eps = eps.
Proof. intros H. unfold genLocalEndpointSliceV1Beta1. by rewrite H. Qed.
Lemma genLocal_none eps : local_endpoint (eps_meta eps) = None -> genLocalEndpoints eps = eps.
Proof. intros H. unfold genLocalEndpoints. by rewrite H. Qed.

(** One rewriting after local generation, done twice. *)
Lemma rewrite_twice f eps (wic : bool) : stable f ->
  let gen e := if wic then genLocalEndpoints e else e in
  map_subsets f (gen (map_subsets f (gen eps))) = map_subsets f (gen eps).
Proof.
  intros Hf. destruct wic; simpl; [|by apply map_subsets_stable]. rewrite genLocalEndpoints_map.
  destruct (local_endpoint (eps_meta eps)) eqn:E; [done|].
  rewrite genLocal_none by done. by apply map_subsets_stable.
Qed.

Lemma rewrite_twice_V1 f eps (wic : bool) : stable f ->
  let gen e := if wic then genLocalEndpointSliceV1 e else e in
  let rw e := with_endpoints1 e (f (slice1_Endpoints e)) in
  rw (gen (rw (gen eps))) = rw (gen eps).
Proof.
  intros Hf. destruct wic; simpl; [|unfold with_endpoints1; simpl; by rewrite Hf].
  rewrite genLocalV1_with. destruct (local_endpoint (slice1_meta eps)) eqn:E; [done|].
  rewrite genLocalV1_none by done. unfold with_endpoints1. simpl. by rewrite Hf.
Qed.

Lemma rewrite_twice_V1Beta1 f eps (wic : bool) : stable f ->
  let gen e := if wic then genLocalEndpointSliceV1Beta1 e else e in
  let rw e := with_endpointsb e (f (sliceb_Endpoints e)) in
  rw (gen (rw (gen eps))) = rw (gen eps).
Proof.
  intros Hf. destruct wic; simpl; [|unfold with_endpointsb; simpl; by rewrite Hf].
  rewrite genLocalV1Beta1_with. destruct (local_endpoint (sliceb_meta eps)) eqn:E; [done|].
  rewrite genLocalV1Beta1_none by done. unfold with_endpointsb. simpl. by rewrite Hf.
Qed.

Lemma genLocalV1_idem eps : genLocalEndpointSliceV1 (genLocalEndpointSliceV1 eps) = genLocalEndpointSliceV1 eps.
Proof.
  rewrite <- (with_endpoints1_same (genLocalEndpointSliceV1 eps)) at 1. rewrite genLocalV1_with.
  destruct (local_endpoint (slice1_meta eps)) eqn:E; [done|].
  by rewrite genLocalV1_none, with_endpoints1_same by done.
Qed.

Lemma genLocalV1Beta1_idem eps :
  genLocalEndpointSliceV1Beta1 (genLocalEndpointSliceV1Beta1 eps) = genLocalEndpointSliceV1Beta1 eps.
Proof.
  rewrite <- (with_endpointsb_same (genLocalEndpointSliceV1Beta1 eps)) at 1. rewrite genLocalV1Beta1_with.
  destruct (local_endpoint (sliceb_meta eps)) eqn:E; [done|].
  by rewrite genLocalV1Beta1_none, with_endpointsb_same by done.
Qed.

(** Which filter pruning applies, from the metadata alone. *)
Section Rules.
Context (hostName : string) (nodes : nodes_map) (services : services_map) (info : node_info) (sae : bool).

Definition rule {F : Type} (svcName : string) (m : ObjectMeta) (topo : list string -> F) (health : F) : option F :=
  match services !! mkNN (Namespace m) svcName with
  | None => None
  | Some svc =>
      if (length (sl (keys svc)) =? 0)%nat
      then if is_master m then None else if sae then Some health else None
      else Some (topo (sl (keys svc)))
  end.

Definition rule_endpoints (m : ObjectMeta) :=
  rule (Name m) m (fun ks => filterConcernedAddresses ks hostName nodes info sae)
    (filterLocalNodeInfoConcernedAddresses nodes info).
Definition rule_V1 (m : ObjectMeta) :=
  rule (dropSuffix (Name m)) m (fun ks => filterConcernedAddressesForEndpointSliceV1 ks hostName nodes info sae)
    (filterLocalNodeInfoConcernedAddressesForEndpointSliceV1 nodes info).
Definition rule_V1Beta1 (m : ObjectMeta) :=
  rule (dropSuffix (Name m)) m (fun ks => filterConcernedAddressesForEndpointSliceV1Beta1 ks hostName nodes info sae)
    (filterLocalNodeInfoConcernedAddressesForEndpointSliceV1Beta1 nodes info).

Lemma pruneEndpoints_rule eps (wic : bool) :
  pruneEndpoints hostName nodes services eps info wic sae =
  let e := if wic then genLocalEndpoints eps else eps in
  match rule_endpoints (eps_meta eps) with None => e | Some f => map_subsets f e end.
Proof.
  unfold pruneEndpoints, rule_endpoints, rule.
  assert (eps_meta (if wic then genLocalEndpoints eps else eps) = eps_meta eps) as ->
    by (destruct wic; autorewrite with superedge; done).
  repeat case_match; done.
Qed.

Lemma pruneV1_rule eps (wic : bool) :
  pruneEndpointSliceV1 hostName nodes services eps info wic sae =
  let e := if wic then genLocalEndpointSliceV1 eps else eps in
  match rule_V1 (slice1_meta eps) with None => e | Some f => with_endpoints1 e (f (slice1_Endpoints e)) end.
Proof.
  unfold pruneEndpointSliceV1, rule_V1, rule.
  assert (slice1_meta (if wic then genLocalEndpointSliceV1 eps else eps) = slice1_meta eps) as ->
    by (destruct wic; autorewrite with superedge; done).
  repeat case_match; done.
Qed.

Lemma pruneV1Beta1_rule eps (wic : bool) :
  pruneEndpointSliceV1Beta1 hostName nodes services eps info wic sae =
  let e := if wic then genLocalEndpointSliceV1Beta1 eps else eps in
  match rule_V1Beta1 (sliceb_meta eps) with None => e | Some f => with_endpointsb e (f (sliceb_Endpoints e)) end.
Proof.
  unfold pruneEndpointSliceV1Beta1, rule_V1Beta1, rule.
  assert (sliceb_meta (if wic then genLocalEndpointSliceV1Beta1 eps else eps) = sliceb_meta eps) as ->
    by (destruct wic; autorewrite with superedge; done).
  repeat case_match; done.
Qed.

Lemma rule_stable {A : Type} svcName m (topo : list string -> gslice A -> gslice A) health f :
  (forall ks, stable (topo ks)) -> stable health -> rule svcName m topo health = Some f -> stable f.
Proof using Type. intros Ht Hh. unfold rule. repeat case_match; naive_solver. Qed.

End Rules.

(** ** Properties *)

(** The cache may prune an object it already pruned: on every
    configuration, each of the three prunings applied to its own result gives
    that result again. *)
Theorem prune_idempotent (hostName : string) (nodes : nodes_map) (services : services_map)
    (info : node_info) (wic sae : bool) :
  let endpoints e := pruneEndpoints hostName nodes services e info wic sae in
  let sliceV1 e := pruneEndpointSliceV1 hostName nodes services e info wic sae in
  let sliceV1Beta1 e := pruneEndpointSliceV1Beta1 hostName nodes services e info wic sae in
  (forall e, endpoints (endpoints e) = endpoints e) /\ (forall e, sliceV1 (sliceV1 e) = sliceV1 e)
  /\ (forall e, sliceV1Beta1 (sliceV1Beta1 e) = sliceV1Beta1 e).
Proof.
  intros endpoints sliceV1 sliceV1Beta1. unfold endpoints, sliceV1, sliceV1Beta1.
  split; [|split]; intros eps.
  - rewrite (pruneEndpoints_rule _ _ _ _ _ (pruneEndpoints _ _ _ _ _ _ _)).
    rewrite pruneEndpoints_meta, pruneEndpoints_rule. simpl.
    destruct (rule_endpoints _ _ _ _ _ _) as [f|] eqn:E; [|destruct wic; [apply genLocalEndpoints_idem|done]].
    apply rewrite_twice. revert E. apply rule_stable; [intros ks; apply filterConcerned_stable|apply filterInfo_stable].
  - rewrite (pruneV1_rule _ _ _ _ _ (pruneEndpointSliceV1 _ _ _ _ _ _ _)).
    rewrite pruneV1_meta, pruneV1_rule. simpl.
    destruct (rule_V1 _ _ _ _ _ _) as [f|] eqn:E; [|destruct wic; [apply genLocalV1_idem|done]].
    apply rewrite_twice_V1. revert E. apply rule_stable; [intros ks; apply filterConcernedV1_stable|apply filterInfoV1_stable].
  - rewrite (pruneV1Beta1_rule _ _ _ _ _ (pruneEndpointSliceV1Beta1 _ _ _ _ _ _ _)).
    rewrite pruneV1Beta1_meta, pruneV1Beta1_rule. simpl.
    destruct (rule_V1Beta1 _ _ _ _ _ _) as [f|] eqn:E; [|destruct wic; [apply genLocalV1Beta1_idem|done]].
    apply rewrite_twice_V1Beta1. revert E.
    apply rule_stable; [intros ks; apply filterConcernedV1Beta1_stable|apply filterInfoV1Beta1_stable].
Qed.

(** [l'] keeps the order of [l] and has exactly its elements that satisfy [P]. *)
Definition keeps {A : Type} (P : A -> Prop) (l l' : gslice A) : Prop :=
  sl l' `sublist_of` sl l /\ forall x, x ∈ sl l' <-> x ∈ sl l /\ P x.

Lemma filter_keeps {A : Type} (f : A -> bool) (P : A -> Prop) (l : gslice A) :
  (forall x, f x = true <-> P x) -> keeps P l (Some (filter (fun x => f x = true) (sl l))).
Proof.
  intros H. split; [apply sublist_filter|]. intros x. simpl. rewrite list_elem_of_filter, H. naive_solver.
Qed.

(** What is pruned: in the cluster the endpoints of the API server with a local
    endpoint in their annotations are replaced first. *)
Definition local_form (wic : bool) (eps : Endpoints) : Endpoints := if wic then genLocalEndpoints eps else eps.
Definition local_form_V1 (wic : bool) (eps : EndpointSliceV1) : EndpointSliceV1 :=
  if wic then genLocalEndpointSliceV1 eps else eps.
Definition local_form_V1Beta1 (wic : bool) (eps : EndpointSliceV1Beta1) : EndpointSliceV1Beta1 :=
  if wic then genLocalEndpointSliceV1Beta1 eps else eps.

Lemma is_master_key m m' : meta_key m = meta_key m' -> is_master m = is_master m'.
Proof. intros [= Hns Hn]. unfold is_master. by rewrite Hns, Hn. Qed.

(** Only objects named after the API server have a local endpoint. *)
Lemma local_endpoint_master m : is_master m = false -> local_endpoint m = None.
Proof.
  unfold is_master, local_endpoint. intros H. by destruct (String.eqb (Namespace m) _), (String.eqb (Name m) _).
Qed.

Lemma local_form_other wic eps : is_master (eps_meta eps) = false -> local_form wic eps = eps.
Proof. intros H. destruct wic; [|done]. by apply genLocal_none, local_endpoint_master. Qed.
Lemma local_form_V1_other wic eps : is_master (slice1_meta eps) = false -> local_form_V1 wic eps = eps.
Proof. intros H. destruct wic; [|done]. by apply genLocalV1_none, local_endpoint_master. Qed.
Lemma local_form_V1Beta1_other wic eps : is_master (sliceb_meta eps) = false -> local_form_V1Beta1 wic eps = eps.
Proof. intros H. destruct wic; [|done]. by apply genLocalV1Beta1_none, local_endpoint_master. Qed.

(** Pruning the endpoints of a service with topology keys, subset by subset. *)
Lemma pruneEndpoints_close (hostName : string) (nodes : nodes_map) (services : services_map)
    (info : node_info) (wic sae : bool) (h : nodeContainer) (sc : serviceContainer) (eps : Endpoints) :
  nodes !! mkNN "" hostName = Some h -> sl (keys sc) <> [] -> services !! meta_key (eps_meta eps) = Some sc ->
  let close := close_to (sl (keys sc)) h nodes info sae in
  Forall2 (fun s s' => keeps (fun a => close (ea_NodeName a)) (es_Addresses s) (es_Addresses s')
             /\ keeps (fun a => close (ea_NodeName a)) (es_NotReadyAddresses s) (es_NotReadyAddresses s')
             /\ es_Ports s' = es_Ports s)
    (sl (eps_Subsets (local_form wic eps)))
    (sl (eps_Subsets (pruneEndpoints hostName nodes services eps info wic sae))).
Proof.
  intros Hh Hk Hs close. unfold pruneEndpoints. unfold meta_key in Hs. rewrite Hs.
  destruct (sl (keys sc)) as [|k ks] eqn:Ek; [done|]. simpl. fold (local_form wic eps). unfold map_subsets. simpl.
  destruct (eps_Subsets (local_form wic eps)) as [l|]; [|done]. simpl.
  apply Forall2_fmap_r, Forall_Forall2_diag, Forall_forall.
  intros s _. simpl. unfold filterConcernedAddresses. rewrite Hh.
  split; [|split; [|done]]; apply filter_keeps; intros; apply concerned_iff.
Qed.

(** C9: for a service with topology keys, on a node the wrapper knows,
    pruning keeps in every subset of the endpoints (and in every slice)
    exactly the addresses whose node is known, shares a value of one of the
    keys with the host, and is not reported failed when health information is
    enabled; ports, subsets and order are untouched.  It holds in and outside
    the cluster: a wrapper in the cluster first replaces the endpoints of the
    API server by its local form, and every other object is pruned as it is. *)
Theorem prune_topology (hostName : string) (nodes : nodes_map) (services : services_map)
    (info : node_info) (wic sae : bool) (h : nodeContainer) (sc : serviceContainer) :
  nodes !! mkNN "" hostName = Some h -> sl (keys sc) <> [] ->
  let close := close_to (sl (keys sc)) h nodes info sae in
  (forall eps, services !! meta_key (eps_meta eps) = Some sc ->
     Forall2 (fun s s' => keeps (fun a => close (ea_NodeName a)) (es_Addresses s) (es_Addresses s')
                /\ keeps (fun a => close (ea_NodeName a)) (es_NotReadyAddresses s) (es_NotReadyAddresses s')
                /\ es_Ports s' = es_Ports s)
       (sl (eps_Subsets (local_form wic eps)))
       (sl (eps_Subsets (pruneEndpoints hostName nodes services eps info wic sae)))
     /\ (is_master (eps_meta eps) = false -> local_form wic eps = eps))
  /\ (forall eps, services !! mkNN (Namespace (slice1_meta eps)) (dropSuffix (Name (slice1_meta eps))) = Some sc ->
     keeps (fun e => close (e1_NodeName e)) (slice1_Endpoints (local_form_V1 wic eps))
       (slice1_Endpoints (pruneEndpointSliceV1 hostName nodes services eps info wic sae))
     /\ (is_master (slice1_meta eps) = false -> local_form_V1 wic eps = eps))
  /\ (forall eps, services !! mkNN (Namespace (sliceb_meta eps)) (dropSuffix (Name (sliceb_meta eps))) = Some sc ->
     keeps (fun e => close (beta1_nodeName e)) (sliceb_Endpoints (local_form_V1Beta1 wic eps))
       (sliceb_Endpoints (pruneEndpointSliceV1Beta1 hostName nodes services eps info wic sae))
     /\ (is_master (sliceb_meta eps) = false -> local_form_V1Beta1 wic eps = eps)).
Proof.
  intros Hh Hk close.
  assert (forall (F : Type) (a b : F), (if (length (sl (keys sc)) =? 0)%nat then a else b) = b) as Hlen.
  { intros. by destruct (sl (keys sc)). }
  split; [|split]; intros eps Hs.
  - split; [by apply pruneEndpoints_close|apply local_form_other].
  - split; [|apply local_form_V1_other]. unfold pruneEndpointSliceV1. rewrite Hs, Hlen. simpl.
    unfold filterConcernedAddressesForEndpointSliceV1. rewrite Hh. apply filter_keeps. intros. apply concerned_iff.
  - split; [|apply local_form_V1Beta1_other]. unfold pruneEndpointSliceV1Beta1. rewrite Hs, Hlen. simpl.
    unfold filterConcernedAddressesForEndpointSliceV1Beta1. rewrite Hh.
    apply filter_keeps. intros. apply concerned_iff.
Qed.

(** A node of unit [u], and a service over the key [zone]. *)
Definition ex_node (name u : string) : nodeContainer :=
  mkNodeContainer (mkNode (named "" name) None None None) (Some {["zone"%string := u]}).
Definition ex_nodes : nodes_map :=
  {[mkNN "" "a" := ex_node "a" "z1"; mkNN "" "b" := ex_node "b" "z1"; mkNN "" "c" := ex_node "c" "z2"]}.
Definition ex_service : serviceContainer := mkServiceContainer (mkService (named "ns" "web")) (Some ["zone"%string]).
Definition ex_services : services_map := {[mkNN "ns" "web" := ex_service]}.
Definition ex_eps : Endpoints :=
  mkEndpoints (named "ns" "web")
    (Some [mkEndpointSubset (Some [mkEndpointAddress "10.0.0.1" (Some "b"%string);
                                   mkEndpointAddress "10.0.0.2" (Some "c"%string);
                                   mkEndpointAddress "10.0.0.3" None]) None None]).

Lemma prune_topology_witness :
  let close := close_to ["zone"%string] (ex_node "a" "z1") ex_nodes ∅ true in
  let pruned := pruneEndpoints "a" ex_nodes ex_services ex_eps ∅ true true in
  Forall2 (fun s s' => keeps (fun a => close (ea_NodeName a)) (es_Addresses s) (es_Addresses s')
             /\ keeps (fun a => close (ea_NodeName a)) (es_NotReadyAddresses s) (es_NotReadyAddresses s')
             /\ es_Ports s' = es_Ports s)
    (sl (eps_Subsets ex_eps)) (sl (eps_Subsets pruned))
  /\ eps_Subsets pruned =
     Some [mkEndpointSubset (Some [mkEndpointAddress "10.0.0.1" (Some "b"%string)]) (Some []) None].
Proof.
  split; [|vm_compute; reflexivity].
  refine (proj1 (proj1 (prune_topology "a" ex_nodes ex_services ∅ true true (ex_node "a" "z1") ex_service _ _) ex_eps _));
    [reflexivity|discriminate|reflexivity].
Defined.

(** A service without topology keys: the master endpoints and, when the
    health enhancement is off, every other endpoints object stay as they are;
    when it is on, exactly the addresses on known nodes that are not reported
    failed remain. An address without a node name is dropped. *)
Theorem prune_normal (hostName : string) (nodes : nodes_map) (services : services_map)
    (info : node_info) (sae : bool) (sc : serviceContainer) (eps : Endpoints) :
  services !! meta_key (eps_meta eps) = Some sc -> sl (keys sc) = [] ->
  let healthy a := exists name n, ea_NodeName a = Some name /\ nodes !! mkNN "" name = Some n
                     /\ not_reported_bad info n in
  let pruned := pruneEndpoints hostName nodes services eps info false sae in
  if is_master (eps_meta eps) || negb sae then pruned = eps
  else Forall2 (fun s s' => keeps healthy (es_Addresses s) (es_Addresses s')
                  /\ keeps healthy (es_NotReadyAddresses s) (es_NotReadyAddresses s')
                  /\ es_Ports s' = es_Ports s)
         (sl (eps_Subsets eps)) (sl (eps_Subsets pruned)).
Proof.
  intros Hs Hk healthy pruned. unfold pruned, pruneEndpoints. unfold meta_key in Hs. rewrite Hs, Hk. simpl.
  destruct (is_master (eps_meta eps)); [done|]. destruct sae; [|done]. simpl. unfold map_subsets. simpl.
  destruct (eps_Subsets eps) as [l|]; [|done]. simpl. apply Forall2_fmap_r, Forall_Forall2_diag, Forall_forall.
  intros s _. simpl. unfold filterLocalNodeInfoConcernedAddresses.
  split; [|split; [|done]]; apply filter_keeps; intros; apply concerned_info_iff.
Qed.

Lemma prune_normal_witness :
  let services := {[mkNN "ns" "web" := mkServiceContainer (mkService (named "ns" "web")) None]} in
  let info := {["b"%string := mkResultDetail false "" 0]} in
  pruneEndpoints "a" ex_nodes services ex_eps info false false = ex_eps
  /\ eps_Subsets (pruneEndpoints "a" ex_nodes services ex_eps info false true) =
     Some [mkEndpointSubset (Some [mkEndpointAddress "10.0.0.2" (Some "c"%string)]) (Some []) None].
Proof.
  split; [|vm_compute; reflexivity].
  exact (prune_normal "a" ex_nodes {[mkNN "ns" "web" := mkServiceContainer (mkService (named "ns" "web")) None]}
           {["b"%string := mkResultDetail false "" 0]} false
           (mkServiceContainer (mkService (named "ns" "web")) None) ex_eps eq_refl eq_refl).
Defined.

(** ** Names and annotations *)

Lemma fold_dash s0 rest : fold_left (fun e s => e +:+ "-" +:+ s) rest s0 = join_with "-" (s0 :: rest).
Proof.
  revert s0. induction rest as [|s rest IH]; intros s0; [done|]. simpl fold_left. rewrite IH.
  rewrite (join_with_cons "-" s0 (s :: rest)) by done.
  destruct rest as [|s' rest]; [done|]. rewrite !(join_with_cons "-" _ (s' :: rest)) by done.
  by rewrite !append_assoc.
Qed.

(** The service of an endpoint slice is found from the slice's name: for
    every service name, dashes included, and every generated suffix without
    a dash, [dropSuffix] gives the service name back; a name without a dash is
    its own service. *)
Theorem dropSuffix_service (name suffix : string) :
  free_of "-" suffix -> dropSuffix (name +:+ "-" +:+ suffix) = name /\ dropSuffix suffix = suffix.
Proof.
  intros Hf. unfold free_of in Hf. unfold dropSuffix. split; [|by rewrite Hf].
  change ("-" +:+ suffix) with (String "-" suffix). rewrite split_on_app, Hf.
  destruct (split_on "-" name) as [|s0 rest] eqn:E; [by apply split_on_nonempty in E|].
  simpl. rewrite removelast_last, fold_dash, <- E. apply join_split.
Qed.

Lemma dropSuffix_service_witness : dropSuffix "my-web-svc-x7k2p" = "my-web-svc"%string.
Proof. apply (dropSuffix_service "my-web-svc" "x7k2p"). reflexivity. Defined.

(** Topology keys written by [json.Marshal] into the annotation are read
    back as they were, for keys of ASCII characters; a malformed annotation,
    like a missing one, means no keys. *)
Theorem getTopologyKeys_roundtrip (m : ObjectMeta) (a : gmap string string) (ks : list string) :
  Forall ascii_only ks ->
  getTopologyKeys (with_annotations m (Some (<[TopologyAnnotationsKey := MarshalStrings ks]> a))) = Some ks
  /\ getTopologyKeys (with_annotations m (Some (delete TopologyAnnotationsKey a))) = None
  /\ forall bad, UnmarshalStrings bad = None ->
       getTopologyKeys (with_annotations m (Some (<[TopologyAnnotationsKey := bad]> a))) = None.
Proof.
  intros Hks. unfold getTopologyKeys, hasTopologyKey. simpl. rewrite lookup_delete_eq.
  split; [|split; [done|]].
  - rewrite lookup_insert_eq. simpl. by rewrite Unmarshal_Marshal.
  - intros bad Hbad. rewrite lookup_insert_eq. simpl. by rewrite Hbad.
Qed.

Lemma getTopologyKeys_roundtrip_witness :
  getTopologyKeys (with_annotations (named "ns" "web")
    (Some (<[TopologyAnnotationsKey := MarshalStrings ["zone"%string; "region"%string]]> ∅)))
  = Some ["zone"%string; "region"%string].
Proof. apply getTopologyKeys_roundtrip. repeat constructor. Defined.
