(* ===== verification/StorageCache.v ===== *)
(** * The storage cache of the grid wrapper (pkg/application-grid-wrapper/storage)

    [storageCache] holds what the informers delivered and, for endpoints and
    endpoint slices, their pruned form.  The informer handlers and
    [SetLocalNodeInfo] update it and broadcast the changed objects to the
    watchers (kube-proxy).  A handler is a function from the state to the new
    state and the broadcasts it makes.

    The theorems: in every reachable state the pruned objects are what
    pruning the originals with the current nodes and services and the current
    health information or the last report gives (refinement of a cache that
    prunes on every read); replaying the broadcasts reconstructs the pruned
    endpoints and v1 slices; and two places where the code breaks what it means
    to do. *)

From Stdlib Require Import ZArith Lia.
From stdpp Require Import base strings gmap numbers sorting list.
From S2P Require Import Prelude.
From S2P Require Import K8s.
From S2P Require Import HealthData.
From S2P Require Import Topology.

Local Open Scope Z_scope.

(** ** Watch events *)

Inductive EventType : Type := Added | Modified | Deleted.

Inductive Object : Type :=
| ONode (n : Node)
| OService (s : Service)
| OEndpoints (e : Endpoints)
| OSliceV1 (e : EndpointSliceV1)
| OSliceV1Beta1 (e : EndpointSliceV1Beta1)
| OTombstone (key : string).

Inductive Channel : Type :=
| serviceBroardcaster
| endpointsBroadcaster
| endpointSliceV1Broardcaster
| endpointSliceV1Beta1Boardcaster
| nodeBroadcaster.

#[export] Instance Channel_eq_dec : EqDecision Channel.
Proof. solve_decision. Defined.

(** [Action] blocks until the event is queued, [ActionOrDrop] drops it when
    the queue is full. *)
#[export] Instance EventType_eq_dec : EqDecision EventType.
Proof. solve_decision. Defined.
#[export] Instance Object_eq_dec : EqDecision Object.
Proof. solve_decision. Defined.

Record Broadcast : Type := mkBroadcast {
  b_chan : Channel;
  b_or_drop : bool;
  b_type : EventType;
  b_object : Object
}.

#[export] Instance Broadcast_eq_dec : EqDecision Broadcast.
Proof. solve_decision. Defined.

(** ** State *)

Record container (E : Type) : Type := mkContainer { original : E; modified : E }.
Arguments mkContainer {E} _ _.
Arguments original {E} _.
Arguments modified {E} _.

Record storageCache : Type := mkStorageCache {
  hostName : string;
  wrapperInCluster : bool;
  serviceAutonomyEnhancementEnabled : bool;
  supportEndpointSlice : bool;
  servicesMap : services_map;
  endpointsMap : gmap NamespacedName (container Endpoints);
  endpointSliceV1Map : gmap NamespacedName (container EndpointSliceV1);
  endpointSliceV1Beta1Map : gmap NamespacedName (container EndpointSliceV1Beta1);
  nodesMap : nodes_map;
  localNodeInfo : node_info
}.

Definition NewStorageCache (hostName : string) (wrapperInCluster serviceAutonomyEnhancementEnabled
    supportEndpointSlice : bool) : storageCache :=
  mkStorageCache hostName wrapperInCluster serviceAutonomyEnhancementEnabled supportEndpointSlice
    ∅ ∅ ∅ ∅ ∅ ∅.

Definition set_services (sc : storageCache) (m : services_map) : storageCache :=
  mkStorageCache (hostName sc) (wrapperInCluster sc) (serviceAutonomyEnhancementEnabled sc)
    (supportEndpointSlice sc) m (endpointsMap sc) (endpointSliceV1Map sc)
    (endpointSliceV1Beta1Map sc) (nodesMap sc) (localNodeInfo sc).
Definition set_endpoints (sc : storageCache) (m : gmap NamespacedName (container Endpoints)) : storageCache :=
  mkStorageCache (hostName sc) (wrapperInCluster sc) (serviceAutonomyEnhancementEnabled sc)
    (supportEndpointSlice sc) (servicesMap sc) m (endpointSliceV1Map sc)
    (endpointSliceV1Beta1Map sc) (nodesMap sc) (localNodeInfo sc).
Definition set_sliceV1 (sc : storageCache) (m : gmap NamespacedName (container EndpointSliceV1)) : storageCache :=
  mkStorageCache (hostName sc) (wrapperInCluster sc) (serviceAutonomyEnhancementEnabled sc)
    (supportEndpointSlice sc) (servicesMap sc) (endpointsMap sc) m
    (endpointSliceV1Beta1Map sc) (nodesMap sc) (localNodeInfo sc).
Definition set_sliceV1Beta1 (sc : storageCache) (m : gmap NamespacedName (container EndpointSliceV1Beta1))
    : storageCache :=
  mkStorageCache (hostName sc) (wrapperInCluster sc) (serviceAutonomyEnhancementEnabled sc)
    (supportEndpointSlice sc) (servicesMap sc) (endpointsMap sc) (endpointSliceV1Map sc)
    m (nodesMap sc) (localNodeInfo sc).
Definition set_nodes (sc : storageCache) (m : nodes_map) : storageCache :=
  mkStorageCache (hostName sc) (wrapperInCluster sc) (serviceAutonomyEnhancementEnabled sc)
    (supportEndpointSlice sc) (servicesMap sc) (endpointsMap sc) (endpointSliceV1Map sc)
    (endpointSliceV1Beta1Map sc) m (localNodeInfo sc).
Definition set_info (sc : storageCache) (i : node_info) : storageCache :=
  mkStorageCache (hostName sc) (wrapperInCluster sc) (serviceAutonomyEnhancementEnabled sc)
    (supportEndpointSlice sc) (servicesMap sc) (endpointsMap sc) (endpointSliceV1Map sc)
    (endpointSliceV1Beta1Map sc) (nodesMap sc) i.

(** ** One pruned resource

    The rebuild loop and the add, update and delete of the three endpoint
    handlers are the same code on three types. *)

Definition event (E : Type) : Type := (EventType * E)%type.

Section Resource.
Context `{R : GoRange} {E : Type} `{Prunable E} `{SemanticEq E}.
Implicit Types (m : gmap NamespacedName (container E)).

Definition pruned (sc : storageCache) (e : E) : E :=
  prune (hostName sc) (nodesMap sc) (servicesMap sc) e (localNodeInfo sc) (wrapperInCluster sc)
    (serviceAutonomyEnhancementEnabled sc).

Definition rebuild_one (sc : storageCache) (acc : gmap NamespacedName (container E) * list (event E))
    (kv : NamespacedName * container E) : gmap NamespacedName (container E) * list (event E) :=
  let '(m, evts) := acc in
  let '(name, c) := kv in
  let newEps := pruned sc (original c) in
  if DeepEqual newEps (modified c) then (m, evts)
  else (<[name := mkContainer (original c) newEps]> m, evts ++ [(Modified, newEps)]).

Definition rebuild_map (sc : storageCache) m : gmap NamespacedName (container E) * list (event E) :=
  fold_left (rebuild_one sc) (go_range m) (m, []).

Definition res_add (sc : storageCache) m (e : E) : gmap NamespacedName (container E) * list (event E) :=
  let newEps := pruned sc e in
  (<[meta_key (meta_of e) := mkContainer e newEps]> m, [(Added, newEps)]).

Definition res_update (sc : storageCache) m (e : E) : gmap NamespacedName (container E) * list (event E) :=
  match m !! meta_key (meta_of e) with
  | None => (m, [])
  | Some c =>
      let newEps := pruned sc e in
      let changed := negb (DeepEqual (modified c) newEps) in
      (<[meta_key (meta_of e) := mkContainer e (if changed then newEps else modified c)]> m,
       if changed then [(Modified, newEps)] else [])
  end.

Definition res_delete m (e : E) : gmap NamespacedName (container E) * list (event E) :=
  match m !! meta_key (meta_of e) with
  | None => (m, [])
  | Some c => (delete (meta_key (meta_of e)) m, [(Deleted, modified c)])
  end.

Definition broadcasts (chan : Channel) (or_drop : bool) (wrap : E -> Object) (evts : list (event E)) : list Broadcast :=
  (fun ev => mkBroadcast chan or_drop (fst ev) (wrap (snd ev))) <$> evts.

End Resource.

(** ** The cache *)

Section Cache.
Context `{R : GoRange} `{SemanticEq Endpoints} `{SemanticEq EndpointSliceV1} `{SemanticEq EndpointSliceV1Beta1}.
Context `{SemanticEq (gslice EndpointSubset)}.

Definition rebuildEndpointsMap (sc : storageCache) : storageCache * list (event Endpoints) :=
  let '(m, evts) := rebuild_map sc (endpointsMap sc) in (set_endpoints sc m, evts).

Definition rebuildEndpointSliceV1Map (sc : storageCache) : storageCache * list (event EndpointSliceV1) :=
  let '(m, evts) := rebuild_map sc (endpointSliceV1Map sc) in (set_sliceV1 sc m, evts).

Definition rebuildEndpointSliceV1Beta1Map (sc : storageCache) : storageCache * list (event EndpointSliceV1Beta1) :=
  let '(m, evts) := rebuild_map sc (endpointSliceV1Beta1Map sc) in (set_sliceV1Beta1 sc m, evts).

Definition GetEndpointSliceV1Beta1 (sc : storageCache) : list EndpointSliceV1Beta1 :=
  (fun kv => modified (snd kv)) <$> go_range (endpointSliceV1Beta1Map sc).
Definition GetEndpointSliceV1 (sc : storageCache) : list EndpointSliceV1 :=
  (fun kv => modified (snd kv)) <$> go_range (endpointSliceV1Map sc).
Definition GetEndpoints (sc : storageCache) : list Endpoints :=
  (fun kv => modified (snd kv)) <$> go_range (endpointsMap sc).
Definition GetServices (sc : storageCache) : list Service :=
  (fun kv => svc (snd kv)) <$> go_range (servicesMap sc).
Definition GetNodes (sc : storageCache) : list Node :=
  (fun kv => node (snd kv)) <$> go_range (nodesMap sc).
Definition GetNode (sc : storageCache) (hostName : string) : option Node :=
  node <$> nodesMap sc !! mkNN "" hostName.
Definition GetNodeName (sc : storageCache) : string := hostName sc.
Definition GetLocalNodeInfo (sc : storageCache) : node_info := localNodeInfo sc.

(** The three stages of [resync].  The second broadcasts v1beta1 slices on the
    v1 channel, as the code does. *)
Definition resync_V1 (sc : storageCache) : storageCache * list Broadcast :=
  if (0 <? size (endpointSliceV1Map sc))%nat then
    let '(sc, changedEndpointSliceV1) := rebuildEndpointSliceV1Map sc in
    (sc, broadcasts endpointSliceV1Broardcaster false OSliceV1 changedEndpointSliceV1)
  else (sc, []).

Definition resync_V1Beta1 (sc : storageCache) : storageCache * list Broadcast :=
  if (0 <? length (GetEndpointSliceV1Beta1 sc))%nat then
    let '(sc, changedEndpointSliceV1Beta1) := rebuildEndpointSliceV1Beta1Map sc in
    (sc, broadcasts endpointSliceV1Broardcaster false OSliceV1Beta1 changedEndpointSliceV1Beta1)
  else (sc, []).

Definition resync_endpoints (sc : storageCache) : storageCache * list Broadcast :=
  if (0 <? size (endpointsMap sc))%nat then
    let '(sc, changedEps) := rebuildEndpointsMap sc in
    (sc, broadcasts endpointsBroadcaster true OEndpoints changedEps)
  else (sc, []).

Definition resync (sc : storageCache) : storageCache * list Broadcast :=
  let '(sc, b1) := resync_V1 sc in
  let '(sc, b2) := resync_V1Beta1 sc in
  let '(sc, b3) := resync_endpoints sc in
  (sc, b1 ++ b2 ++ b3).

Definition ClearLocalNodeInfo (sc : storageCache) : storageCache := set_info sc ∅.
Definition SetLocalNodeInfo (sc : storageCache) (info : node_info) : storageCache * list Broadcast :=
  resync (set_info sc info).

(** *** Nodes (node_handler.go) *)

Definition node_add (sc : storageCache) (n : Node) : storageCache * list Broadcast :=
  let nodeKey := mkNN (Namespace (node_meta n)) (Name (node_meta n)) in
  resync (set_nodes sc (<[nodeKey := mkNodeContainer n (Labels (node_meta n))]> (nodesMap sc))).

Definition node_update (sc : storageCache) (n : Node) : storageCache * list Broadcast :=
  let nodeKey := mkNN (Namespace (node_meta n)) (Name (node_meta n)) in
  match nodesMap sc !! nodeKey with
  | None => (sc, [])
  | Some c =>
      if bool_decide (Labels (node_meta n) = labels c)
      then (set_nodes sc (<[nodeKey := mkNodeContainer n (labels c)]> (nodesMap sc)), [])
      else
        let '(sc, bs) := resync (set_nodes sc (<[nodeKey := mkNodeContainer n (Labels (node_meta n))]> (nodesMap sc))) in
        (sc, bs ++ [mkBroadcast nodeBroadcaster true Modified (ONode n)])
  end.

Definition node_delete (sc : storageCache) (n : Node) : storageCache * list Broadcast :=
  let nodeKey := mkNN (Namespace (node_meta n)) (Name (node_meta n)) in
  resync (set_nodes sc (delete nodeKey (nodesMap sc))).

(** *** Services (service_handler.go) *)

Definition service_add (sc : storageCache) (s : Service) : storageCache * list Broadcast :=
  let serviceKey := mkNN (Namespace (svc_meta s)) (Name (svc_meta s)) in
  let '(sc, bs) := resync (set_services sc
    (<[serviceKey := mkServiceContainer s (getTopologyKeys (svc_meta s))]> (servicesMap sc))) in
  (sc, mkBroadcast serviceBroardcaster true Added (OService s) :: bs).

Definition service_update (sc : storageCache) (s : Service) : storageCache * list Broadcast :=
  let serviceKey := mkNN (Namespace (svc_meta s)) (Name (svc_meta s)) in
  let newTopologyKeys := getTopologyKeys (svc_meta s) in
  match servicesMap sc !! serviceKey with
  | None => (sc, [])
  | Some c =>
      let b := mkBroadcast serviceBroardcaster true Modified (OService s) in
      if bool_decide (keys c = newTopologyKeys)
      then (set_services sc (<[serviceKey := mkServiceContainer s (keys c)]> (servicesMap sc)), [b])
      else
        let '(sc, bs) := resync (set_services sc
          (<[serviceKey := mkServiceContainer s newTopologyKeys]> (servicesMap sc))) in
        (sc, b :: bs)
  end.

Definition service_delete (sc : storageCache) (s : Service) : storageCache * list Broadcast :=
  let serviceKey := mkNN (Namespace (svc_meta s)) (Name (svc_meta s)) in
  let '(sc, bs) := resync (set_services sc (delete serviceKey (servicesMap sc))) in
  (sc, mkBroadcast serviceBroardcaster true Deleted (OService s) :: bs).

(** *** Endpoints and endpoint slices *)

Definition endpoints_add (sc : storageCache) (e : Endpoints) : storageCache * list Broadcast :=
  let '(m, evts) := res_add sc (endpointsMap sc) e in
  (set_endpoints sc m, broadcasts endpointsBroadcaster true OEndpoints evts).
Definition endpoints_update (sc : storageCache) (e : Endpoints) : storageCache * list Broadcast :=
  let '(m, evts) := res_update sc (endpointsMap sc) e in
  (set_endpoints sc m, broadcasts endpointsBroadcaster true OEndpoints evts).
Definition endpoints_delete (sc : storageCache) (e : Endpoints) : storageCache * list Broadcast :=
  let '(m, evts) := res_delete (endpointsMap sc) e in
  (set_endpoints sc m, broadcasts endpointsBroadcaster true OEndpoints evts).

Definition sliceV1_add (sc : storageCache) (e : EndpointSliceV1) : storageCache * list Broadcast :=
  let '(m, evts) := res_add sc (endpointSliceV1Map sc) e in
  (set_sliceV1 sc m, broadcasts endpointSliceV1Broardcaster false OSliceV1 evts).
Definition sliceV1_update (sc : storageCache) (e : EndpointSliceV1) : storageCache * list Broadcast :=
  let '(m, evts) := res_update sc (endpointSliceV1Map sc) e in
  (set_sliceV1 sc m, broadcasts endpointSliceV1Broardcaster false OSliceV1 evts).
Definition sliceV1_delete (sc : storageCache) (e : EndpointSliceV1) : storageCache * list Broadcast :=
  let '(m, evts) := res_delete (endpointSliceV1Map sc) e in
  (set_sliceV1 sc m, broadcasts endpointSliceV1Broardcaster false OSliceV1 evts).

Definition sliceV1Beta1_add (sc : storageCache) (e : EndpointSliceV1Beta1) : storageCache * list Broadcast :=
  let '(m, evts) := res_add sc (endpointSliceV1Beta1Map sc) e in
  (set_sliceV1Beta1 sc m, broadcasts endpointSliceV1Beta1Boardcaster true OSliceV1Beta1 evts).
Definition sliceV1Beta1_update (sc : storageCache) (e : EndpointSliceV1Beta1) : storageCache * list Broadcast :=
  let '(m, evts) := res_update sc (endpointSliceV1Beta1Map sc) e in
  (set_sliceV1Beta1 sc m, broadcasts endpointSliceV1Beta1Boardcaster true OSliceV1Beta1 evts).
Definition sliceV1Beta1_delete (sc : storageCache) (e : EndpointSliceV1Beta1) : storageCache * list Broadcast :=
  let '(m, evts) := res_delete (endpointSliceV1Beta1Map sc) e in
  (set_sliceV1Beta1 sc m, broadcasts endpointSliceV1Beta1Boardcaster true OSliceV1Beta1 evts).

(** *** The informer callbacks

    A callback whose argument is of another type returns at once. *)

Inductive Handler : Type :=
| nodeHandler | serviceHandler | endpointsHandler | endpointSliceV1Handler | endpointSliceV1Beta1Handler.

Definition OnAdd (h : Handler) (sc : storageCache) (obj : Object) : storageCache * list Broadcast :=
  match h, obj with
  | nodeHandler, ONode n => node_add sc n
  | serviceHandler, OService s => service_add sc s
  | endpointsHandler, OEndpoints e => endpoints_add sc e
  | endpointSliceV1Handler, OSliceV1 e => sliceV1_add sc e
  | endpointSliceV1Beta1Handler, OSliceV1Beta1 e => sliceV1Beta1_add sc e
  | _, _ => (sc, [])
  end.

Definition OnUpdate (h : Handler) (sc : storageCache) (oldObj newObj : Object) : storageCache * list Broadcast :=
  match h, newObj with
  | nodeHandler, ONode n => node_update sc n
  | serviceHandler, OService s => service_update sc s
  | endpointsHandler, OEndpoints newEps =>
      match oldObj with
      | OEndpoints oldEps =>
          if DeepEqual (eps_Subsets oldEps) (eps_Subsets newEps) then (sc, []) else endpoints_update sc newEps
      | _ => (sc, [])
      end
  | endpointSliceV1Handler, OSliceV1 e => sliceV1_update sc e
  | endpointSliceV1Beta1Handler, OSliceV1Beta1 e => sliceV1Beta1_update sc e
  | _, _ => (sc, [])
  end.

Definition OnDelete (h : Handler) (sc : storageCache) (obj : Object) : storageCache * list Broadcast :=
  match h, obj with
  | nodeHandler, ONode n => node_delete sc n
  | serviceHandler, OService s => service_delete sc s
  | endpointsHandler, OEndpoints e => endpoints_delete sc e
  | endpointSliceV1Handler, OSliceV1 e => sliceV1_delete sc e
  | endpointSliceV1Beta1Handler, OSliceV1Beta1 e => sliceV1Beta1_delete sc e
  | _, _ => (sc, [])
  end.

(** What can happen to the cache, and a run of it with its broadcasts. *)
Inductive op : Type :=
| op_add (h : Handler) (obj : Object)
| op_update (h : Handler) (oldObj newObj : Object)
| op_delete (h : Handler) (obj : Object)
| op_set_info (info : node_info)
| op_clear_info.

Definition run_op (sc : storageCache) (o : op) : storageCache * list Broadcast :=
  match o with
  | op_add h obj => OnAdd h sc obj
  | op_update h old new => OnUpdate h sc old new
  | op_delete h obj => OnDelete h sc obj
  | op_set_info info => SetLocalNodeInfo sc info
  | op_clear_info => (ClearLocalNodeInfo sc, [])
  end.

Fixpoint run (sc : storageCache) (ops : list op) : storageCache * list Broadcast :=
  match ops with
  | [] => (sc, [])
  | o :: ops =>
      let '(sc, b1) := run_op sc o in
      let '(sc, b2) := run sc ops in (sc, b1 ++ b2)
  end.

End Cache.

(** ** One resource: coherence and replay *)

Section ResourceLemmas.
Context `{R : GoRange} {E : Type} `{Prunable E} `{SemanticEq E}.
Implicit Types (m : gmap NamespacedName (container E)) (c : container E).

(** Every entry sits under its own name. *)
Definition res_keyed m : Prop :=
  forall k c, m !! k = Some c ->
    meta_key (meta_of (original c)) = k /\ meta_key (meta_of (modified c)) = k.

(** Every pruned object is, up to semantic equality, the pruning of its
    original with the current nodes and services and one of the given health
    informations. *)
Definition res_coherent (infos : list node_info) (sc : storageCache) m : Prop :=
  forall k c, m !! k = Some c ->
    Exists (fun i => DeepEqual (modified c) (pruned (set_info sc i) (original c)) = true) infos.

(** What a watcher holds after an event. *)
Definition apply_event (view : gmap NamespacedName E) (ev : event E) : gmap NamespacedName E :=
  match ev with
  | (Deleted, e) => delete (meta_key (meta_of e)) view
  | (_, e) => <[meta_key (meta_of e) := e]> view
  end.
Definition replay (view : gmap NamespacedName E) (evts : list (event E)) : gmap NamespacedName E :=
  fold_left apply_event evts view.

Definition viewed m : gmap NamespacedName E := modified <$> m.

Definition refresh (sc : storageCache) c : container E :=
  if DeepEqual (pruned sc (original c)) (modified c) then c
  else mkContainer (original c) (pruned sc (original c)).

Lemma res_coherent_mono infos infos' sc m : infos ⊆ infos' -> res_coherent infos sc m -> res_coherent infos' sc m.
Proof using Type.
  intros Hi Hm k c Hc. specialize (Hm k c Hc). rewrite Exists_exists in *. destruct Hm as (i & Hin & Hd). eauto.
Qed.

(** What was pruned with the current information. *)
Lemma pruned_now infos sc (x e : E) : localNodeInfo sc ∈ infos -> DeepEqual x (pruned sc e) = true ->
  Exists (fun i => DeepEqual x (pruned (set_info sc i) e) = true) infos.
Proof using Type. intros Hin Hd. apply Exists_exists. by exists (localNodeInfo sc). Qed.

Lemma pruned_key sc (e : E) : meta_key (meta_of (pruned sc e)) = meta_key (meta_of e).
Proof using Type. unfold pruned. by rewrite prune_meta. Qed.

Lemma rebuild_fold sc l m0 ev0 :
  NoDup l.*1 -> (forall k c, (k, c) ∈ l -> m0 !! k = Some c) ->
  exists m' evs, fold_left (rebuild_one sc) l (m0, ev0) = (m', ev0 ++ evs)
    /\ (forall k, m' !! k = if decide (k ∈ l.*1) then refresh sc <$> m0 !! k else m0 !! k)
    /\ (res_keyed m0 -> replay (viewed m0) evs = viewed m').
Proof using Type.
  revert m0 ev0. induction l as [|[k c] l IH]; intros m0 ev0 Hnd Hl.
  { exists m0, []. rewrite app_nil_r. split; [done|]. split; [|done]. intros k. by rewrite decide_False by set_solver. }
  apply NoDup_cons in Hnd as [Hk Hnd]. assert (m0 !! k = Some c) as Hkc by (apply Hl; set_solver).
  simpl fold_left. destruct (DeepEqual (pruned sc (original c)) (modified c)) eqn:Ed.
  - destruct (IH m0 ev0 Hnd) as (m' & evs & -> & Hm' & Hrep); [set_solver|].
    exists m', evs. split; [done|]. split; [|done]. intros k'. rewrite Hm'. simpl.
    destruct (decide (k' = k)) as [-> |Hne].
    + rewrite decide_False by done. rewrite decide_True by set_solver. rewrite Hkc. simpl. unfold refresh. by rewrite Ed.
    + apply decide_ext. set_solver.
  - set (c' := mkContainer (original c) (pruned sc (original c))).
    destruct (IH (<[k := c']> m0) (ev0 ++ [(Modified, pruned sc (original c))]) Hnd) as (m' & evs & -> & Hm' & Hrep).
    { intros k' c'' Hin. rewrite lookup_insert_ne; [apply Hl; set_solver|].
      intros ->. apply Hk. apply list_elem_of_fmap. by exists (k', c''). }
    exists m', ((Modified, pruned sc (original c)) :: evs). split; [by rewrite <- app_assoc|]. split.
    + intros k'. rewrite Hm'. simpl. destruct (decide (k' = k)) as [-> |Hne].
      * rewrite decide_False by done. rewrite decide_True by set_solver.
        rewrite lookup_insert_eq, Hkc. simpl. unfold refresh. by rewrite Ed.
      * rewrite lookup_insert_ne by done. apply decide_ext. set_solver.
    + intros Hkd. destruct (Hkd k c Hkc) as [Ho _]. simpl. rewrite pruned_key, Ho, <- Hrep.
      * unfold viewed. by rewrite fmap_insert.
      * intros k' d [[<- <-]|[_ Hd]]%lookup_insert_Some; [|by apply Hkd]. simpl. by rewrite pruned_key.
Qed.

Lemma rebuild_map_spec sc m : exists evts, rebuild_map sc m = (refresh sc <$> m, evts)
  /\ (res_keyed m -> replay (viewed m) evts = viewed (refresh sc <$> m)).
Proof using Type.
  unfold rebuild_map. destruct (rebuild_fold sc (go_range m) m []) as (m' & evs & Hf & Hm' & Hrep).
  { apply NoDup_go_range_fst. }
  { intros k c. apply elem_of_go_range. }
  assert (m' = refresh sc <$> m) as ->; [|by exists evs]. apply map_eq. intros k. rewrite Hm', lookup_fmap.
  case_decide as Hk; [done|]. destruct (m !! k) as [c|] eqn:Ec; [|done]. destruct Hk.
  apply list_elem_of_fmap. exists (k, c). split; [done|]. by apply elem_of_go_range.
Qed.

Lemma refresh_keyed sc m : res_keyed m -> res_keyed (refresh sc <$> m).
Proof using Type.
  intros Hm k c. rewrite lookup_fmap. intros (d & Hd & ->)%fmap_Some. destruct (Hm k d Hd).
  unfold refresh. case_match; [done|]. simpl. by rewrite pruned_key.
Qed.

Lemma refresh_coherent infos sc m : localNodeInfo sc ∈ infos -> res_coherent infos sc (refresh sc <$> m).
Proof using Type.
  intros Hin k c. rewrite lookup_fmap. intros (d & Hd & ->)%fmap_Some. apply pruned_now; [done|].
  unfold refresh. case_match; simpl; [by apply DeepEqual_sym|apply DeepEqual_refl].
Qed.

Lemma add_spec sc m (e : E) :
  let '(m', evts) := res_add sc m e in
  (res_keyed m -> res_keyed m') /\ (forall infos, localNodeInfo sc ∈ infos -> res_coherent infos sc m -> res_coherent infos sc m')
  /\ replay (viewed m) evts = viewed m'.
Proof using Type.
  unfold res_add. simpl. split; [|split].
  - intros Hm k c [[<- <-]|[_ Hc]]%lookup_insert_Some; [|by apply Hm]. simpl. by rewrite pruned_key.
  - intros infos Hin Hm k c [[<- <-]|[_ Hc]]%lookup_insert_Some; [|by eapply Hm].
    apply pruned_now; [done|apply DeepEqual_refl].
  - unfold viewed. by rewrite fmap_insert, pruned_key.
Qed.

Lemma update_spec sc m (e : E) :
  let '(m', evts) := res_update sc m e in
  (res_keyed m -> res_keyed m') /\ (forall infos, localNodeInfo sc ∈ infos -> res_coherent infos sc m -> res_coherent infos sc m')
  /\ (res_keyed m -> replay (viewed m) evts = viewed m').
Proof using Type.
  unfold res_update. destruct (m !! meta_key (meta_of e)) as [c|] eqn:Ec; [|done].
  split; [|split].
  - intros Hm k d [[<- <-]|[_ Hd]]%lookup_insert_Some; [|by apply Hm]. simpl. split; [done|].
    case_match; [by rewrite pruned_key|]. by apply Hm.
  - intros infos Hin Hm k d [[<- <-]|[_ Hd]]%lookup_insert_Some; [|by eapply Hm]. apply pruned_now; [done|]. simpl.
    destruct (DeepEqual (modified c) (pruned sc e)) eqn:Ed; simpl; [done|apply DeepEqual_refl].
  - intros Hm. unfold viewed. rewrite fmap_insert. simpl.
    destruct (DeepEqual (modified c) (pruned sc e)) eqn:Ed; simpl; [|by rewrite pruned_key].
    symmetry. apply insert_id. by rewrite lookup_fmap, Ec.
Qed.

Lemma delete_spec sc m (e : E) :
  let '(m', evts) := res_delete m e in
  (res_keyed m -> res_keyed m') /\ (forall infos, localNodeInfo sc ∈ infos -> res_coherent infos sc m -> res_coherent infos sc m')
  /\ (res_keyed m -> replay (viewed m) evts = viewed m').
Proof using Type.
  unfold res_delete. destruct (m !! meta_key (meta_of e)) as [c|] eqn:Ec; [|done].
  split; [|split].
  - intros Hm k d [_ Hd]%lookup_delete_Some. by apply Hm.
  - intros infos Hin Hm k d [_ Hd]%lookup_delete_Some. by eapply Hm.
  - intros Hm. simpl. destruct (Hm _ _ Ec) as [_ ->]. unfold viewed. by rewrite fmap_delete.
Qed.

(** Coherence survives a change the prunings do not see. *)
Lemma coherent_proper infos sc sc' m :
  hostName sc = hostName sc' -> wrapperInCluster sc = wrapperInCluster sc' ->
  serviceAutonomyEnhancementEnabled sc = serviceAutonomyEnhancementEnabled sc' ->
  same_nodes (nodesMap sc) (nodesMap sc') ->
  same_services (servicesMap sc) (servicesMap sc') -> res_coherent infos sc m -> res_coherent infos sc' m.
Proof using Type.
  intros Hh Hw Ha Hn Hs Hm k c Hc. eapply Exists_impl; [by apply (Hm k c)|]. intros i. unfold pruned. simpl.
  rewrite <- Hh, <- Hw, <- Ha.
  by rewrite <- (prune_proper _ (nodesMap sc) (nodesMap sc') (servicesMap sc) (servicesMap sc')).
Qed.

End ResourceLemmas.

(** ** The whole cache *)

Section CacheLemmas.
Context `{R : GoRange} `{SE1 : SemanticEq Endpoints} `{SE2 : SemanticEq EndpointSliceV1}
  `{SE3 : SemanticEq EndpointSliceV1Beta1}.
Context `{SE4 : SemanticEq (gslice EndpointSubset)}.

(** Containers hold what their object says. *)
Record containers_ok (sc : storageCache) : Prop := {
  nodes_ok : forall k c, nodesMap sc !! k = Some c ->
    meta_key (node_meta (node c)) = k /\ labels c = Labels (node_meta (node c));
  services_ok : forall k c, servicesMap sc !! k = Some c ->
    meta_key (svc_meta (svc c)) = k /\ keys c = getTopologyKeys (svc_meta (svc c));
  keyed_endpoints : res_keyed (endpointsMap sc);
  keyed_V1 : res_keyed (endpointSliceV1Map sc);
  keyed_V1Beta1 : res_keyed (endpointSliceV1Beta1Map sc)
}.

Record coherent (infos : list node_info) (sc : storageCache) : Prop := {
  coherent_endpoints : res_coherent infos sc (endpointsMap sc);
  coherent_V1 : res_coherent infos sc (endpointSliceV1Map sc);
  coherent_V1Beta1 : res_coherent infos sc (endpointSliceV1Beta1Map sc)
}.

Lemma coherent_mono infos infos' sc : infos ⊆ infos' -> coherent infos sc -> coherent infos' sc.
Proof using Type. intros Hi [? ? ?]. split; by eapply res_coherent_mono. Qed.

(** The three maps rebuilt. *)
Definition refreshed (sc : storageCache) : storageCache :=
  set_endpoints (set_sliceV1Beta1 (set_sliceV1 sc (refresh sc <$> endpointSliceV1Map sc))
    (refresh sc <$> endpointSliceV1Beta1Map sc)) (refresh sc <$> endpointsMap sc).

Lemma set_sliceV1_empty sc : size (endpointSliceV1Map sc) = 0%nat ->
  set_sliceV1 sc (refresh sc <$> endpointSliceV1Map sc) = sc.
Proof using Type. intros Hz%map_size_empty_inv. rewrite Hz, fmap_empty, <- Hz. by destruct sc. Qed.
Lemma set_sliceV1Beta1_empty sc : size (endpointSliceV1Beta1Map sc) = 0%nat ->
  set_sliceV1Beta1 sc (refresh sc <$> endpointSliceV1Beta1Map sc) = sc.
Proof using Type. intros Hz%map_size_empty_inv. rewrite Hz, fmap_empty, <- Hz. by destruct sc. Qed.
Lemma set_endpoints_empty sc : size (endpointsMap sc) = 0%nat ->
  set_endpoints sc (refresh sc <$> endpointsMap sc) = sc.
Proof using Type. intros Hz%map_size_empty_inv. rewrite Hz, fmap_empty, <- Hz. by destruct sc. Qed.

(** The stages of [resync]: an empty map needs no rebuilding. *)
Lemma resync_V1_spec sc : exists evts,
  resync_V1 sc = (set_sliceV1 sc (refresh sc <$> endpointSliceV1Map sc),
                  broadcasts endpointSliceV1Broardcaster false OSliceV1 evts)
  /\ (res_keyed (endpointSliceV1Map sc) ->
      replay (viewed (endpointSliceV1Map sc)) evts = viewed (refresh sc <$> endpointSliceV1Map sc)).
Proof using Type.
  unfold resync_V1, rebuildEndpointSliceV1Map. destruct (Nat.ltb_spec 0 (size (endpointSliceV1Map sc))).
  - destruct (rebuild_map_spec sc (endpointSliceV1Map sc)) as (evts & -> & Hr). by exists evts.
  - exists []. rewrite set_sliceV1_empty by lia. split; [done|].
    assert (endpointSliceV1Map sc = ∅) as -> by (apply map_size_empty_inv; lia). by rewrite fmap_empty.
Qed.

Lemma resync_V1Beta1_spec sc : exists evts,
  resync_V1Beta1 sc = (set_sliceV1Beta1 sc (refresh sc <$> endpointSliceV1Beta1Map sc),
                       broadcasts endpointSliceV1Broardcaster false OSliceV1Beta1 evts).
Proof using Type.
  unfold resync_V1Beta1, rebuildEndpointSliceV1Beta1Map, GetEndpointSliceV1Beta1.
  rewrite length_fmap, length_go_range. destruct (Nat.ltb_spec 0 (size (endpointSliceV1Beta1Map sc))).
  - destruct (rebuild_map_spec sc (endpointSliceV1Beta1Map sc)) as (evts & -> & Hr). by exists evts.
  - exists []. by rewrite set_sliceV1Beta1_empty by lia.
Qed.

Lemma resync_endpoints_spec sc : exists evts,
  resync_endpoints sc = (set_endpoints sc (refresh sc <$> endpointsMap sc),
                         broadcasts endpointsBroadcaster true OEndpoints evts)
  /\ (res_keyed (endpointsMap sc) ->
      replay (viewed (endpointsMap sc)) evts = viewed (refresh sc <$> endpointsMap sc)).
Proof using Type.
  unfold resync_endpoints, rebuildEndpointsMap. destruct (Nat.ltb_spec 0 (size (endpointsMap sc))).
  - destruct (rebuild_map_spec sc (endpointsMap sc)) as (evts & -> & Hr). by exists evts.
  - exists []. rewrite set_endpoints_empty by lia. split; [done|].
    assert (endpointsMap sc = ∅) as -> by (apply map_size_empty_inv; lia). by rewrite fmap_empty.
Qed.

Lemma resync_spec sc : exists e1 e2 e3,
  resync sc = (refreshed sc,
    broadcasts endpointSliceV1Broardcaster false OSliceV1 e1
    ++ broadcasts endpointSliceV1Broardcaster false OSliceV1Beta1 e2
    ++ broadcasts endpointsBroadcaster true OEndpoints e3)
  /\ (res_keyed (endpointSliceV1Map sc) ->
      replay (viewed (endpointSliceV1Map sc)) e1 = viewed (endpointSliceV1Map (refreshed sc)))
  /\ (res_keyed (endpointsMap sc) ->
      replay (viewed (endpointsMap sc)) e3 = viewed (endpointsMap (refreshed sc))).
Proof using Type.
  unfold resync. destruct (resync_V1_spec sc) as (e1 & -> & R1).
  destruct (resync_V1Beta1_spec (set_sliceV1 sc (refresh sc <$> endpointSliceV1Map sc))) as (e2 & ->).
  edestruct resync_endpoints_spec as (e3 & -> & R3). by exists e1, e2, e3.
Qed.

Lemma refreshed_containers sc : containers_ok sc -> containers_ok (refreshed sc).
Proof using Type. intros [Hn Hs He H1 Hb]. split; simpl; try done; by apply refresh_keyed. Qed.

Lemma refreshed_coherent infos sc : localNodeInfo sc ∈ infos -> coherent infos (refreshed sc).
Proof using Type. intros Hin. by split; apply (refresh_coherent infos sc). Qed.

Lemma resync_ok sc : containers_ok sc ->
  containers_ok (fst (resync sc)) /\ localNodeInfo (fst (resync sc)) = localNodeInfo sc
  /\ forall infos, localNodeInfo sc ∈ infos -> coherent infos (fst (resync sc)).
Proof using Type.
  intros Hsc. destruct (resync_spec sc) as (e1 & e2 & e3 & -> & _).
  split; [by apply refreshed_containers|]. split; [done|]. intros infos. apply refreshed_coherent.
Qed.

(** ** The invariant *)

(** A step keeps the containers well formed, and coherence with any
    informations among which is the current one. *)
Definition preserves (sc sc' : storageCache) : Prop :=
  containers_ok sc -> containers_ok sc'
  /\ forall infos, localNodeInfo sc' ∈ infos -> coherent infos sc -> coherent infos sc'.

Lemma preserves_refl sc : preserves sc sc.
Proof using Type. by intros H. Qed.

Lemma resync_preserves sc0 sc : (containers_ok sc0 -> containers_ok sc) -> preserves sc0 (fst (resync sc)).
Proof using Type.
  intros H Hc. destruct (resync_ok sc (H Hc)) as (? & -> & Hr). split; [done|]. intros infos Hin _. by apply Hr.
Qed.

Lemma NewStorageCache_ok h w a s infos :
  containers_ok (NewStorageCache h w a s) /\ coherent infos (NewStorageCache h w a s).
Proof using Type. split; split; intros k c; simpl; by rewrite lookup_empty. Qed.

Lemma containers_set_nodes sc m :
  (forall k c, m !! k = Some c -> meta_key (node_meta (node c)) = k /\ labels c = Labels (node_meta (node c))) ->
  containers_ok sc -> containers_ok (set_nodes sc m).
Proof using Type. intros Hm [Hn Hs He H1 Hb]. by split. Qed.

Lemma containers_set_services sc m :
  (forall k c, m !! k = Some c -> meta_key (svc_meta (svc c)) = k /\ keys c = getTopologyKeys (svc_meta (svc c))) ->
  containers_ok sc -> containers_ok (set_services sc m).
Proof using Type. intros Hm [Hn Hs He H1 Hb]. by split. Qed.

Lemma node_add_ok sc n : preserves sc (fst (node_add sc n)).
Proof using Type.
  apply resync_preserves. intros Hc. apply containers_set_nodes; [|done].
  intros k c [[<- <-]|[_ H]]%lookup_insert_Some; [done|]. by apply Hc.
Qed.

Lemma node_delete_ok sc n : preserves sc (fst (node_delete sc n)).
Proof using Type.
  apply resync_preserves. intros Hc. apply containers_set_nodes; [|done].
  intros k c [_ H]%lookup_delete_Some. by apply Hc.
Qed.

Lemma same_nodes_update (m : nodes_map) k c c' : m !! k = Some c -> node_view c = node_view c' ->
  same_nodes m (<[k := c']> m).
Proof using Type.
  intros Hk Hv. unfold same_nodes. rewrite fmap_insert, <- Hv. symmetry. apply insert_id. by rewrite lookup_fmap, Hk.
Qed.

Lemma same_services_update (m : services_map) k c c' : m !! k = Some c -> keys c = keys c' ->
  same_services m (<[k := c']> m).
Proof using Type.
  intros Hk Hv. unfold same_services. rewrite fmap_insert, <- Hv. symmetry. apply insert_id. by rewrite lookup_fmap, Hk.
Qed.

Lemma node_update_ok sc n : preserves sc (fst (node_update sc n)).
Proof using Type.
  unfold node_update.
  destruct (nodesMap sc !! mkNN (Namespace (node_meta n)) (Name (node_meta n))) as [c|] eqn:Ec;
    [|apply preserves_refl]. case_bool_decide as Hd.
  - intros Hc. destruct (nodes_ok sc Hc _ _ Ec) as [Hk Hl]. split.
    + apply containers_set_nodes; [|done]. intros k d [[<- <-]|[_ H]]%lookup_insert_Some; [done|]. by apply Hc.
    + assert (same_nodes (nodesMap sc) (<[mkNN (Namespace (node_meta n)) (Name (node_meta n)) := mkNodeContainer n (labels c)]> (nodesMap sc))) as Hs.
      { eapply same_nodes_update; [done|]. unfold node_view. simpl. f_equal.
        unfold meta_key in Hk. congruence. }
      intros infos _ [Ce C1 Cb]. split; by apply (coherent_proper infos sc).
  - destruct (resync _) as [sc' bs] eqn:Er. simpl. rewrite <- (f_equal fst Er : _ = sc').
    apply resync_preserves. intros Hc. apply containers_set_nodes; [|done].
    intros k d [[<- <-]|[_ H]]%lookup_insert_Some; [done|]. by apply Hc.
Qed.

Lemma service_add_ok sc s : preserves sc (fst (service_add sc s)).
Proof using Type.
  unfold service_add. destruct (resync _) as [sc' bs] eqn:Er. simpl.
  rewrite <- (f_equal fst Er : _ = sc'). apply resync_preserves. intros Hc. apply containers_set_services; [|done].
  intros k c [[<- <-]|[_ H]]%lookup_insert_Some; [done|]. by apply Hc.
Qed.

Lemma service_delete_ok sc s : preserves sc (fst (service_delete sc s)).
Proof using Type.
  unfold service_delete. destruct (resync _) as [sc' bs] eqn:Er. simpl.
  rewrite <- (f_equal fst Er : _ = sc'). apply resync_preserves. intros Hc. apply containers_set_services; [|done].
  intros k c [_ H]%lookup_delete_Some. by apply Hc.
Qed.

Lemma service_update_ok sc s : preserves sc (fst (service_update sc s)).
Proof using Type.
  unfold service_update.
  destruct (servicesMap sc !! mkNN (Namespace (svc_meta s)) (Name (svc_meta s))) as [c|] eqn:Ec;
    [|apply preserves_refl]. case_bool_decide as Hd.
  - intros Hc. split.
    + apply containers_set_services; [|done]. intros k d [[<- <-]|[_ H]]%lookup_insert_Some; [done|]. by apply Hc.
    + pose proof (same_services_update (servicesMap sc) _ c (mkServiceContainer s (keys c)) Ec eq_refl) as Hs.
      intros infos _ [Ce C1 Cb]. split; by apply (coherent_proper infos sc).
  - destruct (resync _) as [sc' bs] eqn:Er. simpl. rewrite <- (f_equal fst Er : _ = sc').
    apply resync_preserves. intros Hc. apply containers_set_services; [|done].
    intros k d [[<- <-]|[_ H]]%lookup_insert_Some; [done|]. by apply Hc.
Qed.

(** A change of one resource map. *)
Lemma set_endpoints_ok sc m : (res_keyed (endpointsMap sc) -> res_keyed m) ->
  (forall infos, localNodeInfo sc ∈ infos -> res_coherent infos sc (endpointsMap sc) -> res_coherent infos sc m) ->
  preserves sc (set_endpoints sc m).
Proof using Type. intros Hk Hm [? ? ? ? ?]. split; [by split; auto|]. intros infos Hin [? ? ?]. by split; try done; apply (Hm infos Hin). Qed.
Lemma set_sliceV1_ok sc m : (res_keyed (endpointSliceV1Map sc) -> res_keyed m) ->
  (forall infos, localNodeInfo sc ∈ infos -> res_coherent infos sc (endpointSliceV1Map sc) -> res_coherent infos sc m) ->
  preserves sc (set_sliceV1 sc m).
Proof using Type. intros Hk Hm [? ? ? ? ?]. split; [by split; auto|]. intros infos Hin [? ? ?]. by split; try done; apply (Hm infos Hin). Qed.
Lemma set_sliceV1Beta1_ok sc m : (res_keyed (endpointSliceV1Beta1Map sc) -> res_keyed m) ->
  (forall infos, localNodeInfo sc ∈ infos -> res_coherent infos sc (endpointSliceV1Beta1Map sc) -> res_coherent infos sc m) ->
  preserves sc (set_sliceV1Beta1 sc m).
Proof using Type. intros Hk Hm [? ? ? ? ?]. split; [by split; auto|]. intros infos Hin [? ? ?]. by split; try done; apply (Hm infos Hin). Qed.

Lemma endpoints_ok sc e : preserves sc (fst (endpoints_add sc e)) /\ preserves sc (fst (endpoints_update sc e))
  /\ preserves sc (fst (endpoints_delete sc e)).
Proof using Type.
  unfold endpoints_add, endpoints_update, endpoints_delete.
  pose proof (add_spec sc (endpointsMap sc) e). pose proof (update_spec sc (endpointsMap sc) e).
  pose proof (delete_spec sc (endpointsMap sc) e).
  destruct (res_add _ _ _), (res_update _ _ _), (res_delete _ _). split; [|split]; apply set_endpoints_ok; naive_solver.
Qed.

Lemma sliceV1_ok sc e : preserves sc (fst (sliceV1_add sc e)) /\ preserves sc (fst (sliceV1_update sc e))
  /\ preserves sc (fst (sliceV1_delete sc e)).
Proof using Type.
  unfold sliceV1_add, sliceV1_update, sliceV1_delete.
  pose proof (add_spec sc (endpointSliceV1Map sc) e). pose proof (update_spec sc (endpointSliceV1Map sc) e).
  pose proof (delete_spec sc (endpointSliceV1Map sc) e).
  destruct (res_add _ _ _), (res_update _ _ _), (res_delete _ _). split; [|split]; apply set_sliceV1_ok; naive_solver.
Qed.

Lemma sliceV1Beta1_ok sc e : preserves sc (fst (sliceV1Beta1_add sc e))
  /\ preserves sc (fst (sliceV1Beta1_update sc e)) /\ preserves sc (fst (sliceV1Beta1_delete sc e)).
Proof using Type.
  unfold sliceV1Beta1_add, sliceV1Beta1_update, sliceV1Beta1_delete.
  pose proof (add_spec sc (endpointSliceV1Beta1Map sc) e). pose proof (update_spec sc (endpointSliceV1Beta1Map sc) e).
  pose proof (delete_spec sc (endpointSliceV1Beta1Map sc) e).
  destruct (res_add _ _ _), (res_update _ _ _), (res_delete _ _). split; [|split]; apply set_sliceV1Beta1_ok; naive_solver.
Qed.

Lemma set_info_ok sc info : preserves sc (fst (SetLocalNodeInfo sc info)).
Proof using Type. apply resync_preserves. intros [? ? ? ? ?]. by split. Qed.

Lemma clear_info_ok sc : preserves sc (ClearLocalNodeInfo sc).
Proof using Type. intros [? ? ? ? ?]. split; [by split|]. by intros infos _ [? ? ?]. Qed.

Lemma run_op_preserves sc o : preserves sc (fst (run_op sc o)).
Proof using Type.
  pose proof (endpoints_ok sc) as He. pose proof (sliceV1_ok sc) as H1. pose proof (sliceV1Beta1_ok sc) as Hb.
  destruct o as [h obj|h old new|h obj|info|]; simpl; [| | |by apply set_info_ok|by apply clear_info_ok].
  - destruct h, obj; simpl; try apply preserves_refl; [apply node_add_ok|apply service_add_ok|apply He|apply H1|apply Hb].
  - destruct h, new; simpl; try apply preserves_refl; [apply node_update_ok|apply service_update_ok| |apply H1|apply Hb].
    destruct old; try apply preserves_refl. case_match; [apply preserves_refl|apply He].
  - destruct h, obj; simpl; try apply preserves_refl; [apply node_delete_ok|apply service_delete_ok|apply He|apply H1|apply Hb].
Qed.

Lemma run_op_containers sc o : containers_ok sc -> containers_ok (fst (run_op sc o)).
Proof using Type. apply run_op_preserves. Qed.

(** *** The health information over a run *)

Lemma resync_info sc : localNodeInfo (fst (resync sc)) = localNodeInfo sc.
Proof using Type. by destruct (resync_spec sc) as (e1 & e2 & e3 & -> & _). Qed.

(** Only the health poller changes the health information. *)
Lemma run_op_info sc o : localNodeInfo (fst (run_op sc o)) =
  match o with op_set_info info => info | op_clear_info => ∅ | _ => localNodeInfo sc end.
Proof using Type.
  destruct o as [h obj|h old new|h obj|info|]; [| | |apply resync_info|done];
    [destruct h, obj|destruct h, new|destruct h, obj]; try done; cbn;
    unfold node_add, node_update, node_delete, service_add, service_update, service_delete,
      endpoints_add, endpoints_update, endpoints_delete, sliceV1_add, sliceV1_update, sliceV1_delete,
      sliceV1Beta1_add, sliceV1Beta1_update, sliceV1Beta1_delete;
    repeat (match goal with
            | |- context [resync ?x] =>
                let H := fresh in pose proof (resync_info x) as H; destruct (resync x); simpl in *
            | |- context [match ?x with _ => _ end] => destruct x
            end; try done).
Qed.

(** The last report of the health poller, and whether it cleared the
    information afterwards. *)
Definition report_step (st : node_info * bool) (o : op) : node_info * bool :=
  match o with op_set_info info => (info, false) | op_clear_info => (fst st, true) | _ => st end.
Definition reports (ops : list op) : node_info * bool := fold_left report_step ops (∅, false).
Definition reported (ops : list op) : node_info := fst (reports ops).
Definition cleared_since (ops : list op) : bool := snd (reports ops).

(** The state of the cache against the reports: the information is the last
    report or cleared, and every object was pruned with the information now or
    with the last report. *)
Record reports_ok (st : node_info * bool) (sc : storageCache) : Prop := {
  reports_containers : containers_ok sc;
  reports_info : localNodeInfo sc = if snd st then ∅ else fst st;
  reports_coherent : coherent [localNodeInfo sc; fst st] sc
}.

Lemma run_op_reports st sc o : reports_ok st sc -> reports_ok (report_step st o) (fst (run_op sc o)).
Proof using Type.
  intros [Hc Hi Hco]. pose proof (run_op_info sc o) as Ho. destruct (run_op_preserves sc o Hc) as [Hc' Hp].
  destruct o as [h obj|h old new|h obj|info|]; (split; [done|by rewrite Ho|]); rewrite Ho in *.
  1-3: apply Hp; [by left|done].
  - apply resync_ok; [by destruct Hc; split|by left].
  - apply Hp; [by left|]. eapply coherent_mono; [|exact Hco]. rewrite Hi. simpl. destruct (snd st); set_solver.
Qed.

Lemma run_reports st sc ops : reports_ok st sc -> reports_ok (fold_left report_step ops st) (fst (run sc ops)).
Proof using Type.
  revert st sc. induction ops as [|o ops IH]; intros st sc Hok; [done|]. simpl.
  apply (run_op_reports _ _ o) in Hok. destruct (run_op sc o) as [sc1 b1].
  apply IH in Hok. simpl in Hok. by destruct (run sc1 ops).
Qed.

Lemma run_new h w a s ops : reports_ok (reports ops) (fst (run (NewStorageCache h w a s) ops)).
Proof using Type.
  apply run_reports. destruct (NewStorageCache_ok h w a s [∅; ∅]). by split.
Qed.

(** ** Watchers *)

(** What the watchers of each channel take from it: the events of their own
    type.  An object of another type, such as the v1beta1 slices a resync puts
    on the v1 channel, is skipped, as a reflector does with an object it does
    not expect; [carries] says which channels carry which objects. *)
Definition carries (b : Broadcast) : bool :=
  match b_chan b, b_object b with
  | nodeBroadcaster, ONode _ | serviceBroardcaster, OService _ | endpointsBroadcaster, OEndpoints _
  | endpointSliceV1Broardcaster, (OSliceV1 _ | OSliceV1Beta1 _)
  | endpointSliceV1Beta1Boardcaster, OSliceV1Beta1 _ => true
  | _, _ => false
  end.
Definition seen_endpoints (bs : list Broadcast) : list (event Endpoints) :=
  omap (fun b => match b_chan b, b_object b with
                 | endpointsBroadcaster, OEndpoints e => Some (b_type b, e)
                 | _, _ => None
                 end) bs.
Definition seen_V1 (bs : list Broadcast) : list (event EndpointSliceV1) :=
  omap (fun b => match b_chan b, b_object b with
                 | endpointSliceV1Broardcaster, OSliceV1 e => Some (b_type b, e)
                 | _, _ => None
                 end) bs.
Definition seen_V1Beta1 (bs : list Broadcast) : list (event EndpointSliceV1Beta1) :=
  omap (fun b => match b_chan b, b_object b with
                 | endpointSliceV1Beta1Boardcaster, OSliceV1Beta1 e => Some (b_type b, e)
                 | _, _ => None
                 end) bs.

Lemma seen_endpoints_broadcasts d evts : seen_endpoints (broadcasts endpointsBroadcaster d OEndpoints evts) = evts.
Proof using Type. induction evts as [|[t e] evts IH]; [done|]. simpl. by rewrite IH. Qed.
Lemma seen_V1_broadcasts d evts : seen_V1 (broadcasts endpointSliceV1Broardcaster d OSliceV1 evts) = evts.
Proof using Type. induction evts as [|[t e] evts IH]; [done|]. simpl. by rewrite IH. Qed.
Lemma seen_endpoints_other {E : Type} c d (w : E -> Object) evts : c <> endpointsBroadcaster ->
  seen_endpoints (broadcasts c d w evts) = [].
Proof using Type. intros Hc. induction evts as [|[t e] evts IH]; [done|]. simpl. by destruct c. Qed.
Lemma seen_V1_other {E : Type} c d (w : E -> Object) evts :
  (c <> endpointSliceV1Broardcaster \/ forall e e', w e <> OSliceV1 e') -> seen_V1 (broadcasts c d w evts) = [].
Proof using Type.
  intros Hc. induction evts as [|[t e] evts IH]; [done|]. simpl.
  destruct Hc as [Hc|Hw]; [by destruct c|]. destruct c; try done. destruct (w e) eqn:Ew; try done. by apply Hw in Ew.
Qed.

Lemma seen_V1Beta1_other {E : Type} c d (w : E -> Object) evts : c <> endpointSliceV1Beta1Boardcaster ->
  seen_V1Beta1 (broadcasts c d w evts) = [].
Proof using Type. intros Hc. induction evts as [|[t e] evts IH]; [done|]. simpl. by destruct c. Qed.

Lemma carries_app b1 b2 : forallb carries (b1 ++ b2) = forallb carries b1 && forallb carries b2.
Proof using Type. apply forallb_app. Qed.

(** The broadcasts of one resource. *)
Lemma carries_broadcasts {E : Type} c d (w : E -> Object) evts :
  (forall t e, carries (mkBroadcast c d t (w e)) = true) -> forallb carries (broadcasts c d w evts) = true.
Proof using Type. intros Hw. induction evts as [|[t e] evts IH]; [done|]. simpl. by rewrite Hw, IH. Qed.

Lemma resync_carries sc : forallb carries (snd (resync sc)) = true.
Proof using Type.
  destruct (resync_spec sc) as (e1 & e2 & e3 & -> & _). simpl. by rewrite !carries_app, !carries_broadcasts.
Qed.

Lemma run_op_carries sc o : forallb carries (snd (run_op sc o)) = true.
Proof using Type.
  destruct o as [h obj|h old new|h obj|info|]; [| | |apply resync_carries|done];
    [destruct h, obj|destruct h, new|destruct h, obj]; try done; cbn;
    unfold node_add, node_update, node_delete, service_add, service_update, service_delete,
      endpoints_add, endpoints_update, endpoints_delete, sliceV1_add, sliceV1_update, sliceV1_delete,
      sliceV1Beta1_add, sliceV1Beta1_update, sliceV1Beta1_delete;
    repeat (match goal with
            | |- context [resync ?x] =>
                let H := fresh in pose proof (resync_carries x) as H; destruct (resync x); simpl in *
            | |- context [match ?x with _ => _ end] => destruct x
            end; simpl; rewrite ?carries_app, ?carries_broadcasts by done; try done;
            try (match goal with H : forallb carries _ = true |- _ => by rewrite H end)).
Qed.

Lemma run_carries sc ops : forallb carries (snd (run sc ops)) = true.
Proof using Type.
  revert sc. induction ops as [|o ops IH]; intros sc; [done|]. simpl. pose proof (run_op_carries sc o) as H.
  destruct (run_op sc o) as [sc1 b1]. specialize (IH sc1). destruct (run sc1 ops). simpl in *. by rewrite carries_app, H, IH.
Qed.

Lemma seen_endpoints_app b1 b2 : seen_endpoints (b1 ++ b2) = seen_endpoints b1 ++ seen_endpoints b2.
Proof using Type. apply omap_app. Qed.
Lemma seen_V1_app b1 b2 : seen_V1 (b1 ++ b2) = seen_V1 b1 ++ seen_V1 b2.
Proof using Type. apply omap_app. Qed.

(** The watchers' views follow one step of the cache. *)
Definition follows (sc sc' : storageCache) (bs : list Broadcast) : Prop :=
  replay (viewed (endpointsMap sc)) (seen_endpoints bs) = viewed (endpointsMap sc')
  /\ replay (viewed (endpointSliceV1Map sc)) (seen_V1 bs) = viewed (endpointSliceV1Map sc').

(** Broadcasts on other channels and changes of other maps do not matter. *)
Lemma follows_extra sc0 sc sc' pre bs post :
  seen_endpoints pre = [] -> seen_V1 pre = [] -> seen_endpoints post = [] -> seen_V1 post = [] ->
  endpointsMap sc0 = endpointsMap sc -> endpointSliceV1Map sc0 = endpointSliceV1Map sc ->
  follows sc sc' bs -> follows sc0 sc' (pre ++ bs ++ post).
Proof using Type.
  intros H1 H2 H3 H4 He Hs [F1 F2]. unfold follows. rewrite !seen_endpoints_app, !seen_V1_app, H1, H2, H3, H4.
  simpl. rewrite !app_nil_r, He, Hs. done.
Qed.

Lemma resync_follows_set sc0 sc pre post :
  seen_endpoints pre = [] -> seen_V1 pre = [] -> seen_endpoints post = [] -> seen_V1 post = [] ->
  endpointsMap sc0 = endpointsMap sc -> endpointSliceV1Map sc0 = endpointSliceV1Map sc ->
  res_keyed (endpointsMap sc0) -> res_keyed (endpointSliceV1Map sc0) ->
  let '(sc', bs) := resync sc in follows sc0 sc' (pre ++ bs ++ post).
Proof using Type.
  intros H1 H2 H3 H4 He Hs Ke K1. destruct (resync_spec sc) as (e1 & e2 & e3 & -> & R1 & R3).
  apply follows_extra with sc; try done. unfold follows. rewrite !seen_endpoints_app, !seen_V1_app.
  rewrite seen_endpoints_broadcasts, seen_V1_broadcasts, !seen_endpoints_other, !seen_V1_other by naive_solver.
  simpl. rewrite app_nil_r. split; [apply R3; by rewrite <- He|apply R1; by rewrite <- Hs].
Qed.

Lemma follows_none sc sc' : endpointsMap sc = endpointsMap sc' -> endpointSliceV1Map sc = endpointSliceV1Map sc' ->
  forall bs, seen_endpoints bs = [] -> seen_V1 bs = [] -> follows sc sc' bs.
Proof using Type. intros He Hs bs H1 H2. unfold follows. by rewrite H1, H2, He, Hs. Qed.

Lemma follows_endpoints sc m evts d : replay (viewed (endpointsMap sc)) evts = viewed m ->
  follows sc (set_endpoints sc m) (broadcasts endpointsBroadcaster d OEndpoints evts).
Proof using Type.
  intros Hr. unfold follows. rewrite seen_endpoints_broadcasts, seen_V1_other by naive_solver. done.
Qed.

Lemma follows_sliceV1 sc m evts d : replay (viewed (endpointSliceV1Map sc)) evts = viewed m ->
  follows sc (set_sliceV1 sc m) (broadcasts endpointSliceV1Broardcaster d OSliceV1 evts).
Proof using Type.
  intros Hr. unfold follows. rewrite seen_V1_broadcasts, seen_endpoints_other by naive_solver. done.
Qed.

Lemma follows_sliceV1Beta1 sc m evts d :
  follows sc (set_sliceV1Beta1 sc m) (broadcasts endpointSliceV1Beta1Boardcaster d OSliceV1Beta1 evts).
Proof using Type. apply follows_none; try done; [by apply seen_endpoints_other|apply seen_V1_other; by left]. Qed.

Lemma node_handlers_follow sc n : containers_ok sc ->
  (let '(sc', bs) := node_add sc n in follows sc sc' bs)
  /\ (let '(sc', bs) := node_update sc n in follows sc sc' bs)
  /\ (let '(sc', bs) := node_delete sc n in follows sc sc' bs).
Proof using Type.
  intros [_ _ Ke K1 _]. unfold node_add, node_update, node_delete.
  assert (forall m, let '(sc', bs) := resync (set_nodes sc m) in follows sc sc' bs) as Hr.
  { intros m. pose proof (resync_follows_set sc (set_nodes sc m) [] []) as H.
    destruct (resync _) as [sc' bs]. rewrite app_nil_r in H. by apply H. }
  split; [apply Hr|split; [|apply Hr]]. destruct (nodesMap sc !! _); [|by apply follows_none].
  case_bool_decide; [by apply follows_none|].
  pose proof (resync_follows_set sc (set_nodes sc (<[mkNN (Namespace (node_meta n)) (Name (node_meta n)) :=
    mkNodeContainer n (Labels (node_meta n))]> (nodesMap sc))) [] [mkBroadcast nodeBroadcaster true Modified (ONode n)]) as H'.
  destruct (resync _) as [sc' bs]. by apply H'.
Qed.

Lemma service_handlers_follow sc s : containers_ok sc ->
  (let '(sc', bs) := service_add sc s in follows sc sc' bs)
  /\ (let '(sc', bs) := service_update sc s in follows sc sc' bs)
  /\ (let '(sc', bs) := service_delete sc s in follows sc sc' bs).
Proof using Type.
  intros [_ _ Ke K1 _]. unfold service_add, service_update, service_delete.
  assert (forall m t, let '(sc', bs) := resync (set_services sc m) in
            follows sc sc' (mkBroadcast serviceBroardcaster true t (OService s) :: bs)) as Hr.
  { intros m t. pose proof (resync_follows_set sc (set_services sc m)
      [mkBroadcast serviceBroardcaster true t (OService s)] []) as H.
    destruct (resync _) as [sc' bs]. rewrite app_nil_r in H. by apply H. }
  split; [|split].
  - specialize (Hr (<[mkNN (Namespace (svc_meta s)) (Name (svc_meta s)) :=
      mkServiceContainer s (getTopologyKeys (svc_meta s))]> (servicesMap sc)) Added). by destruct (resync _).
  - destruct (servicesMap sc !! _) as [c|]; [|by apply follows_none]. case_bool_decide; [by apply follows_none|].
    specialize (Hr (<[mkNN (Namespace (svc_meta s)) (Name (svc_meta s)) :=
      mkServiceContainer s (getTopologyKeys (svc_meta s))]> (servicesMap sc)) Modified). by destruct (resync _).
  - specialize (Hr (delete (mkNN (Namespace (svc_meta s)) (Name (svc_meta s))) (servicesMap sc)) Deleted).
    by destruct (resync _).
Qed.

Lemma endpoint_handlers_follow sc : containers_ok sc ->
  (forall e, (let '(sc', bs) := endpoints_add sc e in follows sc sc' bs)
    /\ (let '(sc', bs) := endpoints_update sc e in follows sc sc' bs)
    /\ (let '(sc', bs) := endpoints_delete sc e in follows sc sc' bs))
  /\ (forall e, (let '(sc', bs) := sliceV1_add sc e in follows sc sc' bs)
    /\ (let '(sc', bs) := sliceV1_update sc e in follows sc sc' bs)
    /\ (let '(sc', bs) := sliceV1_delete sc e in follows sc sc' bs))
  /\ (forall e, (let '(sc', bs) := sliceV1Beta1_add sc e in follows sc sc' bs)
    /\ (let '(sc', bs) := sliceV1Beta1_update sc e in follows sc sc' bs)
    /\ (let '(sc', bs) := sliceV1Beta1_delete sc e in follows sc sc' bs)).
Proof using Type.
  intros [_ _ Ke K1 _]. split; [|split]; intros e.
  - unfold endpoints_add, endpoints_update, endpoints_delete.
    pose proof (add_spec sc (endpointsMap sc) e) as Ha. pose proof (update_spec sc (endpointsMap sc) e) as Hu.
    pose proof (delete_spec sc (endpointsMap sc) e) as Hd. destruct (res_add _ _ _), (res_update _ _ _), (res_delete _ _).
    split; [|split]; apply follows_endpoints; naive_solver.
  - unfold sliceV1_add, sliceV1_update, sliceV1_delete.
    pose proof (add_spec sc (endpointSliceV1Map sc) e) as Ha. pose proof (update_spec sc (endpointSliceV1Map sc) e) as Hu.
    pose proof (delete_spec sc (endpointSliceV1Map sc) e) as Hd. destruct (res_add _ _ _), (res_update _ _ _), (res_delete _ _).
    split; [|split]; apply follows_sliceV1; naive_solver.
  - unfold sliceV1Beta1_add, sliceV1Beta1_update, sliceV1Beta1_delete.
    destruct (res_add _ _ _), (res_update _ _ _), (res_delete _ _).
    split; [|split]; apply follows_sliceV1Beta1.
Qed.

Lemma run_op_follows sc o : containers_ok sc -> let '(sc', bs) := run_op sc o in follows sc sc' bs.
Proof using Type.
  intros Hc. pose proof (endpoint_handlers_follow sc Hc) as (He & H1 & Hb).
  pose proof (fun n => node_handlers_follow sc n Hc) as Hn. pose proof (fun s => service_handlers_follow sc s Hc) as Hs.
  destruct o as [h obj|h old new|h obj|info|]; cbn [run_op].
  - destruct h, obj; cbn [OnAdd OnDelete]; 
      lazymatch goal with
      | |- context [node_add] => exact (proj1 (Hn _))
      | |- context [service_add] => exact (proj1 (Hs _))
      | |- context [endpoints_add] => exact (proj1 (He _))
      | |- context [sliceV1_add] => exact (proj1 (H1 _))
      | |- context [sliceV1Beta1_add] => exact (proj1 (Hb _))
      | |- _ => by apply follows_none
      end.
  - destruct h, new; cbn [OnUpdate]; 
      lazymatch goal with
      | |- context [node_update] => exact (proj1 (proj2 (Hn _)))
      | |- context [service_update] => exact (proj1 (proj2 (Hs _)))
      | |- context [endpoints_update] => idtac
      | |- context [sliceV1_update] => exact (proj1 (proj2 (H1 _)))
      | |- context [sliceV1Beta1_update] => exact (proj1 (proj2 (Hb _)))
      | |- _ => by apply follows_none
      end.
    destruct old; try (by apply follows_none). destruct (DeepEqual _ _); [by apply follows_none|apply He].
  - destruct h, obj; cbn [OnAdd OnDelete]; 
      lazymatch goal with
      | |- context [node_delete] => exact (proj2 (proj2 (Hn _)))
      | |- context [service_delete] => exact (proj2 (proj2 (Hs _)))
      | |- context [endpoints_delete] => exact (proj2 (proj2 (He _)))
      | |- context [sliceV1_delete] => exact (proj2 (proj2 (H1 _)))
      | |- context [sliceV1Beta1_delete] => exact (proj2 (proj2 (Hb _)))
      | |- _ => by apply follows_none
      end.
  - destruct Hc as [_ _ Ke K1 _]. pose proof (resync_follows_set sc (set_info sc info) [] []) as H.
    unfold SetLocalNodeInfo. destruct (resync _) as [sc' bs]. rewrite app_nil_r in H. by apply H.
  - by apply follows_none.
Qed.

Lemma replay_app {E : Type} `{Prunable E} (v : gmap NamespacedName E) e1 e2 :
  replay v (e1 ++ e2) = replay (replay v e1) e2.
Proof using Type. apply fold_left_app. Qed.

Lemma run_follows sc ops : containers_ok sc -> let '(sc', bs) := run sc ops in follows sc sc' bs.
Proof using Type.
  revert sc. induction ops as [|o ops IH]; intros sc Hc; [by apply follows_none|]. simpl.
  pose proof (run_op_follows sc o Hc) as F1. pose proof (run_op_containers sc o Hc) as Hc1.
  destruct (run_op sc o) as [sc1 b1]. specialize (IH sc1 Hc1). destruct (run sc1 ops) as [sc' b2].
  destruct F1 as [Fe1 Fs1], IH as [Fe2 Fs2]. unfold follows.
  rewrite seen_endpoints_app, seen_V1_app, !replay_app, Fe1, Fs1. done.
Qed.

End CacheLemmas.

(** ** Properties *)

(** A pruning function at the arguments the cache passes. *)
Definition on_state {E : Type} (f : string -> nodes_map -> services_map -> E -> node_info -> bool -> bool -> E)
    (sc : storageCache) (e : E) : E :=
  f (hostName sc) (nodesMap sc) (servicesMap sc) e (localNodeInfo sc) (wrapperInCluster sc)
    (serviceAutonomyEnhancementEnabled sc).

(** The objects read are, up to semantic equality, the prunings of the stored
    originals with one of the given health informations. *)
Definition reads_as {E : Type} `{SemanticEq E} (f : storageCache -> E -> E) (infos : list node_info) (sc : storageCache)
    (served : list E) (stored : list (NamespacedName * container E)) : Prop :=
  Forall2 (fun x kv => Exists (fun i => DeepEqual x (f (set_info sc i) (original (snd kv))) = true) infos) served stored.

Lemma coherent_reads `{R : GoRange} {E : Type} `{Prunable E} `{SemanticEq E} infos sc
    (m : gmap NamespacedName (container E)) :
  res_coherent infos sc m -> reads_as pruned infos sc ((fun kv => modified (snd kv)) <$> go_range m) (go_range m).
Proof.
  intros Hm. unfold reads_as. apply Forall2_fmap_l, Forall_Forall2_diag, Forall_forall.
  intros [k c] Hin. simpl. apply elem_of_go_range in Hin. by eapply Hm.
Qed.

(** C10: the storage cache implements pruning on read.  After any sequence of
    informer events and reports and failures of the health poller, in any map
    iteration order, the endpoints and both kinds of slices it serves are
    semantically equal to pruning the objects it was given with its current
    nodes and services and with its current health information or the last
    report.  The two are the same unless a failed health request cleared the
    information after the last report: clearing does not prune again
    ([clear_info_stale]), so in that case each object is as the last report or
    as no report has it.  The labels and topology keys it prunes with are those
    of the stored objects. *)
Theorem cache_refines_pruning `{GoRange} `{SemanticEq Endpoints} `{SemanticEq EndpointSliceV1}
    `{SemanticEq EndpointSliceV1Beta1} `{SemanticEq (gslice EndpointSubset)}
    (h : string) (w a s : bool) (ops : list op) :
  let sc := fst (run (NewStorageCache h w a s) ops) in
  let infos := [localNodeInfo sc; reported ops] in
  reads_as (on_state pruneEndpoints) infos sc (GetEndpoints sc) (go_range (endpointsMap sc))
  /\ reads_as (on_state pruneEndpointSliceV1) infos sc (GetEndpointSliceV1 sc) (go_range (endpointSliceV1Map sc))
  /\ reads_as (on_state pruneEndpointSliceV1Beta1) infos sc (GetEndpointSliceV1Beta1 sc)
       (go_range (endpointSliceV1Beta1Map sc))
  /\ localNodeInfo sc = (if cleared_since ops then ∅ else reported ops)
  /\ (forall k c, nodesMap sc !! k = Some c -> labels c = Labels (node_meta (node c)))
  /\ (forall k c, servicesMap sc !! k = Some c -> keys c = getTopologyKeys (svc_meta (svc c))).
Proof.
  intros sc infos. destruct (run_new h w a s ops) as [Hc Hi [Ce C1 Cb]]. fold sc in Hc, Hi, Ce, C1, Cb.
  split; [apply (coherent_reads infos sc _ Ce)|]. split; [apply (coherent_reads infos sc _ C1)|].
  split; [apply (coherent_reads infos sc _ Cb)|]. split; [exact Hi|]. split; intros k c Hk.
  - by destruct (nodes_ok sc Hc k c Hk).
  - by destruct (services_ok sc Hc k c Hk).
Qed.

(** C15: watchers that receive every broadcast reconstruct the cache, when its
    handlers run one after the other: starting from the view of any reachable
    state, replaying the endpoints sent on the endpoints channel and the v1
    slices sent on the v1 channel gives exactly the endpoints and v1 slices the
    cache serves afterwards.  Besides these the endpoints channel carries
    nothing, and the v1 channel only the v1beta1 slices of a resync, which the
    replay skips.  Nothing of the kind holds for watchers of v1beta1 slices
    ([beta1_watchers_diverge]), nor when a handler overtakes another between
    its lock and its broadcast ([StorageConc.overtaken_broadcast]). *)
Theorem watchers_follow `{GoRange} `{SemanticEq Endpoints} `{SemanticEq EndpointSliceV1}
    `{SemanticEq EndpointSliceV1Beta1} `{SemanticEq (gslice EndpointSubset)}
    (h : string) (w a s : bool) (before ops : list op) :
  let sc := fst (run (NewStorageCache h w a s) before) in
  let '(sc', bs) := run sc ops in
  replay (viewed (endpointsMap sc)) (seen_endpoints bs) = viewed (endpointsMap sc')
  /\ replay (viewed (endpointSliceV1Map sc)) (seen_V1 bs) = viewed (endpointSliceV1Map sc')
  /\ forallb carries bs = true.
Proof.
  intros sc. assert (containers_ok sc) as Hc by apply (run_new h w a s before).
  pose proof (run_follows sc ops Hc) as Hf. pose proof (run_carries sc ops) as Hb.
  destruct (run sc ops) as [sc' bs]. by destruct Hf.
Qed.

(** *** Concrete runs *)

#[local] Instance ex_range : GoRange := range_in_key_order.
#[local] Instance ex_eps_eq : SemanticEq Endpoints := leibniz_semantic_eq _.
#[local] Instance ex_s1_eq : SemanticEq EndpointSliceV1 := leibniz_semantic_eq _.
#[local] Instance ex_sb_eq : SemanticEq EndpointSliceV1Beta1 := leibniz_semantic_eq _.
#[local] Instance ex_sub_eq : SemanticEq (gslice EndpointSubset) := leibniz_semantic_eq _.

Definition mk_node (name zone : string) : Node :=
  mkNode (with_labels (named "" name) (Some {["zone"%string := zone]})) None None None.
Definition web : Service :=
  mkService (with_annotations (named "ns" "web") (Some {[TopologyAnnotationsKey := GoJson.MarshalStrings ["zone"%string]]})).
Definition web_eps : Endpoints :=
  mkEndpoints (named "ns" "web") (Some [mkEndpointSubset (Some [mkEndpointAddress "10.0.0.1" (Some "b"%string)]) None None]).
Definition web_slice : EndpointSliceV1Beta1 :=
  mkEndpointSliceV1Beta1 (named "ns" "web-x7k2p")
    (Some [mkEndpointV1Beta1 (Some ["10.0.0.1"%string]) (Some {["kubernetes.io/hostname"%string := "b"%string]})]) None.

(** Node b moves into the zone of the host a after its slice was added. *)
Definition move_b : list op :=
  [op_add nodeHandler (ONode (mk_node "a" "z1")); op_add nodeHandler (ONode (mk_node "b" "z2"));
   op_add serviceHandler (OService web); op_add endpointSliceV1Beta1Handler (OSliceV1Beta1 web_slice);
   op_update nodeHandler (ONode (mk_node "b" "z2")) (ONode (mk_node "b" "z1"))].

(** Node b is reported failed, then the health information is cleared. *)
Definition clear_after_failure : list op :=
  [op_add nodeHandler (ONode (mk_node "a" "z1")); op_add nodeHandler (ONode (mk_node "b" "z1"));
   op_add serviceHandler (OService web); op_add endpointsHandler (OEndpoints web_eps);
   op_set_info {["b"%string := mkResultDetail false "" 0]}; op_clear_info].

(** After the move of node b its address is served. *)
Lemma cache_refines_pruning_witness :
  reads_as (on_state pruneEndpointSliceV1Beta1) [∅; ∅] (fst (run (NewStorageCache "a" false true true) move_b))
    [web_slice] [(mkNN "ns" "web-x7k2p", mkContainer web_slice web_slice)].
Proof. exact (proj1 (proj2 (proj2 (cache_refines_pruning "a" false true true move_b)))). Defined.

(** A resync, the only way slices change when a node, a service or the
    health information changes, broadcasts nothing on the v1beta1 channel: it
    puts v1beta1 slices on the v1 channel.  So there is a run after which
    watchers of v1beta1 slices, having received every broadcast, still miss an
    endpoint the cache serves, and watchers of v1 slices received an object
    of the wrong type. *)
Theorem beta1_watchers_diverge :
  (forall (R : GoRange) (E0 : SemanticEq Endpoints) (E1 : SemanticEq EndpointSliceV1)
     (E2 : SemanticEq EndpointSliceV1Beta1) sc, seen_V1Beta1 (snd (resync sc)) = [])
  /\ let sc := fst (run (NewStorageCache "a" false true true) move_b) in
     let bs := snd (run (NewStorageCache "a" false true true) move_b) in
     viewed (endpointSliceV1Beta1Map sc) = {[mkNN "ns" "web-x7k2p" := web_slice]}
     /\ replay ∅ (seen_V1Beta1 bs) = {[mkNN "ns" "web-x7k2p" := with_endpointsb web_slice (Some [])]}
     /\ mkBroadcast endpointSliceV1Broardcaster false Modified (OSliceV1Beta1 web_slice) ∈ bs.
Proof.
  split.
  - intros. destruct (resync_spec sc) as (e1 & e2 & e3 & -> & _). simpl. unfold seen_V1Beta1.
    rewrite !omap_app. by rewrite !(seen_V1Beta1_other _ _ _).
  - by_compute.
Qed.

(** C32: [ClearLocalNodeInfo] does not resync: after a failed health request
    clears the information, the cache still serves the endpoints pruned with
    the old report, although pruning with the information it now has keeps
    the address. *)
Theorem clear_info_stale :
  let sc := fst (run (NewStorageCache "a" false true true) clear_after_failure) in
  localNodeInfo sc = ∅
  /\ on_state pruneEndpoints sc web_eps =
       mkEndpoints (named "ns" "web")
         (Some [mkEndpointSubset (Some [mkEndpointAddress "10.0.0.1" (Some "b"%string)]) (Some []) None])
  /\ GetEndpoints sc = [mkEndpoints (named "ns" "web") (Some [mkEndpointSubset (Some []) (Some []) None])].
Proof. by_compute. Qed.
