(* ===== verification/StorageConc.v ===== *)
(** * The storage cache under concurrency

    The informers' goroutines and the health poller run the handlers of
    StorageCache.v concurrently.  The mutex covers each map update and each
    rebuild, but the length checks between them read without it and the
    broadcasts are sent after it is released.  Here a handler is a queue of
    such atomic steps, and the system interleaves the queues of any number of
    handlers.

    One handler alone behaves as in StorageCache.v; when no step is pending
    the cache is coherent in every interleaving, with the last health report
    where a failed health request has cleared it since; and there is an
    interleaving in which the watchers end with an older object than the
    cache. *)

From Stdlib Require Import ZArith Lia.
From stdpp Require Import base strings gmap numbers sorting list.
From S2P Require Import Prelude.
From S2P Require Import K8s.
From S2P Require Import HealthData.
From S2P Require Import Topology.
From S2P Require Import StorageCache.

(** ** Atomic steps *)

Inductive micro : Type :=
| Locked (o : op)
| Check_V1 | Rebuild_V1
| Check_V1Beta1 | Rebuild_V1Beta1
| Check_endpoints | Rebuild_endpoints
| Send (bs : list Broadcast).

Definition resync_steps : list micro := [Check_V1; Check_V1Beta1; Check_endpoints].

Section Steps.
Context `{R : GoRange} `{SE1 : SemanticEq Endpoints} `{SE2 : SemanticEq EndpointSliceV1}
  `{SE3 : SemanticEq EndpointSliceV1Beta1}.
Context `{SE4 : SemanticEq (gslice EndpointSubset)}.

(** *** The locked part of each handler and what it does afterwards *)

Definition locked_node_update (sc : storageCache) (n : Node) : storageCache * list micro :=
  let nodeKey := mkNN (Namespace (node_meta n)) (Name (node_meta n)) in
  match nodesMap sc !! nodeKey with
  | None => (sc, [])
  | Some c =>
      if bool_decide (Labels (node_meta n) = labels c)
      then (set_nodes sc (<[nodeKey := mkNodeContainer n (labels c)]> (nodesMap sc)), [])
      else (set_nodes sc (<[nodeKey := mkNodeContainer n (Labels (node_meta n))]> (nodesMap sc)),
            resync_steps ++ [Send [mkBroadcast nodeBroadcaster true Modified (ONode n)]])
  end.

(** Services are broadcast inside the lock, so their broadcast is a step of
    its own before the resync. *)
Definition locked_service_update (sc : storageCache) (s : Service) : storageCache * list Broadcast * list micro :=
  let serviceKey := mkNN (Namespace (svc_meta s)) (Name (svc_meta s)) in
  let newTopologyKeys := getTopologyKeys (svc_meta s) in
  match servicesMap sc !! serviceKey with
  | None => (sc, [], [])
  | Some c =>
      let b := mkBroadcast serviceBroardcaster true Modified (OService s) in
      if bool_decide (keys c = newTopologyKeys)
      then (set_services sc (<[serviceKey := mkServiceContainer s (keys c)]> (servicesMap sc)), [b], [])
      else (set_services sc (<[serviceKey := mkServiceContainer s newTopologyKeys]> (servicesMap sc)), [b], resync_steps)
  end.

(** A handler of one resource: the map changes in the lock, the broadcast
    follows it. *)
Definition after_unlock (p : storageCache * list Broadcast) : storageCache * list Broadcast * list micro :=
  (fst p, [], [Send (snd p)]).

Definition exec_locked (sc : storageCache) (o : op) : storageCache * list Broadcast * list micro :=
  match o with
  | op_add nodeHandler (ONode n) =>
      (set_nodes sc (<[mkNN (Namespace (node_meta n)) (Name (node_meta n)) :=
                       mkNodeContainer n (Labels (node_meta n))]> (nodesMap sc)), [], resync_steps)
  | op_update nodeHandler _ (ONode n) => let '(sc', k) := locked_node_update sc n in (sc', [], k)
  | op_delete nodeHandler (ONode n) =>
      (set_nodes sc (delete (mkNN (Namespace (node_meta n)) (Name (node_meta n))) (nodesMap sc)), [], resync_steps)
  | op_add serviceHandler (OService s) =>
      (set_services sc (<[mkNN (Namespace (svc_meta s)) (Name (svc_meta s)) :=
                          mkServiceContainer s (getTopologyKeys (svc_meta s))]> (servicesMap sc)),
       [mkBroadcast serviceBroardcaster true Added (OService s)], resync_steps)
  | op_update serviceHandler _ (OService s) => locked_service_update sc s
  | op_delete serviceHandler (OService s) =>
      (set_services sc (delete (mkNN (Namespace (svc_meta s)) (Name (svc_meta s))) (servicesMap sc)),
       [mkBroadcast serviceBroardcaster true Deleted (OService s)], resync_steps)
  | op_add endpointsHandler (OEndpoints e) => after_unlock (endpoints_add sc e)
  | op_update endpointsHandler (OEndpoints old) (OEndpoints e) =>
      if DeepEqual (eps_Subsets old) (eps_Subsets e) then (sc, [], []) else after_unlock (endpoints_update sc e)
  | op_delete endpointsHandler (OEndpoints e) => after_unlock (endpoints_delete sc e)
  | op_add endpointSliceV1Handler (OSliceV1 e) => after_unlock (sliceV1_add sc e)
  | op_update endpointSliceV1Handler _ (OSliceV1 e) => after_unlock (sliceV1_update sc e)
  | op_delete endpointSliceV1Handler (OSliceV1 e) => after_unlock (sliceV1_delete sc e)
  | op_add endpointSliceV1Beta1Handler (OSliceV1Beta1 e) => after_unlock (sliceV1Beta1_add sc e)
  | op_update endpointSliceV1Beta1Handler _ (OSliceV1Beta1 e) => after_unlock (sliceV1Beta1_update sc e)
  | op_delete endpointSliceV1Beta1Handler (OSliceV1Beta1 e) => after_unlock (sliceV1Beta1_delete sc e)
  | op_set_info info => (set_info sc info, [], resync_steps)
  | op_clear_info => (ClearLocalNodeInfo sc, [], [])
  | _ => (sc, [], [])
  end.

(** A step: the new state, what is sent at once, and the steps it leaves to do. *)
Definition exec (sc : storageCache) (x : micro) : storageCache * list Broadcast * list micro :=
  match x with
  | Locked o => exec_locked sc o
  | Check_V1 => (sc, [], if (0 <? size (endpointSliceV1Map sc))%nat then [Rebuild_V1] else [])
  | Check_V1Beta1 => (sc, [], if (0 <? length (GetEndpointSliceV1Beta1 sc))%nat then [Rebuild_V1Beta1] else [])
  | Check_endpoints => (sc, [], if (0 <? size (endpointsMap sc))%nat then [Rebuild_endpoints] else [])
  | Rebuild_V1 =>
      let '(sc, evts) := rebuildEndpointSliceV1Map sc in
      (sc, [], [Send (broadcasts endpointSliceV1Broardcaster false OSliceV1 evts)])
  | Rebuild_V1Beta1 =>
      let '(sc, evts) := rebuildEndpointSliceV1Beta1Map sc in
      (sc, [], [Send (broadcasts endpointSliceV1Broardcaster false OSliceV1Beta1 evts)])
  | Rebuild_endpoints =>
      let '(sc, evts) := rebuildEndpointsMap sc in
      (sc, [], [Send (broadcasts endpointsBroadcaster true OEndpoints evts)])
  | Send bs => (sc, bs, [])
  end.

(** *** The system *)

(** [sys_reports] is a history variable, read by no step: the last report the
    health poller has stored and whether it has cleared the information since. *)
Record system : Type := mkSystem {
  sys_cache : storageCache;
  sys_queues : list (list micro);
  sys_sent : list Broadcast;
  sys_reports : node_info * bool
}.

Definition micro_report (st : node_info * bool) (x : micro) : node_info * bool :=
  match x with Locked o => report_step st o | _ => st end.

(** A handler may start at any time: an informer event, a report of the health
    poller or a failed health request, which clears the information. *)

Inductive sys_step : system -> system -> Prop :=
| sys_arrive sc qs sent st o :
    sys_step (mkSystem sc qs sent st) (mkSystem sc (qs ++ [[Locked o]]) sent st)
| sys_run sc qs1 x q qs2 sent st sc' bs k : exec sc x = (sc', bs, k) ->
    sys_step (mkSystem sc (qs1 ++ (x :: q) :: qs2) sent st)
      (mkSystem sc' (qs1 ++ (k ++ q) :: qs2) (sent ++ bs) (micro_report st x)).

(** One queue run to its end with nothing in between. *)
Inductive runs : storageCache -> list micro -> storageCache -> list Broadcast -> Prop :=
| runs_nil sc : runs sc [] sc []
| runs_cons sc x q sc1 b1 k sc2 b2 :
    exec sc x = (sc1, b1, k) -> runs sc1 (k ++ q) sc2 b2 -> runs sc (x :: q) sc2 (b1 ++ b2).

(** ** One handler alone *)

Lemma runs_app sc q1 sc1 b1 q2 sc2 b2 :
  runs sc q1 sc1 b1 -> runs sc1 q2 sc2 b2 -> runs sc (q1 ++ q2) sc2 (b1 ++ b2).
Proof using Type.
  induction 1 as [sc|sc x q sca ba k scb bb Hx Hr IH]; intros H2; [done|]. simpl. rewrite <- app_assoc.
  eapply runs_cons; [done|]. rewrite app_assoc. by apply IH.
Qed.

Lemma runs_send sc bs : runs sc [Send bs] sc bs.
Proof using Type. rewrite <- (app_nil_r bs) at 2. eapply runs_cons; [done|]. constructor. Qed.

Lemma runs_step sc x sc1 k sc2 b : exec sc x = (sc1, [], k) -> runs sc1 k sc2 b -> runs sc [x] sc2 b.
Proof using Type. intros Hx Hr. change b with ([] ++ b). eapply runs_cons; [done|]. by rewrite app_nil_r. Qed.

Lemma runs_check_V1 sc : runs sc [Check_V1] (fst (resync_V1 sc)) (snd (resync_V1 sc)).
Proof using Type.
  eapply runs_step; [done|]. unfold resync_V1. case_match; [|constructor].
  destruct (rebuildEndpointSliceV1Map sc) as [sc' e] eqn:E. simpl.
  eapply runs_step; [simpl; by rewrite E|apply runs_send].
Qed.

Lemma runs_check_V1Beta1 sc : runs sc [Check_V1Beta1] (fst (resync_V1Beta1 sc)) (snd (resync_V1Beta1 sc)).
Proof using Type.
  eapply runs_step; [done|]. unfold resync_V1Beta1. case_match; [|constructor].
  destruct (rebuildEndpointSliceV1Beta1Map sc) as [sc' e] eqn:E. simpl.
  eapply runs_step; [simpl; by rewrite E|apply runs_send].
Qed.

Lemma runs_check_endpoints sc : runs sc [Check_endpoints] (fst (resync_endpoints sc)) (snd (resync_endpoints sc)).
Proof using Type.
  eapply runs_step; [done|]. unfold resync_endpoints. case_match; [|constructor].
  destruct (rebuildEndpointsMap sc) as [sc' e] eqn:E. simpl.
  eapply runs_step; [simpl; by rewrite E|apply runs_send].
Qed.

Lemma runs_resync sc : runs sc resync_steps (fst (resync sc)) (snd (resync sc)).
Proof using Type.
  unfold resync, resync_steps. pose proof (runs_check_V1 sc) as H1. destruct (resync_V1 sc) as [sc1 b1].
  pose proof (runs_check_V1Beta1 sc1) as H2. destruct (resync_V1Beta1 sc1) as [sc2 b2].
  pose proof (runs_check_endpoints sc2) as H3. destruct (resync_endpoints sc2) as [sc3 b3].
  apply (runs_app _ [Check_V1] sc1 b1); [done|]. by apply (runs_app _ [Check_V1Beta1] sc2 b2).
Qed.

(** ** Coherence when nothing is pending *)

Inductive resource : Type := ResV1 | ResV1Beta1 | ResEndpoints.

Definition coh (r : resource) (infos : list node_info) (sc : storageCache) : Prop :=
  match r with
  | ResV1 => res_coherent infos sc (endpointSliceV1Map sc)
  | ResV1Beta1 => res_coherent infos sc (endpointSliceV1Beta1Map sc)
  | ResEndpoints => res_coherent infos sc (endpointsMap sc)
  end.

Lemma coh_mono r infos infos' sc : infos ⊆ infos' -> coh r infos sc -> coh r infos' sc.
Proof using Type. intros Hi. destruct r; simpl; by apply res_coherent_mono. Qed.

(** The step will rebuild the resource. *)
Definition rebuilds (r : resource) (x : micro) : Prop :=
  match r, x with
  | ResV1, (Check_V1 | Rebuild_V1) | ResV1Beta1, (Check_V1Beta1 | Rebuild_V1Beta1)
  | ResEndpoints, (Check_endpoints | Rebuild_endpoints) => True
  | _, _ => False
  end.

Definition pending (r : resource) (q : list micro) : Prop := Exists (rebuilds r) q.

Lemma pending_resync r q : pending r (resync_steps ++ q).
Proof using Type. destruct r; unfold pending, resync_steps; simpl; repeat (first [by apply Exists_cons_hd|apply Exists_cons_tl]). Qed.

(** What one step does to one resource. *)
Definition keeps (r : resource) (sc sc' : storageCache) : Prop :=
  forall infos, localNodeInfo sc' ∈ infos -> coh r infos sc -> coh r infos sc'.
Definition step_ok (r : resource) (sc sc' : storageCache) (x : micro) (k : list micro) : Prop :=
  (forall infos, localNodeInfo sc' ∈ infos -> coh r infos sc') \/ pending r k \/ (~ rebuilds r x /\ keeps r sc sc').

Lemma keeps_refl r sc : keeps r sc sc.
Proof using Type. by intros infos _. Qed.

Lemma coh_same_views r sc sc' :
  hostName sc = hostName sc' -> wrapperInCluster sc = wrapperInCluster sc' ->
  serviceAutonomyEnhancementEnabled sc = serviceAutonomyEnhancementEnabled sc' ->
  same_nodes (nodesMap sc) (nodesMap sc') ->
  same_services (servicesMap sc) (servicesMap sc') ->
  endpointsMap sc = endpointsMap sc' -> endpointSliceV1Map sc = endpointSliceV1Map sc' ->
  endpointSliceV1Beta1Map sc = endpointSliceV1Beta1Map sc' -> keeps r sc sc'.
Proof using Type.
  intros H1 H2 H3 H5 H6 He Hv Hb infos _. destruct r; simpl; rewrite <- ?He, <- ?Hv, <- ?Hb; by apply coherent_proper.
Qed.

Lemma resource_handlers_ok r sc :
  (forall e, keeps r sc (fst (endpoints_add sc e)) /\ keeps r sc (fst (endpoints_update sc e))
     /\ keeps r sc (fst (endpoints_delete sc e)))
  /\ (forall e, keeps r sc (fst (sliceV1_add sc e)) /\ keeps r sc (fst (sliceV1_update sc e))
     /\ keeps r sc (fst (sliceV1_delete sc e)))
  /\ (forall e, keeps r sc (fst (sliceV1Beta1_add sc e)) /\ keeps r sc (fst (sliceV1Beta1_update sc e))
     /\ keeps r sc (fst (sliceV1Beta1_delete sc e))).
Proof using Type.
  split; [|split]; intros e.
  - unfold endpoints_add, endpoints_update, endpoints_delete.
    pose proof (add_spec sc (endpointsMap sc) e). pose proof (update_spec sc (endpointsMap sc) e).
    pose proof (delete_spec sc (endpointsMap sc) e).
    destruct (res_add _ _ _), (res_update _ _ _), (res_delete _ _). destruct r; unfold keeps; simpl; [done|done|]. naive_solver.
  - unfold sliceV1_add, sliceV1_update, sliceV1_delete.
    pose proof (add_spec sc (endpointSliceV1Map sc) e). pose proof (update_spec sc (endpointSliceV1Map sc) e).
    pose proof (delete_spec sc (endpointSliceV1Map sc) e).
    destruct (res_add _ _ _), (res_update _ _ _), (res_delete _ _). destruct r; unfold keeps; simpl; [|done|done]. naive_solver.
  - unfold sliceV1Beta1_add, sliceV1Beta1_update, sliceV1Beta1_delete.
    pose proof (add_spec sc (endpointSliceV1Beta1Map sc) e). pose proof (update_spec sc (endpointSliceV1Beta1Map sc) e).
    pose proof (delete_spec sc (endpointSliceV1Beta1Map sc) e).
    destruct (res_add _ _ _), (res_update _ _ _), (res_delete _ _). destruct r; unfold keeps; simpl; [done| |done]. naive_solver.
Qed.

Lemma empty_coherent {E : Type} `{Prunable E} `{SemanticEq E} infos sc (m : gmap NamespacedName (container E)) :
  (0 <? size m)%nat = false -> res_coherent infos sc m.
Proof using Type.
  intros Hs%Nat.ltb_ge k c. assert (m = ∅) as -> by (apply map_size_empty_inv; lia). by rewrite lookup_empty.
Qed.

Lemma check_step r sc x sc' bs k : rebuilds r x -> exec sc x = (sc', bs, k) -> step_ok r sc sc' x k.
Proof using Type.
  intros Hx He. destruct r, x; try done; simpl in He.
  - injection He as <- <- <-. case_match eqn:Es; [right; left; by apply Exists_cons_hd|].
    left. intros infos _. by apply empty_coherent.
  - unfold rebuildEndpointSliceV1Map in He. destruct (rebuild_map_spec sc (endpointSliceV1Map sc)) as (evts & Hr & _).
    rewrite Hr in He. injection He as <- <- <-. left. intros infos Hin. by apply (refresh_coherent infos sc).
  - injection He as <- <- <-. unfold GetEndpointSliceV1Beta1. rewrite length_fmap, length_go_range.
    case_match eqn:Es; [right; left; by apply Exists_cons_hd|]. left. intros infos _. by apply empty_coherent.
  - unfold rebuildEndpointSliceV1Beta1Map in He.
    destruct (rebuild_map_spec sc (endpointSliceV1Beta1Map sc)) as (evts & Hr & _).
    rewrite Hr in He. injection He as <- <- <-. left. intros infos Hin. by apply (refresh_coherent infos sc).
  - injection He as <- <- <-. case_match eqn:Es; [right; left; by apply Exists_cons_hd|].
    left. intros infos _. by apply empty_coherent.
  - unfold rebuildEndpointsMap in He. destruct (rebuild_map_spec sc (endpointsMap sc)) as (evts & Hr & _).
    rewrite Hr in He. injection He as <- <- <-. left. intros infos Hin. by apply (refresh_coherent infos sc).
Qed.

Lemma node_update_step r sc n x : ~ rebuilds r x -> containers_ok sc ->
  step_ok r sc (fst (locked_node_update sc n)) x (snd (locked_node_update sc n)).
Proof using Type.
  intros Hx Hc. unfold locked_node_update.
  destruct (nodesMap sc !! mkNN (Namespace (node_meta n)) (Name (node_meta n))) as [c|] eqn:Ec;
    [|right; right; split; [done|apply keeps_refl]].
  destruct (nodes_ok sc Hc _ _ Ec) as [Hk _]. case_bool_decide; [|right; left; apply pending_resync].
  right; right. split; [done|]. apply coh_same_views; try done. simpl.
  eapply same_nodes_update; [done|]. unfold node_view. simpl. f_equal. unfold meta_key in Hk. congruence.
Qed.

Lemma service_update_step r sc s x : ~ rebuilds r x ->
  step_ok r sc (fst (fst (locked_service_update sc s))) x (snd (locked_service_update sc s)).
Proof using Type.
  intros Hx. unfold locked_service_update.
  destruct (servicesMap sc !! mkNN (Namespace (svc_meta s)) (Name (svc_meta s))) as [c|] eqn:Ec;
    [|right; right; split; [done|apply keeps_refl]].
  case_bool_decide; [|right; left; apply (pending_resync r [])]. right; right. split; [done|].
  apply coh_same_views; try done. simpl. by eapply same_services_update.
Qed.

Lemma locked_step r sc o sc' bs k : containers_ok sc ->
  exec_locked sc o = (sc', bs, k) -> step_ok r sc sc' (Locked o) k.
Proof using Type.
  intros Hc He. pose proof (resource_handlers_ok r sc) as (H1 & H2 & H3).
  assert (~ rebuilds r (Locked o)) as Hx by (destruct r; simpl; tauto).
  pose proof (fun n => node_update_step r sc n (Locked o) Hx Hc) as Hnu.
  pose proof (fun s => service_update_step r sc s (Locked o) Hx) as Hsu.
  assert (forall k, step_ok r sc sc (Locked o) k) as Hsame by (intros; right; right; split; [done|apply keeps_refl]).
  destruct o as [h obj|h old new|h obj|info|];
    [| | |injection He as <- <- <-; right; left; apply (pending_resync r [])
     |injection He as <- <- <-; right; right; split; [done|]; intros infos _; by destruct r].
  - destruct h, obj; simpl in He; injection He as <- <- <-;
      try apply Hsame; try (right; left; apply (pending_resync r []));
      right; right; split; try done; by first [apply H1|apply H2|apply H3].
  - destruct h, new; simpl in He;
      try (injection He as <- <- <-; by apply Hsame);
      try (injection He as <- <- <-; right; right; split; [done|]; by first [apply H2|apply H3]);
      try (destruct old; injection He as <- <- <-; by apply Hsame).
    + specialize (Hnu n). destruct (locked_node_update sc n). injection He as <- <- <-. exact Hnu.
    + specialize (Hsu s). rewrite He in Hsu. exact Hsu.
    + destruct old; try (injection He as <- <- <-; by apply Hsame).
      destruct (DeepEqual _ _); injection He as <- <- <-; [apply Hsame|]. right; right; split; [done|]. by apply H1.
  - destruct h, obj; simpl in He; injection He as <- <- <-;
      try apply Hsame; try (right; left; apply (pending_resync r []));
      right; right; split; try done; by first [apply H1|apply H2|apply H3].
Qed.

(** The steps other than the locked sections of the handlers. *)
Definition not_locked (x : micro) : Prop := match x with Locked _ => False | _ => True end.

Lemma locked_containers sc o sc' bs k : containers_ok sc -> exec_locked sc o = (sc', bs, k) -> containers_ok sc'.
Proof using Type.
  intros Hc He.
  assert (forall e, containers_ok (fst (endpoints_add sc e)) /\ containers_ok (fst (endpoints_update sc e))
            /\ containers_ok (fst (endpoints_delete sc e))) as H1.
  { intros e. destruct (endpoints_ok sc e) as (Ha & Hu & Hd). split; [|split]; [by apply Ha|by apply Hu|by apply Hd]. }
  assert (forall e, containers_ok (fst (sliceV1_add sc e)) /\ containers_ok (fst (sliceV1_update sc e))
            /\ containers_ok (fst (sliceV1_delete sc e))) as H2.
  { intros e. destruct (sliceV1_ok sc e) as (Ha & Hu & Hd). split; [|split]; [by apply Ha|by apply Hu|by apply Hd]. }
  assert (forall e, containers_ok (fst (sliceV1Beta1_add sc e)) /\ containers_ok (fst (sliceV1Beta1_update sc e))
            /\ containers_ok (fst (sliceV1Beta1_delete sc e))) as H3.
  { intros e. destruct (sliceV1Beta1_ok sc e) as (Ha & Hu & Hd). split; [|split]; [by apply Ha|by apply Hu|by apply Hd]. }
  assert (forall n ls, ls = Labels (node_meta n) -> containers_ok (set_nodes sc
    (<[mkNN (Namespace (node_meta n)) (Name (node_meta n)) := mkNodeContainer n ls]> (nodesMap sc)))) as Hn.
  { intros n ls ->. apply containers_set_nodes; [|done].
    intros k' c [[<- <-]|[_ H]]%lookup_insert_Some; [done|]. by apply Hc. }
  assert (forall s ks, ks = getTopologyKeys (svc_meta s) -> containers_ok (set_services sc
    (<[mkNN (Namespace (svc_meta s)) (Name (svc_meta s)) := mkServiceContainer s ks]> (servicesMap sc)))) as Hs.
  { intros s ks ->. apply containers_set_services; [|done].
    intros k' c [[<- <-]|[_ H]]%lookup_insert_Some; [done|]. by apply Hc. }
  assert (forall n, containers_ok (set_nodes sc (delete n (nodesMap sc)))) as Hnd.
  { intros n. apply containers_set_nodes; [|done]. intros k' c [_ H]%lookup_delete_Some. by apply Hc. }
  assert (forall n, containers_ok (set_services sc (delete n (servicesMap sc)))) as Hsd.
  { intros n. apply containers_set_services; [|done]. intros k' c [_ H]%lookup_delete_Some. by apply Hc. }
  assert (forall i, containers_ok (set_info sc i)) as Hi by (intros i; by destruct Hc; split).
  unfold exec_locked, after_unlock, locked_node_update, locked_service_update in He.
  repeat case_match; simplify_eq; bool_to_prop; simpl; try done;
    first [by apply Hn|by apply Hs|apply Hnd|apply Hsd|apply Hi|apply H1|apply H2|apply H3].
Qed.

Lemma exec_containers sc x sc' bs k : containers_ok sc -> exec sc x = (sc', bs, k) -> containers_ok sc'.
Proof using Type.
  intros Hc. destruct x; simpl; [by apply locked_containers|..]; intros He; try (by simplify_eq).
  - unfold rebuildEndpointSliceV1Map in He. destruct (rebuild_map_spec sc (endpointSliceV1Map sc)) as (evts & Hr & _).
    rewrite Hr in He. simplify_eq. destruct Hc. split; simpl; try done. by apply refresh_keyed.
  - unfold rebuildEndpointSliceV1Beta1Map in He.
    destruct (rebuild_map_spec sc (endpointSliceV1Beta1Map sc)) as (evts & Hr & _).
    rewrite Hr in He. simplify_eq. destruct Hc. split; simpl; try done. by apply refresh_keyed.
  - unfold rebuildEndpointsMap in He. destruct (rebuild_map_spec sc (endpointsMap sc)) as (evts & Hr & _).
    rewrite Hr in He. simplify_eq. destruct Hc. split; simpl; try done. by apply refresh_keyed.
Qed.

Lemma other_step r sc x sc' bs k : not_locked x -> ~ rebuilds r x -> exec sc x = (sc', bs, k) -> keeps r sc sc'.
Proof using Type.
  intros Hl Hx He infos Hin Hc. destruct x; simpl in *; try done; try (by simplify_eq).
  - unfold rebuildEndpointSliceV1Map in He. destruct (rebuild_map sc _). simplify_eq. by destruct r.
  - unfold rebuildEndpointSliceV1Beta1Map in He. destruct (rebuild_map sc _). simplify_eq. by destruct r.
  - unfold rebuildEndpointsMap in He. destruct (rebuild_map sc _). simplify_eq. by destruct r.
Qed.

Lemma exec_step_ok r sc x sc' bs k : containers_ok sc -> exec sc x = (sc', bs, k) -> step_ok r sc sc' x k.
Proof using Type.
  intros Hc He. destruct x as [o| | | | | | |bs0]; [by apply (locked_step r sc o sc' bs k)|..];
    destruct r; first [eapply check_step; [|exact He]; exact I
      |right; right; split; [exact (fun f => f)|]; eapply other_step; [| |exact He]; [exact I|exact (fun f => f)]].
Qed.

(** Only the poller's sections touch the health information, and after a new
    report every resource will be rebuilt. *)
Lemma exec_locked_info sc o sc' bs k : exec_locked sc o = (sc', bs, k) ->
  localNodeInfo sc' = match o with op_set_info info => info | op_clear_info => ∅ | _ => localNodeInfo sc end.
Proof using Type.
  intros He. unfold exec_locked, after_unlock, locked_node_update, locked_service_update in He.
  repeat case_match; simplify_eq; try done;
    unfold endpoints_update, endpoints_delete, sliceV1_update, sliceV1_delete, sliceV1Beta1_update, sliceV1Beta1_delete;
    by case_match.
Qed.

Lemma exec_reports (st : node_info * bool) sc x sc' bs k : exec sc x = (sc', bs, k) ->
  localNodeInfo sc = (if snd st then ∅ else fst st) ->
  localNodeInfo sc' = (if (micro_report st x).2 then ∅ else fst (micro_report st x))
  /\ ([localNodeInfo sc; fst st] ⊆ [localNodeInfo sc'; fst (micro_report st x)] \/ forall r, pending r k).
Proof using Type.
  intros He Hi. assert (not_locked x \/ exists o, x = Locked o) as [Hl|[o ->]] by (destruct x; simpl; eauto).
  - assert (localNodeInfo sc' = localNodeInfo sc) as ->.
    { destruct x; simpl in He; [done|..]; repeat case_match; simplify_eq;
        unfold rebuildEndpointSliceV1Map, rebuildEndpointSliceV1Beta1Map, rebuildEndpointsMap in *;
        repeat case_match; by simplify_eq. }
    destruct x; [done|..]; by split; [|left].
  - pose proof (exec_locked_info _ _ _ _ _ He) as Hs. simpl.
    destruct o as [h obj|h old new|h obj|info|]; rewrite Hs; simpl; try (by split; [|left]).
    + split; [done|]. right. simpl in He. simplify_eq. intros r. apply (pending_resync r []).
    + split; [done|]. left. rewrite Hi. destruct (snd st); set_solver.
Qed.

(** The invariant: a resource is coherent with the information now and the
    last report, or a queue will rebuild it. *)
Record sys_inv (s : system) : Prop := {
  inv_containers : containers_ok (sys_cache s);
  inv_info : localNodeInfo (sys_cache s) = if snd (sys_reports s) then ∅ else fst (sys_reports s);
  inv_coherent : forall r, coh r [localNodeInfo (sys_cache s); fst (sys_reports s)] (sys_cache s)
    \/ Exists (pending r) (sys_queues s)
}.

Lemma sys_step_inv s s' : sys_step s s' -> sys_inv s -> sys_inv s'.
Proof using Type.
  intros [sc qs sent st o|sc qs1 x q qs2 sent st sc' bs k He] [Hc Hi Hr]; simpl in *.
  - split; simpl; [done|done|]. intros r. destruct (Hr r); [by left|]. right. apply Exists_app. by left.
  - destruct (exec_reports st _ _ _ _ _ He Hi) as [Hi' Hk].
    split; simpl; [by eapply exec_containers|done|].
    intros r. pose proof (exec_step_ok r sc x sc' bs k Hc He) as Hs.
    rewrite Exists_app, Exists_cons. unfold pending at 2. rewrite Exists_app.
    destruct Hk as [Hsub|Hk]; [|right; right; left; left; apply Hk].
    destruct Hs as [Hs|[?|[Hn Hs]]]; [left; apply Hs; by left|by auto|].
    destruct (Hr r) as [Hco|[?|[[?|?]%Exists_cons|?]%Exists_cons]%Exists_app]; [|by auto|done|by auto|by auto].
    left. apply Hs; [by left|]. by eapply coh_mono.
Qed.

(** *** Schedules *)

(** Run the given threads in order, one step each. *)
Fixpoint schedule (l : list nat) (s : system) : option system :=
  match l with
  | [] => Some s
  | i :: l =>
      match sys_queues s !! i with
      | Some (x :: q) =>
          let '(sc', bs, k) := exec (sys_cache s) x in
          schedule l (mkSystem sc' (<[i := k ++ q]> (sys_queues s)) (sys_sent s ++ bs) (micro_report (sys_reports s) x))
      | _ => None
      end
  end.

Lemma schedule_sound l s s' : schedule l s = Some s' -> rtc sys_step s s'.
Proof using Type.
  revert s. induction l as [|i l IH]; intros s; simpl; [by intros [= ->]|].
  destruct (sys_queues s !! i) as [[|x q]|] eqn:Ei; try done.
  destruct (exec (sys_cache s) x) as [[sc' bs] k] eqn:Ex. intros Hs%IH. eapply rtc_l; [|exact Hs].
  pose proof (list_elem_of_split_length (sys_queues s) i (x :: q) Ei) as (q1 & q2 & Hq & Hlen).
  destruct s as [sc qs sent st]. simpl in *. subst qs. rewrite Hlen, insert_app_r_alt, Nat.sub_diag by lia. simpl.
  by apply sys_run.
Qed.

(** Start the handlers of some events. *)
Definition arrivals (ops : list op) : list (list micro) := (fun o => [Locked o]) <$> ops.

Lemma arrivals_sound sc qs sent st ops :
  rtc sys_step (mkSystem sc qs sent st) (mkSystem sc (qs ++ arrivals ops) sent st).
Proof using Type.
  revert qs. induction ops as [|o ops IH]; intros qs; [by rewrite app_nil_r|].
  eapply rtc_l; [apply (sys_arrive sc qs sent st o)|].
  specialize (IH (qs ++ [[Locked o]])). by rewrite <- app_assoc in IH.
Qed.

Lemma runs_locked sc o sc1 b1 k sc2 b2 : exec_locked sc o = (sc1, b1, k) -> runs sc1 k sc2 b2 ->
  runs sc [Locked o] sc2 (b1 ++ b2).
Proof using Type. intros He Hr. eapply runs_cons; [done|]. by rewrite app_nil_r. Qed.

Lemma runs_after_unlock sc o p : exec_locked sc o = after_unlock p -> runs sc [Locked o] (fst p) (snd p).
Proof using Type. intros He. apply (runs_locked _ _ (fst p) [] [Send (snd p)]); [done|]. apply runs_send. Qed.

Lemma runs_nothing sc o : exec_locked sc o = (sc, [], []) -> runs sc [Locked o] sc [].
Proof using Type. intros He. apply (runs_locked _ _ sc [] []); [done|]. constructor. Qed.

Lemma solo_node_update sc old n :
  let p := node_update sc n in runs sc [Locked (op_update nodeHandler old (ONode n))] (fst p) (snd p).
Proof using Type.
  unfold node_update. assert (exec_locked sc (op_update nodeHandler old (ONode n)) =
    let '(sc', k) := locked_node_update sc n in (sc', [], k)) as He by by destruct old.
  unfold locked_node_update in He. destruct (nodesMap sc !! _) as [c|]; [|by apply runs_nothing].
  destruct (bool_decide _); [apply (runs_locked _ _ _ _ _ _ [] He); constructor|].
  pose proof (runs_resync (set_nodes sc (<[mkNN (Namespace (node_meta n)) (Name (node_meta n)) :=
    mkNodeContainer n (Labels (node_meta n))]> (nodesMap sc)))) as Hr.
  destruct (resync _) as [sc' bs]. apply (runs_locked _ _ _ [] _ _ _ He). eapply runs_app; [exact Hr|apply runs_send].
Qed.

Lemma solo_service_update sc old s :
  let p := service_update sc s in runs sc [Locked (op_update serviceHandler old (OService s))] (fst p) (snd p).
Proof using Type.
  unfold service_update. assert (exec_locked sc (op_update serviceHandler old (OService s)) =
    locked_service_update sc s) as He by by destruct old.
  unfold locked_service_update in He. destruct (servicesMap sc !! _) as [c|]; [|by apply runs_nothing].
  destruct (bool_decide _); [apply (runs_locked _ _ _ _ _ _ [] He); constructor|].
  pose proof (runs_resync (set_services sc (<[mkNN (Namespace (svc_meta s)) (Name (svc_meta s)) :=
    mkServiceContainer s (getTopologyKeys (svc_meta s))]> (servicesMap sc)))) as Hr.
  destruct (resync _) as [sc' bs]. by apply (runs_locked _ _ _ [_] _ _ _ He).
Qed.

(** A locked section followed by a resync. *)
Lemma runs_then_resync sc o sc1 b1 : exec_locked sc o = (sc1, b1, resync_steps) ->
  runs sc [Locked o] (fst (resync sc1)) (b1 ++ snd (resync sc1)).
Proof using Type. intros He. eapply runs_locked; [exact He|apply runs_resync]. Qed.

End Steps.

(** ** Properties *)

(** Every handler, its locked section, length checks, rebuilds and sends
    executed without interference, terminates with the state and the
    broadcasts of the sequential model. *)
Theorem solo_handler `{GoRange} `{SemanticEq Endpoints} `{SemanticEq EndpointSliceV1}
    `{SemanticEq EndpointSliceV1Beta1} `{SemanticEq (gslice EndpointSubset)} (sc : storageCache) (o : op) :
  runs sc [Locked o] (fst (run_op sc o)) (snd (run_op sc o)).
Proof.
  destruct o as [h obj|h old new|h obj|info|].
  - destruct h, obj; try by apply runs_nothing; try by apply runs_after_unlock.
    + by apply (runs_then_resync sc (op_add nodeHandler (ONode n)) _ []).
    + simpl. unfold service_add. pose proof (runs_then_resync sc (op_add serviceHandler (OService s)) _ _ eq_refl) as Hr.
      by destruct (resync _).
    + by apply runs_after_unlock.
    + by apply runs_after_unlock.
    + by apply runs_after_unlock.
  - destruct h, new; try apply solo_node_update; try apply solo_service_update;
      try (apply runs_nothing; by destruct old); try (apply runs_after_unlock; by destruct old).
    destruct old; try by apply runs_nothing. simpl. destruct (DeepEqual _ _) eqn:Ed.
    + apply runs_nothing. simpl. by rewrite Ed.
    + apply runs_after_unlock. simpl. by rewrite Ed.
  - destruct h, obj; try by apply runs_nothing; try by apply runs_after_unlock.
    + by apply (runs_then_resync sc (op_delete nodeHandler (ONode n)) _ []).
    + simpl. unfold service_delete.
      pose proof (runs_then_resync sc (op_delete serviceHandler (OService s)) _ _ eq_refl) as Hr. by destruct (resync _).
    + by apply runs_after_unlock.
    + by apply runs_after_unlock.
    + by apply runs_after_unlock.
  - by apply (runs_then_resync sc (op_set_info info) _ []).
  - apply (runs_locked _ _ (ClearLocalNodeInfo sc) [] []); [done|constructor].
Qed.

(** The system at its start. *)
Definition new_system (h : string) (w a s : bool) : system := mkSystem (NewStorageCache h w a s) [] [] (∅, false).

(** C17: handlers, reports and failures of the health poller among them, may
    interleave at every point where the lock is free, and still: whenever no
    handler has a step left to do, each of the endpoints and of both kinds of
    slices is the pruning of its original with the current nodes and services
    and with the current health information or the last report.  The two are
    the same unless a failed health request has cleared the information since
    the last report, which prunes nothing again ([clear_info_stale]): unless it
    has, the cache is coherent with its state. *)
Theorem quiescent_coherent `{GoRange} `{SemanticEq Endpoints} `{SemanticEq EndpointSliceV1}
    `{SemanticEq EndpointSliceV1Beta1} `{SemanticEq (gslice EndpointSubset)} (h : string) (w a s : bool) (sys : system) :
  rtc sys_step (new_system h w a s) sys -> Forall (fun q => q = []) (sys_queues sys) ->
  let '(report, cleared) := sys_reports sys in
  coherent [localNodeInfo (sys_cache sys); report] (sys_cache sys)
  /\ localNodeInfo (sys_cache sys) = (if cleared then ∅ else report)
  /\ (cleared = false -> coherent [localNodeInfo (sys_cache sys)] (sys_cache sys)).
Proof.
  intros Hreach Hq. assert (sys_inv sys) as [_ Hi Hr].
  { eapply (rtc_invariant _ _ sys_step_inv); [exact Hreach|].
    destruct (NewStorageCache_ok h w a s [∅; ∅]) as [Hc [Ce C1 Cb]].
    split; simpl; [done|done|]. intros r. left. by destruct r. }
  destruct (sys_reports sys) as [report cleared]. simpl in *.
  assert (forall r, coh r [localNodeInfo (sys_cache sys); report] (sys_cache sys)) as Hcoh.
  { intros r. destruct (Hr r) as [|Hp]; [done|]. apply Exists_exists in Hp as (q & Hin & Hp).
    rewrite Forall_forall in Hq. rewrite (Hq q Hin) in Hp. by apply Exists_nil in Hp. }
  assert (coherent [localNodeInfo (sys_cache sys); report] (sys_cache sys)) as Hco
    by (split; [apply (Hcoh ResEndpoints)|apply (Hcoh ResV1)|apply (Hcoh ResV1Beta1)]).
  split; [done|]. split; [done|]. intros ->. eapply coherent_mono; [|exact Hco]. rewrite Hi. set_solver.
Qed.

(** *** A concrete race *)

#[local] Existing Instances ex_range ex_eps_eq ex_s1_eq ex_sb_eq ex_sub_eq.

(** Node b moves into the host's zone while the endpoints of the service get
    a second address. *)
Definition web_eps2 : Endpoints :=
  mkEndpoints (named "ns" "web")
    (Some [mkEndpointSubset (Some [mkEndpointAddress "10.0.0.1" (Some "b"%string);
                                   mkEndpointAddress "10.0.0.9" (Some "a"%string)]) None None]).

Definition before_race : storageCache :=
  fst (run (NewStorageCache "a" false false true)
    [op_add nodeHandler (ONode (mk_node "a" "z1")); op_add nodeHandler (ONode (mk_node "b" "z2"));
     op_add serviceHandler (OService web); op_add endpointsHandler (OEndpoints web_eps)]).

Definition race : list op :=
  [op_update endpointsHandler (OEndpoints web_eps) (OEndpoints web_eps2);
   op_update nodeHandler (ONode (mk_node "b" "z2")) (ONode (mk_node "b" "z1"))].

(** Thread 0 leaves its lock, thread 1 runs to its end, thread 0 sends. *)
Definition race_schedule : list nat := [0; 1; 1; 1; 1; 1; 1; 1; 0]%nat.

Definition after_race : option system := schedule race_schedule (mkSystem before_race (arrivals race) [] (∅, false)).

(** A failed health request between the arrival of an object and its handler. *)
Definition clear_and_add : list op := [op_add endpointsHandler (OEndpoints web_eps); op_clear_info].

Lemma quiescent_coherent_witness : exists sys,
  rtc sys_step (new_system "a" false false true) sys /\ coherent [∅; ∅] (sys_cache sys).
Proof.
  destruct (schedule [1; 0; 0]%nat (mkSystem (NewStorageCache "a" false false true) (arrivals clear_and_add) [] (∅, false)))
    as [sys|] eqn:E; [|discriminate].
  assert (rtc sys_step (new_system "a" false false true) sys) as Hr.
  { etrans; [apply (arrivals_sound _ [] [] (∅, false) clear_and_add)|]. by apply (schedule_sound [1; 0; 0]%nat). }
  exists sys. split; [exact Hr|].
  pose proof (quiescent_coherent "a" false false true sys Hr) as H.
  vm_compute in E. injection E as <-. exact (proj1 (H ltac:(repeat constructor))).
Defined.

(** A broadcast is sent after the lock is released, so a handler can be
    overtaken between the two.  There is an interleaving of an endpoints
    update with a node update, from a reachable state and to one where
    nothing is pending, after which the watchers, having received every
    broadcast, hold the older pruned endpoints while the cache holds the newer
    ones. *)
Theorem overtaken_broadcast : exists sys,
  after_race = Some sys
  /\ rtc sys_step (mkSystem before_race [] [] (∅, false)) sys
  /\ Forall (fun q => q = []) (sys_queues sys)
  /\ viewed (endpointsMap (sys_cache sys)) !! meta_key (eps_meta web_eps) =
       Some (map_subsets (fun l => Some (sl l)) web_eps2)
  /\ replay (viewed (endpointsMap before_race)) (seen_endpoints (sys_sent sys)) !! meta_key (eps_meta web_eps) =
       Some (mkEndpoints (named "ns" "web")
               (Some [mkEndpointSubset (Some [mkEndpointAddress "10.0.0.9" (Some "a"%string)]) (Some []) None])).
Proof.
  destruct after_race as [sys|] eqn:E; [|vm_compute in E; discriminate].
  exists sys. split; [done|]. split.
  { etrans; [apply (arrivals_sound _ [] [] (∅, false) race)|]. by apply (schedule_sound race_schedule). }
  vm_compute in E. injection E as <-. split; [repeat constructor|]. split; vm_compute; reflexivity.
Qed.
