(* ===== verification/WrapperServer.v ===== *)
(** * The wrapper's server (application-grid-wrapper/server)

    kube-proxy and the ingress controllers read services, endpoints and slices
    through this server.  A chain of interceptors answers from the storage
    cache what they ask for and sends everything else to the API server; an
    ingress controller of a unit has its watch on endpoints narrowed to the
    unit's nodes.  The theorems show that what is read is what pruning
    prescribes, that a unit's ingress controller sees the narrowed cache
    through every change that is announced to it, and what an error of a
    unit's own cluster leaves behind. *)

From Stdlib Require Import ZArith Lia Ascii String.
From stdpp Require Import base strings gmap numbers sorting list.
From S2P Require Import Prelude.
From S2P Require Import GoStd.
From S2P Require Import GoStrings.
From S2P Require Import GoJson.
From S2P Require Import K8s.
From S2P Require Import HealthData.
From S2P Require Import Topology.
From S2P Require Import StorageCache.

Local Open Scope Z_scope.
Local Open Scope go_scope.

Definition SuperEdgeIngress : string := "superedge-ingress".
Definition NodeUnitValue : string := "nodeunits.superedge.io".

(** ** Requests and responses *)

(** What the handlers look at; [can_flush] is whether the writer is an
    [http.Flusher]. *)
Record http_request : Type := mkHttpRequest {
  rq_Method : string;
  rq_Path : string;
  rq_Query : gmap string string;
  rq_Header : gmap string (list string);
  can_flush : bool
}.

Definition query_get (r : http_request) (key : string) : string := default EmptyString (rq_Query r !! key).
Definition header_get (r : http_request) (key : string) : string :=
  match rq_Header r !! key with Some (v :: _) => v | _ => EmptyString end.
Definition with_path (r : http_request) (p : string) : http_request :=
  mkHttpRequest (rq_Method r) p (rq_Query r) (rq_Header r) (can_flush r).
Definition header_add (r : http_request) (key value : string) : http_request :=
  mkHttpRequest (rq_Method r) (rq_Path r) (rq_Query r)
    (<[key := default [] (rq_Header r !! key) ++ [value]]> (rq_Header r)) (can_flush r).

(** [runtime.SerializerInfo]; YAML has no stream serializer. *)
Record SerializerInfo : Type := mkSerializerInfo {
  MediaType : string;
  MediaTypeType : string;
  MediaTypeSubType : string;
  has_stream : bool
}.

Inductive encoded : Type :=
| ENode (n : Node)
| EServices (l : list Service)
| EEndpoints (l : list Endpoints)
| ESlicesV1 (l : list EndpointSliceV1)
| ESlicesV1Beta1 (l : list EndpointSliceV1Beta1).

(** [Watching] streams the events of a channel until its timeout (a minute
    when there is none); with an ingress, the endpoints of the cache come first
    and all are narrowed to the ingress' unit.  [Aborted] is a panic in the
    handler, after which the connection is closed. *)
Inductive response : Type :=
| StatusCode (code : Z)
| Encoded (contentType : string) (o : encoded)
| Watching (contentType : string) (c : Channel) (timeoutSeconds : option string) (first : list Endpoints) (ingress : option string)
| ToHost (r : http_request)
| Forward (r : http_request)
| Profile
| Aborted.

(** ** Content negotiation (mime.go) *)

Section Server.
Context `{R : GoRange}.
(** [goautoneg.ParseAccept]: the types of an Accept header, best first. *)
Context (ParseAccept : string -> list (string * string)).

(** The cache, the serializers, the stores of the informers of a unit's own
    cluster if they run, and the nodes of the node informer's indexer. *)
Record interceptorServer : Type := mkInterceptorServer {
  cache : storageCache;
  mediaSerializer : list SerializerInfo;
  k3sServices : option (list Service);
  k3sSlicesV1 : option (list EndpointSliceV1);
  k3sSlicesV1Beta1 : option (list EndpointSliceV1Beta1);
  nodeIndexer : list Node
}.
Implicit Types (s : interceptorServer) (r : http_request).

Definition accepts (clause : string * string) (a : SerializerInfo) : bool :=
  let '(t, st) := clause in
  (String.eqb t (MediaTypeType a) && String.eqb st (MediaTypeSubType a))
  || (String.eqb t (MediaTypeType a) && String.eqb st "*")
  || (String.eqb t "*" && String.eqb st "*").

(** The first serializer that the first clause with one accepts. *)
Definition parseAccept (header : string) (accepted : list SerializerInfo) : option SerializerInfo :=
  match header, accepted with
  | EmptyString, a :: _ => Some a
  | _, _ =>
      fold_right (fun clause rest => match filter (fun a => accepts clause a = true) accepted with a :: _ => Some a | [] => rest end)
        None (ParseAccept header)
  end.

(** The part behind the third slash, and the name before it: a path without
    a second slash has none, and the index is out of range. *)
Definition getIngressPath (ingressPath : string) : option (string * string) :=
  match split_on "/"%char ingressPath with
  | _ :: _ :: name :: params => Some (name, foldl (fun path p => path +:+ "/" +:+ p) EmptyString params)
  | _ => None
  end.

(** ** Names of a unit's own objects *)

Definition k3s (name : string) : string := "k3s-" +:+ name.
Definition with_name (m : ObjectMeta) (name : string) : ObjectMeta :=
  mkObjectMeta name (Namespace m) (UID m) (Labels m) (Annotations m) (OwnerReferences m) (DeletionTimestamp m).

Definition k3s_service (svc : Service) : Service := mkService (with_name (svc_meta svc) (k3s (Name (svc_meta svc)))).
Definition k3s_endpoints (e : Endpoints) : Endpoints := mkEndpoints (with_name (eps_meta e) (k3s (Name (eps_meta e)))) (eps_Subsets e).

Definition ServiceNameLabel : string := "kubernetes.io/service-name".

(** Assigning to the labels panics when there are none. *)
Definition k3s_slice_meta (m : ObjectMeta) : option ObjectMeta :=
  match Labels m with
  | None => None
  | Some l => Some (with_labels (with_name m (k3s (Name m))) (Some (<[ServiceNameLabel := k3s (default EmptyString (l !! ServiceNameLabel))]> l)))
  end.
Definition k3s_sliceV1 (e : EndpointSliceV1) : option EndpointSliceV1 :=
  option_map (fun m => mkEndpointSliceV1 m (slice1_Endpoints e) (slice1_Ports e)) (k3s_slice_meta (slice1_meta e)).
Definition k3s_sliceV1Beta1 (e : EndpointSliceV1Beta1) : option EndpointSliceV1Beta1 :=
  option_map (fun m => mkEndpointSliceV1Beta1 m (sliceb_Endpoints e) (sliceb_Ports e)) (k3s_slice_meta (sliceb_meta e)).

(** ** The interceptors (handler.go) *)

Notation handler := (http_request -> response).

Definition debugger (h : handler) : handler := fun r => if HasPrefix (rq_Path r) "/debug/pprof" then Profile else h r.

Definition interceptEventRequest (h : handler) : handler := fun r =>
  if negb (String.eqb (rq_Method r) "POST") || negb (HasSuffix (rq_Path r) "/events") || HasPrefix (rq_Path r) "/superedge-ingress"
  then h r else ToHost r.

(** The serializer for the reply, or a bad request. *)
Definition negotiated s r (k : SerializerInfo -> response) : response :=
  match parseAccept (header_get r "Accept") (mediaSerializer s) with
  | None => StatusCode 400
  | Some info => k info
  end.

Definition interceptNodeRequest s (h : handler) : handler := fun r =>
  if negb (String.eqb (rq_Method r) "GET") || negb (HasPrefix (rq_Path r) "/api/v1/nodes") then h r
  else match GetNode (cache s) (default EmptyString (last (split_on "/"%char (rq_Path r)))) with
       | None => StatusCode 404
       | Some n => negotiated s r (fun info => Encoded (MediaType info) (ENode n))
       end.

Definition ContentTypeProtobuf : string := "application/vnd.kubernetes.protobuf".
Definition ContentTypeJSON : string := "application/json".

Definition watch_response r (info : SerializerInfo) (c : Channel) (first : list Endpoints) (ingress : option string) : response :=
  let timeoutSeconds := query_get r "timeoutSeconds" in
  if negb (can_flush r) then StatusCode 405
  else if negb (has_stream info) then Aborted
  else Watching (if String.eqb (MediaType info) ContentTypeProtobuf then ContentTypeProtobuf +:+ ";stream=watch" else ContentTypeJSON)
         c (if String.eqb timeoutSeconds EmptyString then None else Some timeoutSeconds) first ingress.

(** A list, or with the parameter [watch] a stream. *)
Definition list_or_watch s r (l : option encoded) (c : Channel) (first : list Endpoints) (ingress : option string) : response :=
  negotiated s r (fun info =>
    if String.eqb (query_get r "watch") EmptyString
    then match l with None => Aborted | Some o => Encoded (MediaType info) o end
    else watch_response r info c first ingress).

(** GET requests below a path. *)
Definition intercept_get (prefix : string) (answer : handler) (h : handler) : handler := fun r =>
  if negb (String.eqb (rq_Method r) "GET") || negb (HasPrefix (rq_Path r) prefix) then h r else answer r.

Definition interceptServiceRequest s : handler -> handler :=
  intercept_get "/api/v1/services" (fun r =>
    list_or_watch s r (Some (EServices (GetServices (cache s) ++ (k3s_service <$> default [] (k3sServices s))))) serviceBroardcaster [] None).

Definition interceptEndpointsRequest s : handler -> handler :=
  intercept_get "/api/v1/endpoints" (fun r =>
    list_or_watch s r (Some (EEndpoints (GetEndpoints (cache s)))) endpointsBroadcaster [] None).

Definition interceptEndpointSliceV1Request s : handler -> handler :=
  intercept_get "/apis/discovery.k8s.io/v1/endpointslices" (fun r =>
    list_or_watch s r (option_map (fun l => ESlicesV1 (GetEndpointSliceV1 (cache s) ++ l)) (mapM k3s_sliceV1 (default [] (k3sSlicesV1 s))))
      endpointSliceV1Broardcaster [] None).

Definition interceptEndpointSliceV1Beta1Request s : handler -> handler :=
  intercept_get "/apis/discovery.k8s.io/v1beta1/endpointslices" (fun r =>
    list_or_watch s r
      (option_map (fun l => ESlicesV1Beta1 (GetEndpointSliceV1Beta1 (cache s) ++ l)) (mapM k3s_sliceV1Beta1 (default [] (k3sSlicesV1Beta1 s))))
      endpointSliceV1Beta1Boardcaster [] None).

(** The ingress' name goes from the path to the header, behind what the
    client may have put there. *)
Definition interceptIngressRequest (h : handler) : handler := fun r =>
  if HasPrefix (rq_Path r) "/superedge-ingress"
  then match getIngressPath (rq_Path r) with
       | None => Aborted
       | Some (ingress, path) => h (header_add (with_path r path) SuperEdgeIngress ingress)
       end
  else h r.

Definition interceptIngressEndpointsRequest s (h : handler) : handler := fun r =>
  if String.eqb (header_get r SuperEdgeIngress) EmptyString || negb (contains_at (rq_Path r) "/api/v1/endpoints") then h r
  else list_or_watch s r (Some (EEndpoints (GetEndpoints (cache s)))) endpointsBroadcaster
         (GetEndpoints (cache s)) (Some (header_get r SuperEdgeIngress)).

Definition buildFilterChains s (debug : bool) : handler :=
  let h := Forward in
  let h := interceptIngressEndpointsRequest s h in
  let h := interceptIngressRequest h in
  let h := interceptEndpointSliceV1Beta1Request s h in
  let h := interceptEndpointSliceV1Request s h in
  let h := interceptEndpointsRequest s h in
  let h := interceptServiceRequest s h in
  let h := interceptEventRequest h in
  let h := interceptNodeRequest s h in
  if debug then debugger h else h.

(** ** Narrowing to a unit *)

Definition NodeLabelsFunc (n : Node) : list string :=
  (fun kv => fst kv +:+ "=" +:+ snd kv) <$> go_range (mp (Labels (node_meta n))).

(** The nodes the indexer has under a key and value. *)
Definition ByIndex (nodes : list Node) (indexed : string) : list Node :=
  filter (fun n => existsb (String.eqb indexed) (NodeLabelsFunc n) = true) nodes.

Definition on_node (nodes : list Node) (a : EndpointAddress) : bool :=
  match ea_NodeName a with
  | None => false
  | Some nodeName => existsb (fun n => String.eqb (Name (node_meta n)) nodeName) nodes
  end.

(** The addresses are replaced when some are left out. *)
Definition filter_subset (nodes : list Node) (sub : EndpointSubset) : EndpointSubset :=
  let filterAddress := filter (fun a => on_node nodes a = true) (sl (es_Addresses sub)) in
  if bool_decide (length filterAddress <> length (sl (es_Addresses sub)))
  then mkEndpointSubset (Some filterAddress) (es_NotReadyAddresses sub) (es_Ports sub) else sub.

(** Without nodes nothing is left out. *)
Definition filerIngressEndpoints (nodes : list Node) (ep : Endpoints) (key value : string) : Endpoints :=
  match ByIndex nodes (key +:+ "=" +:+ value) with
  | [] => ep
  | unitnodes => mkEndpoints (eps_meta ep) (Some (filter_subset unitnodes <$> sl (eps_Subsets ep)))
  end.

(** *** The stream of an ingress controller *)

Definition narrowed (s : interceptorServer) (ingress : string) (e : Endpoints) : Endpoints :=
  filerIngressEndpoints (nodeIndexer s) e ingress NodeUnitValue.

Definition addresses_on (name : string) (e : Endpoints) : bool :=
  existsb (fun sub => existsb (fun a => bool_decide (ea_NodeName a = Some name)) (sl (es_Addresses sub))) (sl (eps_Subsets e)).

(** One round of the loop: an event of the endpoints channel, or of the node
    channel, with the server as it is then. *)
Inductive ingress_input : Type :=
| FromEndpoints (t : EventType) (o : Object)
| FromNodes (n : Node).

Definition ingress_round (s : interceptorServer) (ingress : string) (i : ingress_input) : list (EventType * Object) :=
  match i with
  | FromEndpoints t (OEndpoints e) => [(t, OEndpoints (narrowed s ingress e))]
  | FromEndpoints t o => [(t, o)]
  | FromNodes n =>
      (fun e => (Modified, OEndpoints (narrowed s ingress e))) <$>
        filter (fun e => addresses_on (Name (node_meta n)) e = true) (GetEndpoints (cache s))
  end.

Definition ingress_stream (s : interceptorServer) (ingress : string) (inputs : list ingress_input) : list (EventType * Object) :=
  concat (ingress_round s ingress <$> inputs).

(** ** A unit's own cluster (server.go, setupK3sInformer) *)

(** The informers' handlers for its objects, and for an error of a watch,
    which empties the store.  Endpoints are then deleted under their own name. *)
Definition k3s_service_event (t : EventType) (svc : Service) : Broadcast := mkBroadcast serviceBroardcaster true t (OService (k3s_service svc)).
Definition k3s_endpoints_event (t : EventType) (e : Endpoints) : Broadcast := mkBroadcast endpointsBroadcaster true t (OEndpoints (k3s_endpoints e)).
Definition k3s_sliceV1_event (t : EventType) (e : EndpointSliceV1) : option Broadcast :=
  option_map (fun e => mkBroadcast endpointSliceV1Broardcaster true t (OSliceV1 e)) (k3s_sliceV1 e).
Definition k3s_sliceV1Beta1_event (t : EventType) (e : EndpointSliceV1Beta1) : option Broadcast :=
  option_map (fun e => mkBroadcast endpointSliceV1Beta1Boardcaster true t (OSliceV1Beta1 e)) (k3s_sliceV1Beta1 e).

Definition k3s_service_error (store : list Service) : list Broadcast := k3s_service_event Deleted <$> store.
Definition k3s_endpoints_error (store : list Endpoints) : list Broadcast :=
  (fun e => mkBroadcast endpointsBroadcaster true Deleted (OEndpoints e)) <$> store.
Definition k3s_sliceV1_error (store : list EndpointSliceV1) : option (list Broadcast) := mapM (k3s_sliceV1_event Deleted) store.
Definition k3s_sliceV1Beta1_error (store : list EndpointSliceV1Beta1) : option (list Broadcast) := mapM (k3s_sliceV1Beta1_event Deleted) store.

Inductive k3s_node_action : Type := NodeEvent (b : Broadcast) | DeleteK3sNode (name : string).

(** A node of the unit's cluster that the cloud does not have in the unit any
    more is deleted there. *)
Definition k3s_node_update (nodeLister : gmap string Node) (nodeunit : string) (updateNode : Node) : k3s_node_action :=
  let delete := DeleteK3sNode (Name (node_meta updateNode)) in
  match nodeLister !! Name (node_meta updateNode) with
  | None => delete
  | Some n =>
      match mp (Labels (node_meta n)) !! nodeunit with
      | Some v => if String.eqb v NodeUnitValue then NodeEvent (mkBroadcast nodeBroadcaster true Modified (ONode updateNode)) else delete
      | None => delete
      end
  end.
Definition k3s_node_error (store : list Node) : list Broadcast := (fun n => mkBroadcast nodeBroadcaster true Deleted (ONode n)) <$> store.

End Server.

Example TestGetIngressPath : getIngressPath "/superedge-ingress/zone/api/v1?a=1" = Some ("zone", "/api/v1?a=1")%string.
Proof. reflexivity. Qed.

(** ** Reading *)

Section Reading.
Context `{R : GoRange} (ParseAccept : string -> list (string * string)).
Implicit Types (s : interceptorServer) (r : http_request).

Local Ltac chain Hm Hp := unfold buildFilterChains, debugger, interceptNodeRequest, interceptEventRequest, interceptServiceRequest,
    interceptEndpointsRequest, interceptEndpointSliceV1Request, intercept_get; cbv beta zeta; rewrite ?Hm, ?Hp; reflexivity.

(** Which answer a GET request below a path gets. *)
Lemma chain_services s debug r : rq_Method r = "GET"%string -> HasPrefix (rq_Path r) "/api/v1/services" = true ->
  buildFilterChains ParseAccept s debug r = list_or_watch ParseAccept s r
    (Some (EServices (GetServices (cache s) ++ (k3s_service <$> default [] (k3sServices s))))) serviceBroardcaster [] None.
Proof. intros Hm [rest Hp]%HasPrefix_app. destruct debug; chain Hm Hp. Qed.

Lemma chain_endpoints s debug r : rq_Method r = "GET"%string -> HasPrefix (rq_Path r) "/api/v1/endpoints" = true ->
  buildFilterChains ParseAccept s debug r = list_or_watch ParseAccept s r (Some (EEndpoints (GetEndpoints (cache s)))) endpointsBroadcaster [] None.
Proof. intros Hm [rest Hp]%HasPrefix_app. destruct debug; chain Hm Hp. Qed.

Lemma chain_slicesV1 s debug r : rq_Method r = "GET"%string -> HasPrefix (rq_Path r) "/apis/discovery.k8s.io/v1/endpointslices" = true ->
  buildFilterChains ParseAccept s debug r = list_or_watch ParseAccept s r
    (option_map (fun l => ESlicesV1 (GetEndpointSliceV1 (cache s) ++ l)) (mapM k3s_sliceV1 (default [] (k3sSlicesV1 s)))) endpointSliceV1Broardcaster [] None.
Proof. intros Hm [rest Hp]%HasPrefix_app. destruct debug; chain Hm Hp. Qed.

End Reading.

(** C18: what kube-proxy reads is what pruning prescribes: after any sequence of
    informer events and reports and failures of the health poller, a list of
    endpoints through the whole chain is answered from the cache with the
    stored objects pruned, up to semantic equality, with the current nodes and
    services and the current health information or the last report (the same
    unless a failed health request cleared it since, [cache_refines_pruning]),
    and so is a list of v1 slices, to which the slices of the unit's own
    cluster are added under their new names, when every one of them has labels
    (else the handler panics). *)
Theorem lists_are_pruned `{R : GoRange} `{SemanticEq Endpoints} `{SemanticEq EndpointSliceV1} `{SemanticEq EndpointSliceV1Beta1}
    `{SemanticEq (gslice EndpointSubset)} (ParseAccept : string -> list (string * string)) (s : interceptorServer) (debug : bool)
    (r : http_request) (info : SerializerInfo) (h : string) (w a sl_ : bool) (ops : list op)
  (Hcache : cache s = fst (run (NewStorageCache h w a sl_) ops))
  (Hget : rq_Method r = "GET"%string) (Hlist : query_get r "watch" = EmptyString)
  (Haccept : parseAccept ParseAccept (header_get r "Accept") (mediaSerializer s) = Some info) :
  (HasPrefix (rq_Path r) "/api/v1/endpoints" = true -> exists l,
     buildFilterChains ParseAccept s debug r = Encoded (MediaType info) (EEndpoints l)
     /\ reads_as (on_state pruneEndpoints) [localNodeInfo (cache s); reported ops] (cache s) l (go_range (endpointsMap (cache s))))
  /\ (HasPrefix (rq_Path r) "/apis/discovery.k8s.io/v1/endpointslices" = true -> forall extra,
     mapM k3s_sliceV1 (default [] (k3sSlicesV1 s)) = Some extra -> exists l,
     buildFilterChains ParseAccept s debug r = Encoded (MediaType info) (ESlicesV1 (l ++ extra))
     /\ reads_as (on_state pruneEndpointSliceV1) [localNodeInfo (cache s); reported ops] (cache s) l
          (go_range (endpointSliceV1Map (cache s)))).
Proof.
  assert (coherent [localNodeInfo (cache s); reported ops] (cache s)) as [Ce C1 _] by (rewrite Hcache; apply run_new).
  split.
  - intros Hp. exists (GetEndpoints (cache s)). rewrite chain_endpoints by done. unfold list_or_watch, negotiated.
    rewrite Haccept, Hlist. split; [done|]. apply (coherent_reads _ (cache s) _ Ce).
  - intros Hp extra Hx. exists (GetEndpointSliceV1 (cache s)). rewrite chain_slicesV1 by done. unfold list_or_watch, negotiated.
    rewrite Haccept, Hlist, Hx. split; [done|]. apply (coherent_reads _ (cache s) _ C1).
Qed.

(** ** A unit's ingress controller *)

Section Ingress.
Context `{R : GoRange} `{SE1 : SemanticEq Endpoints} `{SE2 : SemanticEq EndpointSliceV1}
  `{SE3 : SemanticEq EndpointSliceV1Beta1} `{SE4 : SemanticEq (gslice EndpointSubset)}.
Implicit Types (s : interceptorServer).

Definition unit_nodes s (ingress : string) : list string :=
  (fun n => Name (node_meta n)) <$> ByIndex (nodeIndexer s) (ingress +:+ "=" +:+ NodeUnitValue).

Lemma on_node_names nodes a : on_node nodes a = true <-> exists name, ea_NodeName a = Some name /\ name ∈ (fun n => Name (node_meta n)) <$> nodes.
Proof using Type.
  unfold on_node. destruct (ea_NodeName a) as [name|]; [|split; [done|by intros (? & ? & _)]].
  rewrite existsb_exists. setoid_rewrite String.eqb_eq. setoid_rewrite <- list_elem_of_In. setoid_rewrite list_elem_of_fmap.
  split; [intros (n & Hn & <-); eauto|]. intros (? & [= <-] & n & -> & Hn). eauto.
Qed.

Lemma list_filter_ext_in {A : Type} (P Q : A -> Prop) `{!forall x, Decision (P x), !forall x, Decision (Q x)} (l : list A) :
  (forall x, x ∈ l -> P x <-> Q x) -> filter P l = filter Q l.
Proof using Type.
  induction l as [|x l IH]; intros Hl; [done|]. rewrite !filter_cons, IH by (intros y Hy; apply Hl; by right).
  apply decide_ext, Hl. by left.
Qed.

(** Narrowing depends on where the addresses are, and on whether the unit has
    nodes at all. *)
Lemma narrowed_ext s s' ingress e : unit_nodes s ingress <> [] -> unit_nodes s' ingress <> [] ->
  (forall name, addresses_on name e = true -> name ∈ unit_nodes s ingress <-> name ∈ unit_nodes s' ingress) ->
  narrowed s ingress e = narrowed s' ingress e.
Proof using Type.
  unfold unit_nodes, narrowed, filerIngressEndpoints. intros Hne Hne' Hext.
  destruct (ByIndex (nodeIndexer s) _) as [|n l] eqn:El; [done|]. destruct (ByIndex (nodeIndexer s') _) as [|n' l'] eqn:El'; [done|].
  f_equal. f_equal. apply list_fmap_ext. intros i sub Hsub. apply list_elem_of_lookup_2 in Hsub. unfold filter_subset.
  assert (filter (fun a => on_node (n :: l) a = true) (sl (es_Addresses sub)) = filter (fun a => on_node (n' :: l') a = true) (sl (es_Addresses sub))) as ->; [|done].
  apply list_filter_ext_in. intros a Ha. rewrite !on_node_names.
  assert (forall name, ea_NodeName a = Some name -> addresses_on name e = true) as Hon.
  { intros name Hname. unfold addresses_on. apply existsb_exists. exists sub. split; [by apply list_elem_of_In|].
    apply existsb_exists. exists a. split; [by apply list_elem_of_In|]. by apply bool_decide_eq_true. }
  split; intros (name & Hname & Hin); exists name; (split; [done|]); by apply (Hext name (Hon name Hname)).
Qed.

Lemma narrowed_meta s ingress e : eps_meta (narrowed s ingress e) = eps_meta e.
Proof using Type. unfold narrowed, filerIngressEndpoints. by destruct (ByIndex _ _). Qed.

(** What the last event about [k] says, if there is one. *)
Definition said (k : NamespacedName) (ev : event Endpoints) : option (option Endpoints) :=
  if decide (meta_key (eps_meta (snd ev)) = k) then Some (match fst ev with Deleted => None | _ => Some (snd ev) end) else None.

Fixpoint touched (k : NamespacedName) (evts : list (event Endpoints)) : option (option Endpoints) :=
  match evts with
  | [] => None
  | ev :: evts => match touched k evts with Some r => Some r | None => said k ev end
  end.

Lemma touched_app k e1 e2 : touched k (e1 ++ e2) = match touched k e2 with Some r => Some r | None => touched k e1 end.
Proof using Type. induction e1 as [|ev e1 IH]; cbn [app touched]; [by destruct (touched k e2)|]. rewrite IH. by destruct (touched k e2). Qed.

Lemma apply_event_said k v (ev : event Endpoints) : apply_event v ev !! k = match said k ev with Some r => r | None => v !! k end.
Proof using Type.
  destruct ev as [t e]. unfold said. cbn [fst snd apply_event]. change (meta_of e) with (eps_meta e). case_decide as Hk.
  - subst k. destruct t; [apply lookup_insert_eq..|apply lookup_delete_eq].
  - destruct t; [by apply lookup_insert_ne..|by apply lookup_delete_ne].
Qed.

Lemma replay_touched k v evts : replay v evts !! k = match touched k evts with Some r => r | None => v !! k end.
Proof using Type.
  revert v. induction evts as [|ev evts IH]; intros v; [done|]. cbn [touched].
  change (replay v (ev :: evts)) with (replay (apply_event v ev) evts). rewrite IH, apply_event_said. by destruct (touched k evts).
Qed.

(** The events of a stream. *)
Definition sent (l : list (EventType * Object)) : list (event Endpoints) :=
  omap (fun '(t, o) => match o with OEndpoints e => Some (t, e) | _ => None end) l.

Definition from_endpoints (inputs : list ingress_input) : list (event Endpoints) :=
  omap (fun i => match i with FromEndpoints t (OEndpoints e) => Some (t, e) | _ => None end) inputs.

Lemma sent_app l1 l2 : sent (l1 ++ l2) = sent l1 ++ sent l2.
Proof using Type. apply omap_app. Qed.

(** The endpoints of the cache that a node's event sends again. *)
Definition resent s (n : Node) : list Endpoints := filter (fun e => addresses_on (Name (node_meta n)) e = true) (GetEndpoints (cache s)).

Lemma sent_nodes s ingress l :
  sent ((fun e => (Modified, OEndpoints (narrowed s ingress e))) <$> l) = (fun e => (Modified, narrowed s ingress e)) <$> l.
Proof using Type. induction l as [|e l IH]; [done|]. cbn [fmap list_fmap sent omap list_omap]. f_equal. exact IH. Qed.

Lemma touched_modified k s ingress l :
  match touched k ((fun e => (Modified, narrowed s ingress e)) <$> l) with
  | Some r => exists e, e ∈ l /\ meta_key (eps_meta e) = k /\ r = Some (narrowed s ingress e)
  | None => forall e, e ∈ l -> meta_key (eps_meta e) <> k
  end.
Proof using Type.
  induction l as [|e l IH]; [by intros e ?%elem_of_nil|]. rewrite fmap_cons. cbn [touched].
  destruct (touched k _) as [r|].
  - destruct IH as (e' & Hin & H). exists e'. split; [by right|done].
  - unfold said. cbn [fst snd]. rewrite narrowed_meta. case_decide as Hk.
    + exists e. split; [by left|done].
    + intros e' [->|Hin]%elem_of_cons; [done|by apply IH].
Qed.

Lemma elem_of_GetEndpoints sc e : res_keyed (endpointsMap sc) ->
  e ∈ GetEndpoints sc <-> viewed (endpointsMap sc) !! meta_key (eps_meta e) = Some e.
Proof using Type.
  intros Hk. unfold GetEndpoints, viewed. rewrite list_elem_of_fmap, lookup_fmap, fmap_Some. split.
  - intros ([k c] & -> & Hin%elem_of_go_range). exists c. split; [|done]. by destruct (Hk k c Hin) as [_ <-].
  - intros (c & Hc & ->). exists (meta_key (eps_meta (modified c)), c). split; [done|]. by apply elem_of_go_range.
Qed.

(** What the whole stream says about [k], when the cache now holds [now]. *)
Lemma touched_stream s ingress inputs k :
  res_keyed (endpointsMap (cache s)) ->
  let now := viewed (endpointsMap (cache s)) !! k in
  match touched k (sent (ingress_stream s ingress inputs)) with
  | Some r => r = narrowed s ingress <$> now \/ Some r = option_map (option_map (narrowed s ingress)) (touched k (from_endpoints inputs))
  | None => touched k (from_endpoints inputs) = None
            /\ forall n e, FromNodes n ∈ inputs -> now = Some e -> addresses_on (Name (node_meta n)) e = false
  end.
Proof using Type.
  intros Hk. cbv zeta. induction inputs as [|i inputs IH]; [split; [done|by intros n e ?%elem_of_nil]|].
  unfold ingress_stream. rewrite fmap_cons. cbn [concat]. fold (ingress_stream s ingress inputs).
  rewrite sent_app, touched_app. destruct (touched k (sent (ingress_stream s ingress inputs))) as [r|] eqn:Er.
  { destruct IH as [->|Hr]; [by left|]. right. rewrite Hr. destruct i as [t []|n]; try done. cbn [from_endpoints omap list_omap touched].
    fold (from_endpoints inputs). destruct (touched k (from_endpoints inputs)); [done|by destruct r]. }
  destruct IH as [Hnone Hnodes]. destruct i as [t o|n].
  - assert (forall n e, FromNodes n ∈ FromEndpoints t o :: inputs -> viewed (endpointsMap (cache s)) !! k = Some e ->
      addresses_on (Name (node_meta n)) e = false) as Hnodes' by (intros n e [?|?]%elem_of_cons; [done|by apply Hnodes]).
    destruct o; try (by split; [exact Hnone|]). cbn [ingress_round sent omap list_omap touched from_endpoints]. fold (from_endpoints inputs).
    rewrite Hnone. unfold said. cbn [fst snd]. rewrite narrowed_meta. case_decide; [|by split]. right. by destruct t.
  - cbn [ingress_round]. fold (resent s n). rewrite sent_nodes. pose proof (touched_modified k s ingress (resent s n)) as Ht.
    change (from_endpoints (FromNodes n :: inputs)) with (from_endpoints inputs).
    assert (forall e, e ∈ resent s n <-> addresses_on (Name (node_meta n)) e = true /\ viewed (endpointsMap (cache s)) !! meta_key (eps_meta e) = Some e) as Hin.
    { intros e. unfold resent. by rewrite list_elem_of_filter, elem_of_GetEndpoints. }
    destruct (touched k ((fun e => (Modified, narrowed s ingress e)) <$> resent s n)) as [r|].
    + destruct Ht as (e & [_ He]%Hin & Hke & ->). left. by rewrite <- Hke, He.
    + split; [done|]. intros n' e [[= ->]|H]%elem_of_cons Hnow; [|by apply (Hnodes n')].
      apply not_true_is_false. intros Ha. assert (meta_key (eps_meta e) = k) as Hke.
      { unfold viewed in Hnow. rewrite lookup_fmap in Hnow. apply fmap_Some in Hnow as (c & Hc & ->). by destruct (Hk k c Hc). }
      apply (Ht e); [|done]. apply Hin. by rewrite Hke.
Qed.

(** C19: a unit's ingress controller sees the cache narrowed to its unit.  After
    any handler of the cache has run, and the stream has taken the endpoints
    events it broadcast, in their order, and node events in between, in any
    order, the controller holds exactly the narrowed cache.  The unit has nodes
    before and after, and every node that joined or left it is announced by a
    node event. *)
Theorem ingress_follows (s s' : interceptorServer) (ingress : string) (o : op) (bs : list Broadcast) (inputs : list ingress_input)
  (Hok : containers_ok (cache s)) (Hrun : run_op (cache s) o = (cache s', bs))
  (Hunit : unit_nodes s ingress <> []) (Hunit' : unit_nodes s' ingress <> [])
  (Hevents : from_endpoints inputs = seen_endpoints bs)
  (Hannounced : forall name, (name ∈ unit_nodes s ingress <-> name ∈ unit_nodes s' ingress)
     \/ exists n, FromNodes n ∈ inputs /\ Name (node_meta n) = name) :
  replay (narrowed s ingress <$> viewed (endpointsMap (cache s))) (sent (ingress_stream s' ingress inputs))
  = narrowed s' ingress <$> viewed (endpointsMap (cache s')).
Proof using Type.
  pose proof (run_op_follows (cache s) o Hok) as Hf. pose proof (run_op_containers (cache s) o Hok) as Hok'.
  rewrite Hrun in Hf, Hok'. destruct Hf as [Hf _]. cbn [fst] in Hok'. apply map_eq. intros k. rewrite replay_touched, !lookup_fmap.
  assert (viewed (endpointsMap (cache s')) !! k = match touched k (seen_endpoints bs) with Some r => r | None => viewed (endpointsMap (cache s)) !! k end) as Hk.
  { by rewrite <- Hf, replay_touched. }
  pose proof (touched_stream s' ingress inputs k (keyed_endpoints _ Hok')) as Ht. cbv zeta in Ht. rewrite Hevents in Ht.
  destruct (touched k (sent _)) as [r|].
  - destruct Ht as [->|Hr]; [done|]. rewrite Hk. destruct (touched k (seen_endpoints bs)); [|done]. by injection Hr.
  - destruct Ht as [Hnone Hnodes]. rewrite Hnone in Hk. rewrite Hk.
    destruct (viewed (endpointsMap (cache s)) !! k) as [e|] eqn:He; [|done]. cbn [fmap option_fmap option_map]. f_equal.
    apply narrowed_ext; [done|done|]. intros name Hon. destruct (Hannounced name) as [|(n & Hn & <-)]; [done|].
    by rewrite (Hnodes n e Hn Hk) in Hon.
Qed.

End Ingress.

(** ** A watch error of a unit's own cluster *)

Section K3s.
Context `{R : GoRange}.

Lemma replay_deleted {E : Type} `{Prunable E} (l : list E) (v : gmap NamespacedName E) k :
  replay v ((fun e => (Deleted, e)) <$> l) !! k = if decide (k ∈ (fun e => meta_key (meta_of e)) <$> l) then None else v !! k.
Proof.
  revert v. induction l as [|e l IH]; intros v; [by rewrite decide_False by by apply not_elem_of_nil|].
  rewrite !fmap_cons. change (replay v ((Deleted, e) :: ?l)) with (replay (delete (meta_key (meta_of e)) v) l). rewrite IH.
  destruct (decide (k ∈ _)) as [Hin|Hin]; [by rewrite decide_True by by right|].
  destruct (decide (k = meta_key (meta_of e))) as [->|Hne].
  - rewrite lookup_delete_eq, decide_True; [done|by left].
  - rewrite lookup_delete_ne by congruence. rewrite decide_False; [done|]. intros [?|?]%elem_of_cons; congruence.
Qed.

(** The renamed slices of a store, by their keys. *)
Definition named_in (store : list EndpointSliceV1) : list NamespacedName :=
  (fun e => mkNN (Namespace (slice1_meta e)) (k3s (Name (slice1_meta e)))) <$> store.

Lemma k3s_sliceV1_error_events store bs : k3s_sliceV1_error store = Some bs ->
  exists l, seen_V1 bs = (fun e => (Deleted, e)) <$> l /\ (fun e => meta_key (meta_of e)) <$> l = named_in store.
Proof.
  unfold k3s_sliceV1_error. rewrite mapM_Some. induction 1 as [|e b store bs Hb _ (l & Hl & Hn)]; [by exists []|].
  unfold k3s_sliceV1_event, k3s_sliceV1, k3s_slice_meta in Hb. destruct (Labels (slice1_meta e)) as [ls|]; [|done].
  injection Hb as <-. eexists (_ :: l). rewrite !fmap_cons. split.
  - cbn [seen_V1 omap list_omap b_chan b_object b_type]. f_equal. exact Hl.
  - unfold named_in. rewrite fmap_cons. by f_equal.
Qed.

(** When a watch on a unit's own cluster fails, the events that are sent
    for its slices remove from a watcher's view exactly these slices, under the
    names they were announced with.  The events for its endpoints do not: an
    endpoints object announced as [k3s-x] stays, and what goes is the cluster's
    own object [x] of that namespace. *)
Theorem k3s_watch_error (slices : list EndpointSliceV1) (eps : list Endpoints) (bs : list Broadcast)
    (v : gmap NamespacedName EndpointSliceV1) (w : gmap NamespacedName Endpoints)
  (Hbs : k3s_sliceV1_error slices = Some bs) :
  (forall k, replay v (seen_V1 bs) !! k = if decide (k ∈ named_in slices) then None else v !! k)
  /\ (forall e, e ∈ eps -> replay w (seen_endpoints (k3s_endpoints_error eps)) !! meta_key (eps_meta e) = None)
  /\ forall e, meta_key (eps_meta (k3s_endpoints e)) ∉ (fun e => meta_key (eps_meta e)) <$> eps ->
       replay w (seen_endpoints (k3s_endpoints_error eps)) !! meta_key (eps_meta (k3s_endpoints e)) = w !! meta_key (eps_meta (k3s_endpoints e)).
Proof.
  destruct (k3s_sliceV1_error_events slices bs Hbs) as (l & -> & Hl).
  assert (seen_endpoints (k3s_endpoints_error eps) = (fun e => (Deleted, e)) <$> eps) as ->.
  { unfold k3s_endpoints_error. clear. induction eps as [|e eps IH]; [done|]. rewrite !fmap_cons. cbn [seen_endpoints omap list_omap b_chan b_object b_type].
    f_equal. exact IH. }
  split_and!.
  - intros k. by rewrite replay_deleted, Hl.
  - intros e He. rewrite replay_deleted, decide_True; [done|]. apply list_elem_of_fmap. by exists e.
  - intros e He. by rewrite replay_deleted, decide_False.
Qed.

End K3s.

(** *** Concrete runs *)

Definition ex_slice1 (name : string) : EndpointSliceV1 :=
  mkEndpointSliceV1 (with_labels (named "ns" name) (Some {[ ServiceNameLabel := "web"%string ]})) None None.
Definition ex_web (name : string) (nodes : list string) : Endpoints :=
  mkEndpoints (named "ns" name) (Some [mkEndpointSubset (Some ((fun n => mkEndpointAddress "10.0.0.1" (Some n)) <$> nodes)) None None]).

Definition view_of {E : Type} `{Prunable E} (l : list E) : gmap NamespacedName E := list_to_map ((fun e => (meta_key (meta_of e), e)) <$> l).

(** The view keeps [k3s-web] of the unit and loses [web] of the cluster. *)
Lemma k3s_watch_error_witness :
  replay (view_of [ex_slice1 "web"; ex_slice1 "k3s-web"]) (seen_V1 (default [] (k3s_sliceV1_error [ex_slice1 "web"]))) !! mkNN "ns" "k3s-web" = None
  /\ replay (view_of [ex_web "web" []; ex_web "k3s-web" []]) (seen_endpoints (k3s_endpoints_error [ex_web "web" []])) !! mkNN "ns" "web" = None
  /\ replay (view_of [ex_web "web" []; ex_web "k3s-web" []]) (seen_endpoints (k3s_endpoints_error [ex_web "web" []])) !! mkNN "ns" "k3s-web"
     = Some (ex_web "k3s-web" []).
Proof.
  destruct (k3s_watch_error [ex_slice1 "web"] [ex_web "web" []] (default [] (k3s_sliceV1_error [ex_slice1 "web"]))
    (view_of [ex_slice1 "web"; ex_slice1 "k3s-web"]) (view_of [ex_web "web" []; ex_web "k3s-web" []]) eq_refl) as (H1 & H2 & H3).
  split_and!.
  - rewrite H1. vm_compute. reflexivity.
  - apply (H2 (ex_web "web" [])). by left.
  - assert (meta_key (eps_meta (k3s_endpoints (ex_web "web" []))) ∉ (fun e => meta_key (eps_meta e)) <$> [ex_web "web" []]) as Hn by by_compute.
    exact (H3 (ex_web "web" []) Hn).
Defined.

#[local] Instance ex_range : GoRange := range_in_key_order.
#[local] Instance ex_eps_eq : SemanticEq Endpoints := leibniz_semantic_eq _.
#[local] Instance ex_s1_eq : SemanticEq EndpointSliceV1 := leibniz_semantic_eq _.
#[local] Instance ex_sb_eq : SemanticEq EndpointSliceV1Beta1 := leibniz_semantic_eq _.
#[local] Instance ex_sub_eq : SemanticEq (gslice EndpointSubset) := leibniz_semantic_eq _.

Definition json_serializer : SerializerInfo := mkSerializerInfo ContentTypeJSON "application" "json" true.
Definition any_type (header : string) : list (string * string) := [("*", "*")]%string.
Definition ex_server (sc : storageCache) (nodes : list Node) : interceptorServer := mkInterceptorServer sc [json_serializer] None None None nodes.
Definition ex_get (path : string) : http_request := mkHttpRequest "GET" path ∅ ∅ true.

(** Node b, in another zone than the host a, serves the service. *)
Definition two_zones : list op :=
  [op_add nodeHandler (ONode (mk_node "a" "z1")); op_add nodeHandler (ONode (mk_node "b" "z2"));
   op_add serviceHandler (OService web); op_add endpointsHandler (OEndpoints web_eps)].

Lemma lists_are_pruned_witness :
  let s := ex_server (fst (run (NewStorageCache "a" false true true) two_zones)) [] in
  exists l, buildFilterChains any_type s false (ex_get "/api/v1/endpoints") = Encoded ContentTypeJSON (EEndpoints l)
  /\ reads_as (on_state pruneEndpoints) [∅; ∅] (cache s) l (go_range (endpointsMap (cache s))).
Proof.
  exact (proj1 (lists_are_pruned any_type (ex_server (fst (run (NewStorageCache "a" false true true) two_zones)) []) false
    (ex_get "/api/v1/endpoints") json_serializer "a" false true true two_zones eq_refl eq_refl eq_refl eq_refl) eq_refl).
Defined.

(** Node b joins the unit u, which node a belongs to. *)
Definition in_unit (n : Node) : Node :=
  mkNode (with_labels (node_meta n) (Some (<["u"%string := NodeUnitValue]> (mp (Labels (node_meta n)))))) None None None.
Definition unit_cache : storageCache :=
  fst (run (NewStorageCache "a" false true true)
    [op_add nodeHandler (ONode (mk_node "a" "z1")); op_add nodeHandler (ONode (mk_node "b" "z1"));
     op_add serviceHandler (OService web); op_add endpointsHandler (OEndpoints web_eps)]).
Definition b_joins : op := op_update nodeHandler (ONode (mk_node "b" "z1")) (ONode (in_unit (mk_node "b" "z1"))).
Definition before_join : interceptorServer := ex_server unit_cache [in_unit (mk_node "a" "z1"); mk_node "b" "z1"].
Definition after_join : interceptorServer :=
  ex_server (fst (run_op unit_cache b_joins)) [in_unit (mk_node "a" "z1"); in_unit (mk_node "b" "z1")].
Definition join_inputs : list ingress_input :=
  FromNodes (in_unit (mk_node "b" "z1")) ::
  ((fun ev => FromEndpoints (fst ev) (OEndpoints (snd ev))) <$> seen_endpoints (snd (run_op unit_cache b_joins))).

Lemma ingress_follows_witness :
  viewed (endpointsMap (cache after_join)) = {[ mkNN "ns" "web" :=
    mkEndpoints (named "ns" "web") (Some [mkEndpointSubset (Some [mkEndpointAddress "10.0.0.1" (Some "b"%string)]) (Some []) None]) ]}
  /\ narrowed before_join "u" web_eps = mkEndpoints (named "ns" "web") (Some [mkEndpointSubset (Some []) None None])
  /\ replay (narrowed before_join "u" <$> viewed (endpointsMap (cache before_join))) (sent (ingress_stream after_join "u" join_inputs))
     = narrowed after_join "u" <$> viewed (endpointsMap (cache after_join)).
Proof.
  split_and!; [by_compute|by_compute|].
  apply (ingress_follows before_join after_join "u" b_joins (snd (run_op unit_cache b_joins)) join_inputs).
  - unfold before_join, ex_server, unit_cache. cbn [cache]. apply run_new.
  - apply surjective_pairing.
  - by_compute.
  - by_compute.
  - vm_compute. reflexivity.
  - intros name. destruct (decide (name = "b"%string)) as [->|Hne].
    + right. exists (in_unit (mk_node "b" "z1")). split; [by left|done].
    + left. assert (unit_nodes before_join "u" = ["a"%string]) as -> by (vm_compute; reflexivity).
      assert (unit_nodes after_join "u" = ["a"%string; "b"%string]) as -> by (vm_compute; reflexivity). set_solver.
Defined.
