(* ===== verification/HealthCheck.v ===== *)
(** * Edge health: probing (pkg/edge-health/checkplugin, check/check.go)

    The check plugins score every known address, [Check] turns the scores
    into this node's verdicts, and [GetNodeList] chooses the nodes to check
    and drops what belongs to others.  The theorems give the verdicts [Check]
    writes, the addresses [GetNodeList] keeps, the parsing of plugin flags,
    and the race of the ping plugin on its shared error variable. *)

From Stdlib Require Import ZArith Lia Ascii String.
From stdpp Require Import base strings gmap numbers sorting list.
From S2P Require Import Prelude.
From S2P Require Import GoStd.
From S2P Require Import GoFloat.
From S2P Require Import K8s.
From S2P Require Import HealthData.

Local Open Scope Z_scope.
Local Open Scope go_scope.

(** ** Plugins (checkplugin.go) *)

Record BasePlugin : Type := mkBasePlugin {
  PluginName : string;
  HealthCheckoutTimeOut : Z;
  HealthCheckRetryTime : Z;
  Weight : float64;
  Port : Z
}.

Definition NewBasePlugin (healthCheckoutTimeOut retrytime port : Z) (weight : float64) (pluginname : string)
    : BasePlugin :=
  mkBasePlugin pluginname healthCheckoutTimeOut retrytime weight port.

(** [SetWeight] has a value receiver: the caller's plugin is unchanged. *)
Definition SetWeight (p : BasePlugin) (weight : float64) : BasePlugin := p.
Definition GetWeight (p : BasePlugin) : float64 := Weight p.

Inductive PluginKind : Type := KubeletCheckPlugin | KubeletAuthCheckPlugin | PingCheckPlugin.

Definition plugin_Name (k : PluginKind) : string :=
  match k with
  | KubeletCheckPlugin => "KubeletCheck"
  | KubeletAuthCheckPlugin => "KubeletAuthCheck"
  | PingCheckPlugin => "PingCheck"
  end.

Record CheckPlugin : Type := mkCheckPlugin { cp_kind : PluginKind; cp_base : BasePlugin }.
Definition cp_Name (p : CheckPlugin) : string := plugin_Name (cp_kind p).

Definition AddPlugin (plugins : list CheckPlugin) (p : CheckPlugin) : list CheckPlugin := plugins ++ [p].

(** Factories are run in the map's order until one fails ([None]). *)
Definition Merge `{GoRange} (outOfTree : gmap string (option CheckPlugin)) (plugins : list CheckPlugin)
    : list CheckPlugin * bool :=
  fold_left (fun acc kv =>
    let '(plugins, ok) := acc in
    if negb ok then acc else
    match snd kv with
    | None => (plugins, false)
    | Some p => (AddPlugin plugins p, true)
    end) (go_range outOfTree) (plugins, true).

(** *** Flags: the [Set] methods

    [ParseFloat] is [strconv.ParseFloat] with its error ignored. *)

Section Set_.
Context (ParseFloat : string -> float64).

(** [arr[1]]: out of range when the parameter has no "=". *)
Definition arr1 (arr : list string) : outcome string :=
  match arr with
  | _ :: a1 :: _ => Ret (TrimSpace a1)
  | _ => Panic "index out of range"
  end.

Definition set_para (name : string) (p : BasePlugin) (para : string) : outcome BasePlugin :=
  if String.eqb para EmptyString then Ret p else
  let arr := split_on "=" para in
  let trimkey := TrimSpace (default EmptyString (head arr)) in
  let* p :=
    if String.eqb trimkey "timeout" then
      let* v := arr1 arr in
      Ret (mkBasePlugin (PluginName p) (Atoi v) (HealthCheckRetryTime p) (Weight p) (Port p))
    else if String.eqb trimkey "retrytime" then
      let* v := arr1 arr in
      Ret (mkBasePlugin (PluginName p) (HealthCheckoutTimeOut p) (Atoi v) (Weight p) (Port p))
    else if String.eqb trimkey "weight" then
      let* v := arr1 arr in
      Ret (mkBasePlugin (PluginName p) (HealthCheckoutTimeOut p) (HealthCheckRetryTime p) (ParseFloat v) (Port p))
    else if String.eqb trimkey "port" then
      let* v := arr1 arr in
      Ret (mkBasePlugin (PluginName p) (HealthCheckoutTimeOut p) (HealthCheckRetryTime p) (Weight p) (Atoi v))
    else Ret p in
  Ret (mkBasePlugin name (HealthCheckoutTimeOut p) (HealthCheckRetryTime p) (Weight p) (Port p)).

Fixpoint set_paras (name : string) (p : BasePlugin) (paras : list string) : outcome BasePlugin :=
  match paras with
  | [] => Ret p
  | para :: paras => let* p := set_para name p para in set_paras name p paras
  end.

Definition Set_ (plugins : list CheckPlugin) (k : PluginKind) (p : BasePlugin) (s : string)
    : outcome (list CheckPlugin) :=
  let* p := set_paras (plugin_Name k) p (split_on "," s) in
  Ret (AddPlugin plugins (mkCheckPlugin k p)).

End Set_.

(** *** Probes

    [attempt i] is what the [i]-th request answers: [None] for success,
    [Some e] for an error. *)

Definition PingDo (response : string + (Z * string)) : option string :=
  match response with
  | inl err => Some err
  | inr (StatusCode, body) => if negb (StatusCode =? 200) then Some ("ping failed: " +:+ body) else None
  end.

Fixpoint retry (fuel : nat) (i : nat) (attempt : nat -> option string) (err : option string) : bool * option string :=
  match fuel with
  | O => (false, err)
  | S fuel =>
      match attempt i with
      | None => (true, None)
      | Some e => retry fuel (S i) attempt (Some e)
      end
  end.

(** [ping] and [authping]: [setup] is the error of reading the token or of
    building the request. *)
Definition ping (setup : option string) (retryTime : Z) (attempt : nat -> option string) : bool * option string :=
  match setup with
  | Some e => (false, Some e)
  | None => retry (Z.to_nat retryTime) 0 attempt None
  end.

(** The score of one address; [err.Error()] on a nil error panics. *)
Definition kubelet_score (r : bool * option string) : outcome Z :=
  match r with
  | (true, _) => Ret 100
  | (false, Some _) => Ret 0
  | (false, None) => Panic "nil pointer dereference"
  end.

(** One goroutine per address: every known address gets its score, in the
    order the goroutines finish. *)
Definition CheckExecute `{GoRange} (p : CheckPlugin) (score : string -> Z) (c : CheckInfoData) : CheckInfoData :=
  fold_left (fun c ip => SetCheckInfo c ip (cp_Name p) (GetWeight (cp_base p)) (score ip)) (go_range c).*1 c.

(** ** The checker (check.go) *)

Record CheckEdge : Type := mkCheckEdge {
  HealthCheckPeriod : Z;
  CheckPlugins : gmap string CheckPlugin;
  HealthCheckScoreLine : float64
}.

Definition AddCheckPlugin (c : CheckEdge) (plugins : list CheckPlugin) : CheckEdge :=
  mkCheckEdge (HealthCheckPeriod c) (fold_left (fun m p => <[cp_Name p := p]> m) plugins (CheckPlugins c))
    (HealthCheckScoreLine c).

Definition NewCheckEdge (checkplugins : list CheckPlugin) (healthcheckperiod : Z) (healthCheckScoreLine : float64)
    : CheckEdge :=
  mkCheckEdge healthcheckperiod (fold_left (fun m p => <[cp_Name p := p]> m) checkplugins ∅) healthCheckScoreLine.

Definition CheckPluginsLen (c : CheckEdge) : Z := Z.of_nat (size (CheckPlugins c)).
Definition GetCheckPlugins (c : CheckEdge) : gmap string CheckPlugin := CheckPlugins c.

Section Check.
Context `{R : GoRange}.

Definition totalscore (plugins : gmap string float64) : float64 :=
  fold_left (fun t kv => fadd t (snd kv)) (go_range plugins) (float64_of_int 0).

Fixpoint set_verdicts (NodeIP : string) (line : float64) (l : list (string * gmap string float64)) (r : ResultData)
    : outcome ResultData :=
  match l with
  | [] => Ret r
  | (desip, plugins) :: l =>
      let* r := SetResultFromCheckInfo r NodeIP desip
                  (mkResultDetail (if fge (totalscore plugins) line then true else false) EmptyString 0) in
      set_verdicts NodeIP line l r
  end.

(** [score name ip] is what plugin [name]'s goroutine finds for [ip]. *)
Definition run_plugins (c : CheckEdge) (score : string -> string -> Z) (ci : CheckInfoData) : CheckInfoData :=
  fold_left (fun ci kv => CheckExecute (snd kv) (score (cp_Name (snd kv))) ci) (go_range (GetCheckPlugins c)) ci.

Definition Check_ (c : CheckEdge) (NodeIP : string) (score : string -> string -> Z) (s : HealthState)
    : outcome HealthState :=
  let ci := run_plugins c score (CheckInfoResult s) in
  let calculatetemp := CopyCheckInfo ci in
  let* r := set_verdicts NodeIP (HealthCheckScoreLine c) (go_range calculatetemp) (Result s) in
  Ret (set_result (set_checkinfo s ci) r).

End Check.

(** ** The node list (check.go, GetNodeList) *)

(** Label selectors as the code builds them. *)
Inductive Selector : Type :=
| Everything
| Nothing
| DoesNotExist (key : string)
| MatchLabels (m : gmap string string).

Definition selects (sel : Selector) (m : ObjectMeta) : bool :=
  match sel with
  | Everything => true
  | Nothing => false
  | DoesNotExist key => bool_decide (mp (Labels m) !! key = None)
  | MatchLabels l => bool_decide (l ⊆ mp (Labels m))
  end.

(** [metav1.LabelSelectorAsSelector]: no requirement selects everything. *)
Definition LabelSelectorAsSelector (matchLabels : gmap string string) : Selector :=
  if bool_decide (matchLabels = ∅) then Everything else MatchLabels matchLabels.

(** The informers' listers. *)
Record NodeLister : Type := mkNodeLister {
  lister_Get : string -> option PartialObjectMetadata;
  lister_List : Selector -> option (list PartialObjectMetadata)
}.

Inductive cm_result : Type := CM_Found (cm : ConfigMap) | CM_NotFound | CM_Error.

Definition MasterLabel : string := "node-role.kubernetes.io/master".
Definition HealthCheckUnitEnable : string := "unit-internal-check".
Definition HealthCheckUnitsKey : string := "check-units".
Definition NodeUnitSuperedge : string := "nodeunits.superedge.io".

(** The labels of the host that are units. *)
Definition unit_labels (host : PartialObjectMetadata) : gmap string string :=
  filter (fun kv => snd kv = NodeUnitSuperedge) (mp (Labels (pom_meta host))).

Definition unit_selector (host : PartialObjectMetadata) (data : gomap string) : Selector :=
  match mp data !! HealthCheckUnitsKey with
  | None => Nothing
  | Some units =>
      if String.eqb units EmptyString then Nothing else
      let nodeSelectorLabel :=
        fold_left (fun acc u =>
          let trimName := TrimSpace u in
          match unit_labels host !! trimName with
          | Some v => <[trimName := v]> acc
          | None => acc
          end) (split_on "," units) ∅ in
      LabelSelectorAsSelector nodeSelectorLabel
  end.

(** Which nodes to list. *)
Definition node_selector (host : PartialObjectMetadata) (config : cm_result) : option Selector :=
  match config with
  | CM_NotFound => Some (DoesNotExist MasterLabel)
  | CM_Error => None
  | CM_Found cm =>
      if bool_decide (mp (cm_Data cm) !! HealthCheckUnitEnable = Some "false"%string)
      then Some (DoesNotExist MasterLabel)
      else Some (unit_selector host (cm_Data cm))
  end.

Section NodeList.
Context `{R : GoRange}.

Fixpoint collect_ips (pods : PodStore) (nodes : list PartialObjectMetadata) (iplist : gset string)
    (ci : CheckInfoData) : gset string * CheckInfoData :=
  match nodes with
  | [] => (iplist, ci)
  | n :: nodes =>
      match GetNodeIPByNodeName pods (pom_name n) with
      | None => collect_ips pods nodes iplist ci
      | Some ip => collect_ips pods nodes ({[ip]} ∪ iplist) (SetCheckedIpCheckInfo ci ip)
      end
  end.

Definition drop_checkinfo (iplist : gset string) (ci : CheckInfoData) : CheckInfoData :=
  fold_left (fun c v => if bool_decide (v ∈ iplist) then c else DeleteCheckedIpCheckInfo c v)
    (TraverseCheckedIpCheckInfo ci) ci.

Definition drop_results (NodeIP : string) (iplist : gset string) (r : ResultData) : ResultData :=
  fold_left (fun r k => if bool_decide (k ∈ iplist) then r else DeleteResultData NodeIP r k)
    (go_range (CopyResultDataAll r)).*1 r.

Definition GetNodeList (NodeName NodeIP : string) (lister : NodeLister) (config : cm_result) (pods : PodStore)
    (s : HealthState) : HealthState :=
  match lister_Get lister NodeName with
  | None => s
  | Some host =>
      match node_selector host config with
      | None => s
      | Some sel =>
          match lister_List lister sel with
          | None => s
          | Some nodes =>
              let s := set_nodelist s (SetNodeListDataByNodeSlice nodes) in
              let '(iplist, ci) := collect_ips pods (CopyNodeListData (NodeList s)) ∅ (CheckInfoResult s) in
              set_result (set_checkinfo s (drop_checkinfo iplist ci)) (drop_results NodeIP iplist (Result s))
          end
      end
  end.

End NodeList.

(** ** Lemmas on [Check] *)

Section CheckLemmas.
Context `{R : GoRange}.

Lemma SetCheckInfo_known c ip name w score m : c !! ip = Some m ->
  SetCheckInfo c ip name w score = <[ip := <[name := fmul (float64_of_int score) w]> m]> c.
Proof using Type. intros Hm. unfold SetCheckInfo. rewrite Hm. by rewrite Hm. Qed.

Lemma lookup_CheckExecute p score c ip :
  CheckExecute p score c !! ip =
  (fun m => <[cp_Name p := fmul (float64_of_int (score ip)) (Weight (cp_base p))]> m) <$> c !! ip.
Proof using Type.
  unfold CheckExecute.
  rewrite (fold_alter _ (fun ip m => <[cp_Name p := fmul (float64_of_int (score ip)) (Weight (cp_base p))]> m)).
  - case_decide as Hin; [done|]. destruct (c !! ip) as [m|] eqn:E; [|done]. destruct Hin.
    apply list_elem_of_fmap. exists (ip, m). split; [done|]. by apply elem_of_go_range.
  - apply NoDup_go_range_fst.
  - intros m k v Hv. by apply SetCheckInfo_known.
  - intros k [[k' m] [-> Hin]]%list_elem_of_fmap. apply elem_of_go_range in Hin. by exists m.
Qed.

(** The plugins of a checker are stored under their names. *)
Definition plugins_named (c : CheckEdge) : Prop := forall name p, CheckPlugins c !! name = Some p -> cp_Name p = name.

Lemma NewCheckEdge_named l n line : plugins_named (NewCheckEdge l n line).
Proof using Type.
  unfold plugins_named, NewCheckEdge. simpl.
  assert (forall m : gmap string CheckPlugin, (forall name p, m !! name = Some p -> cp_Name p = name) ->
    forall name p, fold_left (fun m p => <[cp_Name p := p]> m) l m !! name = Some p -> cp_Name p = name) as Hf.
  { induction l as [|q l IH]; intros m Hm; [done|]. simpl. apply IH.
    intros name p [[<- <-]|[_ Hp]]%lookup_insert_Some; [done|]. by apply Hm. }
  apply Hf. intros name p. by rewrite lookup_empty.
Qed.

(** What the plugins leave for one address. *)
Definition scored (c : CheckEdge) (score : string -> string -> Z) (ip : string) (m m' : gmap string float64) : Prop :=
  forall name, m' !! name =
    match CheckPlugins c !! name with
    | Some p => Some (fmul (float64_of_int (score name ip)) (Weight (cp_base p)))
    | None => m !! name
    end.

Lemma run_plugins_list (l : list (string * CheckPlugin)) score ci :
  NoDup l.*1 -> (forall name p, (name, p) ∈ l -> cp_Name p = name) ->
  forall ip, match ci !! ip, fold_left (fun ci kv => CheckExecute (snd kv) (score (cp_Name (snd kv))) ci) l ci !! ip with
    | Some m, Some m' => forall name, m' !! name =
        match (list_to_map l : gmap string CheckPlugin) !! name with
        | Some p => Some (fmul (float64_of_int (score name ip)) (Weight (cp_base p)))
        | None => m !! name
        end
    | None, None => True
    | _, _ => False
    end.
Proof using Type.
  revert ci. induction l as [|[n p] l IH]; intros ci Hnd Hl ip; simpl.
  { destruct (ci !! ip); [|done]. intros name. by rewrite lookup_empty. }
  apply NoDup_cons in Hnd as [Hn Hnd]. assert (cp_Name p = n) as Hp by (apply Hl; set_solver).
  specialize (IH (CheckExecute p (score (cp_Name p)) ci) Hnd ltac:(set_solver) ip). rewrite lookup_CheckExecute in IH.
  destruct (ci !! ip) as [m|]; simpl in IH; destruct (fold_left _ l _ !! ip) as [m'|]; try done.
  intros name. rewrite IH. destruct (decide (name = n)) as [-> |Hne].
  - rewrite lookup_insert_eq, not_elem_of_list_to_map_1 by done. by rewrite Hp, lookup_insert_eq.
  - rewrite (lookup_insert_ne _ n) by done. case_match; [done|]. by rewrite Hp, lookup_insert_ne by done.
Qed.

Lemma run_plugins_spec c score ci ip : plugins_named c ->
  match ci !! ip, run_plugins c score ci !! ip with
  | Some m, Some m' => scored c score ip m m'
  | None, None => True
  | _, _ => False
  end.
Proof using Type.
  intros Hc. unfold run_plugins, scored, GetCheckPlugins.
  pose proof (run_plugins_list (go_range (CheckPlugins c)) score ci (NoDup_go_range_fst _)) as Hf.
  specialize (Hf ltac:(intros name p Hin%elem_of_go_range; by apply Hc) ip).
  pose proof (list_to_map_go_range (CheckPlugins c)) as E.
  rewrite E in Hf. exact Hf.
Qed.

(** The verdict loop. *)
Definition verdict (line : float64) (plugins : gmap string float64) : ResultDetail :=
  mkResultDetail (fge (totalscore plugins) line) EmptyString 0.

Lemma set_verdicts_spec NodeIP line l r :
  NoDup l.*1 -> r !! NodeIP <> Some None ->
  exists r', set_verdicts NodeIP line l r = Ret r' /\ r' !! NodeIP <> Some None
    /\ (forall k, k <> NodeIP -> r' !! k = r !! k)
    /\ (forall ip, CopyLocalResultData r' NodeIP !! ip =
          match (list_to_map l : gmap string (gmap string float64)) !! ip with
          | Some plugins => Some (verdict line plugins)
          | None => CopyLocalResultData r NodeIP !! ip
          end).
Proof using Type.
  revert r. induction l as [|[ip plugins] l IH]; intros r Hnd Hr; simpl.
  { exists r. by repeat split. }
  apply NoDup_cons in Hnd as [Hip Hnd].
  assert (exists r1, SetResultFromCheckInfo r NodeIP ip (verdict line plugins) = Ret r1
    /\ r1 !! NodeIP <> Some None /\ (forall k, k <> NodeIP -> r1 !! k = r !! k)
    /\ CopyLocalResultData r1 NodeIP = <[ip := verdict line plugins]> (CopyLocalResultData r NodeIP)) as (r1 & E1 & H1 & Ho1 & Hc1).
  { unfold SetResultFromCheckInfo, CopyLocalResultData, GetLocalResultData.
    destruct (r !! NodeIP) as [[m|]|] eqn:E; [| |]; try done; eexists; (split; [done|]);
      rewrite lookup_insert_eq; (split; [done|]); (split; [|done]); intros k Hk; by rewrite lookup_insert_ne. }
  assert (mkResultDetail (if fge (totalscore plugins) line then true else false) EmptyString 0 = verdict line plugins) as ->
    by (unfold verdict; by destruct (fge _ _)).
  rewrite E1. simpl. destruct (IH r1 Hnd H1) as (r' & E' & H' & Ho' & Hc'). exists r'. split; [done|]. split; [done|].
  split; [intros k Hk; by rewrite Ho', Ho1|]. intros ip'. rewrite Hc', Hc1. destruct (decide (ip' = ip)) as [-> |Hne].
  - by rewrite not_elem_of_list_to_map_1, !lookup_insert_eq by done.
  - by rewrite (lookup_insert_ne _ ip), (lookup_insert_ne _ ip) by done.
Qed.

End CheckLemmas.

(** ** Lemmas on [GetNodeList] *)

Section NodeListLemmas.
Context `{R : GoRange}.

(** The addresses of the listed nodes that have exactly one pod. *)
Definition node_ips (pods : PodStore) (nodes : list PartialObjectMetadata) : gset string :=
  list_to_set (omap (fun n => GetNodeIPByNodeName pods (pom_name n)) nodes).

Lemma collect_ips_spec pods nodes L ci :
  let '(L', ci') := collect_ips pods nodes L ci in
  L' = node_ips pods nodes ∪ L
  /\ forall ip, ci' !! ip = match ci !! ip with
                            | Some m => Some m
                            | None => if decide (ip ∈ node_ips pods nodes) then Some ∅ else None
                            end.
Proof using Type.
  revert L ci. induction nodes as [|n nodes IH]; intros L ci; simpl.
  { split; [set_solver|]. intros ip. by destruct (ci !! ip). }
  unfold node_ips. simpl. destruct (GetNodeIPByNodeName pods (pom_name n)) as [ip0|] eqn:E.
  - specialize (IH ({[ip0]} ∪ L) (SetCheckedIpCheckInfo ci ip0)). destruct (collect_ips _ _ _ _) as [L' ci'].
    destruct IH as [-> Hci]. split; [unfold node_ips; simpl; set_solver|]. intros ip. rewrite Hci.
    unfold SetCheckedIpCheckInfo. simpl. destruct (decide (ip = ip0)) as [-> |Hne].
    + destruct (ci !! ip0) eqn:E0; [by rewrite E0|]. rewrite lookup_insert_eq, decide_True by set_solver. done.
    + assert ((match ci !! ip0 with Some _ => ci | None => <[ip0:=∅]> ci end) !! ip = ci !! ip) as ->
        by (case_match; [done|by rewrite lookup_insert_ne]).
      destruct (ci !! ip); [done|]. apply decide_ext. unfold node_ips. set_solver.
  - specialize (IH L ci). by destruct (collect_ips _ _ _ _).
Qed.

Lemma lookup_drop_checkinfo L ci ip : drop_checkinfo L ci !! ip = if decide (ip ∈ L) then ci !! ip else None.
Proof using Type.
  unfold drop_checkinfo, TraverseCheckedIpCheckInfo, DeleteCheckedIpCheckInfo.
  rewrite (fold_delete (fun v => v ∈ L)); [by apply decide_ext|]. intros k [m Hm]. apply list_elem_of_fmap. exists (k, m).
  split; [done|]. by apply elem_of_go_range.
Qed.

(** One deletion of a checker. *)
Lemma DeleteResultData_other NodeIP r ip k : k <> NodeIP -> DeleteResultData NodeIP r ip !! k = delete ip r !! k.
Proof using Type.
  intros Hk. unfold DeleteResultData. destruct (decide (k = ip)) as [-> |Hne]; [by rewrite !lookup_delete_eq|].
  rewrite !lookup_delete_ne by done. destruct (r !! NodeIP) as [[m|]|]; [|done|done]. by rewrite lookup_insert_ne.
Qed.

Lemma DeleteResultData_local NodeIP r ip : ip <> NodeIP ->
  CopyLocalResultData (DeleteResultData NodeIP r ip) NodeIP = delete ip (CopyLocalResultData r NodeIP)
  /\ (is_Some (DeleteResultData NodeIP r ip !! NodeIP) <-> is_Some (r !! NodeIP)).
Proof using Type.
  intros Hne. unfold DeleteResultData, CopyLocalResultData, GetLocalResultData, mp.
  rewrite !lookup_delete_ne by done. 
  destruct (r !! NodeIP) as [[m|]|] eqn:E; rewrite ?lookup_delete_ne, ?lookup_insert_eq, ?E by done; simpl; rewrite ?delete_empty;
    (split; [done|]); split; intros Hs; first [by apply is_Some_None in Hs|exact (mk_is_Some _ _ eq_refl)].
Qed.

Lemma drop_fold NodeIP (L : gset string) l (r : ResultData) :
  let r' := fold_left (fun r k => if bool_decide (k ∈ L) then r else DeleteResultData NodeIP r k) l r in
  (forall k, k <> NodeIP -> r' !! k = if decide (k ∈ l /\ k ∉ L) then None else r !! k)
  /\ (NodeIP ∈ L -> (is_Some (r' !! NodeIP) <-> is_Some (r !! NodeIP))
      /\ forall ip, CopyLocalResultData r' NodeIP !! ip =
           if decide (ip ∈ l /\ ip ∉ L) then None else CopyLocalResultData r NodeIP !! ip)
  /\ (NodeIP ∉ L -> NodeIP ∈ l -> r' !! NodeIP = None)
  /\ (r !! NodeIP = None -> r' !! NodeIP = None).
Proof using Type.
  revert r. induction l as [|x l IH]; intros r; cbn [fold_left].
  { assert (forall k, ~ (k ∈ [] /\ k ∉ L)) as Hn by (intros k [Hk%not_elem_of_nil _]; done).
    repeat split; try done; try (intros; by rewrite decide_False by apply Hn).
    by intros _ H%not_elem_of_nil. }
  case_bool_decide as Hx.
  - destruct (IH r) as (H1 & H2 & H3 & H4). split; [|split; [|split; [|done]]].
    + intros k Hk. rewrite H1 by done. apply decide_ext. set_solver.
    + intros HL. destruct (H2 HL) as [Hs Hc]. split; [done|]. intros ip. rewrite Hc. apply decide_ext. set_solver.
    + intros HL [<-|Hin]%elem_of_cons; [done|]. by apply H3.
  - destruct (IH (DeleteResultData NodeIP r x)) as (H1 & H2 & H3 & H4). split; [|split; [|split]].
    + intros k Hk. rewrite H1, DeleteResultData_other by done. destruct (decide (k = x)) as [-> |Hne].
      * rewrite lookup_delete_eq. by rewrite (decide_True (P := x ∈ x :: l /\ _)) by set_solver; case_decide.
      * rewrite lookup_delete_ne by done. apply decide_ext. set_solver.
    + intros HL. assert (x <> NodeIP) as Hne by (by intros ->). destruct (H2 HL) as [Hs Hc].
      destruct (DeleteResultData_local NodeIP r x Hne) as [El Es]. split; [by rewrite Hs, Es|]. intros ip. rewrite Hc, El.
      destruct (decide (ip = x)) as [-> |Hnx].
      * rewrite lookup_delete_eq. by rewrite (decide_True (P := x ∈ x :: l /\ _)) by set_solver; case_decide.
      * rewrite lookup_delete_ne by done. apply decide_ext. set_solver.
    + intros HL [->|Hin]%elem_of_cons; [|by apply H3]. apply H4. unfold DeleteResultData. apply lookup_delete_eq.
    + intros Hr. apply H4. unfold DeleteResultData.  rewrite Hr. destruct (decide (x = NodeIP)) as [-> |Hne].
      * apply lookup_delete_eq.
      * by rewrite lookup_delete_ne.
Qed.

Lemma elem_of_result_keys (r : ResultData) k : k ∈ (go_range (CopyResultDataAll r)).*1 <-> is_Some (r !! k).
Proof using Type.
  rewrite list_elem_of_fmap. split.
  - intros ([k' m] & -> & Hin%elem_of_go_range). apply CopyResultDataAll_lookup in Hin as (g & Hg & _). by exists g.
  - intros [g Hg]. exists (k, mp g). split; [done|]. apply elem_of_go_range, CopyResultDataAll_lookup. by exists g.
Qed.

End NodeListLemmas.

(** ** The ping plugin's goroutines (pingcheck.go)

    All goroutines of one [CheckExecute] assign and test the same variable
    [err].  [ps_err] is [true] when it is nil; every access to it is a step. *)

Inductive gpc : Type :=
| GDial (i : nat)
| GTest (i : nat)
| GFinal
| GReport
| GDone.

Record ping_state : Type := mkPingState {
  ps_err : bool;
  ps_pc : gmap string gpc;
  ps_score : gmap string Z
}.

Section Ping.
Context (retryTime : Z) (dial : string -> nat -> bool).

Definition ping_step (st : ping_state) (ip : string) : outcome ping_state :=
  let goto pc := mkPingState (ps_err st) (<[ip := pc]> (ps_pc st)) (ps_score st) in
  match ps_pc st !! ip with
  | Some (GDial i) =>
      if Z.of_nat i <? retryTime
      then Ret (mkPingState (dial ip i) (<[ip := GTest i]> (ps_pc st)) (ps_score st))
      else Ret (goto GFinal)
  | Some (GTest i) => Ret (goto (if ps_err st then GFinal else GDial (S i)))
  | Some GFinal =>
      if ps_err st
      then Ret (mkPingState (ps_err st) (<[ip := GDone]> (ps_pc st)) (<[ip := 100]> (ps_score st)))
      else Ret (goto GReport)
  | Some GReport =>
      if ps_err st then Panic "nil pointer dereference"
      else Ret (mkPingState (ps_err st) (<[ip := GDone]> (ps_pc st)) (<[ip := 0]> (ps_score st)))
  | Some GDone | None => Ret st
  end.

Fixpoint ping_run (st : ping_state) (sched : list string) : outcome ping_state :=
  match sched with
  | [] => Ret st
  | ip :: sched => let* st := ping_step st ip in ping_run st sched
  end.

Definition ping_start (ips : list string) : ping_state :=
  mkPingState true (list_to_map ((fun ip => (ip, GDial 0)) <$> ips)) ∅.

(** One goroutine alone, from the [i]-th attempt. *)
Lemma ping_alone ip (fuel i : nat) pcs sc err :
  pcs !! ip = Some (GDial i) -> Z.of_nat i + Z.of_nat fuel = Z.max (Z.of_nat i) retryTime ->
  (i <> 0%nat -> err = false /\ 0 < retryTime) -> (i = 0%nat -> err = true) ->
  exists n st, ping_run (mkPingState err pcs sc) (replicate n ip) = Ret st
    /\ ps_pc st !! ip = Some GDone
    /\ ps_score st !! ip = Some (if existsb (dial ip) (seq i fuel) || (retryTime <=? 0) then 100 else 0).
Proof using Type.
  revert i pcs err. induction fuel as [|fuel IH]; intros i pcs err Hpc Hf He He0.
  - exists (if err then 2%nat else 3%nat). assert (Z.of_nat i <? retryTime = false) as Hr by (apply Z.ltb_ge; lia).
    assert ((retryTime <=? 0) = err) as ->.
    { destruct (decide (i = 0%nat)) as [-> |Hi]; [rewrite He0 by done; apply Z.leb_le; lia|].
      destruct (He Hi) as [-> Hpos]. apply Z.leb_gt. lia. }
    destruct err; simpl; unfold ping_step at 1; simpl; rewrite Hpc, Hr; simpl; unfold ping_step at 1; simpl;
      rewrite lookup_insert_eq; simpl.
    + eexists. split; [done|]. simpl. by rewrite !lookup_insert_eq.
    + unfold ping_step at 1. simpl. rewrite lookup_insert_eq. simpl. eexists. split; [done|]. simpl.
      by rewrite !lookup_insert_eq.
  - assert (Z.of_nat i <? retryTime = true) as Hr by (apply Z.ltb_lt; lia).
    assert ((retryTime <=? 0) = false) as Hr0 by (apply Z.leb_gt; lia).
    destruct (dial ip i) eqn:Ed.
    + exists 3%nat. simpl. unfold ping_step at 1. simpl. rewrite Hpc, Hr. simpl. unfold ping_step at 1. simpl.
      rewrite lookup_insert_eq. simpl. rewrite Ed. unfold ping_step at 1. simpl. rewrite lookup_insert_eq. simpl.
      eexists. split; [done|]. simpl. by rewrite !lookup_insert_eq.
    + destruct (IH (S i) (<[ip := GDial (S i)]> (<[ip := GTest i]> pcs)) false) as (n & st & Hrun & Hst);
        [by rewrite lookup_insert_eq|lia|split; [done|lia]|done|].
      exists (2 + n)%nat, st. simpl. unfold ping_step at 1. simpl. rewrite Hpc, Hr. simpl. unfold ping_step at 1. simpl.
      rewrite lookup_insert_eq. simpl. rewrite Ed. split; [exact Hrun|]. by rewrite Hr0, orb_false_r in *.
Qed.

End Ping.

(** The address a round of [ping] and [authping] attempts. *)
Lemma retry_spec (fuel i : nat) attempt err :
  retry fuel i attempt err =
    if existsb (fun j => bool_decide (attempt j = None)) (seq i fuel) then (true, None)
    else (false, match fuel with O => err | S _ => attempt (i + fuel - 1)%nat end).
Proof.
  revert i err. induction fuel as [|fuel IH]; intros i err; [done|]. simpl.
  destruct (attempt i) as [e|] eqn:Ei; [|done]. rewrite IH.
  rewrite (bool_decide_eq_false_2 (Some e = None)) by done. simpl. destruct (existsb _ _); [done|].
  f_equal. destruct fuel as [|fuel]; [replace (i + 1 - 1)%nat with i by lia; by rewrite Ei|]. f_equal. lia.
Qed.

(** ** Properties *)

(** C21: [Check] replaces this node's verdict on every known address, and
    nothing else: an address is normal exactly when the sum of its plugin
    scores, in the order of the map's iteration, reaches the score line; each
    configured plugin's score is its weight times 100 or 0 as probed, and
    scores of other plugins are kept.  The only way to fail is a nil map of
    own results with an address to judge. *)
Theorem Check_verdicts `{R : GoRange} (c : CheckEdge) (NodeIP : string) (score : string -> string -> Z) (s : HealthState) :
  plugins_named c ->
  let ci' := run_plugins c score (CheckInfoResult s) in
  (forall ip, match CheckInfoResult s !! ip, ci' !! ip with
              | Some m, Some m' => scored c score ip m m'
              | None, None => True
              | _, _ => False
              end)
  /\ if bool_decide (Result s !! NodeIP = Some None)
     then (if bool_decide (ci' = ∅) then is_Some (Result s !! NodeIP)
           else exists why, Check_ c NodeIP score s = Panic why)
     else exists s', Check_ c NodeIP score s = Ret s' /\ CheckInfoResult s' = ci'
       /\ (forall k, k <> NodeIP -> Result s' !! k = Result s !! k)
       /\ (forall ip, CopyLocalResultData (Result s') NodeIP !! ip =
             match ci' !! ip with
             | Some plugins => Some (mkResultDetail (fge (totalscore plugins) (HealthCheckScoreLine c)) EmptyString 0)
             | None => CopyLocalResultData (Result s) NodeIP !! ip
             end).
Proof.
  intros Hc ci'. split; [intros ip; by apply run_plugins_spec|].
  pose proof (list_to_map_go_range ci') as El.
  case_bool_decide as Hnil.
  - case_bool_decide as Hci; [by rewrite Hnil|].
    unfold Check_, CopyCheckInfo. fold ci'. destruct (go_range ci') as [|[ip m] l] eqn:Eg.
    { destruct Hci. by rewrite <- El. }
    eexists. simpl. unfold SetResultFromCheckInfo.  rewrite Hnil. reflexivity.
  - destruct (set_verdicts_spec NodeIP (HealthCheckScoreLine c) (go_range ci') (Result s)) as (r' & E & _ & Ho & Hl);
      [apply NoDup_go_range_fst|done|].
    unfold Check_, CopyCheckInfo. fold ci'. rewrite E. simpl. eexists. split; [done|]. simpl. split; [done|].
    split; [done|]. intros ip. rewrite Hl, El. done.
Qed.

Definition ex_edge : CheckEdge :=
  NewCheckEdge [mkCheckPlugin PingCheckPlugin (NewBasePlugin 5 1 22 (float64_of_int 1) "")] 10 (float64_of_int 100).

Lemma Check_verdicts_witness :
  let R := range_in_key_order in
  let s := set_checkinfo initData {["10.0.0.2"%string := ∅; "10.0.0.3"%string := ∅]} in
  let score := fun (_ ip : string) => if String.eqb ip "10.0.0.2" then 100 else 0 in
  exists s', Check_ ex_edge "10.0.0.1" score s = Ret s'
    /\ CopyLocalResultData (Result s') "10.0.0.1" !! "10.0.0.2"%string = Some (mkResultDetail true "" 0)
    /\ CopyLocalResultData (Result s') "10.0.0.1" !! "10.0.0.3"%string = Some (mkResultDetail false "" 0).
Proof.
  pose proof (Check_verdicts (R := range_in_key_order) ex_edge "10.0.0.1"
    (fun (_ ip : string) => if String.eqb ip "10.0.0.2" then 100 else 0)
    (set_checkinfo initData {["10.0.0.2"%string := ∅; "10.0.0.3"%string := ∅]})
    (NewCheckEdge_named _ _ _)) as [_ (s' & E & _ & _ & Hl)].
  exists s'. split; [exact E|]. split; rewrite Hl; vm_compute; reflexivity.
Defined.

(** A successful [GetNodeList] leaves scores for exactly the addresses of
    the listed nodes, keeping those already there, and results of exactly the
    checkers among them; of this node's own verdicts it drops only those on
    addresses that had reported results themselves, so a verdict on a removed
    node that never reported stays.  When the host is unknown, the config map
    cannot be read or the listing fails, nothing changes. *)
Theorem GetNodeList_keeps `{R : GoRange} (NodeName NodeIP : string) (lister : NodeLister) (config : cm_result)
    (pods : PodStore) (s : HealthState) :
  let s' := GetNodeList NodeName NodeIP lister config pods s in
  match lister_Get lister NodeName with
  | None => s' = s
  | Some host =>
      match node_selector host config with
      | None => s' = s
      | Some sel =>
          match lister_List lister sel with
          | None => s' = s
          | Some nodes =>
              let ips := node_ips pods nodes in
              NodeList s' = nodes
              /\ (forall ip, CheckInfoResult s' !! ip =
                    if decide (ip ∈ ips) then Some (default ∅ (CheckInfoResult s !! ip)) else None)
              /\ (forall k, is_Some (Result s' !! k) <-> k ∈ ips /\ is_Some (Result s !! k))
              /\ (NodeIP ∈ ips -> forall ip, CopyLocalResultData (Result s') NodeIP !! ip =
                    if decide (is_Some (Result s !! ip) /\ ip ∉ ips) then None
                    else CopyLocalResultData (Result s) NodeIP !! ip)
          end
      end
  end.
Proof.
  intros s'. unfold s', GetNodeList. destruct (lister_Get lister NodeName) as [host|]; [|done].
  destruct (node_selector host config) as [sel|]; [|done]. destruct (lister_List lister sel) as [nodes|]; [|done].
  unfold CopyNodeListData, SetNodeListDataByNodeSlice. simpl.
  pose proof (collect_ips_spec pods nodes ∅ (CheckInfoResult s)) as Hc.
  destruct (collect_ips pods nodes ∅ (CheckInfoResult s)) as [L ci]. destruct Hc as [HL Hci].
  rewrite union_empty_r_L in HL. subst L. simpl. split; [done|].
  destruct (drop_fold NodeIP (node_ips pods nodes) (go_range (CopyResultDataAll (Result s))).*1 (Result s))
    as (H1 & H2 & H3 & H4). split; [|split].
  - intros ip. rewrite lookup_drop_checkinfo. case_decide; [|done]. rewrite Hci.
    destruct (CheckInfoResult s !! ip); [done|]. by rewrite decide_True.
  - intros k. unfold drop_results. destruct (decide (k = NodeIP)) as [-> |Hk].
    + destruct (decide (NodeIP ∈ node_ips pods nodes)) as [Hin|Hin]; [rewrite (proj1 (H2 Hin)); naive_solver|].
      assert (fold_left (fun r k => if bool_decide (k ∈ node_ips pods nodes) then r else DeleteResultData NodeIP r k)
        (go_range (CopyResultDataAll (Result s))).*1 (Result s) !! NodeIP = None) as ->.
      { destruct (Result s !! NodeIP) eqn:E; [|by apply H4]. apply H3; [done|]. apply elem_of_result_keys. by rewrite E. }
      split; [intros Hs; by apply is_Some_None in Hs|naive_solver].
    + rewrite (H1 k Hk). case_decide as Hd; rewrite elem_of_result_keys in Hd.
      * split; [intros Hs; by apply is_Some_None in Hs|naive_solver].
      * destruct (decide (k ∈ node_ips pods nodes)); [naive_solver|]. split; [|naive_solver]. intros Hs. by destruct Hd.
  - intros Hin ip. unfold drop_results. rewrite (proj2 (H2 Hin) ip). apply decide_ext. by rewrite elem_of_result_keys.
Qed.

Lemma GetNodeList_keeps_witness :
  let R := range_in_key_order in
  let lister := mkNodeLister (fun _ => Some (mkPartialObjectMetadata (named "" "n1")))
                  (fun _ => Some [mkPartialObjectMetadata (named "" "n1")]) in
  let pods := Some [mkPod (named "kube-system" "p1") "n1" "10.0.0.1" "172.16.0.1"] in
  let s := mkHealthState {["10.0.0.1"%string := ∅; "10.0.0.9"%string := ∅]}
             {["10.0.0.1"%string := Some {["10.0.0.9"%string := mkResultDetail false "" 0]}]} [] [] in
  let s' := GetNodeList "n1" "10.0.0.1" lister CM_NotFound pods s in
  CheckInfoResult s' !! "10.0.0.9"%string = None
  /\ CopyLocalResultData (Result s') "10.0.0.1" !! "10.0.0.9"%string = Some (mkResultDetail false "" 0).
Proof.
  pose proof (GetNodeList_keeps (R := range_in_key_order) "n1" "10.0.0.1"
    (mkNodeLister (fun _ => Some (mkPartialObjectMetadata (named "" "n1")))
       (fun _ => Some [mkPartialObjectMetadata (named "" "n1")])) CM_NotFound
    (Some [mkPod (named "kube-system" "p1") "n1" "10.0.0.1" "172.16.0.1"])
    (mkHealthState {["10.0.0.1"%string := ∅; "10.0.0.9"%string := ∅]}
       {["10.0.0.1"%string := Some {["10.0.0.9"%string := mkResultDetail false "" 0]}]} [] [])) as (_ & Hci & _ & Hl).
  split; [rewrite Hci; vm_compute; reflexivity|]. rewrite Hl; vm_compute; reflexivity.
Defined.

(** *** Node units *)

Lemma unit_fold host (names : list string) (acc : gmap string string) k v :
  fold_left (fun acc u => match unit_labels host !! TrimSpace u with
                          | Some v => <[TrimSpace u := v]> acc
                          | None => acc
                          end) names acc !! k = Some v
  <-> (k ∈ TrimSpace <$> names /\ unit_labels host !! k = Some v)
      \/ (~ (k ∈ TrimSpace <$> names /\ is_Some (unit_labels host !! k)) /\ acc !! k = Some v).
Proof.
  revert acc. induction names as [|u names IH]; intros acc; simpl.
  { split; [intros ?; right; split; [|done]; by intros [?%not_elem_of_nil _]|].
    intros [[?%not_elem_of_nil _]|[_ ?]]; done. }
  rewrite IH, elem_of_cons. destruct (unit_labels host !! TrimSpace u) as [w|] eqn:Eu.
  - destruct (decide (k = TrimSpace u)) as [-> |Hne].
    + rewrite lookup_insert_eq, Eu. split.
      * intros [[? ?]|[? ?]]; left; (split; [by left|done]).
      * intros [[_ ?]|[Hn _]]; [|destruct Hn; split; [by left|done]].
        destruct (decide (TrimSpace u ∈ TrimSpace <$> names)); [by left|right]. split; [naive_solver|done].
    + rewrite lookup_insert_ne by done. naive_solver.
  - destruct (decide (k = TrimSpace u)) as [-> |Hne]; [|naive_solver].
    rewrite Eu. split; intros [[? ?]|[Hn ?]]; try done; right; (split; [|done]);
      intros [_ Hs]; by apply is_Some_None in Hs.
Qed.

Lemma unit_labels_lookup host k v :
  unit_labels host !! k = Some v <-> mp (Labels (pom_meta host)) !! k = Some v /\ v = NodeUnitSuperedge.
Proof. unfold unit_labels. rewrite map_lookup_filter_Some. done. Qed.

(** Which nodes are checked when unit checking is on: exactly those that
    belong to every configured unit the host belongs to.  A host in none of
    the configured units thus selects every node of the cluster, masters
    included, although the code means to check only the unit's nodes; without
    configured units no node is selected. *)
Theorem unit_selection (host : PartialObjectMetadata) (data : gomap string) (m : ObjectMeta) :
  let in_unit u (o : ObjectMeta) := mp (Labels o) !! u = Some NodeUnitSuperedge in
  match mp data !! HealthCheckUnitsKey with
  | None => selects (unit_selector host data) m = false
  | Some units =>
      if String.eqb units EmptyString then selects (unit_selector host data) m = false
      else selects (unit_selector host data) m = true <->
        forall u, u ∈ TrimSpace <$> split_on "," units -> in_unit u (pom_meta host) -> in_unit u m
  end.
Proof.
  intros in_unit. unfold unit_selector. destruct (mp data !! HealthCheckUnitsKey) as [units|]; [|done].
  destruct (String.eqb units EmptyString); [done|]. set (l := fold_left _ _ _).
  assert (selects (LabelSelectorAsSelector l) m = bool_decide (l ⊆ mp (Labels m))) as ->.
  { unfold LabelSelectorAsSelector. case_bool_decide as Hl; [|done]. rewrite Hl. symmetry.
    apply bool_decide_eq_true. apply map_empty_subseteq. }
  rewrite bool_decide_eq_true, map_subseteq_spec. unfold in_unit. split.
  - intros Hl u Hu Hh. apply Hl. unfold l. rewrite unit_fold. left. split; [done|]. by apply unit_labels_lookup.
  - intros Hu k v Hk. unfold l in Hk. rewrite unit_fold in Hk. destruct Hk as [[Hk Hv]|[_ Hv]]; [|done].
    apply unit_labels_lookup in Hv as [Hv ->]. by apply Hu.
Qed.

(** *** Probes *)

(** A kubelet probe scores 100 exactly when one of the configured number
    of attempts succeeds and 0 when they all fail; with a retry time of zero
    it makes no attempt and the report of its nil error panics.  A ping
    goroutine that runs alone terminates with 100 exactly when an attempt
    succeeds or none was to be made. *)
Theorem probe_scores (retryTime : Z) (attempt : nat -> option string) (ip : string) :
  kubelet_score (ping None retryTime attempt) =
    (if existsb (fun i => bool_decide (attempt i = None)) (seq 0 (Z.to_nat retryTime)) then Ret 100
     else if 0 <? retryTime then Ret 0 else Panic "nil pointer dereference")
  /\ exists n st, ping_run retryTime (fun _ i => bool_decide (attempt i = None)) (ping_start [ip]) (replicate n ip) = Ret st
       /\ ps_pc st !! ip = Some GDone
       /\ ps_score st !! ip = Some (if existsb (fun i => bool_decide (attempt i = None)) (seq 0 (Z.to_nat retryTime))
                                       || (retryTime <=? 0) then 100 else 0).
Proof.
  split.
  - unfold ping. rewrite retry_spec. destruct (existsb _ _) eqn:E; [done|]. simpl.
    destruct (Z.ltb_spec 0 retryTime) as [Hr|Hr]; [|by replace (Z.to_nat retryTime) with 0%nat by lia].
    destruct (Z.to_nat retryTime) as [|k] eqn:Ek; [lia|]. simpl. rewrite Nat.sub_0_r.
    destruct (attempt k) eqn:Ea; [done|]. exfalso.
    rewrite <- not_true_iff_false, existsb_exists in E. apply E. exists k. split; [apply in_seq; lia|].
    by apply bool_decide_eq_true.
  - apply (ping_alone retryTime _ ip (Z.to_nat retryTime) 0); [apply lookup_insert_eq|lia|done|done].
Qed.

(** With two addresses in one round the goroutines of the ping plugin share
    their error variable: there are schedules in which the address that always
    answers is scored 0, in which the address that never answers is scored
    100, and in which the process panics. *)
Theorem ping_race :
  let dial := fun (ip : string) (_ : nat) => String.eqb ip "good" in
  let start := ping_start ["good"%string; "bad"%string] in
  (exists sched st, ping_run 1 dial start sched = Ret st /\ ps_score st = {["good"%string := 0; "bad"%string := 0]})
  /\ (exists sched st, ping_run 1 dial start sched = Ret st /\ ps_score st = {["good"%string := 100; "bad"%string := 100]})
  /\ (exists sched why, ping_run 1 dial start sched = Panic why).
Proof.
  split; [|split].
  - exists ["good"; "good"; "bad"; "bad"; "bad"; "bad"; "bad"; "good"; "good"]%string. eexists. split; [reflexivity|].
    by_compute.
  - exists ["bad"; "good"; "good"; "good"; "bad"; "bad"; "bad"]%string. eexists. split; [reflexivity|]. by_compute.
  - exists ["bad"; "bad"; "bad"; "bad"; "good"; "bad"]%string. eexists. reflexivity.
Qed.
