(* ===== verification/HealthVote.v ===== *)
(** * Edge health: the vote (pkg/edge-health/vote/vote.go)

    Every node counts the fresh verdicts it holds about each address and, with
    a majority over the number of checked addresses, removes or adds the
    nodeunhealth annotation through the apiserver.  The theorems give the
    patches exactly, show that one vote never decides both ways about an
    address, and that two nodes deciding differently hold different reports
    of a common checker. *)

From Stdlib Require Import ZArith Lia.
From stdpp Require Import base strings gmap numbers sorting list.
From S2P Require Import Prelude.
From S2P Require Import GoFloat.
From S2P Require Import K8s.
From S2P Require Import HealthData.
From S2P Require Import HealthCheck.

Local Open Scope Z_scope.

Record VoteEdge : Type := mkVoteEdge { VoteTimeOut : Z; VotePeriod : Z }.
Definition NewVoteEdge (voteTimeOut votePeriod : Z) : VoteEdge := mkVoteEdge voteTimeOut votePeriod.
Definition GetVoteTimeout (v : VoteEdge) : Z := VoteTimeOut v.

(** The two patches of a node's metadata. *)
Inductive patch : Type :=
| NodeAnnotationPatchDelete (node : string) (key : string)
| NodeAnnotationPatchAddUpdate (node : string) (key value : string).

#[export] Instance patch_eq_dec : EqDecision patch.
Proof. solve_decision. Defined.

Section Vote.
Context `{R : GoRange}.

(** ** Counting *)

(** Own verdicts always count, others until they are older than the timeout;
    times are in nanoseconds. *)
Definition fresh (v : VoteEdge) (NodeIP : string) (now : Z) (k : string) (d : ResultDetail) : bool :=
  String.eqb k NodeIP
  || (negb (String.eqb k NodeIP)
      && negb (Time d * 1000000000 + wrap64 (GetVoteTimeout v * 1000000000) <? now)).

(** One verdict: [healthNodeMap] and [voteCountMap]. *)
Definition count_one (v : VoteEdge) (NodeIP : string) (now : Z) (k : string)
    (acc : gset string * gmap string (gmap string Z)) (iv : string * ResultDetail)
    : gset string * gmap string (gmap string Z) :=
  let '(healthNodeMap, voteCountMap) := acc in
  let '(ip, resultdetail) := iv in
  if fresh v NodeIP now k resultdetail then
    let m := default ∅ (voteCountMap !! ip) in
    let key := if Normal resultdetail then "yes"%string else "no"%string in
    ({[k]} ∪ healthNodeMap, <[ip := <[key := default 0 (m !! key) + 1]> m]> voteCountMap)
  else acc.

Definition count_votes (v : VoteEdge) (NodeIP : string) (now : Z) (tempNodeStatus : gmap string (gmap string ResultDetail))
    : gset string * gmap string (gmap string Z) :=
  fold_left (fun acc kv => fold_left (count_one v NodeIP now (fst kv)) (go_range (snd kv)) acc)
    (go_range tempNodeStatus) (∅, ∅).

(** ** Deciding *)

Definition num (c : CheckInfoData) : float64 :=
  fdiv (fadd (float64_of_int (GetLenCheckInfo c)) (float64_of_int 1)) (float64_of_int 2).

Section Decide.
Context (pods : PodStore) (Get : string -> option PartialObjectMetadata) (c : CheckInfoData).

(** The node to patch, if the address has one pod and its node is known. *)
Definition voted_node (name : string) : option PartialObjectMetadata :=
  match Get name with
  | Some node => if String.eqb name EmptyString then None else Some node
  | None => None
  end.

Definition annotated (n : PartialObjectMetadata) : bool :=
  bool_decide (is_Some (mp (Annotations (pom_meta n)) !! "nodeunhealth"%string)).

Definition decide_ip (ip : string) (v : gmap string Z) : list patch :=
  let yes :=
    match v !! "yes"%string with
    | Some y =>
        if fge (float64_of_int y) (num c) then
          match GetNodeNameByNodeIP pods ip with
          | None => None
          | Some name =>
              Some (match voted_node name with
                    | Some n => if annotated n then [NodeAnnotationPatchDelete (pom_name n) "nodeunhealth"] else []
                    | None => []
                    end)
          end
        else Some []
    | None => Some []
    end in
  match yes with
  | None => []
  | Some patches =>
      patches ++
      match v !! "no"%string with
      | Some n =>
          if fge (float64_of_int n) (num c) then
            match GetNodeNameByNodeIP pods ip with
            | None => []
            | Some name =>
                match voted_node name with
                | Some n => if negb (annotated n) then [NodeAnnotationPatchAddUpdate (pom_name n) "nodeunhealth" "yes"] else []
                | None => []
                end
            end
          else []
      | None => []
      end
  end.

End Decide.

Definition Vote (v : VoteEdge) (NodeIP : string) (now : Z) (pods : PodStore) (Get : string -> option PartialObjectMetadata)
    (s : HealthState) : list patch :=
  let tempNodeStatus := CopyResultDataAll (Result s) in
  let '(healthNodeMap, voteCountMap) := count_votes v NodeIP now tempNodeStatus in
  if (size healthNodeMap =? 1)%nat then []
  else concat ((fun iv => decide_ip pods Get (CheckInfoResult s) (fst iv) (snd iv)) <$> go_range voteCountMap).

(** ** What is counted *)

(** The checkers with a fresh verdict [b] on an address. *)
Definition votes_for (v : VoteEdge) (NodeIP : string) (now : Z) (b : bool) (ip : string)
    (km : string * gmap string ResultDetail) : Prop :=
  match snd km !! ip with
  | Some d => fresh v NodeIP now (fst km) d = true /\ Normal d = b
  | None => False
  end.

#[export] Instance votes_for_dec v NodeIP now b ip km : Decision (votes_for v NodeIP now b ip km).
Proof. unfold votes_for. destruct (snd km !! ip); apply _. Defined.

Definition voters (v : VoteEdge) (NodeIP : string) (now : Z) (b : bool) (ip : string)
    (st : gmap string (gmap string ResultDetail)) : gset string :=
  dom (filter (votes_for v NodeIP now b ip) st).

(** The number under a key of the vote map. *)
Definition tallied (vc : gmap string (gmap string Z)) (ip : string) (b : bool) : Z :=
  default 0 (default ∅ (vc !! ip) !! (if b then "yes"%string else "no"%string)).

Definition vote_wf (vc : gmap string (gmap string Z)) : Prop :=
  forall ip m key n, vc !! ip = Some m -> m !! key = Some n -> 0 < n.

Lemma tallied_count_one v NodeIP now k hs vc iv ip b :
  tallied (snd (count_one v NodeIP now k (hs, vc) iv)) ip b =
  tallied vc ip b + (if bool_decide (fst iv = ip /\ fresh v NodeIP now k (snd iv) = true /\ Normal (snd iv) = b) then 1 else 0).
Proof using Type.
  destruct iv as [ip' d]. unfold count_one. simpl. destruct (fresh v NodeIP now k d) eqn:Ef; simpl.
  2:{ rewrite bool_decide_eq_false_2 by naive_solver. lia. }
  unfold tallied. destruct (decide (ip' = ip)) as [-> |Hne].
  - rewrite lookup_insert_eq. simpl. destruct (decide (Normal d = b)) as [<- |Hb].
    + rewrite bool_decide_eq_true_2 by done. rewrite lookup_insert_eq. simpl. lia.
    + rewrite bool_decide_eq_false_2 by naive_solver. rewrite lookup_insert_ne by (by destruct (Normal d), b). lia.
  - rewrite lookup_insert_ne by done. rewrite bool_decide_eq_false_2 by naive_solver. lia.
Qed.

Lemma votes_for_cons v NodeIP now b ip k ip' d (l : list (string * ResultDetail)) : ip' ∉ l.*1 ->
  (votes_for v NodeIP now b ip (k, list_to_map ((ip', d) :: l)) <->
     (ip' = ip /\ fresh v NodeIP now k d = true /\ Normal d = b) \/ votes_for v NodeIP now b ip (k, list_to_map l))
  /\ ~ ((ip' = ip /\ fresh v NodeIP now k d = true /\ Normal d = b) /\ votes_for v NodeIP now b ip (k, list_to_map l)).
Proof using Type.
  intros Hip. unfold votes_for. simpl. destruct (decide (ip' = ip)) as [-> |Hne].
  - rewrite lookup_insert_eq, not_elem_of_list_to_map_1 by done. naive_solver.
  - rewrite lookup_insert_ne by done. naive_solver.
Qed.

Lemma tallied_inner v NodeIP now k (l : list (string * ResultDetail)) hs vc ip b :
  NoDup l.*1 ->
  tallied (snd (fold_left (count_one v NodeIP now k) l (hs, vc))) ip b =
  tallied vc ip b + (if bool_decide (votes_for v NodeIP now b ip (k, list_to_map l)) then 1 else 0).
Proof using Type.
  revert hs vc. induction l as [|[ip' d] l IH]; intros hs vc Hnd; simpl.
  { rewrite bool_decide_eq_false_2; [lia|]. unfold votes_for. simpl. rewrite lookup_empty. tauto. }
  apply NoDup_cons in Hnd as [Hip Hnd]. pose proof (tallied_count_one v NodeIP now k hs vc (ip', d) ip b) as H1.
  simpl in H1. destruct (if fresh v NodeIP now k d then _ else _) as [hs1 vc1] eqn:E1. rewrite IH by done.
  simpl in H1. rewrite H1. rewrite <- Z.add_assoc. f_equal.
  pose proof (votes_for_cons v NodeIP now b ip k ip' d l Hip) as [Hv Hx].
  rewrite (bool_decide_ext _ _ Hv). repeat case_bool_decide; tauto.
Qed.

Lemma tallied_outer v NodeIP now (l : list (string * gmap string ResultDetail)) hs vc ip b :
  tallied (snd (fold_left (fun acc kv => fold_left (count_one v NodeIP now (fst kv)) (go_range (snd kv)) acc) l (hs, vc))) ip b =
  tallied vc ip b + Z.of_nat (length (filter (votes_for v NodeIP now b ip) l)).
Proof using Type.
  revert hs vc. induction l as [|[k m] l IH]; intros hs vc; [simpl; lia|]. cbn [fold_left fst snd].
  pose proof (tallied_inner v NodeIP now k (go_range m) hs vc ip b (NoDup_go_range_fst m)) as H1.
  rewrite list_to_map_go_range in H1.
  destruct (fold_left (count_one v NodeIP now k) (go_range m) (hs, vc)) as [hs1 vc1]. simpl in H1.
  rewrite IH, H1, filter_cons. case_bool_decide as Hv; [rewrite decide_True by done|rewrite decide_False by done]; simpl; lia.
Qed.

Lemma tallied_voters v NodeIP now st ip b :
  tallied (snd (count_votes v NodeIP now st)) ip b = Z.of_nat (size (voters v NodeIP now b ip st)).
Proof using Type.
  unfold count_votes. rewrite tallied_outer. unfold tallied. rewrite lookup_empty. simpl. rewrite lookup_empty. simpl.
  rewrite length_filter_go_range. unfold voters. by rewrite size_dom.
Qed.

(** A key of the vote map is present exactly when somebody voted so. *)
Definition present (vc : gmap string (gmap string Z)) : Prop :=
  forall ip m, vc !! ip = Some m -> forall b n, m !! (if b : bool then "yes"%string else "no"%string) = Some n -> 0 < n.

Lemma count_one_present v NodeIP now k hs vc iv : present vc -> present (snd (count_one v NodeIP now k (hs, vc) iv)).
Proof using Type.
  intros Hp. destruct iv as [ip d]. unfold count_one. destruct (fresh _ _ _ _ _); [|done]. simpl.
  intros ip' m [[<- <-]|[_ Hm]]%lookup_insert_Some b n; [|by apply (Hp ip' m Hm)].
  assert (forall b' n', default ∅ (vc !! ip) !! (if b' : bool then "yes"%string else "no"%string) = Some n' -> 0 < n') as Hd.
  { intros b' n'. destruct (vc !! ip) as [m'|] eqn:E; simpl; [by apply (Hp ip m' E)|by rewrite lookup_empty]. }
  intros [[_ <-]|[_ Hn]]%lookup_insert_Some; [|by apply (Hd b n)].
  destruct (default ∅ (vc !! ip) !! _) as [n'|] eqn:E; simpl; [|lia]. apply (Hd (Normal d)) in E. lia.
Qed.

Lemma count_votes_present v NodeIP now st : present (snd (count_votes v NodeIP now st)).
Proof using Type.
  unfold count_votes. assert (forall l acc, present (snd acc) -> present (snd (fold_left (fun acc kv =>
    fold_left (count_one v NodeIP now (fst kv)) (go_range (snd kv)) acc) l acc))) as Ho.
  { induction l as [|[k m] l IH]; intros acc Ha; [done|]. simpl. apply IH. clear IH.
    revert acc Ha. induction (go_range m) as [|iv l' IH]; intros [hs vc] Ha; [done|]. simpl. apply IH.
    by apply (count_one_present v NodeIP now k hs vc iv). }
  apply Ho. intros ip m. simpl. by rewrite lookup_empty.
Qed.

(** The number under "yes" or "no" is the number of voters, and it is there
    exactly when there is one. *)
Lemma count_votes_lookup v NodeIP now st ip b n :
  (exists m, snd (count_votes v NodeIP now st) !! ip = Some m /\ m !! (if b : bool then "yes"%string else "no"%string) = Some n)
  <-> n = Z.of_nat (size (voters v NodeIP now b ip st)) /\ 0 < n.
Proof using Type.
  pose proof (tallied_voters v NodeIP now st ip b) as Ht. unfold tallied in Ht. split.
  - intros (m & Hm & Hn). pose proof (count_votes_present v NodeIP now st ip m Hm b n Hn). rewrite Hm in Ht. simpl in Ht.
    rewrite Hn in Ht. simpl in Ht. done.
  - intros [-> Hpos]. destruct (snd (count_votes v NodeIP now st) !! ip) as [m|] eqn:Em; simpl in Ht;
      [|rewrite lookup_empty in Ht; simpl in Ht; lia].
    exists m. split; [done|]. destruct (m !! _) eqn:E; simpl in Ht; [by f_equal|lia].
Qed.

(** *** Checkers with a fresh verdict *)

Lemma health_inner v NodeIP now k (l : list (string * ResultDetail)) acc k' :
  k' ∈ fst (fold_left (count_one v NodeIP now k) l acc) <->
  k' ∈ fst acc \/ (k' = k /\ exists ip d, (ip, d) ∈ l /\ fresh v NodeIP now k d = true).
Proof using Type.
  revert acc. induction l as [|[ip d] l IH]; intros [hs vc]; simpl.
  { split; [by left|]. intros [?|(_ & ip & d & Hin & _)]; [done|]. by apply not_elem_of_nil in Hin. }
  rewrite IH. destruct (fresh v NodeIP now k d) eqn:E; simpl; setoid_rewrite elem_of_cons.
  - rewrite elem_of_union, elem_of_singleton. split.
    + intros [[-> |?]|(-> & ip' & d' & ? & ?)]; [|by left|].
      * right. split; [done|]. exists ip, d. auto.
      * right. split; [done|]. exists ip', d'. auto.
    + intros [?|(-> & ip' & d' & [?|?] & ?)]; [by left; right|by left; left|].
      right. split; [done|]. by exists ip', d'.
  - split.
    + intros [?|(-> & ip' & d' & ? & ?)]; [by left|]. right. split; [done|]. exists ip', d'. auto.
    + intros [?|(-> & ip' & d' & [?|?] & ?)]; [by left|exfalso; simplify_eq; congruence|]. right. split; [done|]. by exists ip', d'.
Qed.

Lemma health_nodes v NodeIP now st k :
  k ∈ fst (count_votes v NodeIP now st) <->
  exists m ip d, st !! k = Some m /\ m !! ip = Some d /\ fresh v NodeIP now k d = true.
Proof using Type.
  unfold count_votes.
  assert (forall (l : list (string * gmap string ResultDetail)) acc,
    k ∈ fst (fold_left (fun acc kv => fold_left (count_one v NodeIP now (fst kv)) (go_range (snd kv)) acc) l acc) <->
    k ∈ fst acc \/ exists m ip d, (k, m) ∈ l /\ m !! ip = Some d /\ fresh v NodeIP now k d = true) as Ho.
  { induction l as [|[k0 m0] l IH]; intros acc; simpl.
    { split; [by left|]. intros [?|(m & ip & d & Hin & _)]; [done|]. by apply not_elem_of_nil in Hin. }
    rewrite IH, health_inner. simpl. setoid_rewrite elem_of_cons. split.
    - intros [[?|(-> & ip & d & Hin & ?)]|(m & ip & d & ? & ? & ?)]; [by left| |].
      + apply elem_of_go_range in Hin. right. exists m0, ip, d. auto.
      + right. exists m, ip, d. auto.
    - intros [?|(m & ip & d & [[= -> ->]|?] & ? & ?)]; [by left; left| |].
      + left. right. split; [done|]. exists ip, d. by rewrite elem_of_go_range.
      + right. by exists m, ip, d. }
  rewrite Ho. simpl. setoid_rewrite elem_of_go_range. set_solver.
Qed.

(** *** Decisions *)

Lemma voters_bound v NodeIP now b ip st : (size (voters v NodeIP now b ip st) <= size st)%nat.
Proof using Type. unfold voters. rewrite size_dom. apply map_size_filter. Qed.

(** A strict majority of the checked addresses. *)
Definition majority (v : VoteEdge) (NodeIP : string) (now : Z) (s : HealthState) (b : bool) (ip : string) : Prop :=
  Z.of_nat (size (CheckInfoResult s)) + 1 <= 2 * Z.of_nat (size (voters v NodeIP now b ip (CopyResultDataAll (Result s)))).

Definition small (s : HealthState) : Prop :=
  Z.of_nat (size (CheckInfoResult s)) < 2 ^ 52 /\ Z.of_nat (size (Result s)) < 2 ^ 52.

Lemma majority_float v NodeIP now s b ip : small s ->
  majority v NodeIP now s b ip <->
  exists m n, snd (count_votes v NodeIP now (CopyResultDataAll (Result s))) !! ip = Some m
    /\ m !! (if b then "yes"%string else "no"%string) = Some n
    /\ fge (float64_of_int n) (num (CheckInfoResult s)) = true.
Proof using Type.
  intros [Hc Hr]. set (st := CopyResultDataAll (Result s)).
  assert (Z.of_nat (size (voters v NodeIP now b ip st)) < 2 ^ 52) as Hv.
  { pose proof (voters_bound v NodeIP now b ip st) as Hb. unfold st at 2, CopyResultDataAll in Hb. rewrite map_size_fmap in Hb. lia. }
  unfold majority. fold st. unfold num, GetLenCheckInfo. split.
  - intros Hm. destruct (proj2 (count_votes_lookup v NodeIP now st ip b (Z.of_nat (size (voters v NodeIP now b ip st))))) as (m & Hm1 & Hm2).
    { split; [done|]. lia. }
    exists m, (Z.of_nat (size (voters v NodeIP now b ip st))). do 2 (split; [done|]). rewrite fge_half by lia. lia.
  - intros (m & n & Hm1 & Hm2 & Hf).
    destruct (proj1 (count_votes_lookup v NodeIP now st ip b n)) as [Hn Hpos]; [by exists m|].
    rewrite fge_half in Hf by lia. lia.
Qed.

End Vote.

(** ** Properties *)

(** One address: which patches. *)
Lemma decide_ip_elem pods Get c ip v p :
  p ∈ decide_ip pods Get c ip v <->
  exists name n, GetNodeNameByNodeIP pods ip = Some name /\ name <> EmptyString /\ Get name = Some n
    /\ ((exists y, v !! "yes"%string = Some y /\ fge (float64_of_int y) (num c) = true
           /\ annotated n = true /\ p = NodeAnnotationPatchDelete (pom_name n) "nodeunhealth")
        \/ (exists y, v !! "no"%string = Some y /\ fge (float64_of_int y) (num c) = true
           /\ annotated n = false /\ p = NodeAnnotationPatchAddUpdate (pom_name n) "nodeunhealth" "yes")).
Proof.
  unfold decide_ip, voted_node.
  destruct (GetNodeNameByNodeIP pods ip) as [name|] eqn:En.
  2:{ split; [|naive_solver]. repeat case_match; set_solver. }
  destruct (Get name) as [n|] eqn:Eg.
  2:{ split; [|naive_solver]. repeat case_match; set_solver. }
  destruct (String.eqb_spec name EmptyString) as [He|He].
  { split; [|naive_solver]. repeat case_match; set_solver. }
  split.
  - intros Hp. exists name, n. do 3 (split; [done|]).
    destruct (v !! "yes"%string) as [y|] eqn:Ey; [destruct (fge (float64_of_int y) (num c)) eqn:Fy|];
      (destruct (v !! "no"%string) as [y'|] eqn:Ey'; [destruct (fge (float64_of_int y') (num c)) eqn:Fy'|]);
      destruct (annotated n) eqn:Ea; simpl in Hp; rewrite ?elem_of_cons, ?elem_of_nil in Hp; try tauto;
      destruct Hp as [-> |[]]; first [left; by exists y|right; by exists y'].
  - intros (name' & n' & [= <-] & _ & Hn' & Hp). assert (n' = n) as -> by congruence.
    destruct Hp as [(y & -> & -> & -> & ->)|(y & -> & -> & -> & ->)].
    + apply elem_of_app. left. apply elem_of_cons. by left.
    + repeat case_match; simplify_eq; apply elem_of_app; right; apply elem_of_cons; by left.
Qed.

(** C20: the vote patches exactly the nodes it should.  Unless a single checker
    is fresh, an address with a strict majority (over the number of checked
    addresses) of fresh normal verdicts has the nodeunhealth annotation
    removed from its node if it is there, and one with a strict majority of
    fresh failing verdicts has it added if it is missing; the node is the one
    whose only edge-health pod has that host address.  The floating-point
    threshold is exact. *)
Theorem Vote_patches `{R : GoRange} (v : VoteEdge) (NodeIP : string) (now : Z) (pods : PodStore)
    (Get : string -> option PartialObjectMetadata) (s : HealthState) (p : patch) :
  small s ->
  p ∈ Vote v NodeIP now pods Get s <->
  size (fst (count_votes v NodeIP now (CopyResultDataAll (Result s)))) <> 1%nat
  /\ exists ip name n, GetNodeNameByNodeIP pods ip = Some name /\ name <> EmptyString /\ Get name = Some n
     /\ ((majority v NodeIP now s true ip /\ annotated n = true /\ p = NodeAnnotationPatchDelete (pom_name n) "nodeunhealth")
         \/ (majority v NodeIP now s false ip /\ annotated n = false
             /\ p = NodeAnnotationPatchAddUpdate (pom_name n) "nodeunhealth" "yes")).
Proof.
  intros Hs. unfold Vote. pose proof (fun b ip => majority_float v NodeIP now s b ip Hs) as Hm.
  destruct (count_votes v NodeIP now (CopyResultDataAll (Result s))) as [hs vc]. simpl in *.
  destruct (Nat.eqb_spec (size hs) 1) as [He|He]; [split; [by intros ?%not_elem_of_nil|naive_solver]|].
  rewrite list_elem_of_In, in_concat. split.
  - intros (l & Hl & Hp). apply list_elem_of_In in Hl, Hp.
    apply list_elem_of_fmap in Hl as ([ip m] & -> & Hin%elem_of_go_range). split; [done|]. simpl in Hp.
    apply decide_ip_elem in Hp as (name & n & H1 & H2 & H3 & Hc). exists ip, name, n. do 3 (split; [done|]).
    destruct Hc as [(y & ? & ? & ? & ?)|(y & ? & ? & ? & ?)]; [left|right]; (split; [|done]); apply Hm; by exists m, y.
  - intros (_ & ip & name & n & H1 & H2 & H3 & Hc).
    assert (exists m, vc !! ip = Some m /\ p ∈ decide_ip pods Get (CheckInfoResult s) ip m) as (m & Em & Hp).
    { destruct Hc as [(Hmaj & ? & ?)|(Hmaj & ? & ?)]; apply Hm in Hmaj as (m & y & Em & ? & ?);
        exists m; (split; [done|]); apply decide_ip_elem; exists name, n; naive_solver. }
    exists (decide_ip pods Get (CheckInfoResult s) ip m). rewrite <- !list_elem_of_In. split; [|done].
    apply list_elem_of_fmap. exists (ip, m). split; [done|]. by apply elem_of_go_range.
Qed.

(** Three nodes; the two others report the third as failed. *)
Definition ex_vote_state : HealthState :=
  let bad := mkResultDetail false "" 100 in
  mkHealthState {["10.0.0.1"%string := ∅; "10.0.0.2"%string := ∅; "10.0.0.3"%string := ∅]}
    {["10.0.0.1"%string := Some {["10.0.0.3"%string := bad]}; "10.0.0.2"%string := Some {["10.0.0.3"%string := bad]}]} [] [].

Lemma Vote_patches_witness :
  NodeAnnotationPatchAddUpdate "n3" "nodeunhealth" "yes" ∈
    Vote (R := range_in_key_order) (NewVoteEdge 60 10) "10.0.0.1" 130000000000
      (Some [mkPod (named "kube-system" "p3") "n3" "10.0.0.3" "172.16.0.3"])
      (fun _ => Some (mkPartialObjectMetadata (named "" "n3"))) ex_vote_state.
Proof.
  apply (Vote_patches (R := range_in_key_order)); [split; reflexivity|]. split; [vm_compute; discriminate|].
  exists "10.0.0.3"%string, "n3"%string, (mkPartialObjectMetadata (named "" "n3")).
  split; [reflexivity|]. split; [discriminate|]. split; [reflexivity|]. right.
  split; [vm_compute; discriminate|]. split; reflexivity.
Defined.

(** When the checkers whose results a node holds are among the addresses it
    checks, as [GetNodeList] leaves them, one vote cannot decide both ways
    about an address. *)
Theorem vote_consistent `{R : GoRange} (v : VoteEdge) (NodeIP : string) (now : Z) (s : HealthState) (ip : string) :
  dom (Result s) ⊆ dom (CheckInfoResult s) ->
  ~ (majority v NodeIP now s true ip /\ majority v NodeIP now s false ip).
Proof.
  intros Hsub [Hy Hn]. unfold majority in *. set (st := CopyResultDataAll (Result s)) in *.
  assert (voters v NodeIP now true ip st ## voters v NodeIP now false ip st) as Hd.
  { intros k Hk1 Hk2. unfold voters in Hk1, Hk2. rewrite elem_of_dom in Hk1, Hk2.
    destruct Hk1 as [m1 [Hm1 Hv1]%map_lookup_filter_Some], Hk2 as [m2 [Hm2 Hv2]%map_lookup_filter_Some].
    assert (m2 = m1) as -> by congruence. unfold votes_for in *. simpl in *.
    destruct (m1 !! ip); [|done]. destruct Hv1, Hv2. congruence. }
  assert (voters v NodeIP now true ip st ∪ voters v NodeIP now false ip st ⊆ dom (CheckInfoResult s)) as Hin.
  { transitivity (dom st); [|unfold st, CopyResultDataAll; by rewrite dom_fmap_L].
    unfold voters. apply union_least; apply dom_filter_subseteq. }
  apply subseteq_size in Hin. rewrite size_union, size_dom in Hin by done. lia.
Qed.

Lemma vote_consistent_witness :
  ~ (majority (NewVoteEdge 60 10) "10.0.0.1" 130000000000 ex_vote_state true "10.0.0.3"
     /\ majority (NewVoteEdge 60 10) "10.0.0.1" 130000000000 ex_vote_state false "10.0.0.3").
Proof. apply (vote_consistent (R := range_in_key_order)). by_compute. Defined.

(** Quorums intersect.  If two nodes check the same number of addresses,
    hold results only of the members they check, and one finds a majority of
    normal verdicts on an address where the other finds a majority of failing
    ones, then some common checker reported normal to the one and failing to
    the other. *)
Theorem quorum_intersection (v v' : VoteEdge) (ipA ipB : string) (nowA nowB : Z) (sA sB : HealthState) (ip : string) :
  dom (CheckInfoResult sA) = dom (CheckInfoResult sB) ->
  dom (Result sA) ⊆ dom (CheckInfoResult sA) -> dom (Result sB) ⊆ dom (CheckInfoResult sB) ->
  majority v ipA nowA sA true ip -> majority v' ipB nowB sB false ip ->
  exists k dA dB, CopyLocalResultData (Result sA) k !! ip = Some dA /\ CopyLocalResultData (Result sB) k !! ip = Some dB
    /\ Normal dA = true /\ Normal dB = false.
Proof.
  intros Hd HA HB Hy Hn. unfold majority in *.
  set (Y := voters v ipA nowA true ip (CopyResultDataAll (Result sA))) in *.
  set (N := voters v' ipB nowB false ip (CopyResultDataAll (Result sB))) in *.
  assert (Y ⊆ dom (CheckInfoResult sA)) as HY.
  { transitivity (dom (CopyResultDataAll (Result sA))); [apply dom_filter_subseteq|]. unfold CopyResultDataAll. by rewrite dom_fmap_L. }
  assert (N ⊆ dom (CheckInfoResult sA)) as HN.
  { transitivity (dom (CopyResultDataAll (Result sB))); [apply dom_filter_subseteq|].
    unfold CopyResultDataAll. rewrite dom_fmap_L. set_solver. }
  assert (exists k, k ∈ Y /\ k ∈ N) as (k & HkY & HkN).
  { destruct (decide (Y ## N)) as [Hdis|Hdis].
    - assert (Y ∪ N ⊆ dom (CheckInfoResult sA)) as Hs%subseteq_size by set_solver.
      rewrite size_union in Hs by done.
      assert (size (CheckInfoResult sA) = size (CheckInfoResult sB)) by (rewrite <- !(size_dom (D := gset string)); by rewrite Hd).
      rewrite size_dom in Hs. lia.
    - destruct (set_choose_or_empty (Y ∩ N)) as [[k Hk]|He]; [exists k; set_solver|]. destruct Hdis. set_solver. }
  unfold Y, N, voters in HkY, HkN. rewrite elem_of_dom in HkY, HkN.
  destruct HkY as [mA [HmA HvA]%map_lookup_filter_Some], HkN as [mB [HmB HvB]%map_lookup_filter_Some].
  apply CopyResultDataAll_lookup in HmA as (gA & HgA & ->), HmB as (gB & HgB & ->).
  unfold votes_for in *. simpl in *. destruct (mp gA !! ip) as [dA|] eqn:EA; [|done].
  destruct (mp gB !! ip) as [dB|] eqn:EB; [|done]. destruct HvA, HvB. exists k, dA, dB.
  unfold CopyLocalResultData, GetLocalResultData. rewrite HgA, HgB. done.
Qed.

(** The same members; node 1 was told the third is well by all, node 2 that it failed. *)
Definition ex_vote_state_well : HealthState :=
  let good := mkResultDetail true "" 100 in
  mkHealthState (CheckInfoResult ex_vote_state)
    {["10.0.0.1"%string := Some {["10.0.0.3"%string := good]}; "10.0.0.2"%string := Some {["10.0.0.3"%string := good]}]} [] [].

Lemma quorum_intersection_witness :
  exists k dA dB, CopyLocalResultData (Result ex_vote_state_well) k !! "10.0.0.3"%string = Some dA
    /\ CopyLocalResultData (Result ex_vote_state) k !! "10.0.0.3"%string = Some dB /\ Normal dA = true /\ Normal dB = false.
Proof.
  apply (quorum_intersection (NewVoteEdge 60 10) (NewVoteEdge 60 10) "10.0.0.1" "10.0.0.2" 130000000000 130000000000
    ex_vote_state_well ex_vote_state "10.0.0.3"); [reflexivity|by_compute|by_compute|vm_compute; discriminate|vm_compute; discriminate].
Defined.
