(* ===== verification/GoJsonValue.v ===== *)
(** * encoding/json for nested values

    A JSON text as the Go scanner accepts it ([parse_value]) and as the
    encoder prints it, compact and with its escapes ([print_json]), the
    decimal form of an [int64], and the way an object's members are matched
    with the fields of a struct.  The messages of edge-health and the patches
    of its admission webhook are defined over it. *)

From Stdlib Require Import ZArith Lia Ascii String.
From stdpp Require Import base strings gmap numbers sorting list.
From S2P Require Import Prelude.
From S2P Require Import GoStd.
From S2P Require Import GoJson.

Local Open Scope Z_scope.

(** ** Values *)

(** Numbers keep their literal, as [encoding/json] does until the target type
    is known; members keep their order and duplicates. *)
Inductive json : Type :=
| JNull
| JBool (b : bool)
| JNum (literal : list Z)
| JStr (s : string)
| JArr (l : list json)
| JObj (l : list (string * json)).

(** ** Printing *)

Fixpoint sep_by (sep : Z) (l : list (list Z)) : list Z :=
  match l with
  | [] => []
  | [x] => x
  | x :: l => x ++ sep :: sep_by sep l
  end.

Definition lit_null : list Z := [110; 117; 108; 108].
Definition lit_true : list Z := [116; 114; 117; 101].
Definition lit_false : list Z := [102; 97; 108; 115; 101].

Fixpoint print_json (j : json) : list Z :=
  match j with
  | JNull => lit_null
  | JBool true => lit_true
  | JBool false => lit_false
  | JNum lit => lit
  | JStr s => encode_string s
  | JArr l => 91 :: sep_by 44 (map print_json l) ++ [93]
  | JObj l => 123 :: sep_by 44 (map (fun kv => encode_string (fst kv) ++ 58 :: print_json (snd kv)) l) ++ [125]
  end.

(** ** Scanning *)

Fixpoint digits_of (bs : list Z) : list Z * list Z :=
  match bs with
  | b :: rest => if is_digit b then let '(ds, after) := digits_of rest in (b :: ds, after) else ([], bs)
  | [] => ([], [])
  end.

(** At least one digit. *)
Definition digits1 (bs : list Z) : option (list Z * list Z) :=
  match digits_of bs with
  | ([], _) => None
  | r => Some r
  end.

Definition scan_int (bs : list Z) : option (list Z * list Z) :=
  match bs with
  | 48 :: rest => Some ([48], rest)
  | _ => digits1 bs
  end.

Definition scan_frac (bs : list Z) : option (list Z * list Z) :=
  match bs with
  | 46 :: rest => match digits1 rest with Some (ds, after) => Some (46 :: ds, after) | None => None end
  | _ => Some ([], bs)
  end.

Definition scan_exp (bs : list Z) : option (list Z * list Z) :=
  match bs with
  | e :: rest =>
      if (e =? 101) || (e =? 69) then
        let '(sign, rest) := match rest with
                             | 43 :: r => ([43], r)
                             | 45 :: r => ([45], r)
                             | _ => ([], rest)
                             end in
        match digits1 rest with Some (ds, after) => Some (e :: sign ++ ds, after) | None => None end
      else Some ([], bs)
  | [] => Some ([], [])
  end.

Definition scan_minus (bs : list Z) : list Z * list Z :=
  match bs with
  | 45 :: r => ([45], r)
  | _ => ([], bs)
  end.

Definition scan_number (bs : list Z) : option (list Z * list Z) :=
  let '(sign, bs) := scan_minus bs in
  match scan_int bs with
  | None => None
  | Some (i, bs) =>
      match scan_frac bs with
      | None => None
      | Some (fr, bs) =>
          match scan_exp bs with
          | None => None
          | Some (ex, bs) => Some (sign ++ i ++ fr ++ ex, bs)
          end
      end
  end.

Definition scan_string (bs : list Z) : option (string * list Z) :=
  match bs with
  | 34 :: rest =>
      match decode_body (length rest) rest with
      | Some (s, after) => Some (string_of s, after)
      | None => None
      end
  | _ => None
  end.

(** One value, after white space has been skipped, and what follows it. *)
Fixpoint parse_value (fuel : nat) (bs : list Z) : option (json * list Z) :=
  match fuel with
  | O => None
  | S f =>
      match bs with
      | 110 :: 117 :: 108 :: 108 :: rest => Some (JNull, rest)
      | 116 :: 114 :: 117 :: 101 :: rest => Some (JBool true, rest)
      | 102 :: 97 :: 108 :: 115 :: 101 :: rest => Some (JBool false, rest)
      | 34 :: _ => match scan_string bs with Some (s, rest) => Some (JStr s, rest) | None => None end
      | 91 :: rest =>
          match skip_ws rest with
          | 93 :: after => Some (JArr [], after)
          | rest => match parse_elems f rest with Some (l, after) => Some (JArr l, after) | None => None end
          end
      | 123 :: rest =>
          match skip_ws rest with
          | 125 :: after => Some (JObj [], after)
          | rest => match parse_members f rest with Some (l, after) => Some (JObj l, after) | None => None end
          end
      | _ => match scan_number bs with Some (lit, rest) => Some (JNum lit, rest) | None => None end
      end
  end
with parse_elems (fuel : nat) (bs : list Z) : option (list json * list Z) :=
  match fuel with
  | O => None
  | S f =>
      match parse_value f bs with
      | None => None
      | Some (x, rest) =>
          match skip_ws rest with
          | 93 :: after => Some ([x], after)
          | 44 :: rest =>
              match parse_elems f (skip_ws rest) with
              | Some (xs, after) => Some (x :: xs, after)
              | None => None
              end
          | _ => None
          end
      end
  end
with parse_members (fuel : nat) (bs : list Z) : option (list (string * json) * list Z) :=
  match fuel with
  | O => None
  | S f =>
      match scan_string bs with
      | None => None
      | Some (k, rest) =>
          match skip_ws rest with
          | 58 :: rest =>
              match parse_value f (skip_ws rest) with
              | None => None
              | Some (v, rest) =>
                  match skip_ws rest with
                  | 125 :: after => Some ([(k, v)], after)
                  | 44 :: rest =>
                      match parse_members f (skip_ws rest) with
                      | Some (kvs, after) => Some ((k, v) :: kvs, after)
                      | None => None
                      end
                  | _ => None
                  end
              end
          | _ => None
          end
      end
  end.

(** Twice the length of the text is enough fuel: every two nested calls
    consume a byte. *)
Definition parse_first (bs : list Z) : option (json * list Z) :=
  let bs := skip_ws bs in parse_value (2 * length bs) bs.

(** [json.Unmarshal] up to the value: nothing but white space may follow. *)
Definition parse_json (bs : list Z) : option json :=
  match parse_first bs with
  | Some (j, rest) => match skip_ws rest with [] => Some j | _ => None end
  | None => None
  end.

(** [Decoder.Decode]: the first value of a stream. *)
Definition parse_stream (bs : list Z) : option json := fst <$> parse_first bs.

(** ** Integers *)

Fixpoint nat_digits (fuel : nat) (n : Z) (acc : list Z) : list Z :=
  match fuel with
  | O => acc
  | S f => let acc := (48 + n mod 10) :: acc in if n <? 10 then acc else nat_digits f (n / 10) acc
  end.

(** [strconv.FormatInt] in base ten; twenty digits hold any [int64]. *)
Definition FormatInt (n : Z) : list Z :=
  if n <? 0 then 45 :: nat_digits 20 (- n) [] else nat_digits 20 n [].

(** ** Members and fields *)

(** The case folding of [encoding/json]'s field names, which are ASCII: a
    letter, the Kelvin sign and the long s. *)
Fixpoint fold_key (bs : list Z) : list Z :=
  match bs with
  | 226 :: 132 :: 170 :: rest => 107 :: fold_key rest
  | 197 :: 191 :: rest => 115 :: fold_key rest
  | b :: rest => (if (65 <=? b) && (b <=? 90) then b + 32 else b) :: fold_key rest
  | [] => []
  end.

(** The field a member sets: the one of that very name, or the first of a
    name equal under folding. *)
Definition field_for (fields : list string) (key : string) : option string :=
  if bool_decide (key ∈ fields) then Some key
  else head (filter (fun n => fold_key (bytes_of n) = fold_key (bytes_of key)) fields).

(** ** Parsing what was printed *)

Section json_ind.
Context (P : json -> Prop) (Hnull : P JNull) (Hbool : forall b, P (JBool b)) (Hnum : forall lit, P (JNum lit))
  (Hstr : forall s, P (JStr s)) (Harr : forall l, Forall P l -> P (JArr l))
  (Hobj : forall l, Forall (fun kv => P (snd kv)) l -> P (JObj l)).

Fixpoint json_nested_ind (j : json) : P j :=
  match j with
  | JNull => Hnull
  | JBool b => Hbool b
  | JNum lit => Hnum lit
  | JStr s => Hstr s
  | JArr l => Harr l ((fix go l := match l return Forall P l with
                                  | [] => Forall_nil_2 _
                                  | x :: l => Forall_cons_2 _ _ _ (json_nested_ind x) (go l)
                                  end) l)
  | JObj l => Hobj l ((fix go l := match l return Forall (fun kv => P (snd kv)) l with
                                  | [] => Forall_nil_2 _
                                  | x :: l => Forall_cons_2 _ _ _ (json_nested_ind (snd x)) (go l)
                                  end) l)
  end.

End json_ind.

(** A byte that cannot continue a number. *)
Definition stops (rest : list Z) : Prop :=
  match rest with
  | [] => True
  | b :: _ => is_digit b = false /\ b <> 46 /\ b <> 101 /\ b <> 69
  end.

(** The bytes a printed value starts with. *)
Definition value_starts : list Z := [110; 116; 102; 34; 91; 123; 45; 48; 49; 50; 51; 52; 53; 54; 55; 56; 57].

(** A decimal literal: scanned whole, and started by a sign or a digit. *)
Definition number_literal (lit : list Z) : Prop :=
  (exists b tl, lit = b :: tl /\ b ∈ drop 6 value_starts)
  /\ forall rest, stops rest -> scan_number (lit ++ rest) = Some (lit, rest).

(** What the round trip covers: ASCII strings and proper literals. *)
Fixpoint printable (j : json) : Prop :=
  match j with
  | JNull | JBool _ => True
  | JNum lit => number_literal lit
  | JStr s => ascii_only s
  | JArr l => (fix go l := match l with [] => True | x :: l => printable x /\ go l end) l
  | JObj l => (fix go l := match l with [] => True | kv :: l => (ascii_only (fst kv) /\ printable (snd kv)) /\ go l end) l
  end.

Lemma printable_arr l : printable (JArr l) <-> Forall printable l.
Proof. induction l as [|x l IH]; simpl in *; [done|]. rewrite Forall_cons. by rewrite <- IH. Qed.
Lemma printable_obj l : printable (JObj l) <-> Forall (fun kv => ascii_only (fst kv) /\ printable (snd kv)) l.
Proof. induction l as [|x l IH]; simpl in *; [done|]. rewrite Forall_cons. by rewrite <- IH. Qed.

(** Case analysis of [b ∈ concrete list]. *)
Ltac enum_elem H :=
  repeat (apply elem_of_cons in H as [-> |H]; [|]); [..|by apply elem_of_nil in H].

Lemma print_head j : printable j -> exists b tl, print_json j = b :: tl /\ b ∈ value_starts.
Proof.
  destruct j as [|[]|lit|s|l|l]; intros Hp; try (do 2 eexists; split; [reflexivity|]; unfold value_starts;
    repeat first [apply elem_of_cons; left; reflexivity|apply elem_of_cons; right]).
  destruct Hp as [(b & tl & -> & Hb) _]. exists b, tl. split; [done|]. unfold value_starts in *. simpl in Hb.
  do 6 (apply elem_of_cons; right). done.
Qed.

Lemma skip_ws_start b tl : b ∈ value_starts -> skip_ws (b :: tl) = b :: tl.
Proof. unfold value_starts. intros H. enum_elem H; reflexivity. Qed.

Lemma parse_array f b tl : b ∈ value_starts ->
  parse_value (S f) (91 :: b :: tl) =
    match parse_elems f (b :: tl) with Some (l, after) => Some (JArr l, after) | None => None end.
Proof. unfold value_starts. intros H. enum_elem H; reflexivity. Qed.

Lemma parse_object f tl :
  parse_value (S f) (123 :: 34 :: tl) =
    match parse_members f (34 :: tl) with Some (l, after) => Some (JObj l, after) | None => None end.
Proof. reflexivity. Qed.

Lemma parse_number f b tl : b ∈ drop 6 value_starts ->
  parse_value (S f) (b :: tl) = match scan_number (b :: tl) with Some (lit, rest) => Some (JNum lit, rest) | None => None end.
Proof. unfold value_starts. simpl. intros H. enum_elem H; reflexivity. Qed.

Lemma scan_string_encoded s rest : ascii_only s -> scan_string (encode_string s ++ rest) = Some (s, rest).
Proof. apply decode_elem_encoded. Qed.

Definition parses (j : json) : Prop :=
  forall f rest, stops rest -> (2 * length (print_json j) <= f)%nat -> parse_value f (print_json j ++ rest) = Some (j, rest).

Lemma sep_by_cons sep x y l : sep_by sep (x :: y :: l) = x ++ sep :: sep_by sep (y :: l).
Proof. done. Qed.

Lemma parse_elems_printed l f rest : l <> [] -> Forall printable l -> Forall parses l ->
  (2 * length (sep_by 44 (map print_json l)) + 1 <= f)%nat ->
  parse_elems f (sep_by 44 (map print_json l) ++ 93 :: rest) = Some (l, rest).
Proof.
  intros Hne Hp. revert Hne f. induction Hp as [|x l Hx Hp IH]; intros Hne f Hl Hf; [done|].
  apply Forall_cons in Hl as [Hpx Hl]. destruct f as [|f]; [lia|]. destruct l as [|y l].
  - cbn [map sep_by] in *. cbn [parse_elems]. rewrite Hpx; [done|by repeat split|lia].
  - cbn [map] in *. rewrite sep_by_cons, length_app in *. cbn [length] in Hf. rewrite <- app_assoc. cbn [parse_elems].
    rewrite Hpx; [|by repeat split|lia]. rewrite <- app_comm_cons. apply Forall_cons in Hp as [Hy Hp].
    destruct (print_head y Hy) as (b & tl & Eb & Hb).
    assert (exists tl', sep_by 44 (print_json y :: map print_json l) ++ 93 :: rest = b :: tl') as [tl' Etl].
    { rewrite Eb. destruct l; simpl; eauto. }
    specialize (IH ltac:(done) f Hl ltac:(cbn [map]; lia)). cbn [map] in IH. rewrite Etl in IH |- *.
    change (skip_ws (44 :: b :: tl')) with (44 :: b :: tl'). cbn -[skip_ws parse_elems].
    rewrite skip_ws_start by done. by rewrite IH.
Qed.

Definition print_member (kv : string * json) : list Z := encode_string (fst kv) ++ 58 :: print_json (snd kv).

Lemma scan_member k j after f : ascii_only k -> printable j -> parses j -> stops after ->
  (2 * length (print_member (k, j)) <= f)%nat ->
  exists rest, scan_string (print_member (k, j) ++ after) = Some (k, 58 :: rest)
    /\ parse_value f (skip_ws rest) = Some (j, after).
Proof.
  intros Hk Hj Hp Hs Hf. unfold print_member in *. cbn [fst snd] in *. exists (print_json j ++ after).
  rewrite <- app_assoc, scan_string_encoded by done. split; [done|].
  destruct (print_head j Hj) as (b & tl & Eb & Hb). rewrite length_app in Hf. cbn [length] in Hf.
  replace (skip_ws (print_json j ++ after)) with (print_json j ++ after).
  { apply Hp; [done|lia]. }
  rewrite Eb, <- app_comm_cons. by rewrite skip_ws_start.
Qed.

Lemma parse_members_printed l f rest : l <> [] -> Forall (fun kv => ascii_only (fst kv) /\ printable (snd kv)) l ->
  Forall (fun kv => parses (snd kv)) l -> (2 * length (sep_by 44 (map print_member l)) + 1 <= f)%nat ->
  parse_members f (sep_by 44 (map print_member l) ++ 125 :: rest) = Some (l, rest).
Proof.
  intros Hne Hp. revert Hne f. induction Hp as [|[k x] l [Hk Hx] Hp IH]; intros Hne f Hl Hf; [done|].
  apply Forall_cons in Hl as [Hpx Hl]. destruct f as [|f]; [lia|]. destruct l as [|[k' y] l].
  - cbn [map sep_by] in *. destruct (scan_member k x (125 :: rest) f) as (r & Hs & Hv); [done..|by repeat split|lia|].
    cbn [parse_members]. rewrite Hs. change (skip_ws (58 :: r)) with (58 :: r). cbn -[skip_ws parse_value].
    by rewrite Hv.
  - cbn [map] in *. rewrite sep_by_cons, length_app in *. cbn [length] in Hf. rewrite <- app_assoc, <- app_comm_cons.
    destruct (scan_member k x (44 :: sep_by 44 (print_member (k', y) :: map print_member l) ++ 125 :: rest) f)
      as (r & Hs & Hv); [done..|by repeat split|lia|].
    cbn [parse_members]. rewrite Hs. change (skip_ws (58 :: r)) with (58 :: r). cbn -[skip_ws parse_value parse_members sep_by print_member].
    rewrite Hv. specialize (IH ltac:(done) f Hl ltac:(cbn [map]; lia)). cbn [map] in IH.
    assert (exists tl', sep_by 44 (print_member (k', y) :: map print_member l) ++ 125 :: rest = 34 :: tl') as [tl' Etl].
    { unfold print_member, encode_string. destruct l; simpl; eauto. }
    rewrite Etl in IH |- *. change (skip_ws (44 :: 34 :: tl')) with (44 :: 34 :: tl'). cbn -[skip_ws parse_members].
    change (skip_ws (34 :: tl')) with (34 :: tl'). by rewrite IH.
Qed.

(** The parser inverts the printer. *)
Lemma parse_printed j : printable j -> parses j.
Proof.
  induction j as [|b|lit|s|l IH|l IH] using json_nested_ind; intros Hp f rest Hs Hf;
    (destruct f as [|f]; [destruct (print_head _ Hp) as (? & ? & E & _); rewrite E in Hf; cbn [length] in Hf; lia|]);
    try (by destruct b); [done|..].
  - destruct Hp as [(b & tl & -> & Hb) Hscan]. cbn [print_json] in *. specialize (Hscan rest Hs).
    rewrite <- app_comm_cons in *. by rewrite parse_number, Hscan by done.
  - pose proof (scan_string_encoded s rest Hp) as H. cbn [print_json] in *.
    unfold encode_string in H |- *. rewrite <- app_comm_cons in *. cbn [parse_value]. by rewrite H.
  - apply printable_arr in Hp. destruct l as [|x l]; [done|].
    assert (Forall parses (x :: l)) as Hall by (rewrite Forall_forall in *; eauto).
    cbn [print_json length] in Hf |- *. rewrite length_app in Hf. cbn [length] in Hf.
    pose proof (parse_elems_printed (x :: l) f rest ltac:(done) Hp Hall ltac:(lia)) as He.
    apply Forall_cons in Hp as [Hx _]. destruct (print_head x Hx) as (b & tl & Eb & Hb).
    assert (exists tl', sep_by 44 (map print_json (x :: l)) ++ 93 :: rest = b :: tl') as [tl' Etl].
    { cbn [map]. rewrite Eb. destruct l; simpl; eauto. }
    rewrite <- app_comm_cons, <- app_assoc. change ([93] ++ rest) with (93 :: rest). rewrite Etl in He |- *.
    by rewrite parse_array, He.
  - apply printable_obj in Hp. destruct l as [|[k x] l]; [done|].
    assert (Forall (fun kv => parses (snd kv)) ((k, x) :: l)) as Hall
      by (rewrite Forall_forall in *; intros kv Hkv; apply IH; [done|]; by apply Hp).
    cbn [print_json length] in Hf |- *. fold print_member in Hf |- *. rewrite length_app in Hf. cbn [length] in Hf.
    pose proof (parse_members_printed ((k, x) :: l) f rest ltac:(done) Hp Hall ltac:(lia)) as He.
    assert (exists tl', sep_by 44 (map print_member ((k, x) :: l)) ++ 125 :: rest = 34 :: tl') as [tl' Etl].
    { cbn [map]. unfold print_member, encode_string. destruct l; simpl; eauto. }
    rewrite <- app_comm_cons, <- app_assoc. change ([125] ++ rest) with (125 :: rest). rewrite Etl in He |- *.
    by rewrite parse_object, He.
Qed.

Lemma parse_first_printed j rest : printable j -> stops rest -> parse_first (print_json j ++ rest) = Some (j, rest).
Proof.
  intros Hp Hs. unfold parse_first. destruct (print_head j Hp) as (b & tl & Eb & Hb).
  replace (skip_ws (print_json j ++ rest)) with (print_json j ++ rest).
  - apply parse_printed; [done..|]. rewrite length_app. lia.
  - rewrite Eb, <- app_comm_cons. by rewrite skip_ws_start.
Qed.

(** ** Decimal literals *)

Definition digit (b : Z) : Prop := is_digit b = true.

Lemma digit_range b : digit b <-> 48 <= b <= 57.
Proof. unfold digit, is_digit. rewrite andb_true_iff, !Z.leb_le. done. Qed.

Lemma parse_digits_app a ds rest : Forall digit ds ->
  parse_digits a (ds ++ rest) = match parse_digits a ds with Some n => parse_digits n rest | None => None end.
Proof.
  intros H. revert a. induction H as [|d ds Hd H IH]; intros a; [done|]. simpl. by rewrite Hd, IH.
Qed.

Lemma nat_digits_spec (f : nat) n acc : 0 <= n < 10 ^ Z.of_nat f -> (0 < f)%nat ->
  exists b ds, nat_digits f n acc = (b :: ds) ++ acc /\ Forall digit (b :: ds) /\ (b = 48 -> n = 0 /\ ds = [])
    /\ parse_digits 0 (b :: ds) = Some n.
Proof.
  revert n acc. induction f as [|f IH]; intros n acc Hn Hf; [lia|]. cbn [nat_digits].
  destruct (Z.ltb_spec n 10) as [Hlt|Hge].
  - rewrite Z.mod_small by lia. exists (48 + n), []. assert (digit (48 + n)) as Hd by (apply digit_range; lia).
    split; [done|]. split; [by repeat constructor|]. split; [intros; split; [lia|done]|].
    cbn [parse_digits]. rewrite Hd. f_equal. lia.
  - destruct f as [|f]; [simpl in Hn; lia|].
    assert (0 <= n / 10 < 10 ^ Z.of_nat (S f)) as Hq.
    { split; [apply Z.div_pos; lia|]. apply Z.div_lt_upper_bound; [lia|].
      rewrite Nat2Z.inj_succ, Z.pow_succ_r in Hn by lia. lia. }
    destruct (IH (n / 10) ((48 + n mod 10) :: acc) Hq ltac:(lia)) as (b & ds & E & Hds & Hz & Hp).
    pose proof (Z.mod_pos_bound n 10 ltac:(lia)). assert (digit (48 + n mod 10)) as Hd by (apply digit_range; lia).
    exists b, (ds ++ [48 + n mod 10]). rewrite E. split; [simpl; by rewrite <- app_assoc|].
    split; [apply Forall_cons in Hds as []; constructor; [done|]; apply Forall_app; split; [done|by repeat constructor]|].
    split; [intros Hb; destruct (Hz Hb); assert (1 <= n / 10) by (apply Z.div_le_lower_bound; lia); lia|].
    rewrite app_comm_cons, parse_digits_app, Hp by done. cbn [parse_digits]. rewrite Hd. f_equal.
    pose proof (Z.div_mod n 10 ltac:(lia)). lia.
Qed.

Lemma digits_of_app ds rest : Forall digit ds -> stops rest -> digits_of (ds ++ rest) = (ds, rest).
Proof.
  intros H Hr. induction H as [|d ds Hd H IH].
  - destruct rest as [|b rest]; [done|]. simpl. by rewrite (proj1 Hr).
  - simpl. by rewrite Hd, IH.
Qed.

Lemma scan_tail rest : stops rest -> scan_frac rest = Some ([], rest) /\ scan_exp rest = Some ([], rest).
Proof.
  destruct rest as [|b rest]; [done|]. intros (_ & H46 & H101 & H69). split.
  - unfold scan_frac. repeat case_match; simplify_eq; done.
  - unfold scan_exp. by rewrite (proj2 (Z.eqb_neq _ _) H101), (proj2 (Z.eqb_neq _ _) H69).
Qed.

Lemma scan_int_digits b ds rest : Forall digit (b :: ds) -> (b = 48 -> ds = []) -> stops rest ->
  scan_int ((b :: ds) ++ rest) = Some (b :: ds, rest).
Proof.
  intros Hd Hz Hs. unfold scan_int. destruct (decide (b = 48)) as [-> |Hne]; [by rewrite Hz|].
  assert (digits1 ((b :: ds) ++ rest) = Some (b :: ds, rest)) as E by (unfold digits1; by rewrite digits_of_app).
  simpl app in *. repeat case_match; simplify_eq; done.
Qed.

(** The sign of a literal and its digits. *)
Lemma FormatInt_shape n : Z.abs n < 10 ^ 20 ->
  exists b ds, FormatInt n = (if n <? 0 then [45] else []) ++ b :: ds /\ Forall digit (b :: ds)
    /\ (b = 48 -> ds = []) /\ parse_digits 0 (b :: ds) = Some (Z.abs n).
Proof.
  intros Hn. unfold FormatInt.
  destruct (nat_digits_spec 20 (Z.abs n) [] ltac:(simpl; lia) ltac:(lia)) as (b & ds & E & Hd & Hz & Hp).
  rewrite app_nil_r in E. exists b, ds. destruct (Z.ltb_spec n 0).
  - replace (- n) with (Z.abs n) by lia. rewrite E. repeat split; try done. intros Hb. by apply Hz.
  - replace n with (Z.abs n) at 1 by lia. rewrite E. repeat split; try done. intros Hb. by apply Hz.
Qed.

Lemma digit_enum b : digit b -> b ∈ drop 7 value_starts.
Proof.
  rewrite digit_range. intros Hb. assert (b ∈ seqZ 48 10) as H by (apply elem_of_seqZ; lia).
  by vm_compute in H |- *.
Qed.

Lemma FormatInt_literal n : Z.abs n < 10 ^ 20 -> number_literal (FormatInt n).
Proof.
  intros Hn. destruct (FormatInt_shape n Hn) as (b & ds & -> & Hd & Hz & _). split.
  - destruct (n <? 0).
    + exists 45, (b :: ds). split; [done|]. simpl. by apply elem_of_cons; left.
    + exists b, ds. split; [done|]. apply Forall_cons in Hd as [Hb%digit_enum _].
      change (drop 6 value_starts) with (45 :: drop 7 value_starts). by apply elem_of_cons; right.
  - intros rest Hs. destruct (scan_tail rest Hs) as [Hf He].
    pose proof (scan_int_digits b ds rest Hd Hz Hs) as Hi. apply Forall_cons in Hd as [Hb _].
    unfold scan_number. destruct (n <? 0); simpl app in *.
    + cbn [scan_minus]. by rewrite Hi, Hf, He, !app_nil_r.
    + assert (b <> 45) by (apply digit_range in Hb; lia).
      assert (scan_minus (b :: ds ++ rest) = ([], b :: ds ++ rest)) as ->
        by (unfold scan_minus; repeat case_match; simplify_eq; done).
      by rewrite Hi, Hf, He, !app_nil_r.
Qed.

Lemma FormatInt_ParseInt n : in_int64 n -> ParseInt (string_of (FormatInt n)) 64 = Some n.
Proof.
  unfold in_int64. intros Hn. destruct (FormatInt_shape n ltac:(lia)) as (b & ds & -> & Hd & _ & Hp).
  unfold ParseInt. rewrite bytes_of_string_of.
  2:{ apply Forall_app. split; [destruct (n <? 0); repeat constructor; lia|].
      eapply Forall_impl; [exact Hd|]. intros c Hc%digit_range. lia. }
  apply Forall_cons in Hd as [Hb%digit_range _].
  assert (split_sign ((if n <? 0 then [45] else []) ++ b :: ds) = (n <? 0, b :: ds)) as ->.
  { destruct (n <? 0); [done|]. simpl app. unfold split_sign. repeat case_match; simplify_eq; lia || done. }
  unfold parse_nat. rewrite Hp. destruct (Z.ltb_spec n 0).
  - rewrite (proj2 (Z.leb_le _ _)) by lia. f_equal. lia.
  - rewrite (proj2 (Z.ltb_lt _ _)) by lia. f_equal. lia.
Qed.
