(* ===== verification/GoJsonStruct.v ===== *)
(** * encoding/json for structs and maps

    The encoder sorts a map's keys and leaves out empty fields that say so; the
    decoder sets the fields that an object's members name. *)

From Stdlib Require Import ZArith Lia Ascii String.
From stdpp Require Import base strings gmap numbers sorting list.
From S2P Require Import Prelude.
From S2P Require Import GoStd.
From S2P Require Import GoJson.
From S2P Require Import GoSort.
From S2P Require Import GoJsonValue.

Local Open Scope Z_scope.

(** ** Encoding *)

(** The encoder sorts the keys of a map. *)
Definition key_le {V : Type} (x y : string * V) : Prop := bytes_le (bytes_of (fst x)) (bytes_of (fst y)) = true.

#[export] Instance key_le_dec {V : Type} (x y : string * V) : Decision (key_le x y).
Proof. unfold key_le. apply _. Defined.

Definition sorted_members {V : Type} (m : gmap string V) : list (string * V) := merge_sort key_le (map_to_list m).

Definition member_if (cond : bool) (key : string) (j : json) : list (string * json) := if cond then [(key, j)] else [].
Definition nonempty (s : string) : bool := negb (String.eqb s EmptyString).

(** ** Decoding *)

(** The members of an object set the fields they name, one after the other;
    null leaves a string, a number or a boolean as it is; a member of another
    type makes the whole decoding fail. *)
Fixpoint decode_members {A : Type} (set : A -> string -> json -> option A) (fields : list string)
    (l : list (string * json)) (a : A) : option A :=
  match l with
  | [] => Some a
  | (k, v) :: l =>
      match field_for fields k with
      | None => decode_members set fields l a
      | Some f => match set a f v with Some a => decode_members set fields l a | None => None end
      end
  end.

Definition decode_struct {A : Type} (set : A -> string -> json -> option A) (fields : list string) (a : A) (j : json)
    : option A :=
  match j with
  | JNull => Some a
  | JObj l => decode_members set fields l a
  | _ => None
  end.

Definition decode_str (cur : string) (j : json) : option string :=
  match j with JNull => Some cur | JStr s => Some s | _ => None end.
Definition decode_bool (cur : bool) (j : json) : option bool :=
  match j with JNull => Some cur | JBool b => Some b | _ => None end.
Definition decode_int64 (cur : Z) (j : json) : option Z :=
  match j with JNull => Some cur | JNum lit => ParseInt (string_of lit) 64 | _ => None end.

(** ** Decoding what was encoded *)

Lemma ascii_only_empty : ascii_only EmptyString.
Proof. constructor. Qed.

Lemma member_if_printable cond key j : ascii_only key -> (cond = true -> printable j) ->
  Forall (fun kv => ascii_only (fst kv) /\ printable (snd kv)) (member_if cond key j).
Proof. intros Hk Hj. destruct cond; constructor; [auto|constructor]. Qed.

(** A field name is ASCII. *)
Ltac ascii_literal := repeat (constructor; [reflexivity|]); constructor.

Lemma sorted_members_perm {V : Type} (m : gmap string V) : sorted_members m ≡ₚ map_to_list m.
Proof. apply merge_sort_Permutation. Qed.

Lemma elem_of_sorted_members {V : Type} (m : gmap string V) k v : (k, v) ∈ sorted_members m <-> m !! k = Some v.
Proof. rewrite sorted_members_perm. apply elem_of_map_to_list. Qed.

Lemma sorted_members_map {V : Type} (m : gmap string V) : list_to_map (sorted_members m) = m.
Proof.
  rewrite <- (list_to_map_to_list m) at 2. apply list_to_map_proper; [|apply sorted_members_perm].
  rewrite sorted_members_perm. apply NoDup_fst_map_to_list.
Qed.

Lemma parse_stream_printed j : printable j -> parse_stream (print_json j) = Some j.
Proof. intros H. unfold parse_stream. rewrite <- (app_nil_r (print_json j)). by rewrite parse_first_printed. Qed.
