(* ===== verification/GoBase64.v ===== *)
(** * encoding/base64, the standard encoding

    [encoding/json] writes a byte slice as a string in this encoding. *)

From Stdlib Require Import ZArith Lia Ascii String.
From stdpp Require Import base strings gmap numbers sorting list.
From S2P Require Import Prelude.
From S2P Require Import GoStd.

Local Open Scope Z_scope.

(** The digit of a six-bit number: A-Z, a-z, 0-9, + and /. *)
Definition b64_digit (n : Z) : Z :=
  if n <? 26 then 65 + n
  else if n <? 52 then 97 + (n - 26)
  else if n <? 62 then 48 + (n - 52)
  else if n =? 62 then 43 else 47.

Definition b64_value (c : Z) : option Z :=
  if (65 <=? c) && (c <=? 90) then Some (c - 65)
  else if (97 <=? c) && (c <=? 122) then Some (c - 97 + 26)
  else if (48 <=? c) && (c <=? 57) then Some (c - 48 + 52)
  else if c =? 43 then Some 62
  else if c =? 47 then Some 63
  else None.

(** Three bytes make four digits; what is left is padded with [=]. *)
Fixpoint b64_encode (bs : list Z) : list Z :=
  match bs with
  | [] => []
  | [a] => [b64_digit (Z.shiftr a 2); b64_digit (Z.shiftl (Z.land a 3) 4); 61; 61]
  | [a; b] => [b64_digit (Z.shiftr a 2); b64_digit (Z.lor (Z.shiftl (Z.land a 3) 4) (Z.shiftr b 4)); b64_digit (Z.shiftl (Z.land b 15) 2); 61]
  | a :: b :: c :: rest =>
      b64_digit (Z.shiftr a 2) :: b64_digit (Z.lor (Z.shiftl (Z.land a 3) 4) (Z.shiftr b 4))
      :: b64_digit (Z.lor (Z.shiftl (Z.land b 15) 2) (Z.shiftr c 6)) :: b64_digit (Z.land c 63) :: b64_encode rest
  end.

(** The bits of a last group that make no byte are ignored. *)
Fixpoint b64_decode_clean (cs : list Z) : option (list Z) :=
  match cs with
  | [] => Some []
  | a :: b :: c :: d :: rest =>
      match b64_value a, b64_value b with
      | Some x, Some y =>
          let first := Z.lor (Z.shiftl x 2) (Z.shiftr y 4) in
          match b64_value c, b64_value d with
          | Some z, Some w =>
              match b64_decode_clean rest with
              | Some bs => Some (first :: Z.lor (Z.shiftl (Z.land y 15) 4) (Z.shiftr z 2) :: Z.lor (Z.shiftl (Z.land z 3) 6) w :: bs)
              | None => None
              end
          | Some z, None => if (d =? 61) && bool_decide (rest = []) then Some [first; Z.lor (Z.shiftl (Z.land y 15) 4) (Z.shiftr z 2)] else None
          | None, _ => if (c =? 61) && (d =? 61) && bool_decide (rest = []) then Some [first] else None
          end
      | _, _ => None
      end
  | _ => None
  end.

(** Line breaks are skipped wherever they stand. *)
Definition b64_decode (cs : list Z) : option (list Z) := b64_decode_clean (filter (fun c => c <> 10 /\ c <> 13) cs).

Example b64_ex : string_of (b64_encode (bytes_of "any carnal pleas")) = "YW55IGNhcm5hbCBwbGVhcw=="%string
  /\ string_of (b64_encode (bytes_of "any carnal pleasu")) = "YW55IGNhcm5hbCBwbGVhc3U="%string
  /\ b64_decode (bytes_of "YW55IGNhcm5hbCBwbGVhc3U=") = Some (bytes_of "any carnal pleasu")
  /\ b64_decode (bytes_of "YW5") = None.
Proof. repeat split; vm_compute; reflexivity. Qed.

(** ** Decoding what was encoded *)

Definition byte (b : Z) : Prop := 0 <= b < 256.

(** Facts about numbers of a few bits, by going through them. *)
Lemma below_check (k : nat) (P : Z -> bool) : forallb P (Z.of_nat <$> seq 0 k) = true -> forall n, 0 <= n < Z.of_nat k -> P n = true.
Proof.
  intros H n Hn. rewrite forallb_forall in H. apply H, list_elem_of_In, list_elem_of_fmap. exists (Z.to_nat n).
  split; [lia|]. apply elem_of_seq. lia.
Qed.

(** [H]: what a decidable property says of [n], checked on all numbers below [k]. *)
Local Ltac by_cases_below k Q n H :=
  let C := fresh in
  assert (forallb (fun i => bool_decide (Q i)) (Z.of_nat <$> seq 0 k) = true) as C by (vm_compute; reflexivity);
  assert (Q n) as H by (apply (bool_decide_eq_true_1 _), (below_check k (fun i => bool_decide (Q i)) C); lia); clear C; cbv beta in H.

Lemma b64_value_digit n : 0 <= n < 64 -> b64_value (b64_digit n) = Some n.
Proof.
  intros Hn. by_cases_below 64%nat (fun n => b64_value (b64_digit n) = Some n) n H. exact H.
Qed.

Lemma b64_digit_range n : 0 <= n < 64 -> 32 < b64_digit n < 128 /\ b64_digit n <> 61.
Proof.
  intros Hn. by_cases_below 64%nat (fun n => 32 < b64_digit n < 128 /\ b64_digit n <> 61) n H. exact H.
Qed.

(** The pieces of a byte. *)
Lemma byte_pieces b : byte b ->
  0 <= Z.shiftr b 2 < 64 /\ 0 <= Z.shiftr b 4 < 16 /\ 0 <= Z.shiftr b 6 < 4
  /\ 0 <= Z.land b 3 < 4 /\ 0 <= Z.land b 15 < 16 /\ 0 <= Z.land b 63 < 64
  /\ b = Z.lor (Z.shiftl (Z.shiftr b 2) 2) (Z.land b 3) /\ b = Z.lor (Z.shiftl (Z.shiftr b 4) 4) (Z.land b 15)
  /\ b = Z.lor (Z.shiftl (Z.shiftr b 6) 6) (Z.land b 63).
Proof.
  unfold byte. intros Hb. by_cases_below 256%nat (fun b => 0 <= Z.shiftr b 2 < 64 /\ 0 <= Z.shiftr b 4 < 16 /\ 0 <= Z.shiftr b 6 < 4
    /\ 0 <= Z.land b 3 < 4 /\ 0 <= Z.land b 15 < 16 /\ 0 <= Z.land b 63 < 64
    /\ b = Z.lor (Z.shiftl (Z.shiftr b 2) 2) (Z.land b 3) /\ b = Z.lor (Z.shiftl (Z.shiftr b 4) 4) (Z.land b 15)
    /\ b = Z.lor (Z.shiftl (Z.shiftr b 6) 6) (Z.land b 63)) b H. exact H.
Qed.

(** A six-bit number made of two pieces gives them back. *)
Lemma join_2_4 x y : 0 <= x < 4 -> 0 <= y < 16 -> let n := Z.lor (Z.shiftl x 4) y in 0 <= n < 64 /\ Z.shiftr n 4 = x /\ Z.land n 15 = y.
Proof.
  intros Hx Hy. cbv zeta. by_cases_below 64%nat (fun k => 0 <= Z.lor (Z.shiftl (k / 16) 4) (k mod 16) < 64
    /\ Z.shiftr (Z.lor (Z.shiftl (k / 16) 4) (k mod 16)) 4 = k / 16 /\ Z.land (Z.lor (Z.shiftl (k / 16) 4) (k mod 16)) 15 = k mod 16) (16 * x + y) H.
  assert ((16 * x + y) / 16 = x) as E1 by (rewrite Z.mul_comm, Z.div_add_l by lia; rewrite Z.div_small by lia; lia).
  assert ((16 * x + y) mod 16 = y) as E2 by (rewrite Z.add_comm, Z.mul_comm, Z.mod_add by lia; rewrite Z.mod_small by lia; lia).
  by rewrite E1, E2 in H.
Qed.

Lemma join_4_2 x y : 0 <= x < 16 -> 0 <= y < 4 -> let n := Z.lor (Z.shiftl x 2) y in 0 <= n < 64 /\ Z.shiftr n 2 = x /\ Z.land n 3 = y.
Proof.
  intros Hx Hy. cbv zeta. by_cases_below 64%nat (fun k => 0 <= Z.lor (Z.shiftl (k / 4) 2) (k mod 4) < 64
    /\ Z.shiftr (Z.lor (Z.shiftl (k / 4) 2) (k mod 4)) 2 = k / 4 /\ Z.land (Z.lor (Z.shiftl (k / 4) 2) (k mod 4)) 3 = k mod 4) (4 * x + y) H.
  assert ((4 * x + y) / 4 = x) as E1 by (rewrite Z.mul_comm, Z.div_add_l by lia; rewrite Z.div_small by lia; lia).
  assert ((4 * x + y) mod 4 = y) as E2 by (rewrite Z.add_comm, Z.mul_comm, Z.mod_add by lia; rewrite Z.mod_small by lia; lia).
  by rewrite E1, E2 in H.
Qed.

Lemma shiftl_4 x : 0 <= x < 4 -> 0 <= Z.shiftl x 4 < 64 /\ Z.shiftr (Z.shiftl x 4) 4 = x.
Proof. intros Hx. destruct (join_2_4 x 0 Hx) as (H1 & H2 & _); [lia|]. by rewrite Z.lor_0_r in H1, H2. Qed.
Lemma shiftl_2 x : 0 <= x < 16 -> 0 <= Z.shiftl x 2 < 64 /\ Z.shiftr (Z.shiftl x 2) 2 = x.
Proof. intros Hx. destruct (join_4_2 x 0 Hx) as (H1 & H2 & _); [lia|]. by rewrite Z.lor_0_r in H1, H2. Qed.

(** Lists by three. *)
Lemma list_3_ind {A : Type} (P : list A -> Prop) :
  P [] -> (forall a, P [a]) -> (forall a b, P [a; b]) -> (forall a b c l, P l -> P (a :: b :: c :: l)) -> forall l, P l.
Proof.
  intros H0 H1 H2 H3. fix IH 1. intros [|a [|b [|c l]]]; [done|apply H1|apply H2|apply H3, IH].
Qed.

Lemma b64_decode_clean_encode bs : Forall byte bs -> b64_decode_clean (b64_encode bs) = Some bs.
Proof.
  induction bs as [|a|a b|a b c l IH] using list_3_ind; rewrite ?Forall_cons; [done|intros [Ha _]|intros (Ha & Hb & _)|intros (Ha & Hb & Hc & Hl)].
  - destruct (byte_pieces a Ha) as (A1 & _ & _ & A2 & _ & _ & A3 & _). destruct (shiftl_4 _ A2) as [S1 S2].
    cbn [b64_encode b64_decode_clean]. rewrite !b64_value_digit by done. cbn. by rewrite S2, <- A3.
  - destruct (byte_pieces a Ha) as (A1 & _ & _ & A2 & _ & _ & A3 & _). destruct (byte_pieces b Hb) as (_ & B1 & _ & _ & B2 & _ & _ & B3 & _).
    destruct (join_2_4 _ _ A2 B1) as (J1 & J2 & J3). destruct (shiftl_2 _ B2) as [S1 S2].
    cbn [b64_encode b64_decode_clean]. rewrite !b64_value_digit by done. cbn. by rewrite J2, J3, S2, <- A3, <- B3.
  - destruct (byte_pieces a Ha) as (A1 & _ & _ & A2 & _ & _ & A3 & _). destruct (byte_pieces b Hb) as (_ & B1 & _ & _ & B2 & _ & _ & B3 & _).
    destruct (byte_pieces c Hc) as (_ & _ & C1 & _ & _ & C2 & _ & _ & C3).
    destruct (join_2_4 _ _ A2 B1) as (J1 & J2 & J3). destruct (join_4_2 _ _ B2 C1) as (K1 & K2 & K3).
    cbn [b64_encode b64_decode_clean]. rewrite !b64_value_digit by done. rewrite IH by done. by rewrite J2, J3, K2, K3, <- A3, <- B3, <- C3.
Qed.

(** The encoding is printable ASCII. *)
Lemma b64_encode_range bs : Forall byte bs -> Forall (fun c => 32 < c < 128) (b64_encode bs).
Proof.
  induction bs as [|a|a b|a b c l IH] using list_3_ind; rewrite ?Forall_cons; [done|intros [Ha _]|intros (Ha & Hb & _)|intros (Ha & Hb & Hc & Hl)].
  - destruct (byte_pieces a Ha) as (A1 & _ & _ & A2 & _). destruct (shiftl_4 _ A2) as [S1 _].
    cbn [b64_encode]. repeat (apply Forall_cons; split; [by apply b64_digit_range || lia|]). done.
  - destruct (byte_pieces a Ha) as (A1 & _ & _ & A2 & _). destruct (byte_pieces b Hb) as (_ & B1 & _ & _ & B2 & _).
    destruct (join_2_4 _ _ A2 B1) as (J1 & _). destruct (shiftl_2 _ B2) as [S1 _].
    cbn [b64_encode]. repeat (apply Forall_cons; split; [by apply b64_digit_range || lia|]). done.
  - destruct (byte_pieces a Ha) as (A1 & _ & _ & A2 & _). destruct (byte_pieces b Hb) as (_ & B1 & _ & _ & B2 & _).
    destruct (byte_pieces c Hc) as (_ & _ & C1 & _ & _ & C2 & _).
    destruct (join_2_4 _ _ A2 B1) as (J1 & _). destruct (join_4_2 _ _ B2 C1) as (K1 & _).
    cbn [b64_encode]. repeat (apply Forall_cons; split; [by apply b64_digit_range|]). by apply IH.
Qed.

Lemma b64_decode_encode bs : Forall byte bs -> b64_decode (b64_encode bs) = Some bs.
Proof.
  intros Hb. unfold b64_decode. rewrite filter_all; [by apply b64_decode_clean_encode|].
  intros c Hc. pose proof (proj1 (Forall_forall _ _) (b64_encode_range bs Hb) c Hc) as H. cbn in H. lia.
Qed.
