(* ===== verification/LiteCodec.v ===== *)
(** * lite-apiserver: the cached response (pkg/lite-apiserver/cache/cache.go)

    A response is kept as the JSON form of an [EdgeCache]: the status code, the
    header and the body, which [encoding/json] writes in base64.  The file
    models the record, the operations of [http.Header] the server uses and the
    two codec functions, and shows that one undoes the other. *)

From Stdlib Require Import ZArith Lia Ascii String.
From stdpp Require Import base strings gmap numbers sorting list.
From S2P Require Import Prelude.
From S2P Require Import GoStd.
From S2P Require Import GoJson.
From S2P Require Import GoSort.
From S2P Require Import GoJsonValue.
From S2P Require Import GoJsonStruct.
From S2P Require Import GoBase64.

Local Open Scope Z_scope.
Local Open Scope go_scope.

(** ** http.Header *)

(** The keys the code names are in canonical form already. *)
Definition Header : Type := gomap (gslice string).

Definition hdr_Get (h : Header) (k : string) : string :=
  match mp h !! k with Some vv => default EmptyString (head (sl vv)) | None => EmptyString end.

(** [Del] of a nil map does nothing; [Set] and [Add] of one panic. *)
Definition hdr_Del (k : string) (h : Header) : Header := delete k <$> h.
Definition hdr_Set (k v : string) (h : Header) : outcome Header :=
  match h with Some m => Ret (Some (<[k := Some [v]]> m)) | None => Panic "assignment to entry in nil map" end.
Definition hdr_Add (k v : string) (h : Header) : outcome Header :=
  match h with Some m => Ret (Some (<[k := Some (sl (default None (m !! k)) ++ [v])]> m)) | None => Panic "assignment to entry in nil map" end.

(** ** EdgeCache *)

Record EdgeCache : Type := mkEdgeCache {
  StatusCode : Z;
  ec_Header : Header;
  Body : gslice Z
}.

#[export] Instance EdgeCache_eq_dec : EqDecision EdgeCache.
Proof. solve_decision. Defined.

Definition NewEdgeCache (statusCode : Z) (header : Header) (body : gslice Z) : EdgeCache := mkEdgeCache statusCode header body.

Definition NewDefaultEdgeCache : EdgeCache :=
  mkEdgeCache 200 (Some {["Content-Type"%string := Some ["application/json"%string]]}) (Some []).

(** ** Encoding *)

(** A nil slice or map is null. *)
Definition json_of_values (vv : gslice string) : json :=
  match vv with None => JNull | Some l => JArr (JStr <$> l) end.
Definition json_of_header (h : Header) : json :=
  match h with None => JNull | Some m => JObj ((fun kv => (fst kv, json_of_values (snd kv))) <$> sorted_members m) end.
Definition json_of_bytes (b : gslice Z) : json :=
  match b with None => JNull | Some bs => JStr (string_of (b64_encode bs)) end.

Definition json_of_cache (c : EdgeCache) : json :=
  JObj [("code"%string, JNum (FormatInt (StatusCode c))); ("header"%string, json_of_header (ec_Header c)); ("body"%string, json_of_bytes (Body c))].

Definition MarshalEdgeCache (cache : EdgeCache) : list Z := print_json (json_of_cache cache).

(** ** Decoding *)

(** A new string starts empty, and null leaves it so. *)
Definition decode_values (j : json) : option (gslice string) :=
  match j with
  | JNull => Some None
  | JArr l => Some <$> mapM (decode_str EmptyString) l
  | _ => None
  end.

Fixpoint decode_fields (l : list (string * json)) (m : gmap string (gslice string)) : option (gmap string (gslice string)) :=
  match l with
  | [] => Some m
  | (k, v) :: l => match decode_values v with Some vv => decode_fields l (<[k := vv]> m) | None => None end
  end.

Definition decode_header (cur : Header) (j : json) : option Header :=
  match j with
  | JNull => Some None
  | JObj l => Some <$> decode_fields l (mp cur)
  | _ => None
  end.

(** A byte slice is a string in base64; an array of small numbers is read too. *)
Definition decode_byte (j : json) : option Z :=
  match j with
  | JNull => Some 0
  | JNum lit =>
      match ParseInt (string_of lit) 64 with
      | Some n => if (0 <=? n) && (n <? 256) && negb (bool_decide (head lit = Some 45)) then Some n else None
      | None => None
      end
  | _ => None
  end.

Definition decode_bytes (j : json) : option (gslice Z) :=
  match j with
  | JNull => Some None
  | JStr s => Some <$> b64_decode (bytes_of s)
  | JArr l => Some <$> mapM decode_byte l
  | _ => None
  end.

Definition set_cache (c : EdgeCache) (f : string) (j : json) : option EdgeCache :=
  if String.eqb f "code" then (fun n => mkEdgeCache n (ec_Header c) (Body c)) <$> decode_int64 (StatusCode c) j
  else if String.eqb f "header" then (fun h => mkEdgeCache (StatusCode c) h (Body c)) <$> decode_header (ec_Header c) j
  else (fun b => mkEdgeCache (StatusCode c) (ec_Header c) b) <$> decode_bytes j.

Definition UnmarshalEdgeCache (data : list Z) : option EdgeCache :=
  match parse_json data with
  | Some j => decode_struct set_cache ["code"; "header"; "body"]%string (mkEdgeCache 0 None None) j
  | None => None
  end.

Example codec_ex :
  let c := mkEdgeCache 200 (Some {["Vary"%string := Some ["a"; "b"]%string; "Date"%string := None]}) (Some (bytes_of "{}")) in
  UnmarshalEdgeCache (MarshalEdgeCache c) = Some c
  /\ UnmarshalEdgeCache (bytes_of "{}") = Some (mkEdgeCache 0 None None)
  /\ UnmarshalEdgeCache (take 20 (MarshalEdgeCache c)) = None.
Proof. by_compute. Qed.

(** ** Decoding what was encoded *)

Definition wf_header (h : Header) : Prop := forall k vv, mp h !! k = Some vv -> ascii_only k /\ Forall ascii_only (sl vv).
Definition wf_cache (c : EdgeCache) : Prop :=
  in_int64 (StatusCode c) /\ wf_header (ec_Header c) /\ Forall byte (sl (Body c)).

Lemma json_of_values_printable vv : Forall ascii_only (sl vv) -> printable (json_of_values vv).
Proof.
  destruct vv as [l|]; intros H; [|done]. cbn [json_of_values sl default] in *. apply printable_arr, Forall_fmap.
  eapply Forall_impl; [exact H|]. done.
Qed.

Lemma decode_values_printed vv : decode_values (json_of_values vv) = Some vv.
Proof.
  destruct vv as [l|]; [|done]. cbn [json_of_values decode_values].
  enough (mapM (decode_str EmptyString) (JStr <$> l) = Some l) as -> by done.
  apply mapM_Some. induction l; constructor; done.
Qed.

Lemma decode_fields_printed (l : list (string * gslice string)) m : NoDup l.*1 ->
  decode_fields ((fun kv => (fst kv, json_of_values (snd kv))) <$> l) m = Some (list_to_map l ∪ m).
Proof.
  intros Hnd. revert m. induction l as [|[k vv] l IH]; intros m; [by rewrite list_to_map_nil, (left_id_L ∅ (∪))|].
  apply NoDup_cons in Hnd as [Hk Hnd]. cbn [fmap list_fmap decode_fields fst snd]. rewrite decode_values_printed, IH by done. f_equal.
  rewrite list_to_map_cons. cbn [fst snd] in *. rewrite <- insert_union_r, insert_union_l; [done|]. by apply not_elem_of_list_to_map_1.
Qed.

Lemma decode_header_printed h : decode_header None (json_of_header h) = Some h.
Proof.
  destruct h as [m|]; [|done]. cbn [json_of_header decode_header]. rewrite decode_fields_printed.
  - change (mp None) with (∅ : gmap string (gslice string)). by rewrite sorted_members_map, (right_id_L ∅ (∪)).
  - rewrite sorted_members_perm. apply NoDup_fst_map_to_list.
Qed.

Lemma header_printable h : wf_header h -> printable (json_of_header h).
Proof.
  destruct h as [m|]; intros H; [|done]. cbn [json_of_header]. apply printable_obj, Forall_fmap, Forall_forall.
  intros [k vv] Hk%elem_of_sorted_members. destruct (H k vv Hk). split; [done|by apply json_of_values_printable].
Qed.

Lemma b64_text bs : Forall byte bs -> bytes_of (string_of (b64_encode bs)) = b64_encode bs.
Proof.
  intros H. apply bytes_of_string_of. eapply Forall_impl; [by apply b64_encode_range|]. intros b Hb. cbn in *. lia.
Qed.

Lemma bytes_printable b : Forall byte (sl b) -> printable (json_of_bytes b).
Proof.
  destruct b as [bs|]; intros H; [|done]. cbn [json_of_bytes printable]. unfold ascii_only. rewrite b64_text by done.
  eapply Forall_impl; [by apply b64_encode_range|]. intros b Hb. cbn in *. lia.
Qed.

Lemma decode_bytes_printed b : Forall byte (sl b) -> decode_bytes (json_of_bytes b) = Some b.
Proof. destruct b as [bs|]; intros H; [|done]. cbn. by rewrite b64_text, b64_decode_encode. Qed.

Lemma parse_json_printed j : printable j -> parse_json (print_json j) = Some j.
Proof.
  intros H. unfold parse_json. rewrite <- (app_nil_r (print_json j)). by rewrite parse_first_printed.
Qed.

Lemma Unmarshal_Marshal_cache c : wf_cache c -> UnmarshalEdgeCache (MarshalEdgeCache c) = Some c.
Proof.
  intros (Hn & Hh & Hb). unfold UnmarshalEdgeCache, MarshalEdgeCache. rewrite parse_json_printed.
  - unfold json_of_cache, decode_struct. cbn [decode_members].
    change (field_for _ "code") with (Some "code"%string). change (field_for _ "header") with (Some "header"%string). change (field_for _ "body") with (Some "body"%string).
    cbn [set_cache String.eqb Ascii.eqb Bool.eqb StatusCode ec_Header Body decode_int64].
    rewrite FormatInt_ParseInt by done. cbn [fmap option_fmap option_map StatusCode ec_Header Body].
    rewrite decode_header_printed. cbn [fmap option_fmap option_map StatusCode ec_Header Body].
    rewrite decode_bytes_printed by done. by destruct c.
  - apply printable_obj. repeat (apply Forall_cons; split; [split; [ascii_literal|]|]); [|by apply header_printable|by apply bytes_printable|done].
    apply FormatInt_literal. unfold in_int64 in Hn. lia.
Qed.
