(* ===== verification/LiteStorage.v ===== *)
(** * lite-apiserver: the stores of the cache (pkg/lite-apiserver/storage)

    Five stores keep the cached responses: two maps in memory, files in a
    directory, and three key-value databases.  [Storage] is the Go interface,
    [StorageLaws] what the cache relies on: a store keeps one value per slot,
    a write that succeeds changes the slot of its key and no other, a write
    that fails changes nothing.  The databases themselves are parameters. *)

From Stdlib Require Import ZArith Lia Ascii String.
From stdpp Require Import base strings gmap numbers sorting list.
From S2P Require Import Prelude.
From S2P Require Import GoStd.
From S2P Require Import GoStrings.

Local Open Scope Z_scope.
Local Open Scope go_scope.

(** ** Names *)

(** [strings.ReplaceAll(s, "/", "_")] *)
Definition mangle (s : string) : string := ReplaceByte "/" "_" s.

Definition oneKey (key : string) : string := mangle key.
Definition listKey (key : string) : string := mangle (key +:+ "_" +:+ "list").

(** ** The interface (storage.go) *)

(** A store's state and its operations; the boolean is whether the operation
    returned without an error, and a load that returns an error gives [None]. *)
Class Storage : Type := {
  store : Type;
  StoreOne : string -> list Z -> store -> store * bool;
  StoreList : string -> list Z -> store -> store * bool;
  LoadOne : string -> store -> outcome (option (list Z));
  LoadList : string -> store -> outcome (option (list Z));
  Delete : string -> store -> store * bool
}.

(** What the cache relies on.  A slot is usable when the store can read it
    back and no temporary name gets in its way.  Stores may tell more keys apart
    than their mangled names do, not fewer. *)
Class StorageLaws (S : Storage) : Type := {
  slot : Type;
  slot_dec :: EqDecision slot;
  one_slot : string -> slot;
  list_slot : string -> slot;
  holds : store -> slot -> option (list Z);
  usable : store -> slot -> Prop;
  LoadOne_holds k s : LoadOne k s = Ret (holds s (one_slot k));
  LoadList_holds k s d : holds s (list_slot k) = Some d -> LoadList k s = Ret (Some d);
  LoadList_same k s s' : holds s (list_slot k) = holds s' (list_slot k) -> LoadList k s = LoadList k s';
  one_slot_names k k' : one_slot k = one_slot k' -> oneKey k = oneKey k';
  list_slot_names k k' : list_slot k = list_slot k' -> listKey k = listKey k';
  mixed_slot_names k k' : one_slot k = list_slot k' -> oneKey k = listKey k';
  usable_StoreOne k d s x : usable s x -> usable (fst (StoreOne k d s)) x;
  usable_StoreList k d s x : usable s x -> usable (fst (StoreList k d s)) x;
  StoreOne_holds k d s x : usable s x ->
    holds (fst (StoreOne k d s)) x = if snd (StoreOne k d s) && bool_decide (x = one_slot k) then Some d else holds s x;
  StoreList_holds k d s x : usable s x ->
    holds (fst (StoreList k d s)) x = if snd (StoreList k d s) && bool_decide (x = list_slot k) then Some d else holds s x
}.

Inductive storage_kind : Type := FileKind | MemoryKind | BadgerKind | BoltKind | PebbleKind.

(** The part of the configuration that chooses a store and its place. *)
Record CacheConfig : Type := mkCacheConfig {
  CacheType : string;
  FileCachePath : string;
  BadgerCachePath : string;
  BoltCacheFile : string;
  PebbleCachePath : string
}.

(** An unknown type is reported and gives the file store. *)
Definition CreateStorage (c : CacheConfig) : storage_kind * string :=
  if String.eqb (CacheType c) "file" then (FileKind, FileCachePath c)
  else if String.eqb (CacheType c) "memory" then (MemoryKind, EmptyString)
  else if String.eqb (CacheType c) "badger" then (BadgerKind, BadgerCachePath c)
  else if String.eqb (CacheType c) "bolt" then (BoltKind, BoltCacheFile c)
  else if String.eqb (CacheType c) "pebble" then (PebbleKind, PebbleCachePath c)
  else (FileKind, FileCachePath c).

(** ** Memory (memory_storage.go) *)

Record memoryStorage : Type := mkMemoryStorage {
  oneMap : gmap string (list Z);
  listMap : gmap string (list Z)
}.

Definition NewMemoryStorage : memoryStorage := mkMemoryStorage ∅ ∅.

Definition mem_StoreOne (key : string) (cache : list Z) (ms : memoryStorage) : memoryStorage * bool :=
  (mkMemoryStorage (<[key := cache]> (oneMap ms)) (listMap ms), true).
Definition mem_StoreList (key : string) (cache : list Z) (ms : memoryStorage) : memoryStorage * bool :=
  (mkMemoryStorage (oneMap ms) (<[key := cache]> (listMap ms)), true).
Definition mem_LoadOne (key : string) (ms : memoryStorage) : outcome (option (list Z)) := Ret (oneMap ms !! key).
Definition mem_LoadList (key : string) (ms : memoryStorage) : outcome (option (list Z)) := Ret (listMap ms !! key).

Definition MemoryStorage : Storage := {|
  store := memoryStorage;
  StoreOne := mem_StoreOne;
  StoreList := mem_StoreList;
  LoadOne := mem_LoadOne;
  LoadList := mem_LoadList;
  Delete _ ms := (ms, true)
|}.

(** ** Files (file_storage.go) *)

(** What goes wrong in one call of [writeFile]: nothing, the creation of the
    temporary file, the write after some bytes, or the renaming. *)
Inductive fault : Type := NoFault | CreateFails | WriteFails (written : nat) | RenameFails.

(** The files of the directory, the names that can be read, what the next calls
    of [writeFile] meet and the numbers the random source gives them. *)
Record fileStorage : Type := mkFileStorage {
  files : gmap string (list Z);
  readable : string -> bool;
  fs_calls : nat;
  fs_fault : nat -> fault;
  fs_draw : nat -> nat -> nat
}.

Definition salt_chars : list ascii := list_ascii_of_string "0123456789abcdefghijklmnopqrstuvwxyz".

Definition randomString (draw : nat -> nat) (l : nat) : string :=
  string_of_list_ascii ((fun i => nth (draw i mod length salt_chars)%nat salt_chars zero) <$> seq 0 l).

Definition tmpFileName (fileName salt : string) : string := fileName +:+ "_" +:+ salt.

Definition oneFileName (key : string) : string := mangle key.
Definition listFileName (key : string) : string := mangle (key +:+ "_" +:+ "list").

Definition with_files (fs : fileStorage) (m : gmap string (list Z)) : fileStorage :=
  mkFileStorage m (readable fs) (S (fs_calls fs)) (fs_fault fs) (fs_draw fs).

(** The value goes to a new file that is then renamed. *)
Definition writeFile (fileName : string) (data : list Z) (fs : fileStorage) : fileStorage * bool :=
  let tmp := tmpFileName fileName (randomString (fs_draw fs (fs_calls fs)) 12) in
  match fs_fault fs (fs_calls fs) with
  | CreateFails => (with_files fs (files fs), false)
  | WriteFails n => (with_files fs (<[tmp := take n data]> (files fs)), false)
  | RenameFails => (with_files fs (<[tmp := data]> (files fs)), false)
  | NoFault => (with_files fs (<[fileName := data]> (delete tmp (files fs))), true)
  end.

Definition readFile (fileName : string) (fs : fileStorage) : option (list Z) :=
  if readable fs fileName then files fs !! fileName else None.

Definition FileStorage : Storage := {|
  store := fileStorage;
  StoreOne key := writeFile (oneFileName key);
  StoreList key := writeFile (listFileName key);
  LoadOne key fs := Ret (readFile (oneFileName key) fs);
  LoadList key fs := Ret (readFile (listFileName key) fs);
  Delete _ fs := (fs, true)
|}.

(** ** Databases (bolt_storage.go, badger_storage.go, pebble_storage.go) *)

(** A database keeps a value per key: [put] may fail, [get] fails on a key that
    is not there, and removing a key may fail as well. *)
Class Database : Type := {
  db : Type;
  put : string -> list Z -> db -> db * bool;
  get : string -> db -> option (list Z);
  remove : string -> db -> db * bool
}.

(** What the databases document. *)
Class DatabaseLaws (D : Database) : Prop := {
  get_put k v x d : get x (fst (put k v d)) = if snd (put k v d) && bool_decide (x = k) then Some v else get x d
}.

Section Databases.
Context {D : Database}.

Definition bolt_update (key : string) (data : list Z) (bs : db) : db * bool := put key data bs.
(** [Bucket.Get] gives nil for a key that is not there, which is an error. *)
Definition bolt_get (key : string) (bs : db) : option (list Z) := get key bs.

Definition BoltStorage : Storage := {|
  store := db;
  StoreOne key data bs := bolt_update (oneKey key) data bs;
  StoreList key data bs := bolt_update (listKey key) data bs;
  LoadOne key bs := Ret (bolt_get (oneKey key) bs);
  LoadList key bs := Ret (bolt_get (listKey key) bs);
  Delete _ bs := (bs, true)
|}.

Definition badger_update (key : string) (data : list Z) (bs : db) : db * bool := put key data bs.
(** [get] replaces the slashes of a key that has none left. *)
Definition badger_get (key : string) (bs : db) : option (list Z) := get (oneKey key) bs.

Definition BadgerStorage : Storage := {|
  store := db;
  StoreOne key data bs := badger_update (oneKey key) data bs;
  StoreList key data bs := badger_update (listKey key) data bs;
  LoadOne key bs := Ret (badger_get (oneKey key) bs);
  LoadList key bs := Ret (badger_get (listKey key) bs);
  Delete _ bs := (bs, true)
|}.

Definition pebble_LoadOne (key : string) (ps : db) : outcome (option (list Z)) := Ret (get key ps).
(** The error of a missing key is logged and the closer, which is nil, used. *)
Definition pebble_LoadList (key : string) (ps : db) : outcome (option (list Z)) :=
  match get (listKey key) ps with
  | Some data => Ret (Some data)
  | None => Panic "nil pointer dereference"
  end.

(** The key of a single object is not mangled. *)
Definition PebbleStorage : Storage := {|
  store := db;
  StoreOne key data ps := put key data ps;
  StoreList key cache ps := put (listKey key) cache ps;
  LoadOne := pebble_LoadOne;
  LoadList := pebble_LoadList;
  Delete key ps := remove key ps
|}.

End Databases.

(** A database for examples. *)
Definition map_database : Database := {|
  db := gmap string (list Z);
  put k v m := (<[k := v]> m, true);
  get k m := m !! k;
  remove k m := (delete k m, true)
|}.

(** ** The laws hold *)

Lemma mangle_cons a s : mangle (String a s) = String (if Ascii.eqb a "/" then "_" else a)%char (mangle s).
Proof. done. Qed.

Lemma mangle_idem s : mangle (mangle s) = mangle s.
Proof.
  induction s as [|a s IH]; [done|]. rewrite !mangle_cons, IH. f_equal. destruct (Ascii.eqb a "/") eqn:E; [done|by rewrite E].
Qed.

Lemma lookup_insert_cond {V : Type} (m : gmap string V) k v x : <[k := v]> m !! x = if bool_decide (x = k) then Some v else m !! x.
Proof. case_bool_decide as E; [rewrite E; apply lookup_insert_eq|by apply lookup_insert_ne]. Qed.

Program Definition MemoryLaws : StorageLaws MemoryStorage := {|
  slot := bool * string;
  one_slot k := (false, k);
  list_slot k := (true, k);
  holds (ms : memoryStorage) x := (if fst x then listMap ms else oneMap ms) !! snd x;
  usable _ _ := True
|}.
Next Obligation. done. Qed.
Next Obligation. intros k s d. cbn. unfold mem_LoadList. by intros ->. Qed.
Next Obligation. intros k s s'. cbn. unfold mem_LoadList. by intros ->. Qed.
Next Obligation. intros k k'. cbn. congruence. Qed.
Next Obligation. intros k k'. cbn. congruence. Qed.
Next Obligation. intros k k'. cbn. congruence. Qed.
Next Obligation. done. Qed.
Next Obligation. done. Qed.
Next Obligation.
  intros k d s [[] x] _; cbn; [by rewrite bool_decide_false by congruence|]. rewrite lookup_insert_cond.
  repeat case_bool_decide; congruence.
Qed.
Next Obligation.
  intros k d s [[] x] _; cbn; [|by rewrite bool_decide_false by congruence]. rewrite lookup_insert_cond.
  repeat case_bool_decide; congruence.
Qed.

#[export] Instance map_database_laws : DatabaseLaws map_database.
Proof. constructor. intros k v x d. cbn. apply lookup_insert_cond. Qed.

Section DatabaseStores.
Context {D : Database} {L : DatabaseLaws D}.

Program Definition BoltLaws : StorageLaws (@BoltStorage D) := {|
  slot := string; one_slot := oneKey; list_slot := listKey; holds (s : db) x := get x s; usable _ _ := True
|}.
Next Obligation. done. Qed.
Next Obligation. intros k s d H. cbn. unfold bolt_get. by rewrite H. Qed.
Next Obligation. intros k s s' H. cbn. unfold bolt_get. by rewrite H. Qed.
Next Obligation. done. Qed.
Next Obligation. done. Qed.
Next Obligation. done. Qed.
Next Obligation. done. Qed.
Next Obligation. done. Qed.
Next Obligation. intros k d s x _. apply get_put. Qed.
Next Obligation. intros k d s x _. apply get_put. Qed.

Program Definition BadgerLaws : StorageLaws (@BadgerStorage D) := {|
  slot := string; one_slot := oneKey; list_slot := listKey; holds (s : db) x := get x s; usable _ _ := True
|}.
Next Obligation. intros k s. cbn. unfold badger_get, oneKey. by rewrite mangle_idem. Qed.
Next Obligation. intros k s d H. cbn. unfold badger_get, oneKey, listKey in *. by rewrite mangle_idem, H. Qed.
Next Obligation. intros k s s' H. cbn. unfold badger_get, oneKey, listKey in *. by rewrite mangle_idem, H. Qed.
Next Obligation. done. Qed.
Next Obligation. done. Qed.
Next Obligation. done. Qed.
Next Obligation. done. Qed.
Next Obligation. done. Qed.
Next Obligation. intros k d s x _. apply get_put. Qed.
Next Obligation. intros k d s x _. apply get_put. Qed.

Program Definition PebbleLaws : StorageLaws (@PebbleStorage D) := {|
  slot := string; one_slot k := k; list_slot := listKey; holds (s : db) x := get x s; usable _ _ := True
|}.
Next Obligation. done. Qed.
Next Obligation. intros k s d H. cbn. unfold pebble_LoadList. by rewrite H. Qed.
Next Obligation. intros k s s' H. cbn. unfold pebble_LoadList. by rewrite H. Qed.
Next Obligation. intros k k'. cbn. by intros ->. Qed.
Next Obligation. done. Qed.
Next Obligation. intros k k'. cbn. intros ->. apply mangle_idem. Qed.
Next Obligation. done. Qed.
Next Obligation. done. Qed.
Next Obligation. intros k d s x _. apply get_put. Qed.
Next Obligation. intros k d s x _. apply get_put. Qed.

(** Loading a list that was never stored: an error everywhere, but a panic with pebble. *)
Lemma LoadList_missing k (s : db) : get (listKey k) s = None ->
  @LoadList BoltStorage k s = Ret None /\ @LoadList BadgerStorage k s = Ret None
  /\ @LoadList PebbleStorage k s = Panic "nil pointer dereference".
Proof.
  intros H. cbn. unfold bolt_get, badger_get, pebble_LoadList, oneKey, listKey in *. by rewrite mangle_idem, H.
Qed.

End DatabaseStores.

(** ** Files: no name in use is a temporary one *)

Definition salt_char (a : ascii) : bool := existsb (Ascii.eqb a) salt_chars.

Definition tmp_name (x : string) : Prop :=
  exists n salt, x = tmpFileName n salt /\ String.length salt = 12%nat /\ all_chars salt_char salt = true.

Lemma randomString_salt draw l : String.length (randomString draw l) = l /\ all_chars salt_char (randomString draw l) = true.
Proof.
  unfold randomString.
  enough (forall is0, String.length (string_of_list_ascii ((fun i => nth (draw i mod length salt_chars)%nat salt_chars zero) <$> is0)) = length is0
    /\ all_chars salt_char (string_of_list_ascii ((fun i => nth (draw i mod length salt_chars)%nat salt_chars zero) <$> is0)) = true) as H
    by (destruct (H (seq 0 l)) as [-> H2]; by rewrite length_seq).
  intros is0. induction is0 as [|i l0 IH]; [by split|]. cbn [fmap list_fmap string_of_list_ascii String.length length all_chars].
  destruct IH as [IH1 IH2]. rewrite IH1, IH2. split; [done|]. rewrite andb_true_r. unfold salt_char. apply existsb_exists.
  eexists. split; [|apply Ascii.eqb_refl]. apply nth_In. apply Nat.mod_upper_bound. done.
Qed.

Lemma tmp_is_tmp_name n fs : tmp_name (tmpFileName n (randomString (fs_draw fs (fs_calls fs)) 12)).
Proof. eexists n, _. split; [done|apply randomString_salt]. Qed.

(** A name whose last part has another length is not one. *)
Lemma not_tmp_name n p : all_chars (fun a => negb (Ascii.eqb a "_")) p = true -> String.length p <> 12%nat -> ~ tmp_name (n +:+ "_" +:+ p).
Proof.
  intros Hp Hl (n' & salt & E & Hs & Hc). apply last_split_inj in E as [_ ->]; [done|done|].
  eapply all_chars_mono; [|exact Hc]. intros a Ha. apply existsb_exists in Ha as (b & Hb & Hab).
  apply Ascii.eqb_eq in Hab as ->. revert b Hb. apply List.Forall_forall. repeat (constructor; [reflexivity|]). constructor.
Qed.

Definition file_usable (fs : fileStorage) (x : string) : Prop := readable fs x = true /\ ~ tmp_name x.

Lemma writeFile_readable n d fs : readable (fst (writeFile n d fs)) = readable fs.
Proof. unfold writeFile. by destruct (fs_fault fs (fs_calls fs)). Qed.

Lemma writeFile_holds n d fs x : file_usable fs x ->
  readFile x (fst (writeFile n d fs)) = if snd (writeFile n d fs) && bool_decide (x = n) then Some d else readFile x fs.
Proof.
  intros [Hr Ht]. unfold readFile. rewrite writeFile_readable, Hr. pose proof (tmp_is_tmp_name n fs) as Htmp.
  assert (x <> tmpFileName n (randomString (fs_draw fs (fs_calls fs)) 12)) as Hne by (intros ->; done).
  unfold writeFile. destruct (fs_fault fs (fs_calls fs)); cbn [fst snd with_files files andb]; rewrite ?lookup_insert_cond; [|done|..].
  - case_bool_decide; [done|]. by rewrite lookup_delete_ne.
  - by rewrite bool_decide_false.
  - by rewrite bool_decide_false.
Qed.

Program Definition FileLaws : StorageLaws FileStorage := {|
  slot := string; one_slot := oneFileName; list_slot := listFileName; holds (fs : fileStorage) x := readFile x fs; usable := file_usable
|}.
Next Obligation. done. Qed.
Next Obligation. intros k s d H. cbn. by rewrite H. Qed.
Next Obligation. intros k s s' H. cbn. by rewrite H. Qed.
Next Obligation. done. Qed.
Next Obligation. done. Qed.
Next Obligation. done. Qed.
Next Obligation. intros k d s x [H1 H2]. split; [|done]. cbn. by rewrite writeFile_readable. Qed.
Next Obligation. intros k d s x [H1 H2]. split; [|done]. cbn. by rewrite writeFile_readable. Qed.
Next Obligation. intros k d s x H. by apply writeFile_holds. Qed.
Next Obligation. intros k d s x H. by apply writeFile_holds. Qed.
