(* ===== verification/LiteFiles.v ===== *)
(** * lite-apiserver: concurrent use of the file store (file_storage.go)

    Requests run concurrently, so several calls of [writeFile] and [readFile]
    are under way at once.  A call is a thread that makes one system call at a
    time: create the temporary file, write some bytes, rename; open, read some
    bytes.  Any call may fail.  The theorem shows that a read never sees a
    value that is not whole, in any interleaving. *)

From Stdlib Require Import ZArith Lia Ascii String.
From stdpp Require Import base strings gmap numbers sorting list.
From S2P Require Import Prelude.
From S2P Require Import GoStd.
From S2P Require Import GoStrings.
From S2P Require Import LiteStorage.

(** ** The directory and its files *)

(** Names refer to files by number; an open file stays what it is when its name
    comes to mean another one. *)
Record disk : Type := mkDisk {
  dir : gmap string nat;
  inodes : gmap nat (list Z);
  next_ino : nat
}.

(** Writing at an offset; a hole before it is filled with zeros. *)
Definition write_at (off : nat) (chunk content : list Z) : list Z :=
  take off (content ++ replicate (off - length content) 0%Z) ++ chunk ++ drop (off + length chunk) content.

(** [os.Create]: an existing file is truncated. *)
Definition create (name : string) (d : disk) : disk * nat :=
  match dir d !! name with
  | Some i => (mkDisk (dir d) (<[i := []]> (inodes d)) (next_ino d), i)
  | None => (mkDisk (<[name := next_ino d]> (dir d)) (<[next_ino d := []]> (inodes d)) (S (next_ino d)), next_ino d)
  end.

Definition write_ino (i off : nat) (chunk : list Z) (d : disk) : disk :=
  mkDisk (dir d) (alter (write_at off chunk) i (inodes d)) (next_ino d).

Definition rename (old new : string) (d : disk) : option disk :=
  match dir d !! old with
  | Some i => Some (mkDisk (<[new := i]> (delete old (dir d))) (inodes d) (next_ino d))
  | None => None
  end.

(** ** Threads *)

(** A call of [writeFile] with the temporary name it has drawn, or a call of
    [readFile]. *)
Inductive thread : Type :=
| Writer (fileName : string) (data : list Z) (tmp : string)
| Reader (fileName : string).

(** Where a thread stands: a writer has written [off] bytes, a reader has read
    the bytes [acc]. *)
Inductive pc : Type :=
| Start
| Writing (ino off : nat)
| Renaming
| Written (ok : bool)
| Reading (ino : nat) (acc : list Z)
| Got (data : option (list Z)).

(** One system call of a thread. *)
Inductive syscall : thread -> disk -> pc -> disk -> pc -> Prop :=
| sys_create n data tmp d d' i : create tmp d = (d', i) -> syscall (Writer n data tmp) d Start d' (Writing i 0)
| sys_write n data tmp d i off k : off < length data ->
    syscall (Writer n data tmp) d (Writing i off) (write_ino i off (take k (drop off data)) d) (Writing i (min (off + k) (length data)))
| sys_written n data tmp d i off : length data <= off -> syscall (Writer n data tmp) d (Writing i off) d Renaming
| sys_rename n data tmp d d' : rename tmp n d = Some d' -> syscall (Writer n data tmp) d Renaming d' (Written true)
| sys_write_fails n data tmp d c : c = Start \/ (exists i off, c = Writing i off) \/ c = Renaming ->
    syscall (Writer n data tmp) d c d (Written false)
| sys_open n d i : dir d !! n = Some i -> syscall (Reader n) d Start d (Reading i [])
| sys_read n d i acc content k : inodes d !! i = Some content -> length acc < length content ->
    syscall (Reader n) d (Reading i acc) d (Reading i (acc ++ take k (drop (length acc) content)))
| sys_eof n d i acc content : inodes d !! i = Some content -> length content <= length acc ->
    syscall (Reader n) d (Reading i acc) d (Got (Some acc))
| sys_read_fails n d c : c = Start \/ (exists i acc, c = Reading i acc) -> syscall (Reader n) d c d (Got None).

Section Threads.
Context (threads : list thread).

Record system : Type := mkSystem {
  sys_disk : disk;
  pcs : list pc
}.

Inductive system_step : system -> system -> Prop :=
| step_thread s p t c d' c' : threads !! p = Some t -> pcs s !! p = Some c -> syscall t (sys_disk s) c d' c' ->
    system_step s (mkSystem d' (<[p := c']> (pcs s))).

Definition started_on (d : disk) : system := mkSystem d (replicate (length threads) Start).

(** ** What a read may return *)

Context (d0 : disk).

(** A value the file had from the start, or one that some call writes to it. *)
Definition whole (n : string) (v : list Z) : Prop :=
  (exists i, dir d0 !! n = Some i /\ inodes d0 !! i = Some v) \/ (exists p tmp, threads !! p = Some (Writer n v tmp)).

(** The names of the files of the cache and the temporary names are apart, and
    the temporary ones are new. *)
Definition tmp_in_use (x : string) : Prop := exists p n v, threads !! p = Some (Writer n v x).

Record names_apart : Prop := {
  tmp_unique p q n v n' v' x : threads !! p = Some (Writer n v x) -> threads !! q = Some (Writer n' v' x) -> p = q;
  tmp_new x : tmp_in_use x -> dir d0 !! x = None;
  tmp_not_target p n v x : threads !! p = Some (Writer n v x) -> ~ tmp_in_use n;
  tmp_not_read p n : threads !! p = Some (Reader n) -> ~ tmp_in_use n
}.

(** The files of the directory exist. *)
Definition sound_disk (d : disk) : Prop :=
  forall n i, dir d !! n = Some i -> (i < next_ino d) /\ is_Some (inodes d !! i).

Record file_inv (s : system) : Prop := {
  fi_len : length (pcs s) = length threads;
  fi_sound : sound_disk (sys_disk s);
  fi_target n i : dir (sys_disk s) !! n = Some i -> ~ tmp_in_use n -> exists v, inodes (sys_disk s) !! i = Some v /\ whole n v;
  fi_apart x n i : tmp_in_use x -> dir (sys_disk s) !! x = Some i -> dir (sys_disk s) !! n = Some i -> n = x;
  fi_start p n v x : threads !! p = Some (Writer n v x) -> pcs s !! p = Some Start -> dir (sys_disk s) !! x = None;
  fi_writing p n v x i off : threads !! p = Some (Writer n v x) -> pcs s !! p = Some (Writing i off) ->
    dir (sys_disk s) !! x = Some i /\ inodes (sys_disk s) !! i = Some (take off v) /\ off <= length v;
  fi_renaming p n v x : threads !! p = Some (Writer n v x) -> pcs s !! p = Some Renaming ->
    exists i, dir (sys_disk s) !! x = Some i /\ inodes (sys_disk s) !! i = Some v;
  fi_reading p n i acc : threads !! p = Some (Reader n) -> pcs s !! p = Some (Reading i acc) ->
    i < next_ino (sys_disk s)
    /\ (forall x, tmp_in_use x -> dir (sys_disk s) !! x <> Some i)
    /\ exists v, inodes (sys_disk s) !! i = Some v /\ whole n v /\ acc = take (length acc) v;
  fi_got p n v : threads !! p = Some (Reader n) -> pcs s !! p = Some (Got (Some v)) -> whole n v;
  fi_done p n v x : threads !! p = Some (Writer n v x) -> pcs s !! p = Some (Written true) -> is_Some (dir (sys_disk s) !! n)
}.

(** *** Preservation *)

(** The state of a thread after another, or the same, thread moved. *)
Lemma pcs_insert (l : list pc) p c' q c : <[p := c']> l !! q = Some c -> (q = p /\ c = c') \/ (q <> p /\ l !! q = Some c).
Proof.
  destruct (decide (q = p)) as [->|Hne]; [|rewrite list_lookup_insert_ne by done; auto].
  intros H. left. split; [done|]. pose proof (lookup_lt_Some _ _ _ H) as Hlt. rewrite length_insert in Hlt.
  rewrite list_lookup_insert_eq in H by done. congruence.
Qed.

(** What the moved thread has to show when the disk stays as it is. *)
Lemma inv_same_disk s p t c' : file_inv s -> threads !! p = Some t ->
  (forall n v x, t = Writer n v x -> c' <> Start /\ c' <> Written true /\ (forall i off, c' <> Writing i off)
     /\ (c' = Renaming -> exists i, dir (sys_disk s) !! x = Some i /\ inodes (sys_disk s) !! i = Some v)) ->
  (forall n, t = Reader n -> (forall i acc, c' = Reading i acc -> i < next_ino (sys_disk s) /\ (forall x, tmp_in_use x -> dir (sys_disk s) !! x <> Some i)
      /\ exists v, inodes (sys_disk s) !! i = Some v /\ whole n v /\ acc = take (length acc) v)
     /\ (forall v, c' = Got (Some v) -> whole n v)) ->
  file_inv (mkSystem (sys_disk s) (<[p := c']> (pcs s))).
Proof.
  intros Hi Ht Hw Hr. destruct Hi. constructor; cbn; try done.
  - by rewrite length_insert.
  - intros q n v x Hq [[-> <-]|[Hne H]]%pcs_insert; [|by eauto]. rewrite Ht in Hq. simplify_eq. by destruct (Hw n v x).
  - intros q n v x i off Hq [[-> <-]|[Hne H]]%pcs_insert; [|by eauto]. rewrite Ht in Hq. simplify_eq. destruct (Hw n v x) as (_ & _ & H & _); [done|]. by destruct (H i off).
  - intros q n v x Hq [[-> <-]|[Hne H]]%pcs_insert; [|by eauto]. rewrite Ht in Hq. simplify_eq. destruct (Hw n v x) as (_ & _ & _ & H); [done|]. by apply H.
  - intros q n i acc Hq [[-> <-]|[Hne H]]%pcs_insert; [|by eauto]. rewrite Ht in Hq. simplify_eq. destruct (Hr n) as [H _]; [done|]. by apply H.
  - intros q n v Hq [[-> <-]|[Hne H]]%pcs_insert; [|by eauto]. rewrite Ht in Hq. simplify_eq. destruct (Hr n) as [_ H]; [done|]. by apply H.
  - intros q n v x Hq [[-> <-]|[Hne H]]%pcs_insert; [|by eauto]. rewrite Ht in Hq. simplify_eq. destruct (Hw n v x) as (_ & H & _); [done|]. done.
Qed.

(** A temporary name is that of one thread. *)
Lemma tmp_in_use_of p n v x : threads !! p = Some (Writer n v x) -> tmp_in_use x.
Proof. intros H. by exists p, n, v. Qed.

Lemma inv_create s p n v x d' i : names_apart -> file_inv s -> threads !! p = Some (Writer n v x) -> pcs s !! p = Some Start ->
  create x (sys_disk s) = (d', i) -> file_inv (mkSystem d' (<[p := Writing i 0]> (pcs s))).
Proof.
  intros Hap Hi Ht Hp Hc. destruct Hi. assert (dir (sys_disk s) !! x = None) as Hx by eauto.
  unfold create in Hc. rewrite Hx in Hc. injection Hc as <- <-.
  assert (forall m j, dir (sys_disk s) !! m = Some j -> j <> next_ino (sys_disk s)) as Hfresh.
  { intros m j Hm. apply fi_sound0 in Hm. lia. }
  constructor; cbn.
  - by rewrite length_insert.
  - intros m j. cbn. destruct (decide (m = x)) as [->|Hm].
    + rewrite lookup_insert_eq. intros [= <-]. split; [lia|]. rewrite lookup_insert_eq. by eexists.
    + rewrite lookup_insert_ne by done. intros H. pose proof (Hfresh m j H). apply fi_sound0 in H as [H1 H2].
      split; [lia|]. by rewrite lookup_insert_ne.
  - intros m j. destruct (decide (m = x)) as [->|Hm]; [intros _ Hno; destruct Hno; by eapply tmp_in_use_of|].
    rewrite lookup_insert_ne by done. intros H Hno. rewrite lookup_insert_ne by (by apply not_eq_sym, (Hfresh m)). by apply fi_target0.
  - intros y m j Hy. destruct (decide (y = x)) as [->|Hyx]; destruct (decide (m = x)) as [->|Hmx]; rewrite ?lookup_insert_eq, ?lookup_insert_ne by done; try done.
    + intros [= <-] H. by destruct (Hfresh m _ H).
    + intros H [= <-]. by destruct (Hfresh y _ H).
    + by apply fi_apart0.
  - intros q m w y Hq [[-> ?]|[Hne H]]%pcs_insert; [done|]. destruct (decide (y = x)) as [->|Hyx].
    + destruct Hne. by eapply (tmp_unique Hap).
    + rewrite lookup_insert_ne by done. by eauto.
  - intros q m w y j off Hq [[-> Hj]|[Hne H]]%pcs_insert.
    + rewrite Ht in Hq. simplify_eq. rewrite !lookup_insert_eq. split_and!; [done|by rewrite take_0|lia].
    + destruct (fi_writing0 q m w y j off Hq H) as (H1 & H2 & H3). pose proof (Hfresh y j H1).
      rewrite !lookup_insert_ne by congruence. done.
  - intros q m w y Hq [[-> ?]|[Hne H]]%pcs_insert; [done|]. destruct (fi_renaming0 q m w y Hq H) as (j & H1 & H2). exists j. pose proof (Hfresh y j H1).
    rewrite !lookup_insert_ne by congruence. done.
  - intros q m j acc Hq [[-> ?]|[Hne H]]%pcs_insert; [done|]. destruct (fi_reading0 q m j acc Hq H) as (H1 & H2 & w & H3 & H4). split; [lia|]. split.
    + intros y Hy. destruct (decide (y = x)) as [->|Hyx]; [rewrite lookup_insert_eq; injection 1; lia|rewrite lookup_insert_ne by done; by apply H2].
    + exists w. rewrite lookup_insert_ne by lia. done.
  - intros q m w Hq [[-> ?]|[Hne H]]%pcs_insert; [done|by eauto].
  - intros q m w y Hq [[-> ?]|[Hne H]]%pcs_insert; [done|]. destruct (decide (m = x)) as [->|]; [by rewrite lookup_insert_eq|]. rewrite lookup_insert_ne by done. by eauto.
Qed.

Lemma write_at_take off k (v : list Z) : off <= length v -> write_at off (take k (drop off v)) (take off v) = take (min (off + k) (length v)) v.
Proof.
  intros Ho. unfold write_at. assert (length (take off v) = off) as Hl by (rewrite length_take; lia).
  rewrite Hl, Nat.sub_diag. cbn [replicate]. rewrite app_nil_r, take_ge, (drop_ge (take off v)), app_nil_r by lia.
  rewrite take_take_drop. destruct (decide (off + k <= length v)); [f_equal; lia|]. by rewrite !take_ge by lia.
Qed.

Lemma inv_write s p n v x i off k : names_apart -> file_inv s -> threads !! p = Some (Writer n v x) -> pcs s !! p = Some (Writing i off) ->
  file_inv (mkSystem (write_ino i off (take k (drop off v)) (sys_disk s)) (<[p := Writing i (min (off + k) (length v))]> (pcs s))).
Proof.
  intros Hap Hi Ht Hp. destruct Hi. destruct (fi_writing0 _ _ _ _ _ _ Ht Hp) as (Hx & Hc & Ho).
  pose proof (tmp_in_use_of _ _ _ _ Ht) as Hu.
  assert (forall m j, dir (sys_disk s) !! m = Some j -> m <> x -> j <> i) as Hother by (intros m j Hm Hne ->; destruct Hne; by eapply fi_apart0).
  constructor; cbn; try done.
  - by rewrite length_insert.
  - intros m j H. apply fi_sound0 in H as [H1 H2]. split; [done|]. cbn. destruct (decide (j = i)) as [->|Hj]; [|by rewrite lookup_alter_ne].
    rewrite lookup_alter_eq. by rewrite fmap_is_Some.
  - intros m j H Hno. destruct (fi_target0 m j H Hno) as (w & Hw & Hwh). exists w. rewrite lookup_alter_ne; [done|]. apply not_eq_sym. eapply Hother; [done|]. by intros ->.
  - intros q m w y Hq [[-> ?]|[Hne H]]%pcs_insert; [done|by eauto].
  - intros q m w y j off' Hq [[-> Hj]|[Hne H]]%pcs_insert.
    + rewrite Ht in Hq. simplify_eq. split; [done|]. rewrite lookup_alter_eq, Hc. cbn. split; [by rewrite write_at_take|lia].
    + destruct (fi_writing0 q m w y j off' Hq H) as (H1 & H2 & H3). split_and!; [done| |done]. rewrite lookup_alter_ne; [done|]. apply not_eq_sym. eapply Hother; [done|].
      intros ->. destruct Hne. by eapply (tmp_unique Hap).
  - intros q m w y Hq [[-> ?]|[Hne H]]%pcs_insert; [done|]. destruct (fi_renaming0 q m w y Hq H) as (j & H1 & H2). exists j. split; [done|].
    rewrite lookup_alter_ne; [done|]. apply not_eq_sym. eapply Hother; [done|].
    intros ->. destruct Hne. by eapply (tmp_unique Hap).
  - intros q m j acc Hq [[-> ?]|[Hne H]]%pcs_insert; [done|]. destruct (fi_reading0 q m j acc Hq H) as (H1 & H2 & w & H3 & H4). split_and!; [done|done|].
    exists w. rewrite lookup_alter_ne; [done|]. intros ->. by destruct (H2 x Hu).
  - intros q m w Hq [[-> ?]|[Hne H]]%pcs_insert; [done|by eauto].
  - intros q m w y Hq [[-> ?]|[Hne H]]%pcs_insert; [done|by eauto].
Qed.

Lemma inv_rename s p n v x d' : names_apart -> file_inv s -> threads !! p = Some (Writer n v x) -> pcs s !! p = Some Renaming ->
  rename x n (sys_disk s) = Some d' -> file_inv (mkSystem d' (<[p := Written true]> (pcs s))).
Proof.
  intros Hap Hi Ht Hp Hr. destruct Hi. destruct (fi_renaming0 _ _ _ _ Ht Hp) as (i & Hx & Hc). unfold rename in Hr. rewrite Hx in Hr. injection Hr as <-.
  pose proof (tmp_in_use_of _ _ _ _ Ht) as Hu. assert (~ tmp_in_use n) as Hn by by eapply (tmp_not_target Hap).
  assert (n <> x) as Hnx by by intros ->.
  assert (forall m j, <[n := i]> (delete x (dir (sys_disk s))) !! m = Some j -> (m = n /\ j = i) \/ (m <> n /\ m <> x /\ dir (sys_disk s) !! m = Some j)) as Hd.
  { intros m j. destruct (decide (m = n)) as [->|Hm]; [rewrite lookup_insert_eq; intros [= <-]; auto|]. rewrite lookup_insert_ne by done.
    destruct (decide (m = x)) as [->|Hmx]; [by rewrite lookup_delete_eq|]. rewrite lookup_delete_ne by done. auto. }
  assert (forall q m w y, threads !! q = Some (Writer m w y) -> q <> p -> y <> n /\ y <> x) as Hy.
  { intros q m w y Hq Hne. split; intros ->; [by destruct Hn; eapply tmp_in_use_of|]. destruct Hne. by eapply (tmp_unique Hap). }
  constructor; cbn; try done.
  - by rewrite length_insert.
  - intros m j [[-> ->]|(_ & _ & H)]%Hd; [|by apply (fi_sound0 m)]. by apply (fi_sound0 x).
  - intros m j [[-> ->]|(_ & _ & H)]%Hd Hno; [|by apply (fi_target0 m)]. exists v. split; [done|]. right. by eexists _, _.
  - intros y m j Huy [[-> ->]|(_ & Hyx & H1)]%Hd [[-> H2]|(_ & Hmx & H2)]%Hd; try done.
    + subst j. destruct Hyx. by apply (fi_apart0 x y i).
    + by apply (fi_apart0 y m j).
  - intros q m w y Hq [[-> ?]|[Hne H]]%pcs_insert; [done|]. destruct (Hy q m w y Hq Hne). rewrite lookup_insert_ne, lookup_delete_ne by done. by eauto.
  - intros q m w y j off Hq [[-> ?]|[Hne H]]%pcs_insert; [done|]. destruct (Hy q m w y Hq Hne). rewrite lookup_insert_ne, lookup_delete_ne by done. by eauto.
  - intros q m w y Hq [[-> ?]|[Hne H]]%pcs_insert; [done|]. destruct (Hy q m w y Hq Hne). rewrite lookup_insert_ne, lookup_delete_ne by done. by eauto.
  - intros q m j acc Hq [[-> ?]|[Hne H]]%pcs_insert; [done|]. destruct (fi_reading0 q m j acc Hq H) as (H1 & H2 & H3). split_and!; [done| |done].
    intros y Huy [[-> ->]|(_ & _ & H4)]%Hd; [by destruct Hn|by apply (H2 y)].
  - intros q m w Hq [[-> ?]|[Hne H]]%pcs_insert; [done|by eauto].
  - intros q m w y Hq [[-> ?]|[Hne H]]%pcs_insert.
    + rewrite Ht in Hq. simplify_eq. by rewrite lookup_insert_eq.
    + destruct (decide (m = n)) as [->|Hm]; [by rewrite lookup_insert_eq|]. rewrite lookup_insert_ne by done. rewrite lookup_delete_ne; [by eauto|].
      intros ->. by eapply (tmp_not_target Hap).
Qed.

Lemma take_length_take {A : Type} k (l : list A) : take (length (take k l)) l = take k l.
Proof. rewrite length_take. destruct (Nat.min_spec k (length l)) as [[_ ->]|[? ->]]; [done|]. by rewrite !take_ge by lia. Qed.

Lemma inv_step s s' : names_apart -> system_step s s' -> file_inv s -> file_inv s'.
Proof.
  intros Hap Hs Hi. destruct Hs as [s p t c d' c' Ht Hp Hc]. remember (sys_disk s) as dk eqn:Ed. destruct Hc as [n v x d d' i Hc|n v x d i off k Hlt|n v x d i off Hle|n v x d d' Hr|n v x d c Hc
    |n d i Hd|n d i acc content k Hc Hlt|n d i acc content Hc Hle|n d c Hc]; subst d.
  - by eapply inv_create.
  - by eapply inv_write.
  - eapply inv_same_disk; [done|done| |done]. intros ? ? ? [= <- <- <-]. split_and!; [done|done|done|]. intros _.
    destruct (fi_writing _ Hi _ _ _ _ _ _ Ht Hp) as (H1 & H2 & H3). exists i. by rewrite take_ge in H2 by done.
  - by eapply inv_rename.
  - by eapply inv_same_disk; [done|done|intros ? ? ? [= <- <- <-]|done].
  - eapply inv_same_disk; [done|done|done|]. intros ? [= <-]. split; [|done]. intros ? ? [= <- <-]. pose proof (tmp_not_read Hap _ _ Ht) as Hno.
    split_and!; [by eapply (fi_sound _ Hi)| |].
    + intros x Hx Hxi. destruct Hno. by rewrite (fi_apart _ Hi x n i).
    + destruct (fi_target _ Hi n i Hd Hno) as (v & Hv & Hw). by exists v.
  - eapply inv_same_disk; [done|done|done|]. intros ? [= <-]. split; [|done]. intros ? ? [= <- <-].
    destruct (fi_reading _ Hi _ _ _ _ Ht Hp) as (H1 & H2 & v & H3 & H4 & H5). split_and!; [done|done|]. exists v. split_and!; [done|done|].
    rewrite Hc in H3. injection H3 as ->. assert (acc ++ take k (drop (length acc) v) = take (length acc + k) v) as -> by (rewrite H5 at 1; apply take_take_drop). by rewrite take_length_take.
  - eapply inv_same_disk; [done|done|done|]. intros ? [= <-]. split; [done|]. intros ? [= <-].
    destruct (fi_reading _ Hi _ _ _ _ Ht Hp) as (H1 & H2 & v & H3 & H4 & H5). rewrite Hc in H3. injection H3 as ->. by rewrite H5, take_ge by done.
  - by eapply inv_same_disk; [done|done|done|intros ? [= <-]].
Qed.

Lemma inv_start : names_apart -> sound_disk d0 -> file_inv (started_on d0).
Proof.
  intros Hap Hd. assert (forall p c, pcs (started_on d0) !! p = Some c -> c = Start) as Hs.
  { intros p c H. by apply lookup_replicate in H as [-> _]. }
  constructor; cbn; try (intros; match goal with H : replicate _ _ !! _ = _ |- _ => by apply Hs in H end).
  - by rewrite length_replicate.
  - done.
  - intros n i Hi _. destruct (Hd n i Hi) as [_ [v Hv]]. exists v. split; [done|]. left. by exists i.
  - intros x n i Hx Hxi. by rewrite (tmp_new Hap x Hx) in Hxi.
  - intros p n v x Ht _. by eapply (tmp_new Hap), tmp_in_use_of.
Qed.

(** C24: whatever calls of the file store's [writeFile] and [readFile] run at
    once, however their system calls interleave and whichever of them fail, a
    read that returns without an error returns a value that was in the file
    from the start or that some call writes to this file, never part of one
    and never one of another key; and once a write has succeeded the file is
    there and holds such a value. *)
Theorem reads_are_whole s : names_apart -> sound_disk d0 -> rtc system_step (started_on d0) s ->
  (forall p n v, threads !! p = Some (Reader n) -> pcs s !! p = Some (Got (Some v)) -> whole n v)
  /\ (forall p n v x, threads !! p = Some (Writer n v x) -> pcs s !! p = Some (Written true) ->
       exists i w, dir (sys_disk s) !! n = Some i /\ inodes (sys_disk s) !! i = Some w /\ whole n w).
Proof.
  intros Hap Hd Hs. assert (file_inv s) as Hi.
  { apply (rtc_invariant system_step file_inv) with (2 := Hs); [|by apply inv_start]. intros a b Hab Ha. by eapply inv_step. }
  split; [apply (fi_got _ Hi)|]. intros p n v x Ht Hp. destruct (fi_done _ Hi _ _ _ _ Ht Hp) as [i Hn].
  destruct (fi_target _ Hi n i Hn) as (w & Hw & Hwh); [by eapply (tmp_not_target Hap)|]. by exists i, w.
Qed.

End Threads.

(** ** A run *)

(** Two writers of one file and a reader that opens it in between. *)
Definition run_threads : list thread := [Writer "k" [1; 2]%Z "k_a"; Writer "k" [3]%Z "k_b"; Reader "k"].
Definition run_disk : disk := mkDisk {["k"%string := 0]} {[0 := [9]%Z]} 1.

Lemma run_apart : names_apart run_threads run_disk.
Proof.
  assert (forall x, tmp_in_use run_threads x -> x = "k_a"%string \/ x = "k_b"%string) as Hu.
  { intros x (p & n & v & H). destruct p as [|[|[|p]]]; cbn in H; simplify_eq; auto. }
  constructor.
  - intros p q n v n' v' x Hp Hq. destruct p as [|[|[|p]]], q as [|[|[|q]]]; cbn in Hp, Hq; simplify_eq; done.
  - intros x [-> | ->]%Hu; reflexivity.
  - intros p n v x Hp Hx%Hu. destruct p as [|[|[|p]]]; cbn in Hp; simplify_eq; by destruct Hx.
  - intros p n Hp Hx%Hu. destruct p as [|[|[|p]]]; cbn in Hp; simplify_eq; by destruct Hx.
Qed.

Lemma run_sound : sound_disk run_disk.
Proof.
  intros n i H. unfold run_disk in *. cbn in *. apply lookup_singleton_Some in H as [<- <-]. split; [lia|]. by eexists.
Qed.

Lemma run_steps : exists s, rtc (system_step run_threads) (started_on run_threads run_disk) s
  /\ pcs s = [Written true; Writing 2 0; Got (Some [1; 2]%Z)].
Proof.
  eexists. split; [|shelve].
  eapply rtc_l; [eapply (step_thread _ _ 0); [reflexivity|reflexivity|apply sys_create; reflexivity]|]. cbn.
  eapply rtc_l; [eapply (step_thread _ _ 1); [reflexivity|reflexivity|apply sys_create; reflexivity]|]. cbn.
  eapply rtc_l; [eapply (step_thread _ _ 0); [reflexivity|reflexivity|apply (sys_write _ _ _ _ _ _ 1); cbn; lia]|]. cbn.
  eapply rtc_l; [eapply (step_thread _ _ 0); [reflexivity|reflexivity|apply (sys_write _ _ _ _ _ _ 1); cbn; lia]|]. cbn.
  eapply rtc_l; [eapply (step_thread _ _ 0); [reflexivity|reflexivity|apply sys_written; cbn; lia]|]. cbn.
  eapply rtc_l; [eapply (step_thread _ _ 0); [reflexivity|reflexivity|apply sys_rename; reflexivity]|]. cbn.
  eapply rtc_l; [eapply (step_thread _ _ 2); [reflexivity|reflexivity|apply sys_open; reflexivity]|]. cbn.
  eapply rtc_l; [eapply (step_thread _ _ 2); [reflexivity|reflexivity|eapply (sys_read _ _ _ _ _ 5); [reflexivity|cbn; lia]]|]. cbn.
  eapply rtc_l; [eapply (step_thread _ _ 2); [reflexivity|reflexivity|eapply sys_eof; [reflexivity|cbn; lia]]|]. cbn.
  apply rtc_refl. Unshelve. reflexivity.
Qed.

Lemma reads_are_whole_witness : exists s, rtc (system_step run_threads) (started_on run_threads run_disk) s
  /\ pcs s = [Written true; Writing 2 0; Got (Some [1; 2]%Z)] /\ whole run_threads run_disk "k" [1; 2]%Z.
Proof.
  destruct run_steps as (s & Hs & Hp). exists s. split_and!; [exact Hs|exact Hp|].
  destruct (reads_are_whole run_threads run_disk s run_apart run_sound Hs) as [H _]. apply (H 2); [reflexivity|]. by rewrite Hp.
Defined.
