(* ===== verification/LiteGzip.v ===== *)
(** * lite-apiserver: the pool of buffers (pkg/lite-apiserver/cache/cache_gzip.go)

    [gzipEncode] and [gzipDecode] write their output to a buffer from a pool
    that all goroutines share.  A call is a thread: get a buffer, write the
    output to it, copy it out, and give the buffer back; [gzipEncode] empties
    the buffer before it puts it back, the deferred calls of [gzipDecode] do it
    the other way round.  The theorem shows that the first order keeps
    concurrent calls apart and the second does not. *)

From Stdlib Require Import ZArith Lia Ascii String.
From stdpp Require Import base strings gmap numbers sorting list.
From S2P Require Import Prelude.

(** ** The pool *)

(** The buffers ever made, each with what it holds, and those in the pool. *)
Record pool_state : Type := mkPoolState {
  buffers : list (list Z);
  free : list nat
}.

Inductive gzip_call : Type := EncodeCall (output : list Z) | DecodeCall (output : list Z).

Definition output (c : gzip_call) : list Z := match c with EncodeCall o | DecodeCall o => o end.

(** Where a call stands: [CopiedOut] has the result, [ResetFirst] and
    [PutFirst] have done one of the two deferred calls. *)
Inductive gzip_pc : Type :=
| Called
| HasBuffer (b : nat)
| Filled (b : nat)
| CopiedOut (b : nat) (result : list Z)
| ResetFirst (b : nat) (result : list Z)
| PutFirst (b : nat) (result : list Z)
| Returned (result : list Z).

Definition append_to (b : nat) (o : list Z) (p : pool_state) : pool_state := mkPoolState (alter (fun c => c ++ o) b (buffers p)) (free p).
Definition reset (b : nat) (p : pool_state) : pool_state := mkPoolState (<[b := []]> (buffers p)) (free p).
Definition put_back (b : nat) (p : pool_state) : pool_state := mkPoolState (buffers p) (b :: free p).

(** One step of a call. *)
Inductive gzip_step : gzip_call -> pool_state -> gzip_pc -> pool_state -> gzip_pc -> Prop :=
| get_new c p : gzip_step c p Called (mkPoolState (buffers p ++ [[]]) (free p)) (HasBuffer (length (buffers p)))
| get_pooled c p b fs1 fs2 : free p = fs1 ++ b :: fs2 -> gzip_step c p Called (mkPoolState (buffers p) (fs1 ++ fs2)) (HasBuffer b)
| fill c p b : gzip_step c p (HasBuffer b) (append_to b (output c) p) (Filled b)
| copy_out c p b content : buffers p !! b = Some content -> gzip_step c p (Filled b) p (CopiedOut b content)
| encode_reset o p b r : gzip_step (EncodeCall o) p (CopiedOut b r) (reset b p) (ResetFirst b r)
| encode_put o p b r : gzip_step (EncodeCall o) p (ResetFirst b r) (put_back b p) (Returned r)
| decode_put o p b r : gzip_step (DecodeCall o) p (CopiedOut b r) (put_back b p) (PutFirst b r)
| decode_reset o p b r : gzip_step (DecodeCall o) p (PutFirst b r) (reset b p) (Returned r).

Section Calls.
Context (calls : list gzip_call).

Definition gzip_system : Type := pool_state * list gzip_pc.

Inductive gzip_system_step : gzip_system -> gzip_system -> Prop :=
| gzip_thread p pcs i c x p' x' : calls !! i = Some c -> pcs !! i = Some x -> gzip_step c p x p' x' ->
    gzip_system_step (p, pcs) (p', <[i := x']> pcs).

Definition gzip_start : gzip_system := (mkPoolState [] [], replicate (length calls) Called).

(** The buffer a call holds. *)
Definition held (x : gzip_pc) : list nat :=
  match x with HasBuffer b | Filled b | CopiedOut b _ | ResetFirst b _ => [b] | _ => [] end.

Definition content_ok (p : pool_state) (c : gzip_call) (x : gzip_pc) : Prop :=
  match x with
  | Called => True
  | HasBuffer b | ResetFirst b _ => buffers p !! b = Some []
  | Filled b => buffers p !! b = Some (output c)
  | CopiedOut b _ => is_Some (buffers p !! b)
  | PutFirst _ _ => False
  | Returned _ => True
  end
  /\ match x with CopiedOut _ r | ResetFirst _ r | Returned r => r = output c | _ => True end.

(** No buffer is in two hands, and those in the pool are empty. *)
Record pool_ok (s : gzip_system) : Prop := {
  pool_nodup : NoDup (free (fst s));
  pool_empty b : b ∈ free (fst s) -> buffers (fst s) !! b = Some [];
  pool_apart i j x y b : snd s !! i = Some x -> snd s !! j = Some y -> b ∈ held x -> b ∈ held y -> i = j;
  pool_held i x b : snd s !! i = Some x -> b ∈ held x -> b ∉ free (fst s) /\ b < length (buffers (fst s));
  pool_content i c x : calls !! i = Some c -> snd s !! i = Some x -> content_ok (fst s) c x
}.

Lemma pc_insert (l : list gzip_pc) i x' j x : <[i := x']> l !! j = Some x -> (j = i /\ x = x') \/ (j <> i /\ l !! j = Some x).
Proof.
  destruct (decide (j = i)) as [->|Hne]; [|rewrite list_lookup_insert_ne by done; auto].
  intros H. left. split; [done|]. pose proof (lookup_lt_Some _ _ _ H) as Hlt. rewrite length_insert in Hlt.
  rewrite list_lookup_insert_eq in H by done. congruence.
Qed.

(** A step that keeps to the buffer it holds, or takes a free one, leaves the
    buffers of the others alone. *)
Lemma pool_ok_step p pcs i c x p' x' : pool_ok (p, pcs) -> calls !! i = Some c -> pcs !! i = Some x ->
  NoDup (free p') -> (forall b, b ∈ free p' -> buffers p' !! b = Some []) ->
  (forall b, b ∈ held x' -> b ∈ held x \/ b ∈ free p \/ length (buffers p) <= b) ->
  (forall b, b ∈ held x' -> b ∉ free p' /\ b < length (buffers p')) ->
  (forall b, b ∈ free p' -> b ∈ free p \/ b ∈ held x) ->
  length (buffers p) <= length (buffers p') ->
  (forall b, b ∉ held x -> b < length (buffers p) -> buffers p' !! b = buffers p !! b) ->
  content_ok p' c x' -> pool_ok (p', <[i := x']> pcs).
Proof.
  intros Hok Hc Hx Hn He Hh Hh' Hf Hl Hb Hco. constructor; cbn [fst snd]; [exact Hn|exact He| | |].
  - intros j k y z b Hj Hk Hy Hz. apply pc_insert in Hj as [[-> ->]|[Hji Hj]], Hk as [[-> ->]|[Hki Hk]]; [done| | |by eapply (pool_apart _ Hok)].
    + destruct (pool_held _ Hok k z b Hk Hz) as [H1 H2]. destruct (Hh b Hy) as [H|[H|H]]; [by eapply (pool_apart _ Hok)|done|cbn in H2; lia].
    + destruct (pool_held _ Hok j y b Hj Hy) as [H1 H2]. destruct (Hh b Hz) as [H|[H|H]]; [by eapply (pool_apart _ Hok)|done|cbn in H2; lia].
  - intros j y b Hj Hy. apply pc_insert in Hj as [[-> ->]|[Hji Hj]]; [by apply Hh'|].
    destruct (pool_held _ Hok j y b Hj Hy) as [H1 H2]. cbn in *. split; [|lia]. intros [H|H]%Hf; [done|]. destruct Hji. by eapply (pool_apart _ Hok).
  - intros j d y Hd Hj. apply pc_insert in Hj as [[-> ->]|[Hji Hj]]; [congruence|].
    pose proof (pool_content _ Hok j d y Hd Hj) as Hcy. assert (forall b, b ∈ held y -> buffers p' !! b = buffers p !! b) as Hsame.
    { intros b Hy. destruct (pool_held _ Hok j y b Hj Hy) as [_ H2]. apply Hb; [|done]. intros Hbx. destruct Hji. by eapply (pool_apart _ Hok). }
    unfold content_ok in *. destruct y; cbn [fst held] in *; rewrite ?Hsame by (by apply list_elem_of_singleton); done.
Qed.

Lemma encode_step_ok s s' : Forall (fun c => exists o, c = EncodeCall o) calls -> gzip_system_step s s' -> pool_ok s -> pool_ok s'.
Proof.
  intros Hall Hs Hok. destruct Hs as [p pcs i c x p' x' Hc Hx Hst].
  pose proof (pool_content _ Hok i c x Hc Hx) as Hcx. pose proof (pool_nodup _ Hok) as Hn. pose proof (pool_empty _ Hok) as He. cbn [fst snd] in *.
  assert (forall b, b ∈ held x -> b ∉ free p /\ b < length (buffers p)) as Hheld by (intros b; apply (pool_held _ Hok i x b Hx)).
  destruct Hst as [c p|c p b fs1 fs2 Hfree|c p b|c p b content Hb|o p b r|o p b r|o p b r|o p b r]; cbn [held] in *;
    try (destruct (Hheld b) as [Hbf Hbl]; [by apply list_elem_of_singleton|]).
  - eapply pool_ok_step; [exact Hok|done|done|done| | | |auto| | |]; cbn [buffers free held].
    + intros b Hb. rewrite lookup_app_l; [by apply He|]. apply He, lookup_lt_Some in Hb. done.
    + intros b ->%list_elem_of_singleton. by auto.
    + intros b ->%list_elem_of_singleton. rewrite length_app. cbn. split; [|lia]. intros H%He%lookup_lt_Some. lia.
    + rewrite length_app. lia.
    + intros b _ Hb. by rewrite lookup_app_l.
    + split; [|done]. cbn. by rewrite lookup_app_r, Nat.sub_diag by lia.
  - rewrite Hfree in Hn, He. apply NoDup_app in Hn as (Hn1 & Hn2 & Hn3). apply NoDup_cons in Hn3 as [Hn3 Hn4].
    assert (forall b', b' ∈ fs1 ++ fs2 -> b' ∈ fs1 ++ b :: fs2) as Hsub by (intros b'; rewrite !elem_of_app, elem_of_cons; tauto).
    assert (b ∈ fs1 ++ b :: fs2) as Hbin by (rewrite elem_of_app, elem_of_cons; auto).
    eapply pool_ok_step; [exact Hok|done|done| | | | | | | |]; cbn [buffers free held].
    + apply NoDup_app. split_and!; [done| |done]. intros b' H1 H2. apply (Hn2 b' H1), elem_of_cons. by right.
    + intros b' Hb'. by apply He, Hsub.
    + intros b' ->%list_elem_of_singleton. rewrite Hfree. auto.
    + intros b' ->%list_elem_of_singleton. split; [|by apply He, lookup_lt_Some in Hbin].
      rewrite elem_of_app. intros [H|H]; [|done]. apply (Hn2 b H), elem_of_cons. by left.
    + intros b' Hb'. left. rewrite Hfree. by apply Hsub.
    + done.
    + done.
    + split; [|done]. by apply He.
  - eapply pool_ok_step; [exact Hok|done|done|done| |auto| |auto| | |]; cbn [buffers free held append_to].
    + intros b' Hb'. rewrite list_lookup_alter_ne; [by apply He|]. by intros ->.
    + intros b' ->%list_elem_of_singleton. by rewrite length_alter.
    + by rewrite length_alter.
    + intros b' Hb' _. rewrite list_lookup_alter_ne; [done|]. intros ->. destruct Hb'. by apply list_elem_of_singleton.
    + split; [|done]. destruct Hcx as [Hcx _]. cbn in *. by rewrite list_lookup_alter_eq, Hcx.
  - destruct Hcx as [Hcx _]. eapply pool_ok_step; [exact Hok|done|done|done|done|auto|auto|auto|done|done|].
    split; [by eexists|]. congruence.
  - eapply pool_ok_step; [exact Hok|done|done|done| |auto| |auto| | |]; cbn [buffers free held reset].
    + intros b' Hb'. rewrite list_lookup_insert_ne; [by apply He|]. by intros ->.
    + intros b' ->%list_elem_of_singleton. by rewrite length_insert.
    + by rewrite length_insert.
    + intros b' Hb' _. rewrite list_lookup_insert_ne; [done|]. intros ->. destruct Hb'. by apply list_elem_of_singleton.
    + destruct Hcx as [_ Hr]. split; [|done]. cbn. by apply list_lookup_insert_eq.
  - destruct Hcx as [Hcx Hr]. eapply pool_ok_step; [exact Hok|done|done| | | | | |done|done|]; cbn [buffers free held put_back].
    + by constructor.
    + intros b' [->|Hb']%elem_of_cons; [done|by apply He].
    + intros b' []%elem_of_nil.
    + intros b' []%elem_of_nil.
    + intros b' [->|Hb']%elem_of_cons; [right; by apply list_elem_of_singleton|by left].
    + by split.
  - apply list_elem_of_lookup_2 in Hc. by destruct (proj1 (Forall_forall _ _) Hall _ Hc).
  - by destruct Hcx.
Qed.

Lemma gzip_start_ok : pool_ok gzip_start.
Proof.
  assert (forall i x, snd gzip_start !! i = Some x -> x = Called) as Hs by (intros i x H; by apply lookup_replicate in H as [-> _]).
  constructor.
  - constructor.
  - intros b []%elem_of_nil.
  - intros i j x y b Hi%Hs Hj%Hs Hb. subst. by apply elem_of_nil in Hb.
  - intros i x b Hi%Hs Hb. subst. by apply elem_of_nil in Hb.
  - intros i c x _ ->%Hs. done.
Qed.

End Calls.

(** ** The two orders *)

Definition two_decodes : list gzip_call := [DecodeCall [1]%Z; DecodeCall [2]%Z].
Definition two_encodes : list gzip_call := [EncodeCall [1]%Z; EncodeCall [2]%Z].

(** The second call takes the buffer between the two deferred calls of the first. *)
Lemma decodes_mix : rtc (gzip_system_step two_decodes) (gzip_start two_decodes)
  (mkPoolState [[]] [0], [Returned [1]%Z; Returned [1; 2]%Z]).
Proof.
  eapply rtc_l; [eapply (gzip_thread _ _ _ 0); [reflexivity|reflexivity|apply get_new]|]. cbn.
  eapply rtc_l; [eapply (gzip_thread _ _ _ 0); [reflexivity|reflexivity|apply fill]|]. cbn.
  eapply rtc_l; [eapply (gzip_thread _ _ _ 0); [reflexivity|reflexivity|apply copy_out; reflexivity]|]. cbn.
  eapply rtc_l; [eapply (gzip_thread _ _ _ 0); [reflexivity|reflexivity|apply decode_put]|]. cbn.
  eapply rtc_l; [eapply (gzip_thread _ _ _ 1); [reflexivity|reflexivity|apply (get_pooled _ _ 0 [] []); reflexivity]|]. cbn.
  eapply rtc_l; [eapply (gzip_thread _ _ _ 1); [reflexivity|reflexivity|apply fill]|]. cbn.
  eapply rtc_l; [eapply (gzip_thread _ _ _ 1); [reflexivity|reflexivity|apply copy_out; reflexivity]|]. cbn.
  eapply rtc_l; [eapply (gzip_thread _ _ _ 0); [reflexivity|reflexivity|apply decode_reset]|]. cbn.
  eapply rtc_l; [eapply (gzip_thread _ _ _ 1); [reflexivity|reflexivity|apply decode_put]|]. cbn.
  eapply rtc_l; [eapply (gzip_thread _ _ _ 1); [reflexivity|reflexivity|apply decode_reset]|]. cbn.
  apply rtc_refl.
Qed.

(** Calls of [gzipEncode] that share the pool each return their own output,
    in any interleaving; two calls of [gzipDecode] that share it can end with
    the second returning the output of the first followed by its own, because
    the deferred calls put the buffer back before they empty it. *)
Theorem gzip_pool_calls :
  (forall calls p pcs i c r, Forall (fun c => exists o, c = EncodeCall o) calls -> rtc (gzip_system_step calls) (gzip_start calls) (p, pcs) ->
     calls !! i = Some c -> pcs !! i = Some (Returned r) -> r = output c)
  /\ exists p r, rtc (gzip_system_step two_decodes) (gzip_start two_decodes) (p, [Returned [1]%Z; Returned r])
       /\ r = [1; 2]%Z /\ two_decodes !! 1 = Some (DecodeCall [2]%Z).
Proof.
  split.
  - intros calls p pcs i c r Hall Hs Hc Hr. assert (pool_ok calls (p, pcs)) as Hok.
    { apply (rtc_invariant (gzip_system_step calls) (pool_ok calls)) with (2 := Hs); [|apply gzip_start_ok]. intros a b Hab. by eapply encode_step_ok. }
    by destruct (pool_content _ _ Hok i c (Returned r) Hc Hr) as [_ H].
  - eexists _, _. split; [exact decodes_mix|]. by split.
Qed.

Lemma encodes_run : rtc (gzip_system_step two_encodes) (gzip_start two_encodes)
  (mkPoolState [[]] [0], [Returned [1]%Z; Returned [2]%Z]).
Proof.
  eapply rtc_l; [eapply (gzip_thread _ _ _ 0); [reflexivity|reflexivity|apply get_new]|]. cbn.
  eapply rtc_l; [eapply (gzip_thread _ _ _ 0); [reflexivity|reflexivity|apply fill]|]. cbn.
  eapply rtc_l; [eapply (gzip_thread _ _ _ 0); [reflexivity|reflexivity|apply copy_out; reflexivity]|]. cbn.
  eapply rtc_l; [eapply (gzip_thread _ _ _ 0); [reflexivity|reflexivity|apply encode_reset]|]. cbn.
  eapply rtc_l; [eapply (gzip_thread _ _ _ 0); [reflexivity|reflexivity|apply encode_put]|]. cbn.
  eapply rtc_l; [eapply (gzip_thread _ _ _ 1); [reflexivity|reflexivity|apply (get_pooled _ _ 0 [] []); reflexivity]|]. cbn.
  eapply rtc_l; [eapply (gzip_thread _ _ _ 1); [reflexivity|reflexivity|apply fill]|]. cbn.
  eapply rtc_l; [eapply (gzip_thread _ _ _ 1); [reflexivity|reflexivity|apply copy_out; reflexivity]|]. cbn.
  eapply rtc_l; [eapply (gzip_thread _ _ _ 1); [reflexivity|reflexivity|apply encode_reset]|]. cbn.
  eapply rtc_l; [eapply (gzip_thread _ _ _ 1); [reflexivity|reflexivity|apply encode_put]|]. cbn.
  apply rtc_refl.
Qed.

Lemma gzip_pool_calls_witness : [2]%Z = output (EncodeCall [2]%Z).
Proof.
  destruct gzip_pool_calls as [H _]. eapply (H two_encodes _ _ 1 (EncodeCall [2]%Z) [2]%Z); [|exact encodes_run|reflexivity|reflexivity].
  repeat constructor; by eexists.
Defined.
