(* ===== verification/LiteCache.v ===== *)
(** * lite-apiserver: the cache manager (pkg/lite-apiserver/cache/cache_mgr.go, cache_gzip.go)

    [Cache] keeps the response to a get or a list under a key made of the user
    agent and the request, and applies the events of a watch to the list kept
    under the same key; [Query] answers from what is kept.  The theorems are
    proved against the interface of the stores: what was cached is what a query
    gives back, other requests are not touched, and after a watch the list is
    the one that the events describe. *)

From Stdlib Require Import ZArith Lia Ascii String.
From stdpp Require Import base strings gmap numbers sorting list.
From S2P Require Import Prelude.
From S2P Require Import GoStd.
From S2P Require Import GoStrings.
From S2P Require Import GoJson.
From S2P Require Import GoJsonStruct.
From S2P Require Import GoBase64.
From S2P Require Import LiteCodec.
From S2P Require Import LiteStorage.

Local Open Scope Z_scope.
Local Open Scope go_scope.

(** ** Requests and keys *)

(** The [RequestInfo] the server's request info resolver puts in the context. *)
Record RequestInfo : Type := mkRequestInfo {
  IsResourceRequest : bool;
  Path : string;
  Verb : string;
  APIGroup : string;
  APIVersion : string;
  ri_Namespace : string;
  Resource : string;
  Subresource : string;
  ri_Name : string
}.

#[export] Instance RequestInfo_eq_dec : EqDecision RequestInfo.
Proof. solve_decision. Defined.

Definition DefaultUserAgent : string := "default".

(** The first word of the header User-Agent. *)
Definition getUserAgent (h : string) : string :=
  if nonempty h then default EmptyString (head (split_on " " h)) else DefaultUserAgent.

Definition cacheKey (userAgent : string) (info : RequestInfo) : string :=
  join_with "_"
    (if IsResourceRequest info then [userAgent; ri_Namespace info; Resource info; ri_Name info; Subresource info]
     else [userAgent; ReplaceByte "/" "-" (Path info)]).

(** ** What the cache uses of other code *)

(** [compress/gzip]: [gzipEncode] and [gzipDecode] give the bytes or an error. *)
Class Gzip : Type := {
  gzipEncode : list Z -> option (list Z);
  gzipDecode : list Z -> option (list Z)
}.

Class GzipLaws (G : Gzip) : Prop := {
  gzipEncode_ok x : exists y, gzipEncode x = Some y;
  gzipDecode_Encode x y : Forall byte x -> gzipEncode x = Some y -> gzipDecode y = Some x;
  gzipDecode_bytes x y : gzipDecode x = Some y -> Forall byte y
}.

(** The unstructured objects of apimachinery: the metadata accessor, the codec
    [UnstructuredJSONScheme] and the operations on lists. *)
Class Unstructured : Type := {
  Obj : Type;
  ListObj : Type;
  acc_Kind : Obj -> option string;
  acc_Namespace : Obj -> option string;
  acc_Name : Obj -> option string;
  acc_ResourceVersion : Obj -> option string;
  DecodeList : list Z -> option ListObj;
  EncodeList : ListObj -> option (list Z);
  ExtractList : ListObj -> option (list Obj);
  SetList : list Obj -> ListObj -> option ListObj;
  SetResourceVersion : string -> ListObj -> option ListObj
}.

(** ** The cache manager *)

Section CacheManager.
Context {St : Storage} {G : Gzip} {U : Unstructured}.

Definition defaultGzipThresholdBytes : Z := 128 * 1024.

Definition cacheGet (key : string) (code : Z) (header : Header) (body : list Z) (s : store) : store * bool :=
  StoreOne key (MarshalEdgeCache (NewEdgeCache code header (Some body))) s.

Definition cacheList (key : string) (code : Z) (header : Header) (body : list Z) (s : store) : store * bool :=
  if String.eqb (hdr_Get header "Content-Encoding") "gzip" then
    match gzipDecode body with
    | None => (s, false)
    | Some body => StoreList key (MarshalEdgeCache (NewEdgeCache code (hdr_Del "Content-Encoding" header) (Some body))) s
    end
  else StoreList key (MarshalEdgeCache (NewEdgeCache code header (Some body))) s.

(** *** Watching *)

Inductive event_type : Type := Added | Modified | Deleted | Bookmark | ErrorEvent.

Definition if_both {A : Type} (x y : option A) (f : A -> A -> bool) : bool :=
  match x, y with Some a, Some b => f a b | _, _ => false end.

Definition sameObj (obj1 obj2 : Obj) : bool :=
  if_both (acc_Kind obj1) (acc_Kind obj2) (fun kind1 kind2 =>
  if_both (acc_Namespace obj1) (acc_Namespace obj2) (fun ns1 ns2 =>
  if_both (acc_Name obj1) (acc_Name obj2) (fun name1 name2 =>
    String.eqb kind1 kind2 && String.eqb ns1 ns2 && String.eqb name1 name2))).

(** A version that is not a number counts as the number it yields on an error. *)
Definition newVersion (newOne oldOne : Obj) : bool :=
  if_both (acc_ResourceVersion newOne) (acc_ResourceVersion oldOne) (fun newRv oldRv => Atoi oldRv <? Atoi newRv).

(** The first item that is the object, and older, is replaced. *)
Fixpoint replace_first (obj : Obj) (items : list Obj) : option (list Obj) :=
  match items with
  | [] => None
  | item :: items =>
      if sameObj obj item && newVersion obj item then Some (obj :: items) else cons item <$> replace_first obj items
  end.

(** The items after an event, if it updates them. *)
Definition update_items (t : event_type) (obj : Obj) (items : list Obj) : option (list Obj) :=
  match t with
  | Added => Some (items ++ [obj])
  | Modified => replace_first obj items
  | Deleted => Some (filter (fun item => sameObj obj item = false) items)
  | _ => None
  end.

(** One event: the store and whether the watch goes on. *)
Definition handle_event (key : string) (t : event_type) (obj : Obj) (s : store) : outcome (store * bool) :=
  match t with
  | Bookmark | ErrorEvent => Ret (s, true)
  | _ =>
      let* listData := LoadList key s in
      match listData with
      | None => Ret (s, true)
      | Some listData =>
          match UnmarshalEdgeCache listData with
          | None => Ret (s, false)
          | Some listCache =>
              match DecodeList (sl (Body listCache)) with
              | None => Ret (s, true)
              | Some listObj =>
                  match ExtractList listObj with
                  | None => Ret (s, true)
                  | Some items =>
                      match update_items t obj items with
                      | None => Ret (s, true)
                      | Some items =>
                          match SetList items listObj with
                          | None => Ret (s, false)
                          | Some listObj =>
                              let rv := default EmptyString (acc_ResourceVersion obj) in
                              let listObj := default listObj (SetResourceVersion rv listObj) in
                              match EncodeList listObj with
                              | None => Ret (s, false)
                              | Some body =>
                                  Ret (StoreList key (MarshalEdgeCache (mkEdgeCache (StatusCode listCache) (ec_Header listCache) (Some body))) s)
                              end
                          end
                      end
                  end
              end
          end
      end
  end.

(** The events that can be decoded, one after the other; the end of the stream
    is an error as well. *)
Fixpoint cacheWatch (key : string) (events : list (event_type * Obj)) (s : store) : outcome store :=
  match events with
  | [] => Ret s
  | (t, obj) :: events =>
      let* ' (s, continue) := handle_event key t obj s in
      if continue then cacheWatch key events s else Ret s
  end.

(** *** Caching *)

(** What the body of a response gives: the events of a watch, or the bytes up
    to its end unless reading fails. *)
Inductive response_body : Type :=
| Events (events : list (event_type * Obj))
| Bytes (bytes : option (list Z)).

Definition handleCache (key verb : string) (statusCode : Z) (header : Header) (body : response_body) (s : store)
    : outcome (store * bool) :=
  match body with
  | Events events => let* s := cacheWatch key events s in Ret (s, false)
  | Bytes None => Ret (s, false)
  | Bytes (Some bs) =>
      let header := hdr_Del "Content-Length" header in
      if String.eqb verb "list" then Ret (cacheList key statusCode header bs s)
      else if String.eqb verb "get" then Ret (cacheGet key statusCode header bs s)
      else Ret (s, true)
  end.

(** The body is read as events when the verb is watch, as bytes otherwise. *)
Definition Cache (userAgent : string) (info : option RequestInfo) (statusCode : Z) (header : Header)
    (events : list (event_type * Obj)) (bytes : option (list Z)) (s : store) : outcome (store * bool) :=
  match info with
  | None => Ret (s, false)
  | Some info =>
      handleCache (cacheKey (getUserAgent userAgent) info) (Verb info) statusCode header
        (if String.eqb (Verb info) "watch" then Events events else Bytes bytes) s
  end.

(** *** Querying *)

(** A large body is compressed. *)
Definition compress (cache : EdgeCache) : outcome (option EdgeCache) :=
  if (defaultGzipThresholdBytes <? Z.of_nat (length (sl (Body cache)))) && String.eqb (hdr_Get (ec_Header cache) "Content-Encoding") EmptyString then
    match gzipEncode (sl (Body cache)) with
    | None => Ret None
    | Some body => let* h := hdr_Set "Content-Encoding" "gzip" (ec_Header cache) in Ret (Some (mkEdgeCache (StatusCode cache) h (Some body)))
    end
  else Ret (Some cache).

Definition queryList (key : string) (s : store) : outcome (option EdgeCache) :=
  let* data := LoadList key s in
  match data with
  | None => Ret None
  | Some data => match UnmarshalEdgeCache data with None => Ret None | Some cache => compress cache end
  end.

Definition handleQuery (key verb : string) (s : store) : outcome (option EdgeCache) :=
  if String.eqb verb "list" then queryList key s
  else if String.eqb verb "get" then
    let* data := LoadOne key s in
    match data with None => Ret None | Some data => Ret (UnmarshalEdgeCache data) end
  else if String.eqb verb "watch" then Ret (Some NewDefaultEdgeCache)
  else Ret None.

Definition Query (userAgent : string) (info : option RequestInfo) (s : store) : outcome (option EdgeCache) :=
  match info with
  | None => Ret None
  | Some info => handleQuery (cacheKey (getUserAgent userAgent) info) (Verb info) s
  end.

End CacheManager.

(** ** Keys *)

(** A part of a path without underscores. *)
Definition plain_part (s : string) : Prop := all_chars (fun a => negb (Ascii.eqb a "_") && negb (Ascii.eqb a "/")) s = true.

Lemma plain_part_us s : plain_part s -> all_chars (fun a => negb (Ascii.eqb a "_")) s = true.
Proof. apply all_chars_mono. intros a [H _]%andb_true_iff. exact H. Qed.

Lemma mangle_plain s : plain_part s -> mangle s = s.
Proof.
  intros H. apply map_str_id. eapply all_chars_mono; [|exact H]. intros a [_ Ha]%andb_true_iff.
  destruct (Ascii.eqb a "/"); [done|]. apply Ascii.eqb_refl.
Qed.

Lemma map_str_app f s t : map_str f (s +:+ t) = map_str f s +:+ map_str f t.
Proof. induction s as [|a s IH]; [done|]. rewrite append_cons. cbn [map_str]. by rewrite IH, append_cons. Qed.

Lemma mangle_app s t : mangle (s +:+ t) = mangle s +:+ mangle t.
Proof. apply map_str_app. Qed.

(** Requests for objects, as the server resolves them: a get names its object,
    a list or a watch has no subresource. *)
Record object_request (i : RequestInfo) : Prop := {
  or_resource : IsResourceRequest i = true;
  or_namespace : plain_part (ri_Namespace i);
  or_kind : plain_part (Resource i);
  or_name : plain_part (ri_Name i);
  or_subresource : plain_part (Subresource i);
  or_verb : (Verb i = "get"%string /\ ri_Name i <> EmptyString) \/ ((Verb i = "list"%string \/ Verb i = "watch"%string) /\ Subresource i = EmptyString)
}.

Definition us (a b : string) : string := a +:+ String "_" b.

Lemma us_inj a b a' b' : plain_part b -> plain_part b' -> us a b = us a' b' -> a = a' /\ b = b'.
Proof. intros Hb Hb' E. eapply last_split_inj; [by apply plain_part_us|by apply plain_part_us|exact E]. Qed.

Lemma mangle_us a b : plain_part b -> mangle (us a b) = us (mangle a) b.
Proof. intros H. unfold us. rewrite mangle_app, mangle_cons, (mangle_plain b) by done. done. Qed.

Lemma cacheKey_us ua i : IsResourceRequest i = true ->
  cacheKey ua i = us (us (us (us ua (ri_Namespace i)) (Resource i)) (ri_Name i)) (Subresource i).
Proof.
  intros H. unfold cacheKey. rewrite H. unfold us. cbn [join_with].
  change (String "_" (ri_Namespace i)) with ("_" +:+ ri_Namespace i). change (String "_" (Resource i)) with ("_" +:+ Resource i).
  change (String "_" (ri_Name i)) with ("_" +:+ ri_Name i). change (String "_" (Subresource i)) with ("_" +:+ Subresource i).
  by rewrite !append_assoc.
Qed.

Lemma oneKey_parts ua i : object_request i ->
  oneKey (cacheKey ua i) = us (us (us (us (mangle ua) (ri_Namespace i)) (Resource i)) (ri_Name i)) (Subresource i).
Proof. intros []. unfold oneKey. rewrite cacheKey_us, !mangle_us by done. done. Qed.

Lemma listKey_parts ua i : object_request i -> listKey (cacheKey ua i) = us (oneKey (cacheKey ua i)) "list".
Proof. intros H. apply (mangle_us _ "list"). reflexivity. Qed.

(** Two requests that the cache takes for one: agents that differ in slashes and
    underscores only, the same object, and both a get or neither. *)
Definition same_request (ua : string) (i : RequestInfo) (ua' : string) (i' : RequestInfo) : Prop :=
  mangle ua = mangle ua' /\ ri_Namespace i = ri_Namespace i' /\ Resource i = Resource i' /\ ri_Name i = ri_Name i'
  /\ Subresource i = Subresource i' /\ (Verb i = "get"%string <-> Verb i' = "get"%string).

Lemma oneKey_inj ua i ua' i' : object_request i -> object_request i' -> oneKey (cacheKey ua i) = oneKey (cacheKey ua' i') ->
  mangle ua = mangle ua' /\ ri_Namespace i = ri_Namespace i' /\ Resource i = Resource i' /\ ri_Name i = ri_Name i' /\ Subresource i = Subresource i'.
Proof.
  intros Hi Hi' E. rewrite !oneKey_parts in E by done. destruct Hi, Hi'.
  do 4 (apply us_inj in E as [E ?]; [|done|done]). done.
Qed.

Lemma listKey_not_oneKey ua i ua' i' : object_request i -> object_request i' -> Verb i = "get"%string -> Verb i' <> "get"%string ->
  oneKey (cacheKey ua i) <> listKey (cacheKey ua' i').
Proof.
  intros Hi Hi' Hv Hv' E. rewrite listKey_parts, !oneKey_parts in E by done. destruct Hi, Hi'.
  apply us_inj in E as [E _]; [|done|done]. apply us_inj in E as [_ E]; [|done|done].
  destruct or_verb0 as [[_ Hn]|[[Hn|Hn] _]]; [|by rewrite Hv in Hn..]. destruct or_verb1 as [[? _]|[_ Hs]]; [done|]. congruence.
Qed.

(** ** What was cached is what a query gives *)

(** The response without its encoding, and without the two header fields that
    describe it. *)
Definition plain `{Gzip} (h : Header) (body : list Z) : option (list Z) :=
  if String.eqb (hdr_Get h "Content-Encoding") "gzip" then gzipDecode body else Some body.

Definition other_fields (h : Header) : Header := delete "Content-Encoding"%string <$> (delete "Content-Length"%string <$> h).

Lemma hdr_Get_Del k k' h : hdr_Get (hdr_Del k h) k' = if bool_decide (k = k') then EmptyString else hdr_Get h k'.
Proof.
  unfold hdr_Get, hdr_Del. destruct h as [m|]; cbn; [|by case_bool_decide].
  case_bool_decide as E; [subst; by rewrite lookup_delete_eq|by rewrite lookup_delete_ne].
Qed.

Lemma hdr_Get_Set_eq k v h h' : hdr_Set k v h = Ret h' -> hdr_Get h' k = v.
Proof. destruct h as [m|]; [|done]. intros [= <-]. unfold hdr_Get. cbn. by rewrite lookup_insert_eq. Qed.

Lemma wf_header_Del k h : wf_header h -> wf_header (hdr_Del k h).
Proof.
  intros H k' vv. unfold hdr_Del. destruct h as [m|]; cbn; [|by rewrite lookup_empty].
  intros [_ Hv]%lookup_delete_Some. by apply H.
Qed.

Lemma other_fields_Del k h : k = "Content-Length"%string \/ k = "Content-Encoding"%string -> other_fields (hdr_Del k h) = other_fields h.
Proof.
  intros Hk. destruct h as [m|]; [|done]. unfold other_fields, hdr_Del. cbn. f_equal. destruct Hk as [-> | ->].
  - by rewrite delete_delete_eq.
  - by rewrite (delete_delete m "Content-Length"%string "Content-Encoding"%string), delete_delete_eq.
Qed.

Lemma other_fields_Set v h h' : hdr_Set "Content-Encoding" v h = Ret h' -> other_fields h' = other_fields h.
Proof.
  destruct h as [m|]; [|done]. intros [= <-]. unfold other_fields. cbn. f_equal.
  rewrite (delete_insert_ne m) by done. by rewrite delete_insert_eq.
Qed.

Section Queries.
Context {St : Storage} {L : StorageLaws St} {G : Gzip} {GL : GzipLaws G} {U : Unstructured}.

(** The slot a request of a verb uses. *)
Definition slot_for (verb key : string) : slot := if String.eqb verb "get" then one_slot key else list_slot key.

(** What a query makes of the record in its slot. *)
Lemma handleQuery_get key s : handleQuery key "get" s = Ret (holds s (one_slot key) ≫= UnmarshalEdgeCache).
Proof. unfold handleQuery. cbn [String.eqb Ascii.eqb Bool.eqb]. rewrite LoadOne_holds. cbn [outcome_bind]. destruct (holds s (one_slot key)); reflexivity. Qed.

Lemma queryList_found key s c : wf_cache c -> holds s (list_slot key) = Some (MarshalEdgeCache c) -> queryList key s = compress c.
Proof. intros Hc H. unfold queryList. rewrite (LoadList_holds _ _ _ H). cbn [outcome_bind]. by rewrite Unmarshal_Marshal_cache. Qed.

(** Compressing changes the encoding and nothing else. *)
Lemma compress_plain c : ec_Header c <> None -> Body c <> None -> Forall byte (sl (Body c)) -> exists c', compress c = Ret (Some c')
  /\ StatusCode c' = StatusCode c /\ other_fields (ec_Header c') = other_fields (ec_Header c)
  /\ (forall k, k <> "Content-Encoding"%string -> mp (ec_Header c') !! k = mp (ec_Header c) !! k)
  /\ plain (ec_Header c') (sl (Body c')) = plain (ec_Header c) (sl (Body c)).
Proof.
  intros Hh Hb Hby. unfold compress. destruct (_ && _) eqn:E; [|by exists c]. apply andb_true_iff in E as [_ E%String.eqb_eq].
  destruct (gzipEncode_ok (sl (Body c))) as [y Hy]. rewrite Hy. destruct (ec_Header c) as [m|] eqn:Em; [|done]. cbn [hdr_Set outcome_bind].
  eexists. split; [done|]. cbn [StatusCode ec_Header Body]. split_and!; [done|by eapply other_fields_Set| |].
  - intros k Hk. cbn. by rewrite lookup_insert_ne.
  - unfold plain. rewrite (hdr_Get_Set_eq "Content-Encoding" "gzip" (Some m)) by done. rewrite E. cbn [String.eqb Ascii.eqb Bool.eqb sl default]. by eapply gzipDecode_Encode.
Qed.

Lemma stored_one key code h body s s' : usable s (one_slot key) -> cacheGet key code h body s = (s', true) ->
  holds s' (one_slot key) = Some (MarshalEdgeCache (mkEdgeCache code h (Some body))).
Proof.
  intros Hu H. unfold cacheGet in H. replace s' with (fst (StoreOne key (MarshalEdgeCache (NewEdgeCache code h (Some body))) s)) by by rewrite H.
  rewrite StoreOne_holds, H by done. by rewrite bool_decide_true.
Qed.

Lemma stored_list key d s s' : usable s (list_slot key) -> StoreList key d s = (s', true) -> holds s' (list_slot key) = Some d.
Proof.
  intros Hu H. replace s' with (fst (StoreList key d s)) by by rewrite H. rewrite StoreList_holds, H by done. by rewrite bool_decide_true.
Qed.

(** A response to a get or a list that was cached without an error is what
    a query for the same key gives until the slot is written again: the same
    status, the same header but for the length and the encoding, and a body
    that decodes to what the cached one decoded to. *)
Lemma query_after_cache key verb code header body s s' : verb = "get"%string \/ verb = "list"%string ->
  usable s (slot_for verb key) -> in_int64 code -> header <> None -> wf_header header -> Forall byte body ->
  handleCache key verb code header (Bytes (Some body)) s = Ret (s', true) ->
  exists c, handleQuery key verb s' = Ret (Some c) /\ StatusCode c = code /\ other_fields (ec_Header c) = other_fields header
    /\ hdr_Get (ec_Header c) "Content-Length" = EmptyString
    /\ plain (ec_Header c) (sl (Body c)) = plain header body.
Proof.
  intros Hv Hu Hcode Hh Hwf Hb H. set (h := hdr_Del "Content-Length" header).
  assert (wf_header h) as Hwh by by apply wf_header_Del. assert (h <> None) as Hhn by (subst h; by destruct header).
  assert (hdr_Get h "Content-Encoding" = hdr_Get header "Content-Encoding") as Hce by (subst h; by rewrite hdr_Get_Del).
  assert (other_fields h = other_fields header) as Ho by (apply other_fields_Del; auto).
  destruct Hv as [-> | ->]; unfold handleCache in H; cbn [String.eqb Ascii.eqb Bool.eqb] in H; injection H as H; fold h in H.
  - rewrite handleQuery_get, (stored_one _ _ _ _ _ _ Hu H). cbn [mbind option_bind]. rewrite Unmarshal_Marshal_cache by done.
    eexists. split; [done|]. cbn [StatusCode ec_Header Body sl default]. split_and!; [done|done|subst h; by rewrite hdr_Get_Del|].
    unfold plain. by rewrite Hce.
  - assert (exists h2 b2, wf_header h2 /\ h2 <> None /\ Forall byte b2 /\ other_fields h2 = other_fields header
      /\ hdr_Get h2 "Content-Length" = EmptyString /\ plain h2 b2 = plain header body
      /\ StoreList key (MarshalEdgeCache (mkEdgeCache code h2 (Some b2))) s = (s', true)) as (h2 & b2 & Hw2 & Hn2 & Hb2 & Ho2 & Hl2 & Hp2 & Hst).
    { unfold cacheList in H. destruct (String.eqb_spec (hdr_Get h "Content-Encoding") "gzip") as [Eg|Eg].
      - destruct (gzipDecode body) as [b2|] eqn:Ed; [|done]. exists (hdr_Del "Content-Encoding" h), b2. split_and!; [by apply wf_header_Del|by destruct h|by eapply gzipDecode_bytes| | | |done].
        + rewrite other_fields_Del by auto. done.
        + rewrite hdr_Get_Del. cbn. subst h. by rewrite hdr_Get_Del.
        + unfold plain. rewrite hdr_Get_Del, <- Hce, Eg. cbn. done.
      - exists h, body. split_and!; try done; [subst h; by rewrite hdr_Get_Del|]. unfold plain. by rewrite Hce. }
    change (handleQuery key "list" s') with (queryList key s'). rewrite (queryList_found _ _ (mkEdgeCache code h2 (Some b2))); [|done|by eapply stored_list].
    destruct (compress_plain (mkEdgeCache code h2 (Some b2))) as (c' & Hc' & H1 & H2 & H3 & H4); [done..|]. exists c'. cbn [StatusCode ec_Header Body sl default] in *.
    split_and!; [done|done|congruence| |exact (eq_trans H4 Hp2)]. unfold hdr_Get. rewrite H3 by done. exact Hl2.
Qed.

(** ** What caching leaves alone *)

Lemma cacheList_frame key code h body s s' ok x : usable s x -> x <> list_slot key -> cacheList key code h body s = (s', ok) ->
  holds s' x = holds s x.
Proof.
  intros Hu Hx H. assert (forall d, StoreList key d s = (s', ok) -> holds s' x = holds s x) as Hst.
  { intros d Hd. replace s' with (fst (StoreList key d s)) by by rewrite Hd. rewrite StoreList_holds by done. by rewrite bool_decide_false, andb_false_r. }
  unfold cacheList in H. destruct (String.eqb _ _); [|by eapply Hst]. destruct (gzipDecode body); [by eapply Hst|by simplify_eq].
Qed.

Lemma cacheGet_frame key code h body s s' ok x : usable s x -> x <> one_slot key -> cacheGet key code h body s = (s', ok) ->
  holds s' x = holds s x.
Proof.
  intros Hu Hx Hd. unfold cacheGet in Hd. replace s' with (fst (StoreOne key (MarshalEdgeCache (NewEdgeCache code h (Some body))) s)) by by rewrite Hd.
  rewrite StoreOne_holds by done. by rewrite bool_decide_false, andb_false_r.
Qed.

(** An event leaves the store as it is or writes one list to it. *)
Lemma handle_event_writes key t obj s s' ok : handle_event key t obj s = Ret (s', ok) ->
  s' = s \/ exists d, StoreList key d s = (s', ok).
Proof.
  unfold handle_event. intros H. destruct t; try (left; congruence).
  all: destruct (LoadList key s) as [[data|]|]; cbn [outcome_bind] in H; try (left; congruence); try done.
  all: repeat match type of H with context [match ?x with _ => _ end] => destruct x eqn:?; try (left; congruence) end.
  all: right; injection H as H; by eexists.
Qed.

Lemma cacheWatch_frame key events s s' x : usable s x -> x <> list_slot key -> cacheWatch key events s = Ret s' -> holds s' x = holds s x.
Proof.
  revert s. induction events as [|[t obj] events IH]; intros s Hu Hx H; [by injection H as <-|]. cbn [cacheWatch] in H.
  destruct (handle_event key t obj s) as [[s1 go]|] eqn:E; [|done]. cbn [outcome_bind] in H.
  assert (usable s1 x /\ holds s1 x = holds s x) as [Hu1 Hh1].
  { destruct (handle_event_writes _ _ _ _ _ _ E) as [->|[d Hd]]; [done|]. replace s1 with (fst (StoreList key d s)) by by rewrite Hd.
    split; [by apply usable_StoreList|]. rewrite StoreList_holds by done. by rewrite bool_decide_false, andb_false_r. }
  destruct go; [rewrite <- Hh1; by apply IH|]. by injection H as <-.
Qed.

Lemma handleCache_frame key verb code h body s s' ok x :
  match body with Events _ => verb = "watch"%string | _ => verb <> "watch"%string end ->
  usable s x -> x <> slot_for verb key -> handleCache key verb code h body s = Ret (s', ok) -> holds s' x = holds s x.
Proof.
  intros Hv Hu Hx H. destruct body as [events|[bs|]]; cbn [handleCache] in H; [|cbv zeta in H|by simplify_eq].
  - subst verb. change (x <> list_slot key) in Hx. destruct (cacheWatch key events s) as [s1|] eqn:E; [|done]. cbn [outcome_bind] in H. injection H as <- <-. by eapply cacheWatch_frame.
  - unfold slot_for in Hx. destruct (String.eqb_spec verb "list") as [->|]; [change (x <> list_slot key) in Hx; injection H as H; by eapply cacheList_frame|].
    destruct (String.eqb_spec verb "get"); [injection H as H; by eapply cacheGet_frame|by simplify_eq].
Qed.

(** A query looks at its slot only. *)
Lemma handleQuery_same key verb s s' : holds s (slot_for verb key) = holds s' (slot_for verb key) -> handleQuery key verb s = handleQuery key verb s'.
Proof.
  unfold slot_for, handleQuery. intros H. destruct (String.eqb_spec verb "list") as [->|].
  - unfold queryList. by rewrite (LoadList_same _ s s').
  - destruct (String.eqb_spec verb "get"); [|done]. rewrite !LoadOne_holds. by rewrite H.
Qed.

(** Different requests use different slots. *)
Lemma slots_apart ua i ua' i' : object_request i -> object_request i' -> ~ same_request ua i ua' i' ->
  slot_for (Verb i') (cacheKey ua' i') <> slot_for (Verb i) (cacheKey ua i).
Proof.
  intros Hi Hi' Hd E. apply Hd. unfold same_request. unfold slot_for in E.
  assert (oneKey (cacheKey ua i) = oneKey (cacheKey ua' i') /\ (Verb i = "get"%string <-> Verb i' = "get"%string)) as [E1 E2].
  { destruct (String.eqb_spec (Verb i') "get") as [Hv'|Hv'], (String.eqb_spec (Verb i) "get") as [Hv|Hv].
    - split; [|by rewrite Hv, Hv']. symmetry. by apply one_slot_names.
    - apply mixed_slot_names in E. by apply listKey_not_oneKey in E.
    - symmetry in E. apply mixed_slot_names in E. by apply listKey_not_oneKey in E.
    - split; [|by split]. apply list_slot_names in E. rewrite !listKey_parts in E by done. symmetry. by apply us_inj in E as [E _]. }
  apply oneKey_inj in E1; [|done..]. tauto.
Qed.

(** Caching a response, or the events of a watch, never changes what the
    cache answers to another request: for another agent, another object or
    another kind of request, the query gives the same before and after.  Agents
    that differ only in slashes and underscores count as one. *)
Theorem other_requests_kept ua i ua' i' code header events bytes s s' ok :
  object_request i -> object_request i' -> ~ same_request (getUserAgent ua) i (getUserAgent ua') i' ->
  usable s (slot_for (Verb i') (cacheKey (getUserAgent ua') i')) ->
  Cache ua (Some i) code header events bytes s = Ret (s', ok) ->
  Query ua' (Some i') s' = Query ua' (Some i') s.
Proof.
  intros Hi Hi' Hd Hu H. apply handleQuery_same. eapply handleCache_frame; [|done| |exact H].
  - destruct (String.eqb_spec (Verb i) "watch"); done.
  - by apply slots_apart.
Qed.

End Queries.

(** ** Watching keeps the list up to date *)

(** What the metadata accessor and the codec of unstructured objects promise. *)
Class UnstructuredLaws (U : Unstructured) : Prop := {
  acc_total o : exists kind ns name, acc_Kind o = Some kind /\ acc_Namespace o = Some ns /\ acc_Name o = Some name;
  EncodeList_ok l : exists b, EncodeList l = Some b /\ DecodeList b = Some l /\ Forall byte b;
  SetList_ok items l : exists l', SetList items l = Some l' /\ ExtractList l' = Some items;
  SetResourceVersion_items rv l l' : SetResourceVersion rv l = Some l' -> ExtractList l' = ExtractList l
}.

Section Watching.
Context {St : Storage} {L : StorageLaws St} {U : Unstructured} {UL : UnstructuredLaws U}.

Definition ident (o : Obj) : string * string * string :=
  (default EmptyString (acc_Kind o), default EmptyString (acc_Namespace o), default EmptyString (acc_Name o)).

Lemma sameObj_ident a b : sameObj a b = bool_decide (ident a = ident b).
Proof.
  destruct (acc_total a) as (k & n & m & Hk & Hn & Hm), (acc_total b) as (k' & n' & m' & Hk' & Hn' & Hm').
  unfold sameObj, ident. rewrite Hk, Hn, Hm, Hk', Hn', Hm'. cbn [if_both default from_option].
  destruct (String.eqb_spec k k'), (String.eqb_spec n n'), (String.eqb_spec m m'); case_bool_decide; simplify_eq; done.
Qed.

(** *** The specification: a map from objects to their last state *)

Local Notation objects := (gmap (string * string * string) Obj).

Definition view (items : list Obj) : objects := list_to_map ((fun o => (ident o, o)) <$> items).

Definition apply_event (m : objects) (e : event_type * Obj) : objects :=
  let (t, o) := e in
  match t with
  | Added => <[ident o := o]> m
  | Modified => match m !! ident o with Some old => if newVersion o old then <[ident o := o]> m else m | None => m end
  | Deleted => delete (ident o) m
  | Bookmark | ErrorEvent => m
  end.

Definition apply_events (es : list (event_type * Obj)) (m : objects) : objects := foldl apply_event m es.

(** An object is added when it is not there. *)
Definition admissible (m : objects) (e : event_type * Obj) : Prop :=
  match fst e with Added => m !! ident (snd e) = None | _ => True end.

Fixpoint admissible_all (m : objects) (es : list (event_type * Obj)) : Prop :=
  match es with
  | [] => True
  | e :: es => admissible m e /\ admissible_all (apply_event m e) es
  end.

(** *** One event *)

Definition distinct (items : list Obj) : Prop := NoDup (ident <$> items).

Lemma view_cons o items : view (o :: items) = <[ident o := o]> (view items).
Proof. done. Qed.

Lemma view_None items i : i ∉ ident <$> items -> view items !! i = None.
Proof. intros H. apply not_elem_of_list_to_map_1. by rewrite <- list_fmap_compose. Qed.

Lemma view_not_in items i : view items !! i = None -> i ∉ ident <$> items.
Proof. intros H%not_elem_of_list_to_map_2. by rewrite <- list_fmap_compose in H. Qed.

Lemma view_app items o : view items !! ident o = None -> view (items ++ [o]) = <[ident o := o]> (view items).
Proof.
  induction items as [|x items IH]; intros H; [done|]. rewrite view_cons in *. apply lookup_insert_None in H as [H Hne].
  cbn [app]. rewrite view_cons, IH by done. by apply insert_insert_ne.
Qed.

Lemma replace_first_none o items : ident o ∉ ident <$> items -> replace_first o items = None.
Proof.
  induction items as [|x items IH]; [done|]. cbn [fmap list_fmap replace_first]. rewrite not_elem_of_cons. intros [Hne H].
  rewrite sameObj_ident, bool_decide_false by done. cbn [andb]. by rewrite IH.
Qed.

Lemma replace_first_spec o items : distinct items ->
  match replace_first o items with
  | Some items' => view items' = <[ident o := o]> (view items) /\ ident <$> items' = ident <$> items
      /\ exists old, view items !! ident o = Some old /\ newVersion o old = true
  | None => forall old, view items !! ident o = Some old -> newVersion o old = false
  end.
Proof.
  unfold distinct. induction items as [|x items IH]; [done|]. cbn [fmap list_fmap replace_first]. intros [Hx Hd]%NoDup_cons.
  specialize (IH Hd). rewrite view_cons, sameObj_ident. case_bool_decide as E; cbn [andb].
  - rewrite E. destruct (newVersion o x) eqn:Hv.
    + split_and!; [by rewrite view_cons, E, insert_insert_eq|by rewrite fmap_cons, E|]. exists x. by rewrite lookup_insert_eq.
    + rewrite replace_first_none by (by rewrite E). cbn. intros old. rewrite lookup_insert_eq. by intros [= <-].
  - rewrite lookup_insert_ne by done. destruct (replace_first o items) as [items'|]; cbn [fmap option_fmap option_map]; [|done].
    destruct IH as (H1 & H2 & H3). split_and!; [|by rewrite fmap_cons, H2|done]. rewrite view_cons, H1. by rewrite insert_insert_ne.
Qed.

Lemma view_filter o items : distinct items -> view (filter (fun item => sameObj o item = false) items) = delete (ident o) (view items)
  /\ distinct (filter (fun item => sameObj o item = false) items).
Proof.
  unfold distinct. induction items as [|x items IH]; [intros _; split; [symmetry; apply delete_empty|constructor]|].
  cbn [fmap list_fmap]. intros [Hx Hd]%NoDup_cons. destruct (IH Hd) as [IH1 IH2]. rewrite view_cons, filter_cons, sameObj_ident.
  case_bool_decide as E.
  - rewrite decide_False by done. split; [|done]. by rewrite IH1, E, delete_insert_eq.
  - rewrite decide_True by done. split; [by rewrite view_cons, IH1, delete_insert_ne|]. cbn [fmap list_fmap]. apply NoDup_cons. split; [|done].
    intros H. apply Hx. apply list_elem_of_fmap in H as (y & -> & Hy). apply list_elem_of_filter in Hy as [_ Hy]. by apply list_elem_of_fmap_2.
Qed.

Lemma update_items_spec t o items : distinct items -> admissible (view items) (t, o) ->
  match update_items t o items with
  | Some items' => view items' = apply_event (view items) (t, o) /\ distinct items'
  | None => apply_event (view items) (t, o) = view items
  end.
Proof.
  intros Hd Ha. destruct t; cbn [update_items apply_event admissible fst snd] in *; [| |by apply view_filter|done|done].
  - split; [by apply view_app|]. unfold distinct. rewrite fmap_app. apply NoDup_app. split_and!; [done| |apply NoDup_singleton].
    intros i Hi ->%list_elem_of_singleton. by apply view_not_in in Ha.
  - pose proof (replace_first_spec o items Hd) as H. destruct (replace_first o items) as [items'|].
    + destruct H as (H1 & H2 & old & H3 & H4). rewrite H3, H4. split; [done|]. unfold distinct. by rewrite H2.
    + destruct (view items !! ident o) as [old|]; [|done]. by rewrite (H old).
Qed.

(** The list of a key is kept with these items. *)
Definition tracks (s : store) (key : string) (items : list Obj) : Prop :=
  usable s (list_slot key) /\ exists c l, holds s (list_slot key) = Some (MarshalEdgeCache c) /\ wf_cache c
    /\ DecodeList (sl (Body c)) = Some l /\ ExtractList l = Some items.

(** The store fails on some write to the key. *)
Definition write_fails (key : string) : Prop := exists d s, snd (StoreList key d s) = false.

Lemma handle_event_tracks key t o s items : tracks s key items -> distinct items -> admissible (view items) (t, o) ->
  exists s' items' ok, handle_event key t o s = Ret (s', ok) /\ tracks s' key items' /\ distinct items'
    /\ (if ok then view items' = apply_event (view items) (t, o) else view items' = view items /\ write_fails key).
Proof.
  intros (Hu & c & l & Hs & Hc & Hl & Hi) Hd Ha. pose proof (update_items_spec t o items Hd Ha) as Hup.
  assert (tracks s key items) as Htr by (split; [done|by exists c, l]).
  assert (update_items t o items = None -> exists s' items' ok, Ret (s, true) = Ret (s', ok) /\ tracks s' key items' /\ distinct items'
    /\ (if ok then view items' = apply_event (view items) (t, o) else view items' = view items /\ write_fails key)) as Hsame.
  { intros E. rewrite E in Hup. by exists s, items, true. }
  unfold handle_event. rewrite (LoadList_holds _ _ _ Hs). cbn [outcome_bind]. rewrite Unmarshal_Marshal_cache, Hl, Hi by done.
  assert (t = Bookmark \/ t = ErrorEvent \/ (t <> Bookmark /\ t <> ErrorEvent)) as [-> | [-> | [Hb He]]] by (destruct t; auto); [by apply Hsame..|].
  replace (match t with Bookmark | ErrorEvent => Ret (s, true) | _ => _ end) with
    (match update_items t o items with
     | None => Ret (s, true)
     | Some items' => match SetList items' l with
       | None => Ret (s, false)
       | Some listObj => match EncodeList (default listObj (SetResourceVersion (default EmptyString (acc_ResourceVersion o)) listObj)) with
         | None => Ret (s, false)
         | Some body => Ret (StoreList key (MarshalEdgeCache (mkEdgeCache (StatusCode c) (ec_Header c) (Some body))) s)
         end
       end
     end) by by destruct t.
  destruct (update_items t o items) as [items'|]; [|by apply Hsame]. destruct Hup as [Hv Hd'].
  destruct (SetList_ok items' l) as (l1 & Hl1 & Hi1). rewrite Hl1.
  set (l2 := default l1 (SetResourceVersion _ l1)).
  assert (ExtractList l2 = Some items') as Hi2.
  { subst l2. destruct (SetResourceVersion _ l1) as [l2|] eqn:E; cbn; [|done]. rewrite <- Hi1. by eapply SetResourceVersion_items. }
  destruct (EncodeList_ok l2) as (b & Hb1 & Hb2 & Hb3). rewrite Hb1. set (d := MarshalEdgeCache _).
  destruct (StoreList key d s) as [s' ok] eqn:Hst. eexists s', (if ok then items' else items), ok. split; [done|].
  assert (usable s' (list_slot key)) as Hu' by (replace s' with (fst (StoreList key d s)) by (by rewrite Hst); by apply usable_StoreList).
  assert (holds s' (list_slot key) = if ok then Some d else holds s (list_slot key)) as Hh.
  { replace s' with (fst (StoreList key d s)) by by rewrite Hst. rewrite StoreList_holds, Hst by done. cbn [snd]. by rewrite bool_decide_true, andb_true_r. }
  destruct ok.
  - split_and!; [|done|done]. split; [done|]. eexists _, l2. split_and!; [exact Hh| |done|done]. by destruct Hc as (? & ? & ?).
  - split_and!; [|done|done|]; [split; [done|]; exists c, l; by rewrite Hh|]. exists d, s. by rewrite Hst.
Qed.

(** C22: the watch refines a map from objects to their last state.  When the
    cache holds a list of distinct objects, the events of a watch, each adding
    an object that is not there, changing or deleting any, leave a list of
    distinct objects that is the map the events describe: a new object is
    added, a newer version replaces the older one, an older one is ignored, a
    deleted object is gone.  An object added again while it is listed, as a
    watch opened again may do, is not such an event: it is then listed twice
    ([added_again_is_there_twice]).  Only a store that fails to write ends the
    watch before the last event, and the list then stands where the events
    before leave it. *)
Theorem watch_refines key events s items : tracks s key items -> distinct items -> admissible_all (view items) events ->
  exists s' items' n, cacheWatch key events s = Ret s' /\ tracks s' key items' /\ distinct items'
    /\ view items' = apply_events (take n events) (view items) /\ (n = length events \/ write_fails key).
Proof.
  revert s items. induction events as [|[t o] events IH]; intros s items Ht Hd Ha; [exists s, items, 0%nat; split_and!; [done..|by auto]|].
  destruct Ha as [Ha Has]. cbn [cacheWatch]. destruct (handle_event_tracks key t o s items Ht Hd Ha) as (s1 & items1 & ok & -> & Ht1 & Hd1 & Hv1).
  cbn [outcome_bind]. destruct ok; [|destruct Hv1 as [Hv1 Hf]; exists s1, items1, 0%nat; split_and!; [done|done|done|exact Hv1|by right]].
  destruct (IH s1 items1 Ht1 Hd1) as (s2 & items2 & n & H1 & H2 & H3 & H4 & H5); [by rewrite Hv1|].
  exists s2, items2, (S n). split_and!; [done|done|done| |destruct H5; [left; cbn; lia|by right]].
  rewrite H4, Hv1. done.
Qed.

End Watching.

(** ** Instances and examples *)

(** A compression that marks its output. *)
Definition marking_gzip : Gzip := {|
  gzipEncode x := Some (31 :: x);
  gzipDecode y := match y with 31 :: x => if bool_decide (Forall byte x) then Some x else None | _ => None end
|}.

Lemma marking_gzip_laws : GzipLaws marking_gzip.
Proof.
  constructor; cbn.
  - intros x. by eexists.
  - intros x y Hx [= <-]. by rewrite bool_decide_true.
  - intros x y. destruct x as [|a x]; [done|]. intros H.
    repeat match type of H with context [match ?a with _ => _ end] => destruct a eqn:?; try done end. simplify_eq. by eapply bool_decide_eq_true_1.
Qed.

(** Objects that are four strings, and a code for lists of them. *)
Fixpoint pos_bits (p : positive) : list Z :=
  match p with xI p => 1 :: pos_bits p | xO p => 0 :: pos_bits p | xH => [] end.
Fixpoint bits_pos (l : list Z) : positive :=
  match l with [] => xH | b :: l => if b =? 1 then xI (bits_pos l) else xO (bits_pos l) end.

Lemma bits_pos_bits p : bits_pos (pos_bits p) = p.
Proof. induction p as [p IH|p IH|]; cbn; [by rewrite IH..|done]. Qed.

Lemma pos_bits_range p : Forall byte (pos_bits p).
Proof. induction p as [p IH|p IH|]; cbn; constructor; try done; unfold byte; lia. Qed.

Definition tuple_unstructured : Unstructured := {|
  Obj := string * string * string * string;
  ListObj := list (string * string * string * string);
  acc_Kind o := Some o.1.1.1;
  acc_Namespace o := Some o.1.1.2;
  acc_Name o := Some o.1.2;
  acc_ResourceVersion o := Some o.2;
  DecodeList bs := decode (bits_pos bs);
  EncodeList l := Some (pos_bits (encode l));
  ExtractList l := Some l;
  SetList items _ := Some items;
  SetResourceVersion _ l := Some l
|}.

Lemma tuple_unstructured_laws : UnstructuredLaws tuple_unstructured.
Proof.
  constructor; cbn.
  - intros o. by eexists _, _, _.
  - intros l. eexists. split_and!; [done|by rewrite bits_pos_bits, decode_encode|apply pos_bits_range].
  - intros items l. by eexists.
  - intros rv l l' [= ->]. done.
Qed.

#[local] Existing Instances MemoryStorage MemoryLaws marking_gzip marking_gzip_laws tuple_unstructured tuple_unstructured_laws.

Definition get_pod : RequestInfo := mkRequestInfo true "/api/v1/namespaces/d/pods/p" "get" "" "v1" "d" "pods" "" "p".
Definition list_pods : RequestInfo := mkRequestInfo true "/api/v1/namespaces/d/pods" "list" "" "v1" "d" "pods" "" "".
Definition kubelet : string := "kubelet/v1.20 (linux/amd64)".

Example keys_ex : cacheKey (getUserAgent kubelet) get_pod = "kubelet/v1.20_d_pods_p_"%string
  /\ listKey (cacheKey (getUserAgent kubelet) list_pods) = "kubelet_v1.20_d_pods___list"%string
  /\ cacheKey (getUserAgent EmptyString) (mkRequestInfo false "/healthz/ping" "get" "" "" "" "" "" "") = "default_-healthz-ping"%string.
Proof. by_compute. Qed.

Definition gzip_header : Header := Some {["Content-Encoding"%string := Some ["gzip"%string]; "Content-Length"%string := Some ["3"%string]; "Vary"%string := Some ["x"%string]]}.

Definition after_list : memoryStorage := mkMemoryStorage ∅ {["k"%string := MarshalEdgeCache (mkEdgeCache 200 (Some {["Vary"%string := Some ["x"%string]]}) (Some [1; 2]))]}.

Lemma gzip_header_wf : wf_header gzip_header.
Proof.
  intros k vv H. assert ((k, vv) ∈ map_to_list (mp gzip_header)) as Hin by by apply elem_of_map_to_list.
  revert k vv H Hin. assert (Forall (fun kv => ascii_only (fst kv) /\ Forall ascii_only (sl (snd kv))) (map_to_list (mp gzip_header))) as Hall.
  { apply (bool_decide_unpack _). vm_compute. exact I. }
  intros k vv _ Hin. by apply (proj1 (Forall_forall _ _) Hall (k, vv)).
Qed.

Example query_after_cache_ex :
  handleCache "k" "list" 200 gzip_header (Bytes (Some [31; 1; 2])) NewMemoryStorage = Ret (after_list, true)
  /\ exists c, handleQuery "k" "list" after_list = Ret (Some c) /\ StatusCode c = 200 /\ plain (ec_Header c) (sl (Body c)) = Some [1; 2].
Proof.
  assert (handleCache "k" "list" 200 gzip_header (Bytes (Some [31; 1; 2])) NewMemoryStorage = Ret (after_list, true)) as H by (vm_compute; reflexivity).
  split; [exact H|].
  destruct (query_after_cache (L := MemoryLaws) "k" "list" 200 gzip_header [31; 1; 2] NewMemoryStorage after_list) as (c & H1 & H2 & _ & _ & H5).
  - right; reflexivity.
  - exact I.
  - split; lia.
  - discriminate.
  - exact gzip_header_wf.
  - repeat constructor; unfold byte; lia.
  - exact H.
  - exists c. split; [exact H1|]. split; [exact H2|]. rewrite H5. vm_compute. reflexivity.
Qed.

Lemma get_pod_object : object_request get_pod.
Proof. constructor; try reflexivity. left. done. Qed.
Lemma list_pods_object : object_request list_pods.
Proof. constructor; try reflexivity. right. auto. Qed.

Lemma other_requests_kept_witness :
  Query kubelet (Some get_pod) (fst (mem_StoreList (cacheKey (getUserAgent kubelet) list_pods) (MarshalEdgeCache (mkEdgeCache 200 (Some ∅) (Some [7]))) NewMemoryStorage))
  = Query kubelet (Some get_pod) NewMemoryStorage.
Proof.
  apply (other_requests_kept (L := MemoryLaws) kubelet list_pods kubelet get_pod 200 (Some ∅) [] (Some [7]) NewMemoryStorage _ true);
    [exact list_pods_object|exact get_pod_object| |exact I|vm_compute; reflexivity].
  intros (_ & _ & _ & H & _). discriminate.
Defined.

Definition pod (name rv : string) : Obj := ("Pod"%string, "d"%string, name, rv).
Definition pods_cache (l : list Obj) : EdgeCache := mkEdgeCache 200 (Some ∅) (Some (pos_bits (encode l))).
Definition pods_store : memoryStorage := mkMemoryStorage ∅ {["k"%string := MarshalEdgeCache (pods_cache [pod "a" "1"; pod "b" "5"])]}.
Definition pod_events : list (event_type * Obj) :=
  [(Added, pod "c" "6"); (Modified, pod "a" "7"); (Modified, pod "b" "4"); (Bookmark, pod "b" "9"); (Deleted, pod "c" "8")].

Lemma pods_tracked : tracks (L := MemoryLaws) pods_store "k" [pod "a" "1"; pod "b" "5"].
Proof.
  split; [exact I|]. exists (pods_cache [pod "a" "1"; pod "b" "5"]), [pod "a" "1"; pod "b" "5"]. split_and!; [reflexivity| |vm_compute; reflexivity|reflexivity].
  split_and!; [split; cbn; lia|intros k vv H; cbn in H; by rewrite lookup_empty in H|apply pos_bits_range].
Qed.

Lemma watch_refines_witness : exists s' items', cacheWatch "k" pod_events pods_store = Ret s' /\ tracks (L := MemoryLaws) s' "k" items'
  /\ view items' = view [pod "a" "7"; pod "b" "5"].
Proof.
  destruct (watch_refines (L := MemoryLaws) "k" pod_events pods_store _ pods_tracked) as (s' & items' & n & H1 & H2 & _ & H4 & H5).
  - unfold distinct. apply (bool_decide_unpack _). vm_compute. exact I.
  - cbn. split_and!; by_compute.
  - exists s', items'. split; [exact H1|]. split; [exact H2|]. destruct H5 as [-> | (d & s & H5)]; [|discriminate]. rewrite H4. by_compute.
Defined.

(** An object that is added again is there twice. *)
Example added_again_is_there_twice : exists s, cacheWatch "k" [(Added, pod "a" "1")] pods_store = Ret s
  /\ holds (StorageLaws := MemoryLaws) s (true, "k"%string) = Some (MarshalEdgeCache (pods_cache [pod "a" "1"; pod "b" "5"; pod "a" "1"])).
Proof. eexists. split; vm_compute; reflexivity. Qed.

(** The group and the query of a request are not part of its key. *)
Example groups_share_a_key : cacheKey kubelet (mkRequestInfo true "/apis/metrics.k8s.io/v1beta1/namespaces/d/pods/p" "get" "metrics.k8s.io" "v1beta1" "d" "pods" "" "p")
  = cacheKey kubelet get_pod.
Proof. reflexivity. Qed.
