(* ===== verification/LiteProxy.v ===== *)
(** * lite-apiserver: the proxy (pkg/lite-apiserver/proxy)

    A request goes to the API server; the body of a response worth keeping is
    copied to the cache while the client reads it ([multiWrite]), and when the
    API server cannot be reached the answer comes from the cache
    ([handlerError]).  The theorems show that the copy is what the client got,
    and that a request answered once is answered the same when the connection
    is gone. *)

From Stdlib Require Import ZArith Lia Ascii String.
From stdpp Require Import base strings gmap numbers sorting list.
From S2P Require Import Prelude.
From S2P Require Import GoStd.
From S2P Require Import GoStrings.
From S2P Require Import GoJson.
From S2P Require Import GoJsonValue.
From S2P Require Import GoJsonStruct.
From S2P Require Import GoBase64.
From S2P Require Import LiteCodec.
From S2P Require Import LiteStorage.
From S2P Require Import LiteCache.

Local Open Scope Z_scope.
Local Open Scope go_scope.

(** ** Requests (proxy.go) *)

Record Request : Type := mkRequest {
  rq_Method : string;
  rq_Path : string;
  rq_Header : Header;
  rq_Body : option (list Z);
  rq_Info : option RequestInfo;
  rq_TokenData : option (list Z)
}.

Definition UserAgent (r : Request) : string := hdr_Get (rq_Header r) "User-Agent".

(** A request for a token of a service account. *)
Definition is_token_request (r : Request) : bool :=
  String.eqb (rq_Method r) "POST" && HasPrefix (rq_Path r) "/api/v1/namespaces" && contains_at (rq_Path r) "serviceaccounts".

(** The body of a token request is kept for the error handler; a body that
    cannot be read leaves the request as it is.  The URL is set elsewhere in
    the request and is the result here. *)
Definition makeDirector (backendUrl : string) (backendPort : Z) (req : Request) : string * Request :=
  ("https://" +:+ backendUrl +:+ ":" +:+ string_of (FormatInt backendPort),
   if is_token_request req then
     match rq_Body req with
     | Some data => mkRequest (rq_Method req) (rq_Path req) (rq_Header req) (rq_Body req) (rq_Info req) (Some data)
     | None => req
     end
   else req).

Definition needCache (r : Request) : bool :=
  match rq_Info r with
  | Some info =>
      IsResourceRequest info && String.eqb (rq_Method r) "GET" && negb (String.eqb (Subresource info) "log")
  | None => String.eqb (rq_Method r) "GET" && HasPrefix (rq_Path r) "/version"
  end.

(** *** Errors of the transport *)

Inductive errno : Type := ECONNREFUSED | ETIMEDOUT | EHOSTUNREACH | ENETUNREACH | ECONNRESET | OtherErrno.

Inductive op_cause : Type := SyscallError (e : option errno) | OtherCause.

Inductive transport_error : Type :=
| Canceled
| DeadlineExceeded
| OpError (timeout : bool) (cause : op_cause)
| OtherNetError (timeout : bool)
| NotNetError.

Definition ignoreCache (r : Request) (err : transport_error) : bool :=
  if negb (needCache r) then true
  else match err with
  | Canceled | DeadlineExceeded => false
  | NotNetError => true
  | OtherNetError timeout => negb timeout
  | OpError timeout cause =>
      if timeout then false
      else match cause with
      | SyscallError (Some e) => match e with OtherErrno => true | _ => false end
      | _ => false
      end
  end.

(** ** Headers (util.go) *)

(** [textproto.CanonicalMIMEHeaderKey]: a key with a byte that no field name has
    stays as it is. *)
Definition token_char (a : ascii) : bool :=
  let b := byte_of a in
  is_digit b || ((65 <=? b) && (b <=? 90)) || ((97 <=? b) && (b <=? 122)) || existsb (Ascii.eqb a) (list_ascii_of_string "!#$%&'*+-.^_`|~").

Fixpoint canonical_loop (upper : bool) (s : string) : string :=
  match s with
  | EmptyString => EmptyString
  | String a s =>
      let b := byte_of a in
      let c := if upper && (97 <=? b) && (b <=? 122) then ascii_of_byte (b - 32)
               else if negb upper && (65 <=? b) && (b <=? 90) then ascii_of_byte (b + 32) else a in
      String c (canonical_loop (Ascii.eqb a "-") s)
  end.

Definition CanonicalHeaderKey (s : string) : string := if all_chars token_char s then canonical_loop true s else s.

(** [Add] to a header that is not nil. *)
Definition add_value (m : gmap string (gslice string)) (k v : string) : gmap string (gslice string) :=
  let k := CanonicalHeaderKey k in <[k := Some (sl (default None (m !! k)) ++ [v])]> m.

Definition CopyHeader `{GoRange} (dst : gmap string (gslice string)) (src : Header) : gmap string (gslice string) :=
  fold_left (fun dst kv => fold_left (fun dst v => add_value dst (fst kv) v) (sl (snd kv)) dst) (go_range (mp src)) dst.

(** [strings.ReplaceAll]: the matches of a pattern that is not empty, from the left. *)
Fixpoint replace_all (fuel : nat) (old new s : string) : string :=
  match fuel with
  | O => s
  | S f =>
      match s with
      | EmptyString => EmptyString
      | String a s' =>
          match trim_prefix_aux old s with
          | Some rest => new +:+ replace_all f old new rest
          | None => String a (replace_all f old new s')
          end
      end
  end.

Definition ReplaceAll (s old new : string) : string := replace_all (String.length s) old new s.

Definition Json : string := "application/json".
Definition Yaml : string := "application/yaml".
Definition Protobuf : string := "application/vnd.kubernetes.protobuf".

(** The request that the handler behind it gets. *)
Definition WithRequestAccept (req : Request) : Request :=
  match rq_Info req with
  | Some info =>
      if String.eqb (rq_Method req) "GET" && IsResourceRequest info then
        let newAccept := ReplaceAll (hdr_Get (rq_Header req) "Accept") Protobuf Json in
        if nonempty newAccept then
          mkRequest (rq_Method req) (rq_Path req) (Some (<["Accept"%string := Some [newAccept]]> (mp (rq_Header req)))) (rq_Body req) (rq_Info req) (rq_TokenData req)
        else req
      else req
  | None => req
  end.

(** ** multiWrite (util.go) *)

(** One result of [Read]: the bytes and how the stream stands after them. *)
Inductive read_end : Type := More | EOF | ReadError.
Record read_result : Type := mkRead { rd_bytes : list Z; rd_end : read_end }.

(** A pipe: what was written, whether its writer is open, and whether anyone
    still reads; a write returns when the reader has taken all of it. *)
Record pipe : Type := mkPipe { p_written : list Z; p_open : bool; p_reading : bool }.

(** [None]: the write never returns. *)
Definition pipe_write (bs : list Z) (p : pipe) : option (pipe * bool) :=
  if p_open p then if p_reading p then Some (mkPipe (p_written p ++ bs) true true, true) else None
  else Some (p, false).

Definition pipe_close (p : pipe) : pipe := mkPipe (p_written p) false (p_reading p).

(** The source, which may fail to close, and the writers. *)
Record multiWrite : Type := mkMultiWrite { mw_close_ok : bool; mw_writes : list pipe }.

Definition mw_Close (w : multiWrite) : multiWrite :=
  if mw_close_ok w then mkMultiWrite true (pipe_close <$> mw_writes w) else w.

(** A pipe that refuses the bytes is closed; the others get them. *)
Fixpoint write_pipes (bs : list Z) (ps : list pipe) : option (list pipe) :=
  match ps with
  | [] => Some []
  | p :: ps =>
      match pipe_write bs p with
      | None => None
      | Some (p', ok) => match write_pipes bs ps with Some ps' => Some ((if ok then p' else pipe_close p') :: ps') | None => None end
      end
  end.

Definition mw_Read (r : read_result) (w : multiWrite) : option (read_result * multiWrite) :=
  match rd_end r with
  | ReadError => Some (r, mw_Close w)
  | _ =>
      if bool_decide (rd_bytes r = []) then Some (r, w)
      else match write_pipes (rd_bytes r) (mw_writes w) with
           | Some ps => Some (r, mkMultiWrite (mw_close_ok w) ps)
           | None => None
           end
  end.

(** [MultiWrite(read, number)]: the writers of [number - 1] pipes, which are read. *)
Definition MultiWrite (close_ok : bool) (number : nat) : option multiWrite :=
  if (number <? 2)%nat then None else Some (mkMultiWrite close_ok (replicate (number - 1) (mkPipe [] true true))).

(** The reverse proxy copies the body to the client, whose connection takes so
    many writes, and closes it. *)
Fixpoint copy_body (reads : list read_result) (accepts : nat) (delivered : list Z) (w : multiWrite) : option (list Z * multiWrite) :=
  match reads with
  | [] => Some (delivered, mw_Close w)
  | r :: reads =>
      match mw_Read r w with
      | None => None
      | Some (r, w) =>
          if bool_decide (rd_bytes r = []) then
            match rd_end r with More => copy_body reads accepts delivered w | _ => Some (delivered, mw_Close w) end
          else match accepts with
          | O => Some (delivered, mw_Close w)
          | S a =>
              match rd_end r with
              | More => copy_body reads a (delivered ++ rd_bytes r) w
              | _ => Some (delivered ++ rd_bytes r, mw_Close w)
              end
          end
      end
  end.

(** What the cache reads from its pipe: all that was written once the writer is
    closed; before that it waits. *)
Definition piped (w : multiWrite) : option (list Z) :=
  match mw_writes w with
  | p :: _ => if p_open p then None else Some (p_written p)
  | [] => None
  end.

(** ** The error handler (proxy.go) *)

(** What the code uses of other code for token requests: [mime], the codecs of
    the scheme and the signer of [go-jose]. *)
Record media_range : Type := mkMediaRange { mr_Type : string; mr_SubType : string }.

Record token_request : Type := mkTokenRequest { BoundObjectRef : option string; tr_Token : string }.

Class TokenCode : Type := {
  ParseMediaType : string -> option string;
  SupportedMediaTypes : list media_range;
  DecodeTokenRequest : string -> list Z -> option token_request;
  EncodeTokenRequest : media_range -> token_request -> option (list Z);
  SignToken : string -> option string;
  ParseAcceptClauses : string -> list media_range
}.

Definition media_type (m : media_range) : string := mr_Type m +:+ "/" +:+ mr_SubType m.

Definition accepts (clause m : media_range) : bool :=
  (String.eqb (mr_Type clause) (mr_Type m) && String.eqb (mr_SubType clause) (mr_SubType m))
  || (String.eqb (mr_Type clause) (mr_Type m) && String.eqb (mr_SubType clause) "*")
  || (String.eqb (mr_Type clause) "*" && String.eqb (mr_SubType clause) "*").

Fixpoint first_accepted (clauses accepted : list media_range) : option media_range :=
  match clauses with
  | [] => None
  | c :: clauses => match list_find (fun m => accepts c m = true) accepted with Some (_, m) => Some m | None => first_accepted clauses accepted end
  end.

Definition parseAccept `{TokenCode} (header : string) (accepted : list media_range) : option media_range :=
  match accepted with
  | a :: _ => if nonempty header then first_accepted (ParseAcceptClauses header) accepted else Some a
  | [] => first_accepted (ParseAcceptClauses header) accepted
  end.

(** The reference of the request is used without a check. *)
Definition getToken `{TokenCode} (t : token_request) : outcome (option token_request) :=
  match BoundObjectRef t with
  | None => Panic "nil pointer dereference"
  | Some name => Ret (match SignToken name with Some tok => Some (mkTokenRequest (Some name) tok) | None => None end)
  end.

(** An answer to the client; a handler that writes nothing answers 200. *)
Record answer : Type := mkAnswer { an_code : Z; an_header : gmap string (gslice string); an_body : list Z }.

Definition empty_answer : answer := mkAnswer 200 ∅ [].

Definition token_answer `{TokenCode} (req : Request) : outcome answer :=
  match ParseMediaType (hdr_Get (rq_Header req) "Content-Type") with
  | None => Ret empty_answer
  | Some mediaType =>
      if existsb (fun m => String.eqb (media_type m) mediaType) SupportedMediaTypes then
        match rq_TokenData req with
        | None => Panic "interface conversion: interface is nil"
        | Some data =>
            match DecodeTokenRequest mediaType data with
            | None => Ret empty_answer
            | Some t =>
                let* t := getToken t in
                match t with
                | None => Ret empty_answer
                | Some t =>
                    match parseAccept (hdr_Get (rq_Header req) "Accept") SupportedMediaTypes with
                    | None => Ret empty_answer
                    | Some m =>
                        match EncodeTokenRequest m t with
                        | None => Ret empty_answer
                        | Some edata => Ret (mkAnswer 200 {["Content-Type"%string := Some [media_type m]]} edata)
                        end
                    end
                end
            end
        end
      else Ret empty_answer
  end.

Section Proxy.
Context `{GoRange} {St : Storage} {G : Gzip} {U : Unstructured} {T : TokenCode}.

Definition readCache (r : Request) (s : store) : outcome (option EdgeCache) := Query (UserAgent r) (rq_Info r) s.

(** [err] is what went wrong and [text] what its [Error] says. *)
Definition handlerError (req : Request) (err : transport_error) (text : list Z) (s : store) : outcome answer :=
  if is_token_request req then token_answer req
  else if ignoreCache req err then Ret (mkAnswer 503 ∅ text)
  else
    let* data := readCache req s in
    match data with
    | None => Ret (mkAnswer 404 ∅ text)
    | Some data => Ret (mkAnswer (StatusCode data) (CopyHeader ∅ (ec_Header data)) (sl (Body data)))
    end.

(** [modifyResponse]: whether a response is copied to the cache. *)
Definition copies_response (req : Request) (statusCode : Z) (header : Header) : bool :=
  needCache req && (statusCode =? 200) &&
  match rq_Info req with
  | None => false
  | Some info =>
      negb (String.eqb (Verb info) "watch")
      || match ParseMediaType (hdr_Get header "Content-Type") with
         | None => false
         | Some mediaType => String.eqb mediaType Json || String.eqb mediaType Yaml
         end
  end.

(** A response passes: what the client gets and the store afterwards.  The
    cache is written once the copy has ended; [events] are those of its bytes.
    [None]: the client is never answered. *)
Definition pass_response (req : Request) (statusCode : Z) (header : Header) (reads : list read_result) (accepts : nat) (close_ok : bool)
    (events : list Z -> list (event_type * Obj)) (s : store) : option (list Z * outcome (store * bool)) :=
  if copies_response req statusCode header then
    match MultiWrite close_ok 2 with
    | None => None
    | Some w =>
        match copy_body reads accepts [] w with
        | None => None
        | Some (delivered, w) =>
            Some (delivered,
                  match piped w with
                  | None => Ret (s, true)
                  | Some bs => Cache (UserAgent req) (rq_Info req) statusCode header (events bs) (Some bs) s
                  end)
        end
    end
  else
    match copy_body reads accepts [] (mkMultiWrite close_ok []) with
    | None => None
    | Some (delivered, _) => Some (delivered, Ret (s, true))
    end.

End Proxy.

(** ** The copy is what the client got *)

(** A body that is read to its end: the last read says so. *)
Fixpoint complete (reads : list read_result) : Prop :=
  match reads with
  | [] => False
  | [r] => rd_end r = EOF
  | r :: reads => rd_end r = More /\ complete reads
  end.

Definition body_of (reads : list read_result) : list Z := concat (rd_bytes <$> reads).

Lemma mw_Read_open r pw : rd_end r <> ReadError -> mw_Read r (mkMultiWrite true [mkPipe pw true true])
  = Some (r, mkMultiWrite true [mkPipe (pw ++ rd_bytes r) true true]).
Proof.
  intros Hr. unfold mw_Read. destruct (rd_end r) eqn:E; [| |done]; case_bool_decide as Eb; cbn; by rewrite ?Eb, ?app_nil_r.
Qed.

Lemma copy_complete reads accepts d pw : complete reads -> (length reads <= accepts)%nat ->
  copy_body reads accepts d (mkMultiWrite true [mkPipe pw true true])
  = Some (d ++ body_of reads, mkMultiWrite true [mkPipe (pw ++ body_of reads) false true]).
Proof.
  revert accepts d pw. induction reads as [|r reads IH]; intros accepts d pw Hc Ha; [done|].
  assert (rd_end r <> ReadError) as Hne by (destruct reads; [cbn in Hc; congruence|destruct Hc; congruence]).
  cbn [copy_body]. rewrite mw_Read_open by done. cbn [length] in Ha.
  change (body_of (r :: reads)) with (rd_bytes r ++ body_of reads). rewrite !app_assoc.
  destruct reads as [|r' reads].
  - cbn in Hc. rewrite Hc. cbn [body_of fmap list_fmap concat]. rewrite !app_nil_r.
    case_bool_decide as Eb; [by rewrite Eb, !app_nil_r|]. destruct accepts; [lia|done].
  - destruct Hc as [Hm Hc]. rewrite Hm. case_bool_decide as Eb.
    + rewrite Eb, !app_nil_r. apply IH; [done|lia].
    + destruct accepts; [lia|]. apply IH; [done|lia].
Qed.

(** ** Headers that are copied *)

Definition values (m : gmap string (gslice string)) (k : string) : list string := sl (default None (m !! k)).

Lemma values_add m k v k' : CanonicalHeaderKey k = k -> values (add_value m k v) k' = if bool_decide (k' = k) then values m k' ++ [v] else values m k'.
Proof.
  intros Hk. unfold values, add_value. cbv zeta. rewrite Hk, lookup_insert_cond. by case_bool_decide as E; [rewrite E|].
Qed.

Lemma values_add_all m k vs k' : CanonicalHeaderKey k = k ->
  values (fold_left (fun dst v => add_value dst k v) vs m) k' = if bool_decide (k' = k) then values m k' ++ vs else values m k'.
Proof.
  intros Hk. revert m. induction vs as [|v vs IH]; intros m; cbn [fold_left]; [case_bool_decide; by rewrite ?app_nil_r|].
  rewrite IH, values_add by done. case_bool_decide; [|done]. by rewrite <- app_assoc.
Qed.

Lemma values_copied (l : list (string * gslice string)) m k : NoDup l.*1 -> Forall (fun kv => CanonicalHeaderKey (fst kv) = fst kv) l ->
  values (fold_left (fun dst kv => fold_left (fun dst v => add_value dst (fst kv) v) (sl (snd kv)) dst) l m) k
  = values m k ++ values (list_to_map l) k.
Proof.
  intros Hn Hl. revert m. induction l as [|[k0 vv] l IH]; intros m; [by rewrite list_to_map_nil; unfold values at 3; rewrite lookup_empty, app_nil_r|].
  apply NoDup_cons in Hn as [Hk Hn]. apply Forall_cons in Hl as [Hc Hl]. cbn [fold_left fst snd] in *. rewrite IH, values_add_all, list_to_map_cons by done.
  cbn [fst snd]. unfold values at 5. rewrite lookup_insert_cond. case_bool_decide as E; [|done]. subst k0.
  replace (values (list_to_map l) k) with (@nil string); [by rewrite app_nil_r|].
  unfold values. by rewrite not_elem_of_list_to_map_1.
Qed.

Definition canonical_header (h : Header) : Prop := forall k vv, mp h !! k = Some vv -> CanonicalHeaderKey k = k.

Lemma CopyHeader_values `{GoRange} h k : canonical_header h -> values (CopyHeader ∅ h) k = values (mp h) k.
Proof.
  intros Hc. unfold CopyHeader. rewrite values_copied.
  - rewrite list_to_map_go_range. unfold values at 1. by rewrite lookup_empty.
  - apply NoDup_go_range_fst.
  - apply Forall_forall. intros [k0 vv] Hk%elem_of_go_range. by eapply Hc.
Qed.

Lemma hdr_Get_values h k : hdr_Get h k = default EmptyString (head (values (mp h) k)).
Proof. unfold hdr_Get, values. by destruct (mp h !! k). Qed.

Lemma plain_values `{Gzip} h h' body : values (mp h) "Content-Encoding" = values (mp h') "Content-Encoding" -> plain h body = plain h' body.
Proof. intros E. unfold plain. by rewrite !hdr_Get_values, E. Qed.

Lemma other_fields_values h h' k : other_fields h = other_fields h' -> k <> "Content-Length"%string -> k <> "Content-Encoding"%string ->
  values (mp h) k = values (mp h') k.
Proof.
  intros E Hl He. assert (forall h0 : Header, values (mp (other_fields h0)) k = values (mp h0) k) as Hv.
  { intros [m|]; [|done]. unfold values, other_fields. cbn. by rewrite !lookup_delete_ne. }
  by rewrite <- (Hv h), <- (Hv h'), E.
Qed.

(** ** Answers without a connection *)

Section Offline.
Context `{GoRange} {St : Storage} {L : StorageLaws St} {G : Gzip} {GL : GzipLaws G} {U : Unstructured} {T : TokenCode}.

Lemma copies_response_get req code header : copies_response req code header = true ->
  code = 200 /\ is_token_request req = false /\ exists info, rq_Info req = Some info /\ needCache req = true.
Proof.
  unfold copies_response. intros Hc. apply andb_true_iff in Hc as [Hc Hi]. apply andb_true_iff in Hc as [Hn Hcode]. apply Z.eqb_eq in Hcode.
  destruct (rq_Info req) as [info|] eqn:E; [|done]. split; [done|]. split; [|by exists info].
  unfold needCache in Hn. rewrite E in Hn. unfold is_token_request. do 2 (apply andb_true_iff in Hn as [Hn ?]).
  by destruct (String.eqb_spec (rq_Method req) "GET") as [->|].
Qed.

(** C23: what the client got once it gets again without a connection.  When the
    response to a get or a list has passed to the client, read to its end, and
    was cached, the same request that later meets an error of the network is
    answered with the status, the header fields and the body that the client
    got before, up to the length and the compression of the body; and the body
    that the client got was the whole body of the response. *)
Theorem offline_answer req info header reads accepts events s s' delivered err text :
  rq_Info req = Some info -> Verb info = "get"%string \/ Verb info = "list"%string ->
  usable s (slot_for (Verb info) (cacheKey (getUserAgent (UserAgent req)) info)) ->
  header <> None -> wf_header header -> canonical_header header -> Forall byte (body_of reads) ->
  copies_response req 200 header = true -> complete reads -> (length reads <= accepts)%nat ->
  pass_response req 200 header reads accepts true events s = Some (delivered, Ret (s', true)) ->
  ignoreCache req err = false ->
  delivered = body_of reads
  /\ exists a, handlerError req err text s' = Ret a /\ an_code a = 200
       /\ (forall k, k <> "Content-Length"%string -> k <> "Content-Encoding"%string -> values (an_header a) k = values (mp header) k)
       /\ plain (Some (an_header a)) (an_body a) = plain header delivered.
Proof.
  intros Hinfo Hv Hu Hh Hwf Hcan Hb Hcopy Hcomp Hacc Hp Hig. unfold pass_response in Hp. rewrite Hcopy in Hp.
  cbn [MultiWrite Nat.ltb Nat.leb Nat.sub replicate] in Hp. rewrite copy_complete in Hp by done. cbn [app piped mw_writes p_open p_written] in Hp.
  injection Hp as Hd Hs. split; [done|]. subst delivered.
  destruct (copies_response_get _ _ _ Hcopy) as (_ & Htok & _).
  unfold Cache in Hs. rewrite Hinfo in Hs. set (key := cacheKey _ info) in *.
  assert (String.eqb (Verb info) "watch" = false) as Hnw by (destruct Hv as [-> | ->]; done). rewrite Hnw in Hs.
  destruct (query_after_cache key (Verb info) 200 header (body_of reads) s s') as (c & Hq & Hc & Ho & Hl & Hpl); try done.
  unfold handlerError. rewrite Htok, Hig. unfold readCache, Query. rewrite Hinfo. fold key. rewrite Hq. cbn [outcome_bind].
  eexists. split; [done|]. cbn [an_code an_header an_body].
  assert (canonical_header (ec_Header c)) as Hcc.
  { intros k vv Hk. destruct (decide (k = "Content-Length"%string)) as [->|Hkl]; [reflexivity|].
    destruct (decide (k = "Content-Encoding"%string)) as [->|Hke]; [reflexivity|].
    apply (Hcan k vv). assert (mp (other_fields (ec_Header c)) !! k = Some vv) as Hk2
      by (destruct (ec_Header c) as [m|]; [|done]; cbn in *; by rewrite !lookup_delete_ne).
    rewrite Ho in Hk2. destruct header as [m|]; [|done]. cbn in *. by rewrite !lookup_delete_ne in Hk2. }
  split_and!; [done| |].
  - intros k Hkl Hke. rewrite CopyHeader_values by done. by apply other_fields_values.
  - rewrite <- Hpl. apply plain_values. exact (CopyHeader_values _ _ Hcc).
Qed.

(** A body whose reading fails is cached as if it were whole: the pipe is closed
    without an error, and the bytes of the last read are not in it. *)
Lemma truncated_copy reads accepts r : Forall (fun r => rd_end r = More) reads -> rd_end r = ReadError -> (length reads < accepts)%nat ->
  exists w, copy_body (reads ++ [r]) accepts [] (mkMultiWrite true [mkPipe [] true true]) = Some (body_of reads ++ rd_bytes r, w)
    /\ piped w = Some (body_of reads).
Proof.
  intros Hm Hr. enough (forall d pw, (length reads < accepts)%nat ->
    exists w, copy_body (reads ++ [r]) accepts d (mkMultiWrite true [mkPipe pw true true]) = Some (d ++ body_of reads ++ rd_bytes r, w)
      /\ piped w = Some (pw ++ body_of reads)) as Hg by (apply (Hg [] [])).
  revert accepts. induction reads as [|x reads IH]; intros accepts d pw Ha.
  - cbn [app copy_body]. unfold mw_Read. rewrite Hr. change (body_of []) with (@nil Z). rewrite !app_nil_r, app_nil_l.
    rewrite Hr. case_bool_decide as Eb; [rewrite Eb, app_nil_r; eexists; split; reflexivity|].
    destruct accepts; [cbn in Ha; lia|]. eexists; split; reflexivity.
  - apply Forall_cons in Hm as [Hx Hm]. cbn [app copy_body length] in *. rewrite mw_Read_open by congruence.
    change (body_of (x :: reads)) with (rd_bytes x ++ body_of reads). rewrite Hx. rewrite !app_assoc. case_bool_decide as Eb.
    + rewrite Eb, !app_nil_r. rewrite <- !app_assoc. apply IH; [done|lia].
    + destruct accepts; [lia|]. rewrite <- (app_assoc (d ++ rd_bytes x)). apply IH; [done|lia].
Qed.

(** When the cache has stopped reading its pipe, the client waits for ever. *)
Lemma stopped_reader_blocks r reads accepts d pw : rd_end r <> ReadError -> rd_bytes r <> [] ->
  copy_body (r :: reads) accepts d (mkMultiWrite true [mkPipe pw true false]) = None.
Proof.
  intros Hr Hb. cbn [copy_body]. unfold mw_Read. rewrite bool_decide_false by done. by destruct (rd_end r).
Qed.

(** A request that has no request info needs the cache if it asks for the
    version, but what it gets is neither copied nor found. *)
Lemma version_not_cached code header req err text s : rq_Info req = None ->
  copies_response req code header = false
  /\ (ignoreCache req err = false -> is_token_request req = false -> handlerError req err text s = Ret (mkAnswer 404 ∅ text)).
Proof.
  intros Hi. split.
  - unfold copies_response. rewrite Hi. by rewrite andb_false_r.
  - intros He Ht. unfold handlerError, readCache, Query. by rewrite Ht, He, Hi.
Qed.

End Offline.

(** ** A pass and an answer *)

#[local] Existing Instances MemoryStorage MemoryLaws marking_gzip marking_gzip_laws tuple_unstructured tuple_unstructured_laws range_in_key_order.

(** No codec is known. *)
Definition no_tokens : TokenCode := {|
  ParseMediaType _ := None; SupportedMediaTypes := []; DecodeTokenRequest _ _ := None; EncodeTokenRequest _ _ := None;
  SignToken _ := None; ParseAcceptClauses _ := []
|}.
#[local] Existing Instance no_tokens.

Definition get_request : Request := mkRequest "GET" "/api/v1/namespaces/d/pods/p" (Some {["User-Agent"%string := Some [kubelet]]}) None (Some get_pod) None.
Definition pod_header : Header := Some {["Content-Length"%string := Some ["3"%string]; "Vary"%string := Some ["x"%string]]}.
Definition pod_reads : list read_result := [mkRead [1; 2] More; mkRead [] More; mkRead [3] EOF].
Definition pod_stored : memoryStorage :=
  mkMemoryStorage {["kubelet/v1.20_d_pods_p_"%string := MarshalEdgeCache (mkEdgeCache 200 (Some {["Vary"%string := Some ["x"%string]]}) (Some [1; 2; 3]))]} ∅.

Lemma header_check (P : string -> gslice string -> Prop) (m : gmap string (gslice string)) :
  Forall (fun kv => P (fst kv) (snd kv)) (map_to_list m) -> forall k vv, m !! k = Some vv -> P k vv.
Proof. intros Hall k vv Hk. apply elem_of_map_to_list in Hk. by apply (proj1 (Forall_forall _ _) Hall (k, vv)). Qed.

Lemma offline_answer_witness :
  pass_response get_request 200 pod_header pod_reads 5 true (fun _ => []) NewMemoryStorage = Some ([1; 2; 3], Ret (pod_stored, true))
  /\ exists a, handlerError get_request (OpError false (SyscallError (Some ECONNREFUSED))) [] pod_stored = Ret a
       /\ an_code a = 200 /\ plain (Some (an_header a)) (an_body a) = Some [1; 2; 3].
Proof.
  assert (pass_response get_request 200 pod_header pod_reads 5 true (fun _ => []) NewMemoryStorage = Some ([1; 2; 3], Ret (pod_stored, true))) as Hp
    by (vm_compute; reflexivity).
  split; [exact Hp|].
  destruct (offline_answer (L := MemoryLaws) get_request get_pod pod_header pod_reads 5 (fun _ => []) NewMemoryStorage pod_stored [1; 2; 3]
    (OpError false (SyscallError (Some ECONNREFUSED))) []) as (_ & a & H1 & H2 & _ & H4).
  - reflexivity.
  - left. reflexivity.
  - exact I.
  - discriminate.
  - refine (header_check (fun k vv => ascii_only k /\ Forall ascii_only (sl vv)) (mp pod_header) _). apply (bool_decide_unpack _). vm_compute. exact I.
  - refine (header_check (fun k _ => CanonicalHeaderKey k = k) (mp pod_header) _). apply (bool_decide_unpack _). vm_compute. exact I.
  - repeat constructor; unfold byte; lia.
  - vm_compute. reflexivity.
  - cbn. auto.
  - cbn. lia.
  - exact Hp.
  - reflexivity.
  - exists a. split; [exact H1|]. split; [exact H2|]. rewrite H4. vm_compute. reflexivity.
Defined.
