(* ===== verification/LiteCerts.v ===== *)
(** * lite-apiserver: certificates, transports and proxies (pkg/lite-apiserver/cert, transport, proxy/handler.go)

    The certificate manager reloads the configured key pairs and announces a
    new or changed certificate by its common name; the transport manager makes
    a transport for a new name, closes the connections of a changed one, and
    changes the network interface of a transport; the handler makes a proxy for
    every transport announced to it, and serves a request with the proxy of its
    client certificate.  The three run concurrently and talk over channels.
    The theorem shows that once the channels are empty every certificate has a
    proxy with the current transport of its name. *)

From Stdlib Require Import ZArith Lia Ascii String.
From stdpp Require Import base strings gmap numbers sorting list.
From S2P Require Import Prelude.
From S2P Require Import GoStd.
From S2P Require Import GoStrings.
From S2P Require Import GoJsonStruct.

(** ** Certificates (cert_mgr.go) *)

(** What is used of a certificate: its leaf's common name, its signature and
    whether it has expired. *)
Record certificate : Type := mkCertificate { ct_CommonName : string; ct_Signature : string; ct_expired : bool }.

#[export] Instance certificate_eq_dec : EqDecision certificate.
Proof. solve_decision. Defined.

(** A key pair that [tls.LoadX509KeyPair] and [x509.ParseCertificate] take; a
    certificate without a common name is an error as well. *)
Definition loadCert (parsed : option certificate) : option (certificate * string) :=
  match parsed with
  | None => None
  | Some c => if nonempty (ct_CommonName c) then Some (c, ct_CommonName c) else None
  end.

Record CertManager : Type := mkCertManager {
  fastReload : bool;
  certMap : gmap string certificate;
  certChannel : list string
}.

Definition NewCertManager : CertManager := mkCertManager false ∅ [].

Definition updateCert (commonName : string) (c : certificate) (cm : CertManager) : CertManager :=
  mkCertManager (fastReload cm) (<[commonName := c]> (certMap cm)) (certChannel cm).

Definition announce (commonName : string) (cm : CertManager) : CertManager :=
  mkCertManager (fastReload cm) (certMap cm) (certChannel cm ++ [commonName]).

(** One reload after [Init]: every pair that loads is put into the map. *)
Fixpoint init_loop (pairs : list (option certificate)) (cm : CertManager) (fast : bool) : CertManager * bool :=
  match pairs with
  | [] => (cm, fast)
  | p :: pairs =>
      match loadCert p with
      | None => init_loop pairs cm true
      | Some (c, name) => init_loop pairs (updateCert name c cm) (fast || ct_expired c)
      end
  end.

Definition CertManager_Init (pairs : list (option certificate)) (cm : CertManager) : CertManager :=
  let (cm, fast) := init_loop pairs cm false in mkCertManager fast (certMap cm) (certChannel cm).

Definition handleCertUpdate (c : certificate) (commonName : string) (cm : CertManager) : CertManager :=
  match certMap cm !! commonName with
  | None => announce commonName (updateCert commonName c cm)
  | Some old => if String.eqb (ct_Signature old) (ct_Signature c) then cm else announce commonName (updateCert commonName c cm)
  end.

Fixpoint reload_loop (pairs : list (option certificate)) (cm : CertManager) (fast : bool) : CertManager * bool :=
  match pairs with
  | [] => (cm, fast)
  | p :: pairs =>
      match loadCert p with
      | None => reload_loop pairs cm true
      | Some (c, name) => reload_loop pairs (handleCertUpdate c name cm) (fast || ct_expired c)
      end
  end.

(** A tick of the timer. *)
Definition CertManager_reload (pairs : list (option certificate)) (cm : CertManager) : CertManager :=
  let (cm, fast) := reload_loop pairs cm false in mkCertManager fast (certMap cm) (certChannel cm).

(** In seconds. *)
Definition getReloadDuration (cm : CertManager) : Z := if fastReload cm then 1%Z else 1800%Z.

Definition GetCert (commonName : string) (cm : CertManager) : option certificate := certMap cm !! commonName.

(** ** Transports (transport_mgr.go) *)

(** A transport: a number of its own, the common name whose certificate it
    presents, the interface it was made for, and how often its connections were
    closed. *)
Record EdgeTransport : Type := mkEdgeTransport { et_id : nat; et_name : string; NetworkInterface : string; et_closed : nat }.

Record TransportManager : Type := mkTransportManager {
  transportMap : gmap string EdgeTransport;
  transportChannel : list string;
  next_transport : nat
}.

(** What the network answers: whether the API server is healthy over the default
    route, and over an interface, if that has an address. *)
Record network : Type := mkNetwork { default_healthy : bool; interface_healthy : string -> option bool }.

Definition defaultNetworkInterface : string := "default".

Fixpoint first_healthy (net : network) (ifs : list string) : option string :=
  match ifs with
  | [] => None
  | i :: ifs => match interface_healthy net i with Some true => Some i | _ => first_healthy net ifs end
  end.

(** The interface of the transport that [getTransport] makes; [conf] is the
    option of the network interfaces.  [strings.Split] gives one empty string
    for the empty option only. *)
Definition chosen_interface (conf : string) (net : network) : option string :=
  if nonempty conf then
    if default_healthy net then Some defaultNetworkInterface
    else
      let netIfList := split_on "," conf in
      if bool_decide (netIfList = [EmptyString]) then None
      else Some (default EmptyString (first_healthy net netIfList))
  else Some EmptyString.

Definition getTransport (conf : string) (net : network) (commonName : string) (tm : TransportManager) : option EdgeTransport * TransportManager :=
  match chosen_interface conf net with
  | None => (None, tm)
  | Some i => (Some (mkEdgeTransport (next_transport tm) commonName i 0), mkTransportManager (transportMap tm) (transportChannel tm) (S (next_transport tm)))
  end.

Definition updateTransport (commonName : string) (t : EdgeTransport) (tm : TransportManager) : TransportManager :=
  mkTransportManager (<[commonName := t]> (transportMap tm)) (transportChannel tm) (next_transport tm).

Definition inform (commonName : string) (tm : TransportManager) : TransportManager :=
  mkTransportManager (transportMap tm) (transportChannel tm ++ [commonName]) (next_transport tm).

Definition CloseAll (t : EdgeTransport) : EdgeTransport := mkEdgeTransport (et_id t) (et_name t) (NetworkInterface t) (S (et_closed t)).

(** A name from the certificate channel. *)
Definition handle_cert (conf : string) (net : network) (commonName : string) (tm : TransportManager) : TransportManager :=
  match transportMap tm !! commonName with
  | None =>
      let (t, tm) := getTransport conf net commonName tm in
      match t with
      | None => tm
      | Some t => inform commonName (updateTransport commonName t tm)
      end
  | Some old => mkTransportManager (<[commonName := CloseAll old]> (transportMap tm)) (transportChannel tm) (next_transport tm)
  end.

(** One name of the periodic check of the interfaces. *)
Definition check_interface (conf : string) (net : network) (commonName : string) (tm : TransportManager) : TransportManager :=
  match transportMap tm !! commonName with
  | None => tm
  | Some old =>
      let (t, tm) := getTransport conf net commonName tm in
      match t with
      | None => tm
      | Some t => if String.eqb (NetworkInterface t) (NetworkInterface old) then tm else inform commonName (updateTransport commonName t tm)
      end
  end.

Definition GetTransport (deflt : EdgeTransport) (commonName : string) (tm : TransportManager) : EdgeTransport :=
  if nonempty commonName then default deflt (transportMap tm !! commonName) else deflt.

(** [Init]: a transport for every certificate. *)
Definition TransportManager_Init `{GoRange} (conf : string) (net : network) (cm : CertManager) (tm : TransportManager) : TransportManager :=
  fold_left (fun tm kv =>
    let (t, tm) := getTransport conf net (fst kv) tm in
    match t with None => tm | Some t => updateTransport (fst kv) t tm end) (go_range (certMap cm)) tm.

(** ** Proxies (handler.go) *)

(** A proxy is known by the transport it refers to. *)
Definition proxy : Type := nat * string.
Definition NewEdgeReverseProxy (t : EdgeTransport) : proxy := (et_id t, et_name t).

Definition initProxies (tm : TransportManager) : gmap string proxy := NewEdgeReverseProxy <$> transportMap tm.

Definition add_proxy (deflt : EdgeTransport) (commonName : string) (tm : TransportManager) (m : gmap string proxy) : gmap string proxy :=
  <[commonName := NewEdgeReverseProxy (GetTransport deflt commonName tm)]> m.

(** The certificates the client presented, each with whether it is a CA. *)
Definition client_name (certs : list (string * bool)) : string :=
  match list_find (fun c => snd c = false) certs with Some (_, (name, _)) => name | None => EmptyString end.

Definition getEdgeReverseProxy (deflt : EdgeTransport) (commonName : string) (m : gmap string proxy) : proxy :=
  if nonempty commonName then default (NewEdgeReverseProxy deflt) (m !! commonName) else NewEdgeReverseProxy deflt.

Definition ServeHTTP (deflt : EdgeTransport) (certs : list (string * bool)) (m : gmap string proxy) : proxy :=
  getEdgeReverseProxy deflt (client_name certs) m.

(** ** The three together *)

Record proxies : Type := mkProxies { px_certs : CertManager; px_transports : TransportManager; px_proxies : gmap string proxy }.

Section Pipeline.
Context (conf : string) (deflt : EdgeTransport).

Inductive pipeline_step : proxies -> proxies -> Prop :=
| step_reload pairs cm tm m : pipeline_step (mkProxies cm tm m) (mkProxies (CertManager_reload pairs cm) tm m)
| step_cert name rest net cm tm m : certChannel cm = name :: rest ->
    pipeline_step (mkProxies cm tm m) (mkProxies (mkCertManager (fastReload cm) (certMap cm) rest) (handle_cert conf net name tm) m)
| step_interface name net cm tm m : is_Some (certMap cm !! name) -> conf <> EmptyString ->
    pipeline_step (mkProxies cm tm m) (mkProxies cm (check_interface conf net name tm) m)
| step_proxy name rest cm tm m : transportChannel tm = name :: rest ->
    pipeline_step (mkProxies cm tm m)
      (mkProxies cm (mkTransportManager (transportMap tm) rest (next_transport tm)) (add_proxy deflt name tm m)).

Definition pipeline_start `{GoRange} (pairs : list (option certificate)) (net : network) : proxies :=
  let cm := CertManager_Init pairs NewCertManager in
  let tm := TransportManager_Init conf net cm (mkTransportManager ∅ [] 0) in
  mkProxies cm tm (initProxies tm).

(** ** The invariant *)

(** Names whose certificate waits for a transport, and names whose transport
    waits for a proxy, are in the channels. *)
Record pipeline_inv (px : proxies) : Prop := {
  pi_named n c : certMap (px_certs px) !! n = Some c -> n <> EmptyString;
  pi_cert n c : certMap (px_certs px) !! n = Some c -> is_Some (transportMap (px_transports px) !! n) \/ n ∈ certChannel (px_certs px);
  pi_channel n : n ∈ certChannel (px_certs px) -> is_Some (certMap (px_certs px) !! n);
  pi_known n t : transportMap (px_transports px) !! n = Some t -> et_name t = n /\ is_Some (certMap (px_certs px) !! n);
  pi_proxy n t : transportMap (px_transports px) !! n = Some t ->
    px_proxies px !! n = Some (NewEdgeReverseProxy t) \/ n ∈ transportChannel (px_transports px);
  pi_informed n : n ∈ transportChannel (px_transports px) -> is_Some (transportMap (px_transports px) !! n);
  pi_proxies n r : px_proxies px !! n = Some r -> is_Some (transportMap (px_transports px) !! n)
}.

(** What a reload does to the map and the channel. *)
Record grows (cm cm' : CertManager) : Prop := {
  gr_keeps n : is_Some (certMap cm !! n) -> is_Some (certMap cm' !! n);
  gr_channel n : n ∈ certChannel cm -> n ∈ certChannel cm';
  gr_new n : is_Some (certMap cm' !! n) -> is_Some (certMap cm !! n) \/ (n <> EmptyString /\ n ∈ certChannel cm');
  gr_sent n : n ∈ certChannel cm' -> n ∈ certChannel cm \/ is_Some (certMap cm' !! n)
}.

Lemma grows_refl cm : grows cm cm.
Proof. constructor; auto. Qed.

Lemma grows_trans a b c : grows a b -> grows b c -> grows a c.
Proof.
  intros [A1 A2 A3 A4] [B1 B2 B3 B4]. constructor; auto.
  - intros n Hn. destruct (B3 n Hn) as [H|H]; [|by right]. destruct (A3 n H) as [H'|[H1 H2]]; [by left|right; auto].
  - intros n Hn. destruct (B4 n Hn) as [H|H]; [|by right]. destruct (A4 n H); auto.
Qed.

Lemma loadCert_named p c n : loadCert p = Some (c, n) -> n <> EmptyString.
Proof. unfold loadCert. destruct p as [c'|]; [|done]. unfold nonempty. destruct (String.eqb_spec (ct_CommonName c') EmptyString); [done|]. by intros [= _ <-]. Qed.

Lemma handleCertUpdate_grows c n cm : n <> EmptyString -> grows cm (handleCertUpdate c n cm).
Proof.
  intros Hn. unfold handleCertUpdate. assert (grows cm (announce n (updateCert n c cm))) as Hg.
  { constructor; cbn; intros m.
    - intros Hm. destruct (decide (m = n)) as [->|]; [rewrite lookup_insert_eq; by eexists|by rewrite lookup_insert_ne].
    - rewrite elem_of_app. auto.
    - rewrite elem_of_app, list_elem_of_singleton. destruct (decide (m = n)) as [->|]; [auto|]. rewrite lookup_insert_ne by done. auto.
    - rewrite elem_of_app, list_elem_of_singleton. intros [H|H]; [auto|]. subst m. right. rewrite lookup_insert_eq. by eexists. }
  destruct (certMap cm !! n) as [old|]; [|done]. destruct (String.eqb _ _); [apply grows_refl|done].
Qed.

Lemma reload_loop_grows pairs cm fast : grows cm (fst (reload_loop pairs cm fast)).
Proof.
  revert cm fast. induction pairs as [|p pairs IH]; intros cm fast; [apply grows_refl|]. cbn [reload_loop].
  destruct (loadCert p) as [[c n]|] eqn:E; [|apply IH]. eapply grows_trans; [|apply IH]. eapply handleCertUpdate_grows, loadCert_named, E.
Qed.

Lemma reload_grows pairs cm : grows cm (CertManager_reload pairs cm).
Proof.
  unfold CertManager_reload. pose proof (reload_loop_grows pairs cm false) as H. destruct (reload_loop pairs cm false) as [cm' fast].
  destruct H. constructor; cbn; auto.
Qed.

(** [getTransport] never fails: a list of interfaces that is not empty never
    splits into one empty name. *)
Lemma chosen_interface_some net : exists i, chosen_interface conf net = Some i.
Proof.
  unfold chosen_interface, nonempty. destruct (String.eqb_spec conf EmptyString) as [E|E]; cbn [negb]; [by eexists|].
  destruct (default_healthy net); [by eexists|]. rewrite bool_decide_false; [by eexists|].
  intros H. destruct E. by rewrite <- (join_split "," conf), H.
Qed.

Lemma getTransport_made net n tm : exists t, fst (getTransport conf net n tm) = Some t /\ et_name t = n
  /\ transportMap (snd (getTransport conf net n tm)) = transportMap tm /\ transportChannel (snd (getTransport conf net n tm)) = transportChannel tm.
Proof. unfold getTransport. destruct (chosen_interface_some net) as [i ->]. by eexists. Qed.

(** A transport that is replaced, or new, and announced. *)
Lemma inv_inform cm cm' tm m n t k : pipeline_inv (mkProxies cm tm m) -> certMap cm' = certMap cm -> is_Some (certMap cm !! n) -> et_name t = n ->
  (forall x, x ∈ certChannel cm' -> x ∈ certChannel cm) -> (forall x, x ∈ certChannel cm -> x = n \/ x ∈ certChannel cm') ->
  pipeline_inv (mkProxies cm' (mkTransportManager (<[n := t]> (transportMap tm)) (transportChannel tm ++ [n]) k) m).
Proof.
  intros [H1 H2 H3 H4 H5 H6 H7] Ec Hn Ht Hs Hr. constructor; cbn in *; rewrite ?Ec.
  - done.
  - intros x c Hx. destruct (decide (x = n)) as [->|Hne]; [rewrite lookup_insert_eq; left; by eexists|]. rewrite lookup_insert_ne by done.
    destruct (H2 x c Hx) as [H|H]; [by left|]. destruct (Hr x H) as [->|]; [done|by right].
  - intros x Hx. auto.
  - intros x u. destruct (decide (x = n)) as [->|Hne]; [rewrite lookup_insert_eq; by intros [= <-]|rewrite lookup_insert_ne by done; apply H4].
  - intros x u. rewrite elem_of_app, list_elem_of_singleton. destruct (decide (x = n)) as [->|Hne]; [auto|]. rewrite lookup_insert_ne by done.
    intros Hx. destruct (H5 x u Hx); auto.
  - intros x. rewrite elem_of_app, list_elem_of_singleton. destruct (decide (x = n)) as [->|Hne]; [rewrite lookup_insert_eq; by eexists|].
    rewrite lookup_insert_ne by done. intros [H|H]; [auto|done].
  - intros x r Hx. destruct (decide (x = n)) as [->|Hne]; [rewrite lookup_insert_eq; by eexists|]. rewrite lookup_insert_ne by done. by eapply H7.
Qed.

Lemma pipeline_inv_step a b : pipeline_step a b -> pipeline_inv a -> pipeline_inv b.
Proof.
  intros Hs Hi. destruct Hs as [pairs cm tm m|n rest net cm tm m Hc|n net cm tm m Hn Hconf|n rest cm tm m Hc].
  - destruct (reload_grows pairs cm) as [G1 G2 G3 G4]. destruct Hi as [H1 H2 H3 H4 H5 H6 H7]. constructor; cbn in *; try done.
    + intros n c Hn. destruct (G3 n (ex_intro _ c Hn)) as [[c' H]|[H _]]; [by eapply H1|done].
    + intros n c Hn. destruct (G3 n (ex_intro _ c Hn)) as [[c' H]|[_ H]]; [|by right]. destruct (H2 n c' H); auto.
    + intros n Hn. destruct (G4 n Hn); auto.
    + intros n t Hn. destruct (H4 n t Hn). auto.
  - pose proof Hi as [H1 H2 H3 H4 H5 H6 H7]. cbn in *. assert (is_Some (certMap cm !! n)) as Hn by (apply H3; rewrite Hc; apply elem_of_cons; auto).
    unfold handle_cert. destruct (transportMap tm !! n) as [old|] eqn:Eo.
    + constructor; cbn; [done| | | | | |].
      * intros x c Hx. destruct (decide (x = n)) as [->|Hne]; [rewrite lookup_insert_eq; left; by eexists|]. rewrite lookup_insert_ne by done.
        destruct (H2 x c Hx) as [H|H]; [by left|]. rewrite Hc in H. apply elem_of_cons in H as [|]; [done|by right].
      * intros x Hx. apply H3. rewrite Hc. apply elem_of_cons. auto.
      * intros x u. destruct (decide (x = n)) as [->|Hne]; [rewrite lookup_insert_eq; intros [= <-]; cbn; by apply H4|rewrite lookup_insert_ne by done; apply H4].
      * intros x u. destruct (decide (x = n)) as [->|Hne]; [rewrite lookup_insert_eq; intros [= <-]; by apply (H5 n old)|rewrite lookup_insert_ne by done; apply H5].
      * intros x Hx. destruct (decide (x = n)) as [->|Hne]; [rewrite lookup_insert_eq; by eexists|rewrite lookup_insert_ne by done; auto].
      * intros x r Hx. destruct (decide (x = n)) as [->|Hne]; [rewrite lookup_insert_eq; by eexists|rewrite lookup_insert_ne by done; by eapply H7].
    + destruct (getTransport_made net n tm) as (t & T1 & T2 & T3 & T4). destruct (getTransport conf net n tm) as [t' tm'] eqn:Eg. cbn [fst snd] in *. subst t'.
      unfold inform, updateTransport. cbn. rewrite T3, T4. eapply inv_inform; [exact Hi|done|done|done| |]; cbn; rewrite Hc.
      * intros x Hx. apply elem_of_cons. auto.
      * intros x [|]%elem_of_cons; auto.
  - unfold check_interface. destruct (transportMap tm !! n) as [old|] eqn:Eo; [|done].
    destruct (getTransport_made net n tm) as (t & T1 & T2 & T3 & T4). destruct (getTransport conf net n tm) as [t' tm'] eqn:Eg. cbn [fst snd] in *. subst t'.
    destruct (String.eqb _ _).
    + destruct Hi as [H1 H2 H3 H4 H5 H6 H7]. constructor; cbn in *; rewrite ?T3, ?T4; done.
    + unfold inform, updateTransport. cbn. rewrite T3, T4. by eapply inv_inform; [exact Hi|..]; auto.
  - pose proof Hi as [H1 H2 H3 H4 H5 H6 H7]. cbn in *. assert (is_Some (transportMap tm !! n)) as [t Ht] by (apply H6; rewrite Hc; apply elem_of_cons; auto).
    assert (n <> EmptyString) as Hne by (destruct (H4 n t Ht) as [_ [c Hcm]]; by eapply H1).
    assert (GetTransport deflt n tm = t) as Hg.
    { unfold GetTransport, nonempty. destruct (String.eqb_spec n EmptyString); [done|]. cbn. by rewrite Ht. }
    unfold add_proxy. rewrite Hg. constructor; cbn; try done.
    + intros x u Hx. destruct (decide (x = n)) as [->|Hxn]; [rewrite lookup_insert_eq; left; congruence|]. rewrite lookup_insert_ne by done.
      destruct (H5 x u Hx) as [H|H]; [by left|]. rewrite Hc in H. apply elem_of_cons in H as [|]; [done|by right].
    + intros x Hx. apply H6. rewrite Hc. apply elem_of_cons. auto.
    + intros x r. destruct (decide (x = n)) as [->|Hxn]; [by eexists|]. rewrite lookup_insert_ne by done. apply H7.
Qed.

Lemma init_loop_names pairs cm fast n : (forall m, is_Some (certMap cm !! m) -> m <> EmptyString) ->
  is_Some (certMap (fst (init_loop pairs cm fast)) !! n) -> n <> EmptyString.
Proof.
  revert cm fast. induction pairs as [|p pairs IH]; intros cm fast Hm; [apply Hm|]. cbn [init_loop].
  destruct (loadCert p) as [[c x]|] eqn:E; [|by apply IH]. apply IH. cbn. intros y.
  destruct (decide (y = x)) as [->|]; [intros _; by eapply loadCert_named|rewrite lookup_insert_ne by done; apply Hm].
Qed.

Lemma init_loop_channel pairs cm fast : certChannel (fst (init_loop pairs cm fast)) = certChannel cm.
Proof.
  revert cm fast. induction pairs as [|p pairs IH]; intros cm fast; [done|]. cbn [init_loop].
  destruct (loadCert p) as [[c x]|]; [|apply IH]. by rewrite IH.
Qed.

Lemma Init_transports net l tm : transportChannel tm = [] ->
  let tm' := fold_left (fun tm (kv : string * certificate) => let (t, tm) := getTransport conf net (fst kv) tm in
    match t with None => tm | Some t => updateTransport (fst kv) t tm end) l tm in
  transportChannel tm' = []
  /\ (forall n, n ∈ l.*1 -> is_Some (transportMap tm' !! n))
  /\ (forall n, is_Some (transportMap tm !! n) -> is_Some (transportMap tm' !! n))
  /\ (forall n t, transportMap tm' !! n = Some t -> transportMap tm !! n = Some t \/ (et_name t = n /\ n ∈ l.*1)).
Proof.
  revert tm. induction l as [|[n c] l IH]; intros tm Hc; cbv zeta; cbn [fold_left fst].
  - split_and!; [done|intros n Hn; by apply elem_of_nil in Hn|done|auto].
  - destruct (getTransport_made net n tm) as (t & T1 & T2 & T3 & T4). destruct (getTransport conf net n tm) as [t' tm'] eqn:Eg. cbn [fst snd] in *. subst t'.
    destruct (IH (updateTransport n t tm')) as (I1 & I2 & I3 & I4); [cbn; congruence|]. cbn [updateTransport transportMap] in *. rewrite T3 in *.
    split_and!; [done| | |].
    + intros x. rewrite fmap_cons, elem_of_cons. intros [->|Hx]; [apply I3; cbn; rewrite lookup_insert_eq; by eexists|by apply I2].
    + intros x Hx. apply I3. destruct (decide (x = n)) as [->|]; [rewrite lookup_insert_eq; by eexists|by rewrite lookup_insert_ne].
    + intros x u Hx. rewrite fmap_cons, elem_of_cons. destruct (I4 x u Hx) as [H|[H1 H2]]; [|by auto].
      destruct (decide (x = n)) as [->|]; [rewrite lookup_insert_eq in H; injection H as <-; auto|rewrite lookup_insert_ne in H by done; auto].
Qed.

Lemma pipeline_inv_start `{GoRange} pairs net : pipeline_inv (pipeline_start pairs net).
Proof.
  unfold pipeline_start. cbv zeta. set (cm := CertManager_Init pairs NewCertManager).
  assert (certChannel cm = [] /\ forall n, is_Some (certMap cm !! n) -> n <> EmptyString) as [Hch Hne].
  { subst cm. unfold CertManager_Init. pose proof (init_loop_channel pairs NewCertManager false) as H1. pose proof (fun n => init_loop_names pairs NewCertManager false n) as H2.
    destruct (init_loop pairs NewCertManager false) as [cm fast]. cbn in *. split; [done|]. intros n. apply H2. intros m [c Hm]. by rewrite lookup_empty in Hm. }
  destruct (Init_transports net (go_range (certMap cm)) (mkTransportManager ∅ [] 0) eq_refl) as (I1 & I2 & I3 & I4).
  fold (TransportManager_Init conf net cm (mkTransportManager ∅ [] 0)) in *. set (tm := TransportManager_Init conf net cm _) in *.
  assert (forall n, n ∈ (go_range (certMap cm)).*1 <-> is_Some (certMap cm !! n)) as Hdom.
  { intros n. rewrite list_elem_of_fmap. split.
    - intros ([k c] & -> & Hk%elem_of_go_range). by exists c.
    - intros [c Hc]. exists (n, c). split; [done|]. by apply elem_of_go_range. }
  constructor; cbn [px_certs px_transports px_proxies].
  - intros n c Hn. apply Hne. by exists c.
  - intros n c Hn. left. apply I2, Hdom. by exists c.
  - rewrite Hch. by intros n Hn%elem_of_nil.
  - intros n t Hn. destruct (I4 n t Hn) as [Hx|[Hx Hy]]; [cbn in Hx; by rewrite lookup_empty in Hx|]. split; [done|by apply Hdom].
  - intros n t Hn. left. unfold initProxies. by rewrite lookup_fmap, Hn.
  - rewrite I1. by intros n Hn%elem_of_nil.
  - intros n r Hr. unfold initProxies in Hr. rewrite lookup_fmap in Hr. apply fmap_Some in Hr as (t & Ht & _). by exists t.
Qed.

(** C25: whatever reloads of the key pairs, announcements, checks of the network
    interfaces and new proxies have happened, in any order: when both channels
    are empty, every name that has a certificate has a transport that presents
    it, and a request of that name is served by the proxy of this very
    transport; a name without a certificate is served by the default proxy. *)
Theorem certificates_are_served `{GoRange} pairs net px : rtc pipeline_step (pipeline_start pairs net) px ->
  certChannel (px_certs px) = [] -> transportChannel (px_transports px) = [] ->
  (forall n c, certMap (px_certs px) !! n = Some c -> exists t, transportMap (px_transports px) !! n = Some t /\ et_name t = n
     /\ getEdgeReverseProxy deflt n (px_proxies px) = NewEdgeReverseProxy t)
  /\ (forall n, certMap (px_certs px) !! n = None -> getEdgeReverseProxy deflt n (px_proxies px) = NewEdgeReverseProxy deflt).
Proof.
  intros Hs Hc Ht. assert (pipeline_inv px) as Hi.
  { apply (rtc_invariant pipeline_step pipeline_inv) with (2 := Hs); [apply pipeline_inv_step|apply pipeline_inv_start]. }
  destruct Hi as [H1 H2 H3 H4 H5 H6 H7]. rewrite Hc, Ht in *. split.
  - intros n c Hn. destruct (H2 n c Hn) as [[t Htn]|Hx]; [|by apply elem_of_nil in Hx]. exists t. split_and!; [done|by apply H4|].
    destruct (H5 n t Htn) as [Hp|Hx]; [|by apply elem_of_nil in Hx]. unfold getEdgeReverseProxy, nonempty.
    destruct (String.eqb_spec n EmptyString) as [->|]; [by destruct (H1 _ _ Hn)|]. cbn. by rewrite Hp.
  - intros n Hn. unfold getEdgeReverseProxy. destruct (nonempty n); [|done].
    destruct (px_proxies px !! n) as [r|] eqn:Er; [|done]. destruct (H7 n r Er) as [t Htn]. destruct (H4 n t Htn) as [_ [c Hcn]]. congruence.
Qed.

End Pipeline.

(** ** A run: a certificate appears after the start *)

#[local] Existing Instance range_in_key_order.

Definition kubelet_cert : certificate := mkCertificate "kubelet" "sig1" false.
Definition kubelet_cert2 : certificate := mkCertificate "kubelet" "sig2" false.
Definition default_transport : EdgeTransport := mkEdgeTransport 1000 EmptyString EmptyString 0.
Definition all_healthy : network := mkNetwork true (fun _ => Some true).
Definition end_state : proxies := mkProxies (mkCertManager false {["kubelet"%string := kubelet_cert2]} [])
  (mkTransportManager {["kubelet"%string := mkEdgeTransport 0 "kubelet" EmptyString 1]} [] 1) {["kubelet"%string := (0, "kubelet"%string)]}.

Lemma cert_run : rtc (pipeline_step EmptyString default_transport) (pipeline_start EmptyString [None] all_healthy) end_state.
Proof.
  eapply rtc_l; [apply (step_reload _ _ [Some kubelet_cert])|].
  eapply rtc_l; [apply (step_cert _ _ "kubelet" [] all_healthy); reflexivity|].
  eapply rtc_l; [apply (step_reload _ _ [Some kubelet_cert2])|].
  eapply rtc_l; [apply (step_proxy _ _ "kubelet" []); reflexivity|].
  eapply rtc_l; [apply (step_cert _ _ "kubelet" [] all_healthy); reflexivity|].
  match goal with |- rtc _ ?x ?y => replace x with y; [apply rtc_refl|] end. vm_compute. reflexivity.
Qed.

Lemma certificates_are_served_witness :
  getEdgeReverseProxy default_transport "kubelet" (px_proxies end_state) = (0, "kubelet"%string)
  /\ getEdgeReverseProxy default_transport "other" (px_proxies end_state) = NewEdgeReverseProxy default_transport.
Proof.
  destruct (certificates_are_served EmptyString default_transport [None] all_healthy end_state cert_run eq_refl eq_refl) as [H1 H2]. split.
  - destruct (H1 "kubelet"%string kubelet_cert2 eq_refl) as (t & Ht & _ & ->). injection Ht as <-. reflexivity.
  - apply H2. reflexivity.
Defined.
