(* ===== verification/LiteMux.v ===== *)
(** * lite-apiserver: multiplexed watches (pkg/lite-apiserver/server)

    For the nodes, endpoints and services of all namespaces the server runs one
    informer each and answers lists and watches of its clients from it.  The
    file models the registries, the three multiplexers (they differ in their
    resource only), the setup and the handler that intercepts the requests; a
    watcher is given the objects that are there as added, and then what the
    informer announces. *)

From Stdlib Require Import ZArith Lia Ascii String.
From stdpp Require Import base strings gmap numbers sorting list.
From S2P Require Import Prelude.
From S2P Require Import GoStd.
From S2P Require Import GoStrings.
From S2P Require Import GoJsonValue.
From S2P Require Import GoJsonStruct.
From S2P Require Import LiteCodec.
From S2P Require Import LiteCache.
From S2P Require Import LiteProxy.

Local Open Scope Z_scope.
Local Open Scope go_scope.

(** ** Registries (multiplex/factory.go) *)

Inductive mux_kind : Type := NodeMux | EndpointMux | ServiceMux.

#[export] Instance mux_kind_eq_dec : EqDecision mux_kind.
Proof. solve_decision. Defined.

Definition NodeCacheURL : string := "/api/v1/nodes".
Definition EndpointCacheURL : string := "/api/v1/endpoints".
Definition ServiceCacheURL : string := "/api/v1/services".

(** [Name] of a multiplexer. *)
Definition mux_Name (k : mux_kind) : string :=
  match k with NodeMux => NodeCacheURL | EndpointMux => EndpointCacheURL | ServiceMux => ServiceCacheURL end.

Definition mux_Match (k : mux_kind) (method URLPath : string) : bool := String.eqb method "GET" && HasPrefix URLPath (mux_Name k).

Definition RegisterMuxFactory (url : string) (f : option mux_kind) (muxFactories : gmap string mux_kind) : outcome (gmap string mux_kind) :=
  match f with
  | None => Panic "Must provide valid CacheMuxFactory"
  | Some f =>
      match muxFactories !! url with
      | Some _ => Panic ("CacheMuxFactory url " +:+ url +:+ " already registered")
      | None => Ret (<[url := f]> muxFactories)
      end
  end.

(** The three [init] functions. *)
Definition muxFactories : outcome (gmap string mux_kind) :=
  let* m := RegisterMuxFactory EndpointCacheURL (Some EndpointMux) ∅ in
  let* m := RegisterMuxFactory NodeCacheURL (Some NodeMux) m in
  RegisterMuxFactory ServiceCacheURL (Some ServiceMux) m.

Definition CreateMux (url : string) (factories : gmap string mux_kind) : option mux_kind := factories !! url.
Definition GetMuxFactory (url : string) (factories : gmap string mux_kind) : option mux_kind := factories !! url.
Definition RegisterMux (url : string) (mux : mux_kind) (registries : gmap string mux_kind) : gmap string mux_kind := <[url := mux]> registries.
Definition GetMux (url : string) (registries : gmap string mux_kind) : option mux_kind := registries !! url.

(** ** Setup (server.go, Run) *)

(** One run of the polled function: whether it is done and whether it returns an
    error; the polling stops at either. *)
Inductive poll_result : Type := PollDone | PollAgain | PollError.

Fixpoint create_muxes (urls : list string) (factories registries : gmap string mux_kind) : gmap string mux_kind * bool :=
  match urls with
  | [] => (registries, true)
  | url :: urls =>
      match CreateMux url factories with
      | None => (registries, false)
      | Some mux => create_muxes urls factories (RegisterMux url mux registries)
      end
  end.

(** [kubelet_cert]: whether the file of the first key pair is there; [client]:
    whether the client configuration can be built; [synced]: whether the
    informers synchronise, which returns the nil error of the step before. *)
Definition mux_poll (kubelet_cert : option bool) (client synced : bool) (urls : list string) (factories registries : gmap string mux_kind)
    : outcome (gmap string mux_kind * poll_result) :=
  match kubelet_cert with
  | None => Panic "index out of range"
  | Some false => Ret (registries, PollError)
  | Some true =>
      if client then
        let (registries, ok) := create_muxes urls factories registries in
        if ok then Ret (registries, if bool_decide (urls = []) || synced then PollDone else PollAgain)
        else Ret (registries, PollError)
      else Ret (registries, PollError)
  end.

(** The client configuration: server, authority, key and certificate. *)
Record kube_configuration : Type := mkKubeConfiguration { kc_Server : string; kc_CA : string; kc_Key : string; kc_Cert : string }.

Definition generateKubeConfiguration (url : string) (port : Z) (caFile : string) (tlsConfig : list (string * string)) : outcome kube_configuration :=
  match tlsConfig with
  | [] => Panic "index out of range"
  | (certPath, keyPath) :: _ => Ret (mkKubeConfiguration ("https://" +:+ url +:+ ":" +:+ string_of (FormatInt port)) caFile keyPath certPath)
  end.

(** ** Multiplexers (node_cache.go, endpoint_cache.go, service_cache.go) *)

Section Muxes.
Context `{GoRange} {O : Type}.

(** What an informer hands to a handler: an object of a kind, or the marker of
    an object whose deletion it missed. *)
Inductive notified : Type := Object (k : mux_kind) (o : O) | Tombstone (o : O).

(** The broadcast that a notification leads to, if any. *)
Definition broadcast_of (t : event_type) (k : mux_kind) (n : notified) : option (event_type * O) :=
  match n with
  | Object k' o => if bool_decide (k = k') then Some (t, o) else None
  | Tombstone _ => None
  end.

Definition OnAdd : mux_kind -> notified -> option (event_type * O) := broadcast_of Added.
Definition OnUpdate (k : mux_kind) (oldObj newObj : notified) : option (event_type * O) := broadcast_of Modified k newObj.
Definition OnDelete : mux_kind -> notified -> option (event_type * O) := broadcast_of Deleted.

(** The prefix of a watch: what the lister gives, as added; the version and the
    wish for bookmarks are ignored. *)
Definition mux_Watch (listed : option (list O)) (bookmark : bool) (ResourceVersion : string) : option (list (event_type * O)) :=
  match listed with
  | None => None
  | Some objs => Some ((fun o => (Added, o)) <$> objs)
  end.

(** [cache.ListAll]: the objects of the informer's store that the selector takes. *)
Definition ListObjects (selector : O -> bool) (store : gmap string O) : list O := filter (fun o => selector o = true) (snd <$> go_range store).

(** ** The handler (server.go, interceptCacheMultiplex) *)

Record mux_request : Type := mkMuxRequest {
  mx_Method : string;
  mx_Path : string;
  mx_Accept : string;
  mx_Query : gmap string string;
  mx_Flusher : bool
}.

Definition query (r : mux_request) (k : string) : string := default EmptyString (mx_Query r !! k).

(** [strconv.ParseBool] *)
Definition ParseBool (s : string) : option bool :=
  if bool_decide (s ∈ ["1"; "t"; "T"; "true"; "TRUE"; "True"]%string) then Some true
  else if bool_decide (s ∈ ["0"; "f"; "F"; "false"; "FALSE"; "False"]%string) then Some false
  else None.

(** What the client gets: the request goes on to the next handler, an error
    status, a list, or a stream that starts with a prefix of events, is encoded
    for a media type and ends after so many nanoseconds. *)
Inductive mux_answer : Type :=
| Forward
| ErrorStatus (code : Z)
| AnswerList (contentType : string) (k : mux_kind) (items : list O)
| AnswerWatch (contentType : string) (prefix : list (event_type * O)) (timeout : Z).

(** Other code: [labels.Parse] with the match of the selector it gives, and
    [time.ParseDuration] in nanoseconds. *)
Context {T : TokenCode} (ParseSelector : string -> option (O -> bool)) (ParseDuration : string -> option Z).

(** The duration is zero when it cannot be parsed. *)
Definition watch_timeout (r : mux_request) : Z :=
  let s := query r "timeoutSeconds" in
  if nonempty s then default 0 (ParseDuration (s +:+ "s")) else 60 * 10 ^ 9.

Definition interceptCacheMultiplex (registries : gmap string mux_kind) (stores : mux_kind -> gmap string O) (listed : mux_kind -> option (list O))
    (r : mux_request) : mux_answer :=
  if negb (String.eqb (mx_Method r) "GET") then Forward
  else match GetMux (mx_Path r) registries with
  | None => Forward
  | Some mux =>
      match parseAccept (mx_Accept r) SupportedMediaTypes with
      | None => ErrorStatus 400
      | Some info =>
          match ParseSelector (query r "labelSelector") with
          | None => ErrorStatus 400
          | Some ls =>
              if negb (nonempty (query r "watch")) then AnswerList (media_type info) mux (ListObjects ls (stores mux))
              else if negb (mx_Flusher r) then ErrorStatus 405
              else match mux_Watch (listed mux) (default false (ParseBool (query r "allowWatchBookmarks"))) (query r "resourceVersion") with
              | None => ErrorStatus 500
              | Some prefix =>
                  AnswerWatch (if String.eqb (media_type info) Protobuf then Protobuf +:+ ";stream=watch" else Json) prefix (watch_timeout r)
              end
          end
      end
  end.

(** ** What clients see *)

(** A watch is answered with every object, whatever labels it asks for. *)
Lemma watch_ignores_selector registries stores listed r mux objs info ls : mx_Method r = "GET"%string -> GetMux (mx_Path r) registries = Some mux ->
  parseAccept (mx_Accept r) SupportedMediaTypes = Some info -> ParseSelector (query r "labelSelector") = Some ls ->
  nonempty (query r "watch") = true -> mx_Flusher r = true -> listed mux = Some objs ->
  exists ct, interceptCacheMultiplex registries stores listed r = AnswerWatch ct ((fun o => (Added, o)) <$> objs) (watch_timeout r).
Proof.
  intros Hm Hg Ha Hs Hw Hf Hl. unfold interceptCacheMultiplex. rewrite Hm, Hg, Ha, Hs, Hw, Hf, Hl. cbn [negb String.eqb Ascii.eqb Bool.eqb mux_Watch]. by eexists.
Qed.

(** A list has the objects of the store that the selector takes. *)
Lemma list_selects registries stores listed r mux info ls o : mx_Method r = "GET"%string -> GetMux (mx_Path r) registries = Some mux ->
  parseAccept (mx_Accept r) SupportedMediaTypes = Some info -> ParseSelector (query r "labelSelector") = Some ls ->
  nonempty (query r "watch") = false ->
  exists items, interceptCacheMultiplex registries stores listed r = AnswerList (media_type info) mux items
    /\ (o ∈ items <-> ls o = true /\ exists k, stores mux !! k = Some o).
Proof.
  intros Hm Hg Ha Hs Hw. unfold interceptCacheMultiplex. rewrite Hm, Hg, Ha, Hs, Hw. cbn [negb String.eqb Ascii.eqb Bool.eqb].
  eexists. split; [done|]. unfold ListObjects. rewrite list_elem_of_filter, list_elem_of_fmap. split.
  - intros [Hl ([k x] & -> & Hk%elem_of_go_range)]. split; [done|]. by exists k.
  - intros [Hl [k Hk]]. split; [done|]. exists (k, o). split; [done|]. by apply elem_of_go_range.
Qed.

(** The deletion that an informer missed is not told to the watchers. *)
Lemma tombstones_are_dropped k o : OnDelete k (Tombstone o) = None.
Proof. done. Qed.

End Muxes.

(** ** Setup *)

Example factories_ex : muxFactories = Ret {[EndpointCacheURL := EndpointMux; NodeCacheURL := NodeMux; ServiceCacheURL := ServiceMux]}.
Proof. vm_compute. reflexivity. Qed.

(** A certificate that is not there yet ends the polling: no multiplexer is ever
    registered. *)
Lemma missing_certificate_ends_setup client synced urls factories : mux_poll (Some false) client synced urls factories ∅ = Ret (∅, PollError).
Proof. done. Qed.
