(* ===== verification/Sha1.v ===== *)
(** * crypto/sha1

    SHA-1 on lists of bytes, over the words and the padding of SHA-256; the
    names of generated node units are such hashes, in hex. *)

From Stdlib Require Import ZArith Lia Ascii String.
From stdpp Require Import base strings gmap numbers sorting list.
From S2P Require Import Prelude.
From S2P Require Import GoStd.
From S2P Require Import Sha256.

Local Open Scope Z_scope.

Definition rotl (x n : Z) : Z := Z.lor (Z.shiftl x n mod 2 ^ 32) (Z.shiftr x (32 - n)).

(** The 80 words of a block, latest first. *)
Fixpoint schedule1 (n : nat) (w : list Z) : list Z :=
  match n with
  | O => w
  | S n =>
      let at_ i := default 0 (w !! i) in
      schedule1 n (rotl (Z.lxor (Z.lxor (at_ 2%nat) (at_ 7%nat)) (Z.lxor (at_ 13%nat) (at_ 15%nat))) 1 :: w)
  end.

(** The function and the constant of a round. *)
Definition round_function (i b c d : Z) : Z * Z :=
  if i <? 20 then (Z.lor (Z.land b c) (Z.land (Z.lxor b (2 ^ 32 - 1)) d), 1518500249)
  else if i <? 40 then (Z.lxor (Z.lxor b c) d, 1859775393)
  else if i <? 60 then (Z.lor (Z.lor (Z.land b c) (Z.land b d)) (Z.land c d), 2400959708)
  else (Z.lxor (Z.lxor b c) d, 3395469782).

Definition round1 (st : list Z) (iw : Z * Z) : list Z :=
  match st with
  | [a; b; c; d; e] =>
      let '(f, k) := round_function (fst iw) b c d in
      [add32 (add32 (add32 (rotl a 5) f) (add32 e k)) (snd iw); a; rotl b 30; c; d]
  | _ => st
  end.

Definition compress1 (st : list Z) (block : list Z) : list Z :=
  let w := reverse (schedule1 64 (reverse (words block))) in
  zip_with add32 st (fold_left round1 (zip (seqZ 0 80) w) st).

Definition sha1 (msg : list Z) : list Z :=
  let p := pad msg in
  concat (map (be_bytes 4) (fold_left compress1 (blocks (length p) p) [1732584193; 4023233417; 2562383102; 271733878; 3285377520])).

(** [hex.EncodeToString] of the hash of a string. *)
Definition sha1_hex (s : string) : string := string_of (hex_of (sha1 (bytes_of s))).

Example sha1_vectors :
  sha1_hex "" = "da39a3ee5e6b4b0d3255bfef95601890afd80709"%string
  /\ sha1_hex "abc" = "a9993e364706816aba3e25717850c26c9cd0d89d"%string
  /\ sha1_hex "abcdbcdecdefdefgefghfghighijhijkijkljklmklmnlmnomnopnopq" = "84983e441c3bd26ebaae4aa1f95129e5e54670f1"%string.
Proof. vm_compute. done. Qed.
