(* ===== verification/HealthComm.v ===== *)
(** * Edge health: communication (pkg/edge-health/communicate, util)

    Nodes send each other their verdicts, signed with an HMAC over their JSON
    form.  This file models the messages on the wire, the signature, the
    sending loop ([Client]), the handlers of the server (/result, /localinfo
    and /probe with its worker pool) and the wrapper's request to /localinfo.
    The theorems show that what one node signs and sends is what the other
    stores, that the signed text determines the message, that the worker pool
    probes every target exactly once in every interleaving, and that the
    wrapper reads back the verdicts of its node. *)

From Stdlib Require Import ZArith Lia Ascii String.
From stdpp Require Import base strings gmap numbers sorting list.
From S2P Require Import Prelude.
From S2P Require Import GoStd.
From S2P Require Import GoSort.
From S2P Require Import GoJson.
From S2P Require Import GoJsonValue.
From S2P Require Import GoJsonStruct.
From S2P Require Import Sha256.
From S2P Require Import K8s.
From S2P Require Import HealthData.
From S2P Require Import Topology.
From S2P Require Import StorageCache.

Local Open Scope Z_scope.
Local Open Scope go_scope.

(** ** Messages on the wire *)

(** [ResultDetail]: every field is [omitempty]. *)
Definition json_of_detail (d : ResultDetail) : json :=
  JObj (member_if (Normal d) "normal" (JBool true)
        ++ member_if (nonempty (Hmac d)) "hmac" (JStr (Hmac d))
        ++ member_if (negb (Time d =? 0)) "time" (JNum (FormatInt (Time d)))).

Definition json_of_details (m : gmap string ResultDetail) : json :=
  JObj ((fun kv => (fst kv, json_of_detail (snd kv))) <$> sorted_members m).

(** A nil map is null. *)
Definition json_of_gomap (m : gomap ResultDetail) : json :=
  match m with None => JNull | Some m => json_of_details m end.

Definition json_of_message (c : CommunicateData) : json :=
  JObj (member_if (nonempty (SourceIP c)) "sourceIP" (JStr (SourceIP c))
        ++ member_if (negb (bool_decide (mp (cd_ResultDetail c) = ∅))) "resultDetail" (json_of_gomap (cd_ResultDetail c))
        ++ member_if (nonempty (cd_Hmac c)) "hmac" (JStr (cd_Hmac c))).

Definition set_detail (d : ResultDetail) (f : string) (j : json) : option ResultDetail :=
  if String.eqb f "normal" then (fun b => mkResultDetail b (Hmac d) (Time d)) <$> decode_bool (Normal d) j
  else if String.eqb f "hmac" then (fun h => mkResultDetail (Normal d) h (Time d)) <$> decode_str (Hmac d) j
  else (fun t => mkResultDetail (Normal d) (Hmac d) t) <$> decode_int64 (Time d) j.

Definition zero_detail : ResultDetail := mkResultDetail false EmptyString 0.

Definition decode_detail (j : json) : option ResultDetail :=
  decode_struct set_detail ["normal"; "hmac"; "time"]%string zero_detail j.

(** Into a map: every value starts from zero, and what the map holds stays. *)
Fixpoint decode_entries (l : list (string * json)) (m : gmap string ResultDetail) : option (gmap string ResultDetail) :=
  match l with
  | [] => Some m
  | (k, v) :: l => match decode_detail v with Some d => decode_entries l (<[k := d]> m) | None => None end
  end.

Definition decode_details (cur : gomap ResultDetail) (j : json) : option (gomap ResultDetail) :=
  match j with
  | JNull => Some None
  | JObj l => Some <$> decode_entries l (mp cur)
  | _ => None
  end.

Definition set_message (c : CommunicateData) (f : string) (j : json) : option CommunicateData :=
  if String.eqb f "sourceIP" then
    (fun s => mkCommunicateData s (cd_ResultDetail c) (cd_Hmac c)) <$> decode_str (SourceIP c) j
  else if String.eqb f "resultDetail" then
    (fun m => mkCommunicateData (SourceIP c) m (cd_Hmac c)) <$> decode_details (cd_ResultDetail c) j
  else (fun h => mkCommunicateData (SourceIP c) (cd_ResultDetail c) h) <$> decode_str (cd_Hmac c) j.

Definition decode_message (j : json) : option CommunicateData :=
  decode_struct set_message ["sourceIP"; "resultDetail"; "hmac"]%string (mkCommunicateData EmptyString None EmptyString) j.

(** ** Signatures (util.go) *)

Definition DefaultHmacKey : string := "hSZbJsKAVmWTxRPi".

Definition GetHmacCode (s : list Z) (key : string) : string := string_of (hex_of (hmac_sha256 (bytes_of key) s)).

(** The text that is signed: the two JSON forms one after the other. *)
Definition hmacBefore (c : CommunicateData) : list Z :=
  print_json (JStr (SourceIP c)) ++ print_json (json_of_gomap (cd_ResultDetail c)).

(** [conf] is the config map hmac-config, if it is found. *)
Definition hmacKey (conf : option ConfigMap) : string :=
  match conf with
  | None => DefaultHmacKey
  | Some cm =>
      let k := default EmptyString (mp (cm_Data cm) !! "hmackey"%string) in
      if String.eqb k EmptyString then DefaultHmacKey else k
  end.

Definition GenerateHmac (conf : option ConfigMap) (c : CommunicateData) : string :=
  GetHmacCode (hmacBefore c) (hmacKey conf).

Fixpoint GetNodeNameByIp (nodes : list Node) (Ip : string) : string :=
  match nodes with
  | [] => EmptyString
  | v :: nodes =>
      if existsb (fun i => String.eqb (na_Type i) "InternalIP" && String.eqb (na_Address i) Ip) (sl (node_Addresses v))
      then Name (node_meta v) else GetNodeNameByIp nodes Ip
  end.

(** ** The server (communicate.go, Server) *)

(** /result: [body] is what can be read of the request, if it has a body. *)
Definition handle_result (conf : option ConfigMap) (now : Z) (body : option (list Z)) (s : HealthState) : HealthState * Z :=
  match body with
  | None => (s, 402)
  | Some bs =>
      match parse_stream bs with
      | None => (s, 402)
      | Some j =>
          match decode_message j with
          | None => (s, 402)
          | Some c =>
              if String.eqb (GenerateHmac conf c) (cd_Hmac c)
              then (set_result s (SetResult now (Result s) c), 200)
              else (s, 403)
          end
      end
  end.

(** [json.NewEncoder(w).Encode(v)] ends every value with a newline. *)
Definition Encode (j : json) : list Z := print_json j ++ [10].

(** /localinfo: with a fullmesh parameter the whole table is written first. *)
Definition handle_localinfo (NodeIP fullmesh : string) (s : HealthState) : list Z :=
  (if nonempty fullmesh
   then Encode (JObj ((fun kv => (fst kv, json_of_gomap (snd kv))) <$> sorted_members (GetResultDataAll (Result s))))
   else [])
  ++ Encode (json_of_details (CopyLocalResultData (Result s) NodeIP)).

(** ** The client (communicate.go, Client) *)

(** What an attempt meets: the config map and the pods it reads, and the
    answer to the request. *)
Inductive response : Type := RequestError | DoError | Status (code : Z).
Record attempt_env : Type := mkAttempt { at_conf : option ConfigMap; at_pods : PodStore; at_response : response }.

(** A PUT to /result of a pod. *)
Record request : Type := mkRequest { rq_pod : string; rq_body : list Z }.

Definition signed (conf : option ConfigMap) (NodeIP : string) (m : gmap string ResultDetail) : CommunicateData :=
  let u := mkCommunicateData NodeIP (Some m) EmptyString in
  mkCommunicateData NodeIP (Some m) (GenerateHmac conf u).

(** One attempt: the request it makes, if any, and whether it succeeded. *)
Definition put (NodeIP desNodeIP : string) (m : gmap string ResultDetail) (e : attempt_env) : option request * bool :=
  let u := signed (at_conf e) NodeIP m in
  match GetPodIPByNodeIP (at_pods e) desNodeIP with
  | None => (None, false)
  | Some desPodIP =>
      let rq := mkRequest desPodIP (print_json (json_of_message u)) in
      match at_response e with
      | RequestError => (None, false)
      | DoError => (Some rq, false)
      | Status code => (Some rq, code =? 200)
      end
  end.

Fixpoint put_loop (fuel : nat) (i : nat) (NodeIP desNodeIP : string) (m : gmap string ResultDetail)
    (env : nat -> attempt_env) : list request * bool :=
  match fuel with
  | O => ([], false)
  | S fuel =>
      let '(rq, ok) := put NodeIP desNodeIP m (env i) in
      if ok then (option_list rq, true)
      else let '(rqs, ok) := put_loop fuel (S i) NodeIP desNodeIP m env in (option_list rq ++ rqs, ok)
  end.

(** One goroutine per address this node has a verdict on: the requests made
    to each. *)
Definition Client `{GoRange} (CommunicateRetryTime : Z) (NodeIP : string) (env : string -> nat -> attempt_env)
    (s : HealthState) : list (string * list request) :=
  match GetLocalResultData (Result s) NodeIP with
  | None => []
  | Some _ =>
      let tempCommunicateData := CopyLocalResultData (Result s) NodeIP in
      (fun desNodeIP =>
         (desNodeIP,
          if String.eqb desNodeIP NodeIP then []
          else fst (put_loop (Z.to_nat CommunicateRetryTime) 0 NodeIP desNodeIP tempCommunicateData (env desNodeIP))))
      <$> (go_range tempCommunicateData).*1
  end.

(** ** Probes on demand (HandleProbe, prober.go) *)

Record Target : Type := mkTarget {
  t_Name : string;
  t_IP : string;
  t_Port : Z;
  t_Protocol : string;
  t_Normal : option bool
}.

Definition MaxProbeIPs : nat := 100.
Definition MaxTargetName : nat := 128.
Definition ProtoSet : list string := ["tcp"; "icmp"]%string.

Definition set_target (t : Target) (f : string) (j : json) : option Target :=
  if String.eqb f "name" then
    (fun s => mkTarget s (t_IP t) (t_Port t) (t_Protocol t) (t_Normal t)) <$> decode_str (t_Name t) j
  else if String.eqb f "ip" then
    (fun s => mkTarget (t_Name t) s (t_Port t) (t_Protocol t) (t_Normal t)) <$> decode_str (t_IP t) j
  else if String.eqb f "port" then
    (fun p => mkTarget (t_Name t) (t_IP t) p (t_Protocol t) (t_Normal t)) <$>
      match j with JNull => Some (t_Port t) | JNum lit => ParseInt (string_of lit) 32 | _ => None end
  else if String.eqb f "protocol" then
    (fun s => mkTarget (t_Name t) (t_IP t) (t_Port t) s (t_Normal t)) <$> decode_str (t_Protocol t) j
  else
    (fun b => mkTarget (t_Name t) (t_IP t) (t_Port t) (t_Protocol t) b) <$>
      match j with JNull => Some None | JBool b => Some (Some b) | _ => None end.

(** A pointer: null is nil, an object is decoded into what it points to, or
    into a new target. *)
Definition decode_target (cur : option Target) (j : json) : option (option Target) :=
  match j with
  | JNull => Some None
  | _ => Some <$> decode_struct set_target ["name"; "ip"; "port"; "protocol"; "normal"]%string
                    (default (mkTarget EmptyString EmptyString 0 EmptyString None) cur) j
  end.

(** Elements are decoded over those of an earlier value of the same member. *)
Fixpoint decode_elements (cur : list (option Target)) (l : list json) : option (list (option Target)) :=
  match l with
  | [] => Some []
  | j :: l =>
      match decode_target (default None (head cur)) j with
      | None => None
      | Some t => cons t <$> decode_elements (tail cur) l
      end
  end.

Definition set_probe (ts : list (option Target)) (f : string) (j : json) : option (list (option Target)) :=
  match j with
  | JNull => Some []
  | JArr l => decode_elements ts l
  | _ => None
  end.

Definition decode_probe (j : json) : option (list (option Target)) := decode_struct set_probe ["targets"]%string [] j.

(** The checks of every target, in order: the status of the first error; a
    null target is dereferenced. *)
Fixpoint validate (ts : list (option Target)) : outcome (option Z) :=
  match ts with
  | [] => Ret None
  | None :: _ => Panic "nil pointer dereference"
  | Some t :: ts =>
      if negb (String.eqb (t_Protocol t) EmptyString) && negb (bool_decide (t_Protocol t ∈ ProtoSet)) then Ret (Some 400)
      else if (MaxTargetName <? String.length (t_Name t))%nat then Ret (Some 400)
      else validate ts
  end.

(** The pool: the pieces left in the channel, the workers, and the targets
    they share. *)
Inductive worker : Type := Waiting | Taken (piece : nat) | Probing (piece : nat) | Finished.
#[export] Instance worker_eq_dec : EqDecision worker.
Proof. solve_decision. Defined.

Record pool : Type := mkPool { queue : list nat; workers : list worker; targets : list (option Target) }.

Definition Parallelize (n pieces : nat) (ts : list (option Target)) : pool :=
  mkPool (seq 0 pieces) (replicate (if (pieces <? n)%nat then pieces else n) Waiting) ts.

(** What the request starts: an error status, or the pool. *)
Definition HandleProbe (body : option (list Z)) : outcome (Z + pool) :=
  match body with
  | None => Ret (inl 402)
  | Some bs =>
      match parse_json bs with
      | None => Ret (inl 402)
      | Some j =>
          match decode_probe j with
          | None => Ret (inl 402)
          | Some ts =>
              let* bad := validate ts in
              match bad with
              | Some code => Ret (inl code)
              | None =>
                  let pieces := length ts in
                  let n := (pieces / 5 + 1)%nat in
                  if (MaxProbeIPs <? pieces)%nat then Ret (inl 400)
                  else Ret (inr (Parallelize n pieces ts))
              end
          end
      end
  end.

Section Pool.
Context (TCPProbe : string -> Z -> bool) (ICMPProbe : string -> bool).

Definition with_normal (t : Target) (b : bool) : Target := mkTarget (t_Name t) (t_IP t) (t_Port t) (t_Protocol t) (Some b).

(** [t.Normal = new(bool)] *)
Definition started (t : Target) : Target := with_normal t false.

(** The switch on the protocol; no protocol leaves false. *)
Definition probed (t : Target) : Target :=
  if String.eqb (t_Protocol t) "tcp" then with_normal t (TCPProbe (t_IP t) (t_Port t))
  else if String.eqb (t_Protocol t) "icmp" then with_normal t (ICMPProbe (t_IP t))
  else t.

(** One step of one worker: it takes a piece from the channel, or ends when
    the closed channel is empty; it allocates the answer of its piece; it
    writes what the probe finds. *)
Inductive pool_step : pool -> pool -> Prop :=
| step_take i q ws1 ws2 ts :
    pool_step (mkPool (i :: q) (ws1 ++ Waiting :: ws2) ts) (mkPool q (ws1 ++ Taken i :: ws2) ts)
| step_end ws1 ws2 ts :
    pool_step (mkPool [] (ws1 ++ Waiting :: ws2) ts) (mkPool [] (ws1 ++ Finished :: ws2) ts)
| step_start i q ws1 ws2 ts t : ts !! i = Some (Some t) ->
    pool_step (mkPool q (ws1 ++ Taken i :: ws2) ts) (mkPool q (ws1 ++ Probing i :: ws2) (<[i := Some (started t)]> ts))
| step_write i q ws1 ws2 ts t : ts !! i = Some (Some t) ->
    pool_step (mkPool q (ws1 ++ Probing i :: ws2) ts) (mkPool q (ws1 ++ Waiting :: ws2) (<[i := Some (probed t)]> ts)).

End Pool.

(** ** The wrapper's request (application-grid-wrapper/server/server.go) *)

Section Acquisition.
Context `{R : GoRange} `{SemanticEq Endpoints} `{SemanticEq EndpointSliceV1} `{SemanticEq EndpointSliceV1Beta1}.

(** [res] is the answer of /localinfo: none when the request failed. *)
Definition NodeStatusAcquisition (res : option (Z * list Z)) (sc : storageCache) : storageCache * list Broadcast :=
  match res with
  | None => (ClearLocalNodeInfo sc, [])
  | Some (StatusCode, body) =>
      if negb (StatusCode =? 200) then (ClearLocalNodeInfo sc, [])
      else match parse_stream body with
           | None => (ClearLocalNodeInfo sc, [])
           | Some j =>
               match decode_details None j with
               | Some info => SetLocalNodeInfo sc (mp info)
               | None => (ClearLocalNodeInfo sc, [])
               end
           end
  end.

End Acquisition.

(** ** Round trips of the messages *)

Definition wf_detail (d : ResultDetail) : Prop := ascii_only (Hmac d) /\ in_int64 (Time d).
Definition wf_details (m : gmap string ResultDetail) : Prop :=
  forall k d, m !! k = Some d -> ascii_only k /\ wf_detail d.

Lemma json_of_detail_printable d : wf_detail d -> printable (json_of_detail d).
Proof.
  intros [Hh Ht]. unfold json_of_detail. apply printable_obj. rewrite !Forall_app. split_and!.
  - apply member_if_printable; [ascii_literal|done].
  - apply member_if_printable; [ascii_literal|done].
  - apply member_if_printable; [ascii_literal|]. intros _. apply FormatInt_literal. unfold in_int64 in Ht. lia.
Qed.

Lemma decode_detail_printed d : wf_detail d -> decode_detail (json_of_detail d) = Some d.
Proof.
  destruct d as [n h t]. intros [_ Ht]. simpl in Ht. unfold decode_detail, json_of_detail. simpl decode_struct.
  assert (forall l a, decode_members set_detail ["normal"; "hmac"; "time"]%string (member_if n "normal" (JBool true) ++ l) a
    = decode_members set_detail ["normal"; "hmac"; "time"]%string l (mkResultDetail (n || Normal a) (Hmac a) (Time a))) as H1
    by (intros l [na ha ta]; by destruct n).
  assert (forall l a, decode_members set_detail ["normal"; "hmac"; "time"]%string (member_if (nonempty h) "hmac" (JStr h) ++ l) a
    = decode_members set_detail ["normal"; "hmac"; "time"]%string l
        (mkResultDetail (Normal a) (if nonempty h then h else Hmac a) (Time a))) as H2
    by (intros l [na ha ta]; by destruct (nonempty h)).
  rewrite H1, H2. unfold zero_detail. simpl. rewrite orb_false_r.
  assert ((if nonempty h then h else EmptyString) = h) as -> by (unfold nonempty; by destruct (String.eqb_spec h "")).
  unfold member_if. destruct (Z.eqb_spec t 0) as [-> |Hne]; [done|]. cbn [negb decode_members].
  change (field_for _ "time") with (Some "time"%string). unfold set_detail. simpl. by rewrite FormatInt_ParseInt.
Qed.

Lemma decode_entries_printed (l : list (string * ResultDetail)) m : NoDup l.*1 -> Forall (fun kv => wf_detail (snd kv)) l ->
  decode_entries ((fun kv => (fst kv, json_of_detail (snd kv))) <$> l) m = Some (list_to_map l ∪ m).
Proof.
  intros Hnd Hl. revert m. induction l as [|[k d] l IH]; intros m; [by rewrite list_to_map_nil, (left_id_L ∅ (∪))|].
  apply NoDup_cons in Hnd as [Hk Hnd]. apply Forall_cons in Hl as [Hd Hl].
  cbn [fmap list_fmap decode_entries fst snd]. rewrite decode_detail_printed, IH by done. f_equal.
  rewrite list_to_map_cons. cbn [fst snd] in *. rewrite <- insert_union_r, insert_union_l; [done|].
  by apply not_elem_of_list_to_map_1.
Qed.

Lemma wf_details_sorted m : wf_details m ->
  Forall (fun kv => ascii_only (fst kv) /\ wf_detail (snd kv)) (sorted_members m).
Proof. intros Hm. apply Forall_forall. intros [k d] Hk%elem_of_sorted_members. by apply Hm. Qed.

Lemma decode_details_printed m : wf_details m -> decode_details None (json_of_details m) = Some (Some m).
Proof.
  intros Hm. unfold json_of_details. cbn [decode_details]. rewrite decode_entries_printed.
  - change (mp None) with (∅ : gmap string ResultDetail). by rewrite sorted_members_map, (right_id_L ∅ (∪)).
  - rewrite sorted_members_perm. apply NoDup_fst_map_to_list.
  - eapply Forall_impl; [by apply wf_details_sorted|]. by intros ? [].
Qed.

Lemma json_of_details_printable m : wf_details m -> printable (json_of_details m).
Proof.
  intros Hm. unfold json_of_details. apply printable_obj, Forall_fmap.
  eapply Forall_impl; [by apply wf_details_sorted|]. intros [k d] []. split; [done|]. by apply json_of_detail_printable.
Qed.

Lemma hex_of_ascii bs : Forall (fun b => 0 <= b < 256) bs -> Forall ascii_byte (hex_of bs).
Proof.
  intros H. apply Forall_concat, Forall_map. eapply Forall_impl; [exact H|]. intros b Hb. cbv beta in Hb.
  assert (forall d, 0 <= d < 16 -> ascii_byte (hex_digit d)) as Hd
    by (intros d Hd; unfold hex_digit, ascii_byte; destruct (Z.ltb_spec d 10); lia).
  apply Forall_cons_2; [|apply Forall_cons_2; [|apply Forall_nil_2]]; apply Hd; [|apply Z.mod_pos_bound; lia].
  split; [apply Z.div_pos; lia|apply Z.div_lt_upper_bound; lia].
Qed.

Lemma be_bytes_range n x : Forall (fun b => 0 <= b < 256) (be_bytes n x).
Proof.
  revert x. induction n as [|n IH]; intros x; [constructor|]. cbn [be_bytes]. apply Forall_app.
  split; [apply IH|]. constructor; [apply Z.mod_pos_bound; lia|constructor].
Qed.

Lemma sha256_range msg : Forall (fun b => 0 <= b < 256) (sha256 msg).
Proof.
  unfold sha256. apply Forall_concat, Forall_map, Forall_forall. intros x _. apply be_bytes_range.
Qed.

Lemma GetHmacCode_ascii s key : ascii_only (GetHmacCode s key).
Proof.
  unfold ascii_only, GetHmacCode, hmac_sha256. set (d := sha256 _).
  assert (Forall ascii_byte (hex_of d)) as Hd by (apply hex_of_ascii, sha256_range).
  rewrite bytes_of_string_of by (eapply Forall_impl; [exact Hd|]; unfold ascii_byte; intros; lia).
  eapply Forall_impl; [exact Hd|]. by intros b [].
Qed.

(** A message with verdicts survives the wire. *)
Lemma message_printable c m : ascii_only (SourceIP c) -> cd_ResultDetail c = Some m -> wf_details m ->
  ascii_only (cd_Hmac c) -> printable (json_of_message c).
Proof.
  intros Hs Hc Hm Hh. unfold json_of_message. rewrite Hc. apply printable_obj. rewrite !Forall_app. split_and!.
  - apply member_if_printable; [ascii_literal|done].
  - apply member_if_printable; [ascii_literal|]. intros _. by apply json_of_details_printable.
  - apply member_if_printable; [ascii_literal|done].
Qed.

Lemma decode_message_printed c m : cd_ResultDetail c = Some m -> m <> ∅ -> wf_details m ->
  decode_message (json_of_message c) = Some c.
Proof.
  destruct c as [src det h]. intros [= ->] Hne Hm. unfold decode_message, json_of_message. cbn [decode_struct SourceIP cd_ResultDetail cd_Hmac].
  set (fields := ["sourceIP"; "resultDetail"; "hmac"]%string).
  assert (forall l a, decode_members set_message fields (member_if (nonempty src) "sourceIP" (JStr src) ++ l) a
    = decode_members set_message fields l
        (mkCommunicateData (if nonempty src then src else SourceIP a) (cd_ResultDetail a) (cd_Hmac a))) as H1
    by (intros l [sa da ha]; by destruct (nonempty src)).
  rewrite H1. change (mp (Some m)) with m. rewrite bool_decide_eq_false_2 by done. cbn [negb member_if app json_of_gomap].
  cbn [decode_members]. change (field_for fields "resultDetail") with (Some "resultDetail"%string).
  unfold set_message at 1. cbn [String.eqb Ascii.eqb Bool.eqb cd_ResultDetail]. rewrite decode_details_printed by done.
  cbn [fmap option_fmap option_map SourceIP cd_Hmac].
  assert ((if nonempty src then src else EmptyString) = src) as -> by (unfold nonempty; by destruct (String.eqb_spec src "")).
  unfold nonempty. by destruct (String.eqb_spec h "") as [-> |].
Qed.

Lemma SetResult_insert now r c m : cd_ResultDetail c = Some m ->
  SetResult now r c = <[SourceIP c := Some (stamp now <$> m)]> r.
Proof. intros Hc. unfold SetResult. rewrite Hc. case_match; [done|]. by rewrite insert_insert_eq. Qed.

Lemma handle_signed confA confB now NodeIP m s : ascii_only NodeIP -> wf_details m -> m <> ∅ -> hmacKey confA = hmacKey confB ->
  handle_result confB now (Some (print_json (json_of_message (signed confA NodeIP m)))) s
    = (set_result s (<[NodeIP := Some (stamp now <$> m)]> (Result s)), 200).
Proof.
  intros Hip Hm Hne Hkey. unfold handle_result.
  rewrite parse_stream_printed, (decode_message_printed _ m) by
    first [done|by eapply message_printable; [| |done|apply GetHmacCode_ascii]].
  unfold GenerateHmac at 1. cbn [signed cd_Hmac hmacBefore SourceIP cd_ResultDetail]. unfold GenerateHmac, hmacBefore.
  cbn [SourceIP cd_ResultDetail]. rewrite Hkey, String.eqb_refl. by rewrite (SetResult_insert _ _ _ m).
Qed.

(** The requests of the loop: one per attempt that finds the pod. *)
Lemma put_loop_request fuel i NodeIP des m env rq : rq ∈ fst (put_loop fuel i NodeIP des m env) ->
  exists j, (i <= j < i + fuel)%nat /\ GetPodIPByNodeIP (at_pods (env j)) des = Some (rq_pod rq)
    /\ rq_body rq = print_json (json_of_message (signed (at_conf (env j)) NodeIP m)).
Proof.
  revert i. induction fuel as [|fuel IH]; intros i; cbn [put_loop]; [by intros ?%not_elem_of_nil|].
  destruct (put NodeIP des m (env i)) as [r ok] eqn:Ep.
  assert (rq ∈ option_list r -> GetPodIPByNodeIP (at_pods (env i)) des = Some (rq_pod rq)
    /\ rq_body rq = print_json (json_of_message (signed (at_conf (env i)) NodeIP m))) as Hr.
  { intros Hin. destruct r as [r|]; [|by apply not_elem_of_nil in Hin]. apply list_elem_of_singleton in Hin as ->.
    unfold put in Ep. repeat case_match; simplify_eq; done. }
  destruct ok.
  - intros Hin. exists i. destruct (Hr Hin). split; [lia|done].
  - destruct (put_loop fuel (S i) NodeIP des m env) as [rqs ok'] eqn:El. specialize (IH (S i)). rewrite El in IH.
    simpl in *. intros [Hin|Hin]%elem_of_app.
    + exists i. destruct (Hr Hin). split; [lia|done].
    + destruct (IH Hin) as (j & ? & ?). exists j. split; [lia|done].
Qed.

(** ** The worker pool *)

Section PoolLemmas.
Context (TCPProbe : string -> Z -> bool) (ICMPProbe : string -> bool).
Implicit Types (ws : list worker).

Definition piece_of (w : worker) : list nat :=
  match w with Taken i | Probing i => [i] | Waiting | Finished => [] end.
Definition active ws : list nat := concat (map piece_of ws).

Lemma active_app ws1 ws2 : active (ws1 ++ ws2) = active ws1 ++ active ws2.
Proof. unfold active. by rewrite map_app, concat_app. Qed.

Lemma elem_of_active ws i : i ∈ active ws <-> Taken i ∈ ws \/ Probing i ∈ ws.
Proof.
  induction ws as [|w ws IH]; [unfold active; simpl; set_solver|].
  change (active (w :: ws)) with (piece_of w ++ active ws). rewrite elem_of_app, IH, !elem_of_cons.
  destruct w; simpl; rewrite ?elem_of_nil, ?list_elem_of_singleton; naive_solver.
Qed.

(** What target [i] holds, from where its piece is. *)
Definition expect (p : pool) (i : nat) (t : Target) : Target :=
  if decide (i ∈ queue p \/ Taken i ∈ workers p) then t
  else if decide (Probing i ∈ workers p) then started t
  else probed TCPProbe ICMPProbe (started t).

Record pool_inv (ts0 : list Target) (p : pool) : Prop := mkPoolInv {
  inv_nodup : NoDup (queue p ++ active (workers p));
  inv_bound : forall i, i ∈ queue p ++ active (workers p) -> (i < length ts0)%nat;
  inv_length : length (targets p) = length ts0;
  inv_target : forall i t, ts0 !! i = Some t -> targets p !! i = Some (Some (expect p i t));
  inv_end : Finished ∈ workers p -> queue p = []
}.

(** A worker moves on: the others keep their pieces. *)
Lemma expect_same p p' i t :
  (i ∈ queue p \/ Taken i ∈ workers p <-> i ∈ queue p' \/ Taken i ∈ workers p') ->
  (Probing i ∈ workers p <-> Probing i ∈ workers p') -> expect p i t = expect p' i t.
Proof. intros H1 H2. unfold expect. by rewrite (decide_ext _ _ _ _ H1), (decide_ext _ _ _ _ H2). Qed.

Lemma pool_inv_take ts0 i q ws1 ws2 ts : pool_inv ts0 (mkPool (i :: q) (ws1 ++ Waiting :: ws2) ts) ->
  pool_inv ts0 (mkPool q (ws1 ++ Taken i :: ws2) ts).
Proof.
  intros [Hnd Hb Hl Ht He]. simpl in *.
  assert (i :: q ++ active (ws1 ++ Waiting :: ws2) ≡ₚ q ++ active (ws1 ++ Taken i :: ws2)) as Hperm.
  { rewrite !active_app. change (active (Waiting :: ws2)) with (active ws2).
    change (active (Taken i :: ws2)) with (i :: active ws2). by rewrite <- Permutation_middle, <- Permutation_middle. }
  split; simpl.
  - by rewrite <- Hperm.
  - intros j. rewrite <- Hperm. apply Hb.
  - done.
  - intros j t Hj. rewrite (Ht j t Hj). do 2 f_equal. apply expect_same; simpl;
      rewrite ?elem_of_app, ?elem_of_cons; naive_solver.
  - intros Hf. discriminate He. apply elem_of_app in Hf. rewrite !elem_of_app, !elem_of_cons in *. naive_solver.
Qed.

(** The piece of a busy worker is nowhere else. *)
Lemma piece_unique q ws1 ws2 w i : piece_of w = [i] -> NoDup (q ++ active (ws1 ++ w :: ws2)) ->
  i ∉ q /\ Taken i ∉ ws1 ++ ws2 /\ Probing i ∉ ws1 ++ ws2.
Proof.
  intros Hw Hnd. assert (i ∉ q ++ active (ws1 ++ ws2)) as Hi.
  { rewrite active_app in Hnd. change (active (w :: ws2)) with (piece_of w ++ active ws2) in Hnd. rewrite Hw in Hnd. cbn [app] in Hnd.
    rewrite (app_assoc q), <- Permutation_middle, <- app_assoc, <- active_app in Hnd. by apply NoDup_cons in Hnd as []. }
  rewrite elem_of_app, elem_of_active in Hi. tauto.
Qed.

(** A step of the worker on piece [i] that keeps the pieces: target [i] gets
    what is expected of it after the step. *)
Lemma pool_inv_busy ts0 i q ws1 ws2 w w' ts t t0 : piece_of w = [i] -> (piece_of w' = [i] \/ w' = Waiting) ->
  w' <> Taken i ->
  pool_inv ts0 (mkPool q (ws1 ++ w :: ws2) ts) -> ts0 !! i = Some t0 ->
  expect (mkPool q (ws1 ++ w' :: ws2) ts) i t0 = t ->
  pool_inv ts0 (mkPool q (ws1 ++ w' :: ws2) (<[i := Some t]> ts)).
Proof.
  intros Hw Hw' Hnt [Hnd Hb Hl Ht He] Hi0 Hexp. simpl in *.
  destruct (piece_unique q ws1 ws2 w i Hw Hnd) as (Hq & HT & HP).
  assert (forall j, j ∈ active (ws1 ++ w' :: ws2) -> j ∈ active (ws1 ++ w :: ws2)) as Hsub.
  { intros j. rewrite !active_app, !elem_of_app. change (active (w' :: ws2)) with (piece_of w' ++ active ws2).
    change (active (w :: ws2)) with (piece_of w ++ active ws2). rewrite !elem_of_app, Hw.
    destruct Hw' as [-> | ->]; simpl; set_solver. }
  assert (forall j x, j <> i -> (x = Taken j \/ x = Probing j) -> x ∈ ws1 ++ w :: ws2 <-> x ∈ ws1 ++ w' :: ws2) as Hother.
  { intros j x Hj Hx. rewrite !elem_of_app, !elem_of_cons.
    assert (x <> w) by (intros ->; destruct Hx as [-> | ->]; simpl in Hw; congruence).
    assert (x <> w') by (intros ->; destruct Hw' as [Hw'|Hw'], Hx as [-> | ->]; simpl in Hw'; congruence). tauto. }
  split; simpl.
  - apply NoDup_app in Hnd as (Hnq & Hdis & Hna). apply NoDup_app. split_and!; [done|set_solver|].
    rewrite active_app in Hna |- *. change (active (w' :: ws2)) with (piece_of w' ++ active ws2).
    change (active (w :: ws2)) with (piece_of w ++ active ws2) in Hna. rewrite Hw in Hna. cbn [app] in Hna.
    destruct Hw' as [-> | ->]; [done|]. simpl. rewrite <- Permutation_middle in Hna. by apply NoDup_cons in Hna as [].
  - intros j [Hj|Hj]%elem_of_app; apply Hb, elem_of_app; auto.
  - by rewrite length_insert.
  - intros j tj Hj. destruct (decide (j = i)) as [-> |Hne].
    + rewrite list_lookup_insert_eq by (rewrite Hl; by eapply lookup_lt_Some). simplify_eq. done.
    + rewrite list_lookup_insert_ne by done. rewrite (Ht j tj Hj). do 2 f_equal. apply expect_same; simpl.
      * by rewrite (Hother j (Taken j)) by auto.
      * apply Hother with j; auto.
  - intros Hf. apply He. rewrite elem_of_app, elem_of_cons in Hf |- *. destruct Hf as [Hf|[Hf|Hf]]; [by left| |by right; right].
    destruct Hw' as [Hw'| ->]; [|done]. by subst w'.
Qed.

Lemma pool_inv_step ts0 p p' : pool_step TCPProbe ICMPProbe p p' -> pool_inv ts0 p -> pool_inv ts0 p'.
Proof.
  intros Hstep Hinv. destruct Hstep as [i q ws1 ws2 ts|ws1 ws2 ts|i q ws1 ws2 ts t Hi|i q ws1 ws2 ts t Hi].
  - by apply pool_inv_take.
  - destruct Hinv as [Hnd Hb Hl Ht He]. simpl in *. rewrite active_app in Hnd, Hb.
    split; simpl; rewrite ?active_app; try done. intros j t Hj. rewrite (Ht j t Hj). do 2 f_equal.
    apply expect_same; simpl; rewrite ?elem_of_app, ?elem_of_cons; naive_solver.
  - assert (exists t0, ts0 !! i = Some t0) as [t0 Hi0].
    { apply lookup_lt_is_Some_2. apply (inv_bound _ _ Hinv). simpl. rewrite active_app. set_solver. }
    pose proof (inv_target _ _ Hinv i t0 Hi0) as Hexp. simpl in Hexp. rewrite Hi in Hexp. injection Hexp as ->.
    destruct (piece_unique q ws1 ws2 (Taken i) i eq_refl (inv_nodup _ _ Hinv)) as (Hq & HT & HP).
    apply (pool_inv_busy ts0 i q ws1 ws2 (Taken i) (Probing i) ts _ t0); [done|by left|done|done|done|]. unfold expect. simpl.
    rewrite (decide_False (P := i ∈ q \/ Taken i ∈ ws1 ++ Probing i :: ws2)), decide_True, decide_True; [done|..];
      rewrite ?elem_of_app, ?elem_of_cons in *; naive_solver.
  - assert (exists t0, ts0 !! i = Some t0) as [t0 Hi0].
    { apply lookup_lt_is_Some_2. apply (inv_bound _ _ Hinv). simpl. rewrite active_app. set_solver. }
    pose proof (inv_target _ _ Hinv i t0 Hi0) as Hexp. simpl in Hexp. rewrite Hi in Hexp. injection Hexp as ->.
    destruct (piece_unique q ws1 ws2 (Probing i) i eq_refl (inv_nodup _ _ Hinv)) as (Hq & HT & HP).
    apply (pool_inv_busy ts0 i q ws1 ws2 (Probing i) Waiting ts _ t0); [done|by right|done|done|done|]. unfold expect. simpl.
    rewrite (decide_False (P := i ∈ q \/ Taken i ∈ ws1 ++ Waiting :: ws2)),
      (decide_False (P := Probing i ∈ ws1 ++ Waiting :: ws2)),
      (decide_False (P := i ∈ q \/ Taken i ∈ ws1 ++ Probing i :: ws2)), decide_True; [done|..];
      rewrite ?elem_of_app, ?elem_of_cons in *; naive_solver.
Qed.

(** Every step uses up one of the steps the pieces and workers have left. *)
Definition weight (w : worker) : nat :=
  match w with Waiting => 1 | Taken _ => 3 | Probing _ => 2 | Finished => 0 end.
Definition steps_left (p : pool) : nat := (3 * length (queue p) + sum_list (map weight (workers p)))%nat.

Lemma pool_step_left p p' : pool_step TCPProbe ICMPProbe p p' -> steps_left p = S (steps_left p').
Proof.
  unfold steps_left. destruct 1; simpl; rewrite !map_app, !sum_list_with_app || rewrite !map_app; simpl;
    rewrite ?sum_list_with_app; simpl; lia.
Qed.

Lemma pool_steps_bound n p p' : nsteps (pool_step TCPProbe ICMPProbe) n p p' -> steps_left p = (n + steps_left p')%nat.
Proof. induction 1 as [|n p p1 p2 H1 _ IH]; [done|]. rewrite (pool_step_left _ _ H1). lia. Qed.

Lemma pool_step_workers p p' : pool_step TCPProbe ICMPProbe p p' -> length (workers p) = length (workers p').
Proof. destruct 1; simpl; by rewrite !length_app. Qed.

Lemma pool_stuck ts0 p : pool_inv ts0 p -> (forall p', ~ pool_step TCPProbe ICMPProbe p p') ->
  Forall (.= Finished) (workers p).
Proof.
  destruct p as [q ws ts]. intros Hinv Hstuck. simpl. apply Forall_forall. intros w Hw.
  apply list_elem_of_split in Hw as (ws1 & ws2 & ->).
  assert (forall i, piece_of w = [i] -> exists t, ts !! i = Some (Some t)) as Hbusy.
  { intros i Hi. assert (i < length ts0)%nat as [t0 Ht0]%lookup_lt_is_Some_2.
    { apply (inv_bound _ _ Hinv). simpl. rewrite active_app. change (active (w :: ws2)) with (piece_of w ++ active ws2).
      rewrite Hi. set_solver. }
    pose proof (inv_target _ _ Hinv i t0 Ht0). simpl in *. eauto. }
  destruct w as [|i|i|]; [| | |done]; exfalso.
  - destruct q as [|i q]; eapply Hstuck; [apply step_end|apply step_take].
  - destruct (Hbusy i eq_refl) as [t Ht]. eapply Hstuck. by eapply step_start.
  - destruct (Hbusy i eq_refl) as [t Ht]. eapply Hstuck. by eapply step_write.
Qed.

Lemma Parallelize_inv n (ts0 : list Target) : pool_inv ts0 (Parallelize n (length ts0) (Some <$> ts0)).
Proof.
  assert (forall k, active (replicate k Waiting) = []) as Ha by (induction k; done).
  split; simpl; rewrite ?Ha, ?app_nil_r.
  - apply NoDup_seq.
  - intros i Hi%elem_of_seq. lia.
  - by rewrite length_fmap.
  - intros i t Hi. rewrite list_lookup_fmap, Hi. simpl. unfold expect. rewrite decide_True; [done|].
    left. simpl. apply elem_of_seq. apply lookup_lt_Some in Hi. lia.
  - intros [Hf _]%elem_of_replicate. done.
Qed.

Lemma pool_finished ts0 p : pool_inv ts0 p -> Forall (.= Finished) (workers p) -> (ts0 <> [] -> workers p <> []) ->
  targets p = (fun t => Some (probed TCPProbe ICMPProbe (started t))) <$> ts0.
Proof.
  intros Hinv Hf Hne. apply list_eq_same_length with (length ts0); [by rewrite length_fmap|apply (inv_length _ _ Hinv)|].
  intros i x y Hi Hx Hy. rewrite list_lookup_fmap in Hy. destruct (ts0 !! i) as [t|] eqn:Et; [|done]. simplify_eq/=.
  rewrite (inv_target _ _ Hinv i t Et) in Hx. injection Hx as <-. f_equal. unfold expect.
  assert (queue p = []) as ->.
  { apply (inv_end _ _ Hinv). destruct (workers p) as [|w ws]; [by destruct Hne; [intros ->|]|].
    apply Forall_cons in Hf as [-> _]. by apply elem_of_cons; left. }
  rewrite Forall_forall in Hf.
  rewrite !decide_False; [done| |]; [by intros H%Hf|]. intros [H%not_elem_of_nil|H%Hf]; done.
Qed.

End PoolLemmas.

Lemma validate_not_nil ts : validate ts = Ret None -> exists l, ts = Some <$> l.
Proof.
  induction ts as [|[t|] ts IH]; [by exists []| |done]. cbn [validate]. repeat case_match; try done.
  intros Hv. destruct (IH Hv) as [l ->]. by exists (t :: l).
Qed.

Lemma HandleProbe_pool body p : HandleProbe body = Ret (inr p) ->
  exists ts, p = Parallelize (length ts / 5 + 1) (length ts) (Some <$> ts).
Proof.
  unfold HandleProbe. intros H. destruct body as [bs|]; [|done]. destruct (parse_json bs) as [j|]; [|done].
  destruct (decode_probe j) as [ts|]; [|done]. destruct (validate ts) as [[code|]|] eqn:Ev; try done.
  cbn [outcome_bind] in H. destruct (_ <? _)%nat; [done|]. injection H as <-.
  apply validate_not_nil in Ev as [l ->]. exists l. by rewrite length_fmap.
Qed.

(** ** Properties *)

(** C27: what a node sends is what its peers store.  Every request of [Client]
    goes to the pod of another node the sender has a verdict on, and a peer
    with the same HMAC key that receives its body accepts it, at any time, and
    replaces its entry for the sender with the sender's verdicts, stamped with
    its own clock. *)
Theorem result_roundtrip `{R : GoRange} (CommunicateRetryTime : Z) (NodeIP : string) (env : string -> nat -> attempt_env)
    (sA sB : HealthState) (conf : option ConfigMap) (now : Z) (des : string) (rqs : list request) (rq : request) :
  ascii_only NodeIP -> wf_details (CopyLocalResultData (Result sA) NodeIP) ->
  (forall i, hmacKey (at_conf (env des i)) = hmacKey conf) ->
  (des, rqs) ∈ Client CommunicateRetryTime NodeIP env sA -> rq ∈ rqs ->
  des <> NodeIP /\ is_Some (CopyLocalResultData (Result sA) NodeIP !! des)
  /\ (exists i, Z.of_nat i < CommunicateRetryTime /\ GetPodIPByNodeIP (at_pods (env des i)) des = Some (rq_pod rq))
  /\ handle_result conf now (Some (rq_body rq)) sB
     = (set_result sB (<[NodeIP := Some (stamp now <$> CopyLocalResultData (Result sA) NodeIP)]> (Result sB)), 200).
Proof.
  intros Hip Hwf Hkey Hdes Hrq. unfold Client in Hdes.
  destruct (GetLocalResultData (Result sA) NodeIP) as [m0|]; [|by apply not_elem_of_nil in Hdes].
  set (m := CopyLocalResultData (Result sA) NodeIP) in *.
  apply list_elem_of_fmap in Hdes as (d & [= <- ->] & Hd). apply list_elem_of_fmap in Hd as ([d' v] & -> & Hv%elem_of_go_range).
  simpl in *. destruct (String.eqb_spec d' NodeIP) as [-> |Hne]; [by apply not_elem_of_nil in Hrq|].
  assert (m <> ∅) as Hm by (intros E; rewrite E in Hv; by rewrite lookup_empty in Hv).
  destruct (put_loop_request (Z.to_nat CommunicateRetryTime) 0 NodeIP d' m (env d') rq Hrq) as (i & Hi & Hpod & Hbody).
  split_and!; [done|by exists v| |].
  - exists i. split; [lia|done].
  - rewrite Hbody. by apply handle_signed.
Qed.

(** Node 1 has found node 2 well. *)
Definition ex_sender : HealthState :=
  mkHealthState ∅ {["10.0.0.1"%string := Some {["10.0.0.2"%string := mkResultDetail true "" 100]}]} [] [].
Definition ex_attempt : attempt_env :=
  mkAttempt None (Some [mkPod (named "kube-system" "p2") "n2" "10.0.0.2" "172.16.0.2"]) (Status 200).
Definition ex_request : request :=
  mkRequest "172.16.0.2" (print_json (json_of_message (signed None "10.0.0.1" {["10.0.0.2"%string := mkResultDetail true "" 100]}))).

Lemma ex_sender_wf : wf_details (CopyLocalResultData (Result ex_sender) "10.0.0.1").
Proof.
  change (CopyLocalResultData _ _) with ({["10.0.0.2"%string := mkResultDetail true "" 100]} : gmap string ResultDetail).
  intros k d Hk. apply lookup_singleton_Some in Hk as [<- <-].
  split; [ascii_literal|]. split; [ascii_literal|split; reflexivity || discriminate].
Defined.

Lemma result_roundtrip_witness :
  handle_result None 130 (Some (rq_body ex_request)) initData
    = (set_result initData (<["10.0.0.1"%string := Some (stamp 130 <$> CopyLocalResultData (Result ex_sender) "10.0.0.1")]>
         (Result initData)), 200).
Proof.
  eapply (result_roundtrip (R := range_in_key_order) 3 "10.0.0.1" (fun _ _ => ex_attempt) ex_sender initData None 130 "10.0.0.2"
    [ex_request] ex_request); [ascii_literal|apply ex_sender_wf|reflexivity| |by apply elem_of_cons; left].
  assert (Client (H := range_in_key_order) 3 "10.0.0.1" (fun _ _ => ex_attempt) ex_sender = [("10.0.0.2"%string, [ex_request])])
    as -> by (vm_compute; reflexivity).
  by apply elem_of_cons; left.
Defined.

(** The signed text determines the message.  Two messages with the same
    text under the HMAC have the same source and the same verdicts (nil and
    empty told apart), so a signature of one message is not a signature of
    another. *)
Theorem signed_injective (c c' : CommunicateData) :
  ascii_only (SourceIP c) -> ascii_only (SourceIP c') ->
  wf_details (mp (cd_ResultDetail c)) -> wf_details (mp (cd_ResultDetail c')) ->
  hmacBefore c = hmacBefore c' -> SourceIP c = SourceIP c' /\ cd_ResultDetail c = cd_ResultDetail c'.
Proof.
  assert (forall m : gomap ResultDetail, wf_details (mp m) ->
    printable (json_of_gomap m) /\ decode_details None (json_of_gomap m) = Some m) as Hm.
  { intros [m|] Hm; [|done]. split; [by apply json_of_details_printable|by apply decode_details_printed]. }
  assert (forall m : gomap ResultDetail, stops (print_json (json_of_gomap m))) as Hstop
    by (intros [m|]; repeat split; discriminate).
  intros Hs Hs' Hd Hd' He. destruct (Hm _ Hd) as [Hp Hdec], (Hm _ Hd') as [Hp' Hdec'].
  pose proof (parse_first_printed (JStr (SourceIP c)) _ Hs (Hstop (cd_ResultDetail c))) as H1.
  pose proof (parse_first_printed (JStr (SourceIP c')) _ Hs' (Hstop (cd_ResultDetail c'))) as H2.
  unfold hmacBefore in He. rewrite He, H2 in H1. injection H1 as E1 E2. split; [done|].
  apply parse_stream_printed in Hp, Hp'. congruence.
Qed.

Lemma signed_injective_witness :
  let c := mkCommunicateData "10.0.0.1" (Some (CopyLocalResultData (Result ex_sender) "10.0.0.1")) "" in
  SourceIP c = SourceIP (mkCommunicateData "10.0.0.1" (cd_ResultDetail c) "other").
Proof.
  eapply (signed_injective _ (mkCommunicateData "10.0.0.1" _ "other"));
    [ascii_literal|ascii_literal|apply ex_sender_wf|apply ex_sender_wf|reflexivity].
Defined.

(** The worker pool of /probe is correct in every interleaving.  A run of
    the workers makes at most three steps per target and one per worker, and
    when no worker has a step left every worker has ended and every target
    holds the answer of its own probe, each probed once. *)
Theorem probe_pool (TCPProbe : string -> Z -> bool) (ICMPProbe : string -> bool) (body : option (list Z)) (p0 p : pool) (n : nat) :
  HandleProbe body = Ret (inr p0) -> nsteps (pool_step TCPProbe ICMPProbe) n p0 p ->
  (n <= 3 * length (targets p0) + length (workers p0))%nat
  /\ ((forall p', ~ pool_step TCPProbe ICMPProbe p p') ->
      Forall (.= Finished) (workers p)
      /\ targets p = option_map (fun t => probed TCPProbe ICMPProbe (started t)) <$> targets p0).
Proof.
  intros Hh Hsteps. apply HandleProbe_pool in Hh as [ts ->].
  set (p0 := Parallelize _ _ _) in *. assert (pool_inv TCPProbe ICMPProbe ts p) as Hinv.
  { eapply (rtc_invariant (pool_step TCPProbe ICMPProbe)); [apply pool_inv_step|apply rtc_nsteps_2 in Hsteps; exact Hsteps|].
    apply Parallelize_inv. }
  assert (length (workers p) = length (workers p0)) as Hlen.
  { clear Hinv. induction Hsteps as [|k x y z Hxy _ IH]; [done|]. by rewrite IH, <- (pool_step_workers _ _ _ _ Hxy). }
  split.
  - pose proof (pool_steps_bound _ _ _ _ _ Hsteps) as Hb. unfold steps_left in Hb. unfold p0 in *. simpl in *.
    rewrite length_seq, length_fmap, length_replicate in *.
    assert (forall k, sum_list (map weight (replicate k Waiting)) = k) as Hsum by (induction k; simpl; lia).
    rewrite Hsum in Hb. lia.
  - intros Hstuck. pose proof (pool_stuck _ _ _ _ Hinv Hstuck) as Hf. split; [done|].
    rewrite (pool_finished _ _ _ _ Hinv Hf).
    + unfold p0. simpl. rewrite <- list_fmap_compose. done.
    + intros Hts Hw. rewrite Hw in Hlen. unfold p0 in Hlen. simpl in Hlen. rewrite length_replicate in Hlen.
      destruct ts; [done|]. simpl length in Hlen. case_match; lia.
Qed.

(** One target, with no protocol: a worker takes the piece, allocates its
    answer, writes it and ends. *)
Definition ex_probe_body : list Z := print_json (JObj [("targets"%string, JArr [JObj [("ip"%string, JStr "10.0.0.2")]])]).

Lemma probe_pool_witness :
  let t := mkTarget "" "10.0.0.2" 0 "" None in
  targets (mkPool [] [Finished] [Some (started t)])
    = option_map (fun t => probed (fun _ _ => true) (fun _ => true) (started t)) <$> targets (Parallelize 1 1 [Some t]).
Proof.
  cbv zeta. eapply (probe_pool (fun _ _ => true) (fun _ => true) (Some ex_probe_body) _
    (mkPool [] [Finished] [Some (started (mkTarget "" "10.0.0.2" 0 "" None))]) 4); [vm_compute; reflexivity| |].
  - eapply nsteps_l; [apply (step_take _ _ 0 [] [] [])|]. eapply nsteps_l; [by apply (step_start _ _ 0 [] [] [])|].
    eapply nsteps_l; [by apply (step_write _ _ 0 [] [] [])|]. eapply nsteps_l; [apply (step_end _ _ [] [])|]. apply nsteps_O.
  - intros p' Hs. inversion Hs as [? ? ws1 ? ? Hq|ws1 ? ? Hq Hw|? ? ws1 ? ? ? ? Hq Hw|? ? ws1 ? ? ? ? Hq Hw]; destruct ws1 as [|? [|]]; discriminate.
Defined.

(** ** The wrapper's view of the verdicts *)

(** Two reports that agree on the names of the nodes. *)
Definition same_reports (nodes : nodes_map) (info info' : node_info) : Prop :=
  forall k n, nodes !! k = Some n -> info !! Name (node_meta (node n)) = info' !! Name (node_meta (node n)).

Lemma concerned_same_report keys h nodes info info' u nm : same_reports nodes info info' ->
  concerned keys h nodes info u nm = concerned keys h nodes info' u nm.
Proof.
  intros H. unfold concerned. destruct nm as [name|]; [|done].
  destruct (nodes !! mkNN "" name) as [n|] eqn:En; [|done]. by rewrite (H _ _ En).
Qed.

Lemma concerned_info_same_report nodes info info' nm : same_reports nodes info info' ->
  concerned_info nodes info nm = concerned_info nodes info' nm.
Proof.
  intros H. unfold concerned_info. destruct nm as [name|]; [|done].
  destruct (nodes !! mkNN "" name) as [n|] eqn:En; [|done]. by rewrite (H _ _ En).
Qed.

Lemma pruneEndpoints_same_report host nodes services eps info info' wic sae : same_reports nodes info info' ->
  pruneEndpoints host nodes services eps info wic sae = pruneEndpoints host nodes services eps info' wic sae.
Proof.
  intros H. unfold pruneEndpoints. repeat case_match; try done; apply map_subsets_ext; intros l.
  all: unfold filterConcernedAddresses, filterLocalNodeInfoConcernedAddresses; repeat case_match; try done.
  all: f_equal; apply filter_bool_ext; intros a; by apply concerned_same_report || apply concerned_info_same_report.
Qed.

(** The wrapper learns the verdicts of its own node: what /localinfo
    answers is decoded to exactly this node's table, keyed by the checked
    addresses.  Pruning looks a node up by its name, so when no node of the
    cache is named by a checked address the report changes nothing. *)
Theorem localinfo_read `{R : GoRange} `{SemanticEq Endpoints} `{SemanticEq EndpointSliceV1} `{SemanticEq EndpointSliceV1Beta1}
    (NodeIP : string) (s : HealthState) (sc : storageCache) :
  wf_details (CopyLocalResultData (Result s) NodeIP) ->
  let info := CopyLocalResultData (Result s) NodeIP in
  NodeStatusAcquisition (Some (200, handle_localinfo NodeIP "" s)) sc = SetLocalNodeInfo sc info
  /\ ((forall k n, nodesMap sc !! k = Some n -> info !! Name (node_meta (node n)) = None) ->
      forall eps : Endpoints, pruned (set_info sc info) eps = pruned (ClearLocalNodeInfo sc) eps).
Proof.
  intros Hwf info. split.
  - unfold NodeStatusAcquisition, handle_localinfo, Encode. cbn [nonempty String.eqb negb app]. rewrite Z.eqb_refl. cbn [negb].
    unfold parse_stream. rewrite parse_first_printed; [|by apply json_of_details_printable|by repeat split].
    cbn [fmap option_fmap option_map fst]. by rewrite decode_details_printed.
  - intros Hnames eps. unfold pruned, prune, Endpoints_prunable. apply pruneEndpoints_same_report.
    intros k n Hk. simpl. rewrite lookup_empty. by eapply Hnames.
Qed.

Lemma localinfo_read_witness :
  let sc := NewStorageCache "n1" true true false in
  NodeStatusAcquisition (R := range_in_key_order) (H := leibniz_semantic_eq _) (H0 := leibniz_semantic_eq _)
    (H1 := leibniz_semantic_eq _) (Some (200, handle_localinfo "10.0.0.1" "" ex_sender)) sc
  = SetLocalNodeInfo (R := range_in_key_order) (H := leibniz_semantic_eq _) (H0 := leibniz_semantic_eq _)
      (H1 := leibniz_semantic_eq _) sc (CopyLocalResultData (Result ex_sender) "10.0.0.1").
Proof. intros sc. eapply (localinfo_read "10.0.0.1" ex_sender sc), ex_sender_wf. Defined.

(** With a fullmesh parameter /localinfo answers two documents, which do not
    parse as one. *)
Lemma localinfo_fullmesh : parse_json (handle_localinfo "10.0.0.1" "1" ex_sender) = None.
Proof. vm_compute. reflexivity. Qed.

(** The test vectors of [TestGetHmacCode]. *)
Example GetHmacCode_vectors :
  GetHmacCode (bytes_of "abcde") "12345" = "f8f78e4c506669fdd116876d08adf809ed7c33585078dcfd4e6fe863b7ea966a"%string
  /\ GetHmacCode (bytes_of "helloworld") "passkey" = "b33350ac6988d60bf85739f71f73df3b2252a20ee650d271e34ca5799b8a5334"%string.
Proof. vm_compute. split; reflexivity. Qed.
