(* ===== verification/Admission.v ===== *)
(** * The admission webhooks (pkg/edge-health-admission)

    The API server asks the webhooks about updates of nodes and endpoints.
    [nodeTaint] removes the unreachable taint from a node the edge does not
    report as failed, [endPoint] moves the addresses of such nodes back to
    the ready ones, both by JSON patches, and [serve] wraps them.  Applying a
    patch is the API server's work: it is an interface here, with the laws of
    RFC 6902 for the paths the webhooks use.  The theorems give what the
    patches do, when they fail, and where the handlers panic. *)

From Stdlib Require Import ZArith Lia Ascii String.
From stdpp Require Import base strings gmap numbers sorting list.
From S2P Require Import Prelude.
From S2P Require Import GoStd.
From S2P Require Import K8s.

Local Open Scope Z_scope.
Local Open Scope go_scope.

(** ** Taints and conditions (util/util.go) *)

(** [Taint.MatchTaint] of k8s.io/api: the key and the effect. *)
Definition MatchTaint (t t' : Taint) : bool :=
  String.eqb (tt_Key t) (tt_Key t') && String.eqb (tt_Effect t) (tt_Effect t').

Fixpoint TaintExists (taints : list Taint) (taintToFind : Taint) : bool :=
  match taints with
  | [] => false
  | taint :: taints => if MatchTaint taint taintToFind then true else TaintExists taints taintToFind
  end.

Fixpoint position_from {A : Type} (f : A -> bool) (index : Z) (l : list A) : Z * bool :=
  match l with
  | [] => (-1, false)
  | x :: l => if f x then (index, true) else position_from f (index + 1) l
  end.

Definition TaintExistsPosition (taints : list Taint) (taintToFind : Taint) : Z * bool :=
  position_from (fun taint => MatchTaint taint taintToFind) 0 taints.

Definition TaintSetDiff (t1 t2 : list Taint) : list Taint * list Taint :=
  (filter (fun taint => TaintExists t2 taint = false) t1, filter (fun taint => TaintExists t1 taint = false) t2).

(** [None] for the status is the nil pointer. *)
Definition GetNodeCondition (status : option (list NodeCondition)) (conditionType : string) : Z * option NodeCondition :=
  match status with
  | None => (-1, None)
  | Some conditions =>
      let '(i, found) := position_from (fun c => String.eqb (nc_Type c) conditionType) 0 conditions in
      (i, if found then conditions !! Z.to_nat i else None)
  end.

(** ** Requests, responses and patches *)

Record GroupVersionResource : Type := mkGVR { gvr_Group : string; gvr_Version : string; gvr_Resource : string }.
#[export] Instance GroupVersionResource_eq_dec : EqDecision GroupVersionResource.
Proof. solve_decision. Defined.

Record AdmissionRequest : Type := mkAdmissionRequest {
  req_UID : string;
  req_Resource : GroupVersionResource;
  req_Object : string;
  req_OldObject : string
}.

(** The paths the webhooks format, with their indices. *)
Inductive Path : Type :=
| taint_path (i : Z)
| notReadyAddress_path (i1 i2 : nat)
| address_path (i1 i2 : nat).

(** A removal has no value; the value added is an endpoint address. *)
Inductive Patch : Type :=
| remove (path : Path)
| add (path : Path) (value : EndpointAddress).

(** [Patch] and [PatchType] are set together; [Result] holds a message. *)
Record AdmissionResponse : Type := mkAdmissionResponse {
  resp_UID : string;
  resp_Allowed : bool;
  resp_Patch : option (list Patch);
  resp_Result : option string
}.

Definition allowed (patches : list Patch) : AdmissionResponse :=
  mkAdmissionResponse EmptyString true (match patches with [] => None | _ => Some patches end) None.

Definition toAdmissionResponse (err : string) : AdmissionResponse :=
  mkAdmissionResponse EmptyString false None (Some err).

(** The pointer is dereferenced without a test. *)
Definition deref {A : Type} (p : option A) : outcome A :=
  match p with
  | Some a => Ret a
  | None => Panic "nil pointer dereference"
  end.

(** ** Nodes (nodetaint.go) *)

Definition UnreachNoExecuteTaint : Taint := mkTaint "node.kubernetes.io/unreachable" "" "NoExecute".
Definition NodeReady : string := "Ready".
Definition ConditionUnknown : string := "Unknown".

Definition unhealthy (m : ObjectMeta) : bool := bool_decide (is_Some (mp (Annotations m) !! "nodeunhealth"%string)).

Section NodeTaint.
(** The deserializer of k8s.io/apimachinery, on nodes: the node or an error. *)
Context (Decode : string -> Node + string) (NodeAlwaysReachable : bool).

Definition decodeRawNode (ar : AdmissionRequest) (version : string) : Node + string :=
  Decode (if String.eqb version "new" then req_Object ar
          else if String.eqb version "old" then req_OldObject ar else EmptyString).

Definition taint_patches (nodeNew nodeOld : Node) : list Patch :=
  let '(taintsToAdd, _) := TaintSetDiff (sl (node_Taints nodeNew)) (sl (node_Taints nodeOld)) in
  if snd (TaintExistsPosition taintsToAdd UnreachNoExecuteTaint) then
    let '(index, _) := TaintExistsPosition (sl (node_Taints nodeNew)) UnreachNoExecuteTaint in
    [remove (taint_path index)]
  else if snd (TaintExistsPosition (sl (node_Taints nodeNew)) UnreachNoExecuteTaint) then
    let '(index, _) := TaintExistsPosition (sl (node_Taints nodeNew)) UnreachNoExecuteTaint in
    [remove (taint_path index)]
  else [].

Definition nodeTaint (request : option AdmissionRequest) : outcome AdmissionResponse :=
  let* ar := deref request in
  if negb (bool_decide (req_Resource ar = mkGVR "" "v1" "nodes")) then Ret (allowed [])
  else
    match decodeRawNode ar "new" with
    | inr err => Ret (toAdmissionResponse err)
    | inl nodeNew =>
        match decodeRawNode ar "old" with
        | inr err => Ret (toAdmissionResponse err)
        | inl nodeOld =>
            let '(_, condition) := GetNodeCondition (Some (sl (node_Conditions nodeNew))) NodeReady in
            let* condition := deref condition in
            if String.eqb (nc_Status condition) ConditionUnknown
               && (negb (unhealthy (node_meta nodeNew)) || NodeAlwaysReachable)
            then Ret (allowed (taint_patches nodeNew nodeOld))
            else Ret (allowed [])
        end
    end.

End NodeTaint.

(** ** Endpoints (endpoint.go) *)

Section EndPoint.
(** The deserializer on endpoints, and the API server's answer about a node. *)
Context (Decode : string -> Endpoints + string) (Get : string -> option Node).

Definition decodeRawEndPoint (ar : AdmissionRequest) (version : string) : Endpoints + string :=
  Decode (if String.eqb version "new" then req_Object ar
          else if String.eqb version "old" then req_OldObject ar else EmptyString).

(** The body of the inner loop: the patches for one not-ready address. *)
Definition address_patches (i1 i2 : nat) (a : EndpointAddress) : outcome (list Patch) :=
  let* nodeName := deref (ea_NodeName a) in
  match Get nodeName with
  | None => Ret []
  | Some node =>
      let '(_, condition) := GetNodeCondition (Some (sl (node_Conditions node))) NodeReady in
      if unhealthy (node_meta node) then Ret []
      else
        let* condition := deref condition in
        if String.eqb (nc_Status condition) ConditionUnknown then
          let* TargetRef := deref (ea_TargetRef a) in
          Ret [remove (notReadyAddress_path i1 i2);
               add (address_path i1 i2) (mkEndpointAddressRef (ea_IP a) (ea_Hostname a) (ea_NodeName a) (Some TargetRef))]
        else Ret []
  end.

Fixpoint notReady_loop (i1 i2 : nat) (l : list EndpointAddress) : outcome (list Patch) :=
  match l with
  | [] => Ret []
  | a :: l =>
      let* ps := address_patches i1 i2 a in
      let* rest := notReady_loop i1 (S i2) l in
      Ret (ps ++ rest)
  end.

Fixpoint subsets_loop (i1 : nat) (l : list EndpointSubset) : outcome (list Patch) :=
  match l with
  | [] => Ret []
  | s :: l =>
      let* ps := notReady_loop i1 0 (sl (es_NotReadyAddresses s)) in
      let* rest := subsets_loop (S i1) l in
      Ret (ps ++ rest)
  end.

Definition endPoint (request : option AdmissionRequest) : outcome AdmissionResponse :=
  let* ar := deref request in
  if negb (bool_decide (req_Resource ar = mkGVR "" "v1" "endpoints")) then Ret (allowed [])
  else
    match decodeRawEndPoint ar "new" with
    | inr err => Ret (toAdmissionResponse err)
    | inl endpointNew =>
        let* patches := subsets_loop 0 (sl (eps_Subsets endpointNew)) in
        Ret (allowed patches)
    end.

End EndPoint.

(** ** Serving a review (nodetaint.go, serve) *)

(** [DecodeReview] gives the request as far as it was filled in (nil when the
    body holds none) and the error; [None] for the result is a request that
    is not answered. *)
Definition serve (DecodeReview : string -> option AdmissionRequest * option string)
    (admitFunc : option AdmissionRequest -> outcome AdmissionResponse) (contentType body : string)
    : outcome (option AdmissionResponse) :=
  if negb (String.eqb contentType "application/json") then Ret None
  else
    let '(request, err) := DecodeReview body in
    let* response := match err with
                     | Some err => Ret (toAdmissionResponse err)
                     | None => admitFunc request
                     end in
    let* r := deref request in
    Ret (Some (mkAdmissionResponse (req_UID r) (resp_Allowed response) (resp_Patch response) (resp_Result response))).

(** ** Applying patches

    The API server applies the operations in order and rejects the request
    when one fails.  The laws are RFC 6902's: the place removed must exist;
    an element is inserted at an index that is at most the length of an array
    that exists, and an array of addresses that is empty is left out of the
    object. *)

Definition with_taints (n : Node) (l : list Taint) : Node :=
  mkNode (node_meta n) (Some l) (node_Conditions n) (node_Addresses n).

Definition with_subset (e : Endpoints) (i : nat) (s : EndpointSubset) : Endpoints :=
  mkEndpoints (eps_meta e) (Some (<[i := s]> (sl (eps_Subsets e)))).

Definition insert_at {A : Type} (i : nat) (a : A) (l : list A) : list A := take i l ++ a :: drop i l.

Class JsonPatch : Type := {
  apply_node : Patch -> Node -> option Node;
  apply_endpoints : Patch -> Endpoints -> option Endpoints;
  remove_taint : forall i n t, 0 <= i -> sl (node_Taints n) !! Z.to_nat i = Some t ->
    apply_node (remove (taint_path i)) n = Some (with_taints n (delete (Z.to_nat i) (sl (node_Taints n))));
  remove_notReady : forall i1 i2 e s a, sl (eps_Subsets e) !! i1 = Some s -> sl (es_NotReadyAddresses s) !! i2 = Some a ->
    apply_endpoints (remove (notReadyAddress_path i1 i2)) e
      = Some (with_subset e i1 (mkEndpointSubset (es_Addresses s) (Some (delete i2 (sl (es_NotReadyAddresses s)))) (es_Ports s)));
  remove_missing : forall i1 i2 e s, sl (eps_Subsets e) !! i1 = Some s -> sl (es_NotReadyAddresses s) !! i2 = None ->
    apply_endpoints (remove (notReadyAddress_path i1 i2)) e = None;
  add_address : forall i1 i2 e s a, sl (eps_Subsets e) !! i1 = Some s -> sl (es_Addresses s) <> [] ->
    (i2 <= length (sl (es_Addresses s)))%nat ->
    apply_endpoints (add (address_path i1 i2) a) e
      = Some (with_subset e i1 (mkEndpointSubset (Some (insert_at i2 a (sl (es_Addresses s)))) (es_NotReadyAddresses s) (es_Ports s)));
  add_missing : forall i1 i2 e s a, sl (eps_Subsets e) !! i1 = Some s ->
    sl (es_Addresses s) = [] \/ (length (sl (es_Addresses s)) < i2)%nat ->
    apply_endpoints (add (address_path i1 i2) a) e = None
}.

Fixpoint apply_all {A : Type} (f : Patch -> A -> option A) (ps : list Patch) (a : A) : option A :=
  match ps with
  | [] => Some a
  | p :: ps => match f p a with Some a => apply_all f ps a | None => None end
  end.

Lemma apply_all_app {A : Type} (f : Patch -> A -> option A) ps ps' a :
  apply_all f (ps ++ ps') a = match apply_all f ps a with Some a => apply_all f ps' a | None => None end.
Proof. revert a. induction ps as [|p ps IH]; intros a; [done|]. simpl. by destruct (f p a). Qed.

(** The laws can hold together. *)
Definition rfc6902 : JsonPatch.
Proof.
  refine {|
    apply_node := fun p n =>
      match p with
      | remove (taint_path i) =>
          match (if i <? 0 then None else sl (node_Taints n) !! Z.to_nat i) with
          | Some _ => Some (with_taints n (delete (Z.to_nat i) (sl (node_Taints n))))
          | None => None
          end
      | _ => None
      end;
    apply_endpoints := fun p e =>
      match p with
      | remove (notReadyAddress_path i1 i2) =>
          match sl (eps_Subsets e) !! i1 with
          | None => None
          | Some s =>
              match sl (es_NotReadyAddresses s) !! i2 with
              | None => None
              | Some _ => Some (with_subset e i1 (mkEndpointSubset (es_Addresses s)
                                  (Some (delete i2 (sl (es_NotReadyAddresses s)))) (es_Ports s)))
              end
          end
      | add (address_path i1 i2) a =>
          match sl (eps_Subsets e) !! i1 with
          | None => None
          | Some s =>
              if ((length (sl (es_Addresses s)) =? 0) || (length (sl (es_Addresses s)) <? i2))%nat then None
              else Some (with_subset e i1 (mkEndpointSubset (Some (insert_at i2 a (sl (es_Addresses s))))
                           (es_NotReadyAddresses s) (es_Ports s)))
          end
      | _ => None
      end
  |}.
  - intros i n t Hi Ht. rewrite (proj2 (Z.ltb_ge _ _)) by lia. by rewrite Ht.
  - intros i1 i2 e s a Hs Ha. by rewrite Hs, Ha.
  - intros i1 i2 e s Hs Ha. by rewrite Hs, Ha.
  - intros i1 i2 e s a Hs Hne Hi. rewrite Hs. destruct (sl (es_Addresses s)) as [|x l]; [done|].
    rewrite orb_false_l. by rewrite (proj2 (Nat.ltb_ge _ _)) by lia.
  - intros i1 i2 e s a Hs [H|H]; rewrite Hs; [by rewrite H|]. by rewrite (proj2 (Nat.ltb_lt _ _)), orb_true_r by lia.
Defined.

(** ** Positions *)

Lemma position_from_spec {A : Type} (f : A -> bool) k l :
  (exists l1 x l2, l = l1 ++ x :: l2 /\ f x = true /\ Forall (fun y => f y = false) l1
     /\ position_from f k l = (k + Z.of_nat (length l1), true))
  \/ (Forall (fun y => f y = false) l /\ position_from f k l = (-1, false)).
Proof.
  revert k. induction l as [|x l IH]; intros k; [by right|]. cbn [position_from]. destruct (f x) eqn:Ef.
  - left. exists [], x, l. split_and!; try done. simpl. f_equal. lia.
  - destruct (IH (k + 1)) as [(l1 & y & l2 & -> & Hy & Hl1 & E)|[Hl E]].
    + left. exists (x :: l1), y, l2. split_and!; try done; [by constructor|]. rewrite E. f_equal. simpl length. lia.
    + right. split; [by constructor|done].
Qed.

Lemma position_from_found {A : Type} (f : A -> bool) k l : snd (position_from f k l) = existsb f l.
Proof. revert k. induction l as [|x l IH]; intros k; simpl; [done|]. by destruct (f x); simpl. Qed.

Lemma TaintExists_existsb l t : TaintExists l t = existsb (fun x => MatchTaint x t) l.
Proof. induction l as [|x l IH]; simpl; [done|]. rewrite IH. by destruct (MatchTaint x t). Qed.

(** Both branches remove the first unreachable taint of the new node. *)
Lemma taint_patches_eq nodeNew nodeOld :
  taint_patches nodeNew nodeOld =
    if TaintExists (sl (node_Taints nodeNew)) UnreachNoExecuteTaint
    then [remove (taint_path (fst (TaintExistsPosition (sl (node_Taints nodeNew)) UnreachNoExecuteTaint)))] else [].
Proof.
  unfold taint_patches, TaintSetDiff, TaintExistsPosition. rewrite !position_from_found, TaintExists_existsb.
  destruct (position_from _ 0 (sl (node_Taints nodeNew))) as [index ok]. cbn [fst].
  destruct (existsb _ (filter _ _)) eqn:E; [|done].
  apply existsb_exists in E as (t & Ht%list_elem_of_In & Hm). apply list_elem_of_filter in Ht as [_ Ht].
  rewrite (proj2 (existsb_exists _ _)); [done|]. exists t. by rewrite <- list_elem_of_In.
Qed.

(** The Ready condition of a node. *)
Definition ready_of (n : Node) : option NodeCondition := snd (GetNodeCondition (Some (sl (node_Conditions n))) NodeReady).

(** ** Lost addresses *)

Section Lost.
Context (Get : string -> option Node).

(** The node of the address is known, not reported as failed, and its
    readiness is unknown. *)
Definition lost (a : EndpointAddress) : bool :=
  match ea_NodeName a with
  | Some name =>
      match Get name with
      | Some n => negb (unhealthy (node_meta n))
                  && match ready_of n with Some c => String.eqb (nc_Status c) ConditionUnknown | None => false end
      | None => false
      end
  | None => false
  end.

(** What the handler dereferences: the node name of every not-ready address,
    the Ready condition of a node without the annotation, the target of a
    lost address. *)
Definition no_nil (a : EndpointAddress) : Prop :=
  exists name, ea_NodeName a = Some name
    /\ (forall n, Get name = Some n -> unhealthy (node_meta n) = false -> is_Some (ready_of n))
    /\ (lost a = true -> is_Some (ea_TargetRef a)).

Definition move_patches (i1 i2 : nat) (a : EndpointAddress) : list Patch :=
  [remove (notReadyAddress_path i1 i2); add (address_path i1 i2) a].

Lemma address_patches_eq i1 i2 a : no_nil a ->
  address_patches Get i1 i2 a = Ret (if lost a then move_patches i1 i2 a else []).
Proof.
  intros (name & Hn & Hc & Ht). unfold address_patches, lost in *. rewrite Hn in *. cbn [deref outcome_bind].
  destruct (Get name) as [n|]; [|done]. specialize (Hc n eq_refl). unfold ready_of in *.
  destruct (GetNodeCondition _ _) as [i c]. simpl in *.
  destruct (unhealthy (node_meta n)); [done|]. destruct (Hc eq_refl) as [c' ->]. simpl in *.
  destruct (String.eqb (nc_Status c') ConditionUnknown); [|done]. destruct (Ht eq_refl) as [r Hr].
  rewrite Hr. cbn [deref outcome_bind]. unfold move_patches. destruct a; simpl in *; congruence.
Qed.

Fixpoint moves (i1 i2 : nat) (l : list EndpointAddress) : list Patch :=
  match l with
  | [] => []
  | a :: l => (if lost a then move_patches i1 i2 a else []) ++ moves i1 (S i2) l
  end.

Lemma notReady_loop_eq i1 i2 l : Forall no_nil l -> notReady_loop Get i1 i2 l = Ret (moves i1 i2 l).
Proof.
  intros H. revert i2. induction H as [|a l Ha H IH]; intros i2; [done|].
  cbn [notReady_loop]. by rewrite address_patches_eq, IH.
Qed.

Fixpoint all_moves (i1 : nat) (l : list EndpointSubset) : list Patch :=
  match l with
  | [] => []
  | s :: l => moves i1 0 (sl (es_NotReadyAddresses s)) ++ all_moves (S i1) l
  end.

Lemma subsets_loop_eq i1 l : Forall (fun s => Forall no_nil (sl (es_NotReadyAddresses s))) l ->
  subsets_loop Get i1 l = Ret (all_moves i1 l).
Proof.
  intros H. revert i1. induction H as [|s l Hs H IH]; intros i1; [done|].
  cbn [subsets_loop]. by rewrite notReady_loop_eq, IH.
Qed.

Lemma moves_none i1 i2 l : Forall (fun a => lost a = false) l -> moves i1 i2 l = [].
Proof. intros H. revert i2. induction H as [|a l Ha H IH]; intros i2; [done|]. simpl. by rewrite Ha, IH. Qed.

Lemma moves_one i1 i2 l1 a l2 : Forall (fun a => lost a = false) l1 -> lost a = true ->
  Forall (fun a => lost a = false) l2 -> moves i1 i2 (l1 ++ a :: l2) = move_patches i1 (i2 + length l1) a.
Proof.
  intros H1 Ha H2. revert i2. induction H1 as [|b l1 Hb H1 IH]; intros i2; simpl.
  - rewrite Ha, moves_none, app_nil_r by done. by rewrite Nat.add_0_r.
  - rewrite Hb, IH. simpl. f_equal; f_equal; f_equal; lia.
Qed.

(** A subset that the patches handle: no lost address, or one whose index is
    an index of the ready addresses, which are not empty. *)
Inductive movable : EndpointSubset -> EndpointSubset -> Prop :=
| movable_none s : Forall (fun a => lost a = false) (sl (es_NotReadyAddresses s)) -> movable s s
| movable_one s l1 a l2 : sl (es_NotReadyAddresses s) = l1 ++ a :: l2 ->
    Forall (fun a => lost a = false) l1 -> lost a = true -> Forall (fun a => lost a = false) l2 ->
    sl (es_Addresses s) <> [] -> (length l1 <= length (sl (es_Addresses s)))%nat ->
    movable s (mkEndpointSubset (Some (insert_at (length l1) a (sl (es_Addresses s)))) (Some (l1 ++ l2)) (es_Ports s)).

Context `{J : JsonPatch}.

Lemma apply_moves meta before s s' after : movable s s' ->
  apply_all apply_endpoints (moves (length before) 0 (sl (es_NotReadyAddresses s)))
    (mkEndpoints meta (Some (before ++ s :: after)))
  = Some (mkEndpoints meta (Some (before ++ s' :: after))).
Proof using J.
  intros [? Hn|? l1 a l2 Hl H1 Ha H2 Hne Hi].
  - by rewrite moves_none.
  - rewrite Hl, moves_one by done. unfold move_patches. cbn [apply_all Nat.add].
    assert (forall x, (before ++ x :: after) !! length before = Some x) as Hat by (intros; by apply list_lookup_middle).
    assert (forall x y, <[length before := y]> (before ++ x :: after) = before ++ y :: after) as Hset
      by (intros; by rewrite insert_app_r_alt, Nat.sub_diag).
    erewrite remove_notReady; [|apply Hat|rewrite Hl; by apply list_lookup_middle].
    unfold with_subset. cbn [sl eps_Subsets default from_option id eps_meta]. rewrite Hset.
    erewrite add_address; [|apply Hat|done|done].
    unfold with_subset. cbn [sl eps_Subsets default from_option id eps_meta es_Addresses es_NotReadyAddresses es_Ports]. rewrite Hset.
    rewrite Hl, delete_middle. done.
Qed.

Lemma apply_all_moves meta before l l' : Forall2 movable l l' ->
  apply_all apply_endpoints (all_moves (length before) l) (mkEndpoints meta (Some (before ++ l)))
  = Some (mkEndpoints meta (Some (before ++ l'))).
Proof using J.
  intros H. revert before. induction H as [|s s' l l' Hs H IH]; intros before; [done|].
  cbn [all_moves]. rewrite apply_all_app, (apply_moves meta before s s' l Hs).
  specialize (IH (before ++ [s'])). rewrite length_app, Nat.add_1_r, <- !app_assoc in IH. exact IH.
Qed.

End Lost.

(** ** Properties *)

(** What the node webhook does to an update of a node.  With a Ready
    condition the update is allowed, and applying the patch removes the first
    unreachable taint, and nothing else, exactly when the condition is
    Unknown, there is such a taint, and the node is not annotated as failed
    (or nodes count as always reachable); in every other case the node is
    unchanged.  Without a Ready condition the handler panics. *)
Theorem nodeTaint_effect `{J : JsonPatch} (Decode : string -> Node + string) (NodeAlwaysReachable : bool)
    (ar : AdmissionRequest) (nodeNew nodeOld : Node) :
  req_Resource ar = mkGVR "" "v1" "nodes" ->
  Decode (req_Object ar) = inl nodeNew -> Decode (req_OldObject ar) = inl nodeOld ->
  match ready_of nodeNew with
  | None => nodeTaint Decode NodeAlwaysReachable (Some ar) = Panic "nil pointer dereference"
  | Some c =>
      exists ps n', nodeTaint Decode NodeAlwaysReachable (Some ar) = Ret (allowed ps)
        /\ apply_all apply_node ps nodeNew = Some n'
        /\ if String.eqb (nc_Status c) ConditionUnknown && (negb (unhealthy (node_meta nodeNew)) || NodeAlwaysReachable)
              && TaintExists (sl (node_Taints nodeNew)) UnreachNoExecuteTaint
           then exists l1 t l2, sl (node_Taints nodeNew) = l1 ++ t :: l2 /\ MatchTaint t UnreachNoExecuteTaint = true
                  /\ TaintExists l1 UnreachNoExecuteTaint = false /\ n' = with_taints nodeNew (l1 ++ l2)
           else n' = nodeNew
  end.
Proof.
  intros Hr Hn Ho. unfold nodeTaint, decodeRawNode. cbn [deref outcome_bind].
  rewrite bool_decide_eq_true_2 by done. cbn [negb String.eqb Ascii.eqb Bool.eqb]. rewrite Hn, Ho. unfold ready_of.
  destruct (GetNodeCondition _ _) as [i [c|]]; [|done]. cbn [snd deref outcome_bind].
  destruct (_ && (_ || _)) eqn:Eg; [|by exists [], nodeNew].
  rewrite taint_patches_eq. unfold TaintExistsPosition. rewrite andb_true_l, TaintExists_existsb.
  destruct (position_from_spec (fun x => MatchTaint x UnreachNoExecuteTaint) 0 (sl (node_Taints nodeNew)))
    as [(l1 & t & l2 & El & Ht & Hl1 & ->)|[Hl _]].
  - rewrite El, existsb_app. simpl existsb. rewrite Ht, orb_true_r. cbn [fst]. rewrite Z.add_0_l.
    eexists _, (with_taints nodeNew (l1 ++ l2)). split; [done|]. split.
    + cbn [apply_all]. erewrite remove_taint; [| lia |]; rewrite Nat2Z.id, El; [by rewrite delete_middle|by apply list_lookup_middle].
    + exists l1, t, l2. split_and!; try done. rewrite TaintExists_existsb. apply not_true_iff_false.
      rewrite existsb_exists. intros (x & Hx%list_elem_of_In & Hm). rewrite Forall_forall in Hl1. rewrite Hl1 in Hm; done.
  - assert (existsb (fun x => MatchTaint x UnreachNoExecuteTaint) (sl (node_Taints nodeNew)) = false) as ->.
    { apply not_true_iff_false. rewrite existsb_exists. intros (x & Hx%list_elem_of_In & Hm).
      rewrite Forall_forall in Hl. rewrite Hl in Hm; done. }
    by exists [], nodeNew.
Qed.

(** A node whose readiness is unknown, with the taint after another one. *)
Definition ex_node (taints : list Taint) : Node :=
  mkNode (named "" "n1") (Some taints) (Some [mkNodeCondition "Ready" "Unknown"]) None.
Definition ex_taint : Taint := mkTaint "dedicated" "edge" "NoSchedule".

Lemma nodeTaint_effect_witness :
  let Decode := fun _ : string => inl (ex_node [ex_taint; UnreachNoExecuteTaint]) in
  exists ps n', nodeTaint Decode false (Some (mkAdmissionRequest "u" (mkGVR "" "v1" "nodes") "" "")) = Ret (allowed ps)
    /\ apply_all (apply_node (JsonPatch := rfc6902)) ps (ex_node [ex_taint; UnreachNoExecuteTaint]) = Some n'
    /\ exists l1 t l2, [ex_taint; UnreachNoExecuteTaint] = l1 ++ t :: l2 /\ MatchTaint t UnreachNoExecuteTaint = true
         /\ TaintExists l1 UnreachNoExecuteTaint = false /\ n' = with_taints (ex_node [ex_taint; UnreachNoExecuteTaint]) (l1 ++ l2).
Proof.
  intros Decode. exact (nodeTaint_effect (J := rfc6902) Decode false (mkAdmissionRequest "u" (mkGVR "" "v1" "nodes") "" "")
    _ (ex_node [ex_taint; UnreachNoExecuteTaint]) eq_refl eq_refl eq_refl).
Defined.

(** The endpoints webhook moves lost addresses.  When the fields it
    dereferences are set and every subset has at most one lost address, at an
    index of its ready addresses, the update is allowed and applying the
    patch moves each lost address from the not-ready to the ready ones and
    changes nothing else. *)
Theorem endPoint_effect `{J : JsonPatch} (Decode : string -> Endpoints + string) (Get : string -> option Node)
    (ar : AdmissionRequest) (meta : ObjectMeta) (l l' : list EndpointSubset) :
  req_Resource ar = mkGVR "" "v1" "endpoints" -> Decode (req_Object ar) = inl (mkEndpoints meta (Some l)) ->
  Forall (fun s => Forall (no_nil Get) (sl (es_NotReadyAddresses s))) l -> Forall2 (movable Get) l l' ->
  exists ps, endPoint Decode Get (Some ar) = Ret (allowed ps)
    /\ apply_all apply_endpoints ps (mkEndpoints meta (Some l)) = Some (mkEndpoints meta (Some l')).
Proof.
  intros Hr Hd Hnil Hmov. unfold endPoint, decodeRawEndPoint. cbn [deref outcome_bind].
  rewrite bool_decide_eq_true_2 by done. cbn [negb String.eqb Ascii.eqb Bool.eqb]. rewrite Hd.
  cbn [sl eps_Subsets default from_option id]. rewrite subsets_loop_eq by done. cbn [outcome_bind].
  eexists. split; [done|]. by apply (apply_all_moves Get meta []).
Qed.

Definition ex_address (ip : string) : EndpointAddress :=
  mkEndpointAddressRef ip "" (Some "n1"%string) (Some (mkObjectReference "Pod" "ns" "p" "" "" "" "")).

Lemma endPoint_effect_witness :
  let s := mkEndpointSubset (Some [ex_address "10.0.0.1"]) (Some [ex_address "10.0.0.2"]) None in
  let s' := mkEndpointSubset (Some [ex_address "10.0.0.2"; ex_address "10.0.0.1"]) (Some []) None in
  exists ps, endPoint (fun _ => inl (mkEndpoints (named "ns" "web") (Some [s]))) (fun _ => Some (ex_node []))
    (Some (mkAdmissionRequest "u" (mkGVR "" "v1" "endpoints") "" "")) = Ret (allowed ps)
    /\ apply_all (apply_endpoints (JsonPatch := rfc6902)) ps (mkEndpoints (named "ns" "web") (Some [s]))
       = Some (mkEndpoints (named "ns" "web") (Some [s'])).
Proof.
  intros s s'. eapply endPoint_effect; [reflexivity|reflexivity| |].
  - repeat constructor. exists "n1"%string. split; [reflexivity|]. split; [|by eexists].
    intros n [= <-] _. by eexists.
  - constructor; [|constructor].
    apply (movable_one _ s [] (ex_address "10.0.0.2") []); [reflexivity|constructor|reflexivity|constructor|discriminate|simpl; lia].
Defined.

(** Two lost addresses in a subset are too many: the indices of the patch
    are those before any removal, so the second removal finds no address and
    the API server rejects the update. *)
Theorem endPoint_two_lost `{J : JsonPatch} (Decode : string -> Endpoints + string) (Get : string -> option Node)
    (ar : AdmissionRequest) (meta : ObjectMeta) (ready : list EndpointAddress) (a b : EndpointAddress) (ports : gslice EndpointPort) :
  let e := mkEndpoints meta (Some [mkEndpointSubset (Some ready) (Some [a; b]) ports]) in
  req_Resource ar = mkGVR "" "v1" "endpoints" -> Decode (req_Object ar) = inl e ->
  no_nil Get a -> no_nil Get b -> lost Get a = true -> lost Get b = true ->
  exists ps, endPoint Decode Get (Some ar) = Ret (allowed ps) /\ apply_all apply_endpoints ps e = None.
Proof.
  intros e Hr Hd Ha Hb La Lb. unfold endPoint, decodeRawEndPoint. cbn [deref outcome_bind].
  rewrite bool_decide_eq_true_2 by done. cbn [negb String.eqb Ascii.eqb Bool.eqb]. rewrite Hd.
  cbn [sl eps_Subsets default from_option id e]. rewrite subsets_loop_eq by (repeat constructor; done).
  eexists. split; [done|]. cbn [all_moves moves es_NotReadyAddresses sl default from_option id]. rewrite La, Lb.
  cbn [app move_patches apply_all]. unfold e.
  erewrite remove_notReady; [|done|done]. cbn.
  destruct ready as [|r ready].
  - erewrite add_missing; [done|done|by left].
  - erewrite add_address; [|done|done|simpl; lia]. cbn. by erewrite remove_missing.
Qed.

Lemma endPoint_two_lost_witness :
  let e := mkEndpoints (named "ns" "web")
    (Some [mkEndpointSubset (Some [ex_address "10.0.0.1"]) (Some [ex_address "10.0.0.2"; ex_address "10.0.0.3"]) None]) in
  exists ps, endPoint (fun _ => inl e) (fun _ => Some (ex_node []))
    (Some (mkAdmissionRequest "u" (mkGVR "" "v1" "endpoints") "" "")) = Ret (allowed ps)
    /\ apply_all (apply_endpoints (JsonPatch := rfc6902)) ps e = None.
Proof.
  intros e. eapply (endPoint_two_lost (J := rfc6902)); [reflexivity|reflexivity| | |reflexivity|reflexivity];
    (exists "n1"%string; split; [reflexivity|]; split; [intros n [= <-] _|intros _]; by eexists).
Defined.

(** A review whose body holds no request makes [serve] panic, whatever the
    webhook. *)
Lemma serve_without_request DecodeReview admitFunc body err :
  DecodeReview body = (None, Some err) -> serve DecodeReview admitFunc "application/json" body = Panic "nil pointer dereference".
Proof. intros H. unfold serve. by rewrite H. Qed.
