(* ===== verification/DeepContains.v ===== *)
(** * The grid controller's containment test (application-grid-controller/util/consistency.go)

    [DeepContains x y] walks two Go values by reflection and asks whether [y]
    is a part of [x]: the controller uses it to tell whether the object on the
    server still agrees with the one it would write, whose unset fields the
    server has filled in.  Values are trees here, with the type each carries
    at run time and the addresses behind pointers, slices and maps.  The
    theorem relates the test to the filling-in of unset fields. *)

From Stdlib Require Import ZArith Lia Ascii String.
From stdpp Require Import base strings gmap numbers sorting list.
From S2P Require Import Prelude.

Local Open Scope Z_scope.

(** ** Go values under reflection *)

(** A value is its type and its content.  A pointer, slice or map that is not
    nil may carry the address it points to; the fields of a struct come with
    whether they are exported. *)
Inductive value : Type := Val (ty : string) (k : content)
with content : Type :=
| Bool (b : bool)
| Int (n : Z)
| Str (s : string)
| Array (l : list value)
| Slice (addr : option Z) (l : option (list value))
| Iface (v : option value)
| Ptr (addr : option Z) (v : option value)
| Struct (fields : list (bool * value))
| Map (addr : option Z) (m : option (list (string * value)))
| Func (nil : bool).

Definition type_of (v : value) : string := match v with Val ty _ => ty end.

Definition same_addr (a b : option Z) : bool :=
  match a, b with Some a, Some b => a =? b | _, _ => false end.

(** [isEmptyValue] on the kinds [default] handles. *)
Definition isEmptyValue (k : content) : bool :=
  match k with
  | Bool b => negb b
  | Int n => n =? 0
  | Str s => String.eqb s EmptyString
  | _ => false
  end.

(** [v1.Interface() == v2.Interface()], which panics, and is then taken to be
    true, for values reached through an unexported field ([ro]). *)
Definition compareOrTrue (ro : bool) (k1 k2 : content) : bool :=
  ro || match k1, k2 with
        | Bool a, Bool b => Bool.eqb a b
        | Int a, Int b => a =? b
        | Str a, Str b => String.eqb a b
        | _, _ => false
        end.

Fixpoint find_key {A : Type} (key : string) (m : list (string * A)) : option A :=
  match m with
  | [] => None
  | (k, v) :: m => if String.eqb k key then Some v else find_key key m
  end.

(** The table of visited pairs is not modelled: it only matters on values
    with cycles, and these are trees.  The element of a nil pointer or
    interface is not valid, which counts as contained on either side. *)
Fixpoint deepValueContains (ro : bool) (x y : value) {struct y} : bool :=
  let elements := fix elements (l1 l2 : list value) {struct l2} : bool :=
    match l2, l1 with
    | [], _ => true
    | v2 :: l2, v1 :: l1 => deepValueContains ro v1 v2 && elements l1 l2
    | _ :: _, [] => false
    end in
  match x, y with
  | Val t1 k1, Val t2 k2 =>
      if negb (String.eqb t1 t2) then false else
      match k2, k1 with
      | Array l2, Array l1 => elements l1 l2
      | Slice _ None, Slice _ _ => true
      | Slice a2 (Some l2), Slice a1 l1 =>
          if (length (default [] l1) <? length l2)%nat then false
          else same_addr a1 a2 || elements (default [] l1) l2
      | Iface None, Iface _ => true
      | Iface (Some _), Iface None => true
      | Iface (Some v2), Iface (Some v1) => deepValueContains ro v1 v2
      | Ptr _ None, Ptr _ _ => true
      | Ptr _ (Some _), Ptr _ None => true
      | Ptr a2 (Some v2), Ptr a1 (Some v1) => same_addr a1 a2 || deepValueContains ro v1 v2
      | Struct f2, Struct f1 =>
          (fix fields (f1 f2 : list (bool * value)) {struct f2} : bool :=
             match f2, f1 with
             | [], _ => true
             | (e2, v2) :: f2, (_, v1) :: f1 => deepValueContains (ro || negb e2) v1 v2 && fields f1 f2
             | _ :: _, [] => false
             end) f1 f2
      | Map _ None, Map _ _ => true
      | Map a2 (Some m2), Map a1 m1 =>
          if (length (default [] m1) <? length m2)%nat then false
          else same_addr a1 a2
               || (fix entries (m2 : list (string * value)) : bool :=
                     match m2 with
                     | [] => true
                     | (k, v2) :: m2 =>
                         match find_key k (default [] m1) with
                         | Some v1 => deepValueContains ro v1 v2 && entries m2
                         | None => false
                         end
                     end) m2
      | Func n2, Func n1 => n1 && n2
      | (Bool _ | Int _ | Str _), _ => isEmptyValue k2 || compareOrTrue ro k1 k2
      | _, _ => false
      end
  end.

(** [DeepContains] on two arguments of a concrete type. *)
Definition DeepContains (x y : value) : bool := deepValueContains false x y.

(** ** Filling in unset fields

    [fills y x]: [x] is [y] with unset fields set, as API defaulting does: a
    zero scalar or a nil pointer, slice, map or interface may have been set,
    elements may have been appended and keys added; what was set is the same. *)

Definition scalar (k : content) : Prop :=
  match k with Bool _ | Int _ | Str _ => True | _ => False end.

Inductive fills : value -> value -> Prop :=
| fills_unset ty k k' : scalar k -> isEmptyValue k = true -> fills (Val ty k) (Val ty k')
| fills_scalar ty k : scalar k -> fills (Val ty k) (Val ty k)
| fills_array ty l l' : Forall2 fills l l' -> fills (Val ty (Array l)) (Val ty (Array l'))
| fills_slice_nil ty a a' l : fills (Val ty (Slice a None)) (Val ty (Slice a' l))
| fills_slice ty a a' l l' extra : Forall2 fills l l' -> fills (Val ty (Slice a (Some l))) (Val ty (Slice a' (Some (l' ++ extra))))
| fills_iface_nil ty v : fills (Val ty (Iface None)) (Val ty (Iface v))
| fills_iface ty v v' : fills v v' -> fills (Val ty (Iface (Some v))) (Val ty (Iface (Some v')))
| fills_ptr_nil ty a a' v : fills (Val ty (Ptr a None)) (Val ty (Ptr a' v))
| fills_ptr ty a a' v v' : fills v v' -> fills (Val ty (Ptr a (Some v))) (Val ty (Ptr a' (Some v')))
| fills_struct ty f f' : f.*1 = f'.*1 -> Forall2 fills f.*2 f'.*2 -> fills (Val ty (Struct f)) (Val ty (Struct f'))
| fills_map_nil ty a a' m : fills (Val ty (Map a None)) (Val ty (Map a' m))
| fills_map ty a a' m m' : (length m <= length m')%nat ->
    Forall (fun kv => exists v', find_key (fst kv) m' = Some v' /\ fills (snd kv) v') m ->
    fills (Val ty (Map a (Some m))) (Val ty (Map a' (Some m'))).

Section value_ind.
Context (P : value -> Prop).
Context (Hscalar : forall ty k, scalar k -> P (Val ty k)) (Harray : forall ty l, Forall P l -> P (Val ty (Array l))).
Context (Hslice : forall ty a l, Forall P (default [] l) -> P (Val ty (Slice a l))).
Context (Hiface : forall ty v, (forall w, v = Some w -> P w) -> P (Val ty (Iface v))).
Context (Hptr : forall ty a v, (forall w, v = Some w -> P w) -> P (Val ty (Ptr a v))).
Context (Hstruct : forall ty f, Forall (fun e => P (snd e)) f -> P (Val ty (Struct f))).
Context (Hmap : forall ty a m, Forall (fun e => P (snd e)) (default [] m) -> P (Val ty (Map a m))).
Context (Hfunc : forall ty b, P (Val ty (Func b))).

Fixpoint value_nested_ind (v : value) : P v :=
  let list_ind := fix list_ind l : Forall P l :=
    match l with [] => Forall_nil_2 _ | x :: l => Forall_cons_2 _ _ _ (value_nested_ind x) (list_ind l) end in
  let pair_ind := fun A => fix pair_ind (l : list (A * value)) : Forall (fun e => P (snd e)) l :=
    match l with [] => Forall_nil_2 _ | x :: l => Forall_cons_2 _ _ _ (value_nested_ind (snd x)) (pair_ind l) end in
  let option_ind := fun (o : option value) =>
    match o return forall w, o = Some w -> P w with
    | Some v => fun w H => eq_ind v P (value_nested_ind v) w (Some_inj _ _ H)
    | None => fun w H => False_ind _ (None_ne_Some w H)
    end in
  match v with
  | Val ty k =>
      match k with
      | Array l => Harray ty l (list_ind l)
      | Slice a (Some l) => Hslice ty a (Some l) (list_ind l)
      | Slice a None => Hslice ty a None (Forall_nil_2 _)
      | Iface o => Hiface ty o (option_ind o)
      | Ptr a o => Hptr ty a o (option_ind o)
      | Struct f => Hstruct ty f (pair_ind bool f)
      | Map a (Some m) => Hmap ty a (Some m) (pair_ind string m)
      | Map a None => Hmap ty a None (Forall_nil_2 _)
      | Func b => Hfunc ty b
      | Bool b => Hscalar ty (Bool b) I
      | Int n => Hscalar ty (Int n) I
      | Str s => Hscalar ty (Str s) I
      end
  end.

End value_ind.

(** ** The loops of the test *)

Section Loops.
Context (f : bool -> value -> value -> bool) (ro : bool).

Definition elements : list value -> list value -> bool :=
  fix elements (l1 l2 : list value) {struct l2} : bool :=
    match l2, l1 with
    | [], _ => true
    | v2 :: l2, v1 :: l1 => f ro v1 v2 && elements l1 l2
    | _ :: _, [] => false
    end.

Definition fields : list (bool * value) -> list (bool * value) -> bool :=
  fix fields (f1 f2 : list (bool * value)) {struct f2} : bool :=
    match f2, f1 with
    | [], _ => true
    | (e2, v2) :: f2, (_, v1) :: f1 => f (ro || negb e2) v1 v2 && fields f1 f2
    | _ :: _, [] => false
    end.

Definition entries (m1 : list (string * value)) : list (string * value) -> bool :=
  fix entries (m2 : list (string * value)) : bool :=
    match m2 with
    | [] => true
    | (k, v2) :: m2 =>
        match find_key k m1 with
        | Some v1 => f ro v1 v2 && entries m2
        | None => false
        end
    end.

Lemma elements_true l l' extra : Forall2 (fun y x => f ro x y = true) l l' -> elements (l' ++ extra) l = true.
Proof. induction 1 as [|y x l l' Hyx _ IH]; [by destruct extra|]. simpl. by rewrite Hyx. Qed.

Lemma fields_true l l' : l.*1 = l'.*1 -> Forall2 (fun y x => forall ro, f ro x y = true) l.*2 l'.*2 -> fields l' l = true.
Proof.
  revert l'. induction l as [|[e y] l IH]; intros [|[e' x] l'] He H; try done. simpl in *.
  injection He as <- He. apply Forall2_cons in H as [Hx H]. rewrite Hx. by apply IH.
Qed.

Lemma entries_true m m' : Forall (fun kv => exists v', find_key (fst kv) m' = Some v' /\ f ro v' (snd kv) = true) m ->
  entries m' m = true.
Proof. induction 1 as [|[k v] m (v' & Hk & Hf) _ IH]; [done|]. simpl in *. by rewrite Hk, Hf. Qed.

End Loops.

(** One step of the test, with its loops named. *)
Lemma deepValueContains_unfold ro t1 k1 t2 k2 :
  deepValueContains ro (Val t1 k1) (Val t2 k2) =
    if negb (String.eqb t1 t2) then false else
    match k2, k1 with
    | Array l2, Array l1 => elements deepValueContains ro l1 l2
    | Slice _ None, Slice _ _ => true
    | Slice a2 (Some l2), Slice a1 l1 =>
        if (length (default [] l1) <? length l2)%nat then false
        else same_addr a1 a2 || elements deepValueContains ro (default [] l1) l2
    | Iface None, Iface _ => true
    | Iface (Some _), Iface None => true
    | Iface (Some v2), Iface (Some v1) => deepValueContains ro v1 v2
    | Ptr _ None, Ptr _ _ => true
    | Ptr _ (Some _), Ptr _ None => true
    | Ptr a2 (Some v2), Ptr a1 (Some v1) => same_addr a1 a2 || deepValueContains ro v1 v2
    | Struct f2, Struct f1 => fields deepValueContains ro f1 f2
    | Map _ None, Map _ _ => true
    | Map a2 (Some m2), Map a1 m1 =>
        if (length (default [] m1) <? length m2)%nat then false
        else same_addr a1 a2 || entries deepValueContains ro (default [] m1) m2
    | Func n2, Func n1 => n1 && n2
    | (Bool _ | Int _ | Str _), _ => isEmptyValue k2 || compareOrTrue ro k1 k2
    | _, _ => false
    end.
Proof. reflexivity. Qed.

Lemma compareOrTrue_refl ro k : scalar k -> compareOrTrue ro k k = true.
Proof.
  intros Hk. unfold compareOrTrue. apply orb_true_iff. right.
  destruct k; try done; [by destruct b|apply Z.eqb_refl|apply String.eqb_refl].
Qed.

Lemma forall2_impl_l (P : value -> Prop) (Q : value -> value -> Prop) l l' :
  Forall P l -> Forall2 fills l l' -> (forall y x, P y -> fills y x -> Q y x) -> Forall2 Q l l'.
Proof.
  intros HP HF HQ. induction HF as [|y x l l' Hyx _ IH]; [constructor|].
  apply Forall_cons in HP as [Hy HP]. constructor; auto.
Qed.

Lemma fills_contained y : forall x ro, fills y x -> deepValueContains ro x y = true.
Proof.
  induction y as [ty k Hk|ty l IH|ty a l IH|ty v IH|ty a v IH|ty f IH|ty a m IH|ty b] using value_nested_ind;
    intros x ro Hf.
  - inversion Hf as [? ? k' ? He| | | | | | | | | | |]; subst; try done; rewrite deepValueContains_unfold, String.eqb_refl; cbn [negb].
    + destruct k; try done; by rewrite He.
    + destruct k; try done; by rewrite compareOrTrue_refl, orb_true_r.
  - inversion Hf as [| |? ? l' Hl| | | | | | | | |]; subst; [done..|].
    rewrite deepValueContains_unfold, String.eqb_refl. cbn [negb]. rewrite <- (app_nil_r l'). apply elements_true.
    eapply forall2_impl_l; [exact IH|exact Hl|]. intros y x Hy Hyx. by apply Hy.
  - inversion Hf as [| | | |? ? a' l0 l' extra Hl| | | | | | |]; subst; try done;
      rewrite deepValueContains_unfold, String.eqb_refl; cbn [negb]; [done|].
    cbn [default from_option id] in *. pose proof (Forall2_length _ _ _ Hl). rewrite length_app.
    rewrite (proj2 (Nat.ltb_ge _ _)) by lia. rewrite elements_true; [by rewrite orb_true_r|].
    eapply forall2_impl_l; [exact IH|exact Hl|]. intros y x Hy Hyx. by apply Hy.
  - inversion Hf as [| | | | | |? v0 v' Hv| | | | |]; subst; try done;
      rewrite deepValueContains_unfold, String.eqb_refl; cbn [negb]; [done|]. by apply IH.
  - inversion Hf as [| | | | | | | |? ? a' v0 v' Hv| | |]; subst; try done;
      rewrite deepValueContains_unfold, String.eqb_refl; cbn [negb]; [done|]. rewrite (IH v0) by done. by rewrite orb_true_r.
  - inversion Hf as [| | | | | | | | |? ? f' He Hl| |]; subst; [done..|].
    rewrite deepValueContains_unfold, String.eqb_refl. cbn [negb]. apply fields_true; [done|].
    apply (forall2_impl_l (fun y => forall x ro, fills y x -> deepValueContains ro x y = true));
      [by apply Forall_fmap|exact Hl|]. intros y x Hy Hyx ro'. by apply Hy.
  - inversion Hf as [| | | | | | | | | | |? ? a' m0 m' Hlen Hm]; subst; try done;
      rewrite deepValueContains_unfold, String.eqb_refl; cbn [negb]; [done|].
    cbn [default from_option id] in *. rewrite (proj2 (Nat.ltb_ge _ _)) by lia.
    rewrite entries_true; [by rewrite orb_true_r|]. rewrite Forall_forall in *. intros kv Hkv.
    destruct (Hm kv Hkv) as (v' & Hk & Hv). exists v'. split; [done|]. by apply (IH kv).
  - inversion Hf; subst; done.
Qed.

(** ** Properties *)

(** C30: defaulting does not look like a change.  When the object on the server
    is the written one with unset fields filled in (zero scalars, nil
    pointers, slices, maps and interfaces set, elements appended, keys added,
    at any depth), [DeepContains] holds, so the controller does not write it
    again. *)
Theorem DeepContains_fills (written stored : value) : fills written stored -> DeepContains stored written = true.
Proof. intros H. by apply fills_contained. Qed.

(** A written object with a map and a pointer left nil, and the stored one. *)
Definition ex_written : value :=
  Val "Spec" (Struct [(true, Val "*int32" (Ptr None None)); (true, Val "map" (Map None (Some [("a"%string, Val "string" (Str "1"))])))]).
Definition ex_stored : value :=
  Val "Spec" (Struct [(true, Val "*int32" (Ptr None (Some (Val "int32" (Int 1)))));
                      (true, Val "map" (Map None (Some [("b"%string, Val "string" (Str "2")); ("a"%string, Val "string" (Str "1"))])))]).

Lemma DeepContains_fills_witness : DeepContains ex_stored ex_written = true.
Proof.
  apply DeepContains_fills. apply fills_struct; [reflexivity|]. constructor; [apply fills_ptr_nil|].
  constructor; [|constructor]. apply fills_map; [simpl; lia|]. constructor; [|constructor].
  exists (Val "string" (Str "1")). split; [reflexivity|]. by apply fills_scalar.
Defined.

(** The test does not see everything: a pointer that is nil on the server and
    set in the written object passes, although the values differ. *)
Lemma DeepContains_nil_pointer ty a a' v : DeepContains (Val ty (Ptr a None)) (Val ty (Ptr a' (Some v))) = true.
Proof. unfold DeepContains. rewrite deepValueContains_unfold, String.eqb_refl. done. Qed.

(** Nor an element dropped from the end of a slice. *)
Lemma DeepContains_dropped_element ty a x y : fills x x ->
  DeepContains (Val ty (Slice a (Some [x; y]))) (Val ty (Slice a (Some [x]))) = true.
Proof. intros Hx. apply DeepContains_fills. apply (fills_slice ty a a [x] [x] [y]). by constructor. Qed.
