(* ===== verification/GridClaim.v ===== *)
(** * Grid controllers: labels and ownership (controller/common, controller_ref_manager.go)

    The three grid controllers find the objects of a grid by a label with its
    name, and claim them through owner references: they adopt orphans that
    match, delete their own objects that no longer match, and leave the
    objects of others alone.  The code is the same for deployments, stateful
    sets and services, and is modelled on the metadata of any object.  The
    theorem gives what is claimed and every request that is made. *)

From Stdlib Require Import ZArith Lia Ascii String.
From stdpp Require Import base strings gmap numbers sorting list.
From S2P Require Import Prelude.
From S2P Require Import GoStd.
From S2P Require Import K8s.
From S2P Require Import Requests.

Local Open Scope Z_scope.
Local Open Scope go_scope.

(** ** Labels (controller/common/labels.go) *)

Definition GridSelectorName : string := "superedge.io/grid-selector".
Definition GridSelectorUniqKeyName : string := "superedge.io/grid-uniq-key".
Definition TemplateHashKey : string := "superedge.io/template-hash-key".
Definition FedrationKey : string := "superedge.io/fed".
Definition FedrationDisKey : string := "superedge.io/dis".
Definition FedManagedClustIdKey : string := "clusters.clusternet.io/cluster-id".
Definition FedTargetNameSpace : string := "superedge.io/target-namespace".

Definition has_label (key : string) (m : ObjectMeta) : bool := bool_decide (is_Some (mp (Labels m) !! key)).

(** [GetDefaultSelector] when the name is a valid label value: the label with
    the grid's name. *)
Definition default_selects (val : string) (m : ObjectMeta) : bool :=
  bool_decide (mp (Labels m) !! GridSelectorName = Some val).

(** [IsValidLabelValue] of k8s.io/apimachinery is a parameter. *)
Definition GetDefaultSelector (IsValidLabelValue : string -> bool) (val : string) : option (ObjectMeta -> bool) :=
  if IsValidLabelValue val then Some (default_selects val) else None.

Definition IsConcernedObject (objMeta : ObjectMeta) : bool :=
  match Labels objMeta with
  | None => false
  | Some l => bool_decide (is_Some (l !! GridSelectorName))
  end.

(** The values of the unique key on the nodes that have it, in the lister's
    order and with its duplicates; [None] is the error for a key that is not a
    valid label key ([NewRequirement] of k8s.io/apimachinery decides). *)
Definition node_value (gridUniqKey : string) (n : Node) : option string :=
  match mp (Labels (node_meta n)) !! gridUniqKey with
  | Some v => if String.eqb v EmptyString then None else Some v
  | None => None
  end.

Definition GetGridValuesFromNode (IsValidLabelKey : string -> bool) (nodes : list Node) (gridUniqKey : string)
    : option (list string) :=
  if IsValidLabelKey gridUniqKey then Some (omap (node_value gridUniqKey) nodes) else None.

(** ** Answers of the API server *)

(** [metav1.GetControllerOf]: the first owner reference that is the
    controller. *)
Definition GetControllerOf (m : ObjectMeta) : option OwnerReference :=
  head (filter (fun r => or_Controller r = Some true) (sl (OwnerReferences m))).

(** ** Claiming (controller_ref_manager.go) *)

Inductive claim_request : Type :=
| Recheck
| AdoptRequest (m : ObjectMeta)
| ReleaseRequest (m : ObjectMeta).

Definition not_recheck (rq : claim_request) : Prop := rq <> Recheck.
#[export] Instance not_recheck_dec rq : Decision (not_recheck rq).
Proof. destruct rq; [right; by intros []|left; done..]. Defined.

(** [RecheckDeletionTimestamp] on what [getObject] answers; how a time prints
    is a parameter. *)
Definition RecheckDeletionTimestamp (TimeString : Z -> string) (getObject : ObjectMeta + string) : option string :=
  match getObject with
  | inr err => Some ("can't recheck DeletionTimestamp: " +:+ err)
  | inl obj => match DeletionTimestamp obj with
               | Some t => Some (Namespace obj +:+ "/" +:+ Name obj +:+ " has just been deleted at " +:+ TimeString t)
               | None => None
               end
  end.

Section Claim.
(** How a time prints, how the adoption error begins, the controlling grid, what
    rechecking it answers, and the answers to the
    patch and delete requests of each object. *)
Context (TimeString : Z -> string) (adopt_text : string) (controller : ObjectMeta) (fresh : ObjectMeta + string) (matches : ObjectMeta -> bool).
Context (Patch_ : ObjectMeta -> option api_error) (Delete_ : ObjectMeta -> option api_error).

(** Whether [canAdoptOnce] has run; its error is then kept. *)
Definition canAdopt (done : bool) : list claim_request * option string :=
  (if done then [] else [Recheck], RecheckDeletionTimestamp TimeString fresh).

Definition adopt (done : bool) (obj : ObjectMeta) : list claim_request * option api_error :=
  let '(rq, err) := canAdopt done in
  match err with
  | Some e => (rq, Some (OtherError (adopt_text +:+ " " +:+ Namespace obj +:+ "/" +:+ Name obj +:+ " (" +:+ UID obj +:+ "): " +:+ e)))
  | None => (rq ++ [AdoptRequest obj], Patch_ obj)
  end.

Definition release (obj : ObjectMeta) : list claim_request * option api_error :=
  ([ReleaseRequest obj],
   match Delete_ obj with
   | Some NotFound | Some Invalid => None
   | err => err
   end).

(** The requests, whether [canAdopt] has run, and the result. *)
Definition claimObject (done : bool) (obj : ObjectMeta) : list claim_request * bool * (bool * option api_error) :=
  match GetControllerOf obj with
  | Some controllerRef =>
      if negb (String.eqb (or_UID controllerRef) (UID controller)) then ([], done, (false, None))
      else if matches obj then ([], done, (true, None))
      else if bool_decide (is_Some (DeletionTimestamp controller)) then ([], done, (false, None))
      else if bool_decide (is_Some (DeletionTimestamp obj)) then ([], done, (false, None))
      else
        let '(rq, err) := release obj in
        match err with
        | Some NotFound => (rq, done, (false, None))
        | Some e => (rq, done, (false, Some e))
        | None => (rq, done, (false, None))
        end
  | None =>
      if bool_decide (is_Some (DeletionTimestamp controller)) || negb (matches obj) then ([], done, (false, None))
      else if bool_decide (is_Some (DeletionTimestamp obj)) then ([], done, (false, None))
      else
        let '(rq, err) := adopt done obj in
        match err with
        | Some NotFound => (rq, true, (false, None))
        | Some e => (rq, true, (false, Some e))
        | None => (rq, true, (true, None))
        end
  end.

(** [ClaimDeployment], [ClaimStatefulSet] and [ClaimService]: the objects
    claimed, the errors, and the requests. *)
Fixpoint claim_loop {O : Type} (meta : O -> ObjectMeta) (done : bool) (l : list O)
    : list O * list api_error * list claim_request :=
  match l with
  | [] => ([], [], [])
  | o :: l =>
      let '(rq, done, (ok, err)) := claimObject done (meta o) in
      let '(claimed, errList, rqs) := claim_loop meta done l in
      match err with
      | Some e => (claimed, e :: errList, rq ++ rqs)
      | None => (if ok then o :: claimed else claimed, errList, rq ++ rqs)
      end
  end.

Definition ClaimObjects {O : Type} (meta : O -> ObjectMeta) (l : list O) : list O * list api_error * list claim_request :=
  claim_loop meta false l.

(** ** What is claimed *)

Definition owned (m : ObjectMeta) : bool :=
  match GetControllerOf m with Some r => String.eqb (or_UID r) (UID controller) | None => false end.
Definition orphan (m : ObjectMeta) : bool := match GetControllerOf m with None => true | Some _ => false end.
Definition alive (m : ObjectMeta) : bool := match DeletionTimestamp m with None => true | Some _ => false end.

(** An orphan the controller would adopt, and one of its own it would let go. *)
Definition adoptable (m : ObjectMeta) : bool := orphan m && matches m && alive controller && alive m.
Definition released (m : ObjectMeta) : bool := owned m && negb (matches m) && alive controller && alive m.

Definition is_claimed (m : ObjectMeta) : bool :=
  (owned m && matches m)
  || (adoptable m && bool_decide (RecheckDeletionTimestamp TimeString fresh = None) && bool_decide (Patch_ m = None)).

(** The requests about one object. *)
Definition object_requests (m : ObjectMeta) : list claim_request :=
  if released m then [ReleaseRequest m]
  else if adoptable m && bool_decide (RecheckDeletionTimestamp TimeString fresh = None) then [AdoptRequest m]
  else [].

Lemma alive_decide m : bool_decide (is_Some (DeletionTimestamp m)) = negb (alive m).
Proof. unfold alive. by destruct (DeletionTimestamp m). Qed.

Lemma claimObject_eq done m :
  claimObject done m =
    ((if adoptable m && negb done then [Recheck] else []) ++ object_requests m,
     done || adoptable m,
     (is_claimed m, snd (snd (claimObject done m))))
  /\ (is_claimed m = true -> snd (snd (claimObject done m)) = None).
Proof.
  unfold claimObject, is_claimed, object_requests, released, adoptable, owned, orphan.
  rewrite !alive_decide. destruct (GetControllerOf m) as [r|].
  - destruct (String.eqb (or_UID r) (UID controller)), (matches m), (alive controller), (alive m), done; simpl; try done.
    all: unfold release; destruct (Delete_ m) as [[]|]; done.
  - destruct (matches m), (alive controller), (alive m), done; simpl; try done.
    all: unfold adopt, canAdopt; destruct (RecheckDeletionTimestamp TimeString fresh) as [e|]; simpl; [done|].
    all: by destruct (Patch_ m) as [[]|].
Qed.

Lemma object_requests_not_recheck m : filter not_recheck (object_requests m) = object_requests m.
Proof.
  apply filter_all. intros rq Hrq. unfold object_requests in Hrq.
  destruct (released m); [apply list_elem_of_singleton in Hrq as ->; discriminate|].
  destruct (_ && _); [apply list_elem_of_singleton in Hrq as ->; discriminate|by apply elem_of_nil in Hrq].
Qed.

Lemma claim_loop_spec {O : Type} (meta : O -> ObjectMeta) done l :
  fst (fst (claim_loop meta done l)) = filter (fun o => is_claimed (meta o) = true) l
  /\ filter not_recheck (snd (claim_loop meta done l)) = concat (object_requests <$> (meta <$> l))
  /\ (length (filter (fun rq => ~ not_recheck rq) (snd (claim_loop meta done l))) <= if done then 0 else 1)%nat.
Proof.
  revert done. induction l as [|o l IH]; intros done; [destruct done; simpl; repeat split; lia|].
  cbn [claim_loop]. destruct (claimObject_eq done (meta o)) as [Heq Hok].
  destruct (claimObject done (meta o)) as [[rq done'] [ok err]]. simpl in Heq, Hok. injection Heq as -> -> ->.
  specialize (IH (done || adoptable (meta o))). destruct (claim_loop meta _ l) as [[claimed errList] rqs].
  simpl in IH. destruct IH as (IHc & IHr & IHn).
  set (head_rq := if adoptable (meta o) && negb done then [Recheck] else []).
  assert (filter not_recheck head_rq = []) as Hh by (unfold head_rq; destruct (_ && _); reflexivity).
  assert (length (filter (fun rq => ~ not_recheck rq) (object_requests (meta o))) = 0)%nat as Ho.
  { rewrite <- (object_requests_not_recheck (meta o)), filter_none; [done|].
    intros rq [Hrq _]%list_elem_of_filter Hn. done. }
  rewrite filter_cons, fmap_cons, fmap_cons. cbn [concat].
  assert (length (filter (fun rq => ~ not_recheck rq) head_rq) + (if done || adoptable (meta o) then 0 else 1)
    <= if done then 0 else 1)%nat as Hn.
  { unfold head_rq. destruct (adoptable (meta o)), done; simpl; lia. }
  destruct err as [e|]; simpl; rewrite !filter_app, Hh, object_requests_not_recheck, IHr, !length_app, Ho.
  - rewrite decide_False by (intros Hc; by specialize (Hok Hc)). split_and!; [done|done|lia].
  - split_and!; [|done|lia]. destruct (is_claimed (meta o)); [rewrite decide_True by done|rewrite decide_False by done]; by rewrite IHc.
Qed.

End Claim.

(** ** Properties *)

Section ClaimRequests.
Context (TimeString : Z -> string) (controller : ObjectMeta) (fresh : ObjectMeta + string) (matches : ObjectMeta -> bool).

Lemma elem_of_object_requests m rq :
  rq ∈ object_requests TimeString controller fresh matches m <->
  (rq = ReleaseRequest m /\ released controller matches m = true)
  \/ (rq = AdoptRequest m /\ adoptable controller matches m = true /\ RecheckDeletionTimestamp TimeString fresh = None).
Proof.
  unfold object_requests. destruct (released controller matches m) eqn:Er.
  - assert (adoptable controller matches m = false) as ->.
    { unfold released, adoptable, owned, orphan in *. destruct (GetControllerOf m); [done|]. by simpl in Er. }
    rewrite list_elem_of_singleton. naive_solver.
  - destruct (adoptable controller matches m); simpl; [case_bool_decide|]; rewrite ?list_elem_of_singleton, ?elem_of_nil; naive_solver.
Qed.

Lemma elem_of_requests (l : list ObjectMeta) rq :
  rq ∈ concat (object_requests TimeString controller fresh matches <$> l) <->
  exists m, m ∈ l /\ rq ∈ object_requests TimeString controller fresh matches m.
Proof.
  rewrite list_elem_of_In, in_concat. split.
  - intros (rs & Hrs%list_elem_of_In & Hrq%list_elem_of_In). apply list_elem_of_fmap in Hrs as (m & -> & Hm). eauto.
  - intros (m & Hm & Hrq). exists (object_requests TimeString controller fresh matches m). rewrite <- !list_elem_of_In. split; [|done].
    apply list_elem_of_fmap. eauto.
Qed.

End ClaimRequests.

(** The requests of the claims are those of the single objects. *)
Lemma claim_loop_requests (TimeString : Z -> string) (adopt_text : string) (controller : ObjectMeta) (fresh : ObjectMeta + string) (matches : ObjectMeta -> bool)
    (Patch_ Delete_ : ObjectMeta -> option api_error) {O : Type} (meta : O -> ObjectMeta) (l : list O) rq :
  rq ∈ snd (ClaimObjects TimeString adopt_text controller fresh matches Patch_ Delete_ meta l) ->
  match rq with
  | Recheck => True
  | AdoptRequest m => m ∈ meta <$> l /\ adoptable controller matches m = true
  | ReleaseRequest m => m ∈ meta <$> l /\ released controller matches m = true
  end.
Proof.
  intros Hin. unfold ClaimObjects in Hin.
  destruct (claim_loop_spec TimeString adopt_text controller fresh matches Patch_ Delete_ meta false l) as (_ & Hr & _).
  assert (not_recheck rq -> exists m, m ∈ meta <$> l /\ rq ∈ object_requests TimeString controller fresh matches m) as Hex.
  { intros Hrq. rewrite <- elem_of_requests, <- Hr. by apply list_elem_of_filter. }
  destruct rq as [|m|m]; [done| |]; destruct (Hex ltac:(done)) as (m' & Hm' & Ho); apply elem_of_object_requests in Ho; naive_solver.
Qed.

(** C28: claiming takes what belongs to the grid and nothing else.  The claimed
    objects are those of the grid that match, and the matching orphans whose
    adoption was allowed and succeeded; the objects deleted are exactly the
    grid's own that no longer match, the objects patched exactly the matching
    orphans (neither while the grid or the object is being deleted), and the
    grid is read again at most once.  Objects of other owners are in none of
    these. *)
Theorem ClaimObjects_effect (TimeString : Z -> string) (adopt_text : string) (controller : ObjectMeta) (fresh : ObjectMeta + string) (matches : ObjectMeta -> bool)
    (Patch_ Delete_ : ObjectMeta -> option api_error) {O : Type} (meta : O -> ObjectMeta) (l : list O) :
  let '(claimed, errList, rqs) := ClaimObjects TimeString adopt_text controller fresh matches Patch_ Delete_ meta l in
  (forall o, o ∈ claimed <-> o ∈ l /\ ((owned controller (meta o) = true /\ matches (meta o) = true)
     \/ (adoptable controller matches (meta o) = true /\ RecheckDeletionTimestamp TimeString fresh = None /\ Patch_ (meta o) = None)))
  /\ (forall m, ReleaseRequest m ∈ rqs <-> m ∈ meta <$> l /\ released controller matches m = true)
  /\ (forall m, AdoptRequest m ∈ rqs <-> m ∈ meta <$> l /\ adoptable controller matches m = true /\ RecheckDeletionTimestamp TimeString fresh = None)
  /\ (length (filter (fun rq => ~ not_recheck rq) rqs) <= 1)%nat.
Proof.
  unfold ClaimObjects. destruct (claim_loop_spec TimeString adopt_text controller fresh matches Patch_ Delete_ meta false l) as (Hc & Hr & Hn).
  destruct (claim_loop TimeString adopt_text controller fresh matches Patch_ Delete_ meta false l) as [[claimed errList] rqs]. simpl in *.
  assert (forall rq, not_recheck rq -> rq ∈ rqs <-> exists m, m ∈ meta <$> l /\ rq ∈ object_requests TimeString controller fresh matches m) as Hin.
  { intros rq Hrq. rewrite <- elem_of_requests, <- Hr, list_elem_of_filter. naive_solver. }
  split_and!; [|intros m|intros m|done].
  - intros o. rewrite Hc, list_elem_of_filter. unfold is_claimed.
    rewrite orb_true_iff, !andb_true_iff, !bool_decide_eq_true. tauto.
  - rewrite Hin by done. setoid_rewrite elem_of_object_requests. naive_solver.
  - rewrite Hin by done. setoid_rewrite elem_of_object_requests. naive_solver.
Qed.
