(* ===== verification/GridTemplate.v ===== *)
(** * Grid controllers: grids and templates (apis/superedge.io/v1, *_template_hash.go, template_hash.go)

    Deployment grids and stateful-set grids are one structure over two kinds
    of workload, and the code that picks, prunes and hashes their templates
    is the same twice; it is modelled once.  The theorem shows that a grid is
    rewritten at most twice before its controller goes on to its workloads. *)

From Stdlib Require Import ZArith Lia Ascii String.
From stdpp Require Import base strings gmap numbers sorting list.
From S2P Require Import Prelude.
From S2P Require Import GoStd.
From S2P Require Import K8s.
From S2P Require Import DeepContains.
From S2P Require Import Requests.
From S2P Require Import GridClaim.

Local Open Scope Z_scope.
Local Open Scope go_scope.

(** ** Workloads and grids *)

(** A [DeploymentSpec] or [StatefulSetSpec]: the fields the controllers read
    or write, and the rest as a Go value. *)
Record WorkloadSpec : Type := mkSpec {
  Replicas : option Z;
  TemplateLabels : gomap string;
  NodeSelector : gomap string;
  Rest : value
}.

Definition with_Replicas (t : WorkloadSpec) (r : option Z) : WorkloadSpec := mkSpec r (TemplateLabels t) (NodeSelector t) (Rest t).
Definition with_TemplateLabels (t : WorkloadSpec) (l : gomap string) : WorkloadSpec := mkSpec (Replicas t) l (NodeSelector t) (Rest t).
Definition with_NodeSelector (t : WorkloadSpec) (m : gomap string) : WorkloadSpec := mkSpec (Replicas t) (TemplateLabels t) m (Rest t).

Section Grid.
(** The status of a workload. *)
Context {St : Type}.

Record Workload : Type := mkWorkload { w_meta : ObjectMeta; w_spec : WorkloadSpec; w_status : St }.

Record Grid : Type := mkGrid {
  g_meta : ObjectMeta;
  GridUniqKey : string;
  Template : WorkloadSpec;
  TemplatePool : gomap WorkloadSpec;
  Templates : gomap string;
  DefaultTemplateName : string;
  AutoDeleteUnusedTemplate : bool;
  States : gomap St
}.

Definition with_meta (g : Grid) (m : ObjectMeta) : Grid :=
  mkGrid m (GridUniqKey g) (Template g) (TemplatePool g) (Templates g) (DefaultTemplateName g) (AutoDeleteUnusedTemplate g) (States g).
Definition with_Template (g : Grid) (t : WorkloadSpec) : Grid :=
  mkGrid (g_meta g) (GridUniqKey g) t (TemplatePool g) (Templates g) (DefaultTemplateName g) (AutoDeleteUnusedTemplate g) (States g).
Definition with_TemplatePool (g : Grid) (p : gomap WorkloadSpec) : Grid :=
  mkGrid (g_meta g) (GridUniqKey g) (Template g) p (Templates g) (DefaultTemplateName g) (AutoDeleteUnusedTemplate g) (States g).
Definition with_DefaultTemplateName (g : Grid) (d : string) : Grid :=
  mkGrid (g_meta g) (GridUniqKey g) (Template g) (TemplatePool g) (Templates g) d (AutoDeleteUnusedTemplate g) (States g).

(** ** Choosing a template *)

Definition DefaultTemplate : string := "default".

(** [GetTemplateName] *)
Definition GetTemplateName (templates : gomap string) (gridValues defaultTemplateName : string) : string :=
  match mp templates !! gridValues with
  | None => defaultTemplateName
  | Some name => name
  end.

(** Where a template lives: its maps are shared with whoever copies it. *)
Inductive tref : Type := MainTemplate | PoolTemplate (name : string).

(** [getDeployTemplate] and [getStatefulsetTemplate]; [None] is the error. *)
Definition getTemplate (g : Grid) (gridValues : string) : option (tref * WorkloadSpec) :=
  let templateName := GetTemplateName (Templates g) gridValues (DefaultTemplateName g) in
  if String.eqb templateName DefaultTemplate || String.eqb templateName EmptyString then Some (MainTemplate, Template g)
  else match mp (TemplatePool g) !! templateName with
       | Some template => Some (PoolTemplate templateName, template)
       | None => None
       end.

(** ** Pruning and hashing *)

(** A pool entry that is the default (by another name) or that some grid
    value uses. *)
Definition template_used (g : Grid) (name : string) : bool :=
  (negb (String.eqb (DefaultTemplateName g) DefaultTemplate) && String.eqb (DefaultTemplateName g) name)
  || existsb (fun kv => String.eqb (snd kv) name) (map_to_list (mp (Templates g))).

Definition RemoveUnusedTemplate (g : Grid) : Grid :=
  if negb (AutoDeleteUnusedTemplate g) then g
  else with_TemplatePool g
         (match TemplatePool g with
          | None => None
          | Some pool => Some (filter (fun kv => template_used g (fst kv) = true) pool)
          end).

Definition GetTemplateHash (l : gomap string) : string := default EmptyString (mp l !! TemplateHashKey).

(** [GenerateHash] prints the value with go-spew and hashes it; the decimal
    form of the hash is a parameter. *)
Context (GenerateHash : WorkloadSpec -> string).

(** Without the hash label (a nil map stays nil) and without replicas. *)
Definition generateTemplateHash (t : WorkloadSpec) : string :=
  GenerateHash (mkSpec None (match TemplateLabels t with None => None | Some l => Some (delete TemplateHashKey l) end)
                  (NodeSelector t) (Rest t)).

Definition setTemplateHash (t : WorkloadSpec) : WorkloadSpec :=
  let expected := generateTemplateHash t in
  if String.eqb (GetTemplateHash (TemplateLabels t)) expected then t
  else with_TemplateLabels t (Some (<[TemplateHashKey := expected]> (mp (TemplateLabels t)))).

(** The pool is ranged over by value: the hash reaches an entry only through
    its label map, when it has one. *)
Definition update_pool_entry (t : WorkloadSpec) : WorkloadSpec :=
  match TemplateLabels t with
  | None => t
  | Some _ => setTemplateHash t
  end.

Definition UpdateTemplateHash (g : Grid) : Grid :=
  let g := with_Template g (setTemplateHash (Template g)) in
  with_TemplatePool g (match TemplatePool g with None => None | Some pool => Some (update_pool_entry <$> pool) end).

(** What the sync handler does to its copy of the grid before comparing it
    with the original. *)
Definition normalize (g : Grid) : Grid :=
  let g := if String.eqb (DefaultTemplateName g) EmptyString then with_DefaultTemplateName g DefaultTemplate else g in
  UpdateTemplateHash (RemoveUnusedTemplate g).

(** [IsTemplateHashChanged] and [IsReplicasChanged], which dereferences both
    replica counts. *)
Definition IsTemplateHashChanged (g : Grid) (gridValues : string) (dp : Workload) : bool :=
  let hash := GetTemplateHash (TemplateLabels (w_spec dp)) in
  match getTemplate g gridValues with
  | None => true
  | Some (_, template) => negb (String.eqb hash (GetTemplateHash (TemplateLabels template)))
  end.

Definition IsReplicasChanged (g : Grid) (gridValues : string) (dp : Workload) : outcome bool :=
  match getTemplate g gridValues with
  | None => Ret true
  | Some (_, template) =>
      match Replicas template, Replicas (w_spec dp) with
      | Some a, Some b => Ret (negb (a =? b))
      | _, _ => Panic "nil pointer dereference"
      end
  end.

(** ** Hashing settles *)

(** The hash does not depend on the replicas, nor on the hash label of a
    template that has labels. *)
Lemma generateTemplateHash_label t l h :
  TemplateLabels t = Some l ->
  generateTemplateHash (with_TemplateLabels t (Some (<[TemplateHashKey := h]> l))) = generateTemplateHash t.
Proof.
  intros Hl. unfold generateTemplateHash. simpl. rewrite Hl. by rewrite delete_insert_eq.
Qed.

Lemma setTemplateHash_labels t : is_Some (TemplateLabels t) -> is_Some (TemplateLabels (setTemplateHash t)).
Proof. intros [l Hl]. unfold setTemplateHash. case_match; [by rewrite Hl|by eexists]. Qed.

Lemma setTemplateHash_idem t : is_Some (TemplateLabels t) -> setTemplateHash (setTemplateHash t) = setTemplateHash t.
Proof.
  intros [l Hl]. assert (generateTemplateHash (setTemplateHash t) = generateTemplateHash t) as Hg.
  { unfold setTemplateHash. case_match; [done|]. rewrite Hl. by apply generateTemplateHash_label. }
  unfold setTemplateHash at 1. rewrite Hg. unfold setTemplateHash.
  destruct (String.eqb (GetTemplateHash (TemplateLabels t)) (generateTemplateHash t)) eqn:E; rewrite ?E; [done|].
  simpl. unfold GetTemplateHash. simpl. by rewrite lookup_insert_eq, String.eqb_refl.
Qed.

(** A template without labels gets them the first time, with a hash that is
    then replaced once. *)
Lemma setTemplateHash_settles t :
  setTemplateHash (setTemplateHash (setTemplateHash t)) = setTemplateHash (setTemplateHash t).
Proof.
  destruct (TemplateLabels (setTemplateHash t)) as [l|] eqn:E; [by apply setTemplateHash_idem; rewrite E|].
  assert (setTemplateHash t = t) as Ht; [|by rewrite !Ht].
  unfold setTemplateHash in *. by case_match.
Qed.

Lemma update_pool_entry_idem t : update_pool_entry (update_pool_entry t) = update_pool_entry t.
Proof.
  unfold update_pool_entry. destruct (TemplateLabels t) as [l|] eqn:El; [|by rewrite El].
  destruct (setTemplateHash_labels t) as [l' ->]; [by rewrite El|]. by apply setTemplateHash_idem; rewrite El.
Qed.

Definition default_name (d : string) : string := if String.eqb d EmptyString then DefaultTemplate else d.
Definition name_used (d : string) (templates : gomap string) (name : string) : bool :=
  (negb (String.eqb d DefaultTemplate) && String.eqb d name)
  || existsb (fun kv => String.eqb (snd kv) name) (map_to_list (mp templates)).

Lemma normalize_eq g :
  normalize g =
    mkGrid (g_meta g) (GridUniqKey g) (setTemplateHash (Template g))
      (option_map (fun pool => update_pool_entry <$>
         (if AutoDeleteUnusedTemplate g
          then filter (fun kv => name_used (default_name (DefaultTemplateName g)) (Templates g) (fst kv) = true) pool
          else pool)) (TemplatePool g))
      (Templates g) (default_name (DefaultTemplateName g)) (AutoDeleteUnusedTemplate g) (States g).
Proof.
  destruct g as [m k t p ts d a st]. unfold normalize, UpdateTemplateHash, RemoveUnusedTemplate, default_name, name_used.
  simpl. destruct (String.eqb d EmptyString), a, p; reflexivity.
Qed.

Lemma filter_fmap_pool (d : string) (ts : gomap string) (f : WorkloadSpec -> WorkloadSpec) (pool : gmap string WorkloadSpec) :
  filter (fun kv => name_used d ts (fst kv) = true) (f <$> filter (fun kv => name_used d ts (fst kv) = true) pool)
  = f <$> filter (fun kv => name_used d ts (fst kv) = true) pool.
Proof.
  apply map_filter_id. intros k t Hk. rewrite lookup_fmap in Hk.
  destruct (filter _ pool !! k) as [t'|] eqn:E; [|done]. by apply map_lookup_filter_Some in E as [_ ?].
Qed.

End Grid.

Arguments Workload : clear implicits.
Arguments Grid : clear implicits.

Section Normalize.
Context {St : Type} (GenerateHash : WorkloadSpec -> string).
Implicit Types (g : Grid St).

Lemma normalize_twice g :
  normalize GenerateHash (normalize GenerateHash g)
  = with_Template (normalize GenerateHash g) (setTemplateHash GenerateHash (setTemplateHash GenerateHash (Template g))).
Proof.
  rewrite !normalize_eq. simpl.
  assert (default_name (default_name (DefaultTemplateName g)) = default_name (DefaultTemplateName g)) as ->.
  { unfold default_name. destruct (String.eqb (DefaultTemplateName g) EmptyString) eqn:E; [done|by rewrite E]. }
  unfold with_Template. simpl. f_equal. destruct (TemplatePool g) as [pool|]; [|done]. simpl. f_equal.
  destruct (AutoDeleteUnusedTemplate g).
  - rewrite filter_fmap_pool, <- map_fmap_compose. apply map_fmap_ext. intros k t _. simpl. apply update_pool_entry_idem.
  - rewrite <- map_fmap_compose. apply map_fmap_ext. intros k t _. simpl. apply update_pool_entry_idem.
Qed.

(** The name a grid value asks for, before and after. *)
Lemma GetTemplateName_normalize g v :
  let name := GetTemplateName (Templates g) v (DefaultTemplateName g) in
  let name' := GetTemplateName (Templates g) v (default_name (DefaultTemplateName g)) in
  name' = name \/ (name = EmptyString /\ name' = DefaultTemplate).
Proof.
  unfold GetTemplateName, default_name. destruct (mp (Templates g) !! v); [by left|].
  destruct (String.eqb_spec (DefaultTemplateName g) EmptyString); auto.
Qed.

(** A pool entry a grid value asks for is not pruned. *)
Lemma asked_name_used g v :
  let name := GetTemplateName (Templates g) v (DefaultTemplateName g) in
  String.eqb name DefaultTemplate = false -> String.eqb name EmptyString = false ->
  name_used (default_name (DefaultTemplateName g)) (Templates g) name = true.
Proof.
  unfold GetTemplateName, name_used. intros Hd He. apply orb_true_iff.
  destruct (mp (Templates g) !! v) as [n|] eqn:Ev.
  - right. apply existsb_exists. exists (v, n). split; [|apply String.eqb_refl].
    by apply list_elem_of_In, elem_of_map_to_list.
  - left. unfold default_name. rewrite He. by rewrite Hd, String.eqb_refl.
Qed.

Lemma getTemplate_normalize g v :
  option_map fst (getTemplate (normalize GenerateHash g) v) = option_map fst (getTemplate g v).
Proof.
  rewrite normalize_eq. unfold getTemplate. simpl.
  pose proof (asked_name_used g v) as Hu. destruct (GetTemplateName_normalize g v) as [-> |[-> ->]]; [|done].
  set (name := GetTemplateName (Templates g) v (DefaultTemplateName g)) in *.
  destruct (String.eqb name DefaultTemplate || String.eqb name EmptyString) eqn:En; [done|].
  apply orb_false_iff in En as [Ed Ee]. specialize (Hu Ed Ee).
  destruct (TemplatePool g) as [pool|]; [|done]. simpl. rewrite lookup_fmap.
  destruct (AutoDeleteUnusedTemplate g); [|by destruct (pool !! name)].
  rewrite map_lookup_filter. destruct (pool !! name) as [t|]; [|done]. simpl. by rewrite option_guard_True.
Qed.

End Normalize.

(** ** Properties *)

(** C31: rewriting a grid ends.  A third normalization never changes what the
    second gave, and a second one changes nothing when the grid's template
    has labels, so the controller writes a grid back at most twice before it
    reconciles the workloads.  The hash it stores does not depend on the
    replicas, and every template that could be chosen still is. *)
Theorem normalize_settles {St : Type} (GenerateHash : WorkloadSpec -> string) (g : Grid St) :
  let norm := normalize GenerateHash in
  norm (norm (norm g)) = norm (norm g)
  /\ (is_Some (TemplateLabels (Template g)) -> norm (norm g) = norm g)
  /\ (forall r, setTemplateHash GenerateHash (with_Replicas (Template g) r) = with_Replicas (setTemplateHash GenerateHash (Template g)) r)
  /\ (forall v, option_map fst (getTemplate (norm g) v) = option_map fst (getTemplate g v)).
Proof.
  intros norm. split_and!.
  - unfold norm. rewrite (normalize_twice GenerateHash (normalize GenerateHash g)), (normalize_twice GenerateHash g), normalize_eq. unfold with_Template. simpl. f_equal.
    apply setTemplateHash_settles.
  - intros Hl. unfold norm. rewrite normalize_twice, setTemplateHash_idem by done. by rewrite normalize_eq.
  - intros r. unfold setTemplateHash, generateTemplateHash. simpl. by case_match.
  - intros v. apply getTemplate_normalize.
Qed.
