(* ===== verification/GridWorkload.v ===== *)
(** * Grid controllers: workloads (controller/deployment, controller/statefulset)

    A grid has one workload per value its unique key takes on the nodes.
    [CreateWorkload] makes the workload of a value, [reconcile] compares what
    should be with what is and lists the requests, and [syncStatus] collects
    the states.  Deployment and stateful-set grids are this code twice; what
    differs is a parameter.

    A created workload shares the label map of its grid and the node selector
    of its template with the grid it was made from, so both are modelled as
    part of the grid and a workload refers to the selector until the requests
    are made. *)

From Stdlib Require Import ZArith Lia Ascii String.
From stdpp Require Import base strings gmap numbers sorting list.
From S2P Require Import Prelude.
From S2P Require Import GoStd.
From S2P Require Import K8s.
From S2P Require Import DeepContains.
From S2P Require Import Requests.
From S2P Require Import GridClaim.
From S2P Require Import GridTemplate.

Local Open Scope Z_scope.
Local Open Scope go_scope.

(** ** Specs as Go values *)

Definition map_value (m : gomap string) : value :=
  Val "map[string]string" (Map None (option_map (fun m => (fun kv => (fst kv, Val "string" (Str (snd kv)))) <$> map_to_list m) m)).

Definition spec_value (t : WorkloadSpec) : value :=
  Val "Spec" (Struct [(true, Val "*int32" (Ptr None (option_map (fun n => Val "int32" (Int n)) (Replicas t))));
                      (true, map_value (TemplateLabels t)); (true, map_value (NodeSelector t)); (true, Rest t)]).

Section Workloads.
Context {St : Type} (ControllerKind : string) (FiltStatus : St -> St).
(** [scheme.Default] on the spec of a workload. *)
Context (SchemeDefault : WorkloadSpec -> WorkloadSpec).
Implicit Types (g : Grid St) (w dp : Workload St).

(** ** Names (util/deployment_util.go, util/statefulset_util.go) *)

Definition GetWorkloadName g (gridValue : string) : string := Name (g_meta g) +:+ "-" +:+ gridValue.
Definition GetGridValueFromName g (name : string) : string := TrimPrefix name (Name (g_meta g) +:+ "-").

Definition NewControllerRef g : OwnerReference :=
  mkOwnerReference "superedge.io/v1" ControllerKind (Name (g_meta g)) (UID (g_meta g)) (Some true) (Some true).

(** ** Creating a workload *)

(** The labels of the grid, with the two that mark its objects; a map that is
    not nil is the grid's own. *)
Definition grid_labels g : gomap string :=
  Some (<[GridSelectorUniqKeyName := GridUniqKey g]> (<[GridSelectorName := Name (g_meta g)]> (mp (Labels (g_meta g))))).

Definition mark_labels g : Grid St :=
  match Labels (g_meta g) with
  | None => g
  | Some _ => with_meta g (with_labels (g_meta g) (grid_labels g))
  end.

Definition template_at g (r : tref) : option WorkloadSpec :=
  match r with
  | MainTemplate => Some (Template g)
  | PoolTemplate name => mp (TemplatePool g) !! name
  end.

Definition set_template g (r : tref) (t : WorkloadSpec) : Grid St :=
  match r with
  | MainTemplate => with_Template g t
  | PoolTemplate name => with_TemplatePool g (Some (<[name := t]> (mp (TemplatePool g))))
  end.

(** A workload before the requests are made: its spec refers to the node
    selector of a template, or has its own. *)
Record pending : Type := mkPending { p_meta : ObjectMeta; p_spec : WorkloadSpec; p_shared : option tref }.

Definition resolve g (p : pending) : WorkloadSpec :=
  match p_shared p with
  | None => p_spec p
  | Some r => with_NodeSelector (p_spec p) (match template_at g r with Some t => NodeSelector t | None => None end)
  end.

(** [CreateDeployment] and [CreateStatefulSet]. *)
Definition CreateWorkload g (gridValue : string) : option (Grid St * pending) :=
  match getTemplate g gridValue with
  | None => None
  | Some (r, template) =>
      let m := mkObjectMeta (GetWorkloadName g gridValue) (Namespace (g_meta g)) EmptyString (grid_labels g) None
                 (Some [NewControllerRef g]) None in
      let g := mark_labels g in
      match NodeSelector template with
      | Some sel =>
          let template := with_NodeSelector template (Some (<[GridUniqKey g := gridValue]> sel)) in
          Some (set_template g r template, mkPending m template (Some r))
      | None => Some (g, mkPending m (with_NodeSelector template (Some {[GridUniqKey g := gridValue]})) None)
      end
  end.

(** ** Reconciling (sync.go) *)

Inductive change : Type := Add (p : pending) | Update (p : pending).

(** One grid value: [None] is an error. *)
Definition reconcile_value g (existed : gmap string (Workload St)) (v : string) : outcome (option (Grid St * list change)) :=
  match existed !! GetWorkloadName g v with
  | None =>
      match CreateWorkload g v with
      | None => Ret None
      | Some (g, p) => Ret (Some (g, [Add p]))
      end
  | Some dp =>
      match CreateWorkload g v with
      | None => Ret None
      | Some (g, p) =>
          let hashChanged := IsTemplateHashChanged g v dp in
          let* replicasChanged := IsReplicasChanged g v dp in
          if hashChanged || replicasChanged then Ret (Some (g, [Update p]))
          else
            let p := mkPending (p_meta p) (with_Replicas (SchemeDefault (p_spec p)) (Replicas (w_spec dp))) (p_shared p) in
            if negb (DeepContains (spec_value (w_spec dp)) (spec_value (resolve g p)))
            then Ret (Some (g, [Update p]))
            else Ret (Some (g, []))
      end
  end.

Fixpoint reconcile_values g (existed : gmap string (Workload St)) (gridValues : list string)
    : outcome (option (Grid St * list change)) :=
  match gridValues with
  | [] => Ret (Some (g, []))
  | v :: gridValues =>
      let* r := reconcile_value g existed v in
      match r with
      | None => Ret None
      | Some (g, cs) =>
          let* r := reconcile_values g existed gridValues in
          match r with
          | None => Ret None
          | Some (g, cs') => Ret (Some (g, cs ++ cs'))
          end
      end
  end.

(** The requests to the API server. *)
Inductive op : Type := OpCreate (m : ObjectMeta) (t : WorkloadSpec) | OpUpdate (m : ObjectMeta) (t : WorkloadSpec) | OpDelete (name : string).

Definition send g (c : change) : op :=
  match c with
  | Add p => OpCreate (p_meta p) (resolve g p)
  | Update p => OpUpdate (p_meta p) (resolve g p)
  end.

(** A later object of the same name replaces an earlier one in the map. *)
Definition existed_map (dpList : list (Workload St)) : gmap string (Workload St) :=
  fold_left (fun m dp => <[Name (w_meta dp) := dp]> m) dpList ∅.

Definition wanted g (gridValues : list string) : gset string := list_to_set (GetWorkloadName g <$> gridValues).

(** The requests of a pass, and the grid as the pass leaves it. *)
Definition reconcile g (dpList : list (Workload St)) (gridValues : list string) : outcome (option (Grid St * list op)) :=
  let* r := reconcile_values g (existed_map dpList) gridValues in
  match r with
  | None => Ret None
  | Some (g', cs) =>
      let deletes := filter (fun dp => Name (w_meta dp) ∉ wanted g gridValues) dpList in
      Ret (Some (g', (send g' <$> cs) ++ ((fun dp => OpDelete (Name (w_meta dp))) <$> deletes)))
  end.

(** ** Status *)

Definition collect_states g (dpList : list (Workload St)) (gridValues : list string) : gmap string St :=
  fold_left (fun states dp =>
    if bool_decide (Name (w_meta dp) ∈ wanted g gridValues)
    then <[GetGridValueFromName g (Name (w_meta dp)) := FiltStatus (w_status dp)]> states
    else states) dpList ∅.

(** The status written, if it changed, and the error returned for the answer
    to the request. *)
Definition syncStatus `{SemanticEq (gomap St)} g (dpList : list (Workload St)) (gridValues : list string)
    (answer : option api_error) : option (gmap string St) * option api_error :=
  let states := collect_states g dpList gridValues in
  if negb (DeepEqual (States g) (Some states))
  then (Some states, match answer with Some Conflict => None | err => err end)
  else (None, None).

End Workloads.

Arguments change : clear implicits.
