(* ===== verification/GridReconcile.v ===== *)
(** * Grid controllers: making the requests, and convergence (controller/*/sync.go)

    [syncWorkload] makes the requests of a pass, one goroutine each, so in any
    order.  The API server is an interface with the laws the controllers rely
    on.  The theorems show that one pass brings the server to the wanted
    workloads and that the next pass then asks for nothing, and, against that,
    what becomes of the workloads when their template has a node selector of
    its own or no replica count. *)

From Stdlib Require Import ZArith Lia Ascii String.
From stdpp Require Import base strings gmap numbers sorting list.
From S2P Require Import Prelude.
From S2P Require Import GoStd.
From S2P Require Import K8s.
From S2P Require Import DeepContains.
From S2P Require Import Requests.
From S2P Require Import GridClaim.
From S2P Require Import GridTemplate.
From S2P Require Import GridWorkload.

Local Open Scope Z_scope.
Local Open Scope go_scope.

(** ** The API server

    A create stores the object under its name unless the name is taken, an
    update replaces an object that is there, a delete removes it; the server
    may refuse an object as not valid, given what it has under that name.  It
    may fill in unset fields of a spec, at least as the client's own
    defaulting does, and keeps what was set. *)

Class WorkloadAPI (St : Type) (SchemeDefault : WorkloadSpec -> WorkloadSpec) : Type := {
  server : Type;
  objects : server -> gmap string (Workload St);
  request : op -> server -> server * option api_error;
  default_labels : forall t, TemplateLabels (SchemeDefault t) = TemplateLabels t;
  default_again : forall t r, SchemeDefault (with_Replicas (SchemeDefault t) (Some r)) = with_Replicas (SchemeDefault t) (Some r);
  stores : ObjectMeta -> WorkloadSpec -> Workload St -> Prop;
  valid : option (Workload St) -> ObjectMeta -> WorkloadSpec -> Prop;
  stores_meta : forall m t w, stores m t w ->
    Name (w_meta w) = Name m /\ Labels (w_meta w) = Labels m /\ OwnerReferences (w_meta w) = OwnerReferences m;
  stores_hash : forall m t w, stores m t w -> GetTemplateHash (TemplateLabels (w_spec w)) = GetTemplateHash (TemplateLabels t);
  stores_replicas : forall m t w r, stores m t w -> Replicas t = Some r -> Replicas (w_spec w) = Some r;
  stores_spec : forall m t w, stores m t w ->
    fills (spec_value (with_Replicas (SchemeDefault t) (Replicas (w_spec w)))) (spec_value (w_spec w));
  create_new : forall m t s, objects s !! Name m = None -> valid None m t ->
    exists w, stores m t w /\ snd (request (OpCreate m t) s) = None
      /\ objects (fst (request (OpCreate m t) s)) = <[Name m := w]> (objects s);
  create_exists : forall m t s, is_Some (objects s !! Name m) ->
    snd (request (OpCreate m t) s) = Some AlreadyExists /\ objects (fst (request (OpCreate m t) s)) = objects s;
  update_found : forall m t s w0, objects s !! Name m = Some w0 -> valid (Some w0) m t ->
    exists w, stores m t w /\ snd (request (OpUpdate m t) s) = None
      /\ objects (fst (request (OpUpdate m t) s)) = <[Name m := w]> (objects s);
  update_again : forall m t w, stores m t w -> valid (Some w) m t;
  delete_found : forall n s, is_Some (objects s !! n) ->
    snd (request (OpDelete n) s) = None /\ objects (fst (request (OpDelete n) s)) = delete n (objects s);
  delete_missing : forall n s, objects s !! n = None ->
    snd (request (OpDelete n) s) = Some NotFound /\ objects (fst (request (OpDelete n) s)) = objects s
}.

(** [syncDeployment] and [syncStatefulSet]: the errors that count. *)
Definition kept_error (o : op) (err : option api_error) : option api_error :=
  match o, err with
  | OpCreate _ _, Some AlreadyExists => None
  | OpDelete _, Some NotFound => None
  | _, Some Conflict => None
  | _, err => err
  end.

Fixpoint syncWorkload `{A : WorkloadAPI St D} (ops : list op) (s : server) : server * list api_error :=
  match ops with
  | [] => (s, [])
  | o :: ops =>
      let '(s, err) := request o s in
      let '(s, errs) := syncWorkload ops s in
      (s, option_list (kept_error o err) ++ errs)
  end.

(** ** Requests on different names do not meet *)

Section Sync.
Context `{A : WorkloadAPI St D}.
Implicit Types (objs : gmap string (Workload St)) (o : op) (s : server).

Definition op_name o : string :=
  match o with OpCreate m _ | OpUpdate m _ => Name m | OpDelete n => n end.

(** A request the server will carry out, and one already carried out. *)
Definition ready o objs : Prop :=
  match o with
  | OpCreate m t => objs !! Name m = None /\ valid None m t
  | OpUpdate m t => exists w, objs !! Name m = Some w /\ valid (Some w) m t
  | OpDelete _ => True
  end.

Definition carried_out o objs : Prop :=
  match o with
  | OpCreate m t | OpUpdate m t => exists w, objs !! Name m = Some w /\ stores m t w
  | OpDelete n => objs !! n = None
  end.

Lemma about_one_name o objs objs' : objs !! op_name o = objs' !! op_name o ->
  (ready o objs -> ready o objs') /\ (carried_out o objs -> carried_out o objs').
Proof. intros E. destruct o; simpl in *; rewrite E; auto. Qed.

Lemma request_ok o s : ready o (objects s) \/ carried_out o (objects s) ->
  kept_error o (snd (request o s)) = None
  /\ carried_out o (objects (fst (request o s)))
  /\ forall n, n ≠ op_name o -> objects (fst (request o s)) !! n = objects s !! n.
Proof.
  destruct o as [m t|m t|n]; simpl; intros H.
  - destruct H as [[Hn Hv]|(w & Hw & Hs)].
    + destruct (create_new m t s Hn Hv) as (w & Hs & -> & ->). split_and!; [done| |by intros; rewrite lookup_insert_ne].
      exists w. by rewrite lookup_insert_eq.
    + destruct (create_exists m t s) as [-> ->]; [by rewrite Hw|]. naive_solver.
  - assert (exists w0, objects s !! Name m = Some w0 /\ valid (Some w0) m t) as (w0 & Hw & Hv).
    { destruct H as [H|(w & Hw & Hs)]; [done|]. exists w. eauto using update_again. }
    destruct (update_found m t s w0 Hw Hv) as (w & Hs & -> & ->). split_and!; [done| |by intros; rewrite lookup_insert_ne].
    exists w. by rewrite lookup_insert_eq.
  - destruct (objects s !! n) eqn:E.
    + destruct (delete_found n s) as [-> ->]; [by rewrite E|]. split_and!; [done|apply lookup_delete_eq|by intros; rewrite lookup_delete_ne].
    + destruct (delete_missing n s E) as [-> ->]. by split_and!.
Qed.

(** When every request can be carried out and those on one name are the same,
    all are, without errors, and other names are left alone. *)
Lemma sync_ok ops s :
  (forall o, o ∈ ops -> ready o (objects s) \/ carried_out o (objects s)) ->
  (forall o o', o ∈ ops -> o' ∈ ops -> op_name o = op_name o' -> o = o') ->
  let '(s', errs) := syncWorkload ops s in
  errs = [] /\ (forall o, o ∈ ops -> carried_out o (objects s'))
  /\ (forall n, n ∉ op_name <$> ops -> objects s' !! n = objects s !! n).
Proof.
  revert s. induction ops as [|o ops IH]; intros s Hr Hsame.
  { simpl. split_and!; [done| |done]. intros o Ho. by apply elem_of_nil in Ho. }
  cbn [syncWorkload]. destruct (request_ok o s) as (Hk & Hd & Hn); [apply Hr; by left|].
  destruct (request o s) as [s1 err]. simpl in Hk, Hd, Hn. rewrite Hk.
  specialize (IH s1). destruct (syncWorkload ops s1) as [s2 errs]. destruct IH as (-> & Hdone & Hother).
  { intros o' Ho'. destruct (decide (op_name o' = op_name o)) as [E|E].
    - right. by rewrite (Hsame o' o) by (by left || by right || done).
    - destruct (about_one_name o' (objects s) (objects s1)) as [H1 H2]; [by rewrite Hn|].
      destruct (Hr o') as [H|H]; [by right|left; auto|right; auto]. }
  { intros o1 o2 H1 H2. apply Hsame; by right. }
  split_and!; [done| |].
  - intros o' [-> |Ho']%elem_of_cons; [|by apply Hdone].
    destruct (decide (op_name o ∈ op_name <$> ops)) as [(o' & E & Ho')%list_elem_of_fmap|Hni].
    + rewrite (Hsame o o'); [by apply Hdone|by left|by right|done].
    + apply (about_one_name o (objects s1)); [by rewrite Hother|done].
  - intros n Hni. rewrite fmap_cons, not_elem_of_cons in Hni. destruct Hni as [Hno Hni]. rewrite Hother, Hn; done.
Qed.

End Sync.

(** ** What a pass asks for *)

(** The map of the workloads by name. *)
Lemma existed_map_lookup {St : Type} (dpList : list (Workload St)) n dp : NoDup ((fun dp => Name (w_meta dp)) <$> dpList) ->
  existed_map dpList !! n = Some dp <-> dp ∈ dpList /\ Name (w_meta dp) = n.
Proof.
  unfold existed_map. intros Hnd.
  enough (forall m, fold_left (fun m dp => <[Name (w_meta dp) := dp]> m) dpList m !! n = Some dp
    <-> (dp ∈ dpList /\ Name (w_meta dp) = n) \/ (n ∉ ((fun dp => Name (w_meta dp)) <$> dpList) /\ m !! n = Some dp)) as ->.
  { rewrite lookup_empty. naive_solver. }
  induction dpList as [|d l IH]; intros m; cbn [fold_left]; [rewrite elem_of_nil; set_solver|].
  rewrite fmap_cons, NoDup_cons in Hnd. destruct Hnd as [Hd Hnd]. rewrite IH by done. rewrite fmap_cons, not_elem_of_cons, elem_of_cons, lookup_insert.
  case_decide as E; [subst n|naive_solver]. split.
  - intros [[Hin Hnm]|[_ [= <-]]]; auto.
  - intros [[[-> |Hin] Hnm]|[[Hf _] _]]; [by right|by left|done].
Qed.

Lemma elem_of_wanted {St : Type} (g : Grid St) gridValues n : n ∈ wanted g gridValues <-> exists v, v ∈ gridValues /\ n = GetWorkloadName g v.
Proof. unfold wanted. rewrite elem_of_list_to_set, list_elem_of_fmap. naive_solver. Qed.

(** The name of a workload determines the grid value. *)
Lemma GetWorkloadName_inj {St : Type} (g : Grid St) v v' : GetWorkloadName g v = GetWorkloadName g v' -> v = v'.
Proof.
  unfold GetWorkloadName. intros E. rewrite <- (TrimPrefix_app (Name (g_meta g) +:+ "-") v), <- (TrimPrefix_app (Name (g_meta g) +:+ "-") v').
  rewrite <- !append_assoc in E. by rewrite E.
Qed.

Section Pass.
Context {St : Type} (ControllerKind : string) (D : WorkloadSpec -> WorkloadSpec).
Implicit Types (g : Grid St) (v : string) (dp : Workload St).

(** The object wanted for a value, made from its template. *)
Definition desired_meta g v : ObjectMeta :=
  mkObjectMeta (GetWorkloadName g v) (Namespace (g_meta g)) EmptyString (grid_labels g) None
    (Some [NewControllerRef ControllerKind g]) None.

Definition desired_spec g v (t : WorkloadSpec) : WorkloadSpec := with_NodeSelector t (Some {[GridUniqKey g := v]}).

(** A value whose template has a replica count and no node selector. *)
Definition plain g v (t : WorkloadSpec) : Prop :=
  option_map snd (getTemplate g v) = Some t /\ NodeSelector t = None /\ is_Some (Replicas t).

(** A workload with the hash and the replica count of the template, and one
    that the controller leaves as it is. *)
Definition same_revision (t : WorkloadSpec) dp : bool :=
  String.eqb (GetTemplateHash (TemplateLabels (w_spec dp))) (GetTemplateHash (TemplateLabels t))
  && bool_decide (Replicas t = Replicas (w_spec dp)).

Definition up_to_date g v (t : WorkloadSpec) dp : bool :=
  same_revision t dp
  && DeepContains (spec_value (w_spec dp)) (spec_value (with_Replicas (D (desired_spec g v t)) (Replicas (w_spec dp)))).

(** The spec an update writes over a workload. *)
Definition updated_spec g v (t : WorkloadSpec) dp : WorkloadSpec :=
  if same_revision t dp then with_Replicas (D (desired_spec g v t)) (Replicas (w_spec dp)) else desired_spec g v t.

Definition value_change g (existed : gmap string (Workload St)) v (t : WorkloadSpec) : list change :=
  match existed !! GetWorkloadName g v with
  | None => [Add (mkPending (desired_meta g v) (desired_spec g v t) None)]
  | Some dp => if up_to_date g v t dp then [] else [Update (mkPending (desired_meta g v) (updated_spec g v t dp) None)]
  end.

(** Marking the labels of the grid changes nothing that the pass looks at. *)
Lemma mark_labels_same g :
  let g' := mark_labels g in
  Name (g_meta g') = Name (g_meta g) /\ grid_labels g' = grid_labels g /\ NewControllerRef ControllerKind g' = NewControllerRef ControllerKind g
  /\ Namespace (g_meta g') = Namespace (g_meta g) /\ GridUniqKey g' = GridUniqKey g /\ mark_labels g' = g'
  /\ forall v, getTemplate g' v = getTemplate g v.
Proof.
  unfold mark_labels, grid_labels, with_meta, with_labels. destruct (Labels (g_meta g)) as [l|] eqn:El; simpl; rewrite ?El; [|by split_and!].
  assert (<[GridSelectorUniqKeyName:=GridUniqKey g]> (<[GridSelectorName:=Name (g_meta g)]>
    (<[GridSelectorUniqKeyName:=GridUniqKey g]> (<[GridSelectorName:=Name (g_meta g)]> l)))
    = <[GridSelectorUniqKeyName:=GridUniqKey g]> (<[GridSelectorName:=Name (g_meta g)]> l)) as El'.
  { apply map_eq. intros k. rewrite !lookup_insert. by repeat case_decide. }
  by rewrite El'.
Qed.

Lemma plain_mark g v t : plain (mark_labels g) v t <-> plain g v t.
Proof. unfold plain. by destruct (mark_labels_same g) as (_ & _ & _ & _ & _ & _ & ->). Qed.

Lemma value_change_mark g existed v t : value_change (mark_labels g) existed v t = value_change g existed v t.
Proof.
  unfold value_change, up_to_date, updated_spec, desired_meta, desired_spec, GetWorkloadName.
  by destruct (mark_labels_same g) as (-> & -> & -> & -> & -> & _ & _).
Qed.

Lemma CreateWorkload_plain g v r t : getTemplate g v = Some (r, t) -> NodeSelector t = None ->
  CreateWorkload ControllerKind g v = Some (mark_labels g, mkPending (desired_meta g v) (desired_spec g v t) None).
Proof.
  intros Ht Hns. unfold CreateWorkload. rewrite Ht, Hns. cbv zeta.
  by destruct (mark_labels_same g) as (_ & _ & _ & _ & -> & _).
Qed.

Lemma reconcile_value_plain g existed v t : plain g v t ->
  (forall dp, existed !! GetWorkloadName g v = Some dp -> is_Some (Replicas (w_spec dp))) ->
  reconcile_value ControllerKind D g existed v = Ret (Some (mark_labels g, value_change g existed v t)).
Proof.
  intros (Ht & Hns & [n Hn]) Hdp. destruct (getTemplate g v) as [[r t']|] eqn:Eg; [|done].
  simpl in Ht. injection Ht as ->. unfold reconcile_value, value_change. rewrite (CreateWorkload_plain g v r t) by done.
  destruct (existed !! GetWorkloadName g v) as [dp|] eqn:Ee; [|done].
  destruct (Hdp dp eq_refl) as [n' Hn']. unfold IsTemplateHashChanged, IsReplicasChanged.
  assert (getTemplate (mark_labels g) v = Some (r, t)) as -> by (by destruct (mark_labels_same g) as (_ & _ & _ & _ & _ & _ & ->)).
  cbv zeta. rewrite Hn, Hn'. cbn [outcome_bind]. unfold up_to_date, updated_spec, same_revision. rewrite Hn, Hn'.
  destruct (String.eqb _ _); simpl; [|done].
  destruct (Z.eqb_spec n n') as [-> |Hne]; simpl; [|by rewrite bool_decide_false by congruence].
  rewrite bool_decide_true by done. unfold resolve. simpl. by destruct (DeepContains _ _).
Qed.

(** The template of each value, as a function. *)
Context (template_of : string -> WorkloadSpec).

Lemma reconcile_values_plain g existed gridValues :
  (forall v, v ∈ gridValues -> plain g v (template_of v)) ->
  (forall dp v, existed !! GetWorkloadName g v = Some dp -> is_Some (Replicas (w_spec dp))) ->
  reconcile_values ControllerKind D g existed gridValues
  = Ret (Some (match gridValues with [] => g | _ => mark_labels g end,
               concat ((fun v => value_change g existed v (template_of v)) <$> gridValues))).
Proof.
  revert g. induction gridValues as [|v vs IH]; intros g Hp He; [done|]. cbn [reconcile_values].
  rewrite (reconcile_value_plain g existed v (template_of v)); [|apply Hp; by left|intros; by eapply He].
  cbn [outcome_bind]. rewrite IH.
  - cbn [outcome_bind]. destruct (mark_labels_same g) as (_ & _ & _ & _ & _ & -> & _).
    rewrite fmap_cons. cbn [concat]. do 3 f_equal; [by destruct vs|]. do 2 f_equal.
    apply list_fmap_ext. intros ? ? ?. apply value_change_mark.
  - intros v' Hv'. apply plain_mark. apply Hp. by right.
  - unfold GetWorkloadName. destruct (mark_labels_same g) as (-> & _). exact He.
Qed.

Lemma value_change_sent g g' existed v t o :
  o ∈ send g' <$> value_change g existed v t <->
  match existed !! GetWorkloadName g v with
  | None => o = OpCreate (desired_meta g v) (desired_spec g v t)
  | Some dp => up_to_date g v t dp = false /\ o = OpUpdate (desired_meta g v) (updated_spec g v t dp)
  end.
Proof.
  unfold value_change. destruct (existed !! GetWorkloadName g v) as [dp|]; simpl.
  - destruct (up_to_date g v t dp); simpl; rewrite ?list_elem_of_singleton, ?elem_of_nil; naive_solver.
  - by rewrite list_elem_of_singleton.
Qed.

(** The requests of a pass over plain values. *)
Lemma reconcile_plain g dpList gridValues :
  (forall v, v ∈ gridValues -> plain g v (template_of v)) ->
  (forall dp v, existed_map dpList !! GetWorkloadName g v = Some dp -> is_Some (Replicas (w_spec dp))) ->
  exists g' ops, reconcile ControllerKind D g dpList gridValues = Ret (Some (g', ops))
    /\ forall o, o ∈ ops <->
      (exists v, v ∈ gridValues /\
        match existed_map dpList !! GetWorkloadName g v with
        | None => o = OpCreate (desired_meta g v) (desired_spec g v (template_of v))
        | Some dp => up_to_date g v (template_of v) dp = false /\ o = OpUpdate (desired_meta g v) (updated_spec g v (template_of v) dp)
        end)
      \/ (exists dp, dp ∈ dpList /\ Name (w_meta dp) ∉ wanted g gridValues /\ o = OpDelete (Name (w_meta dp))).
Proof.
  intros Hp He. unfold reconcile. rewrite reconcile_values_plain by done. cbn [outcome_bind].
  eexists _, _. split; [reflexivity|]. intros o. rewrite elem_of_app, !list_elem_of_fmap.
  f_equiv.
  - setoid_rewrite list_elem_of_In. setoid_rewrite in_concat. setoid_rewrite <- list_elem_of_In. split.
    + intros (c & -> & cs & Hcs & Hc). apply list_elem_of_fmap in Hcs as (v & -> & Hv). exists v. split; [done|].
      apply (value_change_sent g (match gridValues with [] => g | _ => mark_labels g end)).
      apply list_elem_of_fmap. eauto.
    + intros (v & Hv & Ho).
      apply (value_change_sent g (match gridValues with [] => g | _ => mark_labels g end)) in Ho.
      apply list_elem_of_fmap in Ho as (c & -> & Hc). exists c. split; [done|].
      exists (value_change g (existed_map dpList) v (template_of v)). split; [|done]. apply list_elem_of_fmap. eauto.
  - setoid_rewrite list_elem_of_filter. naive_solver.
Qed.

End Pass.

(** ** One pass is enough *)

Section Converge.
Context `{A : WorkloadAPI St D} (ControllerKind : string) (g : Grid St) (template_of : string -> WorkloadSpec).
Context (gridValues : list string).
Implicit Types (v : string) (w dp : Workload St) (s : server).

(** What the controller lists is what the server has: the listed workloads are
    there, and those of a wanted name are listed. *)
Record in_sync (dpList : list (Workload St)) s : Prop := {
  distinct_names : NoDup ((fun dp => Name (w_meta dp)) <$> dpList);
  listed dp : dp ∈ dpList -> objects s !! Name (w_meta dp) = Some dp;
  have_replicas dp : dp ∈ dpList -> is_Some (Replicas (w_spec dp));
  none_hidden v w : v ∈ gridValues -> objects s !! GetWorkloadName g v = Some w -> w ∈ dpList /\ Name (w_meta w) = GetWorkloadName g v
}.

(** The workload belongs to the grid: the next pass claims it. *)
Definition belongs w : Prop :=
  owned (g_meta g) (w_meta w) = true /\ default_selects (Name (g_meta g)) (w_meta w) = true.

(** The server accepts the objects the pass wants to write. *)
Definition accepted s : Prop := forall v, v ∈ gridValues ->
  match objects s !! GetWorkloadName g v with
  | None => valid None (desired_meta ControllerKind g v) (desired_spec g v (template_of v))
  | Some w => valid (Some w) (desired_meta ControllerKind g v) (updated_spec D g v (template_of v) w)
  end.

Lemma stored_belongs v t w : stores (desired_meta ControllerKind g v) t w -> belongs w /\ Name (w_meta w) = GetWorkloadName g v.
Proof.
  intros (Hn & Hl & Ho)%stores_meta. split; [|by rewrite Hn].
  unfold belongs, owned, default_selects, GetControllerOf. rewrite Hl, Ho. simpl. split; [apply String.eqb_refl|].
  apply bool_decide_eq_true. rewrite lookup_insert_ne by done. apply lookup_insert_eq.
Qed.

(** What an update writes is, in turn, up to date. *)
Lemma default_updated v t dp : is_Some (Replicas t) -> TemplateLabels (updated_spec D g v t dp) = TemplateLabels t
  /\ Replicas (updated_spec D g v t dp) = Replicas t.
Proof.
  intros Hr. unfold updated_spec, same_revision. destruct (String.eqb _ _); simpl; [|done].
  case_bool_decide as E; simpl; [|done]. by rewrite default_labels.
Qed.

Lemma stored_up_to_date v t dp w : is_Some (Replicas t) ->
  stores (desired_meta ControllerKind g v) (desired_spec g v t) w
  \/ stores (desired_meta ControllerKind g v) (updated_spec D g v t dp) w ->
  up_to_date D g v t w = true.
Proof.
  intros Hr Hs. destruct (default_updated v t dp Hr) as [El Er]. pose proof Hr as [n Hn].
  assert (GetTemplateHash (TemplateLabels (w_spec w)) = GetTemplateHash (TemplateLabels t)) as Hh.
  { destruct Hs as [Hs|Hs]; apply stores_hash in Hs; [done|by rewrite Hs, El]. }
  assert (Replicas (w_spec w) = Some n) as Hw.
  { destruct Hs as [Hs|Hs]; eapply stores_replicas in Hs; [exact Hs|done|exact Hs|by rewrite Er]. }
  unfold up_to_date, same_revision. rewrite Hh, String.eqb_refl, bool_decide_true by congruence. simpl.
  apply fills_contained. destruct Hs as [Hs|Hs]; [by apply stores_spec in Hs|].
  apply stores_spec in Hs. unfold updated_spec in Hs. destruct (same_revision t dp) eqn:Es; [|done].
  unfold same_revision in Es. apply andb_true_iff in Es as [_ Es%bool_decide_eq_true].
  rewrite <- Es, Hn, Hw, default_again in Hs. rewrite Hw. exact Hs.
Qed.

(** A pass over up-to-date workloads asks for nothing. *)
Lemma reconcile_idle dpList :
  (forall v, v ∈ gridValues -> plain g v (template_of v)) ->
  NoDup ((fun dp => Name (w_meta dp)) <$> dpList) ->
  (forall dp, dp ∈ dpList -> is_Some (Replicas (w_spec dp)) /\ exists v, v ∈ gridValues /\ Name (w_meta dp) = GetWorkloadName g v) ->
  (forall v, v ∈ gridValues -> exists dp, dp ∈ dpList /\ Name (w_meta dp) = GetWorkloadName g v /\ up_to_date D g v (template_of v) dp = true) ->
  exists g', reconcile ControllerKind D g dpList gridValues = Ret (Some (g', [])).
Proof.
  intros Hp Hnd Hin Hall. destruct (reconcile_plain ControllerKind D template_of g dpList gridValues Hp) as (g' & ops & -> & Hops).
  { intros dp v [Hdp _]%(existed_map_lookup dpList _ _ Hnd). by destruct (Hin dp Hdp). }
  exists g'. do 3 f_equal. destruct ops as [|o ops]; [done|]. exfalso.
  destruct (proj1 (Hops o)) as [(v & Hv & Ho)|(dp & Hdp & Hw & _)]; [by left| |].
  - destruct (Hall v Hv) as (dp & Hdp & Hn & Hu). rewrite (proj2 (existed_map_lookup dpList _ dp Hnd)) in Ho by done.
    destruct Ho as [Ho _]. congruence.
  - apply Hw. destruct (Hin dp Hdp) as (_ & v & Hv & ->). unfold wanted. apply elem_of_list_to_set, list_elem_of_fmap. eauto.
Qed.

End Converge.

(** ** The requests of a pass can all be made *)

Section Requests.
Context `{A : WorkloadAPI St D} (ControllerKind : string) (g : Grid St) (template_of : string -> WorkloadSpec).
Context (gridValues : list string) (dpList : list (Workload St)) (s : server).
Context (Hplain : forall v, v ∈ gridValues -> plain g v (template_of v)) (Hsync : in_sync g gridValues dpList s).
Context (Haccepted : accepted ControllerKind g template_of gridValues s).
Context (g' : Grid St) (ops : list op).
Context (Hops : forall o, o ∈ ops <->
  (exists v, v ∈ gridValues /\
    match existed_map dpList !! GetWorkloadName g v with
    | None => o = OpCreate (desired_meta ControllerKind g v) (desired_spec g v (template_of v))
    | Some dp => up_to_date D g v (template_of v) dp = false
                 /\ o = OpUpdate (desired_meta ControllerKind g v) (updated_spec D g v (template_of v) dp)
    end)
  \/ (exists dp, dp ∈ dpList /\ Name (w_meta dp) ∉ wanted g gridValues /\ o = OpDelete (Name (w_meta dp)))).

(** On the wanted names the list and the server agree. *)
Lemma existed_objects v : v ∈ gridValues ->
  existed_map dpList !! GetWorkloadName g v = objects s !! GetWorkloadName g v.
Proof.
  intros Hv. apply option_eq. intros dp. rewrite existed_map_lookup by apply Hsync. split.
  - intros [Hdp <-]. by apply Hsync.
  - intros Hdp. by eapply none_hidden.
Qed.

Lemma requests_ready o : o ∈ ops -> ready o (objects s).
Proof.
  intros [(v & Hv & Ho)|(dp & Hdp & Hw & ->)]%Hops; [|done].
  specialize (Haccepted v Hv). rewrite existed_objects in Ho by done.
  destruct (objects s !! GetWorkloadName g v) as [w|] eqn:E; [destruct Ho as [_ ->]; by exists w|by subst o].
Qed.

Lemma request_name v o :
  match existed_map dpList !! GetWorkloadName g v with
  | None => o = OpCreate (desired_meta ControllerKind g v) (desired_spec g v (template_of v))
  | Some dp => up_to_date D g v (template_of v) dp = false
               /\ o = OpUpdate (desired_meta ControllerKind g v) (updated_spec D g v (template_of v) dp)
  end -> op_name o = GetWorkloadName g v.
Proof. destruct (existed_map dpList !! GetWorkloadName g v); [by intros [_ ->]|by intros ->]. Qed.

Lemma op_name_requests o : o ∈ ops -> op_name o ∈ wanted g gridValues \/ exists dp, dp ∈ dpList /\ Name (w_meta dp) = op_name o.
Proof.
  intros [(v & Hv & Ho)|(dp & Hdp & Hw & ->)]%Hops; [left|right; eauto].
  apply elem_of_wanted. exists v. split; [done|]. by apply request_name.
Qed.

Lemma requests_same o o' : o ∈ ops -> o' ∈ ops -> op_name o = op_name o' -> o = o'.
Proof.
  intros [(v & Hv & Ho)|(dp & Hdp & Hw & ->)]%Hops [(v' & Hv' & Ho')|(dp' & Hdp' & Hw' & ->)]%Hops.
  - rewrite (request_name v o), (request_name v' o') by done. intros <-%GetWorkloadName_inj.
    destruct (existed_map dpList !! GetWorkloadName g v); [by destruct Ho as [_ ->], Ho' as [_ ->]|by subst].
  - rewrite (request_name v o) by done. intros E. destruct Hw'. apply elem_of_wanted. by exists v.
  - rewrite (request_name v' o') by done. intros E. destruct Hw. apply elem_of_wanted. by exists v'.
  - simpl. by intros ->.
Qed.

(** What the server has after the requests, in any order. *)
Lemma after_requests ops' : ops' ≡ₚ ops ->
  let '(s', errs) := syncWorkload ops' s in
  errs = []
  /\ (forall v, v ∈ gridValues -> exists w, objects s' !! GetWorkloadName g v = Some w
       /\ up_to_date D g v (template_of v) w = true /\ (w ∈ dpList \/ belongs g w))
  /\ (forall dp, dp ∈ dpList -> Name (w_meta dp) ∉ wanted g gridValues -> objects s' !! Name (w_meta dp) = None)
  /\ (forall n, n ∉ wanted g gridValues -> (forall dp, dp ∈ dpList -> Name (w_meta dp) ≠ n) -> objects s' !! n = objects s !! n).
Proof.
  intros Hperm. pose proof (sync_ok ops' s) as Hok. destruct (syncWorkload ops' s) as [s' errs].
  destruct Hok as (-> & Hdone & Hother).
  { intros o Ho. left. apply requests_ready. by rewrite <- Hperm. }
  { intros o o'. rewrite Hperm. apply requests_same. }
  setoid_rewrite Hperm in Hdone. setoid_rewrite Hperm in Hother. split_and!; [done| | |].
  - intros v Hv. destruct (Hplain v Hv) as (_ & _ & Hr). pose proof (existed_objects v Hv) as He.
    destruct (existed_map dpList !! GetWorkloadName g v) as [dp|] eqn:E.
    + destruct (up_to_date D g v (template_of v) dp) eqn:Eu.
      * exists dp. symmetry in He. rewrite Hother; [|].
        { split_and!; [done|done|left]. by eapply none_hidden. }
        intros (o & Ho & Hin)%list_elem_of_fmap. apply Hops in Hin as [(v' & Hv' & Ho')|(dp' & Hdp' & Hw & ->)].
        -- assert (v' = v) as -> by (apply (GetWorkloadName_inj g); by rewrite Ho; symmetry; apply request_name).
           rewrite E in Ho'. destruct Ho'. congruence.
        -- apply Hw. apply elem_of_wanted. eauto.
      * destruct (Hdone (OpUpdate (desired_meta ControllerKind g v) (updated_spec D g v (template_of v) dp))) as (w & Hw & Hs).
        { apply Hops. left. exists v. by rewrite E. }
        exists w. split_and!; [done|by apply (stored_up_to_date ControllerKind g v _ dp); auto|right; by eapply stored_belongs].
    + destruct (Hdone (OpCreate (desired_meta ControllerKind g v) (desired_spec g v (template_of v)))) as (w & Hw & Hs).
      { apply Hops. left. exists v. by rewrite E. }
      exists w. split_and!; [done|by apply (stored_up_to_date ControllerKind g v _ w); auto|right; by eapply stored_belongs].
  - intros dp Hdp Hw. apply (Hdone (OpDelete (Name (w_meta dp)))). apply Hops. right. eauto.
  - intros n Hn Hl. apply Hother. intros (o & -> & Ho)%list_elem_of_fmap.
    destruct (op_name_requests o Ho) as [|(dp & Hdp & E)]; [done|by eapply Hl].
Qed.

End Requests.

(** ** Templates with a node selector *)

Section SharedSelector.
Context {St : Type} (ControllerKind : string) (D : WorkloadSpec -> WorkloadSpec).
Implicit Types (g : Grid St) (v : string).

Lemma getTemplate_set g v v' r t t' : getTemplate g v = Some (r, t) -> getTemplate g v' = Some (r, t) ->
  getTemplate (set_template g r t') v' = Some (r, t').
Proof.
  intros Hv Hv'. unfold getTemplate in Hv'. destruct (_ || _) eqn:E in Hv'.
  - injection Hv' as <- <-. unfold getTemplate, set_template. simpl. by rewrite E.
  - destruct (mp (TemplatePool g) !! _) as [t''|] eqn:El in Hv'; [|done]. injection Hv' as <- <-.
    unfold getTemplate, set_template. simpl. rewrite E. by rewrite lookup_insert_eq.
Qed.

Lemma template_at_chosen g v r t : getTemplate g v = Some (r, t) -> template_at g r = Some t.
Proof.
  unfold getTemplate. destruct (_ || _); [by intros [= <- <-]|].
  destruct (mp (TemplatePool g) !! _) eqn:E; [|done]. by intros [= <- <-].
Qed.

(** The creation of one workload, which writes its value into the selector it
    shares with the template. *)
Lemma CreateWorkload_shared g v r t sel : getTemplate g v = Some (r, t) -> NodeSelector t = Some sel ->
  exists g' p, CreateWorkload ControllerKind g v = Some (g', p)
    /\ p_meta p = desired_meta ControllerKind g v /\ p_shared p = Some r
    /\ (forall v', desired_meta ControllerKind g' v' = desired_meta ControllerKind g v') /\ GridUniqKey g' = GridUniqKey g
    /\ (forall v', getTemplate g v' = Some (r, t) ->
         getTemplate g' v' = Some (r, with_NodeSelector t (Some (<[GridUniqKey g := v]> sel)))).
Proof.
  intros Ht Hns. unfold CreateWorkload. rewrite Ht, Hns. cbv zeta.
  destruct (mark_labels_same ControllerKind g) as (En & El & Er & Es & Ek & _ & Et).
  eexists _, _. split; [reflexivity|]. rewrite Ek. split_and!; [done|done| | |].
  - intros v'. transitivity (desired_meta ControllerKind (mark_labels g) v'); [by destruct r|].
    unfold desired_meta, GetWorkloadName. by rewrite En, El, Er, Es.
  - by destruct r.
  - intros v' Hv'. apply (getTemplate_set _ v v' r t); by rewrite Et.
Qed.

Lemma last_cons_default {X : Type} (x d : X) (l : list X) : List.last (x :: l) d = List.last l x.
Proof. revert x d. induction l as [|y l IH]; intros x d; [done|]. change (List.last (y :: l) d = List.last (y :: l) x). by rewrite !IH. Qed.

Lemma reconcile_values_add g v vs g1 p : CreateWorkload ControllerKind g v = Some (g1, p) ->
  reconcile_values ControllerKind D g ∅ (v :: vs) =
    let* r := reconcile_values ControllerKind D g1 ∅ vs in
    Ret (match r with None => None | Some (g, cs) => Some (g, Add p :: cs) end).
Proof.
  intros Hc. cbn [reconcile_values]. unfold reconcile_value at 1. rewrite lookup_empty, Hc. cbn [outcome_bind].
  by destruct (reconcile_values ControllerKind D g1 ∅ vs) as [[[]|]|].
Qed.

Lemma reconcile_values_shared g v vs r t sel :
  (forall v', v' ∈ v :: vs -> getTemplate g v' = Some (r, t)) -> NodeSelector t = Some sel ->
  exists g' cs, reconcile_values ControllerKind D g ∅ (v :: vs) = Ret (Some (g', cs))
    /\ Forall2 (fun v c => exists p, c = Add p /\ p_meta p = desired_meta ControllerKind g v /\ p_shared p = Some r) (v :: vs) cs
    /\ exists t', template_at g' r = Some t' /\ NodeSelector t' = Some (<[GridUniqKey g := List.last vs v]> sel).
Proof.
  revert g v t sel. induction vs as [|v2 vs IH]; intros g v t sel Ht Hns;
    destruct (CreateWorkload_shared g v r t sel (Ht v ltac:(by left)) Hns) as (g1 & p & Hc & Hm & Hp & Hd & Hk & Hg);
    rewrite (reconcile_values_add g v _ g1 p Hc).
  - exists g1, [Add p]. split_and!; [done|by repeat econstructor|].
    eexists. split; [by eapply template_at_chosen, Hg, Ht; left|done].
  - destruct (IH g1 v2 (with_NodeSelector t (Some (<[GridUniqKey g := v]> sel))) (<[GridUniqKey g := v]> sel)) as (g2 & cs & -> & Hcs & t' & Ht' & Hs'); [|done|].
    { intros v' Hv'. apply Hg, Ht. by right. }
    cbn [outcome_bind]. eexists _, _. split; [reflexivity|]. split.
    + simpl. constructor; [by exists p|]. eapply Forall2_impl; [exact Hcs|]. intros ? ? (p' & -> & Hm' & Hp'). exists p'. by rewrite Hm', Hd.
    + exists t'. split; [done|]. rewrite Hs', Hk, insert_insert_eq. by rewrite last_cons_default.
Qed.

End SharedSelector.

(** ** An API server that stores what it is sent *)

Definition plain_request (o : op) (s : gmap string (Workload unit)) : gmap string (Workload unit) * option api_error :=
  match o with
  | OpCreate m t =>
      match s !! Name m with
      | None => (<[Name m := mkWorkload m t tt]> s, None)
      | Some _ => (s, Some AlreadyExists)
      end
  | OpUpdate m t =>
      match s !! Name m with
      | None => (s, Some NotFound)
      | Some _ => (<[Name m := mkWorkload m t tt]> s, None)
      end
  | OpDelete n => match s !! n with None => (s, Some NotFound) | Some _ => (delete n s, None) end
  end.

Lemma fills_map_value m : fills (map_value m) (map_value m).
Proof.
  unfold map_value. destruct m as [m|]; simpl; [|apply fills_map_nil].
  apply fills_map; [done|]. rewrite Forall_forall. intros kv Hkv. exists (snd kv).
  apply list_elem_of_fmap in Hkv as ([k v] & -> & Hk). simpl. split; [|by apply fills_scalar].
  apply elem_of_map_to_list in Hk. pose proof (NoDup_fst_map_to_list m) as Hnd.
  apply elem_of_map_to_list in Hk. induction (map_to_list m) as [|[k' v'] l IH]; [by apply elem_of_nil in Hk|].
  simpl. rewrite fmap_cons in Hnd. apply NoDup_cons in Hnd as [Hk' Hnd]. destruct (String.eqb_spec k' k) as [-> |Hne].
  - apply elem_of_cons in Hk as [[= <-]|Hk]; [done|]. destruct Hk'. apply list_elem_of_fmap. by exists (k, v).
  - apply elem_of_cons in Hk as [[= -> ->]|Hk]; [done|]. by apply IH.
Qed.

(** It takes a spec whose unmodelled part compares with itself. *)
Definition comparable (t : WorkloadSpec) : Prop := fills (Rest t) (Rest t).

Lemma fills_spec_value t : comparable t -> fills (spec_value t) (spec_value t).
Proof.
  intros Hr. unfold spec_value. apply fills_struct; [done|]. simpl. constructor; [|constructor; [|constructor; [|constructor; [done|constructor]]]].
  - destruct (Replicas t); simpl; [by apply fills_ptr, fills_scalar|apply fills_ptr_nil].
  - apply fills_map_value.
  - apply fills_map_value.
Qed.

#[export] Instance plain_api : WorkloadAPI unit (fun t => t).
Proof.
  refine {|
    server := gmap string (Workload unit); objects s := s; request := plain_request;
    stores m t w := w = mkWorkload m t tt /\ comparable t; valid _ m t := comparable t
  |}; unfold plain_request; simpl.
  - done.
  - done.
  - by intros m t w [-> _].
  - by intros m t w [-> _].
  - by intros m t w r [-> _].
  - intros m t w [-> Hc]. destruct t; by apply fills_spec_value.
  - intros m t s -> Hv. eexists. split_and!; [reflexivity|done|done|done].
  - by intros m t s [w ->].
  - intros m t s w0 -> Hv. eexists. split_and!; [reflexivity|done|done|done].
  - by intros m t w [-> Hc].
  - by intros n s [w ->].
  - by intros n s ->.
Defined.

(** ** Properties *)

(** C16: one pass is enough, and the next finds nothing to do.  The template of
    every grid value is there, has a replica count ([nil_replicas_panic]) and no
    node selector of its own ([selector_shared]); the controller's list holds
    what the server has, each workload once and with a replica count, and none
    of the wanted names is hidden from it; and the server accepts the wanted
    objects.  Then [reconcile] succeeds, and its requests, made in any order,
    leave no error: every wanted workload is there, up to date and (unless it
    was already listed) owned and labelled so that the next pass claims it; the
    listed workloads of no grid value are gone; nothing else has changed; and a
    pass over the new state asks for nothing.  Grid values may repeat, as they
    do when nodes share one. *)
Theorem reconcile_converges `{A : WorkloadAPI St D} (ControllerKind : string) (g : Grid St)
    (template_of : string -> WorkloadSpec) (gridValues : list string) (dpList : list (Workload St)) (s : server)
    (Hplain : forall v, v ∈ gridValues -> plain g v (template_of v)) (Hsync : in_sync g gridValues dpList s)
    (Haccepted : accepted ControllerKind g template_of gridValues s) :
  exists g' ops, reconcile ControllerKind D g dpList gridValues = Ret (Some (g', ops))
  /\ forall ops', ops' ≡ₚ ops ->
    let '(s', errs) := syncWorkload ops' s in
    errs = []
    /\ (forall v, v ∈ gridValues -> exists w, objects s' !! GetWorkloadName g v = Some w
         /\ up_to_date D g v (template_of v) w = true /\ (w ∈ dpList \/ belongs g w))
    /\ (forall dp, dp ∈ dpList -> Name (w_meta dp) ∉ wanted g gridValues -> objects s' !! Name (w_meta dp) = None)
    /\ (forall n, n ∉ wanted g gridValues -> (forall dp, dp ∈ dpList -> Name (w_meta dp) ≠ n) -> objects s' !! n = objects s !! n)
    /\ (forall dpList', in_sync g gridValues dpList' s' ->
         (forall dp', dp' ∈ dpList' -> Name (w_meta dp') ∈ wanted g gridValues \/ exists dp, dp ∈ dpList /\ Name (w_meta dp) = Name (w_meta dp')) ->
         exists g'', reconcile ControllerKind D g dpList' gridValues = Ret (Some (g'', []))).
Proof.
  destruct (reconcile_plain ControllerKind D template_of g dpList gridValues Hplain) as (g' & ops & Heq & Hops).
  { intros dp v [Hdp _]%existed_map_lookup; [|by apply Hsync]. by eapply have_replicas. }
  exists g', ops. split; [done|]. intros ops' Hperm.
  pose proof (after_requests ControllerKind g template_of gridValues dpList s Hplain Hsync Haccepted ops Hops ops' Hperm) as H.
  destruct (syncWorkload ops' s) as [s' errs]. destruct H as (He & Hw & Hd & Ho).
  split_and!; [done..|]. intros dpList' Hs' Hnames. apply (reconcile_idle ControllerKind g template_of); [done|by apply Hs'| |].
  - intros dp' Hdp'. split; [by eapply have_replicas|]. apply elem_of_wanted.
    destruct (decide (Name (w_meta dp') ∈ wanted g gridValues)) as [Hin|Hni]; [done|].
    destruct (Hnames dp' Hdp') as [|(dp & Hdp & E)]; [done|].
    pose proof (Hd dp Hdp) as Hnone. rewrite E, (listed _ _ _ _ Hs' dp' Hdp') in Hnone. by specialize (Hnone Hni).
  - intros v Hv. destruct (Hw v Hv) as (w & Hl & Hu & _). destruct (none_hidden _ _ _ _ Hs' v w Hv Hl). eauto.
Qed.

(** Two nodes in zone a and one in zone b; zone a's workload is outdated and
    zone c has none left. *)
Definition ex_spec : WorkloadSpec := mkSpec (Some 1) (Some {[TemplateHashKey := "7"%string]}) None (Val "Rest" (Bool true)).
Definition ex_grid : Grid unit := mkGrid (named "ns" "web") "zone" ex_spec None None "default" false None.
Definition ex_old (v : string) : Workload unit :=
  mkWorkload (desired_meta "DeploymentGrid" ex_grid v) (with_Replicas ex_spec (Some 3)) tt.
Definition ex_server : gmap string (Workload unit) := {["web-a"%string := ex_old "a"; "web-c"%string := ex_old "c"]}.

Lemma reconcile_converges_witness :
  exists g' ops, reconcile "DeploymentGrid" (fun t => t) ex_grid [ex_old "a"; ex_old "c"] ["a"; "b"; "a"]%string = Ret (Some (g', ops))
  /\ forall ops', ops' ≡ₚ ops -> objects (fst (syncWorkload (A := plain_api) ops' ex_server)) !! "web-c"%string = None.
Proof.
  destruct (reconcile_converges (A := plain_api) "DeploymentGrid" ex_grid (fun _ => ex_spec) ["a"; "b"; "a"]%string
    [ex_old "a"; ex_old "c"] ex_server) as (g' & ops & Heq & H).
  - intros v _. split; [reflexivity|]. split; [reflexivity|by eexists].
  - split.
    + apply (bool_decide_unpack _). vm_compute. exact I.
    + intros dp [-> |[-> |[]%elem_of_nil]%elem_of_cons]%elem_of_cons; reflexivity.
    + intros dp [-> |[-> |[]%elem_of_nil]%elem_of_cons]%elem_of_cons; by eexists.
    + intros v w Hv Hw. apply elem_of_cons in Hv as [-> |[-> |[-> |[]%elem_of_nil]%elem_of_cons]%elem_of_cons];
        vm_compute in Hw; simplify_eq; (split; [by left|reflexivity]).
  - intros v _. assert (comparable ex_spec) as Hc by (by apply fills_scalar).
    match goal with |- match ?x with _ => _ end => destruct x as [w|] end; [|exact Hc]. simpl. unfold updated_spec. by destruct (same_revision _ _).
  - exists g', ops. split; [exact Heq|]. intros ops' Hperm. specialize (H ops' Hperm).
    destruct (syncWorkload (A := plain_api) ops' ex_server) as [s' errs]. destruct H as (_ & _ & Hd & _).
    apply (Hd (ex_old "c")); [by right; left|]. apply (bool_decide_unpack _). vm_compute. exact I.
Defined.

(** With a node selector in the template the workloads all go to one place.
    Creating a workload writes its grid value into the node selector of the
    template it shares, before any request is made; so when the template has
    one, every workload of a new grid is created, under its own name, with
    the value of the last grid value in its node selector. *)
Theorem selector_shared {St : Type} (ControllerKind : string) (D : WorkloadSpec -> WorkloadSpec) (g : Grid St)
    (v : string) (vs : list string) (r : tref) (t : WorkloadSpec) (sel : gmap string string)
    (Htemplate : forall v', v' ∈ v :: vs -> getTemplate g v' = Some (r, t)) (Hsel : NodeSelector t = Some sel) :
  exists g' ops, reconcile ControllerKind D g [] (v :: vs) = Ret (Some (g', ops))
  /\ Forall2 (fun v' o => exists spec, o = OpCreate (desired_meta ControllerKind g v') spec
       /\ NodeSelector spec = Some (<[GridUniqKey g := List.last vs v]> sel)) (v :: vs) ops.
Proof.
  destruct (reconcile_values_shared ControllerKind D g v vs r t sel Htemplate Hsel) as (g' & cs & Heq & Hcs & t' & Ht' & Hs').
  unfold reconcile. change (existed_map []) with (∅ : gmap string (Workload St)). rewrite Heq. cbn [outcome_bind].
  eexists _, _. split; [reflexivity|]. rewrite filter_nil, fmap_nil, app_nil_r.
  apply Forall2_fmap_r. eapply Forall2_impl; [exact Hcs|]. intros v' c (p & -> & Hm & Hp).
  exists (resolve g' p). simpl. rewrite Hm. split; [done|]. unfold resolve. by rewrite Hp, Ht'.
Qed.

(** Two zones, and a template that asks for fast disks. *)
Definition ex_selector_grid : Grid unit :=
  mkGrid (named "ns" "web") "zone" (with_NodeSelector ex_spec (Some {["disk"%string := "fast"%string]})) None None "default" false None.

Lemma selector_shared_witness :
  exists g' o1 o2, reconcile "DeploymentGrid" (fun t => t) ex_selector_grid [] ["a"; "b"]%string = Ret (Some (g', [o1; o2]))
  /\ op_name o1 = "web-a"%string.
Proof.
  destruct (selector_shared "DeploymentGrid" (fun t => t) ex_selector_grid "a" ["b"%string] MainTemplate
    (Template ex_selector_grid) {["disk"%string := "fast"%string]}) as (g' & ops & Heq & Hops); [|reflexivity|].
  - intros v' _. reflexivity.
  - inversion Hops as [|? o1 ? ops1 (spec & -> & _) H1]; subst. inversion H1 as [|? o2 ? ops2 (spec2 & -> & _) H2]; subst.
    inversion H2; subst. eexists _, _, _. split; [exact Heq|reflexivity].
Defined.

(** A template that leaves out the replica count, which then defaults to one,
    stops the controller once the workload exists. *)
Lemma nil_replicas_panic {St : Type} (ControllerKind : string) (D : WorkloadSpec -> WorkloadSpec) (g : Grid St)
    (v : string) (dp : Workload St) (t : WorkloadSpec) :
  getTemplate g v = Some (MainTemplate, t) -> Replicas t = None -> NodeSelector t = None -> Name (w_meta dp) = GetWorkloadName g v ->
  reconcile ControllerKind D g [dp] [v] = Panic "nil pointer dereference".
Proof.
  intros Ht Hr Hns Hn. unfold reconcile, existed_map. cbn [fold_left reconcile_values]. unfold reconcile_value.
  rewrite Hn, lookup_insert_eq, (CreateWorkload_plain ControllerKind g v MainTemplate t) by done.
  unfold IsReplicasChanged. destruct (mark_labels_same ControllerKind g) as (_ & _ & _ & _ & _ & _ & ->). by rewrite Ht, Hr.
Qed.
