(* ===== verification/GridEvents.v ===== *)
(** * Grid controllers: events and the work queue (deployment.go, statefulset.go, service.go, node.go, controller.go)

    The informers' handlers put the keys of grids on the work queue: those
    whose objects changed, and those whose unique key is among the labels of a
    changed node.  The handlers are the same for the three kinds of grid and
    are modelled on any type of grid with metadata; each returns the keys it
    adds to the queue.  The theorem shows that no change that matters to a grid is missed. *)

From Stdlib Require Import ZArith Lia Ascii String.
From stdpp Require Import base strings gmap numbers sorting list.
From S2P Require Import Prelude.
From S2P Require Import GoStd.
From S2P Require Import K8s.
From S2P Require Import Requests.
From S2P Require Import WorkQueue.
From S2P Require Import GridClaim.

Local Open Scope Z_scope.
Local Open Scope go_scope.

(** ** Keys *)

(** [MetaNamespaceKeyFunc]: handlers only pass grids, never tombstones. *)
Definition KeyFunc (m : ObjectMeta) : string :=
  if String.eqb (Namespace m) EmptyString then Name m else Namespace m +:+ "/" +:+ Name m.

(** [SplitMetaNamespaceKey]; [None] is the error. *)
Definition SplitMetaNamespaceKey (key : string) : option (string * string) :=
  match split_on "/" key with
  | [name] => Some (EmptyString, name)
  | [namespace; name] => Some (namespace, name)
  | _ => None
  end.

Section Events.
(** A type of grid; the lister's grids, in all namespaces. *)
Context {G : Type} (meta : G -> ObjectMeta) (uniq_key : G -> string) (Kind : string) (IsValidLabelValue : string -> bool).
Context (grids : list G).
Implicit Types (g : G) (m : ObjectMeta) (n : Node).

Definition enqueue g : list string := [KeyFunc (meta g)].

(** [Lister.Grids(namespace).Get(name)] *)
Definition Get (namespace name : string) : option G :=
  head (filter (fun g => Namespace (meta g) = namespace /\ Name (meta g) = name) grids).

Definition in_namespace (namespace : string) : list G := filter (fun g => Namespace (meta g) = namespace) grids.

(** *** Workloads and services *)

Definition resolveControllerRef (namespace : string) (controllerRef : OwnerReference) : option G :=
  if negb (String.eqb (or_Kind controllerRef) Kind) then None
  else match Get namespace (or_Name controllerRef) with
       | None => None
       | Some g => if negb (String.eqb (UID (meta g)) (or_UID controllerRef)) then None else Some g
       end.

(** The loop returns nothing at the first grid whose name is no label value. *)
Fixpoint selecting m (l : list G) : option (list G) :=
  match l with
  | [] => Some []
  | g :: l =>
      match GetDefaultSelector IsValidLabelValue (Name (meta g)) with
      | None => None
      | Some selector =>
          let rest := selecting m l in
          if selector m then option_map (cons g) rest else rest
      end
  end.

Definition getGridForObject m : list G :=
  match map_to_list (mp (Labels m)) with
  | [] => []
  | _ => default [] (selecting m (in_namespace (Namespace m)))
  end.

Definition enqueue_owner m : list string :=
  match GetControllerOf m with
  | None => []
  | Some r => match resolveControllerRef (Namespace m) r with Some g => enqueue g | None => [] end
  end.

Definition deleteObject (obj : deleted ObjectMeta) : list string :=
  match deleted_object obj with
  | None => []
  | Some m => if negb (IsConcernedObject m) then [] else enqueue_owner m
  end.

Definition addObject m : list string :=
  if negb (IsConcernedObject m) then []
  else match DeletionTimestamp m with
       | Some _ => deleteObject (DeletedObject m)
       | None =>
           match GetControllerOf m with
           | Some _ => enqueue_owner m
           | None => concat (enqueue <$> getGridForObject m)
           end
       end.

(** The two versions of an object, with their resource versions. *)
Definition updateObject (oldRV curRV : string) (old cur : ObjectMeta) : list string :=
  if String.eqb curRV oldRV then []
  else
    let curControllerRef := GetControllerOf cur in
    let oldControllerRef := GetControllerOf old in
    let controllerRefChanged := negb (bool_decide (curControllerRef = oldControllerRef)) in
    let keys := if controllerRefChanged then enqueue_owner old else [] in
    match curControllerRef with
    | Some _ => keys ++ enqueue_owner cur
    | None =>
        if negb (IsConcernedObject cur) then keys
        else
          let labelChanged := negb (bool_decide (Labels cur = Labels old)) in
          if labelChanged || controllerRefChanged then keys ++ concat (enqueue <$> getGridForObject cur) else keys
    end.

(** *** Nodes (node.go) *)

Definition has_key n g : bool := has_label (uniq_key g) (node_meta n).

(** A grid is listed once per node that has its key. *)
Definition getGridForNode (nodes : list Node) : list G :=
  if forallb (fun n => match map_to_list (mp (Labels (node_meta n))) with [] => true | _ => false end) nodes then []
  else concat ((fun g => (fun _ => g) <$> filter (fun n => has_key n g = true) nodes) <$> grids).

Definition deleteNode (obj : deleted Node) : list string :=
  match deleted_object obj with
  | None => []
  | Some n => concat (enqueue <$> getGridForNode [n])
  end.

Definition addNode n : list string :=
  match DeletionTimestamp (node_meta n) with
  | Some _ => deleteNode (DeletedObject n)
  | None => concat (enqueue <$> getGridForNode [n])
  end.

Definition updateNode (oldRV curRV : string) (oldNode curNode : Node) : list string :=
  if String.eqb curRV oldRV then []
  else if negb (bool_decide (Labels (node_meta curNode) = Labels (node_meta oldNode)))
       then concat (enqueue <$> getGridForNode [oldNode; curNode])
       else [].

(** *** Grids *)

Definition addGrid g : list string := enqueue g.
Definition updateGrid (oldRV curRV : string) (cur : G) : list string := if String.eqb curRV oldRV then [] else enqueue cur.
Definition deleteGrid (obj : deleted G) : list string := match deleted_object obj with None => [] | Some g => enqueue g end.

End Events.

(** ** Retries end *)

(** ** Keys lead back to their grids *)

Lemma SplitMetaNamespaceKey_KeyFunc m : free_of "/" (Namespace m) -> free_of "/" (Name m) ->
  SplitMetaNamespaceKey (KeyFunc m) = Some (Namespace m, Name m).
Proof.
  unfold free_of, SplitMetaNamespaceKey, KeyFunc. intros Hns Hn.
  destruct (String.eqb_spec (Namespace m) EmptyString) as [E|E]; [by rewrite Hn, E|].
  change (Namespace m +:+ "/" +:+ Name m) with (Namespace m +:+ String "/" (Name m)). by rewrite split_on_app, Hns, Hn.
Qed.

Section Reach.
Context {G : Type} (meta : G -> ObjectMeta) (uniq_key : G -> string) (Kind : string) (IsValidLabelValue : string -> bool).
Context (grids : list G) (g : G).
Context (Hg : g ∈ grids).
Context (Huniq : forall g', g' ∈ grids -> Namespace (meta g') = Namespace (meta g) -> Name (meta g') = Name (meta g) -> g' = g).

(** The object belongs to [g]. *)
Definition owned_by (m : ObjectMeta) : Prop :=
  Namespace m = Namespace (meta g)
  /\ exists r, GetControllerOf m = Some r /\ or_Kind r = Kind /\ or_Name r = Name (meta g) /\ or_UID r = UID (meta g).

Lemma Get_found : Get meta grids (Namespace (meta g)) (Name (meta g)) = Some g.
Proof.
  unfold Get. destruct (filter _ grids) as [|g' l] eqn:E.
  - exfalso. assert (g ∈ filter (fun g' => Namespace (meta g') = Namespace (meta g) /\ Name (meta g') = Name (meta g)) grids) as Hin
      by by apply list_elem_of_filter. rewrite E in Hin. by apply elem_of_nil in Hin.
  - simpl. f_equal. assert (g' ∈ g' :: l) as Hin by by left. rewrite <- E in Hin.
    apply list_elem_of_filter in Hin as [[Hns Hn] Hin]. by apply Huniq.
Qed.

Lemma enqueue_owner_reach m : owned_by m -> KeyFunc (meta g) ∈ enqueue_owner meta Kind grids m.
Proof.
  intros (Hns & r & Hr & Hk & Hn & Hu). unfold enqueue_owner, resolveControllerRef. rewrite Hr, Hk, String.eqb_refl, Hns, Hn, Get_found, Hu, String.eqb_refl.
  by left.
Qed.

Lemma elem_of_enqueued (l : list G) : g ∈ l -> KeyFunc (meta g) ∈ concat (enqueue meta <$> l).
Proof.
  intros Hl. apply list_elem_of_In, in_concat. exists (enqueue meta g). rewrite <- !list_elem_of_In. split; [|by left].
  apply list_elem_of_fmap. eauto.
Qed.

Lemma has_key_nonempty n : has_key uniq_key n g = true -> map_to_list (mp (Labels (node_meta n))) <> [].
Proof.
  unfold has_key, has_label. intros [v Hv]%bool_decide_eq_true. apply elem_of_map_to_list in Hv. intros E. rewrite E in Hv.
  by apply elem_of_nil in Hv.
Qed.

Lemma getGridForNode_reach nodes n : n ∈ nodes -> has_key uniq_key n g = true -> g ∈ getGridForNode uniq_key grids nodes.
Proof.
  intros Hn Hk. unfold getGridForNode. destruct (forallb _ nodes) eqn:E.
  - apply forallb_forall with (x := n) in E; [|by apply list_elem_of_In]. destruct (map_to_list _) eqn:El; [|done].
    by destruct (has_key_nonempty n Hk).
  - apply list_elem_of_In, in_concat. exists ((fun _ => g) <$> filter (fun n => has_key uniq_key n g = true) nodes).
    rewrite <- !list_elem_of_In. split; apply list_elem_of_fmap; [by exists g|]. exists n. split; [done|]. by apply list_elem_of_filter.
Qed.

Lemma node_value_has_key n : is_Some (node_value (uniq_key g) n) -> has_key uniq_key n g = true.
Proof. unfold node_value, has_key, has_label. destruct (mp _ !! _); [done|by intros []]. Qed.

Lemma default_selects_concerned name m : default_selects name m = true -> IsConcernedObject m = true.
Proof.
  unfold default_selects, IsConcernedObject. intros Hs.
  destruct (Labels m); simpl in *; apply bool_decide_eq_true in Hs; [by rewrite Hs|done].
Qed.

Lemma getGridForObject_reach m : Namespace m = Namespace (meta g) -> default_selects (Name (meta g)) m = true ->
  (forall g', g' ∈ grids -> IsValidLabelValue (Name (meta g')) = true) ->
  g ∈ getGridForObject meta IsValidLabelValue grids m.
Proof.
  intros Hns Hs Hv. unfold getGridForObject.
  destruct (map_to_list (mp (Labels m))) eqn:El.
  { unfold default_selects in Hs. apply bool_decide_eq_true, elem_of_map_to_list in Hs. rewrite El in Hs. by apply elem_of_nil in Hs. }
  clear El. rewrite Hns. assert (g ∈ in_namespace meta grids (Namespace (meta g))) as Hin by by apply list_elem_of_filter.
  assert (forall g', g' ∈ in_namespace meta grids (Namespace (meta g)) -> IsValidLabelValue (Name (meta g')) = true) as Hv'.
  { intros g' [_ Hg']%list_elem_of_filter. auto. }
  enough (exists l', selecting meta IsValidLabelValue m (in_namespace meta grids (Namespace (meta g))) = Some l' /\ g ∈ l')
    as (l' & -> & Hl') by done.
  revert Hin Hv'. generalize (in_namespace meta grids (Namespace (meta g))). intros ns Hin Hv'.
  enough (exists l', selecting meta IsValidLabelValue m ns = Some l' /\ (g ∈ ns -> g ∈ l')) as (l' & El & Hl') by (exists l'; auto).
  clear Hin. induction ns as [|g' ns IH]; [by exists []|]. destruct IH as (l' & El & Hl'); [intros; apply Hv'; by right|].
  cbn [selecting]. unfold GetDefaultSelector. rewrite Hv', El by by left. simpl.
  destruct (default_selects (Name (meta g')) m) eqn:Eg'.
  - exists (g' :: l'). split; [done|]. rewrite !elem_of_cons. naive_solver.
  - exists l'. split; [done|]. intros [-> |]%elem_of_cons; [congruence|auto].
Qed.

End Reach.

(** ** Properties *)

(** C26: which events lead to a grid.  When the lister has a grid and no other
    of its namespace and name, and neither contains a slash, its key is put on
    the queue by: the addition and the deletion of an object that the grid owns
    and that carries a grid label, and any update of an object it owns; an
    update after which an object it owned has another owner or none; the
    addition of an orphan with the grid's label, and an update that leaves an
    orphan with this label and changes its labels or its owner (when the names of all
    grids are label values: one that is not hides all); the addition and the
    deletion of a node with a value of the grid's key, and an update that
    changes the value.  The deletion of an orphan is ignored.  The key, split
    again, leads the worker to the grid. *)
Theorem events_reach_grid {G : Type} (meta : G -> ObjectMeta) (uniq_key : G -> string) (Kind : string)
    (IsValidLabelValue : string -> bool) (grids : list G) (g : G) (Hg : g ∈ grids)
    (Huniq : forall g', g' ∈ grids -> Namespace (meta g') = Namespace (meta g) -> Name (meta g') = Name (meta g) -> g' = g)
    (Hns : free_of "/" (Namespace (meta g))) (Hname : free_of "/" (Name (meta g))) :
  let key := KeyFunc (meta g) in
  (forall m, IsConcernedObject m = true -> owned_by meta Kind g m ->
     key ∈ addObject meta Kind IsValidLabelValue grids m
     /\ key ∈ deleteObject meta Kind grids (DeletedObject m) /\ key ∈ deleteObject meta Kind grids (Tombstone (Some m)))
  /\ (forall oldRV curRV old cur, curRV ≠ oldRV ->
       owned_by meta Kind g cur \/ (owned_by meta Kind g old /\ GetControllerOf cur ≠ GetControllerOf old) ->
       key ∈ updateObject meta Kind IsValidLabelValue grids oldRV curRV old cur)
  /\ (forall m, GetControllerOf m = None -> DeletionTimestamp m = None -> Namespace m = Namespace (meta g) ->
       default_selects (Name (meta g)) m = true -> (forall g', g' ∈ grids -> IsValidLabelValue (Name (meta g')) = true) ->
       key ∈ addObject meta Kind IsValidLabelValue grids m)
  /\ (forall oldRV curRV old cur, curRV ≠ oldRV -> GetControllerOf cur = None -> Namespace cur = Namespace (meta g) ->
       default_selects (Name (meta g)) cur = true -> (forall g', g' ∈ grids -> IsValidLabelValue (Name (meta g')) = true) ->
       Labels cur ≠ Labels old \/ GetControllerOf old ≠ None ->
       key ∈ updateObject meta Kind IsValidLabelValue grids oldRV curRV old cur)
  /\ (forall m, GetControllerOf m = None -> deleteObject meta Kind grids (DeletedObject m) = [])
  /\ (forall n, is_Some (node_value (uniq_key g) n) ->
       key ∈ addNode meta uniq_key grids n /\ key ∈ deleteNode meta uniq_key grids (DeletedObject n)
       /\ key ∈ deleteNode meta uniq_key grids (Tombstone (Some n)))
  /\ (forall oldRV curRV old cur, curRV ≠ oldRV -> node_value (uniq_key g) old ≠ node_value (uniq_key g) cur ->
       key ∈ updateNode meta uniq_key grids oldRV curRV old cur)
  /\ exists namespace name, SplitMetaNamespaceKey key = Some (namespace, name) /\ Get meta grids namespace name = Some g.
Proof.
  intros key. split_and!.
  - intros m Hc Ho. assert (key ∈ enqueue_owner meta Kind grids m) as He by by eapply enqueue_owner_reach.
    unfold addObject, deleteObject, deleted_object. rewrite Hc. simpl. split_and!; [|done|done].
    destruct (DeletionTimestamp m); [done|]. destruct Ho as (_ & r & Hr & _). by rewrite Hr.
  - intros oldRV curRV old cur Hrv Ho. unfold updateObject. rewrite (proj2 (String.eqb_neq _ _)) by done. cbv zeta.
    destruct Ho as [Ho|[Ho Hne]].
    + assert (key ∈ enqueue_owner meta Kind grids cur) as He by by eapply enqueue_owner_reach.
      destruct Ho as (_ & r & -> & _). apply elem_of_app. by right.
    + assert (key ∈ enqueue_owner meta Kind grids old) as He by by eapply enqueue_owner_reach.
      rewrite bool_decide_false by done. simpl.
      destruct (GetControllerOf cur); [by apply elem_of_app; left|]. destruct (IsConcernedObject cur); simpl; [|done].
      rewrite orb_true_r. apply elem_of_app. by left.
  - intros m Hr Hd Hm Hs Hv. unfold addObject.
    rewrite (default_selects_concerned _ _ Hs). simpl. rewrite Hd, Hr. apply elem_of_enqueued. by apply getGridForObject_reach.
  - intros oldRV curRV old cur Hrv Hr Hm Hs Hv Hch. unfold updateObject. rewrite (proj2 (String.eqb_neq _ _)) by done. cbv zeta.
    rewrite Hr, (default_selects_concerned _ _ Hs). simpl.
    assert (key ∈ concat (enqueue meta <$> getGridForObject meta IsValidLabelValue grids cur)) as He.
    { apply elem_of_enqueued. by apply getGridForObject_reach. }
    destruct Hch as [Hch|Hch].
    + rewrite (bool_decide_false (Labels cur = _)) by done. simpl. apply elem_of_app. by right.
    + rewrite (bool_decide_false (None = _)) by congruence. rewrite orb_true_r. apply elem_of_app. by right.
  - intros m Hr. unfold deleteObject, enqueue_owner. simpl. rewrite Hr. by destruct (negb _).
  - intros n Hn%node_value_has_key. assert (key ∈ concat (enqueue meta <$> getGridForNode uniq_key grids [n])) as He.
    { apply elem_of_enqueued. eapply getGridForNode_reach; [done|by left|done]. }
    unfold addNode, deleteNode. simpl. split_and!; [by destruct (DeletionTimestamp _)|done|done].
  - intros oldRV curRV old cur Hrv Hne. unfold updateNode. rewrite (proj2 (String.eqb_neq _ _)) by done.
    rewrite bool_decide_false; [simpl|intros E; apply Hne; unfold node_value; by rewrite E].
    apply elem_of_enqueued. destruct (node_value (uniq_key g) old) as [v|] eqn:Eo.
    + eapply getGridForNode_reach; [done|by left|]. apply node_value_has_key. by rewrite Eo.
    + destruct (node_value (uniq_key g) cur) as [v|] eqn:Ec; [|done].
      eapply getGridForNode_reach; [done|by right; left|]. apply node_value_has_key. by rewrite Ec.
  - exists (Namespace (meta g)), (Name (meta g)). split; [by apply SplitMetaNamespaceKey_KeyFunc|by apply Get_found].
Qed.

Lemma events_reach_grid_witness :
  let g := named "ns" "web" in
  let n1 := mkNode (with_labels (named EmptyString "n1") (Some {["zone"%string := "a"%string]})) None None None in
  let n2 := mkNode (with_labels (named EmptyString "n1") (Some {["zone"%string := "b"%string]})) None None None in
  "ns/web"%string ∈ updateNode (fun m => m) (fun _ => "zone"%string) [g; named "ns" "db"] "1" "2" n1 n2.
Proof.
  intros g n1 n2.
  destruct (events_reach_grid (fun m => m) (fun _ => "zone"%string) "DeploymentGrid" (fun _ => true) [g; named "ns" "db"] g)
    as (_ & _ & _ & _ & _ & _ & H & _).
  - by left.
  - intros g' [-> |[-> |[]%elem_of_nil]%elem_of_cons]%elem_of_cons; [done|discriminate].
  - reflexivity.
  - reflexivity.
  - apply (H "1"%string "2"%string n1 n2); [discriminate|]. apply (bool_decide_unpack _). vm_compute. exact I.
Defined.

