(* ===== verification/GridController.v ===== *)
(** * Grid controllers: the sync handlers of workload grids (deployment/controller.go, statefulset/controller.go)

    [sync_grid] is what the worker runs on a key: write the grid back if its
    templates need pruning or hashing, or else claim the workloads, read the
    grid values off the nodes and reconcile.  The kinds differ in their names,
    in what they keep of a workload's status and in when they write it.  The
    definitions that follow the generic ones are the two controllers.  The
    theorems say what a round may do in each state of the grid, and what the
    round does to the API server from one round to the next. *)

From Stdlib Require Import ZArith Lia Ascii String.
From stdpp Require Import base strings gmap numbers sorting list.
From S2P Require Import Prelude.
From S2P Require Import GoStd.
From S2P Require Import K8s.
From S2P Require Import DeepContains.
From S2P Require Import Requests.
From S2P Require Import WorkQueue.
From S2P Require Import GridClaim.
From S2P Require Import GridTemplate.
From S2P Require Import GridWorkload.
From S2P Require Import GridReconcile.
From S2P Require Import GridEvents.

Local Open Scope Z_scope.
Local Open Scope go_scope.

(** ** Statuses *)

Record DeploymentCondition : Type := mkDeploymentCondition {
  dc_Type : string; dc_Status : string; dc_LastUpdateTime : Z; dc_LastTransitionTime : Z; dc_Reason : string; dc_Message : string
}.

Record DeploymentStatus : Type := mkDeploymentStatus {
  ds_ObservedGeneration : Z;
  ds_Replicas : Z;
  ds_UpdatedReplicas : Z;
  ds_ReadyReplicas : Z;
  ds_AvailableReplicas : Z;
  ds_UnavailableReplicas : Z;
  ds_Conditions : gslice DeploymentCondition;
  ds_CollisionCount : option Z
}.

(** [FiltDgStatus] (util/status_compare.go): the first [Available] condition. *)
Definition FiltDgStatus (status : DeploymentStatus) : DeploymentStatus :=
  mkDeploymentStatus 0 (ds_Replicas status) 0 (ds_ReadyReplicas status) 0 0
    (match filter (fun c => dc_Type c = "Available"%string) (sl (ds_Conditions status)) with
     | [] => None
     | c :: _ => Some [c]
     end) None.

(** ** One round *)

(** What the controllers differ in: their names, what they keep of a status,
    and whether they write the status when there are no workloads. *)
Record GridKind (St : Type) : Type := mkGridKind {
  ControllerKind : string;
  AdoptText : string;
  GoneText : string;
  FiltStatus : St -> St;
  EmptyStatus : bool
}.
Arguments mkGridKind {St}.
Arguments ControllerKind {St}.
Arguments AdoptText {St}.
Arguments GoneText {St}.
Arguments FiltStatus {St}.
Arguments EmptyStatus {St}.

Inductive sync_error : Type :=
| BadKey
| InvalidName
| InvalidKey
| NoTemplate
| ClaimErrors (errs : list api_error)
| WriteError (err : api_error)
| SyncErrors (errs : list api_error)
| StatusError (err : api_error)
| FedError (err : api_error).

Inductive action (St : Type) : Type :=
| Claiming (rq : claim_request)
| UpdateGrid (g : Grid St)
| Request (o : op)
| UpdateStatus (states : gmap string St)
| Event (reason : string).
Arguments Claiming {St} rq.
Arguments UpdateGrid {St} g.
Arguments Request {St} o.
Arguments UpdateStatus {St} states.
Arguments Event {St} reason.

Section Sync.
Context {St : Type} (kind : GridKind St).
Context (SchemeDefault : WorkloadSpec -> WorkloadSpec) (GenerateHash : WorkloadSpec -> string).
Context (IsValidLabelValue IsValidLabelKey : string -> bool) (TimeString : Z -> string).
Context `{SemanticEq WorkloadSpec} `{SemanticEq (gomap WorkloadSpec)} `{SemanticEq (gomap St)}.

(** What the informers hold. *)
Record listers : Type := mkListers {
  grids : list (Grid St);
  workloads : list (Workload St);
  nodes : list Node
}.

(** What the API server answers in this round: to reading the grid again, to
    the requests about claimed objects, to writing the grid or its status, and
    to each request about a workload. *)
Record answers : Type := mkAnswers {
  fresh_grid : Grid St + string;
  patch_answer : ObjectMeta -> option api_error;
  delete_answer : ObjectMeta -> option api_error;
  write_answer : Grid St -> option api_error;
  status_answer : option api_error;
  op_answer : op -> option api_error
}.

Context (ls : listers) (ans : answers).
Implicit Types (g : Grid St).

(** How a round ends: with an error, early without one, or after reconciling,
    with the grid as that left it. *)
Notation ending := (sync_error + option (Grid St))%type.
Notation result := (outcome (list (action St) * ending)).

Definition ends (err : option sync_error) (g : option (Grid St)) : ending :=
  match err with Some e => inl e | None => inr g end.

(** The function [RecheckDeletionTimestamp] calls. *)
Definition get_fresh g : ObjectMeta + string :=
  match fresh_grid ans with
  | inr err => inr err
  | inl fresh =>
      if negb (String.eqb (UID (g_meta fresh)) (UID (g_meta g)))
      then inr (GoneText kind +:+ " " +:+ Namespace (g_meta g) +:+ "/" +:+ Name (g_meta g) +:+ " is gone: got uid "
                +:+ UID (g_meta fresh) +:+ ", wanted " +:+ UID (g_meta g))
      else inl (g_meta fresh)
  end.

(** [getDeploymentForGrid], [getStatefulSetForGrid]: the claimed workloads, or
    the error, and the requests made. *)
Definition get_workloads g : list claim_request * (list (Workload St) + sync_error) :=
  let list := filter (fun w => Namespace (w_meta w) = Namespace (g_meta g)) (workloads ls) in
  match GetDefaultSelector IsValidLabelValue (Name (g_meta g)) with
  | None => ([], inr InvalidName)
  | Some selector =>
      let '(claimed, errs, rqs) := ClaimObjects TimeString (AdoptText kind) (g_meta g) (get_fresh g) selector
                                     (patch_answer ans) (delete_answer ans) w_meta list in
      (rqs, match errs with [] => inl claimed | _ => inr (ClaimErrors errs) end)
  end.

(** Writing the status ends the round. *)
Definition sync_status g (dpList : list (Workload St)) (gridValues : list string) : list (action St) * option sync_error :=
  let '(states, err) := syncStatus (FiltStatus kind) g dpList gridValues (status_answer ans) in
  (match states with Some states => [UpdateStatus states] | None => [] end, option_map StatusError err).

Definition op_errors (ops : list op) : list api_error := omap (fun o => kept_error o (op_answer ans o)) ops.

(** [reconcile], with its requests. *)
Definition reconcile_grid g (dpList : list (Workload St)) (gridValues : list string) : result :=
  let* r := reconcile (ControllerKind kind) SchemeDefault g dpList gridValues in
  match r with
  | None => Ret ([], inl NoTemplate)
  | Some (g, ops) =>
      match op_errors ops with
      | [] =>
          if EmptyStatus kind || negb (match dpList with [] => true | _ => false end)
          then let '(acts, err) := sync_status g dpList gridValues in
               Ret ((Request <$> ops) ++ acts ++ (match err with Some _ => [Event "SyncGridStatusFailed"] | None => [] end),
                    ends err (Some g))
          else Ret (Request <$> ops, inr (Some g))
      | errs => Ret ((Request <$> ops) ++ [Event "SyncGridFailed"], inl (SyncErrors errs))
      end
  end.

(** The grid, or what ends the round. *)
Definition rewritten g : bool :=
  let dgCopy := normalize GenerateHash g in
  negb (DeepEqual (Template g) (Template dgCopy))
  || negb (String.eqb (DefaultTemplateName g) (DefaultTemplateName dgCopy))
  || negb (DeepEqual (TemplatePool g) (TemplatePool dgCopy)).

(** [syncDeploymentGrid] up to federation, [syncStatefulSetGrid]. *)
Definition sync_grid (key : string) : result :=
  match SplitMetaNamespaceKey key with
  | None => Ret ([], inl BadKey)
  | Some (namespace, name) =>
      match Get g_meta (grids ls) namespace name with
      | None => Ret ([], inr None)
      | Some g =>
          if String.eqb (GridUniqKey g) EmptyString then Ret ([Event "Empty"], inr None)
          else if rewritten g then
            let dgCopy := normalize GenerateHash g in
            Ret ([UpdateGrid dgCopy], ends (option_map WriteError (write_answer ans dgCopy)) None)
          else
            let '(rqs, r) := get_workloads g in
            let claiming := Claiming <$> rqs in
            match r with
            | inr err => Ret (claiming, inl err)
            | inl dpList =>
                match GetGridValuesFromNode IsValidLabelKey (nodes ls) (GridUniqKey g) with
                | None => Ret (claiming, inl InvalidKey)
                | Some gridValues =>
                    match DeletionTimestamp (g_meta g) with
                    | Some _ => let '(acts, err) := sync_status g dpList gridValues in Ret (claiming ++ acts, ends err None)
                    | None =>
                        let* '(acts, ending) := reconcile_grid g dpList gridValues in
                        Ret (claiming ++ acts, ending)
                    end
                end
            end
      end
  end.

End Sync.

Arguments listers : clear implicits.
Arguments answers : clear implicits.

(** ** The two controllers *)

Definition deployment_kind : GridKind DeploymentStatus := mkGridKind "DeploymentGrid" "can't adopt Deployment" "orignal Deployment-grid" FiltDgStatus false.
Definition statefulset_kind (StatefulSetStatus : Type) : GridKind StatefulSetStatus :=
  mkGridKind "StatefulSetGrid" "Can't adopt statefulset" "orignal statefulset grid" (fun status => status) true.

(** ** What the requests of a pass are about *)

Section Requests.
Context {St : Type} (K : string) (D : WorkloadSpec -> WorkloadSpec).
Implicit Types (g : Grid St) (v : string).

Definition change_pending (c : change) : pending := match c with Add p | Update p => p end.

Lemma CreateWorkload_meta g v g' p : CreateWorkload K g v = Some (g', p) ->
  p_meta p = desired_meta K g v /\ forall v', desired_meta K g' v' = desired_meta K g v'.
Proof.
  unfold CreateWorkload. destruct (getTemplate g v) as [[r t]|]; [|done]. cbv zeta.
  assert (forall v', desired_meta K (mark_labels g) v' = desired_meta K g v') as Hm.
  { intros v'. unfold desired_meta, GetWorkloadName. by destruct (mark_labels_same K g) as (-> & -> & -> & -> & _). }
  destruct (NodeSelector t); intros [= <- <-]; (split; [done|]); [|done].
  intros v'. rewrite <- (Hm v'). by destruct r.
Qed.

Lemma reconcile_value_meta g existed v g' cs : reconcile_value K D g existed v = Ret (Some (g', cs)) ->
  (forall v', desired_meta K g' v' = desired_meta K g v')
  /\ forall c, c ∈ cs -> p_meta (change_pending c) = desired_meta K g v.
Proof.
  unfold reconcile_value. destruct (CreateWorkload K g v) as [[g1 p]|] eqn:Ec; [|by destruct (existed !! _)].
  apply CreateWorkload_meta in Ec as [Hp Hd].
  assert (forall cs', (forall c, c ∈ cs' -> p_meta (change_pending c) = p_meta p) -> Ret (Some (g1, cs')) = Ret (Some (g', cs)) ->
    (forall v', desired_meta K g' v' = desired_meta K g v') /\ forall c, c ∈ cs -> p_meta (change_pending c) = desired_meta K g v) as Hdone.
  { intros cs' Hcs' [= <- <-]. split; [done|]. intros c Hc. by rewrite Hcs'. }
  assert (forall c, p_meta (change_pending c) = p_meta p -> forall c', c' ∈ [c] -> p_meta (change_pending c') = p_meta p) as Hone.
  { intros c Hc c' ->%list_elem_of_singleton. done. }
  destruct (existed !! _) as [dp|]; [|apply Hdone; by apply Hone].
  destruct (IsReplicasChanged g1 v dp) as [b|]; [|done]. cbn [outcome_bind].
  destruct (_ || b); [apply Hdone; by apply Hone|].
  destruct (negb _); apply Hdone; [by apply Hone|]. intros c Hc. by apply elem_of_nil in Hc.
Qed.

Lemma reconcile_values_meta g existed gridValues g' cs :
  reconcile_values K D g existed gridValues = Ret (Some (g', cs)) ->
  (forall v', desired_meta K g' v' = desired_meta K g v')
  /\ forall c, c ∈ cs -> exists v, v ∈ gridValues /\ p_meta (change_pending c) = desired_meta K g v.
Proof.
  revert g g' cs. induction gridValues as [|v vs IH]; intros g g' cs; cbn [reconcile_values].
  { intros [= <- <-]. split; [done|]. intros c Hc. by apply elem_of_nil in Hc. }
  destruct (reconcile_value K D g existed v) as [[[g1 cs1]|]|] eqn:E1; cbn [outcome_bind]; [|done..].
  destruct (reconcile_values K D g1 existed vs) as [[[g2 cs2]|]|] eqn:E2; cbn [outcome_bind]; [|done..].
  intros [= <- <-]. apply reconcile_value_meta in E1 as [Hd1 Hc1]. apply IH in E2 as [Hd2 Hc2]. split.
  - intros v'. by rewrite Hd2.
  - intros c [Hc|Hc]%elem_of_app; [exists v; split; [by left|auto]|].
    destruct (Hc2 c Hc) as (v' & Hv' & ->). exists v'. split; [by right|apply Hd1].
Qed.

Lemma reconcile_requests g dpList gridValues g' ops :
  reconcile K D g dpList gridValues = Ret (Some (g', ops)) ->
  forall o, o ∈ ops ->
    match o with
    | OpCreate m _ | OpUpdate m _ => exists v, v ∈ gridValues /\ m = desired_meta K g v
    | OpDelete n => exists dp, dp ∈ dpList /\ n = Name (w_meta dp) /\ n ∉ wanted g gridValues
    end.
Proof.
  unfold reconcile. destruct (reconcile_values K D g (existed_map dpList) gridValues) as [[[g1 cs]|]|] eqn:E; cbn [outcome_bind]; [|done..].
  apply reconcile_values_meta in E as [_ Hcs]. intros [= <- <-] o [Ho|Ho]%elem_of_app.
  - apply list_elem_of_fmap in Ho as (c & -> & Hc). destruct (Hcs c Hc) as (v & Hv & Hm).
    destruct c; simpl in *; eauto.
  - apply list_elem_of_fmap in Ho as (dp & -> & [Hw Hdp]%list_elem_of_filter). eauto.
Qed.

End Requests.

Section Rounds.
Context {St : Type} (kind : GridKind St) (D : WorkloadSpec -> WorkloadSpec) (GenerateHash : WorkloadSpec -> string).
Context (IsValidLabelValue IsValidLabelKey : string -> bool) (TimeString : Z -> string).
Context `{SemanticEq WorkloadSpec} `{SemanticEq (gomap WorkloadSpec)} `{SemanticEq (gomap St)}.
Context (ls : listers St) (ans : answers St).

(** The workloads a grid may claim in this round. *)
Definition claimable (g : Grid St) (w : Workload St) : Prop :=
  let selects := default_selects (Name (g_meta g)) in
  Namespace (w_meta w) = Namespace (g_meta g)
  /\ ((owned (g_meta g) (w_meta w) = true /\ selects (w_meta w) = true) \/ adoptable (g_meta g) selects (w_meta w) = true).

(** A grid normalized twice is not written back again. *)
Lemma rewritten_settles (g : Grid St) : rewritten GenerateHash (normalize GenerateHash (normalize GenerateHash g)) = false.
Proof.
  unfold rewritten.
  assert (normalize GenerateHash (normalize GenerateHash (normalize GenerateHash g)) = normalize GenerateHash (normalize GenerateHash g)) as ->.
  { rewrite (normalize_twice GenerateHash (normalize GenerateHash g)), (normalize_twice GenerateHash g), normalize_eq.
    unfold with_Template. simpl. f_equal. apply setTemplateHash_settles. }
  cbv zeta. by rewrite !DeepEqual_refl, String.eqb_refl.
Qed.

Lemma get_workloads_claimable g rqs dpList :
  get_workloads kind IsValidLabelValue TimeString ls ans g = (rqs, inl dpList) ->
  forall w, w ∈ dpList -> w ∈ workloads ls /\ claimable g w.
Proof.
  unfold get_workloads, GetDefaultSelector. destruct (IsValidLabelValue _); [|done].
  unfold ClaimObjects.
  destruct (claim_loop_spec TimeString (AdoptText kind) (g_meta g) (get_fresh kind ans g) (default_selects (Name (g_meta g))) (patch_answer ans) (delete_answer ans)
    w_meta false (filter (fun w => Namespace (w_meta w) = Namespace (g_meta g)) (workloads ls))) as (Hc & _ & _).
  destruct (claim_loop _ _ _ _ _ _ _ _ _ _) as [[claimed errs] rqs']. simpl in Hc.
  destruct errs; [|done]. intros [= <- <-] w Hw. rewrite Hc in Hw.
  apply list_elem_of_filter in Hw as [Hw [Hns Hin]%list_elem_of_filter]. split; [done|]. split; [done|].
  unfold is_claimed in Hw. apply orb_true_iff in Hw. rewrite !andb_true_iff in Hw. tauto.
Qed.

(** The claims of a round are those of [ClaimObjects] for the grid. *)
Definition claim_justified (g : Grid St) (rq : claim_request) : Prop :=
  let selects := default_selects (Name (g_meta g)) in
  let listed m := exists w, w ∈ workloads ls /\ m = w_meta w /\ Namespace m = Namespace (g_meta g) in
  match rq with
  | Recheck => True
  | AdoptRequest m => listed m /\ adoptable (g_meta g) selects m = true
  | ReleaseRequest m => listed m /\ released (g_meta g) selects m = true
  end.

Lemma get_workloads_claims g rqs r :
  get_workloads kind IsValidLabelValue TimeString ls ans g = (rqs, r) -> Forall (claim_justified g) rqs.
Proof.
  unfold get_workloads, GetDefaultSelector. destruct (IsValidLabelValue _); [|intros [= <- _]; constructor].
  set (l := filter (fun w => Namespace (w_meta w) = Namespace (g_meta g)) (workloads ls)).
  pose proof (claim_loop_requests TimeString (AdoptText kind) (g_meta g) (get_fresh kind ans g) (default_selects (Name (g_meta g)))
    (patch_answer ans) (delete_answer ans) w_meta l) as Hrq.
  destruct (ClaimObjects _ _ _ _ _ _ _ _ _) as [[claimed errs] rqs']. intros [= <- _]. apply Forall_forall. intros rq Hin.
  specialize (Hrq rq Hin).
  assert (forall m, m ∈ w_meta <$> l -> exists w, w ∈ workloads ls /\ m = w_meta w /\ Namespace m = Namespace (g_meta g)) as Hl.
  { intros m (w & -> & [Hns Hw]%list_elem_of_filter)%list_elem_of_fmap. by exists w. }
  destruct rq; [done|..]; destruct Hrq; (split; [auto|done]).
Qed.

(** Actions that touch neither workloads nor the grid's spec. *)
Definition quiet_action (a : action St) : Prop := match a with UpdateStatus _ | Event _ => True | _ => False end.
Definition quiet (acts : list (action St)) : Prop := Forall quiet_action acts.

Lemma quiet_status g dpList gridValues : quiet (fst (sync_status kind ans g dpList gridValues)).
Proof.
  unfold sync_status. destruct (syncStatus _ _ _ _ _) as [[states|] e']; [by repeat constructor|constructor].
Qed.

(** A request the state of the informers justifies. *)
Definition justified (g : Grid St) (o : op) : Prop :=
  let gridValues := omap (node_value (GridUniqKey g)) (nodes ls) in
  match o with
  | OpCreate m _ | OpUpdate m _ => exists v, v ∈ gridValues /\ m = desired_meta (ControllerKind kind) g v
  | OpDelete n => exists w, w ∈ workloads ls /\ claimable g w /\ n = Name (w_meta w) /\ n ∉ wanted g gridValues
  end.

(** The requests of [reconcile_grid] come from [reconcile], and the rest is
    quiet. *)
Lemma reconcile_grid_shape g dpList gridValues acts err :
  reconcile_grid kind D ans g dpList gridValues = Ret (acts, err) ->
  exists ops rest, acts = (Request <$> ops) ++ rest /\ quiet rest
    /\ (ops = [] \/ exists g', reconcile (ControllerKind kind) D g dpList gridValues = Ret (Some (g', ops))).
Proof.
  unfold reconcile_grid. destruct (reconcile _ _ _ _ _) as [[[g' ops]|]|] eqn:E; cbn [outcome_bind]; [| |done].
  2: { intros [= <- <-]. exists [], []. split_and!; [done|constructor|by left]. }
  intros Heq. enough (exists rest, acts = (Request <$> ops) ++ rest /\ quiet rest) as (rest & -> & Hq)
    by (exists ops, rest; split_and!; [done|done|right; by eexists]).
  pose proof (quiet_status g' dpList gridValues) as Hq.
  assert (forall err' : option sync_error, quiet (match err' with Some _ => [Event "SyncGridStatusFailed"] | None => [] end)) as He.
  { intros []; [by repeat constructor|constructor]. }
  destruct (op_errors ans ops) as [|e es]; [|injection Heq as <- <-; eexists; split; [reflexivity|by repeat constructor]].
  destruct (sync_status kind ans g' dpList gridValues) as [acts' err']. simpl in Hq.
  assert (quiet (acts' ++ match err' with Some _ => [Event "SyncGridStatusFailed"] | None => [] end)) as Hq'
    by (apply Forall_app; split; [exact Hq|apply He]).
  destruct (EmptyStatus kind || _); injection Heq as <- <-; [by eexists|].
  exists []. split; [by rewrite app_nil_r|constructor].
Qed.

(** The grid the key of a round names. *)
Definition round_grid (key : string) (g : Grid St) : Prop :=
  exists namespace name, SplitMetaNamespaceKey key = Some (namespace, name) /\ Get g_meta (grids ls) namespace name = Some g.

(** What an action of a round for [g] may be. *)
Definition allowed (g : Grid St) (acts : list (action St)) (a : action St) : Prop :=
  match a with
  | UpdateGrid g' => acts = [UpdateGrid g'] /\ g' = normalize GenerateHash g /\ rewritten GenerateHash g = true
  | Claiming rq => rewritten GenerateHash g = false /\ claim_justified g rq
  | Request o => rewritten GenerateHash g = false /\ DeletionTimestamp (g_meta g) = None /\ justified g o
  | UpdateStatus _ | Event _ => True
  end.

Lemma allowed_quiet g acts l : quiet l -> Forall (allowed g acts) l.
Proof. intros Hq. eapply Forall_impl; [exact Hq|]. by intros []. Qed.

Lemma allowed_claims g acts rqs : rewritten GenerateHash g = false -> Forall (claim_justified g) rqs ->
  Forall (allowed g acts) (Claiming <$> rqs).
Proof. intros Hrw Hq. apply Forall_fmap. eapply Forall_impl; [exact Hq|]. by intros rq Hrq. Qed.

End Rounds.

(** ** Properties *)

(** C29: what a round of the controller may ask for.  A round is about the grid
    its key names.  If the grid needs rewriting the round writes it back, even
    when it is being deleted, and does nothing else; a grid written back twice
    is not written again.  Else the round may adopt orphans with the grid's
    label in its namespace and delete workloads that the grid owns and its
    label has left, which [ClaimObjects_effect] says in full; and, unless the
    grid is being deleted, it may ask for workloads: a create or an update
    carries the name, namespace, labels and owner wanted for one of the values
    on the nodes, and a delete is of a listed workload of the grid's namespace
    that the grid owns or may adopt, by its label, and whose name no value asks
    for. *)
Theorem sync_grid_safe {St : Type} (kind : GridKind St) (D : WorkloadSpec -> WorkloadSpec) (GenerateHash : WorkloadSpec -> string)
    (IsValidLabelValue IsValidLabelKey : string -> bool) (TimeString : Z -> string)
    `{SemanticEq WorkloadSpec} `{SemanticEq (gomap WorkloadSpec)} `{SemanticEq (gomap St)}
    (ls : listers St) (ans : answers St) (key : string) (acts : list (action St)) (ending : sync_error + option (Grid St))
    (Hround : sync_grid kind D GenerateHash IsValidLabelValue IsValidLabelKey TimeString ls ans key = Ret (acts, ending)) :
  (acts = [] \/ exists g, round_grid ls key g /\ Forall (allowed kind GenerateHash ls g acts) acts)
  /\ (forall g : Grid St, rewritten GenerateHash (normalize GenerateHash (normalize GenerateHash g)) = false).
Proof.
  split; [|apply rewritten_settles].
  unfold sync_grid in Hround. destruct (SplitMetaNamespaceKey key) as [[namespace name]|] eqn:Ek; [|left; congruence].
  destruct (Get g_meta (grids ls) namespace name) as [g|] eqn:Eg; [|left; congruence].
  right. exists g. split; [by exists namespace, name|].
  destruct (String.eqb (GridUniqKey g) EmptyString); [injection Hround as <- _; by repeat constructor|].
  destruct (rewritten GenerateHash g) eqn:Erw.
  { injection Hround as <- _. by repeat constructor. }
  destruct (get_workloads kind IsValidLabelValue TimeString ls ans g) as [rqs r] eqn:Ew.
  pose proof (get_workloads_claims kind IsValidLabelValue TimeString ls ans g rqs r Ew) as Hclaims.
  assert (forall a, Forall (allowed kind GenerateHash ls g a) (Claiming <$> rqs)) as Hc by (intros a; by apply allowed_claims).
  destruct r as [dpList|e]; [|injection Hround as <- _; apply Hc].
  unfold GetGridValuesFromNode in Hround. destruct (IsValidLabelKey (GridUniqKey g)); [|injection Hround as <- _; apply Hc].
  set (gridValues := omap (node_value (GridUniqKey g)) (nodes ls)) in *.
  destruct (DeletionTimestamp (g_meta g)) as [t|] eqn:Ed.
  { pose proof (quiet_status kind ans g dpList gridValues) as Hq. destruct (sync_status kind ans g dpList gridValues) as [acts' err'].
    injection Hround as <- _. apply Forall_app. split; [apply Hc|by apply allowed_quiet]. }
  destruct (reconcile_grid kind D ans g dpList gridValues) as [[acts' err']|] eqn:Er; [|done]. injection Hround as <- <-.
  apply reconcile_grid_shape in Er as (ops & rest & -> & Hq & Hops). apply Forall_app. split; [apply Hc|]. apply Forall_app.
  split; [|by apply allowed_quiet]. apply Forall_fmap, Forall_forall. intros o Ho. simpl. split_and!; [done|done|].
  destruct Hops as [-> |[g' Hops]]; [by apply elem_of_nil in Ho|].
  pose proof (reconcile_requests _ _ _ _ _ _ _ Hops o Ho) as Hj. unfold justified.
  destruct o as [m t|m t|n]; [exact Hj|exact Hj|]. destruct Hj as (w & Hw & -> & Hn).
  destruct (get_workloads_claimable kind IsValidLabelValue TimeString ls ans g rqs dpList Ew w Hw). exists w. by split_and!.
Qed.

(** A workload left over from a zone without nodes, for a grid whose templates
    are in order; specs are compared by their labels here. *)
Definition labels_semantic_eq : SemanticEq WorkloadSpec.
Proof.
  refine {| DeepEqual := fun x y => bool_decide (TemplateLabels x = TemplateLabels y) |}.
  split.
  - intros x. by apply bool_decide_eq_true.
  - intros x y Hxy%bool_decide_eq_true. by apply bool_decide_eq_true.
  - intros x y z Hxy%bool_decide_eq_true Hyz%bool_decide_eq_true. apply bool_decide_eq_true. congruence.
Defined.
Definition pool_semantic_eq : SemanticEq (gomap WorkloadSpec).
Proof.
  refine {| DeepEqual := fun x y => bool_decide (option_map (fmap TemplateLabels) x = option_map (fmap TemplateLabels) y) |}.
  split.
  - intros x. by apply bool_decide_eq_true.
  - intros x y Hxy%bool_decide_eq_true. by apply bool_decide_eq_true.
  - intros x y z Hxy%bool_decide_eq_true Hyz%bool_decide_eq_true. apply bool_decide_eq_true. congruence.
Defined.

Definition ex_listers : listers unit := mkListers [ex_grid] [ex_old "c"] [].
Definition ex_answers : answers unit := mkAnswers (inl ex_grid) (fun _ => None) (fun _ => None) (fun _ => None) None (fun _ => None).

Lemma sync_grid_safe_witness :
  exists g : Grid unit, round_grid ex_listers "ns/web" g /\ rewritten (fun _ => "7"%string) (H := labels_semantic_eq) (H0 := pool_semantic_eq) g = false
  /\ justified (statefulset_kind unit) ex_listers g (OpDelete "web-c").
Proof.
  destruct (sync_grid_safe (statefulset_kind unit) (fun t => t) (fun _ => "7"%string) (fun _ => true) (fun _ => true) (fun _ => EmptyString)
    (H := labels_semantic_eq) (H0 := pool_semantic_eq) (H1 := leibniz_semantic_eq _) ex_listers ex_answers "ns/web"%string
    [Request (OpDelete "web-c"); UpdateStatus ∅] (inr (Some ex_grid))) as ([Hnil|(g & Hg & Hall)] & _).
  - vm_compute. reflexivity.
  - discriminate.
  - apply Forall_cons in Hall as [(Hrw & _ & Hj) _]. by exists g.
Defined.
