(* ===== verification/GridFed.v ===== *)
(** * Grid controllers: federation (fed_*.go, namespace.go, reconcileFed in sync.go)

    A grid labelled for federation is copied into the namespace of every
    member cluster ([reconcileFed]); in a member cluster a second controller
    watches the copies of its own namespace in the parent cluster and keeps a
    local grid of each as long as some node has the grid's key
    ([syncFedGrid]).  Deployment and service grids are handled alike, so the
    grid is a type with an interface.  The theorems give the copies that are
    made and how a change finds its way between a grid and its copies, and
    what becomes of the finalizer that guards a copy. *)

From Stdlib Require Import ZArith Lia Ascii String.
From stdpp Require Import base strings gmap numbers sorting list.
From S2P Require Import Prelude.
From S2P Require Import GoStd.
From S2P Require Import K8s.
From S2P Require Import DeepContains.
From S2P Require Import Requests.
From S2P Require Import WorkQueue.
From S2P Require Import GridClaim.
From S2P Require Import GridEvents.

Local Open Scope Z_scope.
Local Open Scope go_scope.

(** ** Grids that are federated *)

Class FedGrid (G : Type) : Type := {
  meta : G -> ObjectMeta;
  with_meta : G -> ObjectMeta -> G;
  Spec : Type;
  spec : G -> Spec;
  with_spec : G -> Spec -> G;
  spec_val : Spec -> value;
  uniq_key : G -> string;
  Finalizers : G -> list string;
  with_finalizers : G -> list string -> G;
  FedKind : string;
  meta_with_meta : forall g m, meta (with_meta g m) = m;
  spec_with_meta : forall g m, spec (with_meta g m) = spec g;
  meta_with_spec : forall g s, meta (with_spec g s) = meta g;
  spec_with_spec : forall g s, spec (with_spec g s) = s;
  meta_with_finalizers : forall g f, meta (with_finalizers g f) = meta g;
  spec_with_finalizers : forall g f, spec (with_finalizers g f) = spec g
}.

Section Fed.
Context `{F : FedGrid G}.
(** [scheme.Default] on a grid. *)
Context (SchemeDefault : G -> G).
Implicit Types (g dg fed : G).

(** ** Copies in the parent cluster *)

(** [CreateDeploymentGrid], [CreateServiceGrid]: writing to the labels of a
    grid that has none panics. *)
Definition CreateDisGrid g (nameSpace : string) : outcome G :=
  let m := meta g in
  match Labels m with
  | None => Panic "assignment to entry in nil map"
  | Some l =>
      Ret (with_meta g (mkObjectMeta (Name m) nameSpace (UID m)
        (Some (<[FedrationDisKey := "yes"%string]> (<[FedTargetNameSpace := Namespace m]> l))) (Annotations m)
        (Some [mkOwnerReference "superedge.io/v1" FedKind (Name m) (UID m) (Some true) (Some true)]) (DeletionTimestamp m)))
  end.

(** [UpdateDeploymentGrid], [UpdateServiceGrid] *)
Definition UpdateDisGrid g fed : G := with_spec fed (spec g).

Inductive fed_op : Type := FedCreate (g : G) | FedUpdate (g : G) | FedDelete (namespace name : string).

Definition existed_dis (dgList : list G) : gmap string G :=
  fold_left (fun m dg => <[Namespace (meta dg) := dg]> m) dgList ∅.

Definition reconcile_namespace g (existed : gmap string G) (ns : string) : outcome (list fed_op) :=
  match existed !! ns with
  | None => let* dg := CreateDisGrid g ns in Ret [FedCreate dg]
  | Some feddg =>
      let upd := SchemeDefault (UpdateDisGrid g feddg) in
      Ret (if negb (DeepContains (spec_val (spec feddg)) (spec_val (spec upd))) then [FedUpdate upd] else [])
  end.

Fixpoint reconcile_namespaces g (existed : gmap string G) (disNsList : list string) : outcome (list fed_op) :=
  match disNsList with
  | [] => Ret []
  | ns :: disNsList =>
      let* os := reconcile_namespace g existed ns in
      let* os' := reconcile_namespaces g existed disNsList in
      Ret (os ++ os')
  end.

(** The requests of [reconcileFed]. *)
Definition reconcileFed g (dgList : list G) (disNsList : list string) : outcome (list fed_op) :=
  let* os := reconcile_namespaces g (existed_dis dgList) disNsList in
  let deletes := filter (fun dg => Namespace (meta dg) ∉ (list_to_set disNsList : gset string)) dgList in
  Ret (os ++ ((fun dg => FedDelete (Namespace (meta dg)) (Name (meta dg))) <$> deletes)).

(** [syncDisDeploymentGrid], [syncDisServiceGrid]: the errors that count, for
    the server's answers. *)
Definition sync_dis_errors (answer : fed_op -> option api_error) (ops : list fed_op) : list api_error :=
  omap (fun o =>
    match o, answer o with
    | FedCreate _, Some AlreadyExists => None
    | FedDelete _ _, Some NotFound => None
    | _, Some Conflict => None
    | _, err => err
    end) ops.

(** [getDisDeploymentGridAndNameSpace]: the namespaces of member clusters, and
    the copies in them. *)
Definition getDisGridAndNameSpace (grids : list G) (namespaces : list ObjectMeta) g : list G * list string :=
  let nsList := Name <$> filter (fun ns => has_label FedManagedClustIdKey ns = true) namespaces in
  (omap (fun ns => Get meta grids ns (Name (meta g))) nsList, nsList).

(** [getFedDeploymentGrid], [getFedServiceGrid]: the grid a copy was made from. *)
Definition getFedGrid (grids : list G) dg : option G :=
  Get meta grids (default EmptyString (mp (Labels (meta dg)) !! FedTargetNameSpace)) (Name (meta dg)).

Definition federated (m : ObjectMeta) : bool := has_label FedrationKey m && negb (has_label FedrationDisKey m).

(** The keys [updateDeploymentGrid] and [updateServiceGrid] add to the queue
    of their own controller, and the one they add to the federation
    controller's: the parent cluster's copies are in [fed_grids], in the
    namespace dedicated to this cluster. *)
Definition updateFedableGrid (grids : list G) (fed_grids : option (list G)) (dedicatedNameSpace : string)
    (oldRV curRV : string) (curDg : G) : list string * list string :=
  if String.eqb curRV oldRV then ([], [])
  else
    let m := meta curDg in
    let own := enqueue meta curDg in
    let own := if has_label FedrationKey m && has_label FedrationDisKey m
               then own ++ match getFedGrid grids curDg with Some fedDg => enqueue meta fedDg | None => [] end
               else own in
    (own,
     if federated m
     then match fed_grids with
          | Some fed_grids => match Get meta fed_grids dedicatedNameSpace (Name m) with
                              | Some parent => enqueue meta parent
                              | None => []
                              end
          | None => []
          end
     else []).

(** [addNameSpace]: a namespace of a member cluster enqueues every federated
    grid. *)
Definition addNameSpace (grids : list G) (ns : ObjectMeta) : list string :=
  if negb (has_label FedManagedClustIdKey ns) then []
  else concat (enqueue meta <$> filter (fun g => mp (Labels (meta g)) !! FedrationKey = Some "yes"%string) grids).

(** ** The member cluster's controller *)

(** Keys of the parent cluster's grids. *)
Definition addFedGrid g : list string := enqueue meta g.
Definition updateFedGrid (oldRV curRV : string) g : list string := if String.eqb curRV oldRV then [] else enqueue meta g.
Definition deleteFedGrid (obj : deleted G) : list string := match deleted_object obj with None => [] | Some g => enqueue meta g end.

(** A node concerns every copy whose key it has, before or after. *)
Definition fed_addNode (fed_grids : list G) (n : Node) : list string :=
  concat (enqueue meta <$> filter (fun g => has_label (uniq_key g) (node_meta n) = true) fed_grids).
Definition fed_updateNode (fed_grids : list G) (oldRV curRV : string) (oldNode curNode : Node) : list string :=
  if String.eqb curRV oldRV then []
  else if negb (bool_decide (Labels (node_meta curNode) = Labels (node_meta oldNode)))
       then concat (enqueue meta <$> filter (fun g =>
              has_label (uniq_key g) (node_meta oldNode) || has_label (uniq_key g) (node_meta curNode) = true) fed_grids)
       else [].
Definition fed_deleteNode (fed_grids : list G) (obj : deleted Node) : list string :=
  match deleted_object obj with None => [] | Some n => fed_addNode fed_grids n end.

(** A local grid concerns the copy it was made from. *)
Definition fed_addGrid (fed_grids : list G) (namespace : string) g : list string :=
  if has_label FedTargetNameSpace (meta g)
  then match Get meta fed_grids namespace (Name (meta g)) with Some feddg => enqueue meta feddg | None => [] end
  else [].
Definition fed_updateGrid (fed_grids : list G) (namespace : string) (oldRV curRV : string) g : list string :=
  if String.eqb curRV oldRV then [] else fed_addGrid fed_grids namespace g.
Definition fed_deleteGrid (fed_grids : list G) (namespace : string) (obj : deleted G) : list string :=
  match deleted_object obj with None => [] | Some g => fed_addGrid fed_grids namespace g end.

Inductive fed_request : Type :=
| LocalCreate (g : G)
| LocalUpdate (g : G)
| LocalDelete (namespace name : string)
| PatchFinalizers (finalizers : list string)
| EmptyKeyEvent.

(** The local grid made from a copy. *)
Definition local_grid fed : G :=
  let m := meta fed in
  let target := default EmptyString (mp (Labels m) !! FedTargetNameSpace) in
  with_finalizers
    (with_meta fed (mkObjectMeta (Name m) target (UID m)
       (match Labels m with None => None | Some l => Some (delete FedrationDisKey l) end) (Annotations m) (Some [])
       (DeletionTimestamp m))) [].

(** What the API servers answer to each request. *)
Context (answer : fed_request -> option api_error).

(** One request after another, until one fails; [ok] says which answers are
    not failures. *)
Fixpoint attempt (ok : fed_request -> option api_error -> bool) (rqs : list fed_request) : list fed_request * option api_error :=
  match rqs with
  | [] => ([], None)
  | rq :: rqs =>
      if ok rq (answer rq) then let '(done, err) := attempt ok rqs in (rq :: done, err)
      else ([rq], answer rq)
  end.

Definition no_error (rq : fed_request) (err : option api_error) : bool := match err with None => true | Some _ => false end.
Definition gone_is_fine (rq : fed_request) (err : option api_error) : bool :=
  match rq, err with
  | _, None => true
  | LocalDelete _ _, Some NotFound => true
  | _, Some _ => false
  end.

(** [syncFedDeploymentGrid] up to the status, and [syncFedServiceGrid], on a
    copy: whether the round ends here, its requests, and its error. *)
Definition syncFedGrid (grids : list G) (nodes : list Node) fed : bool * (list fed_request * option api_error) :=
  let m := meta fed in
  let target := default EmptyString (mp (Labels m) !! FedTargetNameSpace) in
  let existed := Get meta grids target (Name m) in
  match DeletionTimestamp m with
  | Some _ =>
      (true, match existed with
             | Some _ => attempt gone_is_fine [LocalDelete target (Name m); PatchFinalizers []]
             | None => ([], None)
             end)
  | None =>
      if String.eqb (uniq_key fed) EmptyString then (true, ([EmptyKeyEvent], None))
      else
        let flag := existsb (fun n => has_label (uniq_key fed) (node_meta n)) nodes in
        let rqs :=
          if flag then
            match existed with
            | None => LocalCreate (local_grid fed) :: match Finalizers fed with [] => [PatchFinalizers ["dis"%string]] | _ => [] end
            | Some existedDg =>
                if negb (DeepContains (spec_val (spec existedDg)) (spec_val (spec fed)))
                then [LocalUpdate (with_spec existedDg (spec fed))] else []
            end
          else
            match existed with
            | Some _ => [LocalDelete target (Name m)]
            | None => []
            end in
        let '(done, err) := attempt no_error rqs in
        (match err with Some _ => true | None => false end, (done, err))
  end.

End Fed.

Arguments fed_op : clear implicits.
Arguments fed_request : clear implicits.

(** ** The requests of [reconcileFed] *)

Section Reconcile.
Context `{F : FedGrid G} (SchemeDefault : G -> G).
Implicit Types (g dg : G).

Lemma CreateDisGrid_labelled g l ns : Labels (meta g) = Some l -> exists c, CreateDisGrid g ns = Ret c.
Proof. unfold CreateDisGrid. intros ->. by eexists. Qed.

Lemma existed_dis_lookup dgList ns dg : NoDup ((fun dg => Namespace (meta dg)) <$> dgList) ->
  existed_dis dgList !! ns = Some dg <-> dg ∈ dgList /\ Namespace (meta dg) = ns.
Proof.
  unfold existed_dis. intros Hnd.
  enough (forall m, fold_left (fun m dg => <[Namespace (meta dg) := dg]> m) dgList m !! ns = Some dg
    <-> (dg ∈ dgList /\ Namespace (meta dg) = ns) \/ (ns ∉ ((fun dg => Namespace (meta dg)) <$> dgList) /\ m !! ns = Some dg)) as ->.
  { rewrite lookup_empty. naive_solver. }
  induction dgList as [|d l IH]; intros m; cbn [fold_left]; [rewrite elem_of_nil; set_solver|].
  rewrite fmap_cons, NoDup_cons in Hnd. destruct Hnd as [Hd Hnd].
  rewrite IH by done. rewrite fmap_cons, not_elem_of_cons, elem_of_cons, lookup_insert.
  case_decide as E; [subst ns|naive_solver]. split.
  - intros [[Hin Hnm]|[_ [= <-]]]; auto.
  - intros [[[-> |Hin] Hnm]|[[Hf _] _]]; [by right|by left|done].
Qed.

Lemma reconcile_namespaces_spec g l existed nsList : Labels (meta g) = Some l ->
  exists os, reconcile_namespaces SchemeDefault g existed nsList = Ret os
    /\ forall o, o ∈ os <-> exists ns os', ns ∈ nsList /\ reconcile_namespace SchemeDefault g existed ns = Ret os' /\ o ∈ os'.
Proof.
  intros Hl. induction nsList as [|ns nsList (os & IH & Hos)]; cbn [reconcile_namespaces].
  { exists []. split; [done|]. intros o. rewrite elem_of_nil. split; [done|]. intros (ns & ? & Hns & _). by apply elem_of_nil in Hns. }
  destruct (reconcile_namespace SchemeDefault g existed ns) as [os1|] eqn:E.
  2: { unfold reconcile_namespace in E. destruct (existed !! ns); [done|]. by destruct (CreateDisGrid_labelled g l ns Hl) as [c Hc]; rewrite Hc in E. }
  cbn [outcome_bind]. rewrite IH. cbn [outcome_bind]. eexists. split; [reflexivity|]. intros o. rewrite elem_of_app, Hos. split.
  - intros [Ho|(ns' & os' & Hns & He & Ho)]; [exists ns, os1|exists ns', os']; (split_and!; [|done|done]); [by left|by right].
  - intros (ns' & os' & [-> |Hns]%elem_of_cons & He & Ho); [left|right; eauto]. rewrite E in He. by injection He as ->.
Qed.

(** One namespace, when its copy is known. *)
Lemma reconcile_namespace_requests g dgList ns o os :
  NoDup ((fun dg => Namespace (meta dg)) <$> dgList) ->
  reconcile_namespace SchemeDefault g (existed_dis dgList) ns = Ret os ->
  o ∈ os <->
    (exists c, o = FedCreate c /\ CreateDisGrid g ns = Ret c /\ forall dg, dg ∈ dgList -> Namespace (meta dg) ≠ ns)
    \/ (exists dg, dg ∈ dgList /\ Namespace (meta dg) = ns /\ o = FedUpdate (SchemeDefault (UpdateDisGrid g dg))
         /\ DeepContains (spec_val (spec dg)) (spec_val (spec (SchemeDefault (UpdateDisGrid g dg)))) = false).
Proof.
  intros Hnd. unfold reconcile_namespace. destruct (existed_dis dgList !! ns) as [dg|] eqn:E.
  - apply existed_dis_lookup in E as [Hdg Hns]; [|done]. intros [= <-].
    assert (forall dg', dg' ∈ dgList -> Namespace (meta dg') = ns -> dg' = dg) as Huniq.
    { intros dg' H1 H2. apply (existed_dis_lookup dgList ns dg) in Hnd as Hiff. pose proof (proj2 Hiff (conj Hdg Hns)) as E1.
      apply (existed_dis_lookup dgList ns dg') in Hnd as Hiff'. pose proof (proj2 Hiff' (conj H1 H2)) as E2. congruence. }
    destruct (DeepContains _ _) eqn:Ed; simpl; rewrite ?elem_of_nil, ?list_elem_of_singleton; split.
    + done.
    + intros [(c & _ & _ & Hno)|(dg' & Hdg' & Hns' & _ & Hf)]; [by eapply Hno|]. rewrite (Huniq dg') in Hf by done. congruence.
    + intros ->. right. eauto.
    + intros [(c & _ & _ & Hno)|(dg' & Hdg' & Hns' & -> & _)]; [by destruct (Hno dg Hdg)|]. by rewrite (Huniq dg').
  - assert (forall dg, dg ∈ dgList -> Namespace (meta dg) ≠ ns) as Hno.
    { intros dg Hdg Hns. by rewrite (proj2 (existed_dis_lookup dgList ns dg Hnd)) in E. }
    destruct (CreateDisGrid g ns) as [c|]; [|done]. intros [= <-]. rewrite list_elem_of_singleton. split; [intros ->; left; eauto|].
    intros [(c' & -> & [= ->] & _)|(dg & Hdg & Hns & _)]; [done|by destruct (Hno dg Hdg)].
Qed.

(** A copy is the grid under another namespace, and leads back to it. *)
Lemma CreateDisGrid_copy g ns c : CreateDisGrid g ns = Ret c ->
  Name (meta c) = Name (meta g) /\ Namespace (meta c) = ns /\ spec c = spec g /\ federated (meta c) = false
  /\ mp (Labels (meta c)) !! FedTargetNameSpace = Some (Namespace (meta g)).
Proof.
  unfold CreateDisGrid. destruct (Labels (meta g)) as [l|]; [|done]. intros [= <-].
  rewrite meta_with_meta, spec_with_meta. simpl. split_and!; [done..| |].
  - unfold federated, has_label. simpl. rewrite (bool_decide_true (is_Some (_ !! FedrationDisKey))); [by rewrite andb_false_r|].
    rewrite lookup_insert_eq. by eexists.
  - rewrite lookup_insert_ne by done. apply lookup_insert_eq.
Qed.

End Reconcile.

(** ** The finalizer of a copy *)

Section Finalizer.
Context `{F : FedGrid G} (answer : fed_request G -> option api_error).
Implicit Types (fed : G).

(** The controller guards a copy with a finalizer when it makes the local
    grid, and lifts it only while deleting the local grid itself: once the
    nodes have gone, and the local grid with them, nothing lifts it, and the
    copy can never be deleted. *)
Lemma finalizer_stuck fed (grids grids' : list G) (nodes : list Node) :
  let target := default EmptyString (mp (Labels (meta fed)) !! FedTargetNameSpace) in
  DeletionTimestamp (meta fed) = None -> uniq_key fed ≠ EmptyString -> Finalizers fed = [] -> (forall rq, answer rq = None) ->
  existsb (fun n => has_label (uniq_key fed) (node_meta n)) nodes = true ->
  Get meta grids target (Name (meta fed)) = None -> is_Some (Get meta grids' target (Name (meta fed))) ->
  snd (syncFedGrid answer grids nodes fed) = ([LocalCreate (local_grid fed); PatchFinalizers ["dis"%string]], None)
  /\ snd (syncFedGrid answer grids' [] fed) = ([LocalDelete target (Name (meta fed))], None)
  /\ forall fed', meta fed' = mkObjectMeta (Name (meta fed)) (Namespace (meta fed)) (UID (meta fed)) (Labels (meta fed))
       (Annotations (meta fed)) (OwnerReferences (meta fed)) (Some 0) -> syncFedGrid answer grids nodes fed' = (true, ([], None)).
Proof.
  cbv zeta. intros Hd Hk Hf Ha Hn Hg [old Hg']. unfold syncFedGrid. rewrite Hd, (proj2 (String.eqb_neq _ _)) by done.
  rewrite Hn, Hg, Hg', Hf. simpl. rewrite !Ha. simpl. rewrite ?Ha. split_and!; [done|done|].
  intros fed' ->. simpl. by rewrite Hg.
Qed.

End Finalizer.

(** ** Properties *)

(** One copy per member cluster.  For a federated grid with at most one
    known copy per namespace, [reconcileFed] creates a copy exactly in the
    listed namespaces that have none, updates exactly the copies in listed
    namespaces whose spec no longer contains the grid's, and deletes exactly
    the copies in other namespaces.  A created copy has the grid's name and
    spec and is not federated itself, and [getFedGrid] leads from it back to
    the grid, so that a change of the copy enqueues the grid. *)
Theorem reconcileFed_copies `{F : FedGrid G} (SchemeDefault : G -> G) (g : G) (l : gmap string string) (dgList : list G) (disNsList : list string)
    (Hl : Labels (meta g) = Some l) (Hnd : NoDup ((fun dg => Namespace (meta dg)) <$> dgList)) :
  exists ops, reconcileFed SchemeDefault g dgList disNsList = Ret ops
  /\ (forall c, FedCreate c ∈ ops <-> exists ns, ns ∈ disNsList /\ CreateDisGrid g ns = Ret c /\ forall dg, dg ∈ dgList -> Namespace (meta dg) ≠ ns)
  /\ (forall u, FedUpdate u ∈ ops <-> exists dg, dg ∈ dgList /\ Namespace (meta dg) ∈ disNsList /\ u = SchemeDefault (UpdateDisGrid g dg)
        /\ DeepContains (spec_val (spec dg)) (spec_val (spec u)) = false)
  /\ (forall ns n, FedDelete ns n ∈ ops <-> exists dg, dg ∈ dgList /\ ns = Namespace (meta dg) /\ n = Name (meta dg) /\ ns ∉ disNsList)
  /\ (forall ns c, CreateDisGrid g ns = Ret c ->
        Name (meta c) = Name (meta g) /\ Namespace (meta c) = ns /\ spec c = spec g /\ federated (meta c) = false
        /\ forall grids, g ∈ grids ->
             (forall g', g' ∈ grids -> Namespace (meta g') = Namespace (meta g) -> Name (meta g') = Name (meta g) -> g' = g) ->
             getFedGrid grids c = Some g).
Proof.
  unfold reconcileFed. destruct (reconcile_namespaces_spec SchemeDefault g l (existed_dis dgList) disNsList Hl) as (os & -> & Hos).
  cbn [outcome_bind]. eexists. split; [reflexivity|].
  assert (forall o, o ∈ os <-> exists ns, ns ∈ disNsList /\
    ((exists c, o = FedCreate c /\ CreateDisGrid g ns = Ret c /\ forall dg, dg ∈ dgList -> Namespace (meta dg) ≠ ns)
     \/ (exists dg, dg ∈ dgList /\ Namespace (meta dg) = ns /\ o = FedUpdate (SchemeDefault (UpdateDisGrid g dg))
         /\ DeepContains (spec_val (spec dg)) (spec_val (spec (SchemeDefault (UpdateDisGrid g dg)))) = false))) as Ho.
  { intros o. rewrite Hos. split.
    - intros (ns & os' & Hns & He & Hin). exists ns. split; [done|]. by apply (reconcile_namespace_requests SchemeDefault g dgList ns o os').
    - intros (ns & Hns & Hc). destruct (reconcile_namespace SchemeDefault g (existed_dis dgList) ns) as [os'|] eqn:E.
      + exists ns, os'. split_and!; [done..|]. by apply (reconcile_namespace_requests SchemeDefault g dgList ns o os').
      + unfold reconcile_namespace in E. destruct (existed_dis dgList !! ns); [done|].
        destruct (CreateDisGrid_labelled g l ns Hl) as [c Hc']. by rewrite Hc' in E. }
  split_and!.
  - intros c. rewrite elem_of_app, list_elem_of_fmap, Ho. naive_solver.
  - intros u. rewrite elem_of_app, list_elem_of_fmap, Ho. naive_solver.
  - intros ns n. rewrite elem_of_app, list_elem_of_fmap, Ho. setoid_rewrite list_elem_of_filter. setoid_rewrite elem_of_list_to_set. naive_solver.
  - intros ns c Hc. destruct (CreateDisGrid_copy g ns c Hc) as (Hn & Hns & Hs & Hf & Ht). split_and!; [done..|].
    intros grids Hg Huniq. unfold getFedGrid. rewrite Ht, Hn. simpl. by apply (Get_found meta grids g).
Qed.

(** Grids reduced to metadata, a number for the spec, and finalizers. *)
Definition small_grid : Type := ObjectMeta * Z * list string.
#[export] Instance small_fed : FedGrid small_grid.
Proof.
  refine {|
    meta g := fst (fst g); with_meta g m := (m, snd (fst g), snd g); Spec := Z; spec g := snd (fst g); with_spec g s := (fst (fst g), s, snd g);
    spec_val s := Val "int" (Int s); uniq_key _ := "zone"%string; Finalizers g := snd g; with_finalizers g f := (fst g, f); FedKind := "DeploymentGrid"
  |}; done.
Defined.

Lemma reconcileFed_copies_witness :
  let web ns n := (with_labels (named ns "web") (Some {[FedrationKey := "yes"%string]}), n, []) : small_grid in
  exists ops, reconcileFed (fun g => g) (web "prod"%string 1) [web "c1"%string 2; web "c3"%string 1] ["c1"; "c2"]%string = Ret ops
  /\ FedUpdate (web "c1"%string 1) ∈ ops /\ FedDelete "c3" "web" ∈ ops.
Proof.
  intros web.
  destruct (reconcileFed_copies (fun g => g) (web "prod"%string 1) {[FedrationKey := "yes"%string]} [web "c1"%string 2; web "c3"%string 1] ["c1"; "c2"]%string)
    as (ops & Heq & _ & Hu & Hd & _); [reflexivity|apply (bool_decide_unpack _); vm_compute; exact I|].
  exists ops. split_and!; [exact Heq| |].
  - apply Hu. exists (web "c1"%string 2). split_and!; [by left|by left|reflexivity|reflexivity].
  - apply Hd. exists (web "c3"%string 1). split_and!; [by right; left|reflexivity|reflexivity|]. apply (bool_decide_unpack _). vm_compute. exact I.
Defined.
