(* ===== verification/GridKinds.v ===== *)
(** * Grid controllers: deployment grids and stateful-set grids

    The generic grid code of the previous files at its two kinds of workload,
    under the names each controller uses, and what only deployment grids have:
    federation.  [syncDeploymentGrid] is the whole handler: a round of
    [sync_grid], then the copies in the member clusters. *)

From Stdlib Require Import ZArith Lia Ascii String.
From stdpp Require Import base strings gmap numbers sorting list.
From S2P Require Import Prelude.
From S2P Require Import GoStd.
From S2P Require Import K8s.
From S2P Require Import DeepContains.
From S2P Require Import Requests.
From S2P Require Import WorkQueue.
From S2P Require Import GridClaim.
From S2P Require Import GridTemplate.
From S2P Require Import GridWorkload.
From S2P Require Import GridReconcile.
From S2P Require Import GridEvents.
From S2P Require Import GridController.
From S2P Require Import GridFed.

Local Open Scope Z_scope.
Local Open Scope go_scope.

(** ** Deployment grids under federation *)

(** The spec of a grid, and a grid with its finalizers. *)
Record GridSpec : Type := mkGridSpec {
  gs_GridUniqKey : string;
  gs_Template : WorkloadSpec;
  gs_TemplatePool : gomap WorkloadSpec;
  gs_Templates : gomap string;
  gs_DefaultTemplateName : string;
  gs_AutoDeleteUnusedTemplate : bool
}.

Record DeploymentGrid : Type := mkDeploymentGrid { dg_grid : Grid DeploymentStatus; dg_Finalizers : list string }.

Definition grid_spec {St} (g : Grid St) : GridSpec :=
  mkGridSpec (GridUniqKey g) (Template g) (TemplatePool g) (Templates g) (DefaultTemplateName g) (AutoDeleteUnusedTemplate g).
Definition with_grid_spec {St} (g : Grid St) (s : GridSpec) : Grid St :=
  mkGrid (g_meta g) (gs_GridUniqKey s) (gs_Template s) (gs_TemplatePool s) (gs_Templates s) (gs_DefaultTemplateName s)
    (gs_AutoDeleteUnusedTemplate s) (States g).

Definition grid_spec_value (s : GridSpec) : value :=
  Val "DeploymentGridSpec" (Struct [
    (true, Val "string" (Str (gs_GridUniqKey s))); (true, spec_value (gs_Template s));
    (true, Val "map[string]DeploymentSpec" (Map None (option_map (fun p => (fun kt => (fst kt, spec_value (snd kt))) <$> map_to_list p) (gs_TemplatePool s))));
    (true, map_value (gs_Templates s)); (true, Val "string" (Str (gs_DefaultTemplateName s)));
    (true, Val "bool" (Bool (gs_AutoDeleteUnusedTemplate s)))]).

#[export] Instance deployment_fed : FedGrid DeploymentGrid.
Proof.
  refine {|
    meta dg := g_meta (dg_grid dg); with_meta dg m := mkDeploymentGrid (GridTemplate.with_meta (dg_grid dg) m) (dg_Finalizers dg);
    Spec := GridSpec; spec dg := grid_spec (dg_grid dg);
    with_spec dg s := mkDeploymentGrid (with_grid_spec (dg_grid dg) s) (dg_Finalizers dg); spec_val := grid_spec_value;
    uniq_key dg := GridUniqKey (dg_grid dg); Finalizers := dg_Finalizers;
    with_finalizers dg f := mkDeploymentGrid (dg_grid dg) f; FedKind := ControllerKind deployment_kind
  |}; try done. by intros g [].
Defined.

Definition CreateDeploymentGrid (dg : DeploymentGrid) (nameSpace : string) : outcome DeploymentGrid := CreateDisGrid dg nameSpace.
Definition UpdateDeploymentGrid (dg fed : DeploymentGrid) : DeploymentGrid := UpdateDisGrid dg fed.

(** [syncDisStatus]: the states of the copies together; where two have the
    same value the later one counts. *)
Definition dis_states (dgList : list DeploymentGrid) (disNsList : list string) : gmap string DeploymentStatus :=
  fold_left (fun states dg =>
    if bool_decide (Namespace (meta dg) ∈ disNsList) then mp (States (dg_grid dg)) ∪ states else states) dgList ∅.

Definition written_status `{SemanticEq (gomap DeploymentStatus)} (old new : gomap DeploymentStatus) (answer : option api_error)
    : option (gomap DeploymentStatus) * option api_error :=
  if negb (DeepEqual old new) then (Some new, match answer with Some Conflict => None | err => err end) else (None, None).

Definition syncDisStatus `{SemanticEq (gomap DeploymentStatus)} (dg : DeploymentGrid) (dgList : list DeploymentGrid) (disNsList : list string)
    (answer : option api_error) : option (gomap DeploymentStatus) * option api_error :=
  written_status (States (dg_grid dg)) (Some (dis_states dgList disNsList)) answer.

(** [syncFedStatus], in the member cluster: the local grid's states. *)
Definition syncFedStatus `{SemanticEq (gomap DeploymentStatus)} (grids : list DeploymentGrid) (dg : DeploymentGrid) (answer : option api_error)
    : option (gomap DeploymentStatus) * option api_error :=
  match Get meta grids (default EmptyString (mp (Labels (meta dg)) !! FedTargetNameSpace)) (Name (meta dg)) with
  | None => (None, None)
  | Some disdg => written_status (States (dg_grid dg)) (States (dg_grid disdg)) answer
  end.

(** [syncFedDeploymentGrid]: the requests, the status written, the error. *)
Definition syncFedDeploymentGrid `{SemanticEq (gomap DeploymentStatus)} (answer : fed_request DeploymentGrid -> option api_error)
    (status_answer : option api_error) (fed_grids grids : list DeploymentGrid) (nodes : list Node) (key : string)
    : list (fed_request DeploymentGrid) * option (gomap DeploymentStatus) * option sync_error :=
  match SplitMetaNamespaceKey key with
  | None => ([], None, Some BadKey)
  | Some (namespace, name) =>
      match Get meta fed_grids namespace name with
      | None => ([], None, None)
      | Some fedDg =>
          let '(stop, (rqs, err)) := syncFedGrid answer grids nodes fedDg in
          if stop then (rqs, None, option_map FedError err)
          else let '(states, err) := syncFedStatus grids fedDg status_answer in (rqs, states, option_map StatusError err)
      end
  end.

Section Deployment.
Context (SchemeDefault : WorkloadSpec -> WorkloadSpec) (GenerateHash : WorkloadSpec -> string).
Context (IsValidLabelValue IsValidLabelKey : string -> bool) (TimeString : Z -> string).
Context `{SemanticEq WorkloadSpec} `{SemanticEq (gomap WorkloadSpec)} `{SemanticEq (gomap DeploymentStatus)}.
Context (ls : listers DeploymentStatus) (ans : answers DeploymentStatus).
(** The namespaces, the finalizers each grid has, the defaulting of grids, and
    the answers to the requests about copies. *)
Context (namespaces : list ObjectMeta) (finalizers_of : Grid DeploymentStatus -> list string).
Context (GridDefault : DeploymentGrid -> DeploymentGrid).
Context (dis_answer : fed_op DeploymentGrid -> option api_error) (dis_status_answer : option api_error).

(** Everything a round asks for. *)
Record round : Type := mkRound {
  own_actions : list (action DeploymentStatus);
  dis_ops : list (fed_op DeploymentGrid);
  dis_status : option (gomap DeploymentStatus);
  round_error : option sync_error
}.

Definition reconcileFedDeployments (dg : DeploymentGrid) (dgList : list DeploymentGrid) (disNsList : list string)
    : outcome (list (fed_op DeploymentGrid) * option (gomap DeploymentStatus) * option sync_error) :=
  let* ops := reconcileFed GridDefault dg dgList disNsList in
  match sync_dis_errors dis_answer ops with
  | [] =>
      match dgList, disNsList with
      | _ :: _, _ :: _ => let '(states, err) := syncDisStatus dg dgList disNsList dis_status_answer in Ret (ops, states, option_map StatusError err)
      | _, _ => Ret (ops, None, None)
      end
  | errs => Ret (ops, None, Some (SyncErrors errs))
  end.

Definition syncDeploymentGrid (key : string) : outcome round :=
  let* '(acts, ending) := sync_grid deployment_kind SchemeDefault GenerateHash IsValidLabelValue IsValidLabelKey TimeString ls ans key in
  match ending with
  | inl err => Ret (mkRound acts [] None (Some err))
  | inr None => Ret (mkRound acts [] None None)
  | inr (Some g) =>
      if federated (g_meta g) then
        let with_f := fun g => mkDeploymentGrid g (finalizers_of g) in
        let '(disdgList, nsList) := getDisGridAndNameSpace (with_f <$> grids ls) namespaces (with_f g) in
        let* '(ops, states, err) := reconcileFedDeployments (with_f g) disdgList nsList in
        Ret (mkRound acts ops states err)
      else Ret (mkRound acts [] None None)
  end.

End Deployment.

(** ** The code of each kind *)

Definition CreateDeployment := @CreateWorkload DeploymentStatus (ControllerKind deployment_kind).

Section StatefulSet.
(** The status of a stateful set is not inspected. *)
Context {StatefulSetStatus : Type}.
Notation SGrid := (Grid StatefulSetStatus).
Notation SWorkload := (Workload StatefulSetStatus).
Notation kind := (statefulset_kind StatefulSetStatus).

Definition GetStatefulSetName (ssg : SGrid) (gridValue : string) : string := GetWorkloadName ssg gridValue.
Definition CreateStatefulSet := @CreateWorkload StatefulSetStatus (ControllerKind kind).
Definition getStatefulsetTemplate (ssg : SGrid) (gridValues : string) : option (tref * WorkloadSpec) := getTemplate ssg gridValues.
Definition RemoveUnusedStatefulSetTemplate (ssg : SGrid) : SGrid := RemoveUnusedTemplate ssg.
Definition UpdateStatefulSetTemplateHash (GenerateHash : WorkloadSpec -> string) (ssg : SGrid) : SGrid := UpdateTemplateHash GenerateHash ssg.
Definition IsStatefulSetTemplateHashChanged (ssg : SGrid) (gridValues : string) (set : SWorkload) : bool := IsTemplateHashChanged ssg gridValues set.
Definition IsStatefulSetReplicasChanged (ssg : SGrid) (gridValues : string) (set : SWorkload) : outcome bool := IsReplicasChanged ssg gridValues set.

Definition ClaimStatefulSet (TimeString : Z -> string) (controller : ObjectMeta) (fresh : ObjectMeta + string)
    (matches : ObjectMeta -> bool) (Patch_ Delete_ : ObjectMeta -> option api_error) (setList : list SWorkload) :=
  ClaimObjects TimeString (AdoptText kind) controller fresh matches Patch_ Delete_ w_meta setList.
Definition getStatefulSetForGrid := @get_workloads StatefulSetStatus kind.

Definition syncStatefulSetStatus `{SemanticEq (gomap StatefulSetStatus)} :=
  @syncStatus StatefulSetStatus (FiltStatus kind) _.
Definition reconcileStatefulSets (SchemeDefault : WorkloadSpec -> WorkloadSpec) :=
  @reconcile StatefulSetStatus (ControllerKind kind) SchemeDefault.
Definition syncStatefulSet {D} `{A : WorkloadAPI StatefulSetStatus D} (ops : list op) (s : server) : server * list api_error := syncWorkload ops s.

(** [syncStatefulSetGrid] *)
Definition syncStatefulSetGrid `{SemanticEq WorkloadSpec} `{SemanticEq (gomap WorkloadSpec)} `{SemanticEq (gomap StatefulSetStatus)} :=
  @sync_grid StatefulSetStatus kind.

Section Handlers.
Context (IsValidLabelValue : string -> bool) (ssgs : list SGrid).
Definition addStatefulSet := addObject g_meta (ControllerKind kind) IsValidLabelValue ssgs.
Definition updateStatefulSet := updateObject g_meta (ControllerKind kind) IsValidLabelValue ssgs.
Definition deleteStatefulSet := deleteObject g_meta (ControllerKind kind) ssgs.
Definition resolveStatefulSetControllerRef := resolveControllerRef g_meta (ControllerKind kind) ssgs.
Definition getGridForStatefulSet := getGridForObject g_meta IsValidLabelValue ssgs.
Definition statefulset_addNode := addNode g_meta GridUniqKey ssgs.
Definition statefulset_updateNode := updateNode g_meta GridUniqKey ssgs.
Definition statefulset_deleteNode := deleteNode g_meta GridUniqKey ssgs.
Definition statefulset_getGridForNode := getGridForNode GridUniqKey ssgs.
End Handlers.

Definition addStatefulSetGrid (ssg : SGrid) : list string := addGrid g_meta ssg.
Definition updateStatefulSetGrid (oldRV curRV : string) (ssg : SGrid) : list string := updateGrid g_meta oldRV curRV ssg.
Definition deleteStatefulSetGrid (obj : deleted SGrid) : list string := deleteGrid g_meta obj.

End StatefulSet.
