(* ===== verification/GridService.v ===== *)
(** * Grid controllers: service grids (controller/service)

    A service grid has one service, named after it, whose annotation names
    the grid's unique key as its topology key.  [reconcile] compares the
    service with the wanted one, [syncService] makes the requests.  The
    theorems close the loop with the node wrapper: the key the controller
    writes is the key the wrapper reads, so that on each node the endpoints of
    a grid's service are those of the workload placed for the node's own grid
    value; and they show what an edit of the key does not reach. *)

From Stdlib Require Import ZArith Lia Ascii String.
From stdpp Require Import base strings gmap numbers sorting list.
From S2P Require Import Prelude.
From S2P Require Import GoStd.
From S2P Require Import GoJson.
From S2P Require Import K8s.
From S2P Require Import HealthData.
From S2P Require Import Topology.
From S2P Require Import DeepContains.
From S2P Require Import Requests.
From S2P Require Import WorkQueue.
From S2P Require Import GridClaim.
From S2P Require Import GridTemplate.
From S2P Require Import GridWorkload.
From S2P Require Import GridReconcile.
From S2P Require Import GridEvents.
From S2P Require Import GridFed.

Local Open Scope Z_scope.
Local Open Scope go_scope.

(** ** Services and service grids *)

(** A [ServiceSpec]: the field the controller fills in, and the rest. *)
Record ServiceSpec : Type := mkServiceSpec { ClusterIP : string; svc_Rest : value }.

Definition service_spec_value (s : ServiceSpec) : value :=
  Val "ServiceSpec" (Struct [(true, Val "string" (Str (ClusterIP s))); (true, svc_Rest s)]).

Record SpecService : Type := mkSpecService { ss_service : Service; ss_ResourceVersion : string; ss_spec : ServiceSpec }.
Definition ss_meta (s : SpecService) : ObjectMeta := svc_meta (ss_service s).

Record ServiceGrid : Type := mkServiceGrid {
  sg_meta : ObjectMeta;
  sg_GridUniqKey : string;
  sg_Template : ServiceSpec;
  sg_Finalizers : list string
}.

Definition with_sg_meta (sg : ServiceGrid) (m : ObjectMeta) : ServiceGrid :=
  mkServiceGrid m (sg_GridUniqKey sg) (sg_Template sg) (sg_Finalizers sg).

#[export] Instance service_fed : FedGrid ServiceGrid.
Proof.
  refine {|
    meta := sg_meta; with_meta := with_sg_meta; Spec := string * ServiceSpec; spec sg := (sg_GridUniqKey sg, sg_Template sg);
    with_spec sg s := mkServiceGrid (sg_meta sg) (fst s) (snd s) (sg_Finalizers sg);
    spec_val s := Val "ServiceGridSpec" (Struct [(true, Val "string" (Str (fst s))); (true, service_spec_value (snd s))]);
    uniq_key := sg_GridUniqKey; Finalizers := sg_Finalizers;
    with_finalizers sg f := mkServiceGrid (sg_meta sg) (sg_GridUniqKey sg) (sg_Template sg) f; FedKind := "ServiceGrid"
  |}; try done. by intros g [].
Defined.

(** ** Creating the service (service/util/service_util.go) *)

Definition GetServiceName (sg : ServiceGrid) : string := join_with "-" [Name (sg_meta sg); "svc"%string].

Definition service_labels (sg : ServiceGrid) : gomap string :=
  Some (<[GridSelectorUniqKeyName := sg_GridUniqKey sg]> (<[GridSelectorName := Name (sg_meta sg)]> (mp (Labels (sg_meta sg))))).

Definition service_annotations (sg : ServiceGrid) : gomap string :=
  Some (<[TopologyAnnotationsKey := MarshalStrings [sg_GridUniqKey sg]]> (mp (Annotations (sg_meta sg)))).

(** Maps of the grid that are not nil are written to, and shared. *)
Definition CreateService (sg : ServiceGrid) : ServiceGrid * SpecService :=
  let m := sg_meta sg in
  let svc := mkSpecService (mkService (mkObjectMeta (GetServiceName sg) (Namespace m) EmptyString (service_labels sg) (service_annotations sg) None None))
               EmptyString (sg_Template sg) in
  let m := match Labels m with None => m | Some _ => with_labels m (service_labels sg) end in
  let m := match Annotations m with None => m | Some _ => with_annotations m (service_annotations sg) end in
  (with_sg_meta sg m, svc).

Definition CreateServiceGrid (sg : ServiceGrid) (nameSpace : string) : outcome ServiceGrid := CreateDisGrid sg nameSpace.
Definition UpdateServiceGrid (sg fed : ServiceGrid) : ServiceGrid := UpdateDisGrid sg fed.

(** ** Reconciling (service/sync.go) *)

Inductive svc_op : Type := SvcCreate (s : SpecService) | SvcUpdate (s : SpecService) | SvcDelete (name : string).

Section Service.
(** [scheme.Default] on a service's spec. *)
Context (SchemeDefault : ServiceSpec -> ServiceSpec).
Implicit Types (sg : ServiceGrid) (svcList : list SpecService).

(** The loop over the claimed services: whether one has the wanted name, the
    updates and the deletes. *)
Fixpoint reconcile_services sg svcList : ServiceGrid * bool * list svc_op * list svc_op :=
  match svcList with
  | [] => (sg, false, [], [])
  | svc :: svcList =>
      if String.eqb (Name (ss_meta svc)) (GetServiceName sg) then
        let '(sg, created) := CreateService sg in
        let SvcToUpdate := mkSpecService (ss_service created) (ss_ResourceVersion created) (SchemeDefault (ss_spec created)) in
        let upd := if negb (DeepContains (service_spec_value (ss_spec svc)) (service_spec_value (ss_spec SvcToUpdate))) then [SvcUpdate SvcToUpdate] else [] in
        let '(sg, _, updates, deletes) := reconcile_services sg svcList in
        (sg, true, upd ++ updates, deletes)
      else
        let '(sg, isExistingSvc, updates, deletes) := reconcile_services sg svcList in
        (sg, isExistingSvc, updates, SvcDelete (Name (ss_meta svc)) :: deletes)
  end.

Definition reconcile_service sg svcList : ServiceGrid * list svc_op :=
  let '(sg, isExistingSvc, updates, deletes) := reconcile_services sg svcList in
  if isExistingSvc then (sg, updates ++ deletes)
  else let '(sg, svc) := CreateService sg in (sg, [SvcCreate svc] ++ updates ++ deletes).

(** ** Making the requests *)

(** What the server answers: to reading a service again, and to each request. *)
Context (get_answer : string -> SpecService + api_error) (svc_answer : svc_op -> option api_error).

(** One request: what is sent (an update takes over the version and address
    of the current service), the error reported, and whether the condition of
    that name is recorded in an event and in the grid's status. *)
Definition svc_request (o : svc_op) : option svc_op * option api_error * option string :=
  match o with
  | SvcCreate s =>
      (Some o, match svc_answer o with Some AlreadyExists => None | err => err end,
       match svc_answer o with None | Some AlreadyExists => None | Some _ => Some "CreateError"%string end)
  | SvcUpdate svc =>
      match get_answer (Name (ss_meta svc)) with
      | inr _ => (None, None, None)
      | inl svcCurrent =>
          let rv := if String.eqb (ss_ResourceVersion svc) EmptyString then ss_ResourceVersion svcCurrent else ss_ResourceVersion svc in
          let ip := if String.eqb (ClusterIP (ss_spec svc)) EmptyString then ClusterIP (ss_spec svcCurrent) else ClusterIP (ss_spec svc) in
          let o := SvcUpdate (mkSpecService (ss_service svc) rv (mkServiceSpec ip (svc_Rest (ss_spec svc)))) in
          (Some o, svc_answer o, match svc_answer o with None => None | Some _ => Some "UpdateError"%string end)
      end
  | SvcDelete _ =>
      (Some o, match svc_answer o with Some NotFound => None | err => err end,
       match svc_answer o with None | Some NotFound => None | Some _ => Some "DeleteError"%string end)
  end.

(** [syncService]: the requests sent and the errors reported. *)
Definition syncService (ops : list svc_op) : list svc_op * list api_error :=
  (omap (fun o => fst (fst (svc_request o))) ops, omap (fun o => snd (fst (svc_request o))) ops).

End Service.

(** [syncServiceGrid]: the claims, the service requests and, for a federated
    grid, the requests about its copies. *)
Section SyncGrid.
Context (SchemeDefault : ServiceSpec -> ServiceSpec) (GridDefault : ServiceGrid -> ServiceGrid).
Context (IsValidLabelValue : string -> bool) (TimeString : Z -> string).
Context (sgs : list ServiceGrid) (svcs : list SpecService) (namespaces : list ObjectMeta).
Context (fresh : ServiceGrid -> ObjectMeta + string) (patch_answer delete_answer : ObjectMeta -> option api_error).
Context (get_answer : string -> SpecService + api_error) (svc_answer : svc_op -> option api_error).
Context (dis_answer : fed_op ServiceGrid -> option api_error).

Record service_round : Type := mkServiceRound {
  sr_claims : list claim_request;
  sr_ops : list svc_op;
  sr_dis : list (fed_op ServiceGrid);
  sr_errors : list api_error;
  sr_bad : option string
}.

Definition ClaimService (sg : ServiceGrid) (matches : ObjectMeta -> bool) (svcList : list SpecService) :=
  ClaimObjects TimeString "can't adopt Service" (sg_meta sg) (fresh sg) matches patch_answer delete_answer ss_meta svcList.

Definition getServiceForGrid (sg : ServiceGrid) : list claim_request * (list SpecService + list api_error) :=
  match GetDefaultSelector IsValidLabelValue (Name (sg_meta sg)) with
  | None => ([], inr [OtherError "invalid name"])
  | Some selector =>
      let '(claimed, errs, rqs) := ClaimService sg selector
                                     (filter (fun s => Namespace (ss_meta s) = Namespace (sg_meta sg)) svcs) in
      (rqs, match errs with [] => inl claimed | _ => inr errs end)
  end.

Definition syncServiceGrid (key : string) : outcome service_round :=
  match SplitMetaNamespaceKey key with
  | None => Ret (mkServiceRound [] [] [] [] (Some "unexpected key format"%string))
  | Some (namespace, name) =>
      match Get meta sgs namespace name with
      | None => Ret (mkServiceRound [] [] [] [] None)
      | Some sg =>
          if String.eqb (sg_GridUniqKey sg) EmptyString then Ret (mkServiceRound [] [] [] [] None)
          else
            match getServiceForGrid sg with
            | (rqs, inr errs) => Ret (mkServiceRound rqs [] [] errs None)
            | (rqs, inl svcList) =>
                match DeletionTimestamp (sg_meta sg) with
                | Some _ => Ret (mkServiceRound rqs [] [] [] None)
                | None =>
                    let '(sg, ops) := reconcile_service SchemeDefault sg svcList in
                    let '(sent, errs) := syncService get_answer svc_answer ops in
                    match errs with
                    | _ :: _ => Ret (mkServiceRound rqs sent [] errs None)
                    | [] =>
                        if federated (sg_meta sg) then
                          let '(dissgList, nsList) := getDisGridAndNameSpace sgs namespaces sg in
                          let* dis := reconcileFed GridDefault sg dissgList nsList in
                          Ret (mkServiceRound rqs sent dis (sync_dis_errors dis_answer dis) None)
                        else Ret (mkServiceRound rqs sent [] [] None)
                    end
                end
            end
      end
  end.

(** ** Events of services (service/service.go) *)

Definition addService := addObject sg_meta "ServiceGrid" IsValidLabelValue sgs.
Definition updateService := updateObject sg_meta "ServiceGrid" IsValidLabelValue sgs.
Definition deleteService := deleteObject sg_meta "ServiceGrid" sgs.
Definition resolveServiceControllerRef := resolveControllerRef sg_meta "ServiceGrid" sgs.
Definition getGridForService := getGridForObject sg_meta IsValidLabelValue sgs.

End SyncGrid.

(** The federation controller of service grids. *)
Definition syncFedServiceGrid (answer : fed_request ServiceGrid -> option api_error) (fed_grids sgs : list ServiceGrid)
    (nodes : list Node) (key : string) : list (fed_request ServiceGrid) * option api_error :=
  match SplitMetaNamespaceKey key with
  | None => ([], Some (OtherError "unexpected key format"))
  | Some (namespace, name) =>
      match Get meta fed_grids namespace name with
      | None => ([], None)
      | Some fedSg => snd (syncFedGrid answer sgs nodes fedSg)
      end
  end.
Definition updateServiceGrid := @updateFedableGrid ServiceGrid service_fed.
Definition addServiceNameSpace := @addNameSpace ServiceGrid service_fed.
Definition reconcileFedServices (GridDefault : ServiceGrid -> ServiceGrid) := reconcileFed (G := ServiceGrid) GridDefault.
Definition sync_dis_service_errors := @sync_dis_errors ServiceGrid.
Definition getDisServiceGridAndNameSpace := @getDisGridAndNameSpace ServiceGrid service_fed.

(** ** The key the wrapper reads *)

Lemma CreateService_keys (sg : ServiceGrid) : ascii_only (sg_GridUniqKey sg) ->
  getTopologyKeys (ss_meta (snd (CreateService sg))) = Some [sg_GridUniqKey sg].
Proof.
  intros Hk. unfold getTopologyKeys, hasTopologyKey, CreateService, ss_meta. simpl.
  rewrite lookup_insert_eq. simpl. by rewrite Unmarshal_Marshal by (by constructor).
Qed.

(** With one key, two nodes share a label when they have the same value. *)
Lemma shares_label_single key h n : shares_label [key] h n <-> exists v, mp (labels h) !! key = Some v /\ mp (labels n) !! key = Some v.
Proof. unfold shares_label. setoid_rewrite list_elem_of_singleton. naive_solver. Qed.

(** The scheduler places the pods of a spec on nodes that have every label of
    its node selector. *)
Definition schedulable (t : WorkloadSpec) (n : nodeContainer) : Prop :=
  forall k v, mp (NodeSelector t) !! k = Some v -> mp (labels n) !! k = Some v.

Lemma created_selector {St : Type} (K : string) (g g' : Grid St) (v : string) (p : pending) :
  CreateWorkload K g v = Some (g', p) -> NodeSelector (p_spec p) = Some (<[GridUniqKey g := v]> (mp (match getTemplate g v with Some (_, t) => NodeSelector t | None => None end))).
Proof.
  unfold CreateWorkload. destruct (getTemplate g v) as [[r t]|] eqn:Et; [|done]. cbv zeta.
  destruct (mark_labels_same K g) as (_ & _ & _ & _ & -> & _).
  destruct (NodeSelector t) as [sel|] eqn:Es; intros [= <- <-]; simpl; by rewrite ?Es.
Qed.

(** ** What the controller does not notice *)

Lemma reconcile_service_same (D : ServiceSpec -> ServiceSpec) (sg : ServiceGrid) (svc : SpecService) :
  Name (ss_meta svc) = GetServiceName sg ->
  DeepContains (service_spec_value (ss_spec svc)) (service_spec_value (D (sg_Template sg))) = true ->
  snd (reconcile_service D sg [svc]) = [].
Proof.
  intros Hn Hd. unfold reconcile_service. cbn [reconcile_services]. rewrite Hn, String.eqb_refl. simpl. by rewrite Hd.
Qed.

(** An edit of the unique key does not reach the service: only specs are
    compared, and the key is in an annotation. *)
Lemma stale_topology_key (D : ServiceSpec -> ServiceSpec) (sg : ServiceGrid) (svc : SpecService) (key : string) :
  Name (ss_meta svc) = GetServiceName sg ->
  DeepContains (service_spec_value (ss_spec svc)) (service_spec_value (D (sg_Template sg))) = true ->
  snd (reconcile_service D (mkServiceGrid (sg_meta sg) key (sg_Template sg) (sg_Finalizers sg)) [svc]) = [].
Proof. intros Hn Hd. by apply reconcile_service_same. Qed.

(** An update whose service cannot be read is dropped without an error, so the
    key is not retried. *)
Lemma dropped_update (get_answer : string -> SpecService + api_error) (svc_answer : svc_op -> option api_error) (svc : SpecService) (e : api_error) :
  get_answer (Name (ss_meta svc)) = inr e -> syncService get_answer svc_answer [SvcUpdate svc] = ([], []).
Proof. intros He. unfold syncService. simpl. by rewrite He. Qed.

(** ** Properties *)

(** The name of a created service is not that of the API server's. *)
Lemma CreateService_not_master (sg : ServiceGrid) : is_master (ss_meta (snd (CreateService sg))) = false.
Proof.
  unfold is_master, CreateService, ss_meta. simpl. unfold GetServiceName, join_with. simpl. apply andb_false_iff. right.
  apply String.eqb_neq. unfold MasterEndpointName. generalize (Name (sg_meta sg)). intros s H.
  do 10 (destruct s as [|? s]; lazy in H; [discriminate|injection H as ? H]).
  destruct s; discriminate.
Qed.

(** C11: the endpoints of a grid's service stay in the host's zone.  Take a
    deployment (or stateful-set) grid and a service grid over the same key (of
    ASCII characters), a workload the controller created for grid value [v]
    from a template without a node selector of its own (with one, the workloads
    of all values get the selector of the last, [selector_shared]), and a node
    it may be scheduled on.  On a host that the wrapper knows, the wrapper, in
    or outside the cluster, whose cache holds the service as the controller
    created it (an edit of the key does not reach it, [stale_topology_key]) and
    the node, keeps an address on that node exactly when [v] is the host's own
    value of the key and, with health information enabled, the node is not
    reported failed; order and ports stay. *)
Theorem grid_traffic_local {St : Type} (K : string) (g g' : Grid St) (v : string) (p : pending) (sg : ServiceGrid)
    (hostName nodeName : string) (nodes : nodes_map) (services : services_map) (info : node_info) (wic sae : bool)
    (h n : nodeContainer) (eps : Endpoints)
    (Hcreate : CreateWorkload K g v = Some (g', p)) (Hkey : sg_GridUniqKey sg = GridUniqKey g) (Hascii : ascii_only (GridUniqKey g))
    (Hown : p_shared p = None) (Hsched : schedulable (resolve g' p) n) (Hnode : nodes !! mkNN "" nodeName = Some n) (Hhost : nodes !! mkNN "" hostName = Some h)
    (Hname : meta_key (eps_meta eps) = meta_key (ss_meta (snd (CreateService sg))))
    (Hservice : services !! meta_key (eps_meta eps) =
       Some (mkServiceContainer (ss_service (snd (CreateService sg))) (getTopologyKeys (ss_meta (snd (CreateService sg)))))) :
  Forall2 (fun s s' =>
      (forall a, ea_NodeName a = Some nodeName ->
         a ∈ sl (es_Addresses s') <->
         a ∈ sl (es_Addresses s) /\ mp (labels h) !! GridUniqKey g = Some v /\ (sae = true -> not_reported_bad info n))
      /\ sl (es_Addresses s') `sublist_of` sl (es_Addresses s) /\ es_Ports s' = es_Ports s)
    (sl (eps_Subsets eps)) (sl (eps_Subsets (pruneEndpoints hostName nodes services eps info wic sae))).
Proof.
  rewrite CreateService_keys in Hservice by (by rewrite Hkey).
  assert (mp (labels n) !! GridUniqKey g = Some v) as Hn.
  { apply Hsched. unfold resolve. rewrite Hown, (created_selector K g g' v p Hcreate). apply lookup_insert_eq. }
  assert (local_form wic eps = eps) as Hform.
  { apply local_form_other. rewrite <- (CreateService_not_master sg). by apply is_master_key. }
  pose proof (fun Hk => pruneEndpoints_close hostName nodes services info wic sae h _ eps Hhost Hk Hservice) as Hclose.
  specialize (Hclose ltac:(done)). rewrite Hform in Hclose.
  refine (Forall2_impl _ _ _ _ Hclose _).
  intros s s' ([Hsub Hin] & _ & Hports). split_and!; [|done|done].
  intros a Ha. rewrite Hin, Ha. f_equiv. unfold close_to. cbn [keys sl default from_option id]. setoid_rewrite shares_label_single. rewrite Hkey. split.
  - intros (? & n' & [= <-] & Hn' & (v' & Hh & Hv') & Hi). assert (n' = n) as -> by congruence.
    split; [congruence|done].
  - intros [Hh Hi]. exists nodeName, n. split_and!; [done|done|by exists v|done].
Qed.

Definition ex_sg : ServiceGrid := mkServiceGrid (named "ns" "web") "zone" (mkServiceSpec EmptyString (Val "Rest" (Bool true))) [].

(** The host [a] and the node [b] of zone z1 (of the topology example). *)
Lemma grid_traffic_local_witness :
  let eps := mkEndpoints (named "ns" "web-svc")
    (Some [mkEndpointSubset (Some [mkEndpointAddress "10.0.0.1" (Some "b"%string)]) None None]) in
  let svc := ss_service (snd (CreateService ex_sg)) in
  exists s' rest, sl (eps_Subsets (pruneEndpoints "a" ex_nodes {[mkNN "ns" "web-svc" := mkServiceContainer svc (getTopologyKeys (svc_meta svc))]} eps ∅ true true))
    = s' :: rest /\ mkEndpointAddress "10.0.0.1" (Some "b"%string) ∈ sl (es_Addresses s').
Proof.
  intros eps svc.
  pose proof (grid_traffic_local "DeploymentGrid" ex_grid ex_grid "z1"
    (mkPending (desired_meta "DeploymentGrid" ex_grid "z1") (desired_spec ex_grid "z1" ex_spec) None) ex_sg "a" "b" ex_nodes
    {[mkNN "ns" "web-svc" := mkServiceContainer svc (getTopologyKeys (svc_meta svc))]} ∅ true true (ex_node "a" "z1") (ex_node "b" "z1") eps) as H.
  destruct (Forall2_cons_inv_l _ _ _ _ (H eq_refl eq_refl ltac:(repeat constructor) eq_refl
    ltac:(intros k v Hk; change (({["zone"%string := "z1"%string]} : gmap string string) !! k = Some v) in Hk; apply lookup_singleton_Some in Hk as [<- <-]; reflexivity)
    eq_refl eq_refl eq_refl eq_refl)) as (s' & rest & [Hin _] & _ & E).
  exists s', rest. split; [exact E|]. apply Hin; [reflexivity|]. split_and!; [by left|reflexivity|]. intros _ d Hd. discriminate.
Defined.
