(* ===== verification/SiteNodes.v ===== *)
(** * Site manager: units and their nodes (site-manager/utils/node.go, apis/site.superedge.io/v1alpha2)

    A node unit names its nodes or selects them by label, and sets labels,
    annotations and taints on them; a node group does the same with units.
    Here are the objects, the requests of all of site-manager, and the
    functions that find the members of a unit or a group, write to them and
    clean them up.  The theorems show that one pass sets every member and that
    a cleaned node has lost exactly what its unit set, and, against that,
    which units are written to again in every pass. *)

From Stdlib Require Import ZArith Lia Ascii String.
From stdpp Require Import base strings gmap numbers sorting list.
From S2P Require Import Prelude.
From S2P Require Import GoStd.
From S2P Require Import GoJson.
From S2P Require Import GoJsonValue.
From S2P Require Import GoSort.
From S2P Require Import Sha256.
From S2P Require Import Sha1.
From S2P Require Import K8s.
From S2P Require Import Requests.
From S2P Require Import KubeClient.
From S2P Require Import KubeNode.

Local Open Scope Z_scope.
Local Open Scope go_scope.

(** ** Objects (apis/site.superedge.io/v1alpha2) *)

Record Selector : Type := mkSelector {
  sel_MatchLabels : gomap string;
  sel_MatchExpressions : gslice LabelSelectorRequirement;
  sel_Annotations : gomap string
}.

Record SetNode : Type := mkSetNode {
  set_Labels : gomap string;
  set_Annotations : gomap string;
  set_Taints : gslice Taint
}.

Record UnitClusterInfoSpec : Type := mkUnitClusterInfo { ci_StorageType : string; ci_Parameters : gomap string }.

Record NodeUnitSpec : Type := mkNodeUnitSpec {
  nu_Type : string;
  nu_Unschedulable : bool;
  nu_Nodes : gslice string;
  nu_Selector : option Selector;
  nu_SetNode : SetNode;
  nu_AutonomyLevel : string;
  nu_CredentialRef : option ObjectReference;
  nu_ClusterInfo : option UnitClusterInfoSpec
}.

Record ClusterCondition : Type := mkClusterCondition {
  cc_Type : string;
  cc_Status : string;
  cc_LastProbeTime : Z;
  cc_Message : string
}.

Record UnitClusterStatus : Type := mkUnitClusterStatus {
  uc_Version : string;
  uc_Phase : string;
  uc_Conditions : gslice ClusterCondition;
  uc_ServiceCIDR : string
}.

Record NodeUnitStatus : Type := mkNodeUnitStatus {
  nu_ReadyRate : string;
  nu_ReadyNodes : gslice string;
  nu_NotReadyNodes : gslice string;
  nu_UnitCluster : UnitClusterStatus
}.

Record NodeUnit : Type := mkNodeUnit {
  nu_meta : ObjectMeta;
  nu_Finalizers : list string;
  nu_Spec : NodeUnitSpec;
  nu_Status : NodeUnitStatus
}.

Record NodeGroupSpec : Type := mkNodeGroupSpec {
  ng_NodeUnits : gslice string;
  ng_Selector : option Selector;
  ng_AutoFindNodeKeys : gslice string
}.

Record NodeGroupStatus : Type := mkNodeGroupStatus { ng_UnitNumber : Z; ng_StatusUnits : gslice string }.

Record NodeGroup : Type := mkNodeGroup {
  ng_meta : ObjectMeta;
  ng_Finalizers : list string;
  ng_Spec : NodeGroupSpec;
  ng_Status : NodeGroupStatus
}.

#[export] Instance Selector_eq_dec : EqDecision Selector.
Proof. solve_decision. Defined.
#[export] Instance SetNode_eq_dec : EqDecision SetNode.
Proof. solve_decision. Defined.
#[export] Instance UnitClusterInfoSpec_eq_dec : EqDecision UnitClusterInfoSpec.
Proof. solve_decision. Defined.
#[export] Instance NodeUnitSpec_eq_dec : EqDecision NodeUnitSpec.
Proof. solve_decision. Defined.
#[export] Instance ClusterCondition_eq_dec : EqDecision ClusterCondition.
Proof. solve_decision. Defined.
#[export] Instance UnitClusterStatus_eq_dec : EqDecision UnitClusterStatus.
Proof. solve_decision. Defined.
#[export] Instance NodeUnitStatus_eq_dec : EqDecision NodeUnitStatus.
Proof. solve_decision. Defined.
#[export] Instance NodeUnit_eq_dec : EqDecision NodeUnit.
Proof. solve_decision. Defined.
#[export] Instance NodeGroupSpec_eq_dec : EqDecision NodeGroupSpec.
Proof. solve_decision. Defined.
#[export] Instance NodeGroupStatus_eq_dec : EqDecision NodeGroupStatus.
Proof. solve_decision. Defined.
#[export] Instance NodeGroup_eq_dec : EqDecision NodeGroup.
Proof. solve_decision. Defined.

Definition unit_name (nu : NodeUnit) : string := Name (nu_meta nu).
Definition unit_sets (nu : NodeUnit) : SetNode := nu_SetNode (nu_Spec nu).

Definition with_unit_meta (nu : NodeUnit) (m : ObjectMeta) : NodeUnit := mkNodeUnit m (nu_Finalizers nu) (nu_Spec nu) (nu_Status nu).
Definition with_unit_finalizers (nu : NodeUnit) (f : list string) : NodeUnit := mkNodeUnit (nu_meta nu) f (nu_Spec nu) (nu_Status nu).
Definition with_unit_spec (nu : NodeUnit) (sp : NodeUnitSpec) : NodeUnit := mkNodeUnit (nu_meta nu) (nu_Finalizers nu) sp (nu_Status nu).
Definition with_unit_status (nu : NodeUnit) (st : NodeUnitStatus) : NodeUnit := mkNodeUnit (nu_meta nu) (nu_Finalizers nu) (nu_Spec nu) st.
Definition with_SetNode (nu : NodeUnit) (sn : SetNode) : NodeUnit :=
  let sp := nu_Spec nu in
  with_unit_spec nu (mkNodeUnitSpec (nu_Type sp) (nu_Unschedulable sp) (nu_Nodes sp) (nu_Selector sp) sn
    (nu_AutonomyLevel sp) (nu_CredentialRef sp) (nu_ClusterInfo sp)).
Definition with_set_labels (nu : NodeUnit) (l : gomap string) : NodeUnit :=
  with_SetNode nu (mkSetNode l (set_Annotations (unit_sets nu)) (set_Taints (unit_sets nu))).

(** ** Constants (constant/const.go, utils/common.go, unitcluster/common.go) *)

Definition NodeUnitSuperedge : string := "nodeunits.superedge.io".
Definition NodeGroupSuperedge : string := "nodegroups.superedge.io".
Definition NodeUnitAutoFindLabel : string := "site.superedge.io/node-group-auto-keys-hash".
Definition KinsRoleLabelKey : string := "site.superedge.io/kins-role".
Definition KinsResourceLabelKey : string := "site.superedge.io/kins-resource".
Definition DefaultKinsNamespace : string := "kins-system".

(** ** Requests *)

(** What site-manager asks of the API server, with the objects of KubeClient.v
    for what is not a node, a unit or a group; [Record_] is an event and
    [QueueDeletion] puts a unit on the deleter's queue. *)
Inductive site_request (B : Type) : Type :=
| WriteNode (n : Node)
| ApplyNodeLabels (name : string) (labels : gmap string string)
| DropRoleLabel (name : string)
| GetUnit (name : string)
| CreateUnit (nu : NodeUnit)
| WriteUnit (nu : NodeUnit)
| WriteUnitStatus (nu : NodeUnit)
| WriteGroup (ng : NodeGroup)
| WriteGroupStatus (ng : NodeGroup)
| Record_ (nu : NodeUnit) (reason message : string)
| QueueDeletion (nu : NodeUnit)
| DropFinalizers (k : Kind) (namespace name : string)
| DeleteCollection (k : Kind) (namespace labelSelector fieldSelector : string)
| Kube (q : kube_request B).

Arguments WriteNode {B} n.
Arguments ApplyNodeLabels {B} name labels.
Arguments DropRoleLabel {B} name.
Arguments GetUnit {B} name.
Arguments CreateUnit {B} nu.
Arguments WriteUnit {B} nu.
Arguments WriteUnitStatus {B} nu.
Arguments WriteGroup {B} ng.
Arguments WriteGroupStatus {B} ng.
Arguments Record_ {B} nu reason message.
Arguments QueueDeletion {B} nu.
Arguments DropFinalizers {B} k namespace name.
Arguments DeleteCollection {B} k namespace labelSelector fieldSelector.
Arguments Kube {B} q.

Definition site_answer {B : Type} (q : site_request B) : Type :=
  match q with
  | GetUnit _ => NodeUnit
  | Kube q => kube_answer q
  | _ => unit
  end.

Notation site B A := (act (@site_answer B) api_error A).

Definition write_node {B : Type} (n : Node) : site B unit := call (WriteNode n).
Definition apply_node_labels {B : Type} (name : string) (labels : gmap string string) : site B unit := call (ApplyNodeLabels name labels).
Definition drop_role_label {B : Type} (name : string) : site B unit := call (DropRoleLabel name).
Definition get_unit {B : Type} (name : string) : site B NodeUnit := call (GetUnit name).
Definition create_unit {B : Type} (nu : NodeUnit) : site B unit := call (CreateUnit nu).
Definition write_unit {B : Type} (nu : NodeUnit) : site B unit := call (WriteUnit nu).
Definition write_unit_status {B : Type} (nu : NodeUnit) : site B unit := call (WriteUnitStatus nu).
Definition write_group {B : Type} (ng : NodeGroup) : site B unit := call (WriteGroup ng).
Definition write_group_status {B : Type} (ng : NodeGroup) : site B unit := call (WriteGroupStatus ng).
Definition queue_deletion {B : Type} (nu : NodeUnit) : site B unit := call (QueueDeletion nu).
Definition drop_finalizers {B : Type} (k : Kind) (namespace name : string) : site B unit := call (DropFinalizers k namespace name).
Definition delete_collection {B : Type} (k : Kind) (namespace labelSelector fieldSelector : string) : site B unit :=
  call (DeleteCollection k namespace labelSelector fieldSelector).
Definition kube_get {B : Type} (k : Kind) (namespace name : string) : site B (Object B) := call (Kube (GetObject k namespace name)).
Definition kube_list {B : Type} (k : Kind) (namespace selector : string) : site B (list (Object B)) :=
  call (Kube (ListObjects k namespace selector)).
Definition kube_delete {B : Type} (k : Kind) (namespace name : string) : site B unit := call (Kube (Delete k namespace name)).
Definition kube_create {B : Type} (o : Object B) : site B unit := call (Kube (Create o)).

(** ** The selector library *)

(** [metav1.LabelSelectorAsSelector] and [labels.NewRequirement] check labels;
    a selector without expressions asks for its labels. *)
Class LabelSelectors : Type := {
  LabelSelectorAsSelector : LabelSelector -> (gmap string string -> bool) + api_error;
  NewRequirement : string -> string -> (gmap string string -> bool) + api_error;
  selector_of_labels : forall m e f l, LabelSelectorAsSelector (mkLabelSelector m e) = inl f -> sl e = [] ->
    f l = true <-> mp m ⊆ l;
  requirement_in : forall k v f l, NewRequirement k v = inl f -> f l = true <-> l !! k = Some v
}.

(** A library that accepts every label. *)
Definition requirement_holds (r : LabelSelectorRequirement) (l : gmap string string) : bool :=
  match l !! lr_Key r with
  | Some v => if String.eqb (lr_Operator r) "In" then existsb (String.eqb v) (sl (lr_Values r))
              else if String.eqb (lr_Operator r) "NotIn" then negb (existsb (String.eqb v) (sl (lr_Values r)))
              else String.eqb (lr_Operator r) "Exists"
  | None => String.eqb (lr_Operator r) "NotIn" || String.eqb (lr_Operator r) "DoesNotExist"
  end.

Definition plain_selectors : LabelSelectors.
Proof.
  refine {| LabelSelectorAsSelector := fun s => inl (fun l =>
              bool_decide (mp (MatchLabels s) ⊆ l) && forallb (fun r => requirement_holds r l) (sl (MatchExpressions s)));
            NewRequirement := fun k v => inl (fun l => bool_decide (l !! k = Some v)) |}.
  - intros m e f l [= <-] He. cbn [MatchLabels MatchExpressions]. rewrite He. cbn [forallb].
    by rewrite andb_true_r, bool_decide_eq_true.
  - intros k v f l [= <-]. by rewrite bool_decide_eq_true.
Defined.

Definition selector_part (s : Selector) : LabelSelector := mkLabelSelector (sel_MatchLabels s) (sel_MatchExpressions s).

(** ** Members *)

Section Members.
Context `{R : GoRange} `{L : LabelSelectors}.

Definition object_labels (m : ObjectMeta) : gmap string string := mp (Labels m).

(** [ListNodeFromLister] and [ListNodeUnitFromLister] with the functions that
    collect by name: a selector that could not be made lists nothing. *)
Definition list_by_name {A : Type} (meta : A -> ObjectMeta) (f : gmap string string -> bool) (lister : gmap string A) (acc : gmap string A) :
    gmap string A :=
  fold_left (fun acc '(_, x) => if f (object_labels (meta x)) then <[Name (meta x) := x]> acc else acc) (go_range lister) acc.

(** The members that are named and exist. *)
Definition named_members {A : Type} (key : string -> A -> string) (lister : gmap string A) (names : list string) : gmap string A :=
  fold_left (fun acc name => match lister !! name with Some x => <[key name x := x]> acc | None => acc end) names ∅.

(** A selector without labels and expressions selects no node. *)
Definition node_selector (s : Selector) (f : gmap string string -> bool) : gmap string string -> bool :=
  if bool_decide (mp (sel_MatchLabels s) = ∅) && bool_decide (sl (sel_MatchExpressions s) = []) then fun _ => false else f.

Definition GetNodesByUnit (nodes : gmap string Node) (nu : NodeUnit) : gmap string Node + api_error :=
  let named := named_members (fun name _ => name) nodes (sl (nu_Nodes (nu_Spec nu))) in
  match nu_Selector (nu_Spec nu) with
  | None => inl named
  | Some s => match LabelSelectorAsSelector (selector_part s) with
              | inr err => inr err
              | inl f => inl (list_by_name node_meta (node_selector s f) nodes named)
              end
  end.

(** The hash of the keys, which are sorted in place. *)
Definition HashAutoFindKeys (keyslices : list string) : string :=
  match keyslices with
  | [] => EmptyString
  | _ => sha1_hex (foldr (fun k acc => k +:+ acc) EmptyString (Strings keyslices))
  end.

Definition GetUnitByGroup (units : gmap string NodeUnit) (ng : NodeGroup) : gmap string NodeUnit + api_error :=
  let sp := ng_Spec ng in
  let named := named_members (fun _ nu => unit_name nu) units (sl (ng_NodeUnits sp)) in
  let selected := match ng_Selector sp with
                  | None => inl named
                  | Some s => match LabelSelectorAsSelector (selector_part s) with
                              | inr err => inr err
                              | inl f => inl (list_by_name nu_meta f units named)
                              end
                  end in
  match selected with
  | inr err => inr err
  | inl selected =>
      match sl (ng_AutoFindNodeKeys sp) with
      | [] => inl selected
      | keys =>
          let labels := <[Name (ng_meta ng) := NodeGroupSuperedge]> {[ NodeUnitAutoFindLabel := HashAutoFindKeys keys ]} in
          match LabelSelectorAsSelector (mkLabelSelector (Some labels) None) with
          | inr err => inr err
          | inl f => inl (list_by_name nu_meta f units selected)
          end
      end
  end.

(** The names under the labels that mark a member: all are looked up, and one
    that is missing is an error. *)
Definition marked_names (mark : string) (m : ObjectMeta) : list string :=
  (filter (fun kv => snd kv = mark) (go_range (object_labels m))).*1.

Definition look_up_all {A : Type} (lister : gmap string A) (names : list string) : list A + api_error :=
  foldr (fun name acc =>
    match lister !! name, acc with
    | Some x, inl l => inl (x :: l)
    | None, _ => inr NotFound
    | Some _, inr err => inr err
    end) (inl []) names.

Definition GetUnitsByNode (units : gmap string NodeUnit) (n : Node) : (list NodeUnit * list string) + api_error :=
  let unitList := marked_names NodeUnitSuperedge (node_meta n) in
  match look_up_all units unitList with inl l => inl (l, unitList) | inr err => inr err end.

Definition GetGroupsByUnit (groups : gmap string NodeGroup) (nu : NodeUnit) : (list NodeGroup * list string) + api_error :=
  let groupList := marked_names NodeGroupSuperedge (nu_meta nu) in
  match look_up_all groups groupList with inl l => inl (l, groupList) | inr err => inr err end.

(** *** Status *)

Definition nil_if_empty {A : Type} (l : list A) : gslice A := match l with [] => None | _ => Some l end.

Definition CaculateNodeUnitStatus (nodeMap : gmap string Node) : NodeUnitStatus :=
  let ready := Strings ((filter (fun kv => IsReadyNode (snd kv) = true) (go_range nodeMap)).*1) in
  let notReady := Strings ((filter (fun kv => IsReadyNode (snd kv) = false) (go_range nodeMap)).*1) in
  mkNodeUnitStatus
    (string_of (FormatInt (Z.of_nat (length ready))) +:+ "/" +:+ string_of (FormatInt (Z.of_nat (length ready + length notReady))))
    (nil_if_empty ready) (nil_if_empty notReady) (mkUnitClusterStatus EmptyString EmptyString None EmptyString).

Definition CaculateNodeGroupStatus (unitSet : gmap string NodeUnit) : NodeGroupStatus :=
  mkNodeGroupStatus (Z.of_nat (size unitSet)) (Some (Strings (go_range unitSet).*1)).

End Members.

(** ** Writing to members *)

Definition TaintInSlices (taintSlice : list Taint) (target : Taint) : bool :=
  existsb (fun t => String.eqb (tt_Key t) (tt_Key target) && String.eqb (tt_Effect t) (tt_Effect target)
                    && String.eqb (tt_Value t) (tt_Value target)) taintSlice.

Definition FoundNode (nodes : list string) (node : string) : bool := existsb (String.eqb node) nodes.

(** Reading a missing key of a Go map gives the empty string. *)
Definition map_get (m : gomap string) (k : string) : string := default EmptyString (mp m !! k).

(** Whether a node carries what a unit sets.  The annotations are compared
    with the node's labels. *)
Definition labelSet (set : gomap string) (n : Node) : bool :=
  bool_decide (map_Forall (fun k v => Labels (node_meta n) <> None /\ map_get (Labels (node_meta n)) k = v) (mp set)).
Definition annoSet (set : gomap string) (n : Node) : bool :=
  bool_decide (map_Forall (fun k v => Annotations (node_meta n) <> None /\ map_get (Labels (node_meta n)) k = v) (mp set)).
Definition taintSet (set : gslice Taint) (n : Node) : bool :=
  match set, node_Taints n with
  | None, _ => true
  | Some _, None => false
  | Some ts, Some nts => forallb (TaintInSlices nts) ts
  end.

Definition node_is_set (sn : SetNode) (n : Node) : bool :=
  labelSet (set_Labels sn) n && annoSet (set_Annotations sn) n && taintSet (set_Taints sn) n.

Definition set_entries (set cur : gomap string) : gomap string :=
  match set, cur with
  | None, _ => cur
  | Some s, None => Some s
  | Some s, Some c => Some (s ∪ c)
  end.

(** Every round appends all of [tmp], the missing taints so far. *)
Definition set_taints (set cur : gslice Taint) : gslice Taint :=
  match set, cur with
  | None, _ => cur
  | Some ts, None => Some ts
  | Some ts, Some c =>
      Some (fst (fold_left (fun '(cur, tmp) t =>
        let tmp := if TaintInSlices cur t then tmp else tmp ++ [t] in (cur ++ tmp, tmp)) ts (c, [])))
  end.

Definition set_node (sn : SetNode) (n : Node) : Node :=
  let n := with_node_labels n (set_entries (set_Labels sn) (Labels (node_meta n))) in
  let n := with_node_annotations n (set_entries (set_Annotations sn) (Annotations (node_meta n))) in
  with_taints n (set_taints (set_Taints sn) (node_Taints n)).

Section Writing.
Context `{R : GoRange} {B : Type}.

Definition SetNodeToNodes (nu : NodeUnit) (nodeMaps : gmap string Node) : site B unit :=
  each (fun '(_, n) =>
    if node_is_set (unit_sets nu) n then ok tt else write_node (set_node (unit_sets nu) n)) (go_range nodeMaps).

(** The same for the units of a group. *)
Definition SetNodeToNodeUnits (ng : NodeGroup) (unitMaps : gmap string NodeUnit) : site B unit :=
  let name := Name (ng_meta ng) in
  each (fun '(_, nu) =>
    let setNodeReady := match set_Labels (unit_sets nu) with None => true | l => String.eqb (map_get l name) (unit_name nu) end in
    let ownerLabelReady := match Labels (nu_meta nu) with None => true | l => String.eqb (map_get l name) NodeGroupSuperedge end in
    if setNodeReady && ownerLabelReady then ok tt
    else
      let newNu := with_set_labels nu (Some (<[name := unit_name nu]> (mp (set_Labels (unit_sets nu))))) in
      write_unit (with_unit_meta newNu
        (with_labels (nu_meta nu) (Some (<[name := NodeGroupSuperedge]> (mp (Labels (nu_meta nu)))))))) (go_range unitMaps).

(** *** Cleaning *)

Definition deleteTaintItems (currentTaintItems deleteTaintItems : list Taint) : gslice Taint :=
  Some (filter (fun t => tt_Key t ∉ (tt_Key <$> deleteTaintItems)) currentTaintItems).

(** The keys of [set] are deleted. *)
Definition without_keys (set cur : gomap string) : gomap string :=
  match set with None => cur | Some s => option_map (fun c => filter (fun kv => s !! fst kv = None) c) cur end.

Definition clean_node (nu : NodeUnit) (n : Node) : Node :=
  let sn := unit_sets nu in
  let labels := without_keys (set_Labels sn) (Labels (node_meta n)) in
  let labels := match set_Labels sn with
                | None => labels
                | Some _ => if FoundNode (sl (nu_Nodes (nu_Spec nu))) (Name (node_meta n)) then labels
                            else option_map (delete KinsRoleLabelKey) labels
                end in
  let n1 := with_node_labels n labels in
  let n2 := with_node_annotations n1 (without_keys (set_Annotations sn) (Annotations (node_meta n))) in
  with_taints n2 (deleteTaintItems (sl (node_Taints n)) (sl (set_Taints sn))).

(** A volume's claim, by namespace and name, and a selector as a string. *)
Context (ClaimRef : Object B -> option (string * string)) (SelectorString FieldSelectorString : gmap string string -> string).

Definition delete_claim (ref : option (string * string)) : site B unit :=
  match ref with
  | None => ok tt
  | Some (namespace, name) =>
      do! drop_finalizers KPersistentVolumeClaim namespace name in
      unless_gone (kube_delete KPersistentVolumeClaim namespace name)
  end.

Definition delete_volume (name : string) : site B unit :=
  reply! r := kube_get KPersistentVolume EmptyString name in
  match r with
  | inr NotFound => ok tt
  | inr err => fail err
  | inl pv =>
      do! drop_finalizers KPersistentVolume EmptyString (o_Name pv) in
      do! unless_gone (kube_delete KPersistentVolume EmptyString (o_Name pv)) in
      delete_claim (ClaimRef pv)
  end.

(** What a node of the unit's own cluster leaves behind. *)
Definition delete_role (nu : NodeUnit) (n : Node) : site B unit :=
  let name := Name (node_meta n) in
  if FoundNode (sl (nu_Nodes (nu_Spec nu))) name then ok tt
  else match object_labels (node_meta n) !! KinsRoleLabelKey with
       | None => ok tt
       | Some _ =>
           do! delete_volume (unit_name nu +:+ "-local-pv-" +:+ name) in
           unless_gone (delete_collection KPod DefaultKinsNamespace
             (SelectorString {[ KinsRoleLabelKey := "server"%string ]}) (FieldSelectorString {[ "spec.nodeName"%string := name ]}))
       end.

(** Nothing is cleaned for a unit that names no nodes. *)
Definition DeleteNodesFromSetNode (nu : NodeUnit) (nodeMaps : gmap string Node) : site B unit :=
  match sl (nu_Nodes (nu_Spec nu)) with
  | [] => ok tt
  | _ => each (fun '(_, n) => do! write_node (clean_node nu n) in delete_role nu n) (go_range nodeMaps)
  end.

Definition DeleteNodeUnitFromSetNode (ng : NodeGroup) (unitMaps : gmap string NodeUnit) : site B unit :=
  let name := Name (ng_meta ng) in
  each (fun '(_, nu) =>
    let newNu := with_set_labels nu (option_map (delete name) (set_Labels (unit_sets nu))) in
    write_unit (with_unit_meta newNu (with_labels (nu_meta nu) (option_map (delete name) (Labels (nu_meta nu))))))
    (go_range unitMaps).

End Writing.

(** ** The server *)

(** A node as the server keeps it: with the same settings. *)
Record same_settings (n n' : Node) : Prop := {
  same_name : Name (node_meta n') = Name (node_meta n);
  same_labels : object_labels (node_meta n') = object_labels (node_meta n);
  same_annotations : mp (Annotations (node_meta n')) = mp (Annotations (node_meta n));
  same_taints : sl (node_Taints n') = sl (node_Taints n)
}.

(** Settings that differ in the role label at most. *)
Record same_but_role (n n' : Node) : Prop := {
  role_name : Name (node_meta n') = Name (node_meta n);
  role_labels : delete KinsRoleLabelKey (object_labels (node_meta n')) = delete KinsRoleLabelKey (object_labels (node_meta n));
  role_annotations : mp (Annotations (node_meta n')) = mp (Annotations (node_meta n));
  role_taints : sl (node_Taints n') = sl (node_Taints n)
}.

(** Requests that write a node, and those that change its role only. *)
Definition writes_node {B : Type} (q : site_request B) : Prop := match q with WriteNode _ => True | _ => False end.
Definition changes_role {B : Type} (q : site_request B) : Prop :=
  match q with
  | ApplyNodeLabels _ labels => delete KinsRoleLabelKey labels = ∅
  | DropRoleLabel _ => True
  | _ => False
  end.
Definition no_node_request {B : Type} (q : site_request B) : Prop :=
  match q with WriteNode _ | ApplyNodeLabels _ _ | DropRoleLabel _ => False | _ => True end.

(** What the server does with nodes; [node_ok] is what it admits. *)
Class SiteServer (B : Type) : Type := {
  sserver : Type;
  snodes : sserver -> gmap string Node;
  sserve : forall q : site_request B, sserver -> sserver * (site_answer q + api_error);
  node_ok : Node -> Prop;
  write_node_found : forall n s, is_Some (snodes s !! Name (node_meta n)) -> node_ok n ->
    snd (sserve (WriteNode n) s) = inl tt
    /\ exists n', same_settings n n' /\ snodes (fst (sserve (WriteNode n) s)) = <[Name (node_meta n) := n']> (snodes s);
  role_request : forall q s, changes_role q -> forall k,
    option_relation same_but_role (fun _ => False) (fun _ => False) (snodes s !! k) (snodes (fst (sserve q s)) !! k);
  other_request : forall q s, no_node_request q -> snodes (fst (sserve q s)) = snodes s
}.

(** ** Setting *)

Lemma TaintInSlices_elem l t : TaintInSlices l t = true <-> t ∈ l.
Proof.
  unfold TaintInSlices. rewrite existsb_exists. split.
  - intros (u & Hu & H). bool_to_prop. apply list_elem_of_In in Hu.
    repeat match goal with H : String.eqb _ _ = true |- _ => apply String.eqb_eq in H end.
    destruct t, u; simpl in *; by subst.
  - intros Ht. exists t. split; [by apply list_elem_of_In|]. by rewrite !String.eqb_refl.
Qed.

Lemma FoundNode_elem l n : FoundNode l n = true <-> n ∈ l.
Proof.
  unfold FoundNode. rewrite existsb_exists. split.
  - intros (m & Hm & E%String.eqb_eq). subst. by apply list_elem_of_In.
  - intros Hn. exists n. split; [by apply list_elem_of_In|apply String.eqb_refl].
Qed.

(** As a set, the taints are those there were and those to be set. *)
Lemma elem_of_set_taints (set cur : gslice Taint) t :
  t ∈ sl (set_taints set cur) <-> t ∈ sl cur \/ t ∈ sl set.
Proof.
  destruct set as [ts|]; [|simpl; split; [by left|by intros [|?%elem_of_nil]]].
  destruct cur as [c|]; [|simpl; split; [by right|by intros [?%elem_of_nil|]]].
  unfold set_taints. cbn [sl default from_option id].
  assert (forall c tmp, (forall u, u ∈ tmp -> u ∈ c) ->
    t ∈ fst (fold_left (fun '(cur, tmp) t => let tmp := if TaintInSlices cur t then tmp else tmp ++ [t] in (cur ++ tmp, tmp)) ts (c, tmp))
    <-> t ∈ c \/ t ∈ ts) as H; [|by apply H; intros u ?%elem_of_nil].
  clear c. induction ts as [|u ts IH]; intros c tmp Htmp; cbn [fold_left].
  { simpl. split; [by left|by intros [|?%elem_of_nil]]. }
  rewrite IH.
  - rewrite elem_of_app, elem_of_cons. destruct (TaintInSlices c u) eqn:Hu.
    + apply TaintInSlices_elem in Hu. split; [intros [[H|H]|H]|intros [H|[->|H]]]; auto.
    + rewrite elem_of_app, list_elem_of_singleton. split; [intros [[H|[H|H]]|H]|intros [H|[->|H]]]; auto.
  - intros v. rewrite elem_of_app. by right.
Qed.

(** What setting leaves on a node. *)
Record set_on (sn : SetNode) (n n' : Node) : Prop := {
  on_name : Name (node_meta n') = Name (node_meta n);
  on_labels : object_labels (node_meta n') = mp (set_Labels sn) ∪ object_labels (node_meta n);
  on_annotations : mp (Annotations (node_meta n')) = mp (set_Annotations sn) ∪ mp (Annotations (node_meta n));
  on_taints : forall t, t ∈ sl (node_Taints n') <-> t ∈ sl (node_Taints n) \/ t ∈ sl (set_Taints sn)
}.

Lemma mp_set_entries (set cur : gomap string) : mp (set_entries set cur) = mp set ∪ mp cur.
Proof.
  destruct set as [s|]; [|unfold mp at 2; simpl; by rewrite (left_id_L ∅ (∪))]. destruct cur as [c|]; [done|].
  simpl. by rewrite (right_id_L ∅ (∪)).
Qed.

Lemma set_node_on (sn : SetNode) (n n' : Node) : same_settings (set_node sn n) n' -> set_on sn n n'.
Proof.
  intros [Hn Hl Ha Ht]. split; [done| | |].
  - rewrite Hl. apply mp_set_entries.
  - rewrite Ha. apply mp_set_entries.
  - intros t. rewrite Ht. apply elem_of_set_taints.
Qed.

Lemma map_get_Some (m : gomap string) k v : v ≠ EmptyString -> map_get m k = v <-> mp m !! k = Some v.
Proof. intros Hv. unfold map_get. destruct (mp m !! k); simpl; [split; congruence|]. split; [by intros <-|done]. Qed.

(** Label values that are not empty, and no empty slice of taints. *)
Record settable (sn : SetNode) : Prop := {
  settable_annotations : mp (set_Annotations sn) = ∅;
  settable_labels : map_Forall (fun _ v => v <> EmptyString) (mp (set_Labels sn));
  settable_taints : set_Taints sn <> Some []
}.

Lemma node_is_set_spec (sn : SetNode) (n : Node) : settable sn ->
  node_is_set sn n = true <-> mp (set_Labels sn) ⊆ object_labels (node_meta n) /\ (forall t, t ∈ sl (set_Taints sn) -> t ∈ sl (node_Taints n)).
Proof.
  intros [Ha Hl Ht]. unfold node_is_set. rewrite !andb_true_iff. unfold labelSet, annoSet. rewrite Ha, !bool_decide_eq_true.
  split.
  - intros [[Hlab _] Htaint]. split.
    + apply map_subseteq_spec. intros k v Hk. apply map_get_Some; [by apply (Hl k)|]. by apply Hlab.
    + unfold taintSet in Htaint. destruct (set_Taints sn) as [ts|]; [|by intros t ?%elem_of_nil].
      destruct (node_Taints n) as [nts|]; [|done]. intros t Hin. rewrite forallb_forall in Htaint.
      apply TaintInSlices_elem, Htaint. by apply list_elem_of_In.
  - intros [Hlab Htaint]. split; [split|].
    + intros k v Hk. pose proof (lookup_weaken _ _ _ _ Hk Hlab) as Hk'. split.
      * unfold object_labels in Hk'. by destruct (Labels (node_meta n)).
      * apply map_get_Some; [by apply (Hl k)|done].
    + apply map_Forall_empty.
    + unfold taintSet. destruct (set_Taints sn) as [[|u ts]|]; [done| |done].
      destruct (node_Taints n) as [nts|]; [|destruct (not_elem_of_nil u); apply (Htaint u); by left].
      apply forallb_forall. intros t Hin. apply TaintInSlices_elem, Htaint. by apply list_elem_of_In.
Qed.

Lemma set_on_is_set (sn : SetNode) (n n' : Node) : settable sn -> set_on sn n n' -> node_is_set sn n' = true.
Proof.
  intros Hs [_ Hl _ Ht]. apply node_is_set_spec; [done|]. rewrite Hl. split; [apply map_union_subseteq_l|].
  intros t Hin. apply Ht. by right.
Qed.

Lemma is_set_on (sn : SetNode) (n : Node) : settable sn -> node_is_set sn n = true -> set_on sn n n.
Proof.
  intros Hs Hset. apply node_is_set_spec in Hset as [Hl Ht]; [|done]. split; [done| | |].
  - symmetry. by apply map_subseteq_union.
  - by rewrite (settable_annotations sn Hs), (left_id_L ∅ (∪)).
  - intros t. naive_solver.
Qed.

Section Settling.
Context `{R : GoRange} `{A : SiteServer B}.
Implicit Types (nu : NodeUnit) (s : sserver).

(** The lister's nodes are the server's, under their names. *)
Definition in_sync (nodes : gmap string Node) s : Prop :=
  forall k n, nodes !! k = Some n -> Name (node_meta n) = k /\ snodes s !! k = Some n.

Lemma wp_write_node n s : is_Some (snodes s !! Name (node_meta n)) -> node_ok n ->
  wp sserve (write_node n) (fun s' t r => r = inl tt /\ t = [WriteNode n]
    /\ exists n', same_settings n n' /\ snodes s' = <[Name (node_meta n) := n']> (snodes s)) s.
Proof.
  intros Hn Hok. apply (wp_call sserve (WriteNode n)). destruct (write_node_found n s Hn Hok) as [-> Hn']. done.
Qed.

(** One member. *)
Lemma set_one nu n s : settable (unit_sets nu) -> node_ok (set_node (unit_sets nu) n) -> snodes s !! Name (node_meta n) = Some n ->
  wp sserve (if node_is_set (unit_sets nu) n then ok tt else write_node (set_node (unit_sets nu) n))
    (fun s' _ r => r = inl tt /\ writes_key snodes (set_on (unit_sets nu)) (Name (node_meta n)) n s s') s.
Proof.
  intros Hs Hok Hn. destruct (node_is_set _ n) eqn:E.
  - apply wp_ok. split; [done|]. split; [|done]. exists n. split; [done|]. by apply is_set_on.
  - eapply wp_mono; [apply wp_write_node; [by exists n|done]|]. simpl.
    intros s' t r (-> & _ & n' & Hn' & Hs'). change (Name (node_meta (set_node (unit_sets nu) n))) with (Name (node_meta n)) in Hs'.
    split; [done|]. split.
    + exists n'. rewrite Hs', lookup_insert_eq. split; [done|]. by apply set_node_on.
    + intros k Hk. by rewrite Hs', lookup_insert_ne.
Qed.

Lemma SetNodeToNodes_pass nu nodeMaps s :
  settable (unit_sets nu) -> in_sync nodeMaps s ->
  (forall k n, nodeMaps !! k = Some n -> node_ok (set_node (unit_sets nu) n)) ->
  wp sserve (SetNodeToNodes nu nodeMaps) (fun s1 _ r => r = inl tt
    /\ (forall k n, nodeMaps !! k = Some n -> exists n', snodes s1 !! k = Some n' /\ set_on (unit_sets nu) n n')
    /\ forall k, nodeMaps !! k = None -> snodes s1 !! k = snodes s !! k) s.
Proof.
  intros Hs Hsync Hok. apply (wp_each_key sserve snodes); [|intros k n Hn; by apply Hsync].
  intros k n s1 Hn Hs1. destruct (Hsync k n Hn) as [<- _]. apply set_one; [done|by eapply Hok|done].
Qed.

Lemma SetNodeToNodes_quiet nu nodeMaps :
  (forall k n, nodeMaps !! k = Some n -> node_is_set (unit_sets nu) n = true) -> SetNodeToNodes (B := B) nu nodeMaps = ok tt.
Proof.
  intros H. apply each_nothing. intros [k n] Hn%elem_of_go_range. by rewrite (H k n).
Qed.

(** C32: one pass of [SetNodeToNodes] gives every member the labels and taints
    of its unit, keeps what else it has, and leaves other nodes alone; the next
    pass over the nodes as they are then makes no request.  This is for units
    that set no annotations ([annotations_rewritten]), no empty label values
    and no empty list of taints, for members as the server has them, and for
    nodes that the server admits with what the unit sets: two missing taints
    give one of them twice, which it refuses ([set_taints_twice]). *)
Theorem SetNodeToNodes_settles (nu : NodeUnit) (nodeMaps : gmap string Node) (s : sserver)
  (Hs : settable (unit_sets nu)) (Hsync : in_sync nodeMaps s)
  (Hok : forall k n, nodeMaps !! k = Some n -> node_ok (set_node (unit_sets nu) n)) :
  wp sserve (SetNodeToNodes nu nodeMaps) (fun s1 _ r => r = inl tt
    /\ (forall k n, nodeMaps !! k = Some n -> exists n', snodes s1 !! k = Some n' /\ set_on (unit_sets nu) n n')
    /\ (forall k, nodeMaps !! k = None -> snodes s1 !! k = snodes s !! k)
    /\ forall nodeMaps' : gmap string Node, (forall k n, nodeMaps' !! k = Some n -> is_Some (nodeMaps !! k) /\ snodes s1 !! k = Some n) ->
         wp sserve (SetNodeToNodes nu nodeMaps') (fun s2 t r => s2 = s1 /\ t = [] /\ r = inl tt) s1) s.
Proof.
  eapply wp_mono; [by apply SetNodeToNodes_pass|]. intros s1 t r (-> & Hset & Hother). split_and!; [done..|].
  intros nodeMaps' H'. rewrite SetNodeToNodes_quiet; [by apply wp_ok|].
  intros k n Hn. destruct (H' k n Hn) as [[n0 Hn0] Hk]. destruct (Hset k n0 Hn0) as (n' & Hn' & Hon). simplify_eq.
  by eapply set_on_is_set.
Qed.

(** An annotation that the node does not also have as a label is set again in
    every pass, whether it is there or not. *)
Lemma annotations_rewritten nu n k v :
  mp (set_Annotations (unit_sets nu)) !! k = Some v -> map_get (Labels (node_meta n)) k <> v ->
  node_is_set (unit_sets nu) n = false.
Proof.
  intros Hk Hv. unfold node_is_set. assert (annoSet (set_Annotations (unit_sets nu)) n = false) as ->.
  { apply bool_decide_eq_false. intros H. by destruct (H k v Hk). }
  by rewrite andb_false_r.
Qed.

End Settling.

(** Two taints that a tainted node lacks are written with the first one twice. *)
Example set_taints_twice (a b c : Taint) :
  TaintInSlices [c] a = false -> TaintInSlices [c; a] b = false ->
  set_taints (Some [a; b]) (Some [c]) = Some [c; a; a; b].
Proof. intros Ha Hb. unfold set_taints. cbn [fold_left app]. rewrite Ha. cbn [app fold_left]. by rewrite Hb. Qed.

(** ** Cleaning *)

(** What cleaning leaves on a node. *)
Record cleaned (nu : NodeUnit) (n n' : Node) : Prop := {
  cleaned_name : Name (node_meta n') = Name (node_meta n);
  cleaned_labels : forall k, object_labels (node_meta n') !! k =
    if decide (is_Some (mp (set_Labels (unit_sets nu)) !! k)) then None
    else if decide (k = KinsRoleLabelKey /\ set_Labels (unit_sets nu) <> None /\ Name (node_meta n) ∉ sl (nu_Nodes (nu_Spec nu))) then None
    else object_labels (node_meta n) !! k;
  cleaned_annotations : forall k, mp (Annotations (node_meta n')) !! k =
    if decide (is_Some (mp (set_Annotations (unit_sets nu)) !! k)) then None else mp (Annotations (node_meta n)) !! k;
  cleaned_taints : forall t, t ∈ sl (node_Taints n') <->
    t ∈ sl (node_Taints n) /\ tt_Key t ∉ (tt_Key <$> sl (set_Taints (unit_sets nu)))
}.

Lemma lookup_without_keys (set cur : gomap string) k :
  mp (without_keys set cur) !! k = if decide (is_Some (mp set !! k)) then None else mp cur !! k.
Proof.
  destruct set as [m|]; simpl; [|by rewrite lookup_empty, decide_False by by intros []].
  destruct cur as [c|]; simpl; [|by case_decide].
  apply option_eq. intros v. rewrite map_lookup_filter_Some. simpl. destruct (m !! k) eqn:E.
  - rewrite decide_True by by eexists. naive_solver.
  - rewrite decide_False by by intros []. naive_solver.
Qed.

Lemma mp_delete (k : string) (l : gomap string) : mp (option_map (delete k) l) = delete k (mp l).
Proof. destruct l; simpl; [done|]. by rewrite delete_empty. Qed.

Lemma clean_node_cleaned (nu : NodeUnit) (n n' : Node) : same_settings (clean_node nu n) n' -> cleaned nu n n'.
Proof.
  intros [Hn Hl Ha Ht]. split; [done| | |].
  - intros k. rewrite Hl. unfold clean_node, object_labels. cbn [node_meta with_taints with_node_annotations with_annotations with_node_labels with_labels Labels].
    destruct (set_Labels (unit_sets nu)) as [m|] eqn:Hm.
    + destruct (FoundNode _ _) eqn:Hf.
      * apply FoundNode_elem in Hf. rewrite lookup_without_keys. case_decide; [done|]. rewrite decide_False; [done|]. by intros (_ & _ & ?).
      * assert (Name (node_meta n) ∉ sl (nu_Nodes (nu_Spec nu))) by (intros H%FoundNode_elem; congruence).
        rewrite mp_delete. destruct (decide (k = KinsRoleLabelKey)) as [-> |Hk].
        -- rewrite lookup_delete_eq. case_decide; [done|]. by rewrite decide_True.
        -- rewrite lookup_delete_ne, lookup_without_keys by done. case_decide; [done|]. rewrite decide_False; [done|]. by intros [].
    + simpl. rewrite lookup_empty, decide_False by by intros []. rewrite decide_False; [done|]. by intros (_ & ? & _).
  - intros k. rewrite Ha. apply lookup_without_keys.
  - intros t. rewrite Ht. unfold clean_node, deleteTaintItems. simpl. rewrite list_elem_of_filter. naive_solver.
Qed.

Section Cleaning.
Context `{R : GoRange} `{A : SiteServer B}.
Context (ClaimRef : Object B -> option (string * string)) (SelectorString FieldSelectorString : gmap string string -> string).
Implicit Types (nu : NodeUnit) (s : sserver).

(** A node that has no role in its unit's own cluster. *)
Definition without_role nu n : Prop :=
  Name (node_meta n) ∈ sl (nu_Nodes (nu_Spec nu)) \/ object_labels (node_meta n) !! KinsRoleLabelKey = None.

Lemma delete_role_nothing nu n : without_role nu n -> delete_role ClaimRef SelectorString FieldSelectorString nu n = ok tt.
Proof.
  unfold delete_role. intros [H%FoundNode_elem|H]; [by rewrite H|]. rewrite H. by destruct (FoundNode _ _).
Qed.

Lemma DeleteNodesFromSetNode_pass nu nodeMaps s :
  sl (nu_Nodes (nu_Spec nu)) <> [] -> in_sync nodeMaps s ->
  (forall k n, nodeMaps !! k = Some n -> node_ok (clean_node nu n) /\ without_role nu n) ->
  wp sserve (DeleteNodesFromSetNode ClaimRef SelectorString FieldSelectorString nu nodeMaps) (fun s1 _ r => r = inl tt
    /\ (forall k n, nodeMaps !! k = Some n -> exists n', snodes s1 !! k = Some n' /\ cleaned nu n n')
    /\ forall k, nodeMaps !! k = None -> snodes s1 !! k = snodes s !! k) s.
Proof.
  intros Hne Hsync Hok. unfold DeleteNodesFromSetNode. destruct (sl (nu_Nodes (nu_Spec nu))) as [|x l] eqn:E; [done|].
  apply (wp_each_key sserve snodes); [|intros k n Hn; by apply Hsync].
  intros k n s1 Hn Hs1. destruct (Hsync k n Hn) as [<- _]. destruct (Hok _ n Hn) as [Hnok Hrole].
  rewrite delete_role_nothing by done. rewrite wp_andthen.
  eapply wp_mono; [apply wp_write_node; [by exists n|done]|]. simpl.
  intros s' t r (-> & -> & n' & Hn' & Hs'). apply wp_ok. split; [done|].
  change (Name (node_meta (clean_node nu n))) with (Name (node_meta n)) in Hs'. split.
  - exists n'. rewrite Hs', lookup_insert_eq. split; [done|]. by apply clean_node_cleaned.
  - intros k Hk. by rewrite Hs', lookup_insert_ne.
Qed.

End Cleaning.

(** ** A server *)

(** Taints are unique by key and effect. *)
Definition unique_taints (n : Node) : Prop := NoDup ((fun t => (tt_Key t, tt_Effect t)) <$> sl (node_Taints n)).

#[export] Instance unique_taints_dec n : Decision (unique_taints n).
Proof. unfold unique_taints. apply _. Defined.

Definition relabel (f : gmap string string -> gmap string string) (n : Node) : Node :=
  with_node_labels n (Some (f (object_labels (node_meta n)))).

(** It keeps the nodes it admits, and nothing else. *)
Definition node_serve {B : Type} (q : site_request B) (s : gmap string Node) : gmap string Node * (site_answer q + api_error) :=
  match q return gmap string Node * (site_answer q + api_error) with
  | WriteNode n =>
      match s !! Name (node_meta n) with
      | None => (s, inr NotFound)
      | Some _ => if decide (unique_taints n) then (<[Name (node_meta n) := n]> s, inl tt) else (s, inr Invalid)
      end
  | ApplyNodeLabels name labels => (alter (relabel (fun l => labels ∪ l)) name s, inl tt)
  | DropRoleLabel name => (alter (relabel (delete KinsRoleLabelKey)) name s, inl tt)
  | GetUnit _ => (s, inr NotFound)
  | Kube (GetObject _ _ _) => (s, inr NotFound)
  | Kube (ListObjects _ _ _) => (s, inl [])
  | Kube (Create _) | Kube (Update _) | Kube (Delete _ _ _) => (s, inl tt)
  | CreateUnit _ | WriteUnit _ | WriteUnitStatus _ | WriteGroup _ | WriteGroupStatus _ | Record_ _ _ _ | QueueDeletion _
  | DropFinalizers _ _ _ | DeleteCollection _ _ _ _ => (s, inl tt)
  end.

Lemma alter_relabel f name (s : gmap string Node) k :
  (forall l, delete KinsRoleLabelKey (f l) = delete KinsRoleLabelKey l) ->
  option_relation same_but_role (fun _ => False) (fun _ => False) (s !! k) (alter (relabel f) name s !! k).
Proof.
  intros Hf. destruct (decide (k = name)) as [-> |Hk].
  - rewrite lookup_alter_eq. destruct (s !! name) as [n|]; [|done]. split; [done|apply Hf|done|done].
  - rewrite lookup_alter_ne by done. by destruct (s !! k).
Qed.

#[export] Instance node_server (B : Type) : SiteServer B.
Proof.
  refine {| sserver := gmap string Node; snodes := fun s => s; sserve := node_serve; node_ok := unique_taints |}.
  - intros n s [n0 E] Hok. cbn [node_serve]. rewrite E, decide_True by done. split; [done|]. by exists n.
  - intros [] s Hq; try done; intros k; cbn [node_serve fst]; apply alter_relabel; intros l.
    + simpl in Hq. apply map_eq. intros i. destruct (decide (i = KinsRoleLabelKey)) as [-> |Hi]; [by rewrite !lookup_delete_eq|].
      rewrite !lookup_delete_ne by done. rewrite lookup_union_r; [done|]. by rewrite <- (lookup_delete_ne labels KinsRoleLabelKey), Hq.
    + by rewrite delete_delete_eq.
  - intros [] s Hq; try done. by destruct q.
Defined.

(** *** A unit with a label and a taint, over a node that lacks both and one
    that has them. *)
Definition ex_sets : SetNode :=
  mkSetNode (Some {[ "u"%string := NodeUnitSuperedge ]}) None (Some [mkTaint "k" "v" "NoExecute"]).
Definition ex_site_unit : NodeUnit :=
  mkNodeUnit (named EmptyString "u") [] (mkNodeUnitSpec "edge" false (Some ["a"; "b"]%string) None ex_sets "L3" None None)
    (mkNodeUnitStatus EmptyString None None (mkUnitClusterStatus EmptyString EmptyString None EmptyString)).
Definition ex_site_node (name : string) (labels : gomap string) (taints : gslice Taint) : Node :=
  mkNode (mkObjectMeta name EmptyString EmptyString labels None None None) taints None None.
Definition ex_site_nodes : gmap string Node :=
  <["a" := ex_site_node "a" (Some {[ "os" := "linux" ]}) (Some [mkTaint "x" "" "NoSchedule"])]>
  {[ "b" := ex_site_node "b" (Some {[ "u" := NodeUnitSuperedge ]}) (Some [mkTaint "k" "v" "NoExecute"]) ]}%string.

Lemma ex_settable : settable ex_sets.
Proof. split; [done| |done]. by_compute. Qed.

Lemma ex_in_sync (s : gmap string Node) : ex_site_nodes ⊆ s -> in_sync (A := node_server unit) ex_site_nodes s.
Proof.
  intros Hs k n Hk. split; [|by eapply lookup_weaken].
  assert (map_Forall (fun k n => Name (node_meta n) = k) ex_site_nodes) as H by by_compute. by apply (H k n).
Qed.

Lemma SetNodeToNodes_settles_witness :
  wp node_serve (SetNodeToNodes (R := range_in_key_order) (B := unit) ex_site_unit ex_site_nodes) (fun s1 _ r => r = inl tt
    /\ (forall k n, ex_site_nodes !! k = Some n -> exists n', s1 !! k = Some n' /\ set_on ex_sets n n')
    /\ (forall k, ex_site_nodes !! k = None -> s1 !! k = ex_site_nodes !! k)
    /\ forall nodeMaps' : gmap string Node, (forall k n, nodeMaps' !! k = Some n -> is_Some (ex_site_nodes !! k) /\ s1 !! k = Some n) ->
         wp node_serve (SetNodeToNodes (R := range_in_key_order) (B := unit) ex_site_unit nodeMaps')
           (fun s2 t r => s2 = s1 /\ t = [] /\ r = inl tt) s1) ex_site_nodes.
Proof.
  apply (SetNodeToNodes_settles (A := node_server unit) ex_site_unit ex_site_nodes ex_site_nodes).
  - apply ex_settable.
  - by apply ex_in_sync.
  - assert (map_Forall (fun _ n => unique_taints (set_node ex_sets n)) ex_site_nodes) as H by by_compute. exact H.
Defined.
