(* ===== verification/SiteManifests.v ===== *)
(** * The manifests of unit clusters (site-manager/controller/unitcluster/manifest)

    The templates of the objects a unit's own cluster is made of, as the
    source has them: [raw] puts the double quotes in the place of the
    backquotes they are written with here. *)

From Stdlib Require Import ZArith Lia Ascii String.
From stdpp Require Import base strings gmap numbers sorting list.
From S2P Require Import Prelude.
From S2P Require Import GoStd.
From S2P Require Import GoTemplate.

Fixpoint raw (s : string) : string :=
  match s with
  | EmptyString => EmptyString
  | String c s => String (if Ascii.eqb c "`"%char then ascii_of_nat 34 else c) (raw s)
  end.

Definition KinsStorageClassTemplate : string := raw "
kind: StorageClass
apiVersion: storage.k8s.io/v1
metadata:
  name: kins-localvolume
  labels:
    {{ .KinsResourceLabelKey }}: `yes`
provisioner: kubernetes.io/no-provisioner
volumeBindingMode: WaitForFirstConsumer
".

Definition KinsPVTemplate : string := raw "
{{range $i, $name := .Nodes}}
apiVersion: v1
kind: PersistentVolume
metadata:
  name: {{ .UnitName }}-local-pv-{{ .Name }}
  labels:
    {{ .KinsResourceLabelKey }}: `yes`
    {{ .UnitName }}: {{ .NodeUnitSuperedge }}
spec:
  capacity:
    storage: 10Gi
  accessModes:
  - ReadWriteOnce
  persistentVolumeReclaimPolicy: Retain
  storageClassName: kins-localvolume
  hostPath:
    path: /data/edge/rancher-root
    type: DirectoryOrCreate
  nodeAffinity:
    required:
      nodeSelectorTerms:
      - matchExpressions:
        - key: kubernetes.io/hostname
          operator: In
          values:
          - {{ .Name }}
---
{{end}}
".

Definition CRIWTemplate : string := raw "
apiVersion: apps/v1
kind: DaemonSet
metadata:
  labels:
    {{ .KinsResourceLabelKey }}: `yes`
    {{ .UnitName }}: {{ .NodeUnitSuperedge }}
  name: {{ .CRIWName }}
  namespace: {{ .KinsNamespace }}
spec:
  selector:
    matchLabels:
      site.superedge.io/kins-role: cri-wrapper
  template:
    metadata:
      labels:
        site.superedge.io/kins-role: cri-wrapper
    spec:
      affinity:
        nodeAffinity:
          requiredDuringSchedulingIgnoredDuringExecution:
            nodeSelectorTerms:
            - matchExpressions:
              - key: {{ .UnitName }}
                operator: In
                values:
                - {{ .NodeUnitSuperedge }}
      hostNetwork: true
      tolerations:
      - key: `{{ .KinsTaintKey }}`
        operator: `Exists`
        effect: `NoSchedule`
      containers:
      - name: cri-wrapper
        image: {{ .KinsCRIWImage }}
        securityContext:
          privileged: true
        volumeMounts:
        - name: host-containerd-conf
          mountPath: /etc/containerd/config.toml
        - name: host-run
          mountPath: /run
        - name: host-var-run
          mountPath: /var/run
          mountPropagation: `Bidirectional`
        - name: host-containerd
          mountPath: /var/lib/containerd
        - name: host-docker
          mountPath: /var/lib/docker
        - name: host-dev
          mountPath: /dev
        - name: host-sys
          mountPath: /sys
        - name: host-cni-bin
          mountPath: /opt/cni
        - name: host-cni-conf
          mountPath: /etc/cni
        - name: host-var-lib-cni
          mountPath: /var/lib/cni
        - name: host-kubelet-log
          mountPath: /data/edge/log/pods
      volumes:
        - hostPath:
            path: /run
          name: host-run
        - hostPath:
            path: /opt/cni
          name: host-cni-bin
        - hostPath:
            path: /etc/cni
          name: host-cni-conf
        - hostPath:
            path: /var/lib/cni
          name: host-var-lib-cni
        - hostPath:
            path: /var/run
          name: host-var-run
        - name: host-dev
          hostPath:
            path: /dev
        - name: host-sys
          hostPath:
            path: /sys
        - name: host-containerd
          hostPath:
            path: /var/lib/containerd
        - name: host-docker
          hostPath:
            path: /var/lib/docker
        - hostPath:
            path: /etc/containerd/config.toml
          name: host-containerd-conf
        - name: host-kubelet-log
          hostPath:
            path: /data/edge/log/pods
".

Definition KinsServerTemplate : string := raw "
apiVersion: v1
kind: Service
metadata:
  name: {{ .KinsServerName }}-init
  namespace: {{ .KinsNamespace }}
  labels:
    {{ .KinsResourceLabelKey }}: `yes`
    {{ .UnitName }}: {{ .NodeUnitSuperedge }}
spec:
  ports:
  - port: 6443
    name: https
  clusterIP: None
  selector:
    site.superedge.io/nodeunit: {{ .UnitName }}
    site.superedge.io/kins-role: server
    site.superedge.io/server-type: init
---
apiVersion: apps/v1
kind: StatefulSet
metadata:
  labels:
    {{ .KinsResourceLabelKey }}: `yes`
    {{ .UnitName }}: {{ .NodeUnitSuperedge }}
  name: {{ .KinsServerName }}
  namespace: {{ .KinsNamespace }}
spec:
  replicas: 1
  serviceName: {{ .KinsServerName }}-init
  selector:
    matchLabels:
      site.superedge.io/nodeunit: {{ .UnitName }}
      site.superedge.io/kins-role: server
      site.superedge.io/server-type: init
  template:
    metadata:
      labels:
        site.superedge.io/nodeunit: {{ .UnitName }}
        site.superedge.io/kins-role: server
        site.superedge.io/server-type: init
      name: k3s-server
    spec:
      tolerations:
      - key: `{{ .KinsTaintKey }}`
        operator: `Exists`
        effect: `NoSchedule`
      affinity:
        nodeAffinity:
          requiredDuringSchedulingIgnoredDuringExecution:
            nodeSelectorTerms:
            - matchExpressions:
              - key: {{ .KinsRoleLabelKey }}
                operator: In
                values:
                - {{ .KinsRoleLabelServer }}
              - key: {{ .UnitName }}
                operator: In
                values:
                - {{ .NodeUnitSuperedge }}
        podAntiAffinity:
          requiredDuringSchedulingIgnoredDuringExecution:
          - labelSelector:
              matchExpressions:
              - key: {{ .KinsRoleLabelKey }}
                operator: In
                values:
                - {{ .KinsRoleLabelServer }}
                - {{ .KinsRoleLabelAgent }}
            topologyKey: kubernetes.io/hostname
      initContainers:
      - name: mkcgroup
        image: {{ .K3SServerImage }}
        imagePullPolicy: IfNotPresent
        env:
        - name: K3S_TOKEN
          valueFrom:
            secretKeyRef:
              name: {{ .KinsSecretName }}
              key: k3stoken
              optional: false
        command:
          - /bin/sh
          - -cx
          - |
            set -o pipefail
            for d in $(ls /sys/fs/cgroup)
            do
              mkdir -p /sys/fs/cgroup/$d/edgek3s
            done
        volumeMounts:
          - name: host-sys
            mountPath: /sys
          - name: rancher-root
            mountPath: /var/lib/rancher
      containers:
      - name: server
        image: {{ .K3SServerImage }}
        env:
        - name: K3S_TOKEN
          valueFrom:
            secretKeyRef:
              name: {{ .KinsSecretName }}
              key: k3stoken
              optional: false
        - name: K3S_NODE_NAME
          valueFrom:
            fieldRef:
              apiVersion: v1
              fieldPath: spec.nodeName
        securityContext:
          privileged: true
        command: [`/k3s`]
        args: 
        - server
        - --container-runtime-endpoint=/run/kins.sock
        - --flannel-backend=none
        - --disable-kube-proxy
        - --disable-cloud-controller
        - --cluster-cidr=169.254.0.0/16
        - --service-cidr={{ .ServiceCIDR }}               
        - --service-node-port-range={{ .KinsNodePortRange }}
        - --cluster-dns={{ .KinsCorednsIP }}
        - --kube-apiserver-arg=--token-auth-file=/etc/edge/known_tokens.csv
        - --kubelet-arg=--cgroup-root=/edgek3s
        - --kubelet-arg=--root-dir=/data/edge/rancher-kubelet
        - --cluster-init
        lifecycle:
          preStop:
            exec:
              command: 
                - /bin/sh
                - -c
                - |
                  set -x
                  set -o pipefail
                  rm -rf /var/lib/rancher/*
                  rm -rf /etc/rancher/*
                  rm -rf /data/edge/rancher-kubelet/*
                  rm -rf /data/edge/log/*
        ports:
        - containerPort: 6443
        volumeMounts:
        - name: host-run
          mountPath: /run
          mountPropagation: `Bidirectional`
        - name: host-dev
          mountPath: /dev
        - name: host-sys
          mountPath: /sys
          mountPropagation: `Bidirectional`
        - name: lib-modules
          mountPath: /lib/modules
          readOnly: true
        - name: host-containerd
          mountPath: /var/lib/containerd
        - name: host-docker
          mountPath: /var/lib/docker
        - name: host-kubelet-log
          mountPath: /data/edge/log/pods
        - name: k3sroot
          mountPath: /data/edge/rancher-kubelet
          mountPropagation: `Bidirectional`
        - name: rancher-root
          mountPath: /var/lib/rancher
        - name: rancher-etc
          mountPath: /etc/rancher
        - mountPath: /etc/edge/
          name: token
          readOnly: true
      volumes:
        - hostPath:
            path: /run
          name: host-run
        - hostPath:
            path: /lib/modules
          name: lib-modules
        - name: host-dev
          hostPath:
            path: /dev
        - name: host-sys
          hostPath:
            path: /sys
        - name: host-containerd
          hostPath:
            path: /var/lib/containerd
        - name: host-docker
          hostPath:
            path: /var/lib/docker
        - name: host-kubelet-log
          hostPath:
            path: /data/edge/log/pods
        - name: k3sroot
          hostPath:
            path: /data/edge/rancher-kubelet
            type: DirectoryOrCreate
        - hostPath:
            path: /data/edge/rancher-etc
          name: rancher-etc
        - secret:
            defaultMode: 420
            secretName: {{ .KinsSecretName }}
            items:
              - key: known_tokens.csv
                path: known_tokens.csv
          name: token
  volumeClaimTemplates:
  - metadata:
      name: rancher-root
    spec:
      accessModes: [ `ReadWriteOnce` ]
      storageClassName: `kins-localvolume`
      resources:
        requests:
          storage: 10Gi
".

Definition KinsServerJoinTemplate : string := raw "
apiVersion: apps/v1
kind: StatefulSet
metadata:
  labels:
    {{ .KinsResourceLabelKey }}: `yes`
    {{ .UnitName }}: {{ .NodeUnitSuperedge }}
  name: {{ .KinsServerName }}-join
  namespace: {{ .KinsNamespace }}
spec:
  podManagementPolicy: Parallel
  replicas: 2
  serviceName: {{ .KinsServerName }}-join
  selector:
    matchLabels:
      site.superedge.io/nodeunit: {{ .UnitName }}
      site.superedge.io/kins-role: server
      site.superedge.io/server-type: join      
  template:
    metadata:
      labels:
        site.superedge.io/nodeunit: {{ .UnitName }}
        site.superedge.io/kins-role: server
        site.superedge.io/server-type: join        
      name: k3s-server-join
    spec:
      tolerations:
      - key: `{{ .KinsTaintKey }}`
        operator: `Exists`
        effect: `NoSchedule`
      affinity:
        nodeAffinity:
          requiredDuringSchedulingIgnoredDuringExecution:
            nodeSelectorTerms:
            - matchExpressions:
              - key: {{ .KinsRoleLabelKey }}
                operator: In
                values:
                - {{ .KinsRoleLabelServer }}
              - key: {{ .UnitName }}
                operator: In
                values:
                - {{ .NodeUnitSuperedge }}
        podAntiAffinity:
          requiredDuringSchedulingIgnoredDuringExecution:
          - labelSelector:
              matchExpressions:
              - key: {{ .KinsRoleLabelKey }}
                operator: In
                values:
                - {{ .KinsRoleLabelServer }}
                - {{ .KinsRoleLabelAgent }}               
            topologyKey: kubernetes.io/hostname
      initContainers:
      - name: mkcgroup
        image: {{ .K3SServerImage }}
        imagePullPolicy: IfNotPresent
        command:
          - /bin/sh
          - -cx
          - |
            set -o pipefail
            for d in $(ls /sys/fs/cgroup)
            do
              mkdir -p /sys/fs/cgroup/$d/edgek3s
            done
        volumeMounts:
          - name: host-sys
            mountPath: /sys
          - name: rancher-root
            mountPath: /var/lib/rancher
      containers:
      - name: server
        image: {{ .K3SServerImage }}
        env:
        - name: K3S_TOKEN
          valueFrom:
            secretKeyRef:
              name: {{ .KinsSecretName }}
              key: k3stoken
              optional: false
        - name: K3S_NODE_NAME
          valueFrom:
            fieldRef:
              apiVersion: v1
              fieldPath: spec.nodeName
        securityContext:
          privileged: true
        command: [`/k3s`]
        args: 
        - server
        - --container-runtime-endpoint=/run/kins.sock
        - --flannel-backend=none
        - --disable-kube-proxy
        - --disable-cloud-controller
        - --cluster-cidr=169.254.0.0/16
        - --service-cidr={{ .ServiceCIDR }}               
        - --service-node-port-range={{ .KinsNodePortRange }}
        - --cluster-dns={{ .KinsCorednsIP }}
        - --kube-apiserver-arg=--token-auth-file=/etc/edge/known_tokens.csv
        - --kubelet-arg=--cgroup-root=/edgek3s
        - --kubelet-arg=--root-dir=/data/edge/rancher-kubelet
        - --server=https://{{ .KinsServerName }}-0.{{ .KinsServerName }}-init.{{ .KinsNamespace }}.svc:6443
        lifecycle: 
          preStop:
            exec:
              command: 
                - /bin/sh
                - -c
                - |
                  set -x
                  set -o pipefail
                  rm -rf /var/lib/rancher/*
                  rm -rf /etc/rancher/*
                  rm -rf /data/edge/rancher-kubelet/*
                  rm -rf /data/edge/log/*
        ports:
        - containerPort: 6443
        volumeMounts:
        - name: host-run
          mountPath: /run
          mountPropagation: `Bidirectional`
        - name: host-dev
          mountPath: /dev
        - name: host-sys
          mountPath: /sys
          mountPropagation: `Bidirectional`
        - name: lib-modules
          mountPath: /lib/modules
          readOnly: true
        - name: host-containerd
          mountPath: /var/lib/containerd
        - name: host-docker
          mountPath: /var/lib/docker
        - name: host-kubelet-log
          mountPath: /data/edge/log/pods
        - name: k3sroot
          mountPath: /data/edge/rancher-kubelet
          mountPropagation: `Bidirectional`
        - name: rancher-root
          mountPath: /var/lib/rancher
        - name: rancher-etc
          mountPath: /etc/rancher
        - mountPath: /etc/edge/
          name: token
          readOnly: true
      volumes:
        - hostPath:
            path: /run
          name: host-run
        - hostPath:
            path: /lib/modules
          name: lib-modules
        - name: host-dev
          hostPath:
            path: /dev
        - name: host-sys
          hostPath:
            path: /sys
        - name: host-containerd
          hostPath:
            path: /var/lib/containerd
        - name: host-docker
          hostPath:
            path: /var/lib/docker
        - name: host-kubelet-log
          hostPath:
            path: /data/edge/log/pods
        - name: k3sroot
          hostPath:
            path: /data/edge/rancher-kubelet
            type: DirectoryOrCreate
        - hostPath:
            path: /data/edge/rancher-etc
          name: rancher-etc
        - secret:
            defaultMode: 420
            secretName: {{ .KinsSecretName }}
            items:
              - key: known_tokens.csv
                path: known_tokens.csv
          name: token
  volumeClaimTemplates:
  - metadata:
      name: rancher-root
    spec:
      accessModes: [ `ReadWriteOnce` ]
      storageClassName: `kins-localvolume`
      resources:
        requests:
          storage: 10Gi
".

Definition KinsServiceTemplate : string := raw "
apiVersion: v1
kind: Service
metadata:
  name: {{ .KinsServerServiceName }}
  namespace: {{ .KinsNamespace }}
  labels:
    {{ .KinsResourceLabelKey }}: `yes`
    {{ .UnitName }}: {{ .NodeUnitSuperedge }}
spec:
  ports:
  - port: 443
    name: https
    targetPort: 6443
    protocol: TCP
  selector:
    site.superedge.io/nodeunit: {{ .UnitName }}
    {{ .KinsRoleLabelKey }}: {{ .KinsRoleLabelServer }}
".

Definition KinsAgentTemplate : string := raw "
apiVersion: apps/v1
kind: DaemonSet
metadata:
  labels:
    {{ .KinsResourceLabelKey }}: `yes`
    {{ .UnitName }}: {{ .NodeUnitSuperedge }}
  name: {{ .KinsAgentName }}
  namespace: {{ .KinsNamespace }}
spec:
  selector:
    matchLabels:
      site.superedge.io/kins-role: agent
  template:
    metadata:
      labels:
        site.superedge.io/kins-role: agent
      name: k3s-agent
    spec:
      tolerations:
      - key: `{{ .KinsTaintKey }}`
        operator: `Exists`
        effect: `NoSchedule`
      affinity:
        nodeAffinity:
          requiredDuringSchedulingIgnoredDuringExecution:
            nodeSelectorTerms:
            - matchExpressions:
              - key: {{ .KinsRoleLabelKey }}
                operator: NotIn
                values:
                - {{ .KinsRoleLabelServer }}
              - key: {{ .UnitName }}
                operator: In
                values:
                - {{ .NodeUnitSuperedge }}
      initContainers:
      - name: mkcgroup
        image: {{ .K3SAgentImage }}
        imagePullPolicy: IfNotPresent
        command:
          - /bin/sh
          - -c
          - |
            for d in $(ls /sys/fs/cgroup)
            do
              mkdir -p /sys/fs/cgroup/$d/edgek3s
            done
        volumeMounts:
          - name: host-sys
            mountPath: /sys
      containers:
      - name: agent
        image: {{ .K3SAgentImage }}
        securityContext:
          privileged: true
        command: [`/k3s`]
        env:
        - name: K3S_JOIN_TOKEN
          valueFrom:
            secretKeyRef:
              name: {{ .KinsSecretName }}
              key: jointoken
              optional: false
        - name: K3S_NODE_NAME
          valueFrom:
            fieldRef:
              apiVersion: v1
              fieldPath: spec.nodeName
        args: 
        - agent
        - --container-runtime-endpoint=/run/kins.sock
        - --server=https://{{ .KinsServerEndpoint }}
        - --token=$(K3S_JOIN_TOKEN)
        - --kubelet-arg=--cgroup-root=/edgek3s
        - --kubelet-arg=--root-dir=/data/edge/rancher-kubelet
        ports:
        - containerPort: 10250
        volumeMounts:
        - name: host-run
          mountPath: /run
          mountPropagation: `Bidirectional`
        - name: host-dev
          mountPath: /dev
        - name: host-sys
          mountPath: /sys
          mountPropagation: `Bidirectional`
        - name: lib-modules
          mountPath: /lib/modules
          readOnly: true
        - name: host-containerd
          mountPath: /var/lib/containerd
        - name: host-docker
          mountPath: /var/lib/docker
        - name: host-kubelet-log
          mountPath: /data/edge/log/pods
        - name: k3sroot
          mountPath: /data/edge/rancher-kubelet
          mountPropagation: `Bidirectional`
        - name: rancher-root
          mountPath: /var/lib/rancher
        - name: rancher-etc
          mountPath: /etc/rancher
      volumes:
        - hostPath:
            path: /run
          name: host-run
        - hostPath:
            path: /lib/modules
          name: lib-modules
        - name: host-dev
          hostPath:
            path: /dev
        - name: host-sys
          hostPath:
            path: /sys
        - name: host-containerd
          hostPath:
            path: /var/lib/containerd
        - name: host-docker
          hostPath:
            path: /var/lib/docker
        - name: host-kubelet-log
          hostPath:
            path: /data/edge/log/pods
        - name: k3sroot
          hostPath:
            path: /data/edge/rancher-kubelet
            type: DirectoryOrCreate
        - hostPath:
            path: /data/edge/rancher-root
          name: rancher-root
        - hostPath:
            path: /data/edge/rancher-etc
          name: rancher-etc".

Definition KinsSecretTemplate : string := raw "
apiVersion: v1
data:
  k3stoken: {{ .K3SToken }}
  jointoken: {{ .K3SJoinToken }}
  known_tokens.csv: {{ .KnowToken }}
kind: Secret
metadata:
  labels:
    {{ .KinsResourceLabelKey }}: `yes`
    {{ .UnitName }}: {{ .NodeUnitSuperedge }}
  name: {{ .KinsSecretName }}
  namespace: {{ .KinsNamespace }}
type: Opaque
".

Definition KinsConfigMapTemplate : string := raw "
apiVersion: v1
kind: ConfigMap
metadata:
  labels:
    {{ .KinsResourceLabelKey }}: `yes`
    {{ .UnitName }}: {{ .NodeUnitSuperedge }}
  name: {{ .KinsConfigMapName }}
  namespace: {{ .KinsNamespace }}
data:
  kubeconfig.conf: |
    apiVersion: v1
    kind: Config
    clusters:
    - cluster:
        insecure-skip-tls-verify: true
        server: https://{{ .KinsServiceClusterIP }}
      name: default
    contexts:
    - context:
        cluster: default
        namespace: default
        user: default
      name: default
    current-context: default
    users:
    - name: default
      user:
        token: {{ .KnowToken }}
".

Definition is_some {A : Type} (o : option A) : bool := match o with Some _ => true | None => false end.

(** All of them are templates of the kind GoTemplate.v reads. *)
Lemma manifests_parse :
  forallb (fun t => is_some (Parse t))
    [KinsStorageClassTemplate; KinsPVTemplate; CRIWTemplate; KinsServerTemplate; KinsServerJoinTemplate;
     KinsServiceTemplate; KinsAgentTemplate; KinsSecretTemplate; KinsConfigMapTemplate] = true.
Proof. vm_compute. reflexivity. Qed.
