(* ===== verification/SiteKins.v ===== *)
(** * Site manager: the cluster of a unit (site-manager/controller/unitcluster)

    A unit of autonomy level L4 or L5 gets a small cluster of its own:
    [installUnitCluster] chooses its servers and applies the manifests,
    [recoverNodeUnit] takes it down again when the level is L3.  The theorems
    bound which nodes are chosen, place the address of the cluster's DNS in
    its service network, and show what recovering does to the taints of a
    unit. *)

From Stdlib Require Import ZArith Lia Ascii String.
From stdpp Require Import base strings gmap numbers sorting list.
From S2P Require Import Prelude.
From S2P Require Import GoStd.
From S2P Require Import GoTemplate.
From S2P Require Import GoJson.
From S2P Require Import GoJsonValue.
From S2P Require Import Bitmap.
From S2P Require Import GoNet.
From S2P Require Import Sha256.
From S2P Require Import Sha1.
From S2P Require Import K8s.
From S2P Require Import Requests.
From S2P Require Import KubeClient.
From S2P Require Import KubeNode.
From S2P Require Import SiteNodes.
From S2P Require Import SiteManifests.

Local Open Scope Z_scope.
Local Open Scope go_scope.

(** ** Names and constants (common.go) *)

Definition KinsResourceNameSuffix : string := "kins".
Definition KinsUnitClusterClearAnno : string := "site.superedge.io/clear-cluster".
Definition KinsRoleLabelServer : string := "server".
Definition KinsRoleLabelAgent : string := "agent".
Definition DefaultKinsNodePortRangeStart : Z := 40000.
Definition DefaultKinsCRIWImage : string := "ccr.ccs.tencentyun.com/tkeedge/cri-w:v0.1.0".
Definition DefaultK3SImage : string := "ccr.ccs.tencentyun.com/tkeedge/k3s:v1.22.6-revison-1".
Definition AutonomyLevelL3 : string := "L3".
Definition AutonomyLevelL4 : string := "L4".
Definition AutonomyLevelL5 : string := "L5".

Definition buildKinsCRIDaemonSetName (nuName : string) : string := nuName +:+ "-cri-kins".
Definition buildKinsServerStatefulSetName (nuName : string) : string := nuName +:+ "-server-kins".
Definition buildKinsAgentStatefulSetName (nuName : string) : string := nuName +:+ "-agent-kins".
Definition buildKinsServiceName (nuName : string) : string := nuName +:+ "-svc-kins".
Definition buildKinsConfigMapName (nuName : string) : string := nuName +:+ "-cm-kins".
Definition buildKinsSecretName (nuName : string) : string := nuName +:+ "-sec-kins".

(** A parameter of the unit's cluster; empty when it is not given. *)
Definition cluster_parameter (nu : NodeUnit) (key : string) : string :=
  match nu_ClusterInfo (nu_Spec nu) with Some i => map_get (ci_Parameters i) key | None => EmptyString end.

Definition or_default (s d : string) : string := if String.eqb s EmptyString then d else s.

Definition getK3SImage (nu : NodeUnit) : string := or_default (cluster_parameter nu "k3s-image") DefaultK3SImage.
Definition getCRIWImage (nu : NodeUnit) : string := or_default (cluster_parameter nu "criw-image") DefaultKinsCRIWImage.

(** ** Addresses *)

(** [binary.BigEndian]: the first four bytes as a number, and back. *)
Definition Uint32 (l : list Z) : Z := Big.SetBytes (take 4 l).
Definition PutUint32 (x : Z) : list Z := be_bytes 4 x.

(** [(start & mask) | (mask ^ 0xffffffff)] *)
Definition lastIP (ipnet : IPNet) : Z :=
  let mask := Uint32 (net_Mask ipnet) in
  Z.lor (Z.land (Uint32 (net_IP ipnet)) mask) (Z.lxor mask (2 ^ 32 - 1)).

Definition getLastCIDRIPByIndex (ipnet : IPNet) : string := IP_String (PutUint32 (lastIP ipnet)).

(** [fmt.Sprintf(DefaultKinsServiceCIDR, n, s)] *)
Definition default_cidr (n : Z) (s : string) : string := "26." +:+ string_of (FormatInt n) +:+ ".0." +:+ s.

Definition caculateKinsServiceCIDRAndCoreDNSIP (nu : NodeUnit) (existUnitCluster : Z) : string * string :=
  let default_ := (default_cidr existUnitCluster "0/16", default_cidr existUnitCluster "255") in
  let svcCidrStr := cluster_parameter nu "service-cidr" in
  if String.eqb svcCidrStr EmptyString then default_
  else match ParseCIDR svcCidrStr with
       | None => default_
       | Some svcCidr => (svcCidrStr, getLastCIDRIPByIndex svcCidr)
       end.

Definition caculateKinsNodePortRange (nu : NodeUnit) (existUnitCluster : Z) : string :=
  let given := cluster_parameter nu "node-port-range" in
  if negb (String.eqb given EmptyString) then given
  else
    let start := DefaultKinsNodePortRangeStart + existUnitCluster * 1000 in
    string_of (FormatInt start) +:+ "-" +:+ string_of (FormatInt (start + 1000)).

(** ** Tokens *)

(** [base64.URLEncoding] *)
Definition base64_digit (x : Z) : Z :=
  if x <? 26 then 65 + x else if x <? 52 then 71 + x else if x <? 62 then x - 4 else if x =? 62 then 45 else 95.

Fixpoint base64_bytes (bs : list Z) : list Z :=
  match bs with
  | [] => []
  | [a] => [base64_digit (a / 4); base64_digit (a mod 4 * 16); 61; 61]
  | [a; b] => [base64_digit (a / 4); base64_digit (a mod 4 * 16 + b / 16); base64_digit (b mod 16 * 4); 61]
  | a :: b :: c :: bs =>
      base64_digit (a / 4) :: base64_digit (a mod 4 * 16 + b / 16) :: base64_digit (b mod 16 * 4 + c / 64)
      :: base64_digit (c mod 64) :: base64_bytes bs
  end.

Definition base64_url (s : string) : string := string_of (base64_bytes (bytes_of s)).

Example base64_url_vectors :
  base64_url <$> ["f"; "fo"; "foo"; "foobar"; "??>"]%string = ["Zg=="; "Zm8="; "Zm9v"; "Zm9vYmFy"; "Pz8-"]%string.
Proof. vm_compute. reflexivity. Qed.

(** The random strings are arguments. *)
Definition generateKinsSecretK3SToken (nuName rand10 : string) : string := base64_url (sha1_hex (nuName +:+ rand10)).
Definition generateKinsSecretKnownToken (rand32 : string) : string := rand32 +:+ ",admin,admin,system:masters".

(** ** Installing and recovering (kins.go) *)

Section Kins.
Context `{R : GoRange} `{L : LabelSelectors} {B : Type}.
(** What the manifests' YAML decodes to, an object without content, how
    selectors and errors print, and the node lister. *)
Context (UnmarshalKind : string -> string + string) (DecodeInto : Kind -> string -> Object B + string) (bare : B).
Context (SelectorString : gmap string string -> string) (error_text : api_error -> string).
Context (nodes : gmap string Node).
Implicit Types (nu : NodeUnit).

Definition from_kube (e : kube_error) : api_error :=
  match e with
  | Api e => e
  | Wrap msg e => OtherError (msg +:+ ": " +:+ error_text e)
  | Message msg => OtherError msg
  end.

(** [kubectl.CreateResourceWithFile], on the same client. *)
Definition apply_manifest (yamlStr : string) (option_ : list (string * tvalue)) : site B unit :=
  map_error from_kube (lift Kube (fun _ a => a) (CreateResourceWithFile UnmarshalKind DecodeInto yamlStr (Some (TMap option_)))).

Notation str := TString.

(** *** Servers *)

Definition is_server (n : Node) : bool := String.eqb (map_get (Labels (node_meta n)) KinsRoleLabelKey) KinsRoleLabelServer.

Definition apply_server_label (name : string) : site B unit := apply_node_labels name {[ KinsRoleLabelKey := KinsRoleLabelServer ]}.

(** Label ready nodes that [skip] does not pass over until there are [want]
    servers. *)
Fixpoint label_ready (skip : Node -> bool) (want : nat) (serverNodes : list string) (readyNodes : list string) : site B (list string) :=
  match readyNodes with
  | [] => ok serverNodes
  | name :: readyNodes =>
      match nodes !! name with
      | None => label_ready skip want serverNodes readyNodes
      | Some n =>
          if skip n || negb (IsReadyNode n) then label_ready skip want serverNodes readyNodes
          else
            do! apply_server_label name in
            let serverNodes := serverNodes ++ [name] in
            if bool_decide (length serverNodes = want) then ok serverNodes
            else label_ready skip want serverNodes readyNodes
      end
  end.

Definition labelServerNode nu : site B (list string) :=
  match GetNodesByUnit nodes nu with
  | inr err => fail err
  | inl nodeMap =>
      let serverNodes := (fun kv => Name (node_meta (snd kv))) <$> filter (fun kv => is_server (snd kv) = true) (go_range nodeMap) in
      let level := nu_AutonomyLevel (nu_Spec nu) in
      let readyNodes := sl (nu_ReadyNodes (nu_Status nu)) in
      if String.eqb level AutonomyLevelL4 && (length serverNodes <? 1)%nat then
        if (length readyNodes <? 1)%nat then fail (OtherError "Insufficient Ready Node")
        else
          let! serverNodes := label_ready (fun _ => false) 1 serverNodes readyNodes in
          if (length serverNodes <? 1)%nat then fail (OtherError "the number of available nodes  is less than one") else ok serverNodes
      else if String.eqb level AutonomyLevelL5 && (length serverNodes <? 3)%nat then
        if (length readyNodes <? 3)%nat then fail (OtherError "Insufficient Ready Node")
        else
          let! serverNodes := label_ready is_server 3 serverNodes readyNodes in
          if (length serverNodes <? 3)%nat
          then fail (OtherError ("the number of available nodes [" +:+ join_with " " serverNodes +:+ "] is less than three"))
          else ok serverNodes
      else ok serverNodes
  end.

(** *** Objects *)

Definition createServerStorage nu (serverNodes : list string) : site B unit :=
  do! apply_manifest KinsStorageClassTemplate [("KinsResourceLabelKey", str KinsResourceLabelKey)] in
  apply_manifest KinsPVTemplate
    [("Nodes", TSlice ((fun n => TStruct [("Name", str n); ("KinsResourceLabelKey", str KinsResourceLabelKey);
        ("UnitName", str (unit_name nu)); ("NodeUnitSuperedge", str NodeUnitSuperedge)]) <$> serverNodes))].

Definition createCRIW nu : site B unit :=
  apply_manifest CRIWTemplate
    [("KinsResourceLabelKey", str KinsResourceLabelKey); ("CRIWName", str (buildKinsCRIDaemonSetName (unit_name nu)));
     ("KinsNamespace", str DefaultKinsNamespace); ("UnitName", str (unit_name nu)); ("NodeUnitSuperedge", str NodeUnitSuperedge);
     ("KinsTaintKey", str KinsResourceNameSuffix); ("KinsCRIWImage", str (getCRIWImage nu))].

Definition createServer nu : site B unit :=
  let '(uclusterServiceCIDR, uclusterDNSIP) := caculateKinsServiceCIDRAndCoreDNSIP nu 0 in
  let serverOption :=
    [("KinsResourceLabelKey", str KinsResourceLabelKey); ("KinsServerName", str (buildKinsServerStatefulSetName (unit_name nu)));
     ("KinsNamespace", str DefaultKinsNamespace); ("KinsTaintKey", str KinsResourceNameSuffix);
     ("KinsRoleLabelKey", str KinsRoleLabelKey); ("KinsRoleLabelServer", str KinsRoleLabelServer);
     ("KinsRoleLabelAgent", str KinsRoleLabelAgent); ("UnitName", str (unit_name nu)); ("NodeUnitSuperedge", str NodeUnitSuperedge);
     ("K3SServerImage", str (getK3SImage nu)); ("KinsSecretName", str (buildKinsSecretName (unit_name nu)));
     ("ServiceCIDR", str uclusterServiceCIDR); ("KinsNodePortRange", str (caculateKinsNodePortRange nu 0));
     ("KinsCorednsIP", str uclusterDNSIP)] in
  do! apply_manifest KinsServerTemplate serverOption in
  do! (if String.eqb (nu_AutonomyLevel (nu_Spec nu)) AutonomyLevelL5 then apply_manifest KinsServerJoinTemplate serverOption else ok tt) in
  apply_manifest KinsServiceTemplate
    [("KinsResourceLabelKey", str KinsResourceLabelKey); ("KinsServerServiceName", str (buildKinsServiceName (unit_name nu)));
     ("KinsNamespace", str DefaultKinsNamespace); ("KinsRoleLabelKey", str KinsRoleLabelKey);
     ("KinsRoleLabelServer", str KinsRoleLabelServer); ("UnitName", str (unit_name nu)); ("NodeUnitSuperedge", str NodeUnitSuperedge)].

Definition createAgent nu : site B unit :=
  apply_manifest KinsAgentTemplate
    [("KinsResourceLabelKey", str KinsResourceLabelKey); ("KinsAgentName", str (buildKinsAgentStatefulSetName (unit_name nu)));
     ("KinsNamespace", str DefaultKinsNamespace); ("KinsTaintKey", str KinsResourceNameSuffix);
     ("KinsRoleLabelKey", str KinsRoleLabelKey); ("KinsRoleLabelServer", str KinsRoleLabelServer);
     ("UnitName", str (unit_name nu)); ("NodeUnitSuperedge", str NodeUnitSuperedge); ("K3SAgentImage", str (getK3SImage nu));
     ("KinsSecretName", str (buildKinsSecretName (unit_name nu))); ("KinsServerEndpoint", str (buildKinsServiceName (unit_name nu)))].

(** Create what is missing; [found] is what to go on with when it is there. *)
Definition get_or_create {A : Type} (k : Kind) (name : string) (found : Object B -> A) (made : A) (manifest_ : site B unit) : site B A :=
  reply! r := kube_get k DefaultKinsNamespace name in
  match r with
  | inl o => ok (found o)
  | inr NotFound => do! manifest_ in ok made
  | inr err => fail err
  end.

Definition creatSecret (rand32 rand10 : string) nu : site B unit :=
  let knowToken := generateKinsSecretKnownToken rand32 in
  let k3stoken := generateKinsSecretK3SToken (unit_name nu) rand10 in
  let! knowToken := get_or_create KSecret (buildKinsSecretName (unit_name nu)) (fun secret => map_get (o_Data secret) "known_tokens.csv")
    knowToken (apply_manifest KinsSecretTemplate
      [("KinsResourceLabelKey", str KinsResourceLabelKey); ("KinsSecretName", str (buildKinsSecretName (unit_name nu)));
       ("UnitName", str (unit_name nu)); ("NodeUnitSuperedge", str NodeUnitSuperedge); ("KinsNamespace", str DefaultKinsNamespace);
       ("K3SToken", str k3stoken); ("K3SJoinToken", str k3stoken); ("KnowToken", str (base64_url knowToken))]) in
  get_or_create KConfigMap (buildKinsConfigMapName (unit_name nu)) (fun _ => tt) tt
    (apply_manifest KinsConfigMapTemplate
      [("KinsResourceLabelKey", str KinsResourceLabelKey); ("KinsConfigMapName", str (buildKinsConfigMapName (unit_name nu)));
       ("UnitName", str (unit_name nu)); ("NodeUnitSuperedge", str NodeUnitSuperedge); ("KinsNamespace", str DefaultKinsNamespace);
       ("KinsServiceClusterIP", str (default_cidr 0 "1")); ("KnowToken", str (default EmptyString (head (split_on ","%char knowToken))))]).

(** *** The unit's own settings *)

Definition NoSchedule : string := "NoSchedule".

Definition with_cluster (nu : NodeUnit) (taints : gslice Taint) (ref : option ObjectReference) : NodeUnit :=
  let nu := with_SetNode nu (mkSetNode (set_Labels (unit_sets nu)) (set_Annotations (unit_sets nu)) taints) in
  let sp := nu_Spec nu in
  with_unit_spec nu (mkNodeUnitSpec (nu_Type sp) (nu_Unschedulable sp) (nu_Nodes sp) (nu_Selector sp) (nu_SetNode sp)
    (nu_AutonomyLevel sp) ref (nu_ClusterInfo sp)).

Definition has_kins_taint nu : bool :=
  existsb (fun t => String.eqb (tt_Key t) KinsResourceNameSuffix && String.eqb (tt_Effect t) NoSchedule) (sl (set_Taints (unit_sets nu))).

Definition kins_config_ref (nuName : string) : ObjectReference :=
  mkObjectReference "ConfigMap" DefaultKinsNamespace (buildKinsConfigMapName nuName) EmptyString EmptyString EmptyString EmptyString.

Definition mark_installed nu : site B unit :=
  if negb (has_kins_taint nu) || match nu_CredentialRef (nu_Spec nu) with None => true | Some _ => false end then
    write_unit (with_cluster nu
      (Some (sl (set_Taints (unit_sets nu)) ++ [mkTaint KinsResourceNameSuffix EmptyString NoSchedule]))
      (Some (kins_config_ref (unit_name nu))))
  else ok tt.

Definition ensure_namespace : site B unit :=
  reply! r := kube_get KNamespace EmptyString DefaultKinsNamespace in
  match r with
  | inl _ => ok tt
  | inr NotFound => kube_create (mkObject KNamespace EmptyString DefaultKinsNamespace EmptyString None None bare)
  | inr err => fail err
  end.

Definition installUnitCluster (rand32 rand10 : string) nu : site B unit :=
  do! ensure_namespace in
  let! serverNodes := labelServerNode nu in
  do! createServerStorage nu serverNodes in
  do! createCRIW nu in
  do! createServer nu in
  do! createAgent nu in
  do! creatSecret rand32 rand10 nu in
  mark_installed nu.

(** *** Recovering *)

(** Patching the finalizers away; an error is only logged. *)
Definition release_all (k : Kind) (objs : list (Object B)) : site B unit :=
  each (fun o => reply! _r := drop_finalizers k (o_Namespace o) (o_Name o) in ok tt) objs.

(** [if err != nil && !IsNotFound]: the list is then empty. *)
Definition list_or_none (k : Kind) (namespace selector : string) : site B (list (Object B)) :=
  reply! r := kube_list k namespace selector in
  match r with inl l => ok l | inr NotFound => ok [] | inr err => fail err end.

Definition drop_roles (names : list string) : site B unit :=
  each (fun name =>
    match nodes !! name with
    | None => ok tt
    | Some n => match object_labels (node_meta n) !! KinsRoleLabelKey with None => ok tt | Some _ => drop_role_label name end
    end) names.

(** The taints that are kept: not the cluster's key and not its effect. *)
Definition recovered_taints nu : gslice Taint :=
  nil_if_empty (filter (fun t => tt_Key t <> KinsResourceNameSuffix /\ tt_Effect t <> NoSchedule) (sl (set_Taints (unit_sets nu)))).

Definition mark_recovered nu : site B unit :=
  if bool_decide (recovered_taints nu <> set_Taints (unit_sets nu)) || bool_decide (nu_CredentialRef (nu_Spec nu) <> None)
  then write_unit (with_cluster nu (recovered_taints nu) None) else ok tt.

Definition recoverNodeUnit nu : site B unit :=
  let unitResourceLabel := SelectorString (<[unit_name nu := NodeUnitSuperedge]> {[ KinsResourceLabelKey := "yes"%string ]}) in
  let pvcLabel := SelectorString {[ "site.superedge.io/nodeunit"%string := unit_name nu ]} in
  do! unless_gone (delete_collection KDaemonSet DefaultKinsNamespace unitResourceLabel EmptyString) in
  do! unless_gone (delete_collection KStatefulSet DefaultKinsNamespace unitResourceLabel EmptyString) in
  do! unless_gone (kube_delete KService DefaultKinsNamespace (buildKinsServiceName (unit_name nu))) in
  do! unless_gone (kube_delete KService DefaultKinsNamespace (buildKinsServerStatefulSetName (unit_name nu) +:+ "-init")) in
  do! (if String.eqb (map_get (Annotations (nu_meta nu)) KinsUnitClusterClearAnno) "yes"
       then unless_gone (kube_delete KSecret DefaultKinsNamespace (buildKinsSecretName (unit_name nu))) else ok tt) in
  do! unless_gone (delete_collection KConfigMap DefaultKinsNamespace unitResourceLabel EmptyString) in
  let! pvs := list_or_none KPersistentVolume EmptyString unitResourceLabel in
  do! release_all KPersistentVolume pvs in
  do! unless_gone (delete_collection KPersistentVolume EmptyString unitResourceLabel EmptyString) in
  let! pvcs := list_or_none KPersistentVolumeClaim DefaultKinsNamespace pvcLabel in
  do! release_all KPersistentVolumeClaim pvcs in
  do! unless_gone (delete_collection KPersistentVolumeClaim DefaultKinsNamespace pvcLabel EmptyString) in
  do! drop_roles (sl (nu_Nodes (nu_Spec nu))) in
  mark_recovered nu.

Definition ReconcileUnitCluster (rand32 rand10 : string) nu : site B unit :=
  let alevel := nu_AutonomyLevel (nu_Spec nu) in
  if String.eqb alevel AutonomyLevelL3 then recoverNodeUnit nu
  else if String.eqb alevel AutonomyLevelL4 || String.eqb alevel AutonomyLevelL5 then installUnitCluster rand32 rand10 nu
  else ok tt.

End Kins.

(** ** What installing and recovering do to nodes *)

Section KinsRequests.
Context `{R : GoRange} `{L : LabelSelectors} {B : Type}.
Context (UnmarshalKind : string -> string + string) (DecodeInto : Kind -> string -> Object B + string) (bare : B).
Context (SelectorString : gmap string string -> string) (error_text : api_error -> string).
Context (nodes : gmap string Node).
Implicit Types (nu : NodeUnit).

(** Requests about the unit's cluster: of the nodes only the role changes, and
    units and groups are left alone. *)
Definition kins_request (q : site_request B) : Prop :=
  match q with
  | ApplyNodeLabels _ labels => delete KinsRoleLabelKey labels = ∅
  | DropRoleLabel _ | DropFinalizers _ _ _ | DeleteCollection _ _ _ _ | Kube _ => True
  | _ => False
  end.

(** A property of these requests, and of writing the unit with other taints
    and another reference. *)
Context (P : site_request B -> Prop) (Hkins : forall q, kins_request q -> P q).

Local Notation only := (all_requests P).

Local Ltac request := apply all_call, Hkins; exact I.

Lemma only_apply_manifest y o : only (apply_manifest UnmarshalKind DecodeInto error_text y o).
Proof. apply all_map_error, all_lift, all_of_all. intros q. by apply Hkins. Qed.
Lemma only_delete_collection k ns l f : only (delete_collection k ns l f).
Proof. request. Qed.
Lemma only_kube_delete k ns n : only (kube_delete k ns n).
Proof. request. Qed.
Lemma only_kube_get k ns n : only (kube_get k ns n).
Proof. request. Qed.
Lemma only_kube_create o : only (kube_create o).
Proof. request. Qed.
Lemma only_drop_finalizers k ns n : only (drop_finalizers k ns n).
Proof. request. Qed.
Lemma only_drop_role_label n : only (drop_role_label n).
Proof. request. Qed.
Lemma only_server_label n : only (apply_server_label n).
Proof. apply all_call, Hkins, delete_singleton_eq. Qed.

Lemma only_list_or_none k ns sel : only (list_or_none k ns sel).
Proof. apply all_bind; [request|]. by intros [l|[]]. Qed.

Lemma only_release_all k objs : only (release_all k objs).
Proof. apply all_each. intros o _. apply all_bind; [apply only_drop_finalizers|done]. Qed.

Lemma only_drop_roles names : only (drop_roles nodes names).
Proof.
  apply all_each. intros n _. destruct (nodes !! n) as [x|]; [|done].
  destruct (_ !! KinsRoleLabelKey); [apply only_drop_role_label|done].
Qed.

Section Unit.
Context nu (Hunit : forall taints ref, P (WriteUnit (with_cluster nu taints ref))).

Lemma only_mark_recovered : only (mark_recovered nu).
Proof. unfold mark_recovered. destruct (_ || _); [by apply all_call|done]. Qed.


Lemma recoverNodeUnit_requests : only (recoverNodeUnit SelectorString nodes nu).
Proof.
  unfold recoverNodeUnit. cbv zeta.
  repeat first
    [ apply all_andthen; [|intros ?] | apply all_unless_gone | apply only_delete_collection | apply only_kube_delete
    | apply only_list_or_none | apply only_release_all | apply only_drop_roles | apply only_mark_recovered ].
  destruct (String.eqb _ _); [apply all_unless_gone, only_kube_delete|done].
Qed.

Lemma label_ready_requests skip want l names : only (label_ready nodes skip want l names).
Proof.
  revert l. induction names as [|n names IH]; intros l; [done|]. cbn [label_ready].
  destruct (nodes !! n) as [x|]; [|apply IH]. destruct (_ || _); [apply IH|].
  apply all_andthen; [apply only_server_label|]. intros _. case_bool_decide; [done|apply IH].
Qed.

Lemma labelServerNode_requests : only (labelServerNode nodes nu).
Proof.
  unfold labelServerNode. destruct (GetNodesByUnit nodes nu) as [m|e]; [|done].
  destruct (_ && _); [|destruct (_ && _); [|done]]; destruct (_ <? _)%nat; try done;
    (apply all_andthen; [apply label_ready_requests|]); intros l; by destruct (_ <? _)%nat.
Qed.

Lemma get_or_create_requests {A : Type} k n (found : Object B -> A) made m : only m -> only (get_or_create k n found made m).
Proof. intros Hm. apply all_bind; [apply only_kube_get|]. intros [o|[]]; try done. by apply all_andthen. Qed.

Lemma installUnitCluster_requests r32 r10 :
  only (installUnitCluster UnmarshalKind DecodeInto bare error_text nodes r32 r10 nu).
Proof.
  unfold installUnitCluster, ensure_namespace, createServerStorage, createCRIW, createServer, createAgent, creatSecret, mark_installed.
  destruct (caculateKinsServiceCIDRAndCoreDNSIP nu 0) as [cidr dns].
  repeat first
    [ apply all_andthen; [|intros ?] | apply labelServerNode_requests | apply only_apply_manifest | apply get_or_create_requests ].
  - apply all_bind; [apply only_kube_get|]. intros [o|[]]; try done. apply only_kube_create.
  - destruct (String.eqb _ _); [apply only_apply_manifest|done].
  - destruct (_ || _); [by apply all_call|done].
Qed.

Lemma ReconcileUnitCluster_requests r32 r10 :
  only (ReconcileUnitCluster UnmarshalKind DecodeInto bare SelectorString error_text nodes r32 r10 nu).
Proof.
  unfold ReconcileUnitCluster. destruct (String.eqb _ _); [apply recoverNodeUnit_requests|].
  destruct (_ || _); [apply installUnitCluster_requests|done].
Qed.

End Unit.
End KinsRequests.

(** ** The address of the cluster's DNS *)

Lemma SetBytes_be_bytes n x : 0 <= x -> Big.SetBytes (be_bytes n x) = x mod 256 ^ Z.of_nat n.
Proof.
  revert x. induction n as [|n IH]; intros x Hx; [by rewrite Z.mod_1_r|]. cbn [be_bytes].
  rewrite SetBytes_snoc, IH by (apply Z.div_pos; lia). rewrite Nat2Z.inj_succ, Z.pow_succ_r by lia.
  rewrite Z.rem_mul_r by (try apply Z.pow_nonzero; lia). lia.
Qed.

Lemma be_bytes_v4 x : v4_addr (be_bytes 4 x).
Proof. split; [done|]. unfold byte_list. repeat constructor; apply Z.mod_pos_bound; lia. Qed.

Lemma host_mask h : 0 <= h <= 32 -> Z.lxor (2 ^ 32 - 2 ^ h) (2 ^ 32 - 1) = 2 ^ h - 1.
Proof.
  intros Hh. assert (Forall (fun h => bool_decide (Z.lxor (2 ^ 32 - 2 ^ h) (2 ^ 32 - 1) = 2 ^ h - 1) = true) (seqZ 0 33)) as H.
  { apply (bool_decide_unpack _). vm_compute. exact I. }
  rewrite Forall_forall in H. specialize (H h ltac:(apply elem_of_seqZ; lia)). by apply bool_decide_eq_true in H.
Qed.

Lemma lastIP_v4 n ones : v4_net n ones -> lastIP n = Big.SetBytes (net_IP n) + 2 ^ (32 - ones) - 1.
Proof.
  intros (Ho & Hmask & Hb & Hlen & Hhost). destruct (CIDRMask_32 ones Ho) as (Hmb & Hml & Hmv & _).
  unfold lastIP, Uint32. rewrite Hmask, !take_ge by lia. rewrite Hmv, host_mask by lia.
  pose proof (SetBytes_range _ Hb) as Hr. rewrite Hlen in Hr. change (256 ^ Z.of_nat 4) with (2 ^ 32) in Hr.
  rewrite land_mask by lia. assert (0 < 2 ^ (32 - ones)) by (apply Z.pow_pos_nonneg; lia).
  assert (Big.SetBytes (net_IP n) / 2 ^ (32 - ones) * 2 ^ (32 - ones) = Big.SetBytes (net_IP n)) as ->.
  { pose proof (Z.div_mod (Big.SetBytes (net_IP n)) (2 ^ (32 - ones)) ltac:(lia)). lia. }
  pose proof (Z.add_lor_land (Big.SetBytes (net_IP n)) (2 ^ (32 - ones) - 1)) as Hsum.
  replace (2 ^ (32 - ones) - 1) with (Z.ones (32 - ones)) in * by (rewrite Z.ones_equiv; lia).
  rewrite Z.land_ones in Hsum by lia. pose proof (Z.ones_equiv (32 - ones)). lia.
Qed.

(** C33: when a unit's cluster is given an IPv4 service network, the address of
    its DNS is the last one of that network: it lies inside. *)
Theorem dns_in_service_cidr (nu : NodeUnit) (k ones : Z) (s : string) (n : IPNet)
  (Hs : cluster_parameter nu "service-cidr" = s) (Hne : s <> EmptyString)
  (Hparse : ParseCIDR s = Some n) (Hv4 : v4_net n ones) :
  let ip := PutUint32 (lastIP n) in
  caculateKinsServiceCIDRAndCoreDNSIP nu k = (s, IP_String ip)
  /\ Contains n ip = true /\ Big.SetBytes ip = Big.SetBytes (net_IP n) + 2 ^ (32 - ones) - 1.
Proof.
  pose proof (lastIP_v4 n ones Hv4) as Hlast. pose proof Hv4 as (Ho & _ & Hb & Hlen & _).
  pose proof (SetBytes_range _ Hb) as Hr. rewrite Hlen in Hr. change (256 ^ Z.of_nat 4) with (2 ^ 32) in Hr.
  assert (0 < 2 ^ (32 - ones)) by (apply Z.pow_pos_nonneg; lia).
  assert (lastIP n < 2 ^ 32) as Hlt.
  { rewrite Hlast. destruct Hv4 as (_ & _ & _ & _ & Hhost). pose proof (Z.div_mod (Big.SetBytes (net_IP n)) (2 ^ (32 - ones)) ltac:(lia)).
    assert (2 ^ 32 = 2 ^ ones * 2 ^ (32 - ones)) as Hp.
    { rewrite <- Z.pow_add_r by lia. by replace (ones + (32 - ones)) with 32 by lia. }
    set (d := 2 ^ (32 - ones)) in *. set (N := Big.SetBytes (net_IP n) / d) in *.
    assert (N < 2 ^ ones) by (apply (Z.mul_lt_mono_pos_l d); lia).
    assert (d * (N + 1) <= d * 2 ^ ones) by (apply Z.mul_le_mono_nonneg_l; lia). lia. }
  assert (Big.SetBytes (PutUint32 (lastIP n)) = lastIP n) as Hip.
  { unfold PutUint32. rewrite SetBytes_be_bytes by lia. apply Z.mod_small. change (256 ^ Z.of_nat 4) with (2 ^ 32). lia. }
  split_and!.
  - unfold caculateKinsServiceCIDRAndCoreDNSIP. rewrite Hs, (proj2 (String.eqb_neq _ _)) by done. by rewrite Hparse.
  - apply (Contains_v4 n ones); [done|apply be_bytes_v4|]. rewrite Hip. lia.
  - by rewrite Hip.
Qed.

Definition ex_unit (name : string) (sp : NodeUnitSpec) : NodeUnit :=
  mkNodeUnit (named EmptyString name) [] sp
    (mkNodeUnitStatus EmptyString None None (mkUnitClusterStatus EmptyString EmptyString None EmptyString)).

Definition ex_cidr_unit : NodeUnit :=
  ex_unit "u" (mkNodeUnitSpec "edge" false None None (mkSetNode None None None) "L4" None
    (Some (mkUnitClusterInfo EmptyString (Some {[ "service-cidr"%string := "10.43.7.0/20"%string ]})))).

Lemma dns_in_service_cidr_witness :
  let n := mkIPNet [10; 43; 0; 0] [255; 255; 240; 0] in
  let ip := PutUint32 (lastIP n) in
  caculateKinsServiceCIDRAndCoreDNSIP ex_cidr_unit 0 = ("10.43.7.0/20", IP_String ip)%string
  /\ Contains n ip = true /\ Big.SetBytes ip = Big.SetBytes (net_IP n) + 2 ^ (32 - 20) - 1.
Proof.
  apply (dns_in_service_cidr ex_cidr_unit 0 20 "10.43.7.0/20" (mkIPNet [10; 43; 0; 0] [255; 255; 240; 0])).
  - vm_compute. reflexivity.
  - done.
  - vm_compute. reflexivity.
  - repeat split; [lia|lia|repeat constructor; lia].
Defined.

(** Of an IPv6 network the first four bytes are taken for the address. *)
Example dns_of_v6 :
  caculateKinsServiceCIDRAndCoreDNSIP
    (ex_unit "u" (mkNodeUnitSpec "edge" false None None (mkSetNode None None None) "L4" None
      (Some (mkUnitClusterInfo EmptyString (Some {[ "service-cidr"%string := "fd00:10::/108"%string ]}))))) 0
  = ("fd00:10::/108", "253.0.0.16")%string.
Proof. vm_compute. reflexivity. Qed.

(** ** The servers of a cluster *)

Section Servers.
Context `{R : GoRange} `{L : LabelSelectors} {B S : Type}.
Context (serve : forall q : site_request B, S -> S * (site_answer q + api_error)) (nodes : gmap string Node).
Implicit Types (nu : NodeUnit).

Definition role_label : gmap string string := {[ KinsRoleLabelKey := KinsRoleLabelServer ]}.

(** A node of the status that is still there, is ready and not passed over. *)
Definition eligible (skip : Node -> bool) (name : string) : bool :=
  match nodes !! name with Some n => negb (skip n) && IsReadyNode n | None => false end.

(** The server takes every label. *)
Context (Hacc : forall name s, snd (serve (ApplyNodeLabels name role_label) s) = inl tt).

Lemma label_ready_exact skip want names l s : (length l < want)%nat ->
  let chosen := take (want - length l) (filter (fun n => eligible skip n = true) names) in
  wp serve (label_ready nodes skip want l names)
    (fun _ t r => r = inl (l ++ chosen) /\ t = (fun n => ApplyNodeLabels n role_label) <$> chosen) s.
Proof.
  cbv zeta. revert l s. induction names as [|name names IH]; intros l s Hl; cbn [label_ready].
  { rewrite filter_nil, take_nil. apply wp_ok. by rewrite app_nil_r. }
  rewrite filter_cons. destruct (decide (eligible skip name = true)) as [He|He]; unfold eligible in He.
  2:{ destruct (nodes !! name) as [n|]; [|by apply IH]. destruct (skip n); [by apply IH|]. destruct (IsReadyNode n); [done|by apply IH]. }
  destruct (nodes !! name) as [n|]; [|done]. apply andb_true_iff in He as [->%negb_true_iff ->]. cbn [negb orb].
  apply wp_andthen. unfold apply_server_label, apply_node_labels.
  apply (wp_call serve (ApplyNodeLabels name role_label)). rewrite Hacc.
  replace (want - length l)%nat with (Datatypes.S (want - length (l ++ [name])))%nat by (rewrite length_app; simpl; lia).
  cbn [take fmap list_fmap]. case_bool_decide as Hw.
  - rewrite Hw, Nat.sub_diag. cbn [take]. by apply wp_ok.
  - eapply wp_mono; [apply IH; rewrite length_app in *; simpl in *; lia|].
    cbn beta. intros s' t r [-> ->]. by rewrite <- app_assoc.
Qed.

(** How many servers a level asks for, and which ready nodes it passes over. *)
Definition wanted (level : string) : option (nat * (Node -> bool)) :=
  if String.eqb level AutonomyLevelL4 then Some (1%nat, fun _ => false)
  else if String.eqb level AutonomyLevelL5 then Some (3%nat, is_server) else None.

Definition labelled_servers (nodeMap : gmap string Node) : list string :=
  (fun kv => Name (node_meta (snd kv))) <$> filter (fun kv => is_server (snd kv) = true) (go_range nodeMap).

(** The servers of a unit's cluster are its labelled nodes, and, when
    these are fewer than its level asks for, the first ready nodes of its
    status, just as many as are missing, each of which is labelled.  It is an
    error when the status names fewer ready nodes than the level asks for, or
    too few of them can be taken. *)
Theorem labelServerNode_chooses (nu : NodeUnit) (nodeMap : gmap string Node) (want : nat) (skip : Node -> bool) (s : S)
  (Hmap : GetNodesByUnit nodes nu = inl nodeMap) (Hlevel : wanted (nu_AutonomyLevel (nu_Spec nu)) = Some (want, skip)) :
  let have := labelled_servers nodeMap in
  let ready := sl (nu_ReadyNodes (nu_Status nu)) in
  let chosen := take (want - length have) (filter (fun n => eligible skip n = true) ready) in
  wp serve (labelServerNode nodes nu) (fun _ t r =>
    if decide (want <= length have \/ (want <= length ready /\ want <= length (have ++ chosen)))%nat
    then r = inl (have ++ chosen) /\ t = (fun n => ApplyNodeLabels n role_label) <$> chosen
    else exists err, r = inr err) s.
Proof.
  cbv zeta. unfold labelServerNode. rewrite Hmap. fold (labelled_servers nodeMap).
  set (have := labelled_servers nodeMap). set (ready := sl (nu_ReadyNodes (nu_Status nu))).
  assert (forall e e', wp serve
    (if (length have <? want)%nat then
       if (length ready <? want)%nat then fail e
       else andthen (label_ready nodes skip want have ready)
              (fun l => if (length l <? want)%nat then fail (e' l) else ok l)
     else ok have)
    (fun _ t r =>
      if decide (want <= length have \/ (want <= length ready
        /\ want <= length (have ++ take (want - length have) (filter (fun n => eligible skip n = true) ready))))%nat
      then r = inl (have ++ take (want - length have) (filter (fun n => eligible skip n = true) ready))
        /\ t = (fun n => ApplyNodeLabels n role_label) <$> take (want - length have) (filter (fun n => eligible skip n = true) ready)
      else exists err, r = inr err) s) as Hgen.
  { intros e e'. destruct (Nat.ltb_spec (length have) want) as [Hlt|Hge].
    2:{ apply wp_ok. rewrite decide_True by by left. replace (want - length have)%nat with 0%nat by lia. by rewrite app_nil_r. }
    destruct (Nat.ltb_spec (length ready) want) as [Hr|Hr].
    { apply wp_fail. rewrite decide_False by lia. eauto. }
    apply wp_andthen. eapply wp_mono; [by apply label_ready_exact|]. cbn beta. intros s' t r [-> ->].
    set (new := take _ _). destruct (Nat.ltb_spec (length (have ++ new)) want) as [Hl|Hl].
    - apply wp_fail. rewrite decide_False by lia. eauto.
    - apply wp_ok. rewrite decide_True by lia. by rewrite app_nil_r. }
  unfold wanted in Hlevel. destruct (String.eqb (nu_AutonomyLevel (nu_Spec nu)) AutonomyLevelL4) eqn:E4.
  - simplify_eq. apply String.eqb_eq in E4. rewrite E4. cbn [andb].
    change (String.eqb AutonomyLevelL4 AutonomyLevelL5) with false. cbn [andb]. apply (Hgen _ (fun _ => _)).
  - destruct (String.eqb (nu_AutonomyLevel (nu_Spec nu)) AutonomyLevelL5); [|done]. simplify_eq. cbn [andb]. apply (Hgen _ (fun l => _)).
Qed.

End Servers.

(** A server that takes everything, has nothing and keeps count. *)
Definition count_serve {B : Type} (q : site_request B) (s : nat) : nat * (site_answer q + api_error) :=
  (S s,
   match q return site_answer q + api_error with
   | GetUnit _ => inr NotFound
   | Kube (GetObject _ _ _) => inr NotFound
   | Kube (ListObjects _ _ _) => inl []
   | Kube (Create _) | Kube (Update _) | Kube (Delete _ _ _) => inl tt
   | WriteNode _ | ApplyNodeLabels _ _ | DropRoleLabel _ | CreateUnit _ | WriteUnit _ | WriteUnitStatus _ | WriteGroup _
   | WriteGroupStatus _ | Record_ _ _ _ | QueueDeletion _ | DropFinalizers _ _ _ | DeleteCollection _ _ _ _ => inl tt
   end).

Definition ex_node (name : string) (labels : gmap string string) (ready : string) : Node :=
  mkNode (mkObjectMeta name EmptyString EmptyString (Some labels) None None None) None (Some [mkNodeCondition "Ready" ready]) None.

Definition ex_nodes : gmap string Node :=
  list_to_map ((fun n => (Name (node_meta n), n)) <$>
    [ex_node "n1" {[ KinsRoleLabelKey := KinsRoleLabelServer ]} "True"; ex_node "n2" ∅ "False";
     ex_node "n3" ∅ "True"; ex_node "n4" ∅ "True"; ex_node "n5" ∅ "True"]).

Definition with_level_and_ready (nodes ready : list string) (level : string) (taints : gslice Taint) : NodeUnit :=
  mkNodeUnit (named EmptyString "u") [] (mkNodeUnitSpec "edge" false (Some nodes) None (mkSetNode None None taints) level None None)
    (mkNodeUnitStatus EmptyString (Some ready) None (mkUnitClusterStatus EmptyString EmptyString None EmptyString)).

Definition ex_five : NodeUnit := with_level_and_ready ["n1"; "n3"; "n4"] ["gone"; "n1"; "n2"; "n3"; "n4"; "n5"] "L5" None.

Definition ex_members : gmap string Node :=
  list_to_map ((fun n => (Name (node_meta n), n)) <$>
    [ex_node "n1" {[ KinsRoleLabelKey := KinsRoleLabelServer ]} "True"; ex_node "n3" ∅ "True"; ex_node "n4" ∅ "True"]).

(** The second and the third server are [n3] and [n4]: [n1] has the label,
    [n2] is not ready any more and [gone] does not exist. *)
Lemma labelServerNode_chooses_witness :
  wp (@count_serve unit) (labelServerNode (R := range_in_key_order) (L := plain_selectors) ex_nodes ex_five)
    (fun _ t r => r = inl ["n1"; "n3"; "n4"] /\ t = (fun n => ApplyNodeLabels n role_label) <$> ["n3"; "n4"]) 0%nat.
Proof.
  assert (GetNodesByUnit (R := range_in_key_order) (L := plain_selectors) ex_nodes ex_five = inl ex_members) as Hm
    by (vm_compute; reflexivity).
  eapply wp_mono.
  - apply (labelServerNode_chooses (R := range_in_key_order) (L := plain_selectors) (@count_serve unit) ex_nodes
      (fun name s => eq_refl) ex_five ex_members 3%nat is_server 0%nat Hm eq_refl).
  - cbn beta. intros s t r. rewrite decide_True by (vm_compute; right; lia). intros [-> ->]. split; vm_compute; reflexivity.
Defined.

(** ** Taints *)

Section Recover.
Context `{R : GoRange} `{L : LabelSelectors} {B S : Type} (serve : forall q : site_request B, S -> S * (site_answer q + api_error)).
Context (UnmarshalKind : string -> string + string) (DecodeInto : Kind -> string -> Object B + string) (bare : B).
Context (SelectorString : gmap string string -> string) (error_text : api_error -> string) (nodes : gmap string Node).

(** The last request of a run writes the unit without the taint. *)
Definition writes_without (nu : NodeUnit) (t : Taint) (trace : list (site_request B)) : Prop :=
  exists nu', WriteUnit nu' ∈ trace /\ nu_meta nu' = nu_meta nu /\ t ∉ sl (set_Taints (unit_sets nu')).

Lemma recovered_taints_spec (nu : NodeUnit) (t : Taint) :
  t ∈ sl (recovered_taints nu) <->
  t ∈ sl (set_Taints (unit_sets nu)) /\ tt_Key t <> KinsResourceNameSuffix /\ tt_Effect t <> NoSchedule.
Proof.
  unfold recovered_taints. assert (forall l : list Taint, sl (nil_if_empty l) = l) as -> by (by intros []).
  rewrite list_elem_of_filter. naive_solver.
Qed.

Lemma mark_recovered_writes (nu : NodeUnit) (t : Taint) s :
  t ∈ sl (set_Taints (unit_sets nu)) -> tt_Effect t = NoSchedule ->
  wp serve (mark_recovered nu) (fun _ trace _ => writes_without nu t trace) s.
Proof.
  intros Ht He. assert (t ∉ sl (recovered_taints nu)) as Hn by (rewrite recovered_taints_spec; naive_solver).
  unfold mark_recovered. rewrite bool_decide_eq_true_2 by (intros E; by rewrite E in Hn). cbn [orb].
  apply (wp_call serve (WriteUnit _)). eexists. split; [by left|]. done.
Qed.

(** A unit of level L3, the default, does not keep a taint with effect
    NoSchedule: every pass over its cluster that succeeds has written the unit
    back without it, whatever the taint's key. *)
Theorem recover_drops_taints (rand32 rand10 : string) (nu : NodeUnit) (t : Taint) (s : S)
  (Hlevel : nu_AutonomyLevel (nu_Spec nu) = AutonomyLevelL3)
  (Ht : t ∈ sl (set_Taints (unit_sets nu))) (He : tt_Effect t = NoSchedule) :
  wp serve (ReconcileUnitCluster UnmarshalKind DecodeInto bare SelectorString error_text nodes rand32 rand10 nu)
    (fun _ trace r => (exists c, r = inl c) -> writes_without nu t trace) s.
Proof.
  unfold ReconcileUnitCluster. rewrite Hlevel. cbn [String.eqb]. change (String.eqb AutonomyLevelL3 AutonomyLevelL3) with true. cbn iota.
  unfold recoverNodeUnit. cbv zeta.
  assert (forall l l', writes_without nu t l' -> writes_without nu t (l ++ l')) as Happ.
  { intros l l' (nu' & Hin & H). exists nu'. split; [apply elem_of_app; by right|done]. }
  repeat (apply wp_last; [done|intros ? ?]).
  eapply wp_mono; [by apply mark_recovered_writes|]. by intros.
Qed.

End Recover.

Lemma recover_drops_taints_witness :
  let nu := with_level_and_ready ["n1"] ["n1"] "L3" (Some [mkTaint "mine" "v" "NoSchedule"; mkTaint "other" "v" "NoExecute"]) in
  wp (@count_serve unit) (ReconcileUnitCluster (R := range_in_key_order) (L := plain_selectors) ex_unmarshal ex_decode tt
      (fun _ => EmptyString) (fun _ => EmptyString) ex_nodes EmptyString EmptyString nu)
    (fun _ trace r => r = inl tt /\ writes_without nu (mkTaint "mine" "v" "NoSchedule") trace) 0%nat.
Proof.
  cbv zeta. eapply wp_mono.
  - apply wp_conj; [|apply (recover_drops_taints _); [reflexivity|left|reflexivity]].
    instantiate (1 := fun _ _ r => r = inl tt). vm_compute. reflexivity.
  - cbn beta. intros s t r [-> H]. split; [done|]. apply H. by eexists.
Defined.
