(* ===== verification/WrapperUnits.v ===== *)
(** * The unit of the wrapper's node (application-grid-wrapper/server, setupInformers)

    A unit of autonomy level L4 or L5 has a cluster of its own.  Every ten
    seconds the wrapper reads the labels of its node, and when one of them
    marks it for such a unit it starts informers on the unit's cluster, whose
    services and endpoints it serves besides the cloud's (WrapperServer.v). *)

From Stdlib Require Import ZArith Lia Ascii String.
From stdpp Require Import base strings gmap numbers sorting list.
From S2P Require Import Prelude.
From S2P Require Import GoStd.
From S2P Require Import K8s.
From S2P Require Import WrapperServer.
From S2P Require Import SiteNodes.
From S2P Require Import SiteKins.

Local Open Scope Z_scope.
Local Open Scope go_scope.

Definition AutonomyLevelL4 : string := "L4".
Definition AutonomyLevelL5 : string := "L5".

Definition has_cluster (nu : NodeUnit) : bool :=
  String.eqb (nu_AutonomyLevel (nu_Spec nu)) AutonomyLevelL4 || String.eqb (nu_AutonomyLevel (nu_Spec nu)) AutonomyLevelL5.

(** What one pass over the labels reads: the node, the units, the config maps
    by namespace and name, whether a label key is valid, and the services. *)
Record unit_reads : Type := mkUnitReads {
  rd_node : option Node;
  rd_unit : string -> option NodeUnit;
  rd_configmap : string -> string -> option (gomap string);
  rd_valid : string -> bool;
  rd_services : list Service
}.

(** The variables of the goroutine; [informers] is whether the channel has
    been made. *)
Record unit_state : Type := mkUnitState {
  oldk3sNodeUinit : option NodeUnit;
  newk3sNodeUinit : option NodeUnit;
  informers : bool
}.

(** A send on the channel wakes one of the informers that share it; starting
    them may fail, which is only logged. *)
Inductive unit_action : Type :=
| WakeOne
| SetupInformers (kubeconfig nodeunit : string) (svc : Service).

(** [Crashed]: a unit without a reference to its credentials is dereferenced. *)
Inductive unit_outcome : Type :=
| Running (st : unit_state) (acts : list unit_action)
| Crashed.

Section Units.
Context `{R : GoRange} (rd : unit_reads).

(** A label that marks the node for a unit; [None] goes on to the next label. *)
Definition look_at_unit (st : unit_state) (k : string) : option (unit_state * list unit_action) :=
  match rd_unit rd k with
  | None => None
  | Some nu =>
      if negb (String.eqb (nu_Type (nu_Spec nu)) "edge") then None
      else if has_cluster nu then Some (mkUnitState (oldk3sNodeUinit st) (Some nu) (informers st), [])
      else if informers st && (bool_decide (is_Some (oldk3sNodeUinit st)) || bool_decide (is_Some (newk3sNodeUinit st)))
           then Some (mkUnitState None None (informers st), [WakeOne])
           else Some (st, [])
  end.

Definition same_unit (nu old : NodeUnit) : bool :=
  String.eqb (Name (nu_meta nu)) (Name (nu_meta old))
  && String.eqb (nu_AutonomyLevel (nu_Spec nu)) (nu_AutonomyLevel (nu_Spec old)).

Definition kins_service (nu : NodeUnit) (svc : Service) : bool :=
  bool_decide (mp (Labels (svc_meta svc)) !! Name (nu_meta nu) = Some SiteNodes.NodeUnitSuperedge)
  && bool_decide (mp (Labels (svc_meta svc)) !! KinsResourceLabelKey = Some "yes"%string)
  && String.eqb (Name (svc_meta svc)) (buildKinsServiceName (Name (nu_meta nu))).

(** The informers of the unit that was seen last, under the label at hand. *)
Definition start_unit (st : unit_state) (k : string) : unit_outcome :=
  match newk3sNodeUinit st with
  | None => Running st []
  | Some nu =>
      if match oldk3sNodeUinit st with Some old => same_unit nu old | None => false end then Running st []
      else if negb (has_cluster nu) then Running st []
      else match nu_CredentialRef (nu_Spec nu) with
           | None => Crashed
           | Some ref =>
               match rd_configmap rd (ref_Namespace ref) (ref_Name ref) with
               | None => Running st []
               | Some kubeconf =>
                   if negb (rd_valid rd (Name (nu_meta nu))) then Running st []
                   else match filter (fun svc => kins_service nu svc = true) (rd_services rd) with
                        | [] => Running st []
                        | svc :: _ =>
                            Running (mkUnitState (Some nu) (Some nu) true)
                              ((if informers st then [WakeOne] else []) ++
                               [SetupInformers (default EmptyString (mp kubeconf !! "kubeconfig.conf"%string)) k svc])
                        end
               end
           end
  end.

Definition unit_label (st : unit_state) (kv : string * string) : unit_outcome :=
  let '(k, v) := kv in
  match (if String.eqb v SiteNodes.NodeUnitSuperedge then look_at_unit st k else Some (st, [])) with
  | None => Running st []
  | Some (st, acts) => match start_unit st k with Running st acts' => Running st (acts ++ acts') | Crashed => Crashed end
  end.

Fixpoint unit_label_loop (st : unit_state) (kvs : list (string * string)) : unit_outcome :=
  match kvs with
  | [] => Running st []
  | kv :: kvs =>
      match unit_label st kv with
      | Crashed => Crashed
      | Running st acts => match unit_label_loop st kvs with Running st acts' => Running st (acts ++ acts') | Crashed => Crashed end
      end
  end.

Definition unit_pass (st : unit_state) : unit_outcome :=
  match rd_node rd with
  | None => Running st []
  | Some node => unit_label_loop st (go_range (mp (Labels (node_meta node))))
  end.

End Units.

Fixpoint unit_passes `{GoRange} (st : unit_state) (rds : list unit_reads) : unit_outcome :=
  match rds with
  | [] => Running st []
  | rd :: rds =>
      match unit_pass rd st with
      | Crashed => Crashed
      | Running st acts => match unit_passes st rds with Running st acts' => Running st (acts ++ acts') | Crashed => Crashed end
      end
  end.

(** ** What the passes do *)

Definition autonomous (nu : NodeUnit) : Prop := has_cluster nu = true /\ nu_Type (nu_Spec nu) = "edge"%string.

Record unit_inv (st : unit_state) : Prop := {
  inv_old : forall nu, oldk3sNodeUinit st = Some nu -> autonomous nu /\ informers st = true;
  inv_new : forall nu, newk3sNodeUinit st = Some nu -> autonomous nu
}.

(** Informers are started for the service of a unit with a cluster. *)
Definition justified (a : unit_action) : Prop :=
  match a with
  | WakeOne => True
  | SetupInformers _ _ svc => exists nu, autonomous nu /\ kins_service nu svc = true
  end.

Definition starts_first (st : unit_state) (acts : list unit_action) : Prop := informers st = false -> head acts <> Some WakeOne.

(** A step from a good state ends in one, with justified actions. *)
Definition unit_good (st : unit_state) (o : unit_outcome) : Prop :=
  forall st' acts, o = Running st' acts ->
    unit_inv st' /\ Forall justified acts /\ starts_first st acts /\ (informers st = true -> informers st' = true)
    /\ (acts = [] -> informers st' = informers st).

Lemma unit_good_nil st : unit_inv st -> unit_good st (Running st []).
Proof. intros Hi st' acts [= <- <-]. by split_and!. Qed.

(** Two steps in a row. *)
Lemma unit_good_seq st st1 acts1 o : unit_good st (Running st1 acts1) -> (unit_inv st1 -> unit_good st1 o) ->
  unit_good st (match o with Running st' acts' => Running st' (acts1 ++ acts') | Crashed => Crashed end).
Proof.
  intros H1 H2 st' acts. destruct o as [st2 acts2|]; [|done]. intros [= <- <-].
  destruct (H1 _ _ eq_refl) as (Hi1 & Hj1 & Hs1 & Hm1 & Hn1). destruct (H2 Hi1 _ _ eq_refl) as (Hi2 & Hj2 & Hs2 & Hm2 & Hn2).
  split_and!; [done|by apply Forall_app| |auto|].
  - intros Hf. destruct acts1 as [|a acts1]; [|by apply Hs1]. apply Hs2. by rewrite Hn1.
  - intros [-> ->]%app_nil. by rewrite Hn2, Hn1.
Qed.

Section Passes.
Context `{R : GoRange}.

Lemma look_at_unit_good rd st k st' acts : unit_inv st -> look_at_unit rd st k = Some (st', acts) -> unit_good st (Running st' acts).
Proof using Type.
  intros Hi. unfold look_at_unit. destruct (rd_unit rd k) as [nu|]; [|done].
  destruct (String.eqb_spec (nu_Type (nu_Spec nu)) "edge") as [He|]; cbn [negb]; [|done].
  destruct (has_cluster nu) eqn:Hc.
  - intros [= <- <-] ? ? [= <- <-]. split_and!; try done. split; cbn; [apply Hi|]. by intros ? [= <-].
  - destruct (informers st) eqn:Hf; cbn [andb]; [|intros [= <- <-]; by apply unit_good_nil].
    destruct (_ || _); intros [= <- <-]; [|by apply unit_good_nil].
    intros ? ? [= <- <-]. split_and!; [by split|by constructor|unfold starts_first; congruence|done|done].
Qed.

Lemma start_unit_good rd st k : unit_inv st -> unit_good st (start_unit rd st k).
Proof using Type.
  intros Hi. pose proof (unit_good_nil st Hi) as Hnil. unfold start_unit.
  destruct (newk3sNodeUinit st) as [nu|] eqn:En; [|done]. pose proof (inv_new st Hi nu En) as Ha.
  destruct (match oldk3sNodeUinit st with Some old => _ | None => _ end); [done|].
  destruct (has_cluster nu); cbn [negb]; [|done]. destruct (nu_CredentialRef (nu_Spec nu)) as [ref|]; [|intros ? ? [=]].
  destruct (rd_configmap _ _ _) as [kubeconf|]; [|done]. destruct (rd_valid rd _); cbn [negb]; [|done].
  destruct (filter _ (rd_services rd)) as [|svc l] eqn:Ef; [done|].
  assert (kins_service nu svc = true) as Hk.
  { assert (svc ∈ filter (fun svc => kins_service nu svc = true) (rd_services rd)) as Hin by (rewrite Ef; by left).
    by apply list_elem_of_filter in Hin as [? _]. }
  intros ? ? [= <- <-]. split_and!.
  - split; cbn; intros ? [= <-]; [by split|done].
  - apply Forall_app. split; [destruct (informers st); by repeat constructor|]. constructor; [|done]. by exists nu.
  - intros Hf. by rewrite Hf.
  - done.
  - by destruct (informers st).
Qed.

Lemma unit_label_good rd st kv : unit_inv st -> unit_good st (unit_label rd st kv).
Proof using Type.
  intros Hi. destruct kv as [k v]. unfold unit_label.
  assert (forall st1 acts, (if String.eqb v SiteNodes.NodeUnitSuperedge then look_at_unit rd st k else Some (st, [])) = Some (st1, acts) ->
    unit_good st (Running st1 acts)) as Hlook.
  { intros st1 acts. destruct (String.eqb v _); [by apply look_at_unit_good|]. intros [= <- <-]. by apply unit_good_nil. }
  destruct (if String.eqb v _ then _ else _) as [[st1 acts]|]; [|by apply unit_good_nil].
  apply (unit_good_seq st st1 acts); [by apply Hlook|apply start_unit_good].
Qed.

Lemma unit_label_loop_good rd st kvs : unit_inv st -> unit_good st (unit_label_loop rd st kvs).
Proof using Type.
  revert st. induction kvs as [|kv kvs IH]; intros st Hi; [by apply unit_good_nil|]. cbn [unit_label_loop].
  pose proof (unit_label_good rd st kv Hi) as Hg. destruct (unit_label rd st kv) as [st1 acts|]; [|intros ? ? [=]].
  apply (unit_good_seq st st1 acts); [done|apply IH].
Qed.

Lemma unit_pass_good rd st : unit_inv st -> unit_good st (unit_pass rd st).
Proof using Type. intros Hi. unfold unit_pass. destruct (rd_node rd); [by apply unit_label_loop_good|by apply unit_good_nil]. Qed.

Lemma unit_passes_good rds st : unit_inv st -> unit_good st (unit_passes st rds).
Proof using Type.
  revert st. induction rds as [|rd rds IH]; intros st Hi; [by apply unit_good_nil|]. cbn [unit_passes].
  pose proof (unit_pass_good rd st Hi) as Hg. destruct (unit_pass rd st) as [st1 acts|]; [|intros ? ? [=]].
  apply (unit_good_seq st st1 acts); [done|apply IH].
Qed.

Definition no_unit : unit_state := mkUnitState None None false.

(** Whatever the passes read, informers are only ever started for the API
    server's service of an edge unit of level L4 or L5, the channel is not
    used before it is made, and a unit that is remembered as watched is such a
    unit. *)
Theorem unit_passes_safe (rds : list unit_reads) (st : unit_state) (acts : list unit_action)
  (Hrun : unit_passes no_unit rds = Running st acts) :
  unit_inv st /\ Forall justified acts /\ head acts <> Some WakeOne.
Proof using Type.
  destruct (unit_passes_good rds no_unit ltac:(by split) st acts Hrun) as (Hi & Hj & Hs & _). split_and!; [done|done|]. by apply Hs.
Qed.

(** While the node's units stay as they are nothing is started or woken. *)
Definition steady_label (rd : unit_reads) (u : NodeUnit) (kv : string * string) : Prop :=
  snd kv = SiteNodes.NodeUnitSuperedge -> forall nu, rd_unit rd (fst kv) = Some nu -> nu_Type (nu_Spec nu) = "edge"%string ->
  has_cluster nu = true /\ same_unit nu u = true.

Lemma unit_pass_steady rd u nu node : rd_node rd = Some node ->
  Forall (steady_label rd u) (go_range (mp (Labels (node_meta node)))) -> same_unit nu u = true ->
  exists nu', unit_pass rd (mkUnitState (Some u) (Some nu) true) = Running (mkUnitState (Some u) (Some nu') true) [] /\ same_unit nu' u = true.
Proof using Type.
  intros Hn. unfold unit_pass. rewrite Hn. generalize (go_range (mp (Labels (node_meta node)))) as kvs. clear Hn node.
  intros kvs Hs. revert nu. induction Hs as [|[k v] kvs Hkv _ IH]; intros nu Hsame; [by exists nu|]. cbn [unit_label_loop].
  assert (exists nu', unit_label rd (mkUnitState (Some u) (Some nu) true) (k, v) = Running (mkUnitState (Some u) (Some nu') true) []
    /\ same_unit nu' u = true) as (nu' & -> & Hsame').
  { unfold unit_label, look_at_unit. unfold steady_label in Hkv. cbn [fst snd] in Hkv. cbn [informers oldk3sNodeUinit newk3sNodeUinit].
    destruct (String.eqb_spec v SiteNodes.NodeUnitSuperedge) as [Hv|]; cycle 1.
    { exists nu. unfold start_unit. cbn. by rewrite Hsame. }
    destruct (rd_unit rd k) as [w|]; [|by exists nu]. destruct (String.eqb_spec (nu_Type (nu_Spec w)) "edge") as [He|]; cbn [negb]; [|by exists nu].
    destruct (Hkv Hv w eq_refl He) as [-> Hw]. exists w. unfold start_unit. cbn. by rewrite Hw. }
  destruct (IH nu' Hsame') as (nu2 & -> & H2). by exists nu2.
Qed.

End Passes.

(** *** Concrete runs *)

#[local] Instance ex_range : GoRange := range_in_key_order.

Definition ex_l4_unit : NodeUnit :=
  ex_unit "u" (mkNodeUnitSpec "edge" false None None (mkSetNode None None None) "L4"
    (Some (mkObjectReference "ConfigMap" "kins" "u-cm" EmptyString EmptyString EmptyString EmptyString)) None).
Definition ex_kins_service : Service :=
  mkService (with_labels (named "kins" "u-svc-kins")
    (Some (<["u"%string := SiteNodes.NodeUnitSuperedge]> {[ KinsResourceLabelKey := "yes"%string ]}))).
Definition ex_reads (node : Node) (services : list Service) : unit_reads :=
  mkUnitReads (Some node) (fun name => if String.eqb name "u" then Some ex_l4_unit else None)
    (fun _ _ => Some (Some {[ "kubeconfig.conf"%string := "conf"%string ]})) (fun _ => true) services.
Definition ex_marked_node : Node :=
  ex_node "a" (<["os"%string := "linux"%string]> {[ "u"%string := SiteNodes.NodeUnitSuperedge ]}) "True".

Lemma unit_passes_safe_witness :
  Forall justified [SetupInformers "conf" "os" ex_kins_service].
Proof.
  refine (proj1 (proj2 (unit_passes_safe [ex_reads ex_marked_node []; ex_reads ex_marked_node [ex_kins_service]]
    (mkUnitState (Some ex_l4_unit) (Some ex_l4_unit) true) [SetupInformers "conf" "os" ex_kins_service] _))).
  vm_compute. reflexivity.
Defined.

(** The key that goes with the informers is that of the label at hand: a unit
    whose service was missing in one pass is started in the next under the
    node's first label, here [os].  The informer's handler then takes every
    node of the unit's cluster for one that left the unit [os]. *)
Example started_under_another_label :
  unit_passes no_unit [ex_reads ex_marked_node []; ex_reads ex_marked_node [ex_kins_service]]
  = Running (mkUnitState (Some ex_l4_unit) (Some ex_l4_unit) true) [SetupInformers "conf" "os" ex_kins_service]
  /\ k3s_node_update {[ "a"%string := ex_marked_node ]} "os" ex_marked_node = DeleteK3sNode "a".
Proof. vm_compute. split; reflexivity. Qed.
