(* ===== verification/HostsFile.v ===== *)
(** * The hosts file of the stateful-set daemon (statefulset-grid-daemon/hosts)

    The daemon gives the pods of a stateful-set grid names that are the same in
    every unit, through a hosts file that it keeps equal to a map from domain
    names to addresses.  The theorems show that the file reads back to the map,
    what an update leaves for every domain, and that a write that failed is
    not made up for by the next update. *)

From Stdlib Require Import ZArith Lia Ascii String.
From stdpp Require Import base strings gmap numbers sorting list.
From S2P Require Import Prelude.
From S2P Require Import GoStd.
From S2P Require Import GoStrings.

Local Open Scope Z_scope.

Definition suffix : string := ".svc.cluster.local".

(** The map in memory and the file, if it exists. *)
Record Hosts : Type := mkHosts {
  hostsMap : gmap string string;
  hostsFile : option string
}.

Definition NewHosts (file : option string) : Hosts := mkHosts ∅ file.

(** What a write does: it may leave anything behind when it fails. *)
Inductive write_answer : Type := Written | WriteFailed (left_behind : option string).

Inductive read_answer : Type := ReadOk | ReadFailed.

(** ** Reading *)

Definition tab : ascii := "009".
Definition newline : ascii := "010".
Definition return_ : ascii := "013".

(** A line adds one domain, unless it is empty, a comment, or has other than
    an address and one domain. *)
Definition load_line (m : gmap string string) (line : string) : gmap string string :=
  let line := ReplaceByte tab " " (Trim [" "%char; tab] line) in
  match line with
  | EmptyString => m
  | String c _ =>
      if Ascii.eqb c ";" || Ascii.eqb c "#" then m
      else match cut_at " " line with
           | None => m
           | Some (ip, domain) =>
               match ParseIP ip with
               | None => m
               | Some _ => match Fields domain with [_] => <[domain := ip]> m | _ => m end
               end
           end
  end.

Definition load_content (m : gmap string string) (content : string) : gmap string string :=
  foldl load_line m (split_on newline (Trim [" "%char; tab; return_; newline] content)).

(** The file is created when it does not exist; [false] is an error, of the
    read or of the creation. *)
Definition LoadHosts (h : Hosts) (read : read_answer) (created : bool) : Hosts * bool :=
  match hostsFile h with
  | Some content =>
      match read with
      | ReadOk => (mkHosts (load_content (hostsMap h) content) (hostsFile h), true)
      | ReadFailed => (h, false)
      end
  | None => if created then (mkHosts ∅ (Some EmptyString), true) else (h, false)
  end.

(** ** Writing *)

Section Writing.
Context `{R : GoRange}.

Definition hosts_line (kv : string * string) : string := snd kv +:+ " " +:+ fst kv +:+ String newline EmptyString.

Definition parseHostsToFile (m : gmap string string) : string :=
  foldl (fun hf kv => hf +:+ hosts_line kv) EmptyString (go_range m).

(** [None] is success. *)
Definition saveHosts (h : Hosts) (w : write_answer) : Hosts * bool :=
  match w with
  | Written => (mkHosts (hostsMap h) (Some (parseHostsToFile (hostsMap h))), true)
  | WriteFailed f => (mkHosts (hostsMap h) f, false)
  end.

Definition AppendDomainSuffix (domain ns : string) : string := domain +:+ "." +:+ ns +:+ suffix.

(** *** The pattern of a grid's domains *)

(** Names are made of lower-case letters, digits, dashes and dots, and a dot
    in a pattern stands for any character but a newline. *)
Inductive pattern_item : Type := Char (a : ascii) | AnyChar | Digits.

Fixpoint literal (s : string) : list pattern_item :=
  match s with
  | EmptyString => []
  | String a s => (if Ascii.eqb a "." then AnyChar else Char a) :: literal s
  end.

Definition digit (a : ascii) : bool := is_digit (byte_of a).

(** Whether a prefix of the string matches; [inside] is whether the items
    follow at least one digit of a [Digits]. *)
Fixpoint match_digits (rest : string -> bool) (s : string) : bool :=
  match s with String a s => digit a && (rest s || match_digits rest s) | EmptyString => false end.

Fixpoint match_here (p : list pattern_item) (s : string) : bool :=
  match p with
  | [] => true
  | Char a :: p => match s with String b s => Ascii.eqb a b && match_here p s | EmptyString => false end
  | AnyChar :: p => match s with String b s => negb (Ascii.eqb b newline) && match_here p s | EmptyString => false end
  | Digits :: p => match_digits (match_here p) s
  end.

(** [regexp.MatchString] *)
Fixpoint MatchString (p : list pattern_item) (s : string) : bool :=
  match_here p s || match s with EmptyString => false | String _ s => MatchString p s end.

Definition domain_pattern (ns ssgName svcName : string) : list pattern_item :=
  literal (ssgName +:+ "-") ++ [Digits; Char "."] ++ literal svcName ++ [Char "."%char] ++ literal (ns +:+ suffix).

Definition isMatchDomain (domain ns ssgName svcName : string) : bool := MatchString (domain_pattern ns ssgName svcName) domain.

(** *** Updates *)

(** The loop changes the map it ranges over, at the key it is at, and takes
    the domains it has seen from the pods' map. *)
Record update_state : Type := mkUpdate { u_hosts : gmap string string; u_pods : gmap string string; u_changed : bool }.

Definition update_domain (ns ssgName svcName : string) (u : update_state) (kv : string * string) : update_state :=
  let '(domain, ip) := kv in
  if isMatchDomain domain ns ssgName svcName then
    match u_pods u !! domain with
    | None => mkUpdate (delete domain (u_hosts u)) (u_pods u) true
    | Some curIp =>
        if negb (String.eqb curIp ip) then mkUpdate (<[domain := curIp]> (u_hosts u)) (delete domain (u_pods u)) true
        else mkUpdate (u_hosts u) (delete domain (u_pods u)) (u_changed u)
    end
  else u.

Definition update_loop (h : Hosts) (PodDomainInfoToHosts : gmap string string) (ns ssgName svcName : string) : update_state :=
  foldl (update_domain ns ssgName svcName) (mkUpdate (hostsMap h) PodDomainInfoToHosts false) (go_range (hostsMap h)).

Definition CheckOrUpdateHosts (h : Hosts) (PodDomainInfoToHosts : gmap string string) (ns ssgName svcName : string) (w : write_answer)
    : Hosts * bool :=
  let u := update_loop h PodDomainInfoToHosts ns ssgName svcName in
  if negb (u_changed u) && bool_decide (u_pods u = ∅) then (mkHosts (u_hosts u) (hostsFile h), true)
  else saveHosts (mkHosts (u_pods u ∪ u_hosts u) (hostsFile h)) w.

Definition SetHostsByMap (h : Hosts) (m : gmap string string) (w : write_answer) : Hosts * bool :=
  if bool_decide (hostsMap h = m) then (h, true)
  else
    let '(h', ok) := saveHosts (mkHosts m (hostsFile h)) w in
    if ok then (h', true) else (mkHosts (hostsMap h) (hostsFile h'), false).

End Writing.

(** ** What an update does *)

Lemma existsb_ext_in {A : Type} (f g : A -> bool) l : (forall x, x ∈ l -> f x = g x) -> existsb f l = existsb g l.
Proof.
  induction l as [|x l IH]; intros H; [done|]. cbn [existsb]. rewrite (H x) by (by left). f_equal. apply IH. intros y Hy. apply H. by right.
Qed.

Section Update.
Context `{R : GoRange} (ns ssgName svcName : string).
Implicit Types (h : Hosts) (m pods : gmap string string).

Definition ours (d : string) : bool := isMatchDomain d ns ssgName svcName.

(** The update of one domain, of which the map has the address [ip]. *)
Lemma update_domain_spec u d ip : u_hosts u !! d = Some ip ->
  let u' := update_domain ns ssgName svcName u (d, ip) in
  u_hosts u' !! d = (if ours d then u_pods u !! d else Some ip)
  /\ u_pods u' !! d = (if ours d then None else u_pods u !! d)
  /\ (forall k, k <> d -> u_hosts u' !! k = u_hosts u !! k /\ u_pods u' !! k = u_pods u !! k)
  /\ u_changed u' = u_changed u || (ours d && negb (bool_decide (u_pods u !! d = Some ip))).
Proof using Type.
  intros Hd. cbv zeta. unfold update_domain, ours. destruct (isMatchDomain d ns ssgName svcName).
  - destruct (u_pods u !! d) as [curIp|] eqn:Ep; cbn [u_hosts u_pods u_changed].
    + destruct (String.eqb_spec curIp ip) as [->|Hne]; cbn [negb u_hosts u_pods u_changed].
      * rewrite lookup_delete_eq, bool_decide_true by done. cbn. rewrite orb_false_r. split_and!; try done.
        intros k Hk. by rewrite lookup_delete_ne.
      * rewrite lookup_insert_eq, lookup_delete_eq, bool_decide_false by congruence. cbn. rewrite orb_true_r. split_and!; try done.
        intros k Hk. by rewrite lookup_insert_ne, lookup_delete_ne.
    + rewrite lookup_delete_eq. cbn. rewrite orb_true_r. split_and!; try done. intros k Hk. by rewrite lookup_delete_ne.
  - cbn. rewrite orb_false_r. split_and!; done.
Qed.

Lemma update_domains l u : NoDup l.*1 -> (forall d ip, (d, ip) ∈ l -> u_hosts u !! d = Some ip) ->
  let u' := foldl (update_domain ns ssgName svcName) u l in
  (forall d, u_hosts u' !! d = if decide (d ∈ l.*1 /\ ours d = true) then u_pods u !! d else u_hosts u !! d)
  /\ (forall d, u_pods u' !! d = if decide (d ∈ l.*1 /\ ours d = true) then None else u_pods u !! d)
  /\ u_changed u' = u_changed u || existsb (fun kv => ours (fst kv) && negb (bool_decide (u_pods u !! fst kv = Some (snd kv)))) l.
Proof using Type.
  revert u. induction l as [|[d ip] l IH]; intros u Hnd Hl.
  { cbn. rewrite orb_false_r. split_and!; [|..|done]; intros d; rewrite decide_False; (done || by intros [?%elem_of_nil _]). }
  rewrite fmap_cons in Hnd. apply NoDup_cons in Hnd as [Hd Hnd]. cbn [fst] in Hd.
  destruct (update_domain_spec u d ip) as (H1 & H2 & H3 & H4); [apply Hl; by left|].
  cbn [foldl]. set (u1 := update_domain ns ssgName svcName u (d, ip)) in *.
  assert (forall k v, (k, v) ∈ l -> k <> d) as Hne.
  { intros k v Hkv ->. apply Hd. apply list_elem_of_fmap. by exists (d, v). }
  destruct (IH u1 Hnd) as (I1 & I2 & I3).
  { intros k v Hkv. rewrite (proj1 (H3 k (Hne k v Hkv))). apply Hl. by right. }
  clear IH. split_and!.
  - intros k. rewrite I1, fmap_cons. cbn [fst]. destruct (decide (k = d)) as [->|Hk].
    + rewrite decide_False by tauto. rewrite H1. destruct (ours d) eqn:Eo.
      * rewrite decide_True; [done|]. split; [by left|done].
      * rewrite decide_False; [symmetry; apply Hl; by left|]. by intros [_ ?].
    + destruct (H3 k Hk) as [-> ->]. apply decide_ext. rewrite elem_of_cons. tauto.
  - intros k. rewrite I2, fmap_cons. cbn [fst]. destruct (decide (k = d)) as [->|Hk].
    + rewrite decide_False by tauto. rewrite H2. destruct (ours d) eqn:Eo.
      * rewrite decide_True; [done|]. split; [by left|done].
      * rewrite decide_False; [done|]. by intros [_ ?].
    + destruct (H3 k Hk) as [_ ->]. apply decide_ext. rewrite elem_of_cons. tauto.
  - rewrite I3, H4. cbn [existsb fst snd]. rewrite <- orb_assoc. f_equal. f_equal.
    apply existsb_ext_in. intros [k v] Hkv. cbn [fst snd]. by rewrite (proj2 (H3 k (Hne k v Hkv))).
Qed.

Lemma elem_of_range_keys m d : d ∈ (go_range m).*1 <-> is_Some (m !! d).
Proof using Type.
  rewrite list_elem_of_fmap. split.
  - intros ([k v] & -> & Hin%elem_of_go_range). by exists v.
  - intros [v Hv]. exists (d, v). split; [done|]. by apply elem_of_go_range.
Qed.

Lemma update_loop_spec h pods : let u := update_loop h pods ns ssgName svcName in
  (forall d, u_hosts u !! d = if ours d then match hostsMap h !! d with Some _ => pods !! d | None => None end else hostsMap h !! d)
  /\ (forall d, u_pods u !! d = if ours d then match hostsMap h !! d with Some _ => None | None => pods !! d end else pods !! d)
  /\ (u_changed u = false <-> forall d ip, hostsMap h !! d = Some ip -> ours d = true -> pods !! d = Some ip).
Proof using Type.
  destruct (update_domains (go_range (hostsMap h)) (mkUpdate (hostsMap h) pods false)) as (H1 & H2 & H3);
    [apply NoDup_go_range_fst|intros d ip Hd; by apply elem_of_go_range|]. cbv zeta. fold (update_loop h pods ns ssgName svcName) in *.
  cbn [u_hosts u_pods u_changed orb] in *. split_and!.
  - intros d. rewrite H1. destruct (ours d) eqn:Eo.
    + destruct (hostsMap h !! d) as [ip|] eqn:Ed.
      * rewrite decide_True; [done|]. by rewrite elem_of_range_keys, Ed.
      * rewrite decide_False; [done|]. rewrite elem_of_range_keys, Ed. by intros [[] _].
    + rewrite decide_False; [done|]. by intros [_ ?].
  - intros d. rewrite H2. destruct (ours d) eqn:Eo.
    + destruct (hostsMap h !! d) as [ip|] eqn:Ed.
      * rewrite decide_True; [done|]. by rewrite elem_of_range_keys, Ed.
      * rewrite decide_False; [done|]. rewrite elem_of_range_keys, Ed. by intros [[] _].
    + rewrite decide_False; [done|]. by intros [_ ?].
  - rewrite H3. split.
    + intros Hf d ip Hd Ho. destruct (decide (pods !! d = Some ip)) as [|Hne]; [done|]. rewrite <- not_true_iff_false in Hf.
      destruct Hf. apply existsb_exists. exists (d, ip). split; [by apply list_elem_of_In, elem_of_go_range|].
      cbn [fst snd]. by rewrite Ho, bool_decide_false.
    + intros Hall. apply not_true_is_false. intros ([d ip] & Hin & Hx)%existsb_exists. apply list_elem_of_In, elem_of_go_range in Hin.
      cbn [fst snd] in Hx. apply andb_true_iff in Hx as [Ho Hx]. by rewrite (Hall d ip), bool_decide_true in Hx.
Qed.

(** What the map has for a domain after an update. *)
Definition updated m pods (d : string) : option string :=
  match pods !! d with
  | Some ip => Some ip
  | None => if ours d then None else m !! d
  end.

Lemma updated_lookup h pods d : let u := update_loop h pods ns ssgName svcName in
  (u_pods u ∪ u_hosts u) !! d = updated (hostsMap h) pods d.
Proof using Type.
  destruct (update_loop_spec h pods) as (H1 & H2 & _). cbv zeta. unfold updated. rewrite lookup_union, H1, H2.
  destruct (ours d); destruct (hostsMap h !! d), (pods !! d); done.
Qed.

Lemma unchanged_lookup h pods d : let u := update_loop h pods ns ssgName svcName in
  u_changed u = false -> u_pods u = ∅ -> u_hosts u !! d = updated (hostsMap h) pods d /\ hostsMap h !! d = updated (hostsMap h) pods d.
Proof using Type.
  destruct (update_loop_spec h pods) as (H1 & H2 & H3). cbv zeta. intros Hc Hp. specialize (H2 d). rewrite Hp, lookup_empty in H2.
  pose proof (proj1 H3 Hc d) as H4. rewrite H1. unfold updated.
  destruct (ours d); destruct (hostsMap h !! d) as [ip|]; rewrite <- ?H2, ?(H4 ip); done.
Qed.

(** An update gives every domain of the pods its address, removes every
    other domain of the grid's pattern and touches no other domain.  Either the
    map was as wanted already and nothing is written, or the file is written
    with the whole map, and an error of that write is returned. *)
Lemma CheckOrUpdateHosts_exact h pods (w : write_answer) :
  let '(h', ok) := CheckOrUpdateHosts h pods ns ssgName svcName w in
  (forall d, hostsMap h' !! d = updated (hostsMap h) pods d)
  /\ ((h' = h /\ ok = true)
      \/ (w = Written /\ ok = true /\ hostsFile h' = Some (parseHostsToFile (hostsMap h')))
      \/ (exists f, w = WriteFailed f /\ ok = false /\ hostsFile h' = f)).
Proof using Type.
  unfold CheckOrUpdateHosts. destruct (negb _ && _) eqn:Eq.
  - apply andb_true_iff in Eq as [Hc%negb_true_iff Hp%bool_decide_eq_true].
    pose proof (fun d => unchanged_lookup h pods d Hc Hp) as Hu. split; [intros d; cbn [hostsMap]; by destruct (Hu d)|]. left. split; [|done].
    assert (u_hosts (update_loop h pods ns ssgName svcName) = hostsMap h) as -> by (apply map_eq; intros d; by destruct (Hu d) as [-> <-]).
    by destruct h.
  - unfold saveHosts. destruct w as [|f]; (split; [intros d; apply updated_lookup|right]); [by left|right; by exists f].
Qed.

(** A write that failed is not made up for.  When the pods' domains are
    the grid's, repeating an update whose write failed succeeds without
    writing, and the file stays as the failure left it. *)
Theorem failed_write_is_final h pods (f : option string) (w : write_answer)
  (Hours : forall d ip, pods !! d = Some ip -> ours d = true) :
  let '(h', ok) := CheckOrUpdateHosts h pods ns ssgName svcName (WriteFailed f) in
  ok = false -> CheckOrUpdateHosts h' pods ns ssgName svcName w = (h', true) /\ hostsFile h' = f.
Proof using Type.
  assert (forall h', (forall d, hostsMap h' !! d = updated (hostsMap h) pods d) -> CheckOrUpdateHosts h' pods ns ssgName svcName w = (h', true)) as Hagain.
  { intros h' Hh. destruct (update_loop_spec h' pods) as (H1 & H2 & H3). cbv zeta in *. unfold CheckOrUpdateHosts.
    rewrite (proj2 H3), bool_decide_true; cbn [negb andb].
    - destruct h' as [m' f']. f_equal. f_equal. apply map_eq. intros d. rewrite H1. specialize (Hh d). cbn [hostsMap] in *. rewrite !Hh.
      unfold updated. destruct (ours d); [|done]. by destruct (pods !! d).
    - apply map_eq. intros d. rewrite H2, lookup_empty, Hh. unfold updated. destruct (pods !! d) as [ip|] eqn:Ep.
      + by rewrite (Hours d ip Ep).
      + by destruct (ours d); [|done].
    - intros d ip. rewrite Hh. unfold updated. destruct (pods !! d); [done|]. intros Hd Ho. by rewrite Ho in Hd. }
  unfold CheckOrUpdateHosts at 1. destruct (negb _ && _) eqn:Eq; [done|]. cbn [saveHosts].
  intros _. split; [|done]. apply Hagain. intros d. apply updated_lookup.
Qed.

End Update.

(** ** The file reads back *)

Section RoundTrip.
Context `{R : GoRange}.

(** Addresses and domains of printable characters without spaces. *)
Record entry_ok (kv : string * string) : Prop := {
  entry_domain : fst kv <> EmptyString /\ all_chars graphic (fst kv) = true;
  entry_ip : is_Some (ParseIP (snd kv)) /\ all_chars graphic (snd kv) = true
}.

Definition entry (kv : string * string) : string := snd kv +:+ " " +:+ fst kv.
Definition lines (l : list (string * string)) : string := join_with (String newline EmptyString) (entry <$> l).

(** A comment sign starts no address. *)
Lemma ParseIP_comment c s : Ascii.eqb c ";" || Ascii.eqb c "#" = true -> ParseIP (String c s) = None.
Proof using Type.
  intros Hc. assert (forall bs, ParseIP_scan (bytes_of (String c s)) bs = None) as H; [|apply H].
  assert (parseIPv4 (bytes_of (String c s)) = None /\ parseIPv6 (bytes_of (String c s)) = None) as [H4 H6].
  { apply orb_true_iff in Hc as [->%Ascii.eqb_eq| ->%Ascii.eqb_eq]; split; reflexivity. }
  intros bs. induction bs as [|b bs IH]; [done|]. cbn [ParseIP_scan]. rewrite H4, H6, IH.
  destruct b as [|p|p]; try done. repeat (destruct p as [p|p|]; try done).
Qed.

Lemma parse_lines l : l <> [] -> foldl (fun hf kv => hf +:+ hosts_line kv) EmptyString l = lines l +:+ String newline EmptyString.
Proof using Type.
  assert (forall acc l, foldl (fun hf kv => hf +:+ hosts_line kv) acc l = acc +:+ foldl (fun hf kv => hf +:+ hosts_line kv) EmptyString l) as Hacc.
  { intros acc l'. revert acc. induction l' as [|kv l' IH]; intros acc; cbn [foldl].
    - induction acc as [|a acc IH]; [done|]. rewrite append_cons. by rewrite <- IH.
    - rewrite (IH (acc +:+ _)), (IH (EmptyString +:+ _)). by rewrite append_assoc. }
  induction l as [|kv l IH]; [done|]. intros _. cbn [foldl]. rewrite Hacc. change (EmptyString +:+ hosts_line kv) with (hosts_line kv).
  unfold lines. rewrite fmap_cons. destruct l as [|kv' l]; [cbn [foldl fmap list_fmap join_with]|].
  - unfold hosts_line, entry. rewrite !append_assoc. change (String newline EmptyString +:+ EmptyString) with (String newline EmptyString). done.
  - rewrite IH by done. rewrite join_with_cons by done. unfold lines, hosts_line. unfold entry at 2. by rewrite !append_assoc.
Qed.

(** What the characters of an entry are not. *)
Lemma graphic_cut cutset s : forallb (fun b => negb (graphic b)) cutset = true -> all_chars graphic s = true ->
  all_chars (fun a => negb (existsb (Ascii.eqb a) cutset)) s = true.
Proof using Type.
  intros Hc. apply all_chars_mono. intros a Ha. apply negb_true_iff, not_true_is_false. intros (b & Hb & ->%Ascii.eqb_eq)%existsb_exists.
  rewrite forallb_forall in Hc. specialize (Hc b Hb). by rewrite Ha in Hc.
Qed.

(** A text that begins and ends with printable characters. *)
Record framed (s : string) : Prop := {
  framed_head : exists a s', s = String a s' /\ graphic a = true;
  framed_tail : exists pre t, s = pre +:+ t /\ t <> EmptyString /\ all_chars graphic t = true
}.

Lemma framed_app s t : framed s -> framed t -> forall sep, framed (s +:+ sep +:+ t).
Proof using Type.
  intros [(a & s' & -> & Ha) _] [_ (pre & t' & -> & Hne & Ht)] sep. split.
  - exists a. eexists. by rewrite append_cons.
  - eexists _, t'. by rewrite <- !append_assoc.
Qed.

Lemma graphic_framed s : s <> EmptyString -> all_chars graphic s = true -> framed s.
Proof using Type.
  intros Hne Hs. split; [|by exists EmptyString, s]. destruct s as [|a s]; [done|]. exists a, s. split; [done|].
  cbn in Hs. by apply andb_true_iff in Hs as [? _].
Qed.

Lemma entry_framed kv : entry_ok kv -> framed (entry kv).
Proof using Type.
  intros [[Hne Hd] [[ip Hip] Hg]]. apply framed_app; [|by apply graphic_framed]. apply graphic_framed; [|done]. by intros E; rewrite E in Hip.
Qed.

Lemma Trim_framed cutset s : forallb (fun b => negb (graphic b)) cutset = true -> framed s ->
  Trim cutset s = s /\ (existsb (Ascii.eqb newline) cutset = true -> Trim cutset (s +:+ String newline EmptyString) = s).
Proof using Type.
  intros Hc [(a & s' & Hs & Ha) (pre & t & Hpre & Hne & Ht)]. unfold Trim. set (cut a := existsb (Ascii.eqb a) cutset).
  assert (forall rest, trim_left cut (s +:+ rest) = s +:+ rest) as Hleft.
  { intros rest. apply trim_left_none. rewrite Hs, append_cons. apply not_true_is_false. intros (b & Hb & ->%Ascii.eqb_eq)%existsb_exists.
    rewrite forallb_forall in Hc. specialize (Hc b Hb). by rewrite Ha in Hc. }
  assert (trim_right cut s = s) as Hright.
  { rewrite Hpre. apply trim_right_none; [done|]. by apply graphic_cut. }
  split; [by rewrite <- (append_nil_r s), Hleft, append_nil_r|]. intros Hn. by rewrite Hleft, trim_right_cut.
Qed.

Lemma load_entry m kv : entry_ok kv -> load_line m (entry kv) = <[fst kv := snd kv]> m.
Proof using Type.
  intros Hkv. unfold load_line.
  rewrite (proj1 (Trim_framed [" "%char; tab] (entry kv) eq_refl (entry_framed kv Hkv))).
  destruct (entry_domain kv Hkv) as [Hne Hd]. destruct (entry_ip kv Hkv) as [[ip' Hip] Hg].
  assert (ReplaceByte tab " " (entry kv) = entry kv) as ->.
  { apply map_str_id. unfold entry. rewrite !all_chars_app, !andb_true_iff.
    assert (forall s, all_chars graphic s = true -> all_chars (fun a => Ascii.eqb (if Ascii.eqb a tab then " "%char else a) a) s = true) as Ht.
    { intros s. apply all_chars_mono. intros a Ha. rewrite (graphic_other a tab) by done. apply Ascii.eqb_refl. }
    split_and!; [by apply Ht|done|by apply Ht]. }
  assert (exists c rest, entry kv = String c rest /\ Ascii.eqb c ";" || Ascii.eqb c "#" = false) as (c & rest & Ee & Ec).
  { destruct (snd kv) as [|c ip] eqn:Es; [done|]. unfold entry. rewrite Es, append_cons. eexists _, _. split; [done|].
    apply not_true_is_false. intros Hc. by rewrite ParseIP_comment in Hip. }
  rewrite Ee, Ec. rewrite <- Ee. clear Ee Ec.
  unfold entry. change (snd kv +:+ " " +:+ fst kv) with (snd kv +:+ String " " (fst kv)).
  rewrite cut_at_app; [|eapply all_chars_mono, Hg; intros a Ha; by rewrite graphic_other]. by rewrite Hip, Fields_graphic.
Qed.

Lemma load_entries m l : Forall entry_ok l -> foldl load_line m (entry <$> l) = foldl (fun m kv => <[fst kv := snd kv]> m) m l.
Proof using Type. intros Hl. revert m. induction Hl as [|kv l Hkv _ IH]; intros m; [done|]. rewrite fmap_cons. cbn [foldl]. by rewrite load_entry. Qed.

Lemma split_lines l : l <> [] -> Forall entry_ok l -> split_on newline (lines l) = entry <$> l.
Proof using Type.
  intros Hne Hl. unfold lines. induction Hl as [|kv l Hkv Hl IH]; [done|]. rewrite fmap_cons.
  assert (split_on newline (entry kv) = [entry kv]) as He.
  { apply free_of_chars. unfold entry. rewrite !all_chars_app, !andb_true_iff. destruct Hkv as [[_ Hd] [_ Hg]].
    split_and!; [|done|]; (eapply all_chars_mono; [|eassumption]); intros a Ha; by rewrite graphic_other. }
  destruct l as [|kv' l]; [exact He|]. rewrite join_with_cons by done.
  change (String newline EmptyString +:+ ?x) with (String newline x). by rewrite split_on_app, He, IH.
Qed.

Lemma lines_framed l : l <> [] -> Forall entry_ok l -> framed (lines l).
Proof using Type.
  intros Hne Hl. unfold lines. induction Hl as [|kv l Hkv Hl IH]; [done|]. rewrite fmap_cons. destruct l as [|kv' l]; [by apply entry_framed|].
  rewrite join_with_cons by done. apply framed_app; [by apply entry_framed|by apply IH].
Qed.

Lemma foldl_insert_go_range (m : gmap string string) : foldl (fun m kv => <[fst kv := snd kv]> m) ∅ (go_range m) = m.
Proof using Type.
  rewrite <- (list_to_map_go_range m) at 2. rewrite <- (list_to_map_proper (reverse (go_range m))).
  - generalize (go_range m) as l. induction l as [|kv l IH] using rev_ind; [done|]. by rewrite foldl_snoc, reverse_snoc, IH.
  - rewrite fmap_reverse, reverse_Permutation. apply NoDup_go_range_fst.
  - apply reverse_Permutation.
Qed.

(** The file reads back.  A daemon that starts on the file another one
    wrote has the map it was written from, whatever order the map was ranged
    over in, as long as the addresses parse and neither part of an entry has
    spaces. *)
Theorem hosts_roundtrip (m : gmap string string) (created : bool) (Hm : forall kv, kv ∈ go_range m -> entry_ok kv) :
  LoadHosts (NewHosts (Some (parseHostsToFile m))) ReadOk created = (mkHosts m (Some (parseHostsToFile m)), true).
Proof using Type.
  unfold LoadHosts, NewHosts. cbn [hostsFile hostsMap]. f_equal. f_equal. unfold load_content, parseHostsToFile.
  apply Forall_forall in Hm. rewrite <- (foldl_insert_go_range m) at 2. revert Hm. generalize (go_range m) as l. intros l Hl.
  destruct (decide (l = [])) as [->|Hne]; [done|]. rewrite parse_lines by done.
  rewrite (proj2 (Trim_framed [" "%char; tab; return_; newline] _ eq_refl (lines_framed l Hne Hl))) by done.
  by rewrite split_lines, load_entries.
Qed.

End RoundTrip.

(** *** Concrete runs *)

#[local] Instance ex_range : GoRange := range_in_key_order.

Definition demo_domain (name : string) : string := AppendDomainSuffix (name +:+ ".demo-svc") "default".
Definition ex_map : gmap string string :=
  <[demo_domain "demo-0" := "10.0.0.1"%string]> {[ demo_domain "demo-12" := "fe80::1"%string ]}.

Example matches :
  isMatchDomain (demo_domain "demo-12") "default" "demo" "demo-svc" = true
  /\ isMatchDomain (demo_domain "demo-a2") "default" "demo" "demo-svc" = false
  /\ isMatchDomain (demo_domain "demo-2-0") "default" "demo" "demo-svc" = false
  /\ isMatchDomain (demo_domain "demo-0") "other" "demo" "demo-svc" = false.
Proof. repeat split; reflexivity. Qed.

Lemma hosts_roundtrip_witness :
  LoadHosts (NewHosts (Some (parseHostsToFile ex_map))) ReadOk false = (mkHosts ex_map (Some (parseHostsToFile ex_map)), true).
Proof.
  apply (hosts_roundtrip ex_map false). intros [d ip] Hin. apply elem_of_go_range in Hin. unfold ex_map in Hin.
  apply lookup_insert_Some in Hin as [[<- <-]|[_ [<- <-]%lookup_singleton_Some]];
    (split; (split; [|vm_compute; reflexivity]); [by vm_compute|eexists; vm_compute; reflexivity]).
Defined.

(** The pods' addresses are in memory and the file is still empty. *)
Lemma failed_write_is_final_witness :
  let h' := fst (CheckOrUpdateHosts (NewHosts (Some EmptyString)) ex_map "default" "demo" "demo-svc" (WriteFailed (Some EmptyString))) in
  CheckOrUpdateHosts h' ex_map "default" "demo" "demo-svc" Written = (h', true) /\ hostsFile h' = Some EmptyString /\ hostsMap h' = ex_map.
Proof.
  cbv zeta. assert (forall d ip, ex_map !! d = Some ip -> ours "default" "demo" "demo-svc" d = true) as Hours.
  { unfold ex_map. intros d ip [[<- _]|[_ [<- _]%lookup_singleton_Some]]%lookup_insert_Some; reflexivity. }
  pose proof (failed_write_is_final "default" "demo" "demo-svc" (NewHosts (Some EmptyString)) ex_map (Some EmptyString) Written Hours) as H.
  rewrite (surjective_pairing (CheckOrUpdateHosts (NewHosts _) _ _ _ _ _)) in H.
  destruct (H ltac:(vm_compute; reflexivity)) as [H1 H2]. split_and!; [exact H1|exact H2|by_compute].
Defined.

(** The pattern may match in the middle of a domain: clearing the grid [demo]
    also removes the domains of a grid [my-demo] behind the same service. *)
Example clears_another_grid :
  hostsMap (fst (CheckOrUpdateHosts (mkHosts {[ demo_domain "my-demo-0" := "10.0.0.1"%string ]} None) ∅ "default" "demo" "demo-svc" Written)) = ∅.
Proof. vm_compute. reflexivity. Qed.

(** Two spaces leave one in front of the domain. *)
Example load_two_spaces : load_content ∅ "10.0.0.1  a.b" = {[ " a.b"%string := "10.0.0.1"%string ]}.
Proof. vm_compute. reflexivity. Qed.
