(* ===== verification/HostsDaemon.v ===== *)
(** * The stateful-set daemon (statefulset-grid-daemon: controller, util)

    On every node the daemon keeps the hosts file equal to the pods of the
    stateful sets that grids run on the node: the pod number [n] of the grid
    [g] is found under [g-n] behind the grid's service, wherever it is asked
    for.  One sync updates the domains of one stateful set, another rebuilds
    the whole file; the theorems show what the whole sync makes of the pods,
    and that the first agrees with it on its grid. *)

From Stdlib Require Import ZArith Lia Ascii String.
From stdpp Require Import base strings gmap numbers sorting list.
From S2P Require Import Prelude.
From S2P Require Import GoStd.
From S2P Require Import GoStrings.
From S2P Require Import K8s.
From S2P Require Import Requests.
From S2P Require Import WorkQueue.
From S2P Require Import GridClaim.
From S2P Require Import GridTemplate.
From S2P Require Import GridEvents.
From S2P Require Import HostsFile.

Local Open Scope Z_scope.
Local Open Scope go_scope.

Definition dash : ascii := "-".
Definition StatefulSetGridKind : string := "StatefulSetGrid".
Definition ServiceGridKind : string := "ServiceGrid".

(** The fields the daemon reads; the node selector is the template's. *)
Record StatefulSet : Type := mkStatefulSet {
  set_meta : ObjectMeta;
  set_ServiceName : string;
  set_NodeSelector : gomap string
}.

(** ** Members of a stateful set (stateful_set_utils.go) *)

(** The expression for a name, a dash and digits up to the end matches at the
    last dash, when only digits follow it. *)
Definition getParentNameAndOrdinal (pod : Pod) : string * Z :=
  let name := Name (pod_meta pod) in
  match LastIndexByte name dash with
  | None => (EmptyString, -1)
  | Some i =>
      let digits := drop_str (S i) name in
      if negb (String.eqb digits EmptyString) && all_chars digit digits
      then (take_str i name, default (-1) (ParseInt digits 32))
      else (EmptyString, -1)
  end.

Definition getParentName (pod : Pod) : string := fst (getParentNameAndOrdinal pod).

Definition IsMemberOf (set : StatefulSet) (pod : Pod) : bool :=
  match GetControllerOf (pod_meta pod) with
  | None => false
  | Some ref =>
      if negb (String.eqb (or_Name ref) (Name (set_meta set))) || negb (String.eqb (or_UID ref) (UID (set_meta set))) then false
      else String.eqb (getParentName pod) (Name (set_meta set))
  end.

Section Daemon.
Context `{R : GoRange} {St : Type} (IsValidLabelValue : string -> bool).

(** The listers, by namespace and name, and the node's name. *)
Record listers : Type := mkListers {
  hostName : string;
  nodeLister : string -> Node + api_error;
  podLister : string -> list Pod + api_error;
  setLister : string -> string -> StatefulSet + api_error;
  setLister_all : list StatefulSet + api_error;
  setGridLister : string -> string -> Grid St + api_error;
  svcLister : string -> string -> Service + api_error
}.
Context (ls : listers).
Implicit Types (set : StatefulSet) (pod : Pod) (svc : Service) (node : Node).

(** ** Concerned stateful sets (statefulset.go) *)

(** It has a service, and its pods run on this node. *)
Definition runs_here set (gridUniqKeyName : string) : bool + api_error :=
  if String.eqb (set_ServiceName set) EmptyString then inl false
  else match nodeLister ls (hostName ls) with
       | inr e => inr e
       | inl node =>
           match mp (Labels (node_meta node)) !! gridUniqKeyName with
           | None => inl false
           | Some nodeGridValue => inl (bool_decide (mp (set_NodeSelector set) !! gridUniqKeyName = Some nodeGridValue))
           end
       end.

Definition IsConcernedStatefulSet set : bool + api_error :=
  match GetControllerOf (set_meta set) with
  | None => inl false
  | Some controllerRef =>
      if negb (String.eqb (or_Kind controllerRef) StatefulSetGridKind) then inl false
      else match Labels (set_meta set) with
      | None => inl false
      | Some labels =>
          match labels !! GridSelectorName, labels !! GridSelectorUniqKeyName with
          | Some controllerName, Some gridUniqKeyName =>
              if negb (String.eqb controllerName (or_Name controllerRef)) then inl false
              else match setGridLister ls (Namespace (set_meta set)) (or_Name controllerRef) with
                   | inl ssg =>
                       if negb (String.eqb (GridUniqKey ssg) gridUniqKeyName) then inl false
                       else if negb (String.eqb (or_UID controllerRef) (UID (g_meta ssg))) then inl false
                       else runs_here set gridUniqKeyName
                   | inr NotFound => runs_here set gridUniqKeyName
                   | inr e => inr e
                   end
          | _, _ => inl false
          end
      end
  end.

Definition set_concerned set : bool := match IsConcernedStatefulSet set with inl true => true | _ => false end.

(** The queue's keys that a handler adds. *)
Definition enqueue_concerned set : list string := if set_concerned set then [KeyFunc (set_meta set)] else [].

Definition deleteStatefulSet (obj : deleted StatefulSet) : list string :=
  match deleted_object obj with None => [] | Some set => enqueue_concerned set end.
Definition addStatefulSet set : list string :=
  match DeletionTimestamp (set_meta set) with
  | Some _ => deleteStatefulSet (DeletedObject set)
  | None => enqueue_concerned set
  end.
Definition updateStatefulSet (oldRV curRV : string) (curSet : StatefulSet) : list string :=
  if String.eqb curRV oldRV then [] else enqueue_concerned curSet.

(** ** Pods (pod.go) *)

Definition getStatefulSetForPod pod : option StatefulSet :=
  match GetControllerOf (pod_meta pod) with
  | None => None
  | Some controllerRef =>
      if negb (String.eqb (or_Kind controllerRef) "StatefulSet") then None
      else match setLister ls (Namespace (pod_meta pod)) (or_Name controllerRef) with
           | inr _ => None
           | inl set => if negb (String.eqb (UID (set_meta set)) (or_UID controllerRef)) then None else Some set
           end
  end.

Definition enqueue_for_pod pod : list string :=
  match getStatefulSetForPod pod with None => [] | Some set => enqueue_concerned set end.

Definition deletePod (obj : deleted Pod) : list string :=
  match deleted_object obj with None => [] | Some pod => enqueue_for_pod pod end.
Definition addPod pod : list string :=
  match DeletionTimestamp (pod_meta pod) with
  | Some _ => deletePod (DeletedObject pod)
  | None => enqueue_for_pod pod
  end.
Definition updatePod (oldRV curRV : string) (oldPod curPod : Pod) : list string :=
  if String.eqb curRV oldRV then []
  else
    let curControllerRef := GetControllerOf (pod_meta curPod) in
    let oldControllerRef := GetControllerOf (pod_meta oldPod) in
    (if negb (bool_decide (curControllerRef = oldControllerRef)) && bool_decide (is_Some oldControllerRef) then enqueue_for_pod oldPod else [])
    ++ match curControllerRef with Some _ => enqueue_for_pod curPod | None => [] end.

(** ** Services (service.go) *)

(** A value of the label that is not valid makes no requirement. *)
Definition getStatefulSetForService svc : list StatefulSet :=
  match Labels (svc_meta svc) with
  | None => []
  | Some labels =>
      match labels !! GridSelectorName, GetControllerOf (svc_meta svc), labels !! GridSelectorUniqKeyName with
      | Some controllerName, Some controllerRef, Some gridSelectorUniqKey =>
          if negb (String.eqb (or_Name controllerRef) controllerName) || negb (String.eqb (or_Kind controllerRef) ServiceGridKind) then []
          else if negb (IsValidLabelValue gridSelectorUniqKey) then []
          else match setLister_all ls with
               | inr _ => []
               | inl sets =>
                   filter (fun set => Namespace (set_meta set) = Namespace (svc_meta svc)
                     /\ mp (Labels (set_meta set)) !! GridSelectorUniqKeyName = Some gridSelectorUniqKey
                     /\ set_ServiceName set = Name (svc_meta svc)) sets
               end
      | _, _, _ => []
      end
  end.

Definition enqueue_for_service svc : list string := concat (enqueue_concerned <$> getStatefulSetForService svc).

Definition deleteService (obj : deleted Service) : list string :=
  match deleted_object obj with None => [] | Some svc => enqueue_for_service svc end.
Definition addService svc : list string :=
  match DeletionTimestamp (svc_meta svc) with
  | Some _ => deleteService (DeletedObject svc)
  | None => enqueue_for_service svc
  end.
Definition updateService (oldRV curRV : string) (oldSvc curSvc : Service) : list string :=
  if String.eqb curRV oldRV then []
  else
    (if negb (bool_decide (Labels (svc_meta curSvc) = Labels (svc_meta oldSvc))) && has_label GridSelectorUniqKeyName (svc_meta oldSvc)
     then enqueue_for_service oldSvc else [])
    ++ (if has_label GridSelectorUniqKeyName (svc_meta curSvc) then enqueue_for_service curSvc else []).

(** ** Nodes (node.go, GetNodesSelector) *)

(** The sets whose unique key is one of the node's labels; all sets, when no
    label could be a key. *)
Definition GetNodesSelector node set : bool :=
  match filter (fun key => IsValidLabelValue key = true) (go_range (mp (Labels (node_meta node)))).*1 with
  | [] => true
  | keys => match mp (Labels (set_meta set)) !! GridSelectorUniqKeyName with
            | None => false
            | Some key => bool_decide (key ∈ keys)
            end
  end.

Definition getStatefulSetForNode node : list StatefulSet :=
  match setLister_all ls with
  | inr _ => []
  | inl sets => filter (fun set => set_concerned set = true) (filter (fun set => GetNodesSelector node set = true) sets)
  end.

Definition enqueue_for_node node : list string := (fun set => KeyFunc (set_meta set)) <$> getStatefulSetForNode node.

Definition deleteNode (obj : deleted Node) : list string :=
  match deleted_object obj with None => [] | Some node => enqueue_for_node node end.
Definition addNode node : list string :=
  match DeletionTimestamp (node_meta node) with
  | Some _ => deleteNode (DeletedObject node)
  | None => enqueue_for_node node
  end.
Definition updateNode (oldRV curRV : string) (oldNode curNode : Node) : list string :=
  if String.eqb curRV oldRV then []
  else if negb (bool_decide (Labels (node_meta curNode) = Labels (node_meta oldNode))) then enqueue_for_node curNode else [].

(** ** Syncs (controller.go) *)

(** Whether the set's domains have to go: its service is missing, or belongs
    to another kind of grid. *)
Definition needClearStatefulSetDomains set : bool + api_error :=
  match svcLister ls (Namespace (set_meta set)) (set_ServiceName set) with
  | inr NotFound => inl true
  | inr e => inr e
  | inl svc =>
      match mp (Labels (svc_meta svc)) !! GridSelectorUniqKeyName with
      | None => inl true
      | Some svcGridUniqKey =>
          inl (negb (String.eqb (default EmptyString (mp (Labels (set_meta set)) !! GridSelectorUniqKeyName)) svcGridUniqKey))
      end
  end.

Definition sliced (s : option string) : outcome string := match s with Some s => Ret s | None => Panic "slice bounds out of range" end.

(** The entry of a pod, if it has one: the grid's value is taken out of the
    pod's name, at its first occurrence. *)
Definition pod_entry set (gridValue : string) pod : outcome (option (string * string)) :=
  match Index (Name (pod_meta pod)) gridValue with
  | None => Ret None
  | Some index =>
      let* before := sliced (slice_to (Name (pod_meta pod)) index) in
      let* after := sliced (slice_from (Name (pod_meta pod)) (index + String.length gridValue + 1)) in
      let podDomainsToHosts := before +:+ after +:+ "." +:+ set_ServiceName set in
      if String.eqb (pod_PodIP pod) EmptyString then Ret None
      else Ret (Some (AppendDomainSuffix podDomainsToHosts (Namespace (pod_meta pod)), pod_PodIP pod))
  end.

Fixpoint pod_entries set (gridValue : string) (pods : list Pod) (m : gmap string string) : outcome (gmap string string) :=
  match pods with
  | [] => Ret m
  | pod :: pods =>
      let* e := pod_entry set gridValue pod in
      pod_entries set gridValue pods (match e with Some (d, ip) => <[d := ip]> m | None => m end)
  end.

Definition members set (podList : list Pod) : list Pod := filter (fun pod => IsMemberOf set pod = true) podList.

(** [set.Name[len(ControllerRef.Name)+1:]] *)
Definition grid_value set (controllerRef : OwnerReference) : outcome string :=
  sliced (slice_from (Name (set_meta set)) (String.length (or_Name controllerRef) + 1)).

(** The loop over the sets; [inr tt] when listing pods failed. *)
Fixpoint whole_map (setList : list StatefulSet) (m : gmap string string) : outcome (gmap string string + unit) :=
  match setList with
  | [] => Ret (inl m)
  | set :: setList =>
      if negb (set_concerned set) then whole_map setList m
      else match needClearStatefulSetDomains set with
      | inr _ | inl true => whole_map setList m
      | inl false =>
          match podLister ls (Namespace (set_meta set)), GetControllerOf (set_meta set) with
          | inr _, _ => Ret (inr tt)
          | _, None => Panic "nil pointer"
          | inl podList, Some controllerRef =>
              let* gridValue := grid_value set controllerRef in
              let* m := pod_entries set gridValue (members set podList) m in
              whole_map setList m
          end
      end
  end.

Definition syncDnsHostsAsWhole (h : Hosts) (w : write_answer) : outcome Hosts :=
  match nodeLister ls (hostName ls), setLister_all ls with
  | inl node, inl setList =>
      let* r := whole_map (filter (fun set => GetNodesSelector node set = true) setList) ∅ in
      match r with
      | inl m => Ret (fst (SetHostsByMap h m w))
      | inr _ => Ret h
      end
  | _, _ => Ret h
  end.

(** [false] is an error, for which the key is queued again. *)
Definition syncDnsHosts (key : string) (h : Hosts) (w : write_answer) : outcome (Hosts * bool) :=
  match SplitMetaNamespaceKey key with
  | None => Ret (h, false)
  | Some (namespace, name) =>
      match setLister ls namespace name with
      | inr NotFound => Ret (h, true)
      | inr _ => Ret (h, false)
      | inl set =>
          match needClearStatefulSetDomains set, GetControllerOf (set_meta set) with
          | inr _, _ => Ret (h, false)
          | inl true, None => Panic "nil pointer"
          | inl true, Some controllerRef => Ret (CheckOrUpdateHosts h ∅ (Namespace (set_meta set)) (or_Name controllerRef) (set_ServiceName set) w)
          | inl false, controllerRef =>
              match podLister ls (Namespace (set_meta set)), controllerRef with
              | inr _, _ => Ret (h, false)
              | inl _, None => Ret (h, true)
              | inl podList, Some controllerRef =>
                  let* gridValue := grid_value set controllerRef in
                  let* pods := pod_entries set gridValue (members set podList) ∅ in
                  Ret (CheckOrUpdateHosts h pods (Namespace (set_meta set)) (or_Name controllerRef) (set_ServiceName set) w)
              end
          end
      end
  end.

End Daemon.

(** ** The domain of a pod *)

Definition dotless (s : string) : bool := all_chars (fun a => negb (Ascii.eqb a ".")) s.

(** Where the pod [ord] of the grid [ref] is found. *)
Definition pod_fqdn (ref ord svc ns : string) : string := AppendDomainSuffix (ref +:+ "-" +:+ ord +:+ "." +:+ svc) ns.

Lemma digit_not a b : digit b = false -> digit a = true -> Ascii.eqb a b = false.
Proof. intros Hb Ha. destruct (Ascii.eqb_spec a b) as [->|]; [congruence|done]. Qed.

Lemma digits_free c ord : digit c = false -> all_chars digit ord = true -> all_chars (fun a => negb (Ascii.eqb a c)) ord = true.
Proof. intros Hc. apply all_chars_mono. intros a Ha. by rewrite (digit_not a c). Qed.

Lemma pod_fqdn_inj ref ord svc ns ref' ord' svc' ns' :
  dotless ref = true -> dotless svc = true -> dotless ns = true -> all_chars digit ord = true ->
  dotless ref' = true -> dotless svc' = true -> dotless ns' = true -> all_chars digit ord' = true ->
  pod_fqdn ref ord svc ns = pod_fqdn ref' ord' svc' ns' -> ref = ref' /\ ord = ord' /\ svc = svc' /\ ns = ns'.
Proof.
  intros Hr Hs Hn Ho Hr' Hs' Hn' Ho' E.
  assert (forall r o s n, dotless r = true -> dotless s = true -> dotless n = true -> all_chars digit o = true ->
    split_on "." (pod_fqdn r o s n) = [r +:+ String dash o; s; n; "svc"; "cluster"; "local"]%string) as Hsplit.
  { clear. intros r o s n Hr Hs Hn Ho.
    assert (pod_fqdn r o s n = (r +:+ String dash o) +:+ String "." (s +:+ String "." (n +:+ String "." "svc.cluster.local"))) as ->.
    { unfold pod_fqdn, AppendDomainSuffix. by rewrite !append_assoc. }
    rewrite !split_on_app, (free_of_chars "." s), (free_of_chars "." n) by done. rewrite (free_of_chars "." (r +:+ _)); [done|].
    rewrite all_chars_app. apply andb_true_iff. split; [done|]. cbn [all_chars]. by apply digits_free. }
  assert (split_on "." (pod_fqdn ref ord svc ns) = split_on "." (pod_fqdn ref' ord' svc' ns')) as Hl by (by rewrite E).
  rewrite !Hsplit in Hl by done. injection Hl as Hname -> ->.
  apply last_split_inj in Hname as [-> ->]; [done|by apply digits_free..].
Qed.

(** ** Names *)

(** The set of the grid [ref] for a value that its own name does not contain
    any earlier. *)
Record well_named (set : StatefulSet) (ref : OwnerReference) (gridValue : string) : Prop := {
  wn_owner : GetControllerOf (set_meta set) = Some ref;
  wn_name : Name (set_meta set) = or_Name ref +:+ String dash gridValue;
  wn_first : Index (Name (set_meta set)) gridValue = Some (S (String.length (or_Name ref)))
}.

Lemma member_name set pod : Name (set_meta set) <> EmptyString -> IsMemberOf set pod = true ->
  exists ord, Name (pod_meta pod) = Name (set_meta set) +:+ String dash ord /\ ord <> EmptyString /\ all_chars digit ord = true.
Proof.
  intros Hne. unfold IsMemberOf, getParentName, getParentNameAndOrdinal. destruct (GetControllerOf _) as [ref|]; [|done].
  destruct (_ || _); [done|]. destruct (LastIndexByte _ dash) as [i|] eqn:Ei; cycle 1.
  { intros E%String.eqb_eq. by rewrite <- E in Hne. }
  destruct (negb _ && _) eqn:Ed; cbn [fst]; [|intros E%String.eqb_eq; by rewrite <- E in Hne].
  intros E0%String.eqb_eq. rewrite <- E0. clear E0. apply andb_true_iff in Ed as [Hd1 Hd2]. exists (drop_str (S i) (Name (pod_meta pod))).
  split_and!; [by apply LastIndexByte_Some| |done]. intros E. by rewrite E in Hd1.
Qed.

(** The number of a member, as its name has it. *)
Definition ordinal (set : StatefulSet) (pod : Pod) : string := drop_str (S (String.length (Name (set_meta set)))) (Name (pod_meta pod)).

Lemma ordinal_app set pod ord : Name (pod_meta pod) = Name (set_meta set) +:+ String dash ord -> ordinal set pod = ord.
Proof.
  intros E. unfold ordinal. rewrite E. change (String dash ord) with ("-" +:+ ord). rewrite <- append_assoc.
  assert (S (String.length (Name (set_meta set))) = String.length (Name (set_meta set) +:+ "-")) as -> by (rewrite length_str_app; cbn; lia).
  apply drop_str_app.
Qed.

(** The entry that the names call for. *)
Definition named_entry (set : StatefulSet) (ref : OwnerReference) (pod : Pod) : option (string * string) :=
  if String.eqb (pod_PodIP pod) EmptyString then None
  else Some (pod_fqdn (or_Name ref) (ordinal set pod) (set_ServiceName set) (Namespace (pod_meta pod)), pod_PodIP pod).

Lemma pod_entry_named set ref gridValue pod : well_named set ref gridValue -> IsMemberOf set pod = true ->
  pod_entry set gridValue pod = Ret (named_entry set ref pod).
Proof.
  intros [_ Hn Hf] Hm. destruct (member_name set pod) as (ord & E & Hne & Hd); [|done|].
  { rewrite Hn. by destruct (or_Name ref). }
  unfold pod_entry, named_entry. rewrite (ordinal_app set pod ord E). rewrite E, (Index_app _ _ _ _ Hf), Hn.
  assert ((or_Name ref +:+ String dash gridValue) +:+ String dash ord = (or_Name ref +:+ "-") +:+ (gridValue +:+ String dash ord)) as Hs1.
  { by rewrite !append_assoc. }
  assert ((or_Name ref +:+ String dash gridValue) +:+ String dash ord = (or_Name ref +:+ "-" +:+ gridValue +:+ "-") +:+ ord) as Hs2.
  { by rewrite !append_assoc. }
  rewrite Hs1 at 1. replace (S (String.length (or_Name ref))) with (String.length (or_Name ref +:+ "-")) by (rewrite length_str_app; cbn; lia).
  rewrite slice_to_app. cbn [sliced outcome_bind]. rewrite Hs2.
  replace (String.length (or_Name ref +:+ "-") + String.length gridValue + 1)%nat with (String.length (or_Name ref +:+ "-" +:+ gridValue +:+ "-"))
    by (rewrite !length_str_app; cbn; lia).
  rewrite slice_from_app. cbn [sliced outcome_bind]. unfold pod_fqdn. rewrite append_assoc. by destruct (String.eqb _ _).
Qed.

Definition add_entries (l : list (string * string)) (m : gmap string string) : gmap string string :=
  foldl (fun m kv => <[fst kv := snd kv]> m) m l.

Lemma pod_entries_named set ref gridValue pods m : well_named set ref gridValue ->
  pod_entries set gridValue (members set pods) m = Ret (add_entries (omap (named_entry set ref) (members set pods)) m).
Proof.
  intros Hw. unfold members. revert m. induction pods as [|pod pods IH]; intros m; [done|]. rewrite filter_cons.
  destruct (decide (IsMemberOf set pod = true)) as [Hm|]; [|apply IH]. cbn [pod_entries omap list_omap].
  rewrite (pod_entry_named set ref) by done. cbn [outcome_bind]. rewrite IH. by destruct (named_entry set ref pod) as [[d ip]|].
Qed.

Lemma grid_value_named set ref gridValue : well_named set ref gridValue -> grid_value set ref = Ret gridValue.
Proof.
  intros [_ Hn _]. unfold grid_value. rewrite Hn. change (String dash gridValue) with ("-" +:+ gridValue). rewrite <- append_assoc.
  replace (String.length (or_Name ref) + 1)%nat with (String.length (or_Name ref +:+ "-")) by (rewrite length_str_app; cbn; lia).
  by rewrite slice_from_app.
Qed.

(** Entries that agree make a map of them. *)
Lemma add_entries_lookup l m d ip : (forall ip1 ip2, (d, ip1) ∈ l -> (d, ip2) ∈ l -> ip1 = ip2) ->
  add_entries l m !! d = Some ip <-> (d, ip) ∈ l \/ (m !! d = Some ip /\ forall ip', (d, ip') ∉ l).
Proof.
  unfold add_entries. revert m. induction l as [|[d' ip'] l IH]; intros m Hf.
  { cbn. split; [intros H; right; split; [done|by intros ? ?%elem_of_nil]|by intros [?%elem_of_nil|[? _]]]. }
  cbn [foldl fst snd]. rewrite IH by (intros ip1 ip2 H1 H2; apply Hf; by right). setoid_rewrite elem_of_cons. split.
  - intros [Hin|[Hl Hn]]; [by left; right|]. destruct (decide (d = d')) as [->|Hne].
    + rewrite lookup_insert_eq in Hl. injection Hl as ->. by left; left.
    + rewrite lookup_insert_ne in Hl by done. right. split; [done|]. intros ip2 [[= -> ->]|Hin]; [done|by apply (Hn ip2)].
  - intros [[[= -> ->]|Hin]|[Hl Hn]]; [|by left|].
    + destruct (decide ((d', ip') ∈ l)) as [|Hnin]; [by left|]. right. rewrite lookup_insert_eq. split; [done|].
      intros ip2 Hin. apply Hnin. rewrite (Hf ip' ip2); [done|by left|by right].
    + right. rewrite lookup_insert_ne; [split; [done|intros ip2 Hin; apply (Hn ip2); by right]|].
      intros ->. apply (Hn ip'). by left.
Qed.

(** ** The whole sync *)

Lemma elem_of_concat {A : Type} (x : A) ls : x ∈ concat ls <-> exists l, l ∈ ls /\ x ∈ l.
Proof.
  induction ls as [|l ls IH]; cbn [concat]; [split; [by intros ?%elem_of_nil|by intros (l & ?%elem_of_nil & _)]|].
  rewrite elem_of_app, IH. setoid_rewrite elem_of_cons. naive_solver.
Qed.

Section Syncs.
Context `{R : GoRange} {St : Type} (IsValidLabelValue : string -> bool) (ls : listers (St := St)).
Implicit Types (set : StatefulSet) (pod : Pod).

(** The sets whose pods have domains on this node. *)
Definition serves set : bool :=
  set_concerned ls set && match needClearStatefulSetDomains ls set with inl false => true | _ => false end.

(** What the listers have: labels the API server admits, pods by namespace
    and with names of their own, and sets named by their grids, of which the
    node serves one per grid. *)
Record listed (node : Node) (sets : list StatefulSet) (pods : string -> list Pod) : Prop := {
  ls_node : nodeLister ls (hostName ls) = inl node;
  ls_sets : setLister_all ls = inl sets;
  ls_pods : forall ns, podLister ls ns = inl (pods ns);
  ls_valid : forall set key, set ∈ sets -> mp (Labels (set_meta set)) !! GridSelectorUniqKeyName = Some key -> IsValidLabelValue key = true;
  ls_pod_ns : forall ns pod, pod ∈ pods ns -> Namespace (pod_meta pod) = ns;
  ls_pod_name : forall ns pod pod', pod ∈ pods ns -> pod' ∈ pods ns -> Name (pod_meta pod) = Name (pod_meta pod') -> pod = pod';
  ls_named : forall set, set ∈ sets -> serves set = true -> exists ref gridValue, well_named set ref gridValue
    /\ dotless (or_Name ref) = true /\ dotless (set_ServiceName set) = true /\ dotless (Namespace (set_meta set)) = true;
  ls_apart : forall set set', set ∈ sets -> set' ∈ sets -> serves set = true -> serves set' = true ->
    Namespace (set_meta set) = Namespace (set_meta set') -> set_ServiceName set = set_ServiceName set' ->
    or_Name <$> GetControllerOf (set_meta set) = or_Name <$> GetControllerOf (set_meta set') -> set = set'
}.

Lemma concerned_label set : set_concerned ls set = true -> exists key node v,
  mp (Labels (set_meta set)) !! GridSelectorUniqKeyName = Some key /\ nodeLister ls (hostName ls) = inl node
  /\ mp (Labels (node_meta node)) !! key = Some v.
Proof using Type.
  unfold set_concerned, IsConcernedStatefulSet. destruct (GetControllerOf _) as [ref|]; [|done]. destruct (negb _); [done|].
  destruct (Labels (set_meta set)) as [labels|]; [|done]. destruct (labels !! GridSelectorName); [|done].
  destruct (labels !! GridSelectorUniqKeyName) as [key|] eqn:Ek; [|done]. destruct (negb _); [done|].
  assert (match runs_here ls set key with inl true => true | _ => false end = true -> exists key' node v,
    labels !! GridSelectorUniqKeyName = Some key' /\ nodeLister ls (hostName ls) = inl node /\ mp (Labels (node_meta node)) !! key' = Some v) as Hrun.
  { unfold runs_here. destruct (String.eqb _ _); [done|]. destruct (nodeLister ls (hostName ls)) as [node|] eqn:En; [|done].
    destruct (mp (Labels (node_meta node)) !! key) as [v|] eqn:Ev; [|done]. intros _. by exists key, node, v. }
  destruct (setGridLister _ _ _) as [ssg|e]; [destruct (negb _); [done|]; destruct (negb _); [done|exact Hrun]|by destruct e].
Qed.

Lemma concerned_selected node sets pods set : listed node sets pods -> set ∈ sets -> set_concerned ls set = true ->
  GetNodesSelector IsValidLabelValue node set = true.
Proof using Type.
  intros Hl Hin Hc. destruct (concerned_label set Hc) as (key & node' & v & Hk & Hn & Hv).
  rewrite (ls_node _ _ _ Hl) in Hn. injection Hn as <-. unfold GetNodesSelector.
  assert (key ∈ filter (fun key => IsValidLabelValue key = true) (go_range (mp (Labels (node_meta node)))).*1) as Hkey.
  { apply list_elem_of_filter. split; [by apply (ls_valid _ _ _ Hl set key)|]. apply list_elem_of_fmap. exists (key, v). split; [done|].
    by apply elem_of_go_range. }
  destruct (filter _ _) as [|k l] eqn:El; [done|]. rewrite Hk. by apply bool_decide_eq_true.
Qed.

Definition served_entries (pods : string -> list Pod) set : list (string * string) :=
  match GetControllerOf (set_meta set) with
  | None => []
  | Some ref => omap (named_entry set ref) (members set (pods (Namespace (set_meta set))))
  end.

Definition whole_entries (pods : string -> list Pod) (sets : list StatefulSet) : list (string * string) :=
  concat (served_entries pods <$> filter (fun set => serves set = true) sets).

Lemma whole_map_entries node sets pods l m : listed node sets pods -> (forall set, set ∈ l -> set ∈ sets) ->
  whole_map ls l m = Ret (inl (add_entries (whole_entries pods l) m)).
Proof using Type.
  intros Hl. revert m. induction l as [|set l IH]; intros m Hsub; [done|]. cbn [whole_map]. unfold whole_entries. rewrite filter_cons.
  assert (serves set = set_concerned ls set && match needClearStatefulSetDomains ls set with inl false => true | _ => false end) as Hs by done.
  assert (forall set, set ∈ l -> set ∈ sets) as Hsub' by (intros set' Hin; apply Hsub; by right).
  destruct (set_concerned ls set); cbn [negb andb] in *; [|rewrite decide_False by congruence; by apply IH].
  destruct (needClearStatefulSetDomains ls set) as [[|]|]; [rewrite decide_False by congruence; by apply IH| |rewrite decide_False by congruence; by apply IH].
  rewrite decide_True by done. destruct (ls_named _ _ _ Hl set) as (ref & gv & Hw & _); [apply Hsub; by left|done|].
  rewrite (ls_pods _ _ _ Hl), (wn_owner _ _ _ Hw), (grid_value_named _ _ gv) by done. cbn [outcome_bind].
  rewrite (pod_entries_named set ref) by done. cbn [outcome_bind]. rewrite IH by done. f_equal. f_equal.
  rewrite fmap_cons. cbn [concat].
  assert (served_entries pods set = omap (named_entry set ref) (members set (pods (Namespace (set_meta set))))) as ->.
  { unfold served_entries. by rewrite (wn_owner _ _ _ Hw). }
  unfold add_entries. by rewrite foldl_app.
Qed.

(** What an entry is the entry of. *)
Lemma elem_of_set_entries pods set d ip ref : GetControllerOf (set_meta set) = Some ref ->
  (d, ip) ∈ served_entries pods set <-> exists pod, pod ∈ pods (Namespace (set_meta set)) /\ IsMemberOf set pod = true
    /\ pod_PodIP pod = ip /\ ip <> EmptyString
    /\ d = pod_fqdn (or_Name ref) (ordinal set pod) (set_ServiceName set) (Namespace (pod_meta pod)).
Proof using Type.
  intros Hr. unfold served_entries, members. rewrite Hr, list_elem_of_omap. unfold named_entry. setoid_rewrite list_elem_of_filter. split.
  - intros (pod & [Hm Hp] & He). exists pod. destruct (String.eqb_spec (pod_PodIP pod) EmptyString); [done|]. by injection He as <- <-.
  - intros (pod & Hp & Hm & <- & Hne & ->). exists pod. split; [done|]. by destruct (String.eqb_spec (pod_PodIP pod) EmptyString).
Qed.

Lemma ordinal_digits set ref gridValue pod : well_named set ref gridValue -> IsMemberOf set pod = true ->
  Name (pod_meta pod) = Name (set_meta set) +:+ String dash (ordinal set pod) /\ all_chars digit (ordinal set pod) = true.
Proof using Type.
  intros Hw Hm. destruct (member_name set pod) as (ord & E & _ & Hd); [|done|].
  - rewrite (wn_name _ _ _ Hw). by destruct (or_Name ref).
  - by rewrite (ordinal_app set pod ord E).
Qed.

(** A domain of a served set has entries of this set only. *)
Lemma entry_owner node sets pods set set' ref ord ip : listed node sets pods -> set ∈ sets -> set' ∈ sets -> serves set = true -> serves set' = true ->
  GetControllerOf (set_meta set) = Some ref -> all_chars digit ord = true ->
  (pod_fqdn (or_Name ref) ord (set_ServiceName set) (Namespace (set_meta set)), ip) ∈ served_entries pods set' ->
  set' = set /\ exists pod, pod ∈ pods (Namespace (set_meta set)) /\ IsMemberOf set pod = true /\ pod_PodIP pod = ip /\ ordinal set pod = ord.
Proof using Type.
  intros Hl Hin Hin' Hs Hs' Hr Ho. destruct (ls_named _ _ _ Hl set Hin Hs) as (ref0 & gv & Hw & Hd1 & Hd2 & Hd3).
  pose proof (wn_owner _ _ _ Hw) as Hr0. rewrite Hr in Hr0. injection Hr0 as <-.
  destruct (ls_named _ _ _ Hl set' Hin' Hs') as (ref' & gv' & Hw' & Hd1' & Hd2' & Hd3'). pose proof (wn_owner _ _ _ Hw') as Hr'.
  rewrite (elem_of_set_entries _ _ _ _ ref') by done. intros (pod & Hp & Hm & <- & _ & Hd).
  destruct (ordinal_digits set' ref' gv' pod Hw' Hm) as [_ Ho']. rewrite (ls_pod_ns _ _ _ Hl _ _ Hp) in Hd.
  apply pod_fqdn_inj in Hd as (Hn & Hord & Hsv & Hns); [|done..].
  assert (set' = set) as ->.
  { apply (ls_apart _ _ _ Hl); try done. rewrite Hr, Hr'. cbn. by rewrite Hn. }
  split; [done|]. by exists pod.
Qed.

Lemma elem_of_whole_entries pods sets d ip : (d, ip) ∈ whole_entries pods sets <-> exists set, set ∈ sets /\ serves set = true /\ (d, ip) ∈ served_entries pods set.
Proof using Type.
  unfold whole_entries. rewrite elem_of_concat. setoid_rewrite list_elem_of_fmap. setoid_rewrite list_elem_of_filter.
  split; [intros (l & (set & -> & Hs & Hin) & H); by exists set|intros (set & Hin & Hs & H); eexists; split; [by exists set|done]].
Qed.

(** No domain has two addresses. *)
Lemma entries_agree node sets pods d ip ip' : listed node sets pods ->
  (d, ip) ∈ whole_entries pods sets -> (d, ip') ∈ whole_entries pods sets -> ip = ip'.
Proof using Type.
  intros Hl (set & Hin & Hs & He)%elem_of_whole_entries (set' & Hin' & Hs' & He')%elem_of_whole_entries.
  destruct (ls_named _ _ _ Hl set Hin Hs) as (ref & gv & Hw & _). pose proof (wn_owner _ _ _ Hw) as Hr.
  rewrite (elem_of_set_entries _ _ _ _ ref) in He by done. destruct He as (pod & Hp & Hm & <- & _ & ->).
  destruct (ordinal_digits set ref gv pod Hw Hm) as [Hn Ho]. rewrite (ls_pod_ns _ _ _ Hl _ _ Hp) in He'.
  destruct (entry_owner node sets pods set set' ref (ordinal set pod) ip' Hl Hin Hin' Hs Hs' Hr Ho He') as (-> & pod' & Hp' & Hm' & <- & Ho').
  destruct (ordinal_digits set ref gv pod' Hw Hm') as [Hn' _].
  assert (pod = pod') as ->; [|done]. apply (ls_pod_name _ _ _ Hl _ _ _ Hp Hp'). by rewrite Hn, Hn', Ho'.
Qed.

(** The whole sync on a file that can be written. *)
Lemma syncDnsHostsAsWhole_entries node sets pods h : listed node sets pods -> exists h',
  syncDnsHostsAsWhole IsValidLabelValue ls h Written = Ret h'
  /\ (forall d ip, hostsMap h' !! d = Some ip <-> (d, ip) ∈ whole_entries pods sets)
  /\ (h' = h \/ hostsFile h' = Some (parseHostsToFile (hostsMap h'))).
Proof using Type.
  intros Hl. unfold syncDnsHostsAsWhole. rewrite (ls_node _ _ _ Hl), (ls_sets _ _ _ Hl).
  rewrite (whole_map_entries node sets pods) by (done || (intros set [_ Hin]%list_elem_of_filter; done)). cbn [outcome_bind].
  set (l := whole_entries pods (filter _ sets)).
  assert (forall d ip, (d, ip) ∈ l <-> (d, ip) ∈ whole_entries pods sets) as Hsame.
  { intros d ip. unfold l. rewrite !elem_of_whole_entries. setoid_rewrite list_elem_of_filter. split; intros (set & H & Hs & He); exists set.
    - destruct H. done.
    - split; [split; [|done]|done]. apply (concerned_selected node sets pods); [done|done|]. unfold serves in Hs. by apply andb_true_iff in Hs as [? _]. }
  assert (forall d ip, add_entries l ∅ !! d = Some ip <-> (d, ip) ∈ whole_entries pods sets) as Hmap.
  { intros d ip. rewrite add_entries_lookup, <- Hsame, lookup_empty; [naive_solver|]. intros ip1 ip2. rewrite !Hsame. by apply (entries_agree node). }
  unfold SetHostsByMap. destruct (bool_decide _) eqn:Eb.
  - apply bool_decide_eq_true in Eb. exists h. split_and!; [done| |by left]. by rewrite Eb.
  - eexists. split_and!; [done|exact Hmap|by right].
Qed.

(** C40: the whole sync makes the file say where every pod of the grids that
    run on this node is: the entries are exactly the domains, made of the
    grid, the pod's number, the service and the namespace, of the members with
    an address of the stateful sets that the node serves; no grid's value is
    lost or mixed up, and nothing panics.  The listers answer; the pods of a
    namespace have names of their own; a set that the node serves is named by
    its grid and a grid value that does not occur in the name any earlier
    (else the number is cut from the wrong place, [value_in_the_name]), its
    grid, service and namespace have no dots, no two served sets of a namespace
    have the same grid and service, and the file can be written. *)
Theorem whole_sync_exact (node : Node) (sets : list StatefulSet) (pods : string -> list Pod) (h : Hosts) (Hl : listed node sets pods) :
  exists h', syncDnsHostsAsWhole IsValidLabelValue ls h Written = Ret h'
  /\ (forall d ip, hostsMap h' !! d = Some ip <-> exists set ref pod, set ∈ sets /\ serves set = true /\ GetControllerOf (set_meta set) = Some ref
        /\ pod ∈ pods (Namespace (set_meta set)) /\ IsMemberOf set pod = true /\ pod_PodIP pod = ip /\ ip <> EmptyString
        /\ d = pod_fqdn (or_Name ref) (ordinal set pod) (set_ServiceName set) (Namespace (set_meta set)))
  /\ (h' = h \/ hostsFile h' = Some (parseHostsToFile (hostsMap h'))).
Proof using Type.
  destruct (syncDnsHostsAsWhole_entries node sets pods h Hl) as (h' & Hrun & Hmap & Hfile). exists h'. split_and!; [done| |done].
  intros d ip. rewrite Hmap, elem_of_whole_entries. split.
  - intros (set & Hin & Hs & He). destruct (ls_named _ _ _ Hl set Hin Hs) as (ref & gv & Hw & _). pose proof (wn_owner _ _ _ Hw) as Hr.
    rewrite (elem_of_set_entries _ _ _ _ ref) in He by done. destruct He as (pod & Hp & Hm & Hip & Hne & ->). exists set, ref, pod.
    by rewrite (ls_pod_ns _ _ _ Hl _ _ Hp).
  - intros (set & ref & pod & Hin & Hs & Hr & Hp & Hm & Hip & Hne & ->). exists set. split_and!; [done|done|].
    apply (elem_of_set_entries _ _ _ _ ref); [done|]. exists pod. by rewrite (ls_pod_ns _ _ _ Hl _ _ Hp).
Qed.

(** ** One set *)

Lemma match_literal x p s : match_here (literal x ++ p) (x +:+ s) = match_here p s.
Proof.
  induction x as [|a x IH]; [done|]. rewrite append_cons. cbn [literal]. destruct (Ascii.eqb_spec a ".") as [->|Hne]; cbn [app match_here].
  - exact IH.
  - by rewrite Ascii.eqb_refl.
Qed.

Lemma match_digits_app rest ord s : ord <> EmptyString -> all_chars digit ord = true -> rest s = true -> match_digits rest (ord +:+ s) = true.
Proof using Type.
  intros Hne Hd Hs. induction ord as [|a ord IH]; [done|]. rewrite append_cons. cbn [match_digits all_chars] in *.
  apply andb_true_iff in Hd as [-> Hd]. destruct ord as [|b ord]; [by change (EmptyString +:+ s) with s; rewrite Hs|].
  rewrite IH by done. by rewrite orb_true_r.
Qed.

(** The pattern of a grid has all of its domains. *)
Lemma pod_fqdn_ours ref ord svc ns : ord <> EmptyString -> all_chars digit ord = true -> ours ns ref svc (pod_fqdn ref ord svc ns) = true.
Proof using Type.
  intros Hne Hd. unfold ours, isMatchDomain.
  assert (match_here (domain_pattern ns ref svc) (pod_fqdn ref ord svc ns) = true) as Hm.
  { assert (pod_fqdn ref ord svc ns = (ref +:+ "-") +:+ ord +:+ String "." (svc +:+ String "." ((ns +:+ suffix) +:+ EmptyString))) as ->.
    { unfold pod_fqdn, AppendDomainSuffix. rewrite append_nil_r, !append_assoc. done. }
    unfold domain_pattern. rewrite match_literal. cbn [app match_here]. apply match_digits_app; [done|done|].
    cbn [match_here]. rewrite Ascii.eqb_refl, match_literal. cbn [andb app match_here].
    by rewrite Ascii.eqb_refl, <- (app_nil_r (literal (ns +:+ suffix))), match_literal. }
  destruct (pod_fqdn ref ord svc ns); cbn [MatchString]; by rewrite Hm.
Qed.

(** The sync of one stateful set agrees with the whole sync.  For a set
    that the node serves, its pod of any number has the same address, or none,
    after either of them, whatever the file said before. *)
Theorem sync_agrees (node : Node) (sets : list StatefulSet) (pods : string -> list Pod) (h : Hosts) (set : StatefulSet) (ref : OwnerReference)
  (Hl : listed node sets pods) (Hin : set ∈ sets) (Hs : serves set = true) (Hr : GetControllerOf (set_meta set) = Some ref)
  (Hget : setLister ls (Namespace (set_meta set)) (Name (set_meta set)) = inl set)
  (Hns : free_of "/" (Namespace (set_meta set))) (Hn : free_of "/" (Name (set_meta set))) :
  exists h1 hw, syncDnsHosts ls (KeyFunc (set_meta set)) h Written = Ret (h1, true)
    /\ syncDnsHostsAsWhole IsValidLabelValue ls h Written = Ret hw
    /\ forall ord, ord <> EmptyString -> all_chars digit ord = true ->
         let d := pod_fqdn (or_Name ref) ord (set_ServiceName set) (Namespace (set_meta set)) in hostsMap h1 !! d = hostsMap hw !! d.
Proof using Type.
  destruct (ls_named _ _ _ Hl set Hin Hs) as (ref0 & gv & Hw & _). pose proof (wn_owner _ _ _ Hw) as Hr0.
  rewrite Hr in Hr0. injection Hr0 as <-.
  destruct (syncDnsHostsAsWhole_entries node sets pods h Hl) as (hw & Hrun & Hmap & _).
  unfold syncDnsHosts. rewrite SplitMetaNamespaceKey_KeyFunc by done. rewrite Hget.
  assert (needClearStatefulSetDomains ls set = inl false) as ->.
  { unfold serves in Hs. apply andb_true_iff in Hs as [_ Hs]. by destruct (needClearStatefulSetDomains ls set) as [[]|]. }
  rewrite (ls_pods _ _ _ Hl), Hr, (grid_value_named _ _ gv) by done. cbn [outcome_bind].
  rewrite (pod_entries_named set ref) by done. cbn [outcome_bind].
  set (P := add_entries _ ∅).
  assert (forall d ip, P !! d = Some ip <-> (d, ip) ∈ served_entries pods set) as HP.
  { intros d ip. unfold P, served_entries. rewrite Hr, add_entries_lookup, lookup_empty; [naive_solver|]. intros ip1 ip2 H1 H2.
    apply (entries_agree node sets pods d ip1 ip2 Hl); apply elem_of_whole_entries; exists set; (split_and!; [done|done|]); unfold served_entries; by rewrite Hr. }
  pose proof (CheckOrUpdateHosts_exact (Namespace (set_meta set)) (or_Name ref) (set_ServiceName set) h P Written) as Hupd.
  destruct (CheckOrUpdateHosts h P _ _ _ Written) as [h1 ok]. destruct Hupd as [Hlook Hcase].
  assert (ok = true) as -> by (destruct Hcase as [[_ ?]|[(_ & ? & _)|(f & ? & _)]]; done).
  exists h1, hw. split_and!; [done|done|]. intros ord Hne Ho. cbv zeta. rewrite Hlook. unfold updated. rewrite pod_fqdn_ours by done.
  set (d := pod_fqdn _ _ _ _). destruct (P !! d) as [ip|] eqn:Ep.
  - symmetry. apply Hmap, elem_of_whole_entries. exists set. by rewrite <- HP.
  - symmetry. apply eq_None_not_Some. intros [ip Hip]. apply Hmap, elem_of_whole_entries in Hip as (set' & Hin' & Hs' & He).
    destruct (entry_owner node sets pods set set' ref ord ip Hl Hin Hin' Hs Hs' Hr Ho He) as [-> _]. by apply HP in He; rewrite Ep in He.
Qed.

End Syncs.

(** *** A grid of one stateful set with one pod *)

#[local] Instance ex_range : GoRange := range_in_key_order.

Definition ex_owner (kind name : string) : OwnerReference := mkOwnerReference EmptyString kind name "uid" (Some true) (Some true).
Definition ex_meta (name : string) (labels : gomap string) (owner : OwnerReference) : ObjectMeta :=
  mkObjectMeta name "ns" "uid" labels None (Some [owner]) None.
Definition ex_set : StatefulSet :=
  mkStatefulSet (ex_meta "g-z1" (Some (<[GridSelectorName := "g"%string]> {[ GridSelectorUniqKeyName := "zone"%string ]})) (ex_owner StatefulSetGridKind "g"))
    "g-svc" (Some {[ "zone"%string := "z1"%string ]}).
Definition ex_pod : Pod := mkPod (ex_meta "g-z1-0" None (ex_owner "StatefulSet" "g-z1")) "host" "10.1.0.1" "10.0.0.7".
Definition ex_node : Node := mkNode (with_labels (named EmptyString "host") (Some {[ "zone"%string := "z1"%string ]})) None None None.
Definition ex_service : Service := mkService (with_labels (named "ns" "g-svc") (Some {[ GridSelectorUniqKeyName := "zone"%string ]})).
Definition ex_pods (ns : string) : list Pod := if String.eqb ns "ns" then [ex_pod] else [].
Definition ex_listers : listers (St := unit) :=
  mkListers "host" (fun _ => inl ex_node) (fun ns => inl (ex_pods ns)) (fun _ _ => inl ex_set) (inl [ex_set])
    (fun _ _ => inr NotFound) (fun _ _ => inl ex_service).

Lemma ex_listed : listed (fun _ => true) ex_listers ex_node [ex_set] ex_pods.
Proof.
  split; try done.
  - intros ns pod. unfold ex_pods. destruct (String.eqb_spec ns "ns") as [->|]; [by intros ->%list_elem_of_singleton|by intros ?%elem_of_nil].
  - intros ns pod pod'. unfold ex_pods. destruct (String.eqb ns "ns"); [by intros ->%list_elem_of_singleton ->%list_elem_of_singleton|by intros ?%elem_of_nil].
  - intros set ->%list_elem_of_singleton _. exists (ex_owner StatefulSetGridKind "g"), "z1"%string. split_and!; done.
  - by intros set set' ->%list_elem_of_singleton ->%list_elem_of_singleton.
Qed.

Definition ex_fqdn : string := "g-0.g-svc.ns.svc.cluster.local".

Lemma whole_sync_exact_witness : exists h',
  syncDnsHostsAsWhole (fun _ => true) ex_listers (NewHosts None) Written = Ret h' /\ hostsMap h' !! ex_fqdn = Some "10.0.0.7"%string.
Proof.
  destruct (whole_sync_exact (fun _ => true) ex_listers ex_node [ex_set] ex_pods (NewHosts None) ex_listed) as (h' & Hrun & Hmap & _).
  exists h'. split; [exact Hrun|]. apply Hmap. exists ex_set, (ex_owner StatefulSetGridKind "g"), ex_pod.
  split_and!; try (by left); done.
Defined.

Lemma sync_agrees_witness : exists h1 hw,
  syncDnsHosts ex_listers "ns/g-z1" (NewHosts None) Written = Ret (h1, true)
  /\ syncDnsHostsAsWhole (fun _ => true) ex_listers (NewHosts None) Written = Ret hw
  /\ hostsMap h1 !! ex_fqdn = hostsMap hw !! ex_fqdn.
Proof.
  destruct (sync_agrees (fun _ => true) ex_listers ex_node [ex_set] ex_pods (NewHosts None) ex_set (ex_owner StatefulSetGridKind "g")
    ex_listed ltac:(by left) eq_refl eq_refl eq_refl eq_refl eq_refl) as (h1 & hw & H1 & Hw & H).
  exists h1, hw. split_and!; [exact H1|exact Hw|]. exact (H "0"%string ltac:(done) eq_refl).
Defined.

(** A value that the grid's name contains is taken out of the name: the pod
    [demo-d-0] of the grid [demo] in the unit [d] is put under [mo-d-0]. *)
Example value_in_the_name :
  pod_entry (mkStatefulSet (named "ns" "demo-d") "svc" None) "d" (mkPod (named "ns" "demo-d-0") "host" EmptyString "10.0.0.7")
  = Ret (Some ("mo-d-0.svc.ns.svc.cluster.local", "10.0.0.7"))%string.
Proof. reflexivity. Qed.
