(* ===== verification/SiteUnit.v ===== *)
(** * Site manager: the node unit controller (site-manager/controller/node_unit.go, deleter/unit_deleter.go)

    The handlers put the names of units on a queue, [syncUnit] takes care of
    the finalizer, and [reconcileNodeUnit] cleans the nodes that left, sets
    the members, reconciles the unit's own cluster and writes the status.  The
    deleter cleans in the background what a unit no longer sets.  The theorems
    show which nodes carry the unit's label after a pass, what is cleaned when
    a unit changes, and when a unit may go. *)

From Stdlib Require Import ZArith Lia Ascii String.
From stdpp Require Import base strings gmap numbers sorting list.
From S2P Require Import Prelude.
From S2P Require Import GoStd.
From S2P Require Import GoTemplate.
From S2P Require Import GoSort.
From S2P Require Import K8s.
From S2P Require Import Requests.
From S2P Require Import WorkQueue.
From S2P Require Import KubeClient.
From S2P Require Import KubeNode.
From S2P Require Import SiteNodes.
From S2P Require Import SiteKins.

Local Open Scope Z_scope.
Local Open Scope go_scope.

Definition NodeUnitFinalizerID : string := "site.superedge.io/nodeunit".

(** ** Finalizers (controllerutil) *)

Definition ContainsFinalizer (f : list string) (id : string) : bool := existsb (String.eqb id) f.
Definition AddFinalizer (f : list string) (id : string) : list string := if ContainsFinalizer f id then f else f ++ [id].
Definition RemoveFinalizer (f : list string) (id : string) : list string := filter (fun x => x <> id) f.

(** ** Events *)

Section Events.
Context `{R : GoRange}.
Context (units : gmap string NodeUnit).

Definition addNodeUnit (nu : NodeUnit) : list string := [unit_name nu].
Definition deleteNodeUnit (obj : deleted NodeUnit) : list string :=
  match deleted_object obj with None => [] | Some nu => [unit_name nu] end.

(** What the old unit set and the new one does not, in place of what the old
    one sets. *)
Definition cleared (old new : SetNode) : SetNode :=
  mkSetNode (Some (filter (fun kv => mp (set_Labels new) !! fst kv = None) (mp (set_Labels old))))
    (Some (filter (fun kv => mp (set_Annotations new) !! fst kv = None) (mp (set_Annotations old))))
    (Some (filter (fun t => TaintInSlices (sl (set_Taints new)) t = false) (sl (set_Taints old)))).

(** The unit for the deleter's queue and the key for the controller's. *)
Definition updateNodeUnit (oldNu newNu : NodeUnit) : NodeUnit * list string :=
  (with_SetNode oldNu (cleared (unit_sets oldNu) (unit_sets newNu)), [unit_name newNu]).

(** The units a node names, if they all exist. *)
Definition enqueue_units (n : Node) : option (list string) :=
  match GetUnitsByNode units n with inl (_, unitList) => Some unitList | inr _ => None end.

Definition unit_deleteNode (obj : deleted Node) : list string :=
  match deleted_object obj with None => [] | Some n => default [] (enqueue_units n) end.

Definition unit_addNode (n : Node) : list string :=
  match DeletionTimestamp (node_meta n) with
  | Some _ => unit_deleteNode (DeletedObject n)
  | None => default [] (enqueue_units n)
  end.

Definition marks (mark : string) (m : ObjectMeta) : gmap string string := filter (fun kv => snd kv = mark) (object_labels m).

Definition unit_updateNode (oldRV newRV : string) (oldNode newNode : Node) : list string :=
  if String.eqb oldRV newRV then []
  else if bool_decide (marks NodeUnitSuperedge (node_meta oldNode) = marks NodeUnitSuperedge (node_meta newNode))
       then default [] (enqueue_units newNode)
       else match enqueue_units oldNode with
            | None => []
            | Some unitList => unitList ++ default [] (enqueue_units newNode)
            end.

End Events.

(** ** Synchronising *)

Section Sync.
Context `{R : GoRange} `{L : LabelSelectors} {B : Type}.
Context (UnmarshalKind : string -> string + string) (DecodeInto : Kind -> string -> Object B + string) (bare : B).
Context (ClaimRef : Object B -> option (string * string)) (SelectorString FieldSelectorString : gmap string string -> string).
Context (error_text : api_error -> string).
(** The listers, the time, and the random strings of the cluster's tokens. *)
Context (units : gmap string NodeUnit) (nodes : gmap string Node) (now : Z) (rand32 rand10 : string).
Implicit Types (nu : NodeUnit).

Definition DeleteNodes nu (m : gmap string Node) : site B unit :=
  DeleteNodesFromSetNode ClaimRef SelectorString FieldSelectorString nu m.

(** The deleter's [sync]. *)
Definition deleter_sync nu : site B unit :=
  match GetNodesByUnit nodes nu with
  | inr err => fail err
  | inl nodeMap => DeleteNodes nu nodeMap
  end.

Definition with_uc_status (st : NodeUnitStatus) (uc : UnitClusterStatus) : NodeUnitStatus :=
  mkNodeUnitStatus (nu_ReadyRate st) (nu_ReadyNodes st) (nu_NotReadyNodes st) uc.

(** The status of the unit's cluster after an error of reconciling it. *)
Definition failed_status (uc : UnitClusterStatus) (err : api_error) : UnitClusterStatus :=
  mkUnitClusterStatus (uc_Version uc) "Failed" (Some [mkClusterCondition "Init" "False" now (error_text err)]) (uc_ServiceCIDR uc).

(** The end of a pass.  For a unit of level L3, the status of the cluster is
    changed in place, in the unit the new status is then compared with. *)
Definition update_status nu (nodeMap : gmap string Node) (ucerr : unit + api_error) : site B NodeUnit :=
  let uc := nu_UnitCluster (nu_Status nu) in
  let ucStatus := match ucerr with inl _ => uc | inr err => failed_status uc err end in
  let nu := if String.eqb (nu_AutonomyLevel (nu_Spec nu)) AutonomyLevelL3
            then with_unit_status nu (with_uc_status (nu_Status nu) ucStatus) else nu in
  let newStatus := with_uc_status (CaculateNodeUnitStatus nodeMap) ucStatus in
  if bool_decide (newStatus = nu_Status nu) then ok nu
  else let nu := with_unit_status nu newStatus in do! write_unit_status nu in ok nu.

(** The nodes that carry the unit's label, and those of them that left. *)
Definition labelled_nodes (f : gmap string string -> bool) : gmap string Node := list_by_name node_meta f nodes ∅.
Definition gc_nodes (current members : gmap string Node) : gmap string Node :=
  filter (fun kv => members !! fst kv = None) current.

Definition labels_itself nu : bool := bool_decide (mp (set_Labels (unit_sets nu)) !! unit_name nu = Some NodeUnitSuperedge).

(** The unit as the pass leaves it in memory is the result. *)
Definition reconcileNodeUnit nu : site B NodeUnit :=
  match GetNodesByUnit nodes nu with
  | inr err => fail err
  | inl nodeMap =>
      match NewRequirement (unit_name nu) NodeUnitSuperedge with
      | inr err => fail err
      | inl f =>
          do! DeleteNodes nu (gc_nodes (labelled_nodes f) nodeMap) in
          if negb (labels_itself nu) then
            let nu := with_set_labels nu (Some (<[unit_name nu := NodeUnitSuperedge]> (mp (set_Labels (unit_sets nu))))) in
            do! write_unit nu in ok nu
          else
            do! SetNodeToNodes nu nodeMap in
            reply! ucerr := ReconcileUnitCluster UnmarshalKind DecodeInto bare SelectorString error_text nodes rand32 rand10 nu in
            update_status nu nodeMap ucerr
      end
  end.

Definition record_event (nu : NodeUnit) (reason message : string) : site B unit :=
  reply! _r := call (Record_ nu reason message) in ok tt.

Definition syncUnit (key : string) : site B unit :=
  match units !! key with
  | None => ok tt
  | Some nu =>
      match DeletionTimestamp (nu_meta nu) with
      | None =>
          if ContainsFinalizer (nu_Finalizers nu) NodeUnitFinalizerID then let! _nu := reconcileNodeUnit nu in ok tt
          else
            let nu := with_unit_finalizers nu (AddFinalizer (nu_Finalizers nu) NodeUnitFinalizerID) in
            do! write_unit nu in
            let! _nu := reconcileNodeUnit nu in ok tt
      | Some _ =>
          if negb (ContainsFinalizer (nu_Finalizers nu) NodeUnitFinalizerID) then ok tt
          else if negb (String.eqb (nu_AutonomyLevel (nu_Spec nu)) AutonomyLevelL3) then
            record_event nu ("The nodeunit whose autonomyLevel is " +:+ nu_AutonomyLevel (nu_Spec nu) +:+ " is not allowed to be deleted")
              "Before deleting, please adjust the autonomyLevel of nodeunit to L3"
          else
            let! nu := reconcileNodeUnit nu in
            do! queue_deletion nu in
            write_unit (with_unit_finalizers nu (RemoveFinalizer (nu_Finalizers nu) NodeUnitFinalizerID))
      end
  end.

End Sync.

(** ** Members *)

Definition names_ok {A : Type} (meta : A -> ObjectMeta) (lister : gmap string A) : Prop :=
  forall k x, lister !! k = Some x -> Name (meta x) = k.

Section MemberLemmas.
Context `{R : GoRange} `{L : LabelSelectors}.

Lemma lookup_list_by_name {A : Type} (meta : A -> ObjectMeta) f (lister acc : gmap string A) k :
  names_ok meta lister ->
  list_by_name meta f lister acc !! k =
    match lister !! k with Some x => if f (object_labels (meta x)) then Some x else acc !! k | None => acc !! k end.
Proof.
  intros Hnames. unfold list_by_name.
  assert (forall (l : list (string * A)) (acc : gmap string A), NoDup l.*1 -> (forall k x, (k, x) ∈ l -> Name (meta x) = k) ->
    fold_left (fun acc '(_, x) => if f (object_labels (meta x)) then <[Name (meta x) := x]> acc else acc) l acc !! k
    = match (list_to_map l : gmap string A) !! k with Some x => if f (object_labels (meta x)) then Some x else acc !! k | None => acc !! k end) as H.
  { induction l as [|[k' x] l IH]; intros acc' Hnd Hl; [done|]. cbn [fold_left list_to_map foldr fst snd].
    apply NoDup_cons in Hnd as [Hk' Hnd]. rewrite IH; [|done|intros; apply Hl; by right].
    rewrite (Hl k' x) by by left. destruct (decide (k = k')) as [-> |Hne].
    - rewrite lookup_insert_eq, not_elem_of_list_to_map_1 by done. by destruct (f _); rewrite ?lookup_insert_eq.
    - rewrite lookup_insert_ne by done. by destruct (f (object_labels (meta x))); rewrite ?lookup_insert_ne. }
  rewrite H, list_to_map_go_range; [done|apply NoDup_go_range_fst|].
  intros k' x Hx%elem_of_go_range. by apply Hnames.
Qed.

Lemma named_members_sub {A : Type} (key : string -> A -> string) (lister : gmap string A) names :
  (forall k x, lister !! k = Some x -> key k x = k) -> named_members key lister names ⊆ lister.
Proof.
  intros Hkey. unfold named_members. assert (forall acc : gmap string A, acc ⊆ lister ->
    fold_left (fun acc name => match lister !! name with Some x => <[key name x := x]> acc | None => acc end) names acc ⊆ lister) as H.
  { induction names as [|name names IH]; intros acc Hacc; [done|]. cbn [fold_left]. apply IH.
    destruct (lister !! name) as [x|] eqn:E; [|done]. rewrite Hkey by done. by apply insert_subseteq_l. }
  apply H, map_empty_subseteq.
Qed.

Lemma list_by_name_sub {A : Type} (meta : A -> ObjectMeta) f (lister acc : gmap string A) :
  names_ok meta lister -> acc ⊆ lister -> list_by_name meta f lister acc ⊆ lister.
Proof.
  intros Hnames Hacc. apply map_subseteq_spec. intros k x. rewrite lookup_list_by_name by done.
  destruct (lister !! k) as [x'|] eqn:E; [destruct (f _); [by intros [= ->]|]|]; intros Hx; rewrite <- E; by eapply lookup_weaken.
Qed.

Lemma GetNodesByUnit_sub nodes nu m : names_ok node_meta nodes -> GetNodesByUnit nodes nu = inl m -> m ⊆ nodes.
Proof.
  intros Hnames. unfold GetNodesByUnit. assert (named_members (fun name (_ : Node) => name) nodes (sl (nu_Nodes (nu_Spec nu))) ⊆ nodes) as Hsub
    by by apply named_members_sub.
  destruct (nu_Selector (nu_Spec nu)) as [sel|]; [|by intros [= <-]].
  destruct (LabelSelectorAsSelector _) as [f|]; [|done]. intros [= <-]. by apply list_by_name_sub.
Qed.

End MemberLemmas.

Section Reconcile.
Context `{R : GoRange} `{L : LabelSelectors} `{A : SiteServer B}.
Context (UnmarshalKind : string -> string + string) (DecodeInto : Kind -> string -> Object B + string) (bare : B).
Context (ClaimRef : Object B -> option (string * string)) (SelectorString FieldSelectorString : gmap string string -> string).
Context (error_text : api_error -> string) (nodes : gmap string Node) (now : Z) (rand32 rand10 : string).
Implicit Types (nu : NodeUnit) (s : sserver).

Local Notation reconcile :=
  (reconcileNodeUnit UnmarshalKind DecodeInto bare ClaimRef SelectorString FieldSelectorString error_text nodes now rand32 rand10).

(** Nodes are not written; at most their role changes. *)
Definition role_or_other (q : site_request B) : Prop := changes_role q \/ no_node_request q.

Lemma kins_role_or_other (q : site_request B) : kins_request q -> role_or_other q.
Proof. by destruct q; [..|right]; try (by left); try (by right). Qed.

(** A node's label under [key], which no request of the unit's cluster
    touches unless it is the role. *)
Definition label_at (key : string) s k : option string :=
  match snodes s !! k with Some n => object_labels (node_meta n) !! key | None => None end.

Lemma role_or_other_label key (q : site_request B) s k :
  key <> KinsRoleLabelKey -> role_or_other q -> label_at key (fst (sserve q s)) k = label_at key s k.
Proof.
  intros Hkey [Hq|Hq]; unfold label_at; [|by rewrite other_request].
  pose proof (role_request q s Hq k) as Hrel. destruct (snodes s !! k) as [n|], (snodes (fst (sserve q s)) !! k) as [n'|]; try done.
  destruct Hrel as [_ Hl _ _]. by rewrite <- (lookup_delete_ne (object_labels (node_meta n')) KinsRoleLabelKey), Hl, lookup_delete_ne.
Qed.

Lemma update_status_requests nu nodeMap ucerr :
  all_requests role_or_other (update_status (B := B) error_text now nu nodeMap ucerr).
Proof. unfold update_status. case_bool_decide; [done|]. apply all_andthen; [|done]. apply all_call. by right. Qed.

(** C34: after a pass over a unit, the nodes that carry the unit's label are
    exactly its members: those that left have lost it, and all members have it.
    What becomes of the unit's own cluster and of the status does not matter.
    The unit names nodes (one that only selects them never cleans up the nodes
    that left), sets its own label (a pass over one that does not only writes
    it into the unit), and sets no annotations, empty label values or empty
    list of taints; its name is a label key other than that of a node's role in
    the cluster; the lister's nodes are those of the server, which admits what
    is written; and no node that left has a role in the cluster. *)
Theorem reconcileNodeUnit_members (nu : NodeUnit) (members : gmap string Node) (f : gmap string string -> bool) (s : sserver)
  (Hmembers : GetNodesByUnit nodes nu = inl members) (Hreq : NewRequirement (unit_name nu) NodeUnitSuperedge = inl f)
  (Hself : labels_itself nu = true) (Hnamed : sl (nu_Nodes (nu_Spec nu)) <> []) (Hset : settable (unit_sets nu))
  (Hkey : unit_name nu <> KinsRoleLabelKey) (Hnames : names_ok node_meta nodes) (Hs : snodes s = nodes)
  (Hadmits : forall k n, members !! k = Some n -> node_ok (set_node (unit_sets nu) n))
  (Hleft : forall k n, nodes !! k = Some n -> members !! k = None -> node_ok (clean_node nu n) /\ without_role nu n) :
  wp sserve (reconcile nu) (fun s' _ _ => forall k,
    label_at (unit_name nu) s' k = Some NodeUnitSuperedge <-> is_Some (members !! k)) s.
Proof.
  unfold reconcileNodeUnit. rewrite Hmembers, Hreq, Hself. cbn [negb].
  pose proof (GetNodesByUnit_sub nodes nu members Hnames Hmembers) as Hsub.
  assert (forall k, labelled_nodes nodes f !! k = match nodes !! k with Some n => if f (object_labels (node_meta n)) then Some n else None | None => None end) as Hcur
    by (intros k; unfold labelled_nodes; rewrite lookup_list_by_name by done; by destruct (nodes !! k)).
  assert (forall k n, gc_nodes (labelled_nodes nodes f) members !! k = Some n <->
    nodes !! k = Some n /\ object_labels (node_meta n) !! unit_name nu = Some NodeUnitSuperedge /\ members !! k = None) as Hgc.
  { intros k n. unfold gc_nodes. rewrite map_lookup_filter_Some, Hcur. simpl.
    assert (forall l, f l = true <-> l !! unit_name nu = Some NodeUnitSuperedge) as Hf by (intros l; by apply requirement_in).
    destruct (nodes !! k) as [n0|]; [|split; [by intros []|by intros (? & _)]].
    destruct (f (object_labels (node_meta n0))) eqn:Ef.
    - apply Hf in Ef. split; [intros [[= <-] Hk]; by split_and!|intros (-> & _ & Hk); done].
    - split; [by intros []|]. intros ([= ->] & Hl & _). apply Hf in Hl. congruence. }
  apply bool_decide_eq_true in Hself.
  rewrite wp_andthen. eapply wp_mono; [apply DeleteNodesFromSetNode_pass; [done| |]|].
  - intros k n (Hn & _ & _)%Hgc. rewrite Hs. split; [by apply Hnames|done].
  - intros k n (Hn & _ & Hk)%Hgc. by apply (Hleft k).
  - cbn beta. intros s1 t1 r1 (-> & Hclean & Hother). rewrite wp_andthen.
    assert (forall k, members !! k = None -> label_at (unit_name nu) s1 k <> Some NodeUnitSuperedge) as Hout.
    { intros k Hk. unfold label_at. destruct (gc_nodes (labelled_nodes nodes f) members !! k) as [n|] eqn:E.
      - destruct (Hclean k n E) as (n' & -> & Hc). rewrite (cleaned_labels _ _ _ Hc), decide_True; [done|]. rewrite Hself. by eexists.
      - rewrite Hother, Hs by done. destruct (nodes !! k) as [n|] eqn:En; [|done]. intros Hl.
        assert (gc_nodes (labelled_nodes nodes f) members !! k = Some n) by (by apply Hgc). congruence. }
    eapply wp_mono; [apply SetNodeToNodes_pass; [done| |]|].
    + intros k n Hn. pose proof (lookup_weaken _ _ _ _ Hn Hsub) as Hn'. split; [by apply Hnames|].
      rewrite Hother, Hs; [done|]. apply eq_None_not_Some. intros [n0 (_ & _ & ?)%Hgc]. congruence.
    + done.
    + cbn beta. intros s2 t2 r2 (-> & Hon & Hother2).
      eapply wp_mono; [apply (wp_all_requests role_or_other sserve _ (fun s' => forall k,
        label_at (unit_name nu) s' k = Some NodeUnitSuperedge <-> is_Some (members !! k)))|cbn beta; by intros s3 t3 r3 []].
      * apply all_bind; [apply ReconcileUnitCluster_requests; [apply kins_role_or_other|by right]|intros; apply update_status_requests].
      * intros q s3 Hq HI k. by rewrite role_or_other_label.
      * intros k. destruct (members !! k) as [n|] eqn:E.
        -- destruct (Hon k n E) as (n' & Hn' & Hson). split; [by eexists|]. intros _. unfold label_at. rewrite Hn', (on_labels _ _ _ Hson).
           by apply lookup_union_Some_l.
        -- unfold label_at. rewrite Hother2 by done. split; [|by intros []]. intros Hl. by destruct (Hout k E).
Qed.

End Reconcile.

Lemma names_ok_dec {A : Type} (meta : A -> ObjectMeta) (lister : gmap string A) :
  bool_decide (map_Forall (fun k x => Name (meta x) = k) lister) = true -> names_ok meta lister.
Proof. by intros H%bool_decide_eq_true. Qed.

(** [c] carries the label of the unit that names [a] and [b]. *)
Definition ex_left : gmap string Node :=
  <["c"%string := ex_site_node "c" (Some (<["os" := "linux"]> {[ "u" := NodeUnitSuperedge ]}))%string (Some [mkTaint "k" "w" "NoExecute"])]> ex_site_nodes.

Lemma reconcileNodeUnit_members_witness :
  wp node_serve (reconcileNodeUnit (R := range_in_key_order) (L := plain_selectors) (B := unit) ex_unmarshal ex_decode tt (fun _ => None)
      (fun _ => EmptyString) (fun _ => EmptyString) (fun _ => EmptyString) ex_left 0 EmptyString EmptyString ex_site_unit)
    (fun s' _ _ => forall k, label_at (A := node_server unit) "u" s' k = Some NodeUnitSuperedge <-> is_Some (ex_site_nodes !! k)) ex_left.
Proof.
  apply (reconcileNodeUnit_members (R := range_in_key_order) (L := plain_selectors) (A := node_server unit) ex_unmarshal ex_decode tt
    (fun _ => None) (fun _ => EmptyString) (fun _ => EmptyString) (fun _ => EmptyString) ex_left 0 EmptyString EmptyString
    ex_site_unit ex_site_nodes (fun l => bool_decide (l !! "u"%string = Some NodeUnitSuperedge)) ex_left).
  - vm_compute. reflexivity.
  - reflexivity.
  - by_compute.
  - done.
  - apply ex_settable.
  - done.
  - apply names_ok_dec. vm_compute. reflexivity.
  - done.
  - assert (map_Forall (fun _ n => unique_taints (set_node ex_sets n)) ex_site_nodes) as H by by_compute. exact H.
  - assert (map_Forall (fun _ n => unique_taints (clean_node ex_site_unit n)
      /\ object_labels (node_meta n) !! KinsRoleLabelKey = None) ex_left) as H by by_compute.
    intros k n Hn _. destruct (H k n Hn) as (? & ?). split; [done|by right].
Defined.

(** ** Events of nodes *)

Lemma elem_of_marked_names `{R : GoRange} mark m k : k ∈ marked_names mark m <-> object_labels m !! k = Some mark.
Proof.
  unfold marked_names. rewrite list_elem_of_fmap. split.
  - intros ([k' v] & -> & [Hv Hin]%list_elem_of_filter). apply elem_of_go_range in Hin. simpl in *. by subst.
  - intros Hk. exists (k, mark). split; [done|]. apply list_elem_of_filter. split; [done|]. by apply elem_of_go_range.
Qed.

Lemma look_up_all_found {A : Type} (lister : gmap string A) names :
  (exists l, look_up_all lister names = inl l) <-> forall name, name ∈ names -> is_Some (lister !! name).
Proof.
  induction names as [|n names IH]; cbn [look_up_all foldr].
  { split; [by intros _ name ?%elem_of_nil|by exists []]. }
  fold (look_up_all lister names). split.
  - intros [l Hl] name [->|Hin]%elem_of_cons; [by destruct (lister !! n)|]. apply IH; [|done].
    destruct (lister !! n); [|done]. destruct (look_up_all lister names) as [l'|]; [by exists l'|done].
  - intros H. destruct (H n) as [x ->]; [by left|]. destruct (proj2 IH) as [l ->]; [|by eexists]. intros name Hin. apply H. by right.
Qed.

(** A node puts the units it is marked for on the queue, if all of them exist;
    if one is missing, it puts none. *)
Lemma enqueue_units_spec `{R : GoRange} (units : gmap string NodeUnit) (n : Node) :
  enqueue_units units n =
    if decide (map_Forall (fun k v => v = NodeUnitSuperedge -> is_Some (units !! k)) (object_labels (node_meta n)))
    then Some (marked_names NodeUnitSuperedge (node_meta n)) else None.
Proof.
  unfold enqueue_units, GetUnitsByNode. pose proof (look_up_all_found units (marked_names NodeUnitSuperedge (node_meta n))) as Hall.
  assert ((forall name, name ∈ marked_names NodeUnitSuperedge (node_meta n) -> is_Some (units !! name))
    <-> map_Forall (fun k v => v = NodeUnitSuperedge -> is_Some (units !! k)) (object_labels (node_meta n))) as Heq.
  { setoid_rewrite elem_of_marked_names. unfold map_Forall. naive_solver. }
  rewrite Heq in Hall. destruct (decide _) as [H|H].
  - by apply Hall in H as [l ->].
  - destruct (look_up_all units _) as [l|]; [|done]. destruct H. apply Hall. by exists l.
Qed.

(** ** Updates *)

Lemma mp_filter_unset (old new : gomap string) k :
  is_Some (mp (Some (filter (fun kv : string * string => mp new !! fst kv = None) (mp old))) !! k)
  <-> is_Some (mp old !! k) /\ mp new !! k = None.
Proof.
  cbn [mp default from_option id]. split.
  - by intros [v [Hv Hk]%map_lookup_filter_Some].
  - intros [[v Hv] Hk]. exists v. by apply map_lookup_filter_Some.
Qed.

Section Updates.
Context `{R : GoRange} `{L : LabelSelectors} `{A : SiteServer B}.
Context (ClaimRef : Object B -> option (string * string)) (SelectorString FieldSelectorString : gmap string string -> string).
Context (nodes : gmap string Node).

(** What a unit's update removes from a node: the labels and annotations under
    keys the unit set and does not any more, and the taints with the key of
    one it does not set any more. *)
Record unset_from (old new : SetNode) (n n' : Node) : Prop := {
  unset_labels : forall k, object_labels (node_meta n') !! k =
    if decide (is_Some (mp (set_Labels old) !! k) /\ mp (set_Labels new) !! k = None) then None
    else object_labels (node_meta n) !! k;
  unset_annotations : forall k, mp (Annotations (node_meta n')) !! k =
    if decide (is_Some (mp (set_Annotations old) !! k) /\ mp (set_Annotations new) !! k = None) then None
    else mp (Annotations (node_meta n)) !! k;
  unset_taints : forall t, t ∈ sl (node_Taints n') <->
    t ∈ sl (node_Taints n) /\ ~ exists u, u ∈ sl (set_Taints old) /\ u ∉ sl (set_Taints new) /\ tt_Key u = tt_Key t
}.

Lemma cleared_unset (old new : NodeUnit) (n n' : Node) : without_role old n ->
  cleaned (fst (updateNodeUnit old new)) n n' -> unset_from (unit_sets old) (unit_sets new) n n'.
Proof.
  intros Hrole [_ Hl Ha Ht]. split.
  - intros k. rewrite Hl. etransitivity; [apply (decide_ext _ _ _ _ (mp_filter_unset (set_Labels (unit_sets old)) (set_Labels (unit_sets new)) k))|].
    case (decide (is_Some (mp (set_Labels (unit_sets old)) !! k) /\ mp (set_Labels (unit_sets new)) !! k = None)); intros Hk; [done|].
    match goal with |- (if decide ?P then _ else _) = _ => destruct (decide P) as [(-> & _ & Hnot)|]; [|done] end.
    by destruct Hrole as [ |Hr]; [|rewrite Hr].
  - intros k. rewrite Ha. apply (decide_ext _ _ _ _ (mp_filter_unset (set_Annotations (unit_sets old)) (set_Annotations (unit_sets new)) k)).
  - intros t. rewrite Ht. cbn [updateNodeUnit fst unit_sets with_SetNode with_unit_spec nu_Spec nu_SetNode cleared set_Taints sl default from_option id].
    assert (tt_Key t ∈ tt_Key <$> filter (fun t => TaintInSlices (sl (set_Taints (nu_SetNode (nu_Spec new)))) t = false)
                (sl (set_Taints (nu_SetNode (nu_Spec old))))
      <-> exists u, u ∈ sl (set_Taints (nu_SetNode (nu_Spec old))) /\ u ∉ sl (set_Taints (nu_SetNode (nu_Spec new))) /\ tt_Key u = tt_Key t) as Hu; [|by rewrite Hu].
    rewrite list_elem_of_fmap. split; intros (u & Hu).
    + destruct Hu as (-> & [Hf Hin]%list_elem_of_filter). exists u. split_and!; [done| |done]. rewrite <- TaintInSlices_elem. by rewrite Hf.
    + destruct Hu as (Hin & Hf & <-). exists u. split; [done|]. apply list_elem_of_filter. split; [|done].
      apply not_true_iff_false. by rewrite TaintInSlices_elem.
Qed.

(** The work that an update puts on the deleter's queue removes from the
    members of the old unit what the old unit set and the new one does not,
    and nothing else of their labels and annotations; of their taints it also
    removes those that only share their key with one that is not set any more.
    Other nodes are left alone. *)
Theorem updateNodeUnit_unsets (old new : NodeUnit) (members : gmap string Node) (s : sserver)
  (Hmembers : GetNodesByUnit nodes old = inl members) (Hnamed : sl (nu_Nodes (nu_Spec old)) <> [])
  (Hnames : names_ok node_meta nodes) (Hs : snodes s = nodes)
  (Hok : forall k n, members !! k = Some n -> node_ok (clean_node (fst (updateNodeUnit old new)) n) /\ without_role old n) :
  wp sserve (deleter_sync ClaimRef SelectorString FieldSelectorString nodes (fst (updateNodeUnit old new))) (fun s1 _ r => r = inl tt
    /\ (forall k n, members !! k = Some n -> exists n', snodes s1 !! k = Some n' /\ unset_from (unit_sets old) (unit_sets new) n n')
    /\ forall k, members !! k = None -> snodes s1 !! k = nodes !! k) s.
Proof.
  pose proof (GetNodesByUnit_sub nodes old members Hnames Hmembers) as Hsub. unfold deleter_sync.
  change (GetNodesByUnit nodes (fst (updateNodeUnit old new))) with (GetNodesByUnit nodes old). rewrite Hmembers.
  eapply wp_mono; [apply DeleteNodesFromSetNode_pass; [done| |]|].
  - intros k n Hn. pose proof (lookup_weaken _ _ _ _ Hn Hsub) as Hn'. rewrite Hs. split; [by apply Hnames|done].
  - intros k n Hn. by apply (Hok k).
  - cbn beta. intros s1 t r (-> & Hclean & Hother). split_and!; [done| |by intros; rewrite Hother, Hs].
    intros k n Hn. destruct (Hclean k n Hn) as (n' & Hn' & Hc). exists n'. split; [done|].
    apply cleared_unset; [by apply (Hok k)|done].
Qed.

End Updates.

(** The taint's value changes: with the old one, the new one goes too. *)
Definition ex_new_unit : NodeUnit := with_SetNode ex_site_unit (mkSetNode (Some {[ "u"%string := NodeUnitSuperedge ]}) None (Some [mkTaint "k" "w" "NoExecute"])).

Lemma updateNodeUnit_unsets_witness :
  wp node_serve (deleter_sync (R := range_in_key_order) (L := plain_selectors) (B := unit) (fun _ => None) (fun _ => EmptyString)
      (fun _ => EmptyString) ex_left (fst (updateNodeUnit ex_site_unit ex_new_unit)))
    (fun s1 _ r => r = inl tt
      /\ (forall k n, ex_site_nodes !! k = Some n -> exists n', s1 !! k = Some n' /\ unset_from ex_sets (unit_sets ex_new_unit) n n')
      /\ forall k, ex_site_nodes !! k = None -> s1 !! k = ex_left !! k) ex_left.
Proof.
  apply (updateNodeUnit_unsets (R := range_in_key_order) (L := plain_selectors) (A := node_server unit) (fun _ => None) (fun _ => EmptyString)
    (fun _ => EmptyString) ex_left ex_site_unit ex_new_unit ex_site_nodes ex_left).
  - vm_compute. reflexivity.
  - done.
  - apply names_ok_dec. vm_compute. reflexivity.
  - done.
  - assert (map_Forall (fun _ n => unique_taints (clean_node (fst (updateNodeUnit ex_site_unit ex_new_unit)) n)
      /\ object_labels (node_meta n) !! KinsRoleLabelKey = None) ex_site_nodes) as H by by_compute.
    intros k n Hn. destruct (H k n Hn) as (? & ?). split; [done|by right].
Defined.

(** ** Deletion *)

Definition finalized (nu : NodeUnit) : bool := ContainsFinalizer (nu_Finalizers nu) NodeUnitFinalizerID.

Lemma ContainsFinalizer_elem f id : ContainsFinalizer f id = true <-> id ∈ f.
Proof. apply FoundNode_elem. Qed.

Lemma AddFinalizer_contains f id : ContainsFinalizer (AddFinalizer f id) id = true.
Proof.
  unfold AddFinalizer. destruct (ContainsFinalizer f id) eqn:E; [done|].
  apply ContainsFinalizer_elem, elem_of_app. right. by apply list_elem_of_singleton.
Qed.

Section Finalizer.
Context `{R : GoRange} `{L : LabelSelectors} {B S : Type} (serve : forall q : site_request B, S -> S * (site_answer q + api_error)).
Context (UnmarshalKind : string -> string + string) (DecodeInto : Kind -> string -> Object B + string) (bare : B).
Context (ClaimRef : Object B -> option (string * string)) (SelectorString FieldSelectorString : gmap string string -> string).
Context (error_text : api_error -> string).
Context (units : gmap string NodeUnit) (nodes : gmap string Node) (now : Z) (rand32 rand10 : string).
Implicit Types (nu : NodeUnit).

Local Notation reconcile :=
  (reconcileNodeUnit UnmarshalKind DecodeInto bare ClaimRef SelectorString FieldSelectorString error_text nodes now rand32 rand10).
Local Notation sync :=
  (syncUnit UnmarshalKind DecodeInto bare ClaimRef SelectorString FieldSelectorString error_text units nodes now rand32 rand10).

(** Units are written with the finalizer. *)
Definition keeps_finalizer (q : site_request B) : Prop := match q with WriteUnit nu => finalized nu = true | _ => True end.

Lemma DeleteNodes_keeps nu m : all_requests keeps_finalizer (DeleteNodes (B := B) ClaimRef SelectorString FieldSelectorString nu m).
Proof.
  unfold DeleteNodes, DeleteNodesFromSetNode. destruct (sl _); [done|]. apply all_each. intros [k n] _.
  apply all_andthen; [by apply all_call|]. intros _. unfold delete_role. destruct (FoundNode _ _); [done|].
  destruct (_ !! KinsRoleLabelKey); [|done]. apply all_andthen; [|intros _; by apply all_unless_gone, all_call].
  apply all_bind; [by apply all_call|]. intros [pv|[]]; try done. apply all_andthen; [by apply all_call|]. intros _.
  apply all_andthen; [by apply all_unless_gone, all_call|]. intros _. unfold delete_claim. destruct (ClaimRef pv) as [[]|]; [|done].
  apply all_andthen; [by apply all_call|]. intros _. by apply all_unless_gone, all_call.
Qed.

Lemma SetNodeToNodes_keeps nu m : all_requests keeps_finalizer (SetNodeToNodes (B := B) nu m).
Proof. apply all_each. intros [k n] _. destruct (node_is_set _ _); [done|by apply all_call]. Qed.

Lemma reconcile_keeps nu : finalized nu = true -> all_requests keeps_finalizer (reconcile nu).
Proof.
  intros Hf. unfold reconcileNodeUnit. destruct (GetNodesByUnit nodes nu) as [m|]; [|done]. destruct (NewRequirement _ _) as [f|]; [|done].
  apply all_andthen; [apply DeleteNodes_keeps|]. intros _. destruct (negb (labels_itself nu)).
  - apply all_andthen; [by apply all_call|done].
  - apply all_andthen; [apply SetNodeToNodes_keeps|]. intros _. apply all_bind.
    + apply ReconcileUnitCluster_requests; [by intros []|done].
    + intros u. unfold update_status. case_bool_decide; [done|]. apply all_andthen; [by apply all_call|done].
Qed.

Lemma reconcile_result nu : results (if_ok (fun nu' => nu_Finalizers nu' = nu_Finalizers nu /\ nu_meta nu' = nu_meta nu)) (reconcile nu).
Proof.
  unfold reconcileNodeUnit. destruct (GetNodesByUnit nodes nu) as [m|]; [|done]. destruct (NewRequirement _ _) as [f|]; [|done].
  apply results_andthen. intros _. destruct (negb (labels_itself nu)).
  - apply results_andthen. by intros _.
  - apply results_andthen. intros _. eapply results_bind; [apply results_any|]. intros u _. unfold update_status.
    destruct (String.eqb _ _); case_bool_decide; try done; apply results_andthen; by intros _.
Qed.

(** C35: a unit is let go, that is written without its finalizer, only while it
    is being deleted, at level L3, after [reconcileNodeUnit] has returned
    without an error and the deleter has been given the unit.  Every other
    write of a unit, in any pass and whatever the server answers, has the
    finalizer.  That [reconcileNodeUnit] returns without an error does not mean
    that everything is done: the error of [ReconcileUnitCluster] is only noted
    in the status, and for a unit that does not set its own label the pass ends
    when the label has been written. *)
Theorem syncUnit_lets_go (key : string) (s : S) :
  wp serve (sync key) (fun _ t r => forall nu', WriteUnit nu' ∈ t -> finalized nu' = false ->
    exists nu nu1 t0, units !! key = Some nu /\ DeletionTimestamp (nu_meta nu) <> None
      /\ nu_AutonomyLevel (nu_Spec nu) = AutonomyLevelL3
      /\ wp serve (reconcile nu) (fun _ t1 r1 => t1 = t0 /\ r1 = inl nu1) s
      /\ t = t0 ++ [QueueDeletion nu1; WriteUnit nu'] /\ nu_meta nu' = nu_meta nu
      /\ Forall keeps_finalizer t0) s.
Proof.
  assert (forall t nu', Forall keeps_finalizer t -> WriteUnit nu' ∈ t -> finalized nu' = false -> False) as Hno.
  { intros t nu' Ht Hin. rewrite Forall_forall in Ht. specialize (Ht _ Hin). simpl in Ht. congruence. }
  assert (forall p : site B unit, all_requests keeps_finalizer p -> wp serve p (fun _ t _ => Forall keeps_finalizer t) s) as Hall.
  { intros p Hp. eapply wp_mono; [by apply (wp_all_requests keeps_finalizer serve p (fun _ => True))|]. by intros s' t a []. }
  unfold syncUnit. destruct (units !! key) as [nu|] eqn:Hnu; [|apply wp_ok; by intros nu' ?%elem_of_nil].
  destruct (DeletionTimestamp (nu_meta nu)) eqn:Hdel.
  2:{ eapply wp_mono; [apply Hall|by intros s' t r Ht nu' Hin ?; destruct (Hno t nu')].
      destruct (ContainsFinalizer _ _) eqn:Hf; [apply all_andthen; [by apply reconcile_keeps|done]|].
      apply all_andthen; [apply all_call, AddFinalizer_contains|]. intros _.
      apply all_andthen; [apply reconcile_keeps, AddFinalizer_contains|done]. }
  destruct (ContainsFinalizer _ _) eqn:Hf; cbn [negb]; [|apply wp_ok; by intros nu' ?%elem_of_nil].
  destruct (String.eqb _ AutonomyLevelL3) eqn:Hlev; cbn [negb]; [apply String.eqb_eq in Hlev|].
  2:{ eapply wp_mono; [apply Hall|by intros s' t r Ht nu' Hin ?; destruct (Hno t nu')]. by apply all_bind; [apply all_call|]. }
  apply wp_andthen. eapply wp_mono.
  - apply wp_conj; [apply (wp_all_requests keeps_finalizer serve (reconcile nu) (fun _ => True)); [by apply reconcile_keeps|done|done]|].
    apply wp_conj; [apply wp_results, reconcile_result|].
    instantiate (1 := fun s' t r => run serve (reconcile nu) s = (s', t, r)). unfold wp. by destruct (run _ _ _) as [[]].
  - cbn beta. intros s1 t0 [nu1|e] ([_ Ht0] & Hres & Hrun).
    2:{ intros nu' Hin Hfin. by destruct (Hno t0 nu'). }
    destruct Hres as [_ Hmeta]. apply wp_andthen, (wp_call serve (QueueDeletion nu1)). destruct (serve _ _) as [s2 [u|e]] eqn:E; cbn [fst snd].
    + apply (wp_call serve (WriteUnit _)). intros nu' Hin Hfin. exists nu, nu1, t0.
      assert (WriteUnit nu' = WriteUnit (B := B) (with_unit_finalizers nu1 (RemoveFinalizer (nu_Finalizers nu1) NodeUnitFinalizerID))) as [= ->].
      { apply elem_of_app in Hin as [Hin|Hin]; [by destruct (Hno t0 nu')|]. cbn [app] in Hin.
        apply elem_of_cons in Hin as [?|Hin]; [done|]. by apply list_elem_of_singleton in Hin. }
      split_and!; try done; [by rewrite Hdel|]. unfold wp. by rewrite Hrun.
    + intros nu' Hin Hfin. apply elem_of_app in Hin as [Hin|Hin]; [by destruct (Hno t0 nu')|].
      by apply list_elem_of_singleton in Hin.
Qed.

End Finalizer.
