(* ===== verification/SiteGroup.v ===== *)
(** * Site manager: the node group controller (site-manager/controller/node_group.go, deleter/group_deleter.go)

    A group labels its units and, for its auto-find keys, makes one unit for
    every combination of values that some node has for these keys.  The
    theorems show which units carry the group's label after a pass, and that
    the unit made for a node selects exactly the nodes with the same values. *)

From Stdlib Require Import ZArith Lia Ascii String.
From stdpp Require Import base strings gmap numbers sorting list.
From S2P Require Import Prelude.
From S2P Require Import GoStd.
From S2P Require Import GoSort.
From S2P Require Import Sha1.
From S2P Require Import K8s.
From S2P Require Import Requests.
From S2P Require Import WorkQueue.
From S2P Require Import KubeClient.
From S2P Require Import SiteNodes.
From S2P Require Import SiteUnit.

Local Open Scope Z_scope.
Local Open Scope go_scope.

Definition NodeGroupFinalizerID : string := "site.superedge.io/finalizer".
Definition EdgeNodeUnit : string := "unit-node-edge".

Definition group_name (ng : NodeGroup) : string := Name (ng_meta ng).
Definition with_group_finalizers (ng : NodeGroup) (f : list string) : NodeGroup := mkNodeGroup (ng_meta ng) f (ng_Spec ng) (ng_Status ng).
Definition with_group_status (ng : NodeGroup) (st : NodeGroupStatus) : NodeGroup := mkNodeGroup (ng_meta ng) (ng_Finalizers ng) (ng_Spec ng) st.

(** [HashAutoFindKeys] and [checkIfContains] sort the group's keys in place. *)
Definition with_sorted_keys (ng : NodeGroup) : NodeGroup :=
  let sp := ng_Spec ng in
  mkNodeGroup (ng_meta ng) (ng_Finalizers ng)
    (mkNodeGroupSpec (ng_NodeUnits sp) (ng_Selector sp) (option_map Strings (ng_AutoFindNodeKeys sp))) (ng_Status ng).

(** ** Events *)

Section Events.
Context `{R : GoRange}.
Context (groups : gmap string NodeGroup).

Definition addNodeGroup (ng : NodeGroup) : list string := [group_name ng].
Definition updateNodeGroup (oldNg newNg : NodeGroup) : list string := [group_name newNg].
Definition deleteNodeGroup (obj : deleted NodeGroup) : list string :=
  match deleted_object obj with None => [] | Some ng => [group_name ng] end.

(** The groups a unit names, if they all exist. *)
Definition enqueue_groups (nu : NodeUnit) : option (list string) :=
  match GetGroupsByUnit groups nu with inl (_, groupList) => Some groupList | inr _ => None end.

Definition group_deleteNodeUnit (obj : deleted NodeUnit) : list string :=
  match deleted_object obj with None => [] | Some nu => default [] (enqueue_groups nu) end.

Definition group_addNodeUnit (nu : NodeUnit) : list string :=
  match DeletionTimestamp (nu_meta nu) with
  | Some _ => group_deleteNodeUnit (DeletedObject nu)
  | None => default [] (enqueue_groups nu)
  end.

Definition group_updateNodeUnit (oldRV newRV : string) (oldNu newNu : NodeUnit) : list string :=
  if String.eqb oldRV newRV then []
  else if bool_decide (marks NodeGroupSuperedge (nu_meta oldNu) = marks NodeGroupSuperedge (nu_meta newNu))
       then default [] (enqueue_groups newNu)
       else match enqueue_groups oldNu with
            | None => []
            | Some groupList => groupList ++ default [] (enqueue_groups newNu)
            end.

End Events.

(** ** Units found by key *)

Definition withCheckContains (name : string) : bool := existsb (fun c => Ascii.eqb c "/") (list_ascii_of_string name).
Definition withCheckSize (name : string) : bool := (64 <=? String.length name)%nat.
Definition hashString (name : string) : string := sha1_hex name.
Definition filterString (name : string) : string := if withCheckContains name || withCheckSize name then hashString name else name.

(** The loop over the sorted keys: the name so far and the selector. *)
Fixpoint key_values (nodelabel : gmap string string) (res : string) (sel : gmap string string) (keys : list string) :
    bool * string * gmap string string :=
  match keys with
  | [] => (true, filterString res, sel)
  | value :: keys =>
      match nodelabel !! value with
      | Some v => key_values nodelabel (if String.eqb res EmptyString then v else res +:+ "-" +:+ v) (<[value := v]> sel) keys
      | None => (false, EmptyString, sel)
      end
  end.

Definition checkIfContains (nodelabel : gmap string string) (keyslices : list string) : bool * string * gmap string string :=
  key_values nodelabel EmptyString ∅ (Strings keyslices).

Definition checkOwnerReferenceContains (owner : OwnerReference) (tmpSlice : list OwnerReference) : bool :=
  existsb (fun value => bool_decide (value = owner)) tmpSlice.

Definition found_labels (ng : NodeGroup) (keyslices : list string) : gmap string string :=
  <[group_name ng := NodeGroupSuperedge]> {[ NodeUnitAutoFindLabel := HashAutoFindKeys keyslices ]}.

(** The unit of a group for the values [sel] of its keys. *)
Definition found_unit (ng : NodeGroup) (newname : string) (keyslices : list string) (sel : gmap string string) : NodeUnit :=
  mkNodeUnit (mkObjectMeta newname EmptyString EmptyString (Some (found_labels ng keyslices)) (Some sel) None None) []
    (mkNodeUnitSpec EdgeNodeUnit false None (Some (mkSelector (Some sel) None None))
      (mkSetNode (Some (<[newname := NodeUnitSuperedge]> {[ group_name ng := newname ]})) None None) EmptyString None None)
    (mkNodeUnitStatus EmptyString None None (mkUnitClusterStatus EmptyString EmptyString None EmptyString)).

Definition with_match_labels (nu : NodeUnit) (s : Selector) : NodeUnit :=
  let sp := nu_Spec nu in
  with_unit_spec nu (mkNodeUnitSpec (nu_Type sp) (nu_Unschedulable sp) (nu_Nodes sp) (Some s) (nu_SetNode sp)
    (nu_AutonomyLevel sp) (nu_CredentialRef sp) (nu_ClusterInfo sp)).

(** A pass stops with an error, or panics. *)
Inductive stop : Type := Failed (e : api_error) | Panicked.

Section Sync.
Context `{R : GoRange} `{L : LabelSelectors} {B : Type}.
(** The listers. *)
Context (groups : gmap string NodeGroup) (units : gmap string NodeUnit) (nodes : gmap string Node).
Implicit Types (ng : NodeGroup) (nu : NodeUnit).

Definition failing {A : Type} (m : site B A) : act (@site_answer B) stop A := map_error Failed m.

(** A unit of that name without a selector makes the code dereference nil. *)
Definition newNodeUnit ng (newname : string) (keyslices : list string) (sel : gmap string string) : act (@site_answer B) stop unit :=
  reply! r := get_unit newname in
  match r with
  | inr NotFound => failing (create_unit (found_unit ng newname keyslices sel))
  | inr err => fail (Failed err)
  | inl currentNu =>
      match nu_Selector (nu_Spec currentNu) with
      | None => fail Panicked
      | Some s =>
          if bool_decide (sel_MatchLabels s <> Some sel) || bool_decide (Labels (nu_meta currentNu) <> Some (found_labels ng keyslices))
          then failing (write_unit
            (with_unit_meta (with_match_labels currentNu (mkSelector (Some sel) (sel_MatchExpressions s) (sel_Annotations s)))
              (with_labels (nu_meta currentNu) (Some (found_labels ng keyslices)))))
          else ok tt
      end
  end.

(** Its errors are ignored; a panic is not. *)
Definition unless_panic (m : act (@site_answer B) stop unit) : act (@site_answer B) stop unit :=
  reply! r := m in match r with inr Panicked => fail Panicked | _ => ok tt end.

Definition autoFindNodeKeysByNodeGroup ng : act (@site_answer B) stop unit :=
  let keys := sl (ng_AutoFindNodeKeys (ng_Spec ng)) in
  each (fun '(_, node) =>
    if bool_decide (object_labels (node_meta node) = ∅) then ok tt
    else let '(found, newUnitName, newUnitSelector) := checkIfContains (object_labels (node_meta node)) keys in
         if found && bool_decide (newUnitSelector <> ∅)
         then unless_panic (newNodeUnit ng newUnitName (Strings keys) newUnitSelector) else ok tt) (go_range nodes).

(** The units that carry the group's label, and those of them that left. *)
Definition labelled_units (f : gmap string string -> bool) : gmap string NodeUnit := list_by_name nu_meta f units ∅.
Definition gc_units (current members : gmap string NodeUnit) : gmap string NodeUnit :=
  filter (fun kv => members !! fst kv = None) current.

Definition reconcileNodeGroup ng : act (@site_answer B) stop unit :=
  match GetUnitByGroup units ng with
  | inr err => fail (Failed err)
  | inl unitMap =>
      let ng := with_sorted_keys ng in
      match LabelSelectorAsSelector (mkLabelSelector (Some {[ group_name ng := NodeGroupSuperedge ]}) None) with
      | inr err => fail (Failed err)
      | inl f =>
          do! failing (DeleteNodeUnitFromSetNode ng (gc_units (labelled_units f) unitMap)) in
          do! (match sl (ng_AutoFindNodeKeys (ng_Spec ng)) with [] => ok tt | _ => autoFindNodeKeysByNodeGroup ng end) in
          do! failing (SetNodeToNodeUnits ng unitMap) in
          let newStatus := CaculateNodeGroupStatus unitMap in
          if bool_decide (newStatus = ng_Status ng) then ok tt
          else failing (write_group_status (with_group_status ng newStatus))
      end
  end.

(** The deleter's [Delete], with the group as it leaves it. *)
Definition group_deleter_Delete ng : site B NodeGroup :=
  match GetUnitByGroup units ng with
  | inr err => fail err
  | inl unitMap => do! DeleteNodeUnitFromSetNode ng unitMap in ok (with_sorted_keys ng)
  end.

Definition syncGroup (key : string) : act (@site_answer B) stop unit :=
  match groups !! key with
  | None => ok tt
  | Some ng =>
      match DeletionTimestamp (ng_meta ng) with
      | None =>
          if ContainsFinalizer (ng_Finalizers ng) NodeGroupFinalizerID then reconcileNodeGroup ng
          else
            let ng := with_group_finalizers ng (AddFinalizer (ng_Finalizers ng) NodeGroupFinalizerID) in
            do! failing (write_group ng) in reconcileNodeGroup ng
      | Some _ =>
          if negb (ContainsFinalizer (ng_Finalizers ng) NodeGroupFinalizerID) then ok tt
          else
            let! ng := failing (group_deleter_Delete ng) in
            failing (write_group (with_group_finalizers ng (RemoveFinalizer (ng_Finalizers ng) NodeGroupFinalizerID)))
      end
  end.

End Sync.

(** *** The tests of node_group_test.go *)

Example TestCheckifcontains :
  fst (checkIfContains {[ "localzone" := "eu-west-1"; "usage" := "edge" ]} ["localzone"]) = (true, "eu-west-1")
  /\ fst (checkIfContains {[ "localzone" := "eu-west-2"; "kubernetes.io/arch" := "arm64"; "kubernetes.io/hostname" := "vm-111-centos";
        "kubernetes.io/os" := "linux" ]} ["kubernetes.io/hostname"; "kubernetes.io/os"]) = (true, "vm-111-centos-linux")
  /\ fst (checkIfContains {[ "localzone" := "eu-west-2"; "kubernetes.io/arch" := "arm64" ]} ["beta.kubernetes.io/os"]) = (false, EmptyString).
Proof. by_compute. Qed.

(** Different values can give the same name. *)
Example same_name :
  let l1 : gmap string string := {[ "a" := "x-y"; "b" := "z" ]} in
  let l2 : gmap string string := {[ "a" := "x"; "b" := "y-z" ]} in
  fst (checkIfContains l1 ["a"; "b"]) = fst (checkIfContains l2 ["a"; "b"]) /\ l1 <> l2.
Proof. by_compute. Qed.

(** ** The unit found for a node *)

(** The values of [l] under [keys]. *)
Definition values_of (l : gmap string string) (keys : list string) : gmap string string := filter (fun kv => fst kv ∈ keys) l.

Lemma key_values_found l keys : forall res sel name sel',
  key_values l res sel keys = (true, name, sel') ->
  sel' = values_of l keys ∪ sel /\ forall k, k ∈ keys -> is_Some (l !! k).
Proof.
  induction keys as [|k keys IH]; intros res sel name sel'; cbn [key_values].
  { intros [= _ <-]. split; [|by intros k ?%elem_of_nil].
    assert (values_of l [] = ∅) as ->; [|by rewrite (left_id_L ∅ (∪))].
    apply map_empty. intros i. apply map_lookup_filter_None. right. by intros x _ ?%elem_of_nil. }
  destruct (l !! k) as [v|] eqn:Hk; [|done]. intros [-> Hall]%IH. split.
  - apply map_eq. intros i. apply option_eq. intros x. rewrite !lookup_union_Some_raw. unfold values_of.
    rewrite !map_lookup_filter_Some, !map_lookup_filter_None, lookup_insert_Some. cbn [fst].
    setoid_rewrite elem_of_cons. destruct (decide (i = k)) as [-> |Hne]; [|naive_solver].
    rewrite Hk. destruct (decide (k ∈ keys)); naive_solver.
  - intros i [-> |Hi]%elem_of_cons; [by exists v|by apply Hall].
Qed.

Lemma checkIfContains_found l keys name sel : checkIfContains l keys = (true, name, sel) ->
  sel = values_of l keys /\ forall k, k ∈ keys -> is_Some (l !! k).
Proof.
  intros [-> Hall]%key_values_found. rewrite (right_id_L ∅ (∪)). setoid_rewrite elem_of_Strings in Hall. split; [|done].
  unfold values_of. apply map_filter_ext. intros i x _. cbn [fst]. by rewrite elem_of_Strings.
Qed.

(** The name and the selector of the unit that is made for a node, if any. *)
Definition found_for (keys : list string) (n : Node) : option (string * gmap string string) :=
  let '(found, name, sel) := checkIfContains (object_labels (node_meta n)) keys in
  if found && bool_decide (sel <> ∅) then Some (name, sel) else None.

Lemma found_for_values keys n name sel : found_for keys n = Some (name, sel) ->
  sel = values_of (object_labels (node_meta n)) keys /\ sel <> ∅ /\ forall k, k ∈ keys -> is_Some (object_labels (node_meta n) !! k).
Proof.
  unfold found_for. destruct (checkIfContains _ keys) as [[[] name'] sel'] eqn:E; [|done]. cbn [andb].
  case_bool_decide as Hne; [|done]. intros [= -> ->]. by apply checkIfContains_found in E as [-> ?].
Qed.

Lemma values_of_subseteq l l' keys : (forall k, k ∈ keys -> is_Some (l !! k)) ->
  values_of l keys ⊆ l' <-> forall k, k ∈ keys -> l' !! k = l !! k.
Proof.
  intros Hall. rewrite map_subseteq_spec. unfold values_of. setoid_rewrite map_lookup_filter_Some. cbn [fst]. split.
  - intros H k Hk. destruct (Hall k Hk) as [v Hv]. rewrite Hv. by apply H.
  - intros H k v [Hv Hk]. by rewrite H.
Qed.

(** The unit that a group makes for a node selects exactly the nodes that
    have the same values for the group's keys, this node among them. *)
Theorem found_unit_selects `{R : GoRange} `{L : LabelSelectors} (ng : NodeGroup) (keys : list string) (nodes members : gmap string Node)
  (n : Node) (name : string) (sel : gmap string string)
  (Hfound : found_for keys n = Some (name, sel)) (Hnames : names_ok node_meta nodes)
  (Hget : GetNodesByUnit nodes (found_unit ng name keys sel) = inl members) (k : string) (n' : Node) :
  members !! k = Some n' <->
  nodes !! k = Some n' /\ forall key, key ∈ keys -> object_labels (node_meta n') !! key = object_labels (node_meta n) !! key.
Proof.
  apply found_for_values in Hfound as (-> & Hne & Hall). revert Hget. unfold GetNodesByUnit. cbn [found_unit nu_Spec nu_Nodes nu_Selector].
  set (sel := values_of _ keys) in *. unfold selector_part. cbn [sel_MatchLabels sel_MatchExpressions].
  destruct (LabelSelectorAsSelector _) as [f|] eqn:Hf; [|done]. intros [= <-]. rewrite lookup_list_by_name by done.
  assert (node_selector (mkSelector (Some sel) None None) f = f) as ->.
  { unfold node_selector. cbn [sel_MatchLabels mp default from_option id]. by rewrite bool_decide_eq_false_2. }
  pose proof (selector_of_labels _ _ _ (object_labels (node_meta n')) Hf eq_refl) as Hsel. cbn [mp default from_option id] in Hsel.
  unfold sel in Hsel. rewrite values_of_subseteq in Hsel by done.
  change (named_members _ nodes []) with (∅ : gmap string Node). rewrite lookup_empty.
  destruct (nodes !! k) as [n0|]; [|by split; [|intros []]]. split.
  - intros Hn. destruct (f (object_labels (node_meta n0))) eqn:E; [|done]. injection Hn as ->. split; [done|]. by apply Hsel.
  - intros [[= ->] Hk]. apply Hsel in Hk. by rewrite Hk.
Qed.

Definition ex_group : NodeGroup :=
  mkNodeGroup (named EmptyString "g") [] (mkNodeGroupSpec None None (Some ["zone"; "os"]%string)) (mkNodeGroupStatus 0 None).

Definition ex_zoned (name zone os : string) : Node :=
  ex_site_node name (Some {[ "zone" := zone; "os" := os; "other" := name ]}%string) None.

Definition ex_zones : gmap string Node :=
  list_to_map ((fun n => (Name (node_meta n), n)) <$>
    [ex_zoned "a" "z1" "linux"; ex_zoned "b" "z2" "linux"; ex_zoned "c" "z1" "linux"; ex_site_node "d" (Some {[ "zone" := "z1" ]}) None])%string.

Definition ex_zone_members : gmap string Node :=
  list_to_map [("a", ex_zoned "a" "z1" "linux"); ("c", ex_zoned "c" "z1" "linux")]%string.

Lemma found_unit_selects_witness :
  ex_zone_members !! "c"%string = Some (ex_zoned "c" "z1" "linux") <->
  ex_zones !! "c"%string = Some (ex_zoned "c" "z1" "linux") /\ forall key, key ∈ ["zone"; "os"]%string ->
    object_labels (node_meta (ex_zoned "c" "z1" "linux")) !! key = object_labels (node_meta (ex_zoned "a" "z1" "linux")) !! key.
Proof.
  apply (found_unit_selects (R := range_in_key_order) (L := plain_selectors) ex_group ["zone"; "os"]%string ex_zones ex_zone_members
    (ex_zoned "a" "z1" "linux") "linux-z1" {[ "zone" := "z1"; "os" := "linux" ]}%string).
  - vm_compute. reflexivity.
  - apply names_ok_dec. vm_compute. reflexivity.
  - vm_compute. reflexivity.
Defined.

(** ** The server's units *)

(** A unit as the server keeps it: with the same settings. *)
Record same_unit (nu nu' : NodeUnit) : Prop := {
  same_unit_name : unit_name nu' = unit_name nu;
  same_unit_labels : object_labels (nu_meta nu') = object_labels (nu_meta nu);
  same_unit_set_labels : mp (set_Labels (unit_sets nu')) = mp (set_Labels (unit_sets nu));
  same_unit_selector : option_relation
    (fun s s' => mp (sel_MatchLabels s') = mp (sel_MatchLabels s) /\ sl (sel_MatchExpressions s') = sl (sel_MatchExpressions s))
    (fun _ => False) (fun _ => False) (nu_Selector (nu_Spec nu)) (nu_Selector (nu_Spec nu'))
}.

(** What the server does with units; [unit_ok] is what it admits. *)
Class UnitServer (B : Type) : Type := {
  userver : Type;
  uunits : userver -> gmap string NodeUnit;
  userve : forall q : site_request B, userver -> userver * (site_answer q + api_error);
  unit_ok : NodeUnit -> Prop;
  get_unit_answer : forall name s, uunits (fst (userve (GetUnit name) s)) = uunits s
    /\ snd (userve (GetUnit name) s) = match uunits s !! name with Some nu => inl nu | None => inr NotFound end;
  create_unit_new : forall nu s, uunits s !! unit_name nu = None -> unit_ok nu ->
    snd (userve (CreateUnit nu) s) = inl tt
    /\ exists nu', same_unit nu nu' /\ uunits (fst (userve (CreateUnit nu) s)) = <[unit_name nu := nu']> (uunits s);
  write_unit_found : forall nu s, is_Some (uunits s !! unit_name nu) -> unit_ok nu ->
    snd (userve (WriteUnit nu) s) = inl tt
    /\ exists nu', same_unit nu nu' /\ uunits (fst (userve (WriteUnit nu) s)) = <[unit_name nu := nu']> (uunits s);
  group_status_request : forall ng s, uunits (fst (userve (WriteGroupStatus ng) s)) = uunits s
}.

(** One that admits everything and keeps nothing else. *)
Definition unit_serve {B : Type} (q : site_request B) (s : gmap string NodeUnit) : gmap string NodeUnit * (site_answer q + api_error) :=
  match q return gmap string NodeUnit * (site_answer q + api_error) with
  | GetUnit name => (s, match s !! name with Some nu => inl nu | None => inr NotFound end)
  | CreateUnit nu => match s !! unit_name nu with Some _ => (s, inr AlreadyExists) | None => (<[unit_name nu := nu]> s, inl tt) end
  | WriteUnit nu => match s !! unit_name nu with Some _ => (<[unit_name nu := nu]> s, inl tt) | None => (s, inr NotFound) end
  | Kube (GetObject _ _ _) => (s, inr NotFound)
  | Kube (ListObjects _ _ _) => (s, inl [])
  | Kube (Create _) | Kube (Update _) | Kube (Delete _ _ _) => (s, inl tt)
  | WriteNode _ | ApplyNodeLabels _ _ | DropRoleLabel _ | WriteUnitStatus _ | WriteGroup _ | WriteGroupStatus _ | Record_ _ _ _
  | QueueDeletion _ | DropFinalizers _ _ _ | DeleteCollection _ _ _ _ => (s, inl tt)
  end.

Lemma same_unit_refl nu : same_unit nu nu.
Proof. split; [done..|]. by destruct (nu_Selector (nu_Spec nu)). Qed.

#[export] Instance unit_server (B : Type) : UnitServer B.
Proof.
  refine {| userver := gmap string NodeUnit; uunits := fun s => s; userve := unit_serve; unit_ok := fun _ => True |}; try done.
  - intros nu s E _. cbn [unit_serve]. rewrite E. split; [done|]. exists nu. split; [apply same_unit_refl|done].
  - intros nu s [nu0 E] _. cbn [unit_serve]. rewrite E. split; [done|]. exists nu. split; [apply same_unit_refl|done].
Defined.

(** ** Finding *)

Section Finding.
Context `{R : GoRange} `{A : UnitServer B}.
Implicit Types (ng : NodeGroup) (nu : NodeUnit) (s : userver).

(** A unit of [ng] for the values [sel]. *)
Definition found_at ng (keys : list string) (sel : gmap string string) nu : Prop :=
  object_labels (nu_meta nu) = found_labels ng keys
  /\ exists se, nu_Selector (nu_Spec nu) = Some se /\ mp (sel_MatchLabels se) = sel.

Lemma found_labels_not_empty ng keys : found_labels ng keys <> ∅.
Proof. apply insert_non_empty. Qed.

Lemma mp_Some (m : gomap string) x : mp m = x -> x <> ∅ -> m = Some x.
Proof. by destruct m; intros <-. Qed.

Lemma found_at_same ng keys sel nu nu' : found_at ng keys sel nu -> same_unit nu nu' -> found_at ng keys sel nu'.
Proof.
  intros (Hl & se & Hse & <-) [_ Hl' _ Hs']. split; [by rewrite Hl'|]. rewrite Hse in Hs'.
  destruct (nu_Selector (nu_Spec nu')) as [se'|]; [|done]. destruct Hs' as [Hm _]. by exists se'.
Qed.

Lemma newNodeUnit_found ng name keys sel s : sel <> ∅ ->
  (forall nu, uunits s !! name = Some nu -> unit_name nu = name /\ nu_Selector (nu_Spec nu) <> None) ->
  (forall nu, unit_name nu = name -> unit_ok nu) ->
  wp userve (newNodeUnit ng name keys sel) (fun s' t r => r = inl tt
    /\ (exists nu, uunits s' !! name = Some nu /\ unit_name nu = name /\ found_at ng keys sel nu)
    /\ forall k, k <> name -> uunits s' !! k = uunits s !! k) s.
Proof.
  intros Hne Hold Hok. unfold newNodeUnit. apply wp_bind, (wp_call userve (GetUnit name)).
  destruct (get_unit_answer name s) as [Hs Ha]. rewrite Ha. destruct (uunits s !! name) as [nu|] eqn:Hnu.
  - destruct (Hold nu eq_refl) as [Hname Hsel]. destruct (nu_Selector (nu_Spec nu)) as [se|] eqn:Hse; [|done].
    case_bool_decide as Hm; cbn [orb]; [|case_bool_decide as Hl; cbn [orb]].
    3:{ apply wp_ok. rewrite Hs. split_and!; [done| |done]. exists nu. split; [done|]. split; [done|].
        split; [unfold object_labels; by rewrite Hl|]. exists se. by rewrite Hm. }
    all: unfold failing, map_error; apply wp_bind; set (new := with_unit_meta _ _); apply (wp_call userve (WriteUnit new));
      destruct (write_unit_found new (fst (userve (GetUnit name) s))) as (-> & nu' & Hsame & Hs');
      [rewrite Hs; change (unit_name new) with (unit_name nu); by rewrite Hname, Hnu|by apply Hok|];
      apply wp_done; change (unit_name new) with (unit_name nu) in Hs'; rewrite Hname in Hs'; rewrite Hs', Hs;
      (split_and!; [done| |by intros k Hk; rewrite lookup_insert_ne]);
      exists nu'; rewrite lookup_insert_eq; (split_and!; [done|by rewrite (same_unit_name _ _ Hsame)|]);
      apply (found_at_same _ _ _ new); [|done]; split; [done|]; by eexists.
  - unfold failing, map_error. apply wp_bind. set (new := found_unit _ _ _ _). apply (wp_call userve (CreateUnit new)).
    destruct (create_unit_new new (fst (userve (GetUnit name) s))) as (-> & nu' & Hsame & Hs'); [by rewrite Hs|by apply Hok|].
    apply wp_done. change (unit_name new) with name in Hs'. rewrite Hs', Hs.
    split_and!; [done| |by intros k Hk; rewrite lookup_insert_ne]. exists nu'. rewrite lookup_insert_eq.
    split_and!; [done|by rewrite (same_unit_name _ _ Hsame)|]. apply (found_at_same _ _ _ new); [|done]. split; [done|]. by eexists.
Qed.

Lemma HashAutoFindKeys_sorted (keys : list string) : HashAutoFindKeys (Strings keys) = HashAutoFindKeys keys.
Proof.
  unfold HashAutoFindKeys. rewrite Strings_again. pose proof (Strings_perm keys) as Hp.
  destruct keys as [|k keys]; [by apply Permutation_nil_r in Hp as ->|]. destruct (Strings (k :: keys)); [|done].
  by apply Permutation_nil_l in Hp.
Qed.

Lemma found_at_sorted ng keys sel nu : found_at ng (Strings keys) sel nu <-> found_at ng keys sel nu.
Proof. unfold found_at, found_labels. by rewrite HashAutoFindKeys_sorted. Qed.

(** A round of the loop makes the node's unit, if there is one to make. *)
Lemma auto_find_round ng keys n :
  (if bool_decide (object_labels (node_meta n) = ∅) then ok tt
   else let '(found, newUnitName, newUnitSelector) := checkIfContains (object_labels (node_meta n)) keys in
        if found && bool_decide (newUnitSelector <> ∅)
        then unless_panic (newNodeUnit (B := B) ng newUnitName (Strings keys) newUnitSelector) else ok tt)
  = match found_for keys n with Some (name, sel) => unless_panic (newNodeUnit ng name (Strings keys) sel) | None => ok tt end.
Proof.
  unfold found_for. case_bool_decide as Hl.
  - destruct (checkIfContains _ keys) as [[[] name] sel] eqn:E; [|done]. apply checkIfContains_found in E as [-> _].
    rewrite Hl. unfold values_of. by rewrite map_filter_empty, bool_decide_eq_false_2 by (by intros []).
  - destruct (checkIfContains _ keys) as [[[] name] sel]; [|done]. cbn [andb]. by case_bool_decide.
Qed.

(** After the pass over the nodes, every node that has all of the group's
    keys has a unit under the name made of its values: it is the group's and
    its selector asks for just these values.  Units under other names are left
    alone.  This is for values whose names differ and names that no unit
    without a selector has. *)
Theorem autoFind_covers (ng : NodeGroup) (keys : list string) (nodes : gmap string Node) (s : userver)
  (Hkeys : sl (ng_AutoFindNodeKeys (ng_Spec ng)) = keys)
  (Hdistinct : forall k n k' n' name sel sel', nodes !! k = Some n -> nodes !! k' = Some n' ->
     found_for keys n = Some (name, sel) -> found_for keys n' = Some (name, sel') -> sel = sel')
  (Hold : forall k n name sel nu, nodes !! k = Some n -> found_for keys n = Some (name, sel) -> uunits s !! name = Some nu ->
     unit_name nu = name /\ nu_Selector (nu_Spec nu) <> None)
  (Hok : forall k n name sel nu, nodes !! k = Some n -> found_for keys n = Some (name, sel) -> unit_name nu = name -> unit_ok nu) :
  wp userve (autoFindNodeKeysByNodeGroup nodes ng) (fun s' _ r => r = inl tt
    /\ (forall k n name sel, nodes !! k = Some n -> found_for keys n = Some (name, sel) ->
         exists nu, uunits s' !! name = Some nu /\ unit_name nu = name /\ found_at ng keys sel nu)
    /\ forall name, (forall k n sel, nodes !! k = Some n -> found_for keys n <> Some (name, sel)) -> uunits s' !! name = uunits s !! name) s.
Proof.
  set (made := fun (s' : userver) (l : list (string * Node)) =>
    (forall k n name sel, (k, n) ∈ l -> found_for keys n = Some (name, sel) ->
       exists nu, uunits s' !! name = Some nu /\ unit_name nu = name /\ found_at ng keys sel nu)
    /\ forall name, (forall k n sel, (k, n) ∈ l -> found_for keys n <> Some (name, sel)) -> uunits s' !! name = uunits s !! name).
  eapply wp_mono; [apply (wp_each userve _ (go_range nodes) (fun l s' _ => made s' l))|].
  - split; [|done]. intros k n name sel ?%elem_of_nil. done.
  - intros done_ [k n] todo s1 t Hl [Hmade Hother]. rewrite Hkeys, auto_find_round.
    assert (forall k n, (k, n) ∈ done_ -> nodes !! k = Some n) as Hdone.
    { intros k0 n0 Hin. apply elem_of_go_range. rewrite Hl, elem_of_app. by left. }
    assert (nodes !! k = Some n) as Hk by (apply elem_of_go_range; rewrite Hl, elem_of_app; right; by left).
    destruct (found_for keys n) as [[name sel]|] eqn:Hn.
    2:{ apply wp_ok. split; [done|]. split.
        - intros k0 n0 name sel [Hin|[= -> ->]%list_elem_of_singleton]%elem_of_app Hf; [by eapply Hmade|congruence].
        - intros name H. apply Hother. intros k0 n0 sel Hin. apply (H k0 n0 sel). apply elem_of_app. by left. }
    unfold unless_panic. apply wp_bind. pose proof (found_for_values _ _ _ _ Hn) as (_ & Hne & _).
    eapply wp_mono; [apply newNodeUnit_found; [done| |by intros nu; apply (Hok k n name sel)]|].
    + intros nu Hnu. destruct (decide (Exists (fun kn => found_for keys (snd kn) = Some (name, sel)) done_)) as [He|He].
      * apply Exists_exists in He as ([k0 n0] & Hin & Hf). destruct (Hmade k0 n0 name sel Hin Hf) as (nu' & Hnu' & Hname & _ & se & Hse & _).
        simplify_eq. by rewrite Hse.
      * rewrite Hother in Hnu; [by apply (Hold k n name sel)|]. intros k0 n0 sel' Hin Hf. apply He, Exists_exists. exists (k0, n0).
        split; [done|]. cbn [snd]. by rewrite (Hdistinct k n k0 n0 name sel sel' Hk (Hdone _ _ Hin) Hn Hf).
    + cbn beta. intros s2 t2 r (-> & (nu & Hnu & Hname & Hat) & Hrest). apply wp_ok. split; [done|]. split.
      * intros k0 n0 name0 sel0 [Hin|[= -> ->]%list_elem_of_singleton]%elem_of_app Hf.
        -- destruct (decide (name0 = name)) as [-> |Hd].
           ++ rewrite (Hdistinct k0 n0 k n name sel0 sel) by eauto. exists nu. by rewrite <- found_at_sorted.
           ++ rewrite Hrest by done. by eapply Hmade.
        -- rewrite Hn in Hf. injection Hf as -> ->. exists nu. by rewrite <- found_at_sorted.
      * intros name0 H. rewrite Hrest; [apply Hother|].
        -- intros k0 n0 sel0 Hin. apply (H k0 n0 sel0). apply elem_of_app. by left.
        -- intros ->. apply (H k n sel); [|done]. apply elem_of_app. right. by left.
  - cbn beta. intros s1 t r (-> & Hmade & Hother). split_and!; [done| |].
    + intros k n name sel Hk Hf. apply (Hmade k n name sel); [by apply elem_of_go_range|done].
    + intros name H. apply Hother. intros k n sel Hin. apply (H k n sel). by apply elem_of_go_range.
Qed.

End Finding.

(** One of the units is there already, with other labels and values. *)
Definition ex_units : gmap string NodeUnit :=
  <["linux-z2"%string := with_match_labels (with_unit_meta (found_unit ex_group "linux-z2" [] {[ "zone" := "z0" ]}%string) (named EmptyString "linux-z2"))
      (mkSelector (Some {[ "zone" := "z0" ]}%string) None None)]>
  {[ "u"%string := ex_site_unit ]}.

Definition ex_sel (zone : string) : gmap string string := {[ "zone" := zone; "os" := "linux" ]}%string.

Lemma ex_zones_found : map_Forall (fun _ n => found_for ["zone"; "os"]%string n
  ∈ [None; Some ("linux-z1"%string, ex_sel "z1"); Some ("linux-z2"%string, ex_sel "z2")]) ex_zones.
Proof. by_compute. Qed.

Lemma autoFind_covers_witness :
  wp unit_serve (autoFindNodeKeysByNodeGroup (R := range_in_key_order) (B := unit) ex_zones ex_group) (fun s' _ r => r = inl tt
    /\ (exists nu, s' !! "linux-z2"%string = Some nu /\ found_at ex_group ["zone"; "os"]%string (ex_sel "z2") nu)
    /\ s' !! "u"%string = Some ex_site_unit) ex_units.
Proof.
  assert (forall k n name sel, ex_zones !! k = Some n -> found_for ["zone"; "os"]%string n = Some (name, sel) ->
    (name = "linux-z1" /\ sel = ex_sel "z1" \/ name = "linux-z2" /\ sel = ex_sel "z2")%string) as Hf.
  { intros k n name sel Hk Hn. pose proof (ex_zones_found k n Hk) as H. cbn beta in H. rewrite Hn in H.
    repeat (apply elem_of_cons in H as [H|H]; [simplify_eq; auto|]). by apply elem_of_nil in H. }
  eapply wp_mono.
  - apply (autoFind_covers (R := range_in_key_order) (A := unit_server unit) ex_group ["zone"; "os"]%string ex_zones ex_units).
    + done.
    + intros k n k' n' name sel sel' Hk Hk' Hn Hn'. destruct (Hf k n _ _ Hk Hn) as [[-> ->]|[-> ->]],
        (Hf k' n' _ _ Hk' Hn') as [[E ->]|[E ->]]; done.
    + intros k n name sel nu Hk Hn Hnu. assert (map_Forall (fun k nu => unit_name nu = k /\ (k = "u"%string \/ nu_Selector (nu_Spec nu) <> None)) ex_units) as H by by_compute.
      destruct (H name nu Hnu) as [? [->|?]]; [|done]. by destruct (Hf k n _ _ Hk Hn) as [[]|[]].
    + done.
  - cbn beta. intros s' t r (-> & Hin & Hother). split_and!; [done| |].
    + destruct (Hin "b" (ex_zoned "b" "z2" "linux") "linux-z2" (ex_sel "z2"))%string as (nu & Hnu & _ & Hat).
      * vm_compute. reflexivity.
      * vm_compute. reflexivity.
      * by exists nu.
    + change (s' !! "u"%string = ex_units !! "u"%string). apply Hother. intros k n sel Hk Hn. by destruct (Hf k n _ _ Hk Hn) as [[]|[]].
Defined.

(** ** Members *)

Section Members.
Context `{R : GoRange} `{L : LabelSelectors} `{A : UnitServer B}.
Context (units : gmap string NodeUnit) (nodes : gmap string Node).
Implicit Types (ng : NodeGroup) (nu : NodeUnit) (s : userver).

(** A unit that the code writes: a unit without labels counts as ready. *)
Definition labelled nu : Prop := Labels (nu_meta nu) <> None /\ set_Labels (unit_sets nu) <> None.

(** A member's labels after a pass: the group's mark, and the unit's name for
    its nodes. *)
Record in_group ng nu nu' : Prop := {
  in_group_name : unit_name nu' = unit_name nu;
  in_group_labels : object_labels (nu_meta nu') = <[group_name ng := NodeGroupSuperedge]> (object_labels (nu_meta nu));
  in_group_set : mp (set_Labels (unit_sets nu')) = <[group_name ng := unit_name nu]> (mp (set_Labels (unit_sets nu)))
}.

Record out_of_group ng nu nu' : Prop := {
  out_name : unit_name nu' = unit_name nu;
  out_labels : object_labels (nu_meta nu') = delete (group_name ng) (object_labels (nu_meta nu));
  out_set : mp (set_Labels (unit_sets nu')) = delete (group_name ng) (mp (set_Labels (unit_sets nu)))
}.

Definition units_in_sync (m : gmap string NodeUnit) s : Prop :=
  forall k nu, m !! k = Some nu -> unit_name nu = k /\ uunits s !! k = Some nu.

Lemma wp_write_unit nu s : is_Some (uunits s !! unit_name nu) -> unit_ok nu ->
  wp userve (write_unit nu) (fun s' t r => r = inl tt
    /\ exists nu', same_unit nu nu' /\ uunits s' = <[unit_name nu := nu']> (uunits s)) s.
Proof.
  intros Hn Hok. apply (wp_call userve (WriteUnit nu)). destruct (write_unit_found nu s Hn Hok) as [-> Hn']. done.
Qed.

Lemma SetNodeToNodeUnits_pass ng m s : group_name ng <> EmptyString -> units_in_sync m s ->
  (forall k nu, m !! k = Some nu -> unit_name nu <> EmptyString /\ labelled nu) -> (forall nu, is_Some (m !! unit_name nu) -> unit_ok nu) ->
  wp userve (SetNodeToNodeUnits ng m) (fun s' _ r => r = inl tt
    /\ (forall k nu, m !! k = Some nu -> exists nu', uunits s' !! k = Some nu' /\ in_group ng nu nu')
    /\ forall k, m !! k = None -> uunits s' !! k = uunits s !! k) s.
Proof.
  intros Hg Hsync Hlab Hok. apply (wp_each_key userve uunits); [|intros k n Hn; by apply Hsync].
  intros k nu s1 Hnu Hs1. destruct (Hsync k nu Hnu) as [<- _]. destruct (Hlab _ _ Hnu) as (Hne & Hl & Hsl). cbv zeta. fold (group_name ng).
  destruct (set_Labels (unit_sets nu)) as [sl_|] eqn:Esl; [|done]. destruct (Labels (nu_meta nu)) as [l|] eqn:El; [|done].
  destruct (_ && _) eqn:Eready.
  - apply wp_ok. split; [done|]. split; [|done]. exists nu. split; [done|]. apply andb_true_iff in Eready as [E1%String.eqb_eq E2%String.eqb_eq].
    apply map_get_Some in E1, E2; [|done|done]. split; [done| |].
    + unfold object_labels. rewrite El. symmetry. by apply insert_id.
    + rewrite Esl. symmetry. by apply insert_id.
  - eapply wp_mono; [apply wp_write_unit; [by exists nu|apply Hok; by exists nu]|]. cbn beta. intros s' t r (-> & nu' & Hsame & Hs').
    split; [done|]. split; [|by intros k' Hk'; rewrite Hs', lookup_insert_ne].
    exists nu'. rewrite Hs'. split; [apply lookup_insert_eq|]. destruct Hsame as [Hn Hla Hse _]. split; [done| |].
    + rewrite Hla. unfold object_labels. cbn [nu_meta with_unit_meta Labels with_labels]. by rewrite El.
    + by rewrite Hse, Esl.
Qed.

Lemma DeleteNodeUnitFromSetNode_pass ng m s : units_in_sync m s -> (forall nu, is_Some (m !! unit_name nu) -> unit_ok nu) ->
  wp userve (DeleteNodeUnitFromSetNode ng m) (fun s' _ r => r = inl tt
    /\ (forall k nu, m !! k = Some nu -> exists nu', uunits s' !! k = Some nu' /\ out_of_group ng nu nu')
    /\ forall k, m !! k = None -> uunits s' !! k = uunits s !! k) s.
Proof.
  intros Hsync Hok. apply (wp_each_key userve uunits); [|intros k n Hn; by apply Hsync].
  intros k nu s1 Hnu Hs1. destruct (Hsync k nu Hnu) as [<- _].
  eapply wp_mono; [apply wp_write_unit; [by exists nu|apply Hok; by exists nu]|]. cbn beta. intros s' t r (-> & nu' & Hsame & Hs').
  split; [done|]. split; [|by intros k' Hk'; rewrite Hs', lookup_insert_ne].
  exists nu'. rewrite Hs'. split; [apply lookup_insert_eq|]. destruct Hsame as [Hn Hla Hse _]. split; [done| |].
  - rewrite Hla. apply mp_delete.
  - rewrite Hse. apply mp_delete.
Qed.

Lemma GetUnitByGroup_sub ng m : names_ok nu_meta units -> GetUnitByGroup units ng = inl m -> m ⊆ units.
Proof.
  intros Hnames. unfold GetUnitByGroup.
  assert (named_members (fun _ nu => unit_name nu) units (sl (ng_NodeUnits (ng_Spec ng))) ⊆ units) as Hsub by by apply named_members_sub.
  assert (forall f acc, acc ⊆ units -> list_by_name nu_meta f units acc ⊆ units) as Hlist by (intros; by apply list_by_name_sub).
  destruct (ng_Selector (ng_Spec ng)) as [se|]; [destruct (LabelSelectorAsSelector _) as [f|]; [|done]|];
    (destruct (sl (ng_AutoFindNodeKeys (ng_Spec ng))); [intros [= <-]; auto|]);
    (destruct (LabelSelectorAsSelector _) as [f'|]; [|done]); intros [= <-]; auto.
Qed.

Definition unit_label_at ng s k : option string :=
  match uunits s !! k with Some nu => object_labels (nu_meta nu) !! group_name ng | None => None end.

(** After a pass over a group without auto-find keys, the units that carry
    its label are exactly its members: units that left have lost the label and
    every member has it, and passes its own name on to its nodes under the
    group's.  The lister's units are those of the server, they carry labels,
    and what is written is admitted. *)
Theorem reconcileNodeGroup_members (ng : NodeGroup) (members : gmap string NodeUnit) (f : gmap string string -> bool) (s : userver)
  (Hmembers : GetUnitByGroup units ng = inl members) (Hkeys : sl (ng_AutoFindNodeKeys (ng_Spec ng)) = [])
  (Hf : LabelSelectorAsSelector (mkLabelSelector (Some {[ group_name ng := NodeGroupSuperedge ]}) None) = inl f)
  (Hname : group_name ng <> EmptyString) (Hnames : names_ok nu_meta units) (Hs : uunits s = units)
  (Hlabelled : forall k nu, members !! k = Some nu -> unit_name nu <> EmptyString /\ labelled nu)
  (Hok : forall nu, is_Some (units !! unit_name nu) -> unit_ok nu) :
  wp userve (reconcileNodeGroup units nodes ng) (fun s' _ _ =>
    (forall k, unit_label_at ng s' k = Some NodeGroupSuperedge <-> is_Some (members !! k))
    /\ forall k nu, members !! k = Some nu -> exists nu', uunits s' !! k = Some nu' /\ in_group ng nu nu') s.
Proof.
  unfold reconcileNodeGroup. rewrite Hmembers. cbv zeta. change (group_name (with_sorted_keys ng)) with (group_name ng). rewrite Hf.
  assert (sl (ng_AutoFindNodeKeys (ng_Spec (with_sorted_keys ng))) = []) as ->.
  { cbn [with_sorted_keys ng_Spec ng_AutoFindNodeKeys]. destruct (ng_AutoFindNodeKeys (ng_Spec ng)) as [ks|]; [|done].
    cbn [sl default from_option id] in Hkeys. by subst ks. }
  pose proof (GetUnitByGroup_sub ng members Hnames Hmembers) as Hsub.
  assert (forall k nu, gc_units (labelled_units units f) members !! k = Some nu <->
    units !! k = Some nu /\ object_labels (nu_meta nu) !! group_name ng = Some NodeGroupSuperedge /\ members !! k = None) as Hgc.
  { intros k nu. unfold gc_units, labelled_units. rewrite map_lookup_filter_Some, lookup_list_by_name by done. cbn [fst].
    rewrite lookup_empty. assert (forall l, f l = true <-> l !! group_name ng = Some NodeGroupSuperedge) as Hl.
    { intros l. rewrite (selector_of_labels _ _ _ _ Hf eq_refl). cbn [mp default from_option id]. apply map_singleton_subseteq_l. }
    rewrite <- Hl. destruct (units !! k) as [nu0|]; [|naive_solver]. destruct (f (object_labels (nu_meta nu0))) eqn:E; [naive_solver|].
    split; [by intros []|]. intros ([= ->] & Hl0 & _). congruence. }
  unfold failing, map_error. rewrite wp_andthen, wp_bind. eapply wp_mono; [apply (DeleteNodeUnitFromSetNode_pass (with_sorted_keys ng))|].
  { intros k nu (Hnu & _)%Hgc. rewrite Hs. split; [by apply Hnames|done]. }
  { intros nu [nu0 (Hnu & _)%Hgc]. apply Hok. by exists nu0. }
  cbn beta. intros s1 t1 r1 (-> & Hclean & Hother). rewrite wp_done, wp_andthen, wp_ok, wp_andthen, wp_bind.
  eapply wp_mono; [apply (SetNodeToNodeUnits_pass (with_sorted_keys ng)); [done| |done|]|].
  { intros k nu Hnu. pose proof (lookup_weaken _ _ _ _ Hnu Hsub) as Hnu'. split; [by apply Hnames|].
    rewrite Hother, Hs; [done|]. apply eq_None_not_Some. intros [nu0 (_ & _ & ?)%Hgc]. congruence. }
  { intros nu [nu0 Hnu]. apply Hok. exists nu0. by eapply lookup_weaken. }
  cbn beta. intros s2 t2 r2 (-> & Hin & Hother2). rewrite wp_done.
  eapply (wp_mono _ _ (fun s' _ _ => uunits s' = uunits s2)).
  { case_bool_decide; [done|]. apply wp_bind, (wp_call userve (WriteGroupStatus _)), wp_done. apply group_status_request. }
  cbn beta. intros s3 t3 r3 Hs3. split.
  - intros k. unfold unit_label_at. rewrite Hs3. destruct (members !! k) as [nu|] eqn:E.
    + destruct (Hin k nu E) as (nu' & -> & [_ Hl _]). rewrite Hl. split; [by eexists|]. intros _. apply lookup_insert_eq.
    + rewrite Hother2 by done. split; [|by intros []].
      destruct (gc_units (labelled_units units f) members !! k) as [nu|] eqn:Eg.
      * destruct (Hclean k nu Eg) as (nu' & -> & [_ Hl _]). rewrite Hl. by rewrite lookup_delete_eq.
      * rewrite Hother, Hs by done. destruct (units !! k) as [nu|] eqn:En; [|done]. intros Hl.
        assert (gc_units (labelled_units units f) members !! k = Some nu) by (by apply Hgc). congruence.
  - intros k nu Hnu. rewrite Hs3. destruct (Hin k nu Hnu) as (nu' & Hnu' & []). exists nu'. by split.
Qed.

(** A unit without any labels is never written: it does not get the group's. *)
Lemma unlabelled_left_out ng nu : Labels (nu_meta nu) = None -> set_Labels (unit_sets nu) = None ->
  SetNodeToNodeUnits (B := B) ng {[ unit_name nu := nu ]} = ok tt.
Proof.
  intros Hl Hse. apply each_nothing. intros [k x] [_ <-]%elem_of_go_range%lookup_singleton_Some. cbv zeta. by rewrite Hl, Hse.
Qed.

End Members.

Definition ex_named_group : NodeGroup := mkNodeGroup (named EmptyString "g") [] (mkNodeGroupSpec (Some ["u"; "gone"]%string) None None) (mkNodeGroupStatus 0 None).

Definition ex_labelled_unit (name : string) (labels : gmap string string) : NodeUnit :=
  with_unit_meta (with_set_labels ex_site_unit (Some ∅)) (with_labels (named EmptyString name) (Some labels)).

(** [u] is to become a member, [v] is not one any more. *)
Definition ex_group_units : gmap string NodeUnit :=
  list_to_map [("u", ex_labelled_unit "u" ∅); ("v", ex_labelled_unit "v" {[ "g" := NodeGroupSuperedge ]})]%string.

Lemma reconcileNodeGroup_members_witness :
  let members : gmap string NodeUnit := {[ "u"%string := ex_labelled_unit "u" ∅ ]} in
  wp unit_serve (reconcileNodeGroup (R := range_in_key_order) (L := plain_selectors) (B := unit) ex_group_units ∅ ex_named_group) (fun s' _ _ =>
    (forall k, unit_label_at (A := unit_server unit) ex_named_group s' k = Some NodeGroupSuperedge <-> is_Some (members !! k))
    /\ forall k nu, members !! k = Some nu -> exists nu', s' !! k = Some nu' /\ in_group ex_named_group nu nu') ex_group_units.
Proof.
  cbv zeta. apply (reconcileNodeGroup_members (R := range_in_key_order) (L := plain_selectors) (A := unit_server unit) ex_group_units ∅
    ex_named_group {[ "u"%string := ex_labelled_unit "u" ∅ ]}
    (fun l => bool_decide ({[ "g"%string := NodeGroupSuperedge ]} ⊆ l) && forallb (fun r => requirement_holds r l) [])).
  - vm_compute. reflexivity.
  - done.
  - reflexivity.
  - done.
  - apply names_ok_dec. vm_compute. reflexivity.
  - done.
  - by intros k nu [<- <-]%lookup_singleton_Some.
  - done.
Defined.
