(* ===== verification/TunnelContext.v ===== *)
(** * tunnel: the context (pkg/tunnel/tunnelcontext, proto, module)

    What the goroutines of tunnel-cloud or tunnel-edge share: the registered
    nodes, the connections by trace id, and the table of message handlers.
    Node objects and channels have identity (a goroutine keeps using the node
    object it was started with after the name is registered again), so they
    live in a heap and the maps hold references. *)

From Stdlib Require Import ZArith Lia Ascii String.
From stdpp Require Import base strings gmap numbers sorting list.
From S2P Require Import Prelude.

Local Open Scope Z_scope.
Local Open Scope go_scope.

(** ** Messages and constants *)

(** [proto.StreamMsg]. *)
Record StreamMsg : Type := mkMsg {
  m_Node : string;
  m_Category : string;
  m_Type : string;
  m_Topic : string;
  m_Data : list Z;
  m_Addr : string
}.

#[export] Instance StreamMsg_eq_dec : EqDecision StreamMsg.
Proof. solve_decision. Defined.

(** node.go *)
Definition CONNECT_REQ : string := "connecting".
Definition CONNECT_FAILED : string := "connect-failed".
Definition CONNECT_SUCCESSED : string := "connected".

(** util/const.go *)
Definition STREAM_HEART_BEAT : string := "heartbeat".
Definition TCP_FORWARD : string := "tcp-forward".
Definition STREAM : string := "stream".
Definition SSH : string := "ssh".
Definition EGRESS : string := "egress".
Definition HTTP_PROXY : string := "httpProxy".
Definition CLOUD : string := "cloud".
Definition EDGE : string := "edge".
Definition CLOSED : string := "closed".
Definition MSG_CHANNEL_CAP : nat := 1000.

Definition bytes_msg (s : string) : list Z := (fun a => Z.of_nat (nat_of_ascii a)) <$> list_ascii_of_string s.

(** ** The shared objects *)

(** A conn never changes once made: its channel is its identity. *)
Record conn : Type := mkConn { c_uid : string; c_ch : nat }.

Record node : Type := mkTunnelNode {
  n_name : string;
  n_ch : nat;
  n_conns : gslice string;
  n_pairnodes : gmap string string
}.

#[export] Instance conn_eq_dec : EqDecision conn.
Proof. solve_decision. Defined.
#[export] Instance node_eq_dec : EqDecision node.
Proof. solve_decision. Defined.

(** The handlers that the modules register. *)
Inductive CallBack : Type := HeartbeatHandler_ | DirectHandler_ | ConnectingHandler_ | AccessHandler_.

#[export] Instance CallBack_eq_dec : EqDecision CallBack.
Proof. solve_decision. Defined.

(** [TunnelContext], the heap of node objects and of channels, and the gauge
    of connected nodes (metrics.go). *)
Record TunnelContext : Type := mkContext {
  nodes : gmap string nat;
  conns : gmap string conn;
  protocols : gmap string (gmap string CallBack);
  node_heap : list node;
  chan_heap : list (list StreamMsg);
  EdgeNodes : Z
}.

#[export] Instance TunnelContext_eq_dec : EqDecision TunnelContext.
Proof. solve_decision. Defined.

Definition GetContext : TunnelContext := mkContext ∅ ∅ ∅ [] [] 0.

Definition set_nodes (f : gmap string nat -> gmap string nat) (s : TunnelContext) : TunnelContext :=
  mkContext (f (nodes s)) (conns s) (protocols s) (node_heap s) (chan_heap s) (EdgeNodes s).
Definition set_conns (f : gmap string conn -> gmap string conn) (s : TunnelContext) : TunnelContext :=
  mkContext (nodes s) (f (conns s)) (protocols s) (node_heap s) (chan_heap s) (EdgeNodes s).
Definition set_protocols (f : gmap string (gmap string CallBack) -> gmap string (gmap string CallBack)) (s : TunnelContext)
    : TunnelContext :=
  mkContext (nodes s) (conns s) (f (protocols s)) (node_heap s) (chan_heap s) (EdgeNodes s).
Definition set_node_heap (f : list node -> list node) (s : TunnelContext) : TunnelContext :=
  mkContext (nodes s) (conns s) (protocols s) (f (node_heap s)) (chan_heap s) (EdgeNodes s).
Definition set_chan_heap (f : list (list StreamMsg) -> list (list StreamMsg)) (s : TunnelContext) : TunnelContext :=
  mkContext (nodes s) (conns s) (protocols s) (node_heap s) (f (chan_heap s)) (EdgeNodes s).
Definition set_gauge (f : Z -> Z) (s : TunnelContext) : TunnelContext :=
  mkContext (nodes s) (conns s) (protocols s) (node_heap s) (chan_heap s) (f (EdgeNodes s)).

(** ** Operations that may block or panic *)

(** A function run on the context: it returns, waits on a channel, or panics
    (which ends the process, as no goroutine recovers). *)
Inductive result (A : Type) : Type :=
| Ok (a : A) (s : TunnelContext)
| Blocked
| Crashed (why : string).

Arguments Ok {A} a s.
Arguments Blocked {A}.
Arguments Crashed {A} why.

Definition tm (A : Type) : Type := TunnelContext -> result A.

Definition tret {A : Type} (a : A) : tm A := fun s => Ok a s.
Definition tbind {A B : Type} (m : tm A) (f : A -> tm B) : tm B :=
  fun s => match m s with
           | Ok a s' => f a s'
           | Blocked => Blocked
           | Crashed w => Crashed w
           end.
Definition tget {A : Type} (f : TunnelContext -> A) : tm A := fun s => Ok (f s) s.
Definition tmod (f : TunnelContext -> TunnelContext) : tm unit := fun s => Ok tt (f s).
Definition tpanic {A : Type} (why : string) : tm A := fun _ => Crashed why.

Notation "'do!' x ':=' m 'in' k" := (tbind m (fun x => k))
  (at level 10, x name, m at level 100, k at level 200) : go_scope.
Notation "'run!' m 'in' k" := (tbind m (fun _ => k))
  (at level 10, m at level 100, k at level 200) : go_scope.

(** ** Channels: make, send, receive *)

Definition make_chan : tm nat := fun s => Ok (length (chan_heap s)) (set_chan_heap (fun h => h ++ [[]]) s).

(** [ch <- msg] waits while the channel is full. *)
Definition send (ch : nat) (msg : StreamMsg) : tm unit :=
  fun s => match chan_heap s !! ch with
           | Some q => if (length q <? MSG_CHANNEL_CAP)%nat then Ok tt (set_chan_heap (<[ch := q ++ [msg]]>) s) else Blocked
           | None => Blocked
           end.

(** [<-ch] waits while the channel is empty. *)
Definition recv (ch : nat) : tm StreamMsg :=
  fun s => match chan_heap s !! ch with
           | Some (msg :: q) => Ok msg (set_chan_heap (<[ch := q]>) s)
           | _ => Blocked
           end.

(** ** conn.go, conncontext.go *)

Definition Send2Conn (c : conn) (msg : StreamMsg) : tm unit := send (c_ch c) msg.

Definition AddConn (uid : string) : tm conn :=
  do! ch := make_chan in
  let c := mkConn uid ch in
  run! (tmod (set_conns <[uid := c]>)) in
  tret c.

Definition RemoveConn (uid : string) : tm unit := tmod (set_conns (delete uid)).

Definition GetConn (uid : string) : tm (option conn) := tget (fun s => conns s !! uid).

Definition GetConns (names : list string) : tm (list conn) := tget (fun s => omap (fun v => conns s !! v) names).

Definition SetConn (uid : string) (ch : nat) : tm unit := tmod (set_conns <[uid := mkConn uid ch]>).

(** ** nodecontext.go *)

Definition AddNode (name : string) : tm nat :=
  do! ch := make_chan in
  do! r := (fun s => Ok (length (node_heap s)) (set_node_heap (fun h => h ++ [mkTunnelNode name ch None ∅]) s)) in
  run! (tmod (set_nodes <[name := r]>)) in
  run! (tmod (set_gauge (Z.add 1))) in
  tret r.

Definition GetNode (name : string) : tm (option nat) := tget (fun s => nodes s !! name).

(** [nodeContext.RemoveNode]. *)
Definition nodeContext_RemoveNode (name : string) : tm unit :=
  run! (tmod (set_nodes (delete name))) in
  tmod (set_gauge (fun g => g - 1)).

Definition GetNodes `{GoRange} : tm (list string) := tget (fun s => (go_range (nodes s)).*1).

Definition NodeIsExist (name : string) : tm bool := tget (fun s => bool_decide (is_Some (nodes s !! name))).

(** ** node.go *)

(** The object behind a reference. *)
Definition the_node (r : nat) : tm node :=
  fun s => match node_heap s !! r with Some n => Ok n s | None => Crashed "nil node" end.

Definition upd_node (r : nat) (f : node -> node) : tm unit := tmod (set_node_heap (alter f r)).

Definition with_conns (c : gslice string) (n : node) : node := mkTunnelNode (n_name n) (n_ch n) c (n_pairnodes n).
Definition with_pairs (f : gmap string string -> gmap string string) (n : node) : node :=
  mkTunnelNode (n_name n) (n_ch n) (n_conns n) (f (n_pairnodes n)).

Definition BindNode (r : nat) (uuid : string) : tm unit :=
  do! n := the_node r in
  upd_node r (with_conns (match n_conns n with
                          | None => Some [uuid]
                          | Some l => Some (l ++ [uuid])
                          end)).

(** The loop of [UnbindNode] ranges over the array the slice had at the
    start, whose cells the deletions in its body move; [m] is the current
    length of [edge.conns], [k] the index.  [None] is the panic of
    [edge.conns[k+1:len(edge.conns)]] with [k+1] past the length. *)
Fixpoint unbind_loop (steps k m : nat) (arr : list string) (uuid : string) : option (list string) :=
  match steps with
  | O => Some (take m arr)
  | S steps' =>
      match arr !! k with
      | Some v =>
          if String.eqb v uuid then
            if (k + 1 <=? m)%nat then
              unbind_loop steps' (k + 1) (m - 1)
                (take k arr ++ drop (k + 1) (take m arr) ++ drop (m - 1) arr) uuid
            else None
          else unbind_loop steps' (k + 1) m arr uuid
      | None => Some (take m arr)
      end
  end.

Definition UnbindNode (r : nat) (uuid : string) : tm unit :=
  do! n := the_node r in
  let l := sl (n_conns n) in
  match unbind_loop (length l) 0 (length l) l uuid with
  | None => tpanic "slice bounds out of range"
  | Some l' =>
      run! (upd_node r (with_conns (match n_conns n with None => None | Some _ => Some l' end))) in
      upd_node r (with_pairs (delete uuid))
  end.

Definition Send2Node (r : nat) (msg : StreamMsg) : tm unit :=
  do! n := the_node r in
  send (n_ch n) msg.

Definition GetName (r : nat) : tm string := do! n := the_node r in tret (n_name n).

Definition GetBindConns (r : nat) : tm (gslice string) := do! n := the_node r in tret (n_conns n).

Definition AddPairNode (r : nat) (uid nodeName : string) : tm unit :=
  run! (the_node r) in upd_node r (with_pairs (<[uid := nodeName]>)).
Definition RemovePairNode (r : nat) (uid : string) : tm unit := run! (the_node r) in upd_node r (with_pairs (delete uid)).
Definition GetPairNode (r : nat) (uid : string) : tm string :=
  do! n := the_node r in tret (default EmptyString (n_pairnodes n !! uid)).

(** [ConnectNode] up to its [select]: the connection is added and bound and
    the request is sent. *)
Definition ConnectNode_request (r : nat) (category addr uid : string) : tm conn :=
  do! c := AddConn uid in
  run! (BindNode r uid) in
  do! name := GetName r in
  run! (Send2Node r (mkMsg name category CONNECT_REQ uid (bytes_msg ("CONNECT " +:+ addr +:+ " HTTP/1.1" +:+
    String "013" (String "010" (String "013" (String "010" (String "013" (String "010" EmptyString))))))) addr)) in
  tret c.

(** What the [select] of [ConnectNode] sees: the first message of the
    connection, or the five seconds are over (or the request's context is
    done). *)
Inductive select_answer : Type := Received | TimedOut.

Inductive connect_error : Type :=
| TargetRefused (data : list Z)   (** "failed to connect target server ..., error: data" *)
| TunnelTimeout.                  (** "the connection to the target server ... timed out" *)

(** [ConnectNode] from its [select]: only [CONNECT_FAILED] and the timeout
    are errors, and they undo the first part. *)
Definition ConnectNode_answer (r : nat) (c : conn) (a : select_answer) : tm (option connect_error) :=
  let undo (e : connect_error) :=
    run! (UnbindNode r (c_uid c)) in
    run! (RemoveConn (c_uid c)) in
    tret (Some e) in
  match a with
  | Received =>
      do! resp := recv (c_ch c) in
      if String.eqb (m_Type resp) CONNECT_SUCCESSED then tret None
      else if String.eqb (m_Type resp) CONNECT_FAILED then undo (TargetRefused (m_Data resp))
      else tret None
  | TimedOut => undo TunnelTimeout
  end.

(** ** context_factory.go *)

Fixpoint send_each (l : list conn) (msg : StreamMsg) : tm unit :=
  match l with
  | [] => tret tt
  | c :: l' => run! (Send2Conn c msg) in send_each l' msg
  end.

Definition stopMsg : StreamMsg := mkMsg EmptyString EmptyString CLOSED EmptyString [] EmptyString.

(** [TunnelContext.RemoveNode]: the connections bound to the node are told
    that it is gone. *)
Definition RemoveNode (name : string) : tm unit :=
  do! r := GetNode name in
  match r with
  | None => tret tt
  | Some r =>
      do! names := GetBindConns r in
      run! (match names with
           | Some names => do! l := GetConns names in send_each l stopMsg
           | None => tret tt
           end) in
      nodeContext_RemoveNode name
  end.

(** ** protocolcontext.go *)

Definition AddModule (module : string) : tm unit := tmod (set_protocols <[module := ∅]>).
Definition RemoveModule (module : string) : tm unit := tmod (set_protocols (delete module)).

Definition GetHandler (key module : string) : tm (option CallBack) :=
  tget (fun s => match protocols s !! module with Some t => t !! key | None => None end).

Definition RegisterHandler (key module : string) (handler : CallBack) : tm unit :=
  tmod (set_protocols (fun p => match p !! module with
                                | Some t => <[module := <[key := handler]> t]> p
                                | None => p
                                end)).

(** ** Lemmas: deletion from the connections of a node *)

Lemma unbind_loop_absent steps k m arr u :
  (forall i, (k <= i)%nat -> arr !! i <> Some u) -> unbind_loop steps k m arr u = Some (take m arr).
Proof.
  revert k. induction steps as [|steps IH]; intros k H; [done|]. simpl.
  destruct (arr !! k) as [v|] eqn:Hv; [|done].
  destruct (String.eqb_spec v u) as [->|_]; [by destruct (H k)|].
  apply IH. intros i Hi. apply H. lia.
Qed.

Lemma unbind_loop_skip pre u post j : u ∉ pre ->
  forall steps k, (k + j = length pre)%nat -> (j <= steps)%nat ->
  unbind_loop steps k (length (pre ++ u :: post)) (pre ++ u :: post) u =
  unbind_loop (steps - j) (length pre) (length (pre ++ u :: post)) (pre ++ u :: post) u.
Proof.
  intros Hpre. induction j as [|j IH]; intros steps k Hk Hs.
  { replace (steps - 0)%nat with steps by lia. by replace k with (length pre) by lia. }
  destruct steps as [|steps]; [lia|]. cbn [unbind_loop].
  destruct (lookup_lt_is_Some_2 pre k ltac:(lia)) as [v Hv].
  rewrite lookup_app_l by lia. rewrite Hv.
  destruct (String.eqb_spec v u) as [->|_]; [by apply list_elem_of_lookup_2 in Hv|].
  by rewrite IH by lia.
Qed.

(** A trace id bound once is removed and the others keep their order. *)
Lemma unbind_loop_once pre u post : u ∉ pre -> u ∉ post ->
  unbind_loop (length (pre ++ u :: post)) 0 (length (pre ++ u :: post)) (pre ++ u :: post) u = Some (pre ++ post).
Proof.
  intros Hpre Hpost. rewrite (unbind_loop_skip _ _ _ (length pre)) by (rewrite ?length_app; simpl; done || lia).
  rewrite length_app. cbn [length].
  replace (length pre + S (length post) - length pre)%nat with (S (length post)) by lia. cbn [unbind_loop].
  rewrite lookup_app_r, Nat.sub_diag by lia. cbn [lookup list_lookup]. rewrite String.eqb_refl.
  replace (length pre + 1 <=? length pre + S (length post))%nat with true by (symmetry; apply Nat.leb_le; lia).
  rewrite take_app_length, (take_ge (pre ++ u :: post)) by (rewrite length_app; simpl; lia).
  replace (drop (length pre + 1) (pre ++ u :: post)) with post
    by (rewrite drop_app_ge by lia; by replace (length pre + 1 - length pre)%nat with 1%nat by lia).
  replace (length pre + S (length post) - 1)%nat with (length (pre ++ post)) by (rewrite length_app; lia).
  rewrite app_assoc, unbind_loop_absent; [by rewrite take_app_length|].
  intros i Hi Hin. destruct (decide (i < length (pre ++ post))%nat) as [Hlt|Hge].
  - rewrite lookup_app_l, lookup_app_r in Hin by lia. by apply list_elem_of_lookup_2 in Hin.
  - rewrite lookup_app_r, lookup_drop, lookup_app_r in Hin by lia. rewrite length_app in *.
    destruct (length pre + length post + (i - (length pre + length post)) - length pre)%nat as [|j] eqn:Hj; [lia|].
    change (post !! j = Some u) in Hin. by apply list_elem_of_lookup_2 in Hin.
Qed.

Lemma unbind_NoDup l u : NoDup l -> unbind_loop (length l) 0 (length l) l u = Some (filter (fun v => v <> u) l).
Proof.
  intros Hnd. destruct (decide (u ∈ l)) as [Hin|Hout].
  - apply list_elem_of_split in Hin as (pre & post & ->).
    apply NoDup_app in Hnd as (_ & Hpre & [Hpost _]%NoDup_cons). 
    assert (u ∉ pre) as Hpre' by (intros Hu; apply (Hpre u Hu), list_elem_of_here).
    rewrite unbind_loop_once by done. f_equal. rewrite filter_app, filter_cons_False by tauto.
    by rewrite !filter_all by (intros x Hx ->; done).
  - rewrite unbind_loop_absent by (intros i _ Hi; by apply list_elem_of_lookup_2 in Hi).
    rewrite firstn_all. f_equal. symmetry. apply filter_all. by intros x Hx ->.
Qed.

(** A trace id bound twice can bring the process down: the second deletion
    slices past the end. *)
Example bound_twice_panics : unbind_loop 2 0 2 ["u"; "u"]%string "u" = None.
Proof. reflexivity. Qed.
