(* ===== verification/TunnelStream.v ===== *)
(** * tunnel: streams and connections (proxy/handlers, proxy/common/connect.go, streammng)

    The handlers of the messages, the two goroutines of a connection ([Read]
    and [Write]), the two loops of a gRPC stream ([SendMsg] and [RecvMsg]) on
    either end, and the modules that register the handlers.  The handlers
    return the goroutines they start. *)

From Stdlib Require Import ZArith Lia Ascii String.
From stdpp Require Import base strings gmap numbers sorting list.
From S2P Require Import Prelude.
From S2P Require Import TunnelContext.

Local Open Scope Z_scope.
Local Open Scope go_scope.

(** ** Goroutines of a connection (proxy/common/connect.go) *)

Inductive goroutine : Type :=
| Read (sock r : nat) (category handleType uuid : string)
| Write (sock : nat) (c : conn).

(** What [conn.Read] returns: [n] bytes, and perhaps an error. *)
Record read_result : Type := mkReadResult { rd_bytes : list Z; rd_err : option string }.

(** One turn of the loop of [Read]; the result says whether it goes on.
    Bytes that come together with an error are not sent. *)
Definition Read_turn (r : nat) (category handleType uuid : string) (a : read_result) : tm bool :=
  match rd_err a with
  | Some err =>
      do! name := GetName r in
      run! (Send2Node r (mkMsg name category CLOSED uuid (bytes_msg err) EmptyString)) in
      run! (UnbindNode r uuid) in
      run! (RemoveConn uuid) in
      tret false
  | None =>
      do! name := GetName r in
      run! (Send2Node r (mkMsg name category handleType uuid (rd_bytes a) EmptyString)) in
      tret true
  end.

(** What [conn.Write] does with the bytes: all written, or [n] of them and an
    error. *)
Inductive write_result : Type := WroteAll | WroteSome (n : nat).

(** One turn of the loop of [Write]: the bytes that reach the socket and
    whether the loop goes on. *)
Definition Write_turn (c : conn) (a : write_result) : tm (list Z * bool) :=
  do! msg := recv (c_ch c) in
  if String.eqb (m_Type msg) CLOSED then tret ([], false)
  else match a with
       | WroteAll => tret (m_Data msg, true)
       | WroteSome n => tret (take n (m_Data msg), false)
       end.

(** ** Handlers (proxy/handlers/common_handler.go, streammsg) *)

Definition HeartbeatHandler (msg : StreamMsg) : tm (option string) :=
  do! node := GetNode (m_Node msg) in
  match node with
  | None => tret (Some ("failed to send heartbeat to edge node node: " +:+ m_Node msg))
  | Some r => run! (Send2Node r msg) in tret None
  end.

(** The other end of a connection between two edge nodes, if it is registered
    here. *)
Definition pair_of (msg : StreamMsg) : tm (option nat) :=
  do! localNode := GetNode (m_Node msg) in
  match localNode with
  | None => tret None
  | Some l =>
      do! remoteNodeName := GetPairNode l (m_Topic msg) in
      if String.eqb remoteNodeName EmptyString then tret None else GetNode remoteNodeName
  end.

Definition DirectHandler (msg : StreamMsg) : tm (option string) :=
  do! chConn := GetConn (m_Topic msg) in
  match chConn with
  | Some c => run! (Send2Conn c msg) in tret None
  | None =>
      do! remoteNode := pair_of msg in
      match remoteNode with
      | Some r => run! (Send2Node r msg) in tret None
      | None =>
          if String.eqb (m_Type msg) CLOSED then tret None
          else
            do! localNode := GetNode (m_Node msg) in
            run! (match localNode with
                  | Some l => Send2Node l (mkMsg (m_Node msg) (m_Category msg) CLOSED (m_Topic msg)
                                             (bytes_msg "msg cannot be forwarded due to disconnection") EmptyString)
                  | None => tret tt
                  end) in
            tret (Some ("failed to get msgChannel, Traceid:" +:+ m_Topic msg))
      end
  end.

Inductive dial_result : Type := Dialed (sock : nat) | DialFailed (err : string).

(** A node object that is gone when the dial succeeds is a nil dereference at
    [node.BindNode]. *)
Definition ConnectingHandler (dial : dial_result) (msg : StreamMsg) : tm (option string * list goroutine) :=
  do! chConn := GetConn (m_Topic msg) in
  match chConn with
  | Some c => run! (Send2Conn c msg) in tret (None, [])
  | None =>
      do! node := GetNode (m_Node msg) in
      match dial with
      | DialFailed err =>
          run! (match node with
                | Some r =>
                    do! name := GetName r in
                    Send2Node r (mkMsg name (m_Category msg) CONNECT_FAILED (m_Topic msg) (bytes_msg err) EmptyString)
                | None => tret tt
                end) in
          tret (Some err, [])
      | Dialed sock =>
          run! (match node with
                | Some r =>
                    do! name := GetName r in
                    Send2Node r (mkMsg name (m_Category msg) CONNECT_SUCCESSED (m_Topic msg) [] EmptyString)
                | None => tret tt
                end) in
          do! ch := AddConn (m_Topic msg) in
          match node with
          | None => tpanic "invalid memory address or nil pointer dereference"
          | Some r =>
              run! (BindNode r (m_Topic msg)) in
              tret (None, [Read sock r (m_Category msg) TCP_FORWARD (m_Topic msg); Write sock ch])
          end
      end
  end.

(** ** Modules (proxy/modules, module/core.go) *)

Fixpoint register_all (module : string) (l : list (string * CallBack)) : tm unit :=
  match l with
  | [] => tret tt
  | (key, h) :: l' => run! (RegisterHandler key module h) in register_all module l'
  end.

(** The registrations of each module's [Start]; the rest of the functions
    starts servers. *)
Definition SSH_Start : tm unit :=
  register_all SSH [(CONNECT_REQ, ConnectingHandler_); (TCP_FORWARD, DirectHandler_); (CLOSED, DirectHandler_);
                    (CONNECT_SUCCESSED, DirectHandler_); (CONNECT_FAILED, DirectHandler_)].

Definition EgressSelector_Start : tm unit :=
  register_all EGRESS [(TCP_FORWARD, DirectHandler_); (CLOSED, DirectHandler_); (CONNECT_REQ, ConnectingHandler_);
                       (CONNECT_SUCCESSED, DirectHandler_); (CONNECT_FAILED, DirectHandler_)].

Definition HttpProxy_Start (mode : string) : tm unit :=
  run! (register_all HTTP_PROXY [(TCP_FORWARD, DirectHandler_); (CONNECT_SUCCESSED, DirectHandler_);
                                 (CONNECT_FAILED, DirectHandler_); (CLOSED, DirectHandler_)]) in
  if String.eqb mode EDGE then RegisterHandler CONNECT_REQ HTTP_PROXY ConnectingHandler_
  else if String.eqb mode CLOUD then RegisterHandler CONNECT_REQ HTTP_PROXY AccessHandler_
  else tret tt.

Definition Stream_Start : tm unit := RegisterHandler STREAM_HEART_BEAT STREAM HeartbeatHandler_.

(** [Modules] is a map of what [Register] put there; [LoadModules] starts
    them in the order a range gives. *)
Definition Start (mode module : string) : tm unit :=
  if String.eqb module SSH then SSH_Start
  else if String.eqb module EGRESS then EgressSelector_Start
  else if String.eqb module HTTP_PROXY then HttpProxy_Start mode
  else if String.eqb module STREAM then Stream_Start
  else tret tt.

Fixpoint LoadModules (mode : string) (modules : list string) : tm unit :=
  match modules with
  | [] => tret tt
  | n :: l => run! (AddModule n) in run! (Start mode n) in LoadModules mode l
  end.

(** [CleanUp] of every module but the HTTP proxy, which first sends on a
    channel nobody made. *)
Definition CleanUp (module : string) : tm unit :=
  if String.eqb module HTTP_PROXY then (fun _ => Blocked) else RemoveModule module.

Fixpoint ShutDown (modules : list string) : tm unit :=
  match modules with
  | [] => tret tt
  | n :: l => run! (CleanUp n) in ShutDown l
  end.

(** ** The loops of a stream (streaminterceptor.go) *)

Section Streams.

(** [AccessHandler] (TunnelServe.v), and what [net.Dial] answers. *)
Context (AccessHandler : StreamMsg -> tm (option string * list goroutine)).

(** [TunnelContext.Handler]: the goroutines the handler starts. *)
Definition Handler (dial : dial_result) (msg : StreamMsg) (key module : string) : tm (list goroutine) :=
  do! f := GetHandler key module in
  match f with
  | None => tret []
  | Some HeartbeatHandler_ => run! (HeartbeatHandler msg) in tret []
  | Some DirectHandler_ => run! (DirectHandler msg) in tret []
  | Some ConnectingHandler_ => do! x := ConnectingHandler dial msg in tret (snd x)
  | Some AccessHandler_ => do! x := AccessHandler msg in tret (snd x)
  end.

Definition stream_closed (nodeName : string) : StreamMsg := mkMsg nodeName STREAM CLOSED EmptyString [] EmptyString.
Definition is_stream_closed (msg : StreamMsg) : bool := String.eqb (m_Category msg) STREAM && String.eqb (m_Type msg) CLOSED.

(** How a turn of [SendMsg] ends: a message for the wire, the stop message,
    or an error of the stream, which loses the message. *)
Inductive send_turn : Type := Sent (msg : StreamMsg) | SendStopped | SendFailed (msg : StreamMsg).

(** [wrappedServerStream.SendMsg] after its [AddNode]; [ok] is the answer of
    the stream. *)
Definition server_SendMsg_turn (r : nat) (ok : bool) : tm send_turn :=
  do! n := the_node r in
  do! msg := recv (n_ch n) in
  if is_stream_closed msg then tret SendStopped
  else if ok then tret (Sent msg) else tret (SendFailed msg).

(** [wrappedClientStream.SendMsg]: the same, and the node is removed when
    the loop ends. *)
Definition client_SendMsg_turn (nodeName : string) (r : nat) (ok : bool) : tm send_turn :=
  do! t := server_SendMsg_turn r ok in
  match t with
  | Sent msg => tret t
  | _ => run! (RemoveNode nodeName) in tret t
  end.

(** A turn of [RecvMsg]: [None] is an error of the stream, which sends the
    stop message to the node registered under the name and ends the loop. *)
Definition server_RecvMsg_turn (nodeName : string) (dial : dial_result) (got : option StreamMsg)
    : tm (bool * list goroutine) :=
  match got with
  | None =>
      do! node := GetNode nodeName in
      run! (match node with Some r => Send2Node r (stream_closed nodeName) | None => tret tt end) in
      tret (false, [])
  | Some msg => do! go := Handler dial msg (m_Type msg) (m_Category msg) in tret (true, go)
  end.

(** The heartbeat of an edge node: whether an answer is awaited ([restart])
    and how many ticks went without one. *)
Record heartbeat : Type := mkHeartbeat { hb_restart : bool; hb_count : Z }.

#[export] Instance heartbeat_eq_dec : EqDecision heartbeat.
Proof. solve_decision. Defined.

(** On the edge an answered heartbeat is not dispatched. *)
Definition client_RecvMsg_turn (nodeName : string) (dial : dial_result) (w : heartbeat) (got : option StreamMsg)
    : tm (heartbeat * (bool * list goroutine)) :=
  match got with
  | Some msg =>
      if String.eqb (m_Category msg) STREAM && String.eqb (m_Type msg) STREAM_HEART_BEAT
      then tret (mkHeartbeat false (hb_count w), (true, []))
      else do! x := server_RecvMsg_turn nodeName dial got in tret (w, x)
  | None => do! x := server_RecvMsg_turn nodeName dial got in tret (w, x)
  end.

(** A minute of the heartbeat goroutine; [None] is [os.Exit(1)]. *)
Definition heartbeat_tick (nodeName : string) (r : nat) (w : heartbeat) : tm (option heartbeat) :=
  if hb_restart w then
    if 1 <=? hb_count w then tret None
    else
      run! (Send2Node r (stream_closed nodeName)) in
      tret (Some (mkHeartbeat true (hb_count w + 1)))
  else
    run! (Send2Node r (mkMsg nodeName STREAM STREAM_HEART_BEAT (nodeName +:+ STREAM_HEART_BEAT) [] EmptyString)) in
    tret (Some (mkHeartbeat true 0)).

End Streams.
