(* ===== verification/TunnelSystem.v ===== *)
(** * tunnel: both ends of a stream (cloud_server_handler.go, streaminterceptor.go, connect.go)

    tunnel-cloud and a tunnel-edge joined by a gRPC stream: clients connect on
    the cloud side ([ConnectNode]), the edge dials their targets, and each
    connection has a [Read] and a [Write] on either side.  A step of a side is
    one turn of one of its goroutines; steps of the two sides come in any
    order, and gRPC delivers the messages of a stream in the order they were
    sent.

    The theorems show that what is written to a socket is, in order, what was
    read from the socket at the other end, and that no turn panics while the
    node is registered, in runs whose clients use every trace id once. *)

From Stdlib Require Import ZArith Lia Ascii String.
From stdpp Require Import base strings gmap numbers sorting list.
From S2P Require Import Prelude.
From S2P Require Import TunnelContext.
From S2P Require Import TunnelStream.

Local Open Scope Z_scope.
Local Open Scope go_scope.

(** ** One side *)

(** The goroutines by trace id: calls of [ConnectNode] that wait for an
    answer, readers (with their node object and category) and writers. *)
Record goroutines : Type := mkGoroutines {
  g_waiting : gmap string (conn * string);
  g_readers : gmap string string;
  g_writers : gmap string conn
}.

(** What happened, for the statements: the channel made for each trace id,
    the bytes read from and written to its socket, the messages given to and
    taken from the stream, the message a broken stream lost, and the trace ids whose [ConnectNode] took another
    message for the answer. *)
Record history : Type := mkHistory {
  h_made : gmap string nat;
  h_got : gmap string (list Z);
  h_put : gmap string (list Z);
  h_out : list StreamMsg;
  h_lost : list StreamMsg;
  h_in : list StreamMsg;
  h_misread : gset string
}.

Record side : Type := mkSide {
  s_ctx : TunnelContext;
  s_go : goroutines;
  s_sending : bool;
  s_receiving : bool;
  s_heartbeat : heartbeat;
  s_hist : history
}.

Inductive role : Type := CloudSide | EdgeSide.

(** A first write on a new connection: the status line of a CONNECT request
    to the client (and whether it could be written), or the request itself to
    the target. *)
Inductive first_write : Type := StatusLine (ok : bool) | RawRequest (data : list Z).

Inductive label : Type :=
| LConnect (uid category addr : string)
| LAnswer (uid : string) (w : first_write)
| LTimeout (uid : string)
| LRead (uid : string) (a : read_result)
| LWrite (uid : string) (a : write_result)
| LSend (ok : bool)
| LRecv (dial : dial_result) (got : option StreamMsg)
| LRemove
| LTick.

Definition got_by (h : history) (u : string) : list Z := default [] (h_got h !! u).
Definition put_by (h : history) (u : string) : list Z := default [] (h_put h !! u).

Definition note_made (u : string) (ch : nat) (h : history) : history :=
  mkHistory (<[u := ch]> (h_made h)) (h_got h) (h_put h) (h_out h) (h_lost h) (h_in h) (h_misread h).
Definition note_got (u : string) (d : list Z) (h : history) : history :=
  mkHistory (h_made h) (<[u := got_by h u ++ d]> (h_got h)) (h_put h) (h_out h) (h_lost h) (h_in h) (h_misread h).
Definition note_put (u : string) (d : list Z) (h : history) : history :=
  mkHistory (h_made h) (h_got h) (<[u := put_by h u ++ d]> (h_put h)) (h_out h) (h_lost h) (h_in h) (h_misread h).
Definition note_out (m : StreamMsg) (h : history) : history :=
  mkHistory (h_made h) (h_got h) (h_put h) (h_out h ++ [m]) (h_lost h) (h_in h) (h_misread h).
Definition note_lost (m : StreamMsg) (h : history) : history :=
  mkHistory (h_made h) (h_got h) (h_put h) (h_out h) (h_lost h ++ [m]) (h_in h) (h_misread h).
Definition note_in (m : StreamMsg) (h : history) : history :=
  mkHistory (h_made h) (h_got h) (h_put h) (h_out h) (h_lost h) (h_in h ++ [m]) (h_misread h).
Definition note_misread (u : string) (h : history) : history :=
  mkHistory (h_made h) (h_got h) (h_put h) (h_out h) (h_lost h) (h_in h) ({[u]} ∪ h_misread h).

Definition upd_waiting f (g : goroutines) : goroutines := mkGoroutines (f (g_waiting g)) (g_readers g) (g_writers g).
Definition upd_readers f (g : goroutines) : goroutines := mkGoroutines (g_waiting g) (f (g_readers g)) (g_writers g).
Definition upd_writers f (g : goroutines) : goroutines := mkGoroutines (g_waiting g) (g_readers g) (f (g_writers g)).

(** The goroutines of a pair just started. *)
Definition start_pair (uid category : string) (c : conn) (g : goroutines) : goroutines :=
  upd_readers <[uid := category]> (upd_writers <[uid := c]> g).

Fixpoint start_all (l : list goroutine) (g : goroutines) : goroutines :=
  match l with
  | [] => g
  | Read _ _ category _ uid :: l' => start_all l' (upd_readers <[uid := category]> g)
  | Write _ c :: l' => start_all l' (upd_writers <[c_uid c := c]> g)
  end.

Fixpoint note_started (l : list goroutine) (h : history) : history :=
  match l with
  | [] => h
  | Read _ _ _ _ _ :: l' => note_started l' h
  | Write _ c :: l' => note_started l' (note_made (c_uid c) (c_ch c) h)
  end.

(** The side after a turn that left context [c]. *)
Definition with_ctx (s : side) (c : TunnelContext) (g : goroutines -> goroutines) (h : history -> history) : side :=
  mkSide c (g (s_go s)) (s_sending s) (s_receiving s) (s_heartbeat s) (h (s_hist s)).

(** A turn: [None] when it waits on a channel. *)
Definition turn {A : Type} (m : tm A) (s : side) (k : A -> TunnelContext -> side) : option (outcome side) :=
  match m (s_ctx s) with
  | Ok a c => Some (Ret (k a c))
  | Blocked => None
  | Crashed w => Some (Panic w)
  end.

(** *** Turns of each kind; node object 0 is the one of the stream *)

Section Turns.
Context (nodeName : string).

Definition forwarding (category : string) : bool :=
  String.eqb category SSH || String.eqb category EGRESS || String.eqb category HTTP_PROXY.

(** A client on the cloud side.  Its trace id is one it sends in a header or a
    new one, so it may be in use; the goroutines and the history of the id are
    then those of the call made last.  The node object was looked up before and
    may not be registered any more. *)
Definition turn_connect (uid category addr : string) (s : side) : option (outcome side) :=
  if forwarding category then
    turn (ConnectNode_request 0 category addr uid) s (fun c ctx =>
      with_ctx s ctx (upd_waiting <[uid := (c, category)]>) (note_made uid (c_ch c)))
  else None.

(** The answer of the edge, and what the caller of [ConnectNode] does with
    it: an error ends the call; otherwise the first write and the two
    goroutines.  The message taken for the answer is noted. *)
Definition first_message (ch : nat) (s : side) : option StreamMsg :=
  match chan_heap (s_ctx s) !! ch with Some (m :: _) => Some m | _ => None end.

Definition is_answer (m : StreamMsg) : bool := String.eqb (m_Type m) CONNECT_SUCCESSED || String.eqb (m_Type m) CONNECT_FAILED.

Definition note_answer (uid : string) (ch : nat) (s : side) (h : history) : history :=
  match first_message ch s with
  | Some m => if is_answer m then h else note_misread uid h
  | None => h
  end.

Definition answered (uid category : string) (w : first_write) (c : conn) : tm bool :=
  do! err := ConnectNode_answer 0 c Received in
  match err, w with
  | Some _, _ => tret false
  | None, StatusLine ok => tret ok
  | None, RawRequest data =>
      run! (Send2Node 0 (mkMsg nodeName category TCP_FORWARD uid data EmptyString)) in tret true
  end.

Definition turn_answer (uid : string) (w : first_write) (s : side) : option (outcome side) :=
  match g_waiting (s_go s) !! uid with
  | None => None
  | Some (c, category) =>
      turn (answered uid category w c) s (fun started ctx =>
        with_ctx s ctx
          (fun g => let g' := upd_waiting (delete uid) g in if started : bool then start_pair uid category c g' else g')
          (fun h => let h' := note_answer uid (c_ch c) s h in
                    match w with
                    | RawRequest data => if started then note_got uid data h' else h'
                    | StatusLine _ => h'
                    end))
  end.

Definition turn_timeout (uid : string) (s : side) : option (outcome side) :=
  match g_waiting (s_go s) !! uid with
  | None => None
  | Some (c, _) =>
      turn (ConnectNode_answer 0 c TimedOut) s (fun _ ctx => with_ctx s ctx (upd_waiting (delete uid)) (fun h => h))
  end.

Definition turn_read (uid : string) (a : read_result) (s : side) : option (outcome side) :=
  match g_readers (s_go s) !! uid with
  | None => None
  | Some category =>
      turn (Read_turn 0 category TCP_FORWARD uid a) s (fun more ctx =>
        with_ctx s ctx (if more : bool then fun g => g else upd_readers (delete uid)) (note_got uid (rd_bytes a)))
  end.

Definition turn_write (uid : string) (a : write_result) (s : side) : option (outcome side) :=
  match g_writers (s_go s) !! uid with
  | None => None
  | Some c =>
      turn (Write_turn c a) s (fun x ctx =>
        with_ctx s ctx (if snd x : bool then fun g => g else upd_writers (delete uid)) (note_put uid (fst x)))
  end.

Definition turn_send (ro : role) (ok : bool) (s : side) : option (outcome side) :=
  if s_sending s then
    turn (match ro with CloudSide => server_SendMsg_turn 0 ok | EdgeSide => client_SendMsg_turn nodeName 0 ok end) s
      (fun t ctx =>
        match t with
        | Sent m => with_ctx s ctx (fun g => g) (note_out m)
        | SendStopped => mkSide ctx (s_go s) false (s_receiving s) (s_heartbeat s) (s_hist s)
        | SendFailed m => mkSide ctx (s_go s) false (s_receiving s) (s_heartbeat s) (note_lost m (s_hist s))
        end)
  else None.

(** No message is dispatched to [AccessHandler] in this system (the edge side
    makes no requests), which the theorems prove. *)
Definition no_access (_ : StreamMsg) : tm (option string * list goroutine) := tpanic "a request of the edge side".

Definition received (got : option StreamMsg) (h : history) : history :=
  match got with Some m => note_in m h | None => h end.

Definition turn_recv (ro : role) (dial : dial_result) (got : option StreamMsg) (s : side) : option (outcome side) :=
  if s_receiving s then
    turn (match ro with
          | CloudSide => do! x := server_RecvMsg_turn no_access nodeName dial got in tret (s_heartbeat s, x)
          | EdgeSide => client_RecvMsg_turn no_access nodeName dial (s_heartbeat s) got
          end) s
      (fun x ctx =>
        mkSide ctx (start_all (snd (snd x)) (s_go s)) (s_sending s) (fst (snd x)) (fst x)
          (note_started (snd (snd x)) (received got (s_hist s))))
  else None.

(** [ServerStreamInterceptor] after its handler: the node registered under
    the name is removed.  It may be the work of an earlier stream of the same
    node, so the turn is always possible. *)
Definition turn_remove (s : side) : option (outcome side) :=
  turn (RemoveNode nodeName) s (fun _ ctx => with_ctx s ctx (fun g => g) (fun h => h)).

Definition turn_tick (ro : role) (s : side) : option (outcome side) :=
  match ro with
  | CloudSide => None
  | EdgeSide =>
      turn (fun c => match heartbeat_tick nodeName 0 (s_heartbeat s) c with
                     | Ok None _ => Crashed "exit status 1"
                     | Ok (Some w) c' => Ok w c'
                     | Blocked => Blocked
                     | Crashed w => Crashed w
                     end) s
        (fun w ctx => mkSide ctx (s_go s) (s_sending s) (s_receiving s) w (s_hist s))
  end.

(** One turn of a side.  The side has one stream, of one node: a second stream
    of the node shows only in its end, [turn_remove]. *)
Definition side_step (ro : role) (l : label) (s : side) : option (outcome side) :=
  match l with
  | LConnect uid category addr => match ro with CloudSide => turn_connect uid category addr s | EdgeSide => None end
  | LAnswer uid w => turn_answer uid w s
  | LTimeout uid => turn_timeout uid s
  | LRead uid a => turn_read uid a s
  | LWrite uid a => turn_write uid a s
  | LSend ok => turn_send ro ok s
  | LRecv dial got => turn_recv ro dial got s
  | LRemove => turn_remove s
  | LTick => turn_tick ro s
  end.

(** *** The start: modules loaded, the node registered by the stream *)

Definition boot (mode : string) : tm unit :=
  run! (LoadModules mode [STREAM; EGRESS; SSH; HTTP_PROXY]) in
  do! _ := AddNode nodeName in tret tt.

Definition side_at_start (mode : string) : side :=
  mkSide (match boot mode GetContext with Ok _ c => c | _ => GetContext end)
    (mkGoroutines ∅ ∅ ∅) true true (mkHeartbeat false 0) (mkHistory ∅ ∅ ∅ [] [] [] ∅).

(** ** The two sides *)

Record system : Type := mkSystem { cloud : side; edge : side }.

Definition at_start : system := mkSystem (side_at_start CLOUD) (side_at_start EDGE).

(** What the other side has sent and this one has not taken yet. *)
Definition next_message (from to : side) : option StreamMsg := h_out (s_hist from) !! length (h_in (s_hist to)).

(** The messages a label may claim to have received are the next ones. *)
Definition delivered (l : label) (from to : side) : bool :=
  match l with
  | LRecv _ (Some m) => bool_decide (next_message from to = Some m)
  | _ => true
  end.

(** A process that panics is over: the system has no such step. *)
Definition step (ro : role) (l : label) (x : system) : option system :=
  match ro with
  | CloudSide =>
      if delivered l (edge x) (cloud x) then
        match side_step CloudSide l (cloud x) with Some (Ret s) => Some (mkSystem s (edge x)) | _ => None end
      else None
  | EdgeSide =>
      if delivered l (cloud x) (edge x) then
        match side_step EdgeSide l (edge x) with Some (Ret s) => Some (mkSystem (cloud x) s) | _ => None end
      else None
  end.

Fixpoint run (ls : list (role * label)) (x : system) : option system :=
  match ls with
  | [] => Some x
  | (ro, l) :: ls' => match step ro l x with Some x' => run ls' x' | None => None end
  end.

(** A client that connects under a trace id the process has used before. *)
Definition reuses (l : label) (s : side) : bool :=
  match l with LConnect uid _ _ => bool_decide (is_Some (h_made (s_hist s) !! uid)) | _ => false end.

(** In the run no client does. *)
Fixpoint fresh_ids (ls : list (role * label)) (x : system) : bool :=
  match ls with
  | [] => true
  | (ro, l) :: ls' =>
      negb (reuses l (cloud x)) && match step ro l x with Some x' => fresh_ids ls' x' | None => true end
  end.

End Turns.
