(* ===== verification/TunnelFlow.v ===== *)
(** * tunnel: the flow of one connection

    The invariant of a trace id on one side of a stream (TunnelSystem.v): the
    messages on their way carry the bytes that were read and not yet written,
    in order.  The file has the changes of this view that keep the invariant,
    and the rules for turns that do not panic. *)

From Stdlib Require Import ZArith Lia Ascii String.
From stdpp Require Import base strings gmap numbers sorting list.
From S2P Require Import Prelude.
From S2P Require Import TunnelContext.
From S2P Require Import TunnelStream.
From S2P Require Import TunnelSystem.

Local Open Scope Z_scope.
Local Open Scope go_scope.

(** ** Messages about a trace id *)

Definition about (u : string) (m : StreamMsg) : Prop := m_Topic m = u /\ forwarding (m_Category m) = true.

#[export] Instance about_dec u m : Decision (about u m).
Proof. unfold about. apply _. Defined.

Definition of_uid (u : string) (l : list StreamMsg) : list StreamMsg := filter (about u) l.

(** Data, or the end of the connection. *)
Definition flowing (m : StreamMsg) : Prop := m_Type m = TCP_FORWARD \/ m_Type m = CLOSED.

Definition data_of (m : StreamMsg) : list Z := if String.eqb (m_Type m) TCP_FORWARD then m_Data m else [].
Definition fwd (l : list StreamMsg) : list Z := concat (data_of <$> l).

Definition known_type (m : StreamMsg) : Prop :=
  m_Type m = TCP_FORWARD \/ m_Type m = CLOSED \/ m_Type m = CONNECT_SUCCESSED \/ m_Type m = CONNECT_FAILED \/ m_Type m = CONNECT_REQ.

Lemma of_uid_app u l k : of_uid u (l ++ k) = of_uid u l ++ of_uid u k.
Proof. apply filter_app. Qed.

Lemma of_uid_one u m : about u m -> of_uid u [m] = [m].
Proof. intros H. unfold of_uid. by rewrite filter_cons_True. Qed.

Lemma of_uid_other u m : ~ about u m -> of_uid u [m] = [].
Proof. intros H. unfold of_uid. by rewrite filter_cons_False. Qed.

Lemma fwd_app l k : fwd (l ++ k) = fwd l ++ fwd k.
Proof. unfold fwd. by rewrite fmap_app, concat_app. Qed.

Lemma fwd_one m : fwd [m] = data_of m.
Proof. unfold fwd. simpl. by rewrite app_nil_r. Qed.

Lemma fwd_cons m l : fwd (m :: l) = data_of m ++ fwd l.
Proof. done. Qed.

Lemma fwd_prefix l k : l `prefix_of` k -> fwd l `prefix_of` fwd k.
Proof. intros [t ->]. rewrite fwd_app. by apply prefix_app_r. Qed.

Lemma of_uid_prefix u l k : l `prefix_of` k -> of_uid u l `prefix_of` of_uid u k.
Proof. intros [t ->]. rewrite of_uid_app. by apply prefix_app_r. Qed.

Lemma tail_prefix {A : Type} (l k : list A) : l `prefix_of` k -> tail l `prefix_of` tail k.
Proof. intros [t ->]. destruct l as [|a l]; [apply prefix_nil|]. simpl. by apply prefix_app_r. Qed.

Lemma Forall_prefix {A : Type} (P : A -> Prop) l k : l `prefix_of` k -> Forall P k -> Forall P l.
Proof. intros [t ->]. by intros [H _]%Forall_app. Qed.

Lemma tail_snoc {A : Type} (P : A -> Prop) l a : Forall P (tail l) -> (l = [] \/ P a) -> Forall P (tail (l ++ [a])).
Proof. destruct l as [|b l]; simpl; [constructor|]. intros H [?|Ha]; [done|]. apply Forall_app. auto. Qed.

Lemma stop_not_about u : ~ about u stopMsg.
Proof. by intros []. Qed.

(** ** The view of one trace id *)

Record view : Type := mkView {
  v_made : bool;
  v_reg : bool;
  v_waiting : bool;
  v_reader : bool;
  v_writer : bool;
  v_misread : bool;
  v_queue : list StreamMsg;
  v_sent : list StreamMsg;
  v_in : list StreamMsg;
  v_got : list Z;
  v_put : list Z
}.

Definition queue (c : TunnelContext) (ch : nat) : list StreamMsg := default [] (chan_heap c !! ch).

Definition isS {A : Type} (x : option A) : bool := match x with Some _ => true | None => false end.

Definition view_of (s : side) (u : string) : view := {|
  v_made := isS (h_made (s_hist s) !! u);
  v_reg := isS (conns (s_ctx s) !! u);
  v_waiting := isS (g_waiting (s_go s) !! u);
  v_reader := isS (g_readers (s_go s) !! u);
  v_writer := isS (g_writers (s_go s) !! u);
  v_misread := bool_decide (u ∈ h_misread (s_hist s));
  v_queue := match h_made (s_hist s) !! u with Some ch => queue (s_ctx s) ch | None => [] end;
  v_sent := of_uid u (h_out (s_hist s) ++ h_lost (s_hist s) ++ queue (s_ctx s) 0);
  v_in := of_uid u (h_in (s_hist s));
  v_got := got_by (s_hist s) u;
  v_put := put_by (s_hist s) u
|}.

(** The invariant of a trace id on one side. *)
Record flow (ro : role) (u : string) (v : view) : Prop := {
  fl_sent : Forall flowing (tail (v_sent v));
  fl_in : Forall flowing (tail (v_in v));
  fl_known : Forall known_type (v_sent v);
  fl_got : fwd (v_sent v) `prefix_of` v_got v;
  fl_reader : v_reader v = true -> fwd (v_sent v) = v_got v;
  fl_new : v_made v = false -> v_got v = [] /\ v_put v = [];
  fl_waiting : v_waiting v = true -> v_reg v = true /\ v_reader v = false /\ v_writer v = false /\
    v_put v = [] /\ v_got v = [] /\ Forall (fun m => about u m \/ m = stopMsg) (v_queue v) /\ of_uid u (v_queue v) = v_in v;
  fl_writer : v_writer v = true -> v_misread v = false -> v_in v <> [] /\ Forall flowing (v_queue v) /\
    (v_put v ++ fwd (v_queue v)) `prefix_of` fwd (v_in v) /\
    (v_reg v = true -> v_put v ++ fwd (v_queue v) = fwd (v_in v));
  fl_put : v_misread v = false -> v_put v `prefix_of` fwd (v_in v);
  fl_role : match ro with
            | CloudSide => v_made v = false -> v_sent v = [] /\ v_in v = []
            | EdgeSide => v_waiting v = false /\ v_misread v = false /\ Forall (fun m => m_Type m <> CONNECT_REQ) (v_sent v) /\
                          (v_in v = [] -> v_sent v = [] /\ v_made v = false)
            end
}.

(** ** Changes of a view that keep the invariant *)

Definition on_sent f v := mkView (v_made v) (v_reg v) (v_waiting v) (v_reader v) (v_writer v) (v_misread v) (v_queue v) (f (v_sent v)) (v_in v) (v_got v) (v_put v).
Definition on_queue f v := mkView (v_made v) (v_reg v) (v_waiting v) (v_reader v) (v_writer v) (v_misread v) (f (v_queue v)) (v_sent v) (v_in v) (v_got v) (v_put v).
Definition on_in f v := mkView (v_made v) (v_reg v) (v_waiting v) (v_reader v) (v_writer v) (v_misread v) (v_queue v) (v_sent v) (f (v_in v)) (v_got v) (v_put v).
Definition on_got f v := mkView (v_made v) (v_reg v) (v_waiting v) (v_reader v) (v_writer v) (v_misread v) (v_queue v) (v_sent v) (v_in v) (f (v_got v)) (v_put v).
Definition on_put f v := mkView (v_made v) (v_reg v) (v_waiting v) (v_reader v) (v_writer v) (v_misread v) (v_queue v) (v_sent v) (v_in v) (v_got v) (f (v_put v)).
Definition set_flags reg waiting reader writer v :=
  mkView (v_made v) reg waiting reader writer (v_misread v) (v_queue v) (v_sent v) (v_in v) (v_got v) (v_put v).
Definition set_made v :=
  mkView true (v_reg v) (v_waiting v) (v_reader v) (v_writer v) (v_misread v) (v_queue v) (v_sent v) (v_in v) (v_got v) (v_put v).
Definition set_misread b v :=
  mkView (v_made v) (v_reg v) (v_waiting v) (v_reader v) (v_writer v) (b || v_misread v) (v_queue v) (v_sent v) (v_in v) (v_got v) (v_put v).

Section Views.
Context (ro : role) (u : string).

(** What a goroutine of trace id [u] on this side may put on the stream. *)
Record sendable (v : view) (m : StreamMsg) : Prop := {
  sd_known : known_type m;
  sd_flow : v_sent v = [] \/ flowing m;
  sd_role : match ro with CloudSide => v_made v = true | EdgeSide => m_Type m <> CONNECT_REQ /\ v_in v <> [] end
}.

Lemma fl_role_sent v m : flow ro u v -> sendable v m ->
  match ro with
  | CloudSide => v_made v = false -> v_sent v ++ [m] = [] /\ v_in v = []
  | EdgeSide => v_waiting v = false /\ v_misread v = false /\ Forall (fun m => m_Type m <> CONNECT_REQ) (v_sent v ++ [m]) /\
                (v_in v = [] -> v_sent v ++ [m] = [] /\ v_made v = false)
  end.
Proof.
  intros [] [_ _ Hr]. destruct ro; [congruence|]. destruct Hr as [Hr Hne], fl_role0 as (Hw & Hmis & Hf & _).
  repeat split; [done|done|apply Forall_app; auto|done|done].
Qed.

Lemma flow_emit v m : flow ro u v -> sendable v m -> data_of m = [] -> flow ro u (on_sent (fun l => l ++ [m]) v).
Proof.
  intros Hf Hs Hd. pose proof (fl_role_sent v m Hf Hs) as Hr. destruct Hf, Hs.
  constructor; simpl; try done; rewrite ?fwd_app, ?fwd_one, ?Hd, ?app_nil_r; try done.
  - by apply tail_snoc.
  - apply Forall_app. auto.
Qed.

Lemma flow_data v m : flow ro u v -> sendable v m -> v_made v = true -> v_waiting v = false ->
  fwd (v_sent v) = v_got v -> flow ro u (on_got (fun d => d ++ data_of m) (on_sent (fun l => l ++ [m]) v)).
Proof.
  intros Hf Hs Hm Hw He. pose proof (fl_role_sent v m Hf Hs) as Hr. destruct Hf, Hs.
  constructor; simpl; try done; rewrite ?fwd_app, ?fwd_one, ?He; try done.
  - by apply tail_snoc.
  - apply Forall_app. auto.
  - congruence.
  - congruence.
Qed.

(** Bytes read that are not sent on: the reader is at its end. *)
Lemma flow_lost v d : flow ro u v -> v_made v = true -> v_waiting v = false -> v_reader v = false ->
  flow ro u (on_got (fun x => x ++ d) v).
Proof.
  intros [] Hm Hw Hr. constructor; simpl; try done; try congruence. by apply prefix_app_r.
Qed.

(** Ending goroutines and removing the connection. *)
Lemma flow_end v reg reader writer : flow ro u v -> (reg = true -> v_reg v = true) -> (reader = true -> v_reader v = true) ->
  (writer = true -> v_writer v = true) -> flow ro u (set_flags reg false reader writer v).
Proof.
  intros [] Hg Hr Hw. constructor; simpl; try done.
  - auto.
  - intros H1 H2. destruct (fl_writer0 (Hw H1) H2) as (? & ? & ? & ?). repeat split; auto.
  - destruct ro; [done|]. destruct fl_role0 as (? & ? & ? & ?). done.
Qed.

Lemma flow_unregister v : flow ro u v -> v_waiting v = false ->
  flow ro u (set_flags false false (v_reader v) (v_writer v) v).
Proof. intros H _. by apply flow_end. Qed.

(** The stop message of a node that is gone. *)
Lemma flow_stop v : flow ro u v -> flow ro u (on_queue (fun q => q ++ [stopMsg]) v).
Proof.
  intros []. constructor; simpl; try done.
  - intros Hw. destruct (fl_waiting0 Hw) as (? & ? & ? & ? & ? & ? & ?). repeat split; try done.
    + apply Forall_app. auto.
    + by rewrite of_uid_app, of_uid_other, app_nil_r by apply stop_not_about.
  - intros H1 H2. destruct (fl_writer0 H1 H2) as (? & ? & ? & ?). rewrite fwd_app, app_nil_r. repeat split; try done.
    apply Forall_app. split; [done|]. constructor; [by right|done].
Qed.

(** A message comes in and is dropped. *)
Definition acceptable (v : view) (m : StreamMsg) : Prop := v_in v = [] \/ flowing m.

Lemma flow_in v m : flow ro u v -> about u m -> acceptable v m -> v_reg v = false ->
  match ro with CloudSide => v_made v = true | EdgeSide => True end -> flow ro u (on_in (fun l => l ++ [m]) v).
Proof.
  intros [] Ha Hacc Hr Hro. constructor; simpl; try done.
  - by apply tail_snoc.
  - intros Hw. destruct (fl_waiting0 Hw) as (? & _). congruence.
  - intros H1 H2. destruct (fl_writer0 H1 H2) as (Hne & ? & ? & ?). rewrite fwd_app. repeat split; [|done|by apply prefix_app_r|congruence].
    by destruct (v_in v).
  - intros H. rewrite fwd_app. by apply prefix_app_r, fl_put0.
  - destruct ro; [congruence|]. destruct fl_role0 as (? & ? & ? & ?). repeat split; try done; by destruct (v_in v).
Qed.

(** A message comes in and is delivered. *)
Lemma flow_deliver v m : flow ro u v -> about u m -> acceptable v m -> v_reg v = true -> v_made v = true ->
  flow ro u (on_queue (fun q => q ++ [m]) (on_in (fun l => l ++ [m]) v)).
Proof.
  intros [] Ha Hacc Hr Hm. constructor; simpl; try done.
  - by apply tail_snoc.
  - intros Hw. destruct (fl_waiting0 Hw) as (? & ? & ? & ? & ? & ? & He). repeat split; try done.
    + apply Forall_app. auto.
    + by rewrite of_uid_app, of_uid_one, He.
  - intros H1 H2. destruct (fl_writer0 H1 H2) as (Hne & Hq & Hp & He). specialize (He Hr).
    assert (flowing m) as Hfm by (destruct Hacc; done).
    rewrite !fwd_app, app_assoc, He. repeat split; [by destruct (v_in v)| |done].
    apply Forall_app. auto.
  - intros H. rewrite fwd_app. by apply prefix_app_r, fl_put0.
  - destruct ro; [congruence|]. destruct fl_role0 as (? & ? & ? & ?). repeat split; try done; by destruct (v_in v).
Qed.

(** The writer takes a message; [d] is what reaches the socket. *)
Lemma flow_write v m q d writer : flow ro u v -> v_writer v = true -> v_waiting v = false -> v_queue v = m :: q -> v_made v = true ->
  (d `prefix_of` m_Data m /\ m_Type m <> CLOSED \/ d = [] /\ m_Type m = CLOSED) -> (writer = true -> d = m_Data m /\ m_Type m <> CLOSED) ->
  flow ro u (on_put (fun p => p ++ d) (on_queue (fun _ => q) (set_flags (v_reg v) (v_waiting v) (v_reader v) writer v))).
Proof.
  intros [] Hw Hwait Hq Hm Hd Hwr. constructor; simpl; try done; try congruence.
  - intros H1 H2. destruct (fl_writer0 Hw H2) as (? & Hf & Hp & He). destruct (Hwr H1) as [-> Hnc].
    rewrite Hq in Hf, Hp, He. apply Forall_cons in Hf as [[Hfm|Hfm] Hf]; [|done].
    assert (fwd (m :: q) = m_Data m ++ fwd q) as Hfw by (rewrite fwd_cons; unfold data_of; by rewrite Hfm).
    rewrite Hfw in Hp, He. rewrite <- app_assoc. done.
  - intros H2. destruct (fl_writer0 Hw H2) as (? & Hf & Hp & He).
    rewrite Hq in Hf, Hp. apply Forall_cons in Hf as [Hfm _].
    destruct Hd as [[Hd Hnc]|[-> _]]; [|rewrite app_nil_r; etrans; [by apply prefix_app_r|exact Hp]].
    destruct Hfm as [Hfm|?]; [|done]. etrans; [|exact Hp]. apply prefix_app. rewrite fwd_cons.
    unfold data_of. rewrite Hfm. simpl. by apply prefix_app_r.
Qed.

(** Without a writer or a waiting call the queue does not matter. *)
Lemma flow_queue v f : flow ro u v -> v_waiting v = false -> v_writer v = false -> flow ro u (on_queue f v).
Proof. intros [] H1 H2. constructor; simpl; try done; congruence. Qed.

Lemma waiting_unsent v : flow ro u v -> v_waiting v = true -> fwd (v_sent v) = [] /\ v_got v = [].
Proof.
  intros [] Hw. destruct (fl_waiting0 Hw) as (_ & _ & _ & _ & Hg & _). rewrite Hg in fl_got0.
  split; [by apply prefix_nil_inv|done].
Qed.

(** [ConnectNode] takes a message for its answer; unless it is the edge's
    [CONNECT_SUCCESSED] this is noted. *)
Lemma flow_start v m q b mis : flow ro u v -> v_waiting v = true -> v_queue v = m :: q ->
  (mis = false -> m_Type m = CONNECT_SUCCESSED) ->
  flow ro u (set_flags true false b b (on_queue (fun _ => q) (set_misread mis v))).
Proof.
  intros Hf Hw Hq Hm. destruct (waiting_unsent v Hf Hw) as [Hs Hg]. destruct Hf.
  destruct (fl_waiting0 Hw) as (? & ? & ? & Hp & _ & Hab & Hin). rewrite Hq in Hab, Hin.
  apply Forall_cons in Hab as [Ham Hab].
  constructor; simpl; try done.
  - intros _. by rewrite Hs, Hg.
  - intros Hb [-> Hmis]%orb_false_iff. specialize (Hm eq_refl).
    destruct Ham as [Ham| ->]; [|done]. 
    assert (of_uid u (m :: q) = m :: of_uid u q) as Hcons by (unfold of_uid; by rewrite filter_cons_True).
    rewrite Hcons in Hin. rewrite <- Hin in *. simpl in *.
    assert (Forall flowing q) as Hfq.
    { apply Forall_forall. intros x Hx. rewrite Forall_forall in Hab, fl_in0. destruct (Hab x Hx) as [Hax| ->]; [|by right].
      apply fl_in0. apply list_elem_of_filter. done. }
    assert (fwd q = fwd (of_uid u q)) as Hfwd.
    { clear - Hab. induction Hab as [|x l [Hx| ->] _ IH]; [done|..].
      - unfold of_uid. rewrite filter_cons_True by done. rewrite !fwd_cons. by rewrite IH.
      - unfold of_uid. rewrite filter_cons_False by apply stop_not_about. by rewrite fwd_cons, IH. }
    assert (data_of m = []) as Hd by (unfold data_of; by rewrite Hm).
    rewrite Hp, fwd_cons, Hd, Hfwd. done.
  - intros _. rewrite Hp. apply prefix_nil.
  - destruct ro; [done|]. destruct fl_role0 as (Hx & _). congruence.
Qed.

(** The edge accepts a request, or refuses it. *)
Lemma flow_accept v req ack : ro = EdgeSide -> flow ro u v -> v_in v = [] -> v_sent v = [] ->
  m_Type req = CONNECT_REQ -> m_Type ack = CONNECT_SUCCESSED -> v_put v = [] -> v_got v = [] ->
  flow ro u (mkView true true false true true (v_misread v) [] [ack] [req] [] []).
Proof.
  intros -> [] Hin Hs Hreq Hack Hp Hg. destruct fl_role0 as (_ & Hmis & _).
  assert (data_of ack = [] /\ data_of req = []) as [Hd1 Hd2] by (unfold data_of; by rewrite Hack, Hreq).
  constructor; simpl; rewrite ?fwd_one, ?Hd1, ?Hd2; try done.
  - constructor; [|done]. unfold known_type. auto.
  - repeat split; try done. constructor; [|done]. by rewrite Hack.
Qed.

End Views.

(** ** Turns that do not panic *)

(** [wpt E m c Q]: [m] run on context [c] returns what [Q] says, waits, or
    panics with a reason that [E] allows. *)
Definition wpt {A : Type} (E : string -> Prop) (m : tm A) (c : TunnelContext) (Q : A -> TunnelContext -> Prop) : Prop :=
  match m c with
  | Ok a c' => Q a c'
  | Blocked => True
  | Crashed w => E w
  end.

Lemma wpt_bind {A B : Type} E (m : tm A) (f : A -> tm B) c Q :
  wpt E m c (fun a c' => wpt E (f a) c' Q) -> wpt E (tbind m f) c Q.
Proof. unfold wpt, tbind. by destruct (m c). Qed.

Lemma wpt_ret {A : Type} E (a : A) c (Q : A -> TunnelContext -> Prop) : Q a c -> wpt E (tret a) c Q.
Proof. done. Qed.

Lemma wpt_tmod E f c (Q : unit -> TunnelContext -> Prop) : Q tt (f c) -> wpt E (tmod f) c Q.
Proof. done. Qed.

Lemma wpt_mono {A : Type} (E : string -> Prop) (m : tm A) c (Q Q' : A -> TunnelContext -> Prop) :
  wpt E m c Q -> (forall a c', Q a c' -> Q' a c') -> wpt E m c Q'.
Proof. unfold wpt. destruct (m c); auto. Qed.

Lemma turn_wpt {A : Type} E (m : tm A) s k (Q : A -> TunnelContext -> Prop) (P : side -> Prop) :
  wpt E m (s_ctx s) Q -> (forall a c, Q a c -> P (k a c)) ->
  match turn m s k with Some (Ret s') => P s' | Some (Panic w) => E w | None => True end.
Proof. unfold wpt, turn. destruct (m (s_ctx s)); auto. Qed.

(** Sending on a channel. *)
Definition push (ch : nat) (m : StreamMsg) (c : TunnelContext) : TunnelContext :=
  set_chan_heap (<[ch := queue c ch ++ [m]]>) c.

Lemma wpt_send E ch m c (Q : unit -> TunnelContext -> Prop) :
  ((ch < length (chan_heap c))%nat -> Q tt (push ch m c)) -> wpt E (send ch m) c Q.
Proof.
  unfold wpt, send, push, queue. destruct (chan_heap c !! ch) as [q|] eqn:Hq; [|done].
  destruct (_ <? _)%nat; [|done]. intros H. apply H. by apply lookup_lt_Some in Hq.
Qed.

Lemma wpt_recv E ch c (Q : StreamMsg -> TunnelContext -> Prop) :
  (forall m q, chan_heap c !! ch = Some (m :: q) -> Q m (set_chan_heap (<[ch := q]>) c)) -> wpt E (recv ch) c Q.
Proof. unfold wpt, recv. destruct (chan_heap c !! ch) as [[|m q]|] eqn:Hq; auto. Qed.

Lemma queue_push ch m c ch' : (ch < length (chan_heap c))%nat ->
  queue (push ch m c) ch' = if decide (ch' = ch) then queue c ch ++ [m] else queue c ch'.
Proof.
  intros Hl. unfold queue, push. simpl. case_decide as Hd.
  - subst. by rewrite list_lookup_insert_eq.
  - by rewrite list_lookup_insert_ne by done.
Qed.

Lemma length_push ch m c : length (chan_heap (push ch m c)) = length (chan_heap c).
Proof. simpl. by rewrite length_insert. Qed.

(** ** The context of a side *)

Section Context_.
Context (nodeName : string) (tbl : gmap string (gmap string CallBack)).

Record ctx_ok (made : gmap string nat) (c : TunnelContext) : Prop := {
  k_nodes : forall x r, nodes c !! x = Some r -> r = O;
  k_node : exists l, node_heap c = [mkTunnelNode nodeName 0 l ∅] /\ NoDup (sl l) /\ forall u, u ∈ sl l -> is_Some (made !! u);
  k_tbl : protocols c = tbl;
  k_len : (0 < length (chan_heap c))%nat;
  k_conns : forall u x, conns c !! u = Some x -> exists ch, made !! u = Some ch /\ x = mkConn u ch;
  k_made : forall u ch, made !! u = Some ch -> (0 < ch < length (chan_heap c))%nat;
  k_inj : forall u u' ch, made !! u = Some ch -> made !! u' = Some ch -> u = u'
}.

Lemma ctx_ok_chan made c f : ctx_ok made c -> length (f (chan_heap c)) = length (chan_heap c) -> ctx_ok made (set_chan_heap f c).
Proof. intros [] Hf. constructor; simpl; rewrite ?Hf; done. Qed.

Lemma ctx_ok_push made c ch m : ctx_ok made c -> ctx_ok made (push ch m c).
Proof. intros H. apply ctx_ok_chan; [done|]. apply length_insert. Qed.

Lemma ctx_ok_recv made c ch q : ctx_ok made c -> ctx_ok made (set_chan_heap (<[ch := q]>) c).
Proof. intros H. apply ctx_ok_chan; [done|]. apply length_insert. Qed.

Lemma ctx_ok_drop_conn made c u : ctx_ok made c -> ctx_ok made (set_conns (delete u) c).
Proof.
  intros []. constructor; simpl; try done. intros v x Hv. apply lookup_delete_Some in Hv as [_ Hv]. eauto.
Qed.

Lemma ctx_ok_drop_node made c x g : ctx_ok made c -> ctx_ok made (set_gauge g (set_nodes (delete x) c)).
Proof.
  intros []. constructor; simpl; try done. intros y r Hy. apply lookup_delete_Some in Hy as [_ Hy]. eauto.
Qed.

(** Sending to the node object of the stream. *)
Lemma wpt_Send2Node E made m c (Q : unit -> TunnelContext -> Prop) : ctx_ok made c -> Q tt (push 0 m c) -> wpt E (Send2Node 0 m) c Q.
Proof.
  intros Hk HQ. destruct (k_node _ _ Hk) as (l & Hn & _). unfold Send2Node. apply wpt_bind. unfold wpt, the_node. rewrite Hn. simpl.
  apply (wpt_send E). auto.
Qed.

Lemma wpt_GetName E made c (Q : string -> TunnelContext -> Prop) : ctx_ok made c -> Q nodeName c -> wpt E (GetName 0) c Q.
Proof.
  intros Hk HQ. destruct (k_node _ _ Hk) as (l & Hn & _). unfold GetName. apply wpt_bind. unfold wpt, the_node. by rewrite Hn.
Qed.

Definition same_but_node (c c' : TunnelContext) : Prop :=
  nodes c' = nodes c /\ conns c' = conns c /\ chan_heap c' = chan_heap c.

Lemma wpt_UnbindNode E made c u (Q : unit -> TunnelContext -> Prop) : ctx_ok made c ->
  (forall c', ctx_ok made c' -> same_but_node c c' -> Q tt c') -> wpt E (UnbindNode 0 u) c Q.
Proof.
  intros Hk HQ. destruct (k_node _ _ Hk) as (l & Hn & Hnd & Hm). unfold UnbindNode. apply wpt_bind. unfold wpt, the_node.
  rewrite Hn. cbn [lookup list_lookup n_conns]. rewrite unbind_NoDup by done. unfold tbind, upd_node, tmod. apply HQ; [|done].
  destruct Hk. constructor; simpl; try done. rewrite Hn. simpl. unfold with_pairs, with_conns. simpl. rewrite delete_empty.
  eexists. split; [reflexivity|]. destruct l as [l|]; simpl in *; [|by split; [constructor|set_solver]].
  split; [by apply NoDup_filter|]. intros v [_ Hv]%list_elem_of_filter. by apply Hm.
Qed.

Lemma wpt_BindNode E made c u ch (Q : unit -> TunnelContext -> Prop) : ctx_ok made c -> made !! u = Some ch ->
  (forall l, node_heap c = [mkTunnelNode nodeName 0 l ∅] -> u ∉ sl l) ->
  (forall c', ctx_ok made c' -> same_but_node c c' -> Q tt c') -> wpt E (BindNode 0 u) c Q.
Proof.
  intros Hk Hu Hfresh HQ. destruct (k_node _ _ Hk) as (l & Hn & Hnd & Hm). specialize (Hfresh l Hn).
  unfold BindNode. apply wpt_bind. unfold wpt, the_node. rewrite Hn. cbn [lookup list_lookup n_conns]. unfold upd_node, tmod.
  apply HQ; [|done]. destruct Hk. constructor; simpl; try done. rewrite Hn. simpl. unfold with_conns. simpl.
  eexists. split; [reflexivity|]. destruct l as [l|]; simpl in *.
  - split; [apply NoDup_app; split; [done|]; split; [set_solver|apply NoDup_singleton]|].
    intros v [Hv| ->%list_elem_of_singleton]%elem_of_app; [by apply Hm|by exists ch].
  - split; [apply NoDup_singleton|]. intros v ->%list_elem_of_singleton. by exists ch.
Qed.

(** A new connection. *)
Definition add_conn (u : string) (c : TunnelContext) : TunnelContext :=
  set_conns <[u := mkConn u (length (chan_heap c))]> (set_chan_heap (fun h => h ++ [[]]) c).

Lemma wpt_AddConn E u c (Q : conn -> TunnelContext -> Prop) :
  Q (mkConn u (length (chan_heap c))) (add_conn u c) -> wpt E (AddConn u) c Q.
Proof. done. Qed.

Lemma ctx_ok_add_conn made c u : ctx_ok made c -> made !! u = None -> ctx_ok (<[u := length (chan_heap c)]> made) (add_conn u c).
Proof.
  intros [] Hu. constructor; simpl; try done.
  - destruct k_node0 as (l & Hn & Hnd & Hm). exists l. repeat split; [done..|]. intros v Hv. apply lookup_insert_is_Some'. auto.
  - rewrite length_app. lia.
  - intros v x. rewrite lookup_insert_Some. intros [[<- <-]|[Hne Hv]].
    + exists (length (chan_heap c)). by rewrite lookup_insert_eq.
    + destruct (k_conns0 v x Hv) as (ch & Hch & ->). exists ch. by rewrite lookup_insert_ne.
  - intros v ch. rewrite lookup_insert_Some, length_app. simpl. intros [[<- <-]|[Hne Hv]]; [lia|].
    specialize (k_made0 v ch Hv). lia.
  - intros v v' ch. rewrite !lookup_insert_Some. intros [[<- <-]|[Hne Hv]] [[<- Heq]|[Hne' Hv']]; try done.
    + specialize (k_made0 v' _ Hv'). lia.
    + subst ch. specialize (k_made0 v _ Hv). lia.
    + eauto.
Qed.

(** A trace id not made is bound nowhere and has no connection. *)
Lemma fresh_unbound made c u l : ctx_ok made c -> made !! u = None -> node_heap c = [mkTunnelNode nodeName 0 l ∅] -> u ∉ sl l.
Proof.
  intros Hk Hu Hl Hin. destruct (k_node _ _ Hk) as (l' & Hn & _ & Hm). rewrite Hl in Hn. injection Hn as <-.
  destruct (Hm u Hin) as [ch Hch]. congruence.
Qed.

Lemma fresh_no_conn made c u : ctx_ok made c -> made !! u = None -> conns c !! u = None.
Proof.
  intros Hk Hu. destruct (conns c !! u) as [x|] eqn:Hx; [|done]. destruct (k_conns _ _ Hk _ _ Hx) as (ch & ? & _). congruence.
Qed.

Lemma queue_add_conn c u ch : queue (add_conn u c) ch = if decide (ch = length (chan_heap c)) then [] else queue c ch.
Proof.
  unfold queue, add_conn. simpl. case_decide as Hd.
  - subst. by rewrite lookup_app_r, Nat.sub_diag by lia.
  - destruct (decide (ch < length (chan_heap c))%nat).
    + by rewrite lookup_app_l by done.
    + rewrite (lookup_ge_None_2 (chan_heap c)) by lia. rewrite lookup_ge_None_2; [done|]. rewrite length_app. simpl. lia.
Qed.

End Context_.
