(* ===== verification/TunnelTurns.v ===== *)
(** * tunnel: every turn keeps the invariant

    The invariant of a side of the stream: its context is well formed, its
    goroutines belong to trace ids that were made, and every trace id flows
    (TunnelFlow.v).  Each turn of a goroutine keeps it. *)

From Stdlib Require Import ZArith Lia Ascii String.
From stdpp Require Import base strings gmap numbers sorting list.
From S2P Require Import Prelude.
From S2P Require Import TunnelContext.
From S2P Require Import TunnelStream.
From S2P Require Import TunnelSystem.
From S2P Require Import TunnelFlow.

Local Open Scope Z_scope.
Local Open Scope go_scope.

(** ** The invariant of a side *)

Section Sides.
Context (nodeName : string) (ro : role).

Definition mode_of : string := match ro with CloudSide => CLOUD | EdgeSide => EDGE end.
Definition table : gmap string (gmap string CallBack) := protocols (s_ctx (side_at_start nodeName mode_of)).

Record side_ok (s : side) : Prop := {
  so_ctx : ctx_ok nodeName table (h_made (s_hist s)) (s_ctx s);
  so_waiting : forall u c cat, g_waiting (s_go s) !! u = Some (c, cat) ->
    exists ch, h_made (s_hist s) !! u = Some ch /\ c = mkConn u ch /\ forwarding cat = true;
  so_readers : forall u cat, g_readers (s_go s) !! u = Some cat -> is_Some (h_made (s_hist s) !! u) /\ forwarding cat = true;
  so_writers : forall u c, g_writers (s_go s) !! u = Some c -> exists ch, h_made (s_hist s) !! u = Some ch /\ c = mkConn u ch;
  so_lost : s_sending s = true -> h_lost (s_hist s) = [];
  so_flow : forall u, flow ro u (view_of s u)
}.

Definition kept (r : option (outcome side)) (E : string -> Prop) : Prop :=
  match r with Some (Ret s') => side_ok s' | Some (Panic w) => E w | None => True end.

Definition never (w : string) : Prop := False.

Lemma made_pos s u ch : side_ok s -> h_made (s_hist s) !! u = Some ch -> ch <> O /\ (ch < length (chan_heap (s_ctx s)))%nat.
Proof. intros Hs Hu. destruct (k_made _ _ _ _ (so_ctx _ Hs) _ _ Hu). lia. Qed.

(** The messages [l] were put on the stream's node; the queues of the
    connections are as before. *)
Record emits (s : side) (c : TunnelContext) (l : list StreamMsg) : Prop := {
  em_queue : forall u ch, h_made (s_hist s) !! u = Some ch -> queue c ch = queue (s_ctx s) ch;
  em_sent : queue c 0 = queue (s_ctx s) 0 ++ l
}.

Lemma emits_nil s : emits s (s_ctx s) [].
Proof. constructor; [done|by rewrite app_nil_r]. Qed.

Lemma emits_same s c c' l : emits s c l -> chan_heap c' = chan_heap c -> emits s c' l.
Proof. intros [H1 H2] Hc. unfold queue in *. rewrite <- Hc in H1, H2. done. Qed.

Lemma emits_push s c l m : side_ok s -> emits s c l -> (0 < length (chan_heap c))%nat -> emits s (push 0 m c) (l ++ [m]).
Proof.
  intros Hs [H1 H2] Hl. constructor.
  - intros u ch Hu. destruct (made_pos s u ch Hs Hu). rewrite queue_push by done. rewrite decide_False by done. eauto.
  - rewrite queue_push, decide_True by done. by rewrite H2, app_assoc.
Qed.

Lemma emits_one s m : side_ok s -> emits s (push 0 m (s_ctx s)) [m].
Proof. intros Hs. apply (emits_push s _ [] m Hs (emits_nil s)). apply (k_len _ _ _ _ (so_ctx _ Hs)). Qed.

Lemma view_emits s c l u : emits s c l ->
  v_queue (view_of s u) = match h_made (s_hist s) !! u with Some ch => queue c ch | None => [] end /\
  v_sent (view_of s u) ++ of_uid u l = of_uid u (h_out (s_hist s) ++ h_lost (s_hist s) ++ queue c 0).
Proof.
  intros [H1 H2]. simpl. split; [|by rewrite H2, !of_uid_app, <- !app_assoc].
  destruct (h_made (s_hist s) !! u) as [ch|] eqn:Hu; [|done]. symmetry. eauto.
Qed.

Lemma got_note u v d h : got_by (note_got v d h) u = if decide (u = v) then got_by h u ++ d else got_by h u.
Proof.
  unfold got_by, note_got. simpl. case_decide as Hd; [subst; by rewrite lookup_insert_eq|by rewrite lookup_insert_ne].
Qed.
Lemma put_note u v d h : put_by (note_put v d h) u = if decide (u = v) then put_by h u ++ d else put_by h u.
Proof.
  unfold put_by, note_put. simpl. case_decide as Hd; [subst; by rewrite lookup_insert_eq|by rewrite lookup_insert_ne].
Qed.

Lemma isS_delete {A : Type} (m : gmap string A) u v : isS (delete v m !! u) = if decide (u = v) then false else isS (m !! u).
Proof. case_decide; [subst; by rewrite lookup_delete_eq|by rewrite lookup_delete_ne]. Qed.
Lemma isS_insert {A : Type} (m : gmap string A) u v a : isS (<[v := a]> m !! u) = if decide (u = v) then true else isS (m !! u).
Proof. case_decide; [subst; by rewrite lookup_insert_eq|by rewrite lookup_insert_ne]. Qed.
Lemma isS_Some {A : Type} (m : gmap string A) u a : m !! u = Some a -> isS (m !! u) = true.
Proof. by intros ->. Qed.

Lemma about_one uid cat m : m_Topic m = uid -> m_Category m = cat -> forwarding cat = true -> about uid m.
Proof. intros <- <-. done. Qed.

Lemma of_uid_not u uid m : m_Topic m = uid -> u <> uid -> of_uid u [m] = [].
Proof. intros <- Hne. apply of_uid_other. by intros [? _]. Qed.

(** The reader of a trace id. *)
Lemma reader_sends s u cat : side_ok s -> g_readers (s_go s) !! u = Some cat ->
  forall m, known_type m -> flowing m -> sendable ro (view_of s u) m.
Proof.
  intros Hs Hr m Hk Hf. destruct (so_readers _ Hs _ _ Hr) as [[ch Hch] Hc]. pose proof (so_flow _ Hs u) as Hfl.
  constructor; [done|by right|]. destruct ro; [simpl; by rewrite Hch|]. split.
  - intros Ht. destruct Hf as [Hf|Hf]; rewrite Hf in Ht; discriminate.
  - destruct Hfl as [_ _ _ _ _ _ _ _ _ (_ & _ & _ & Hin)]. intros Hi. destruct (Hin Hi) as [_ Hm]. simpl in Hm. by rewrite Hch in Hm.
Qed.

Lemma reader_not_waiting s u cat : side_ok s -> g_readers (s_go s) !! u = Some cat -> v_waiting (view_of s u) = false.
Proof.
  intros Hs Hr. pose proof (so_flow _ Hs u) as Hfl. destruct (v_waiting (view_of s u)) eqn:Hw; [|done].
  destruct (fl_waiting _ _ _ Hfl Hw) as (_ & Hrd & _). simpl in Hrd. by rewrite Hr in Hrd.
Qed.

Lemma queue_set_conns f c ch : queue (set_conns f c) ch = queue c ch.
Proof. done. Qed.
Lemma queue_same c c' ch : chan_heap c' = chan_heap c -> queue c' ch = queue c ch.
Proof. unfold queue. by intros ->. Qed.

Lemma view_ext v w : v_made v = v_made w -> v_reg v = v_reg w -> v_waiting v = v_waiting w -> v_reader v = v_reader w ->
  v_writer v = v_writer w -> v_misread v = v_misread w -> v_queue v = v_queue w -> v_sent v = v_sent w -> v_in v = v_in w ->
  v_got v = v_got w -> v_put v = v_put w -> v = w.
Proof. destruct v, w; simpl; intros; by subst. Qed.

Lemma on_sent_nil v l : l = [] -> on_sent (fun x => x ++ l) v = v.
Proof. intros ->. destruct v. unfold on_sent. simpl. by rewrite app_nil_r. Qed.

End Sides.

Ltac view_simpl :=
  simpl; rewrite ?isS_delete, ?isS_insert, ?got_note, ?put_note; rewrite ?decide_True by done; rewrite ?decide_False by done; simpl.

(** The view after a turn is the given one. *)
Ltac view_is V :=
  match goal with |- flow _ _ ?v => replace v with V; [|apply view_ext; view_simpl; try done] end.

Section Turns_.
Context (nodeName : string) (ro : role).

Lemma kept_read s u a : side_ok nodeName ro s -> kept nodeName ro (turn_read u a s) never.
Proof.
  intros Hs. unfold turn_read. destruct (g_readers (s_go s) !! u) as [cat|] eqn:Hr; [|done].
  destruct (so_readers _ _ _ Hs _ _ Hr) as [[ch Hch] Hc]. pose proof (so_ctx _ _ _ Hs) as Hk.
  pose proof (reader_not_waiting _ _ _ _ _ Hs Hr) as Hw. pose proof (so_flow _ _ _ Hs u) as Hfl.
  unfold kept. eapply turn_wpt; [|intros b c' Hb; exact Hb].
  unfold Read_turn. destruct a as [d [err|]]; cbn [rd_err rd_bytes].
  - set (m := mkMsg nodeName cat CLOSED u (bytes_msg err) EmptyString).
    apply wpt_bind. eapply wpt_GetName; [exact Hk|]. apply wpt_bind. eapply wpt_Send2Node; [exact Hk|]. apply wpt_bind.
    pose proof (ctx_ok_push _ _ _ _ 0 m Hk) as Hk1. fold m.
    eapply wpt_UnbindNode; [exact Hk1|]. intros c2 Hk2 (Hn & Hco & Hch2). apply wpt_bind, wpt_tmod, wpt_ret.
    constructor; simpl.
    + by apply ctx_ok_drop_conn.
    + apply (so_waiting _ _ _ Hs).
    + intros v cat' [_ Hv]%lookup_delete_Some. by apply (so_readers _ _ _ Hs).
    + apply (so_writers _ _ _ Hs).
    + apply (so_lost _ _ _ Hs).
    + intros v. destruct (view_emits s (set_conns (delete u) c2) [m] v) as [Hq Hsent]; [apply (emits_same s (push 0 m (s_ctx s))); [by eapply emits_one|done]|].
      destruct (decide (v = u)) as [->|Hne].
      * rewrite of_uid_one in Hsent by done.
        view_is (on_got (fun x => x ++ d) (set_flags false false false (v_writer (view_of s u)) (on_sent (fun l => l ++ [m]) (view_of s u)))).
        apply flow_lost; try done; [|by (simpl; rewrite Hch)].
        apply flow_end; try done. apply flow_emit; try done. eapply reader_sends; try done; unfold known_type, flowing; auto.
      * rewrite (of_uid_not _ u) in Hsent by done. rewrite app_nil_r in Hsent.
        view_is (view_of s v); [apply (so_flow _ _ _ Hs)|]. by rewrite Hco.
  - set (m := mkMsg nodeName cat TCP_FORWARD u d EmptyString).
    apply wpt_bind. eapply wpt_GetName; [exact Hk|]. apply wpt_bind. eapply wpt_Send2Node; [exact Hk|]. apply wpt_ret.
    pose proof (ctx_ok_push _ _ _ _ 0 m Hk) as Hk1. fold m.
    constructor; simpl; [done|apply (so_waiting _ _ _ Hs)|apply (so_readers _ _ _ Hs)|apply (so_writers _ _ _ Hs)|apply (so_lost _ _ _ Hs)|].
    intros v. destruct (view_emits s (push 0 m (s_ctx s)) [m] v) as [Hq Hsent]; [by eapply emits_one|].
    destruct (decide (v = u)) as [->|Hne].
    + rewrite of_uid_one in Hsent by done.
      view_is (on_got (fun x => x ++ data_of m) (on_sent (fun l => l ++ [m]) (view_of s u))).
      apply flow_data; try done.
      * eapply reader_sends; try done; unfold known_type, flowing; auto.
      * by (simpl; rewrite Hch).
      * apply (fl_reader _ _ _ Hfl). by (simpl; rewrite Hr).
    + rewrite (of_uid_not _ u) in Hsent by done. rewrite app_nil_r in Hsent.
      view_is (view_of s v). apply (so_flow _ _ _ Hs).
Qed.

(** A connection added: the other queues are as before and its own is empty. *)
Lemma emits_add_conn s u : side_ok nodeName ro s -> emits s (add_conn u (s_ctx s)) [].
Proof.
  intros Hs. pose proof (k_len _ _ _ _ (so_ctx _ _ _ Hs)). constructor.
  - intros v ch Hv. destruct (made_pos _ _ s v ch Hs Hv). rewrite queue_add_conn. by rewrite decide_False by lia.
  - rewrite queue_add_conn, decide_False, app_nil_r by lia. done.
Qed.

Lemma new_queue s u m : side_ok nodeName ro s -> queue (push 0 m (add_conn u (s_ctx s))) (length (chan_heap (s_ctx s))) = [].
Proof.
  intros Hs. pose proof (k_len _ _ _ _ (so_ctx _ _ _ Hs)).
  rewrite queue_push by (simpl; rewrite length_app; simpl; lia). rewrite decide_False by lia.
  by rewrite queue_add_conn, decide_True.
Qed.

(** The goroutines of trace ids already made are still accounted for when one
    more is. *)
Lemma made_more (made : gmap string nat) u n v ch : made !! u = None -> made !! v = Some ch -> <[u := n]> made !! v = Some ch.
Proof. intros Hu Hv. rewrite lookup_insert_ne; [done|]. by intros ->; rewrite Hu in Hv. Qed.

Lemma unmade s u : side_ok nodeName ro s -> h_made (s_hist s) !! u = None ->
  conns (s_ctx s) !! u = None /\ g_waiting (s_go s) !! u = None /\ g_readers (s_go s) !! u = None /\
  g_writers (s_go s) !! u = None /\ got_by (s_hist s) u = [] /\ put_by (s_hist s) u = [].
Proof.
  intros Hs Hu. pose proof (fl_new _ _ _ (so_flow _ _ _ Hs u)) as Hnew. simpl in Hnew. rewrite Hu in Hnew.
  destruct (Hnew eq_refl) as [Hg Hp]. repeat split; [..|done|done].
  - eapply fresh_no_conn; [apply (so_ctx _ _ _ Hs)|done].
  - destruct (g_waiting _ !! u) as [[c cat]|] eqn:Hw; [|done]. destruct (so_waiting _ _ _ Hs _ _ _ Hw) as (ch & ? & _). congruence.
  - destruct (g_readers _ !! u) eqn:Hw; [|done]. destruct (so_readers _ _ _ Hs _ _ Hw) as [[ch ?] _]. congruence.
  - destruct (g_writers _ !! u) eqn:Hw; [|done]. destruct (so_writers _ _ _ Hs _ _ Hw) as (ch & ? & _). congruence.
Qed.

Lemma kept_connect s u cat addr : ro = CloudSide -> h_made (s_hist s) !! u = None -> side_ok nodeName ro s ->
  kept nodeName ro (turn_connect u cat addr s) never.
Proof.
  intros Hro Hnew Hs. unfold turn_connect. destruct (forwarding cat) eqn:Hc; [|done]. pose proof (so_ctx _ _ _ Hs) as Hk.
  destruct (unmade s u Hs Hnew) as (Hnc & Hnw & Hnr & Hnwr & Hng & Hnp).
  unfold kept. eapply turn_wpt; [|intros c c' Hb; exact Hb]. unfold ConnectNode_request.
  apply wpt_bind, wpt_AddConn, wpt_bind. pose proof (ctx_ok_add_conn _ _ _ _ u Hk Hnew) as Hk1.
  eapply wpt_BindNode; [exact Hk1|apply lookup_insert_eq|intros l Hl; by eapply (fresh_unbound nodeName _ _ (s_ctx s))|].
  intros c2 Hk2 (_ & Hco & Hch2). apply wpt_bind. eapply wpt_GetName; [exact Hk2|]. apply wpt_bind. eapply wpt_Send2Node; [exact Hk2|].
  apply wpt_ret. match goal with |- side_ok _ _ (with_ctx _ (push 0 ?x _) _ _) => set (m := x) end.
  assert (chan_heap (push 0 m c2) = chan_heap (push 0 m (add_conn u (s_ctx s)))) as Hch3 by (simpl; unfold queue; by rewrite Hch2).
  assert (emits s (push 0 m c2) [m]) as Hem.
  { eapply emits_same; [|exact Hch3]. eapply (emits_push _ _ s _ [] m Hs); [by apply emits_add_conn|]. simpl. rewrite length_app. simpl. lia. }
  constructor; simpl.
  - by apply ctx_ok_push.
  - intros v c cat'. rewrite lookup_insert_Some. intros [[<- [= <- <-]]|[Hne Hv]].
    + eexists. by rewrite lookup_insert_eq.
    + destruct (so_waiting _ _ _ Hs _ _ _ Hv) as (ch & Hch & ?). exists ch. by rewrite lookup_insert_ne.
  - intros v cat' Hv. destruct (so_readers _ _ _ Hs _ _ Hv) as [[ch Hch] ?]. split; [|done]. exists ch. by apply made_more.
  - intros v c Hv. destruct (so_writers _ _ _ Hs _ _ Hv) as (ch & Hch & ?). exists ch. split; [|done]. by apply made_more.
  - apply (so_lost _ _ _ Hs).
  - intros v. destruct (view_emits s (push 0 m c2) [m] v Hem) as [Hq Hsent]. destruct (decide (v = u)) as [->|Hne].
    + pose proof (so_flow _ _ _ Hs u) as Hfl. pose proof (fl_role _ _ _ Hfl) as Hrole. rewrite Hro in Hrole. simpl in Hrole.
      rewrite Hnew in Hrole. destruct (Hrole eq_refl) as [Hs0 Hi0]. rewrite of_uid_one in Hsent by done. simpl in Hsent. rewrite Hs0 in Hsent.
      view_is (mkView true true true false false (v_misread (view_of s u)) [] [m] [] [] []).
      * rewrite Hro. constructor; simpl; try done. constructor; [|done]. unfold known_type. auto.
      * rewrite Hco. simpl. by rewrite lookup_insert_eq.
      * by rewrite Hnr.
      * by rewrite Hnwr.
      * rewrite lookup_insert_eq. symmetry. erewrite queue_same; [by apply new_queue|done].
    + rewrite (of_uid_not _ u) in Hsent by done. rewrite app_nil_r in Hsent.
      view_is (view_of s v); [apply (so_flow _ _ _ Hs)| |].
      * rewrite Hco. simpl. by rewrite lookup_insert_ne.
      * by rewrite lookup_insert_ne.
Qed.

Lemma kept_timeout s u : side_ok nodeName ro s -> kept nodeName ro (turn_timeout u s) never.
Proof.
  intros Hs. unfold turn_timeout. destruct (g_waiting (s_go s) !! u) as [[c cat]|] eqn:Hw; [|done].
  destruct (so_waiting _ _ _ Hs _ _ _ Hw) as (ch & Hch & -> & Hc). pose proof (so_ctx _ _ _ Hs) as Hk.
  unfold kept. eapply turn_wpt; [|intros e c' Hb; exact Hb]. unfold ConnectNode_answer. cbn [c_uid].
  apply wpt_bind. eapply wpt_UnbindNode; [exact Hk|]. intros c2 Hk2 (_ & Hco & Hch2). apply wpt_bind, wpt_tmod, wpt_ret.
  constructor; simpl.
  - by apply ctx_ok_drop_conn.
  - intros v c cat' [_ Hv]%lookup_delete_Some. by apply (so_waiting _ _ _ Hs) in Hv.
  - apply (so_readers _ _ _ Hs).
  - apply (so_writers _ _ _ Hs).
  - apply (so_lost _ _ _ Hs).
  - intros v. destruct (view_emits s (set_conns (delete u) c2) [] v) as [Hq Hsent]; [by eapply emits_same; [apply emits_nil|]|].
    rewrite app_nil_r in Hsent. pose proof (so_flow _ _ _ Hs v) as Hfl. destruct (decide (v = u)) as [->|Hne].
    + view_is (set_flags false false (v_reader (view_of s u)) (v_writer (view_of s u)) (view_of s u)). by apply flow_end.
    + view_is (view_of s v); [done|]. by rewrite Hco.
Qed.

Lemma kept_write s u a : side_ok nodeName ro s -> kept nodeName ro (turn_write u a s) never.
Proof.
  intros Hs. unfold turn_write. destruct (g_writers (s_go s) !! u) as [c|] eqn:Hw; [|done].
  destruct (so_writers _ _ _ Hs _ _ Hw) as (ch & Hch & ->). pose proof (so_ctx _ _ _ Hs) as Hk.
  destruct (made_pos _ _ s u ch Hs Hch) as [Hch0 Hlen].
  unfold kept. eapply turn_wpt; [|intros x c' Hb; exact Hb]. unfold Write_turn. cbn [c_ch].
  apply wpt_bind, wpt_recv. intros m q Hq0.
  assert (forall d b, (d `prefix_of` m_Data m /\ m_Type m <> CLOSED \/ d = [] /\ m_Type m = CLOSED) -> (b = true -> d = m_Data m /\ m_Type m <> CLOSED) ->
    side_ok nodeName ro (with_ctx s (set_chan_heap (<[ch:=q]>) (s_ctx s))
      (if b then fun g => g else upd_writers (delete u)) (note_put u d))) as H.
  { intros d b Hd Hb. constructor; simpl.
    - by apply ctx_ok_recv.
    - intros v c cat Hv. apply (so_waiting _ _ _ Hs v). by destruct b.
    - intros v cat Hv. apply (so_readers _ _ _ Hs v). by destruct b.
    - intros v c Hv. apply (so_writers _ _ _ Hs v). destruct b; [done|]. simpl in Hv. by apply lookup_delete_Some in Hv as [_ Hv].
    - apply (so_lost _ _ _ Hs).
    - intros v. pose proof (so_flow _ _ _ Hs v) as Hfl. 
      assert (queue (set_chan_heap (<[ch:=q]>) (s_ctx s)) 0 = queue (s_ctx s) 0) as Hq00 by (unfold queue; simpl; by rewrite list_lookup_insert_ne).
      destruct (decide (v = u)) as [->|Hne].
      + assert (v_waiting (view_of s u) = false) as Hwt.
        { destruct (v_waiting (view_of s u)) eqn:E; [|done]. destruct (fl_waiting _ _ _ Hfl E) as (_ & _ & Hx & _). simpl in Hx. by rewrite Hw in Hx. }
        view_is (on_put (fun p => p ++ d) (on_queue (fun _ => q) (set_flags (v_reg (view_of s u)) (v_waiting (view_of s u)) (v_reader (view_of s u)) b (view_of s u)))).
        * eapply flow_write; try done; simpl; rewrite ?Hw, ?Hch; try done. unfold queue. by rewrite Hq0.
        * by destruct b.
        * by destruct b.
        * destruct b; simpl; [by rewrite Hw|]. by rewrite isS_delete, decide_True.
        * rewrite Hch. unfold queue. simpl. by rewrite list_lookup_insert_eq.
        * by rewrite Hq00.
      + view_is (view_of s v); try (by destruct b).
        * destruct b; simpl; [done|]. by rewrite isS_delete, decide_False.
        * destruct (h_made (s_hist s) !! v) as [ch'|] eqn:Hv; [|done]. unfold queue. simpl. rewrite list_lookup_insert_ne; [done|].
          intros ->. apply Hne. symmetry. by eapply (k_inj _ _ _ _ Hk).
        * by rewrite Hq00. }
  destruct (String.eqb_spec (m_Type m) CLOSED) as [Hcl|Hncl]; [apply wpt_ret, (H [] false); auto; done|].
  destruct a as [|n]; apply wpt_ret; [apply (H _ true); auto|apply (H _ false); [|done]].
  left. split; [|done]. apply prefix_take.
Qed.

(** *** The answer to [ConnectNode] *)

Lemma misread_view u v s ch m q : chan_heap (s_ctx s) !! ch = Some (m :: q) ->
  bool_decide (v ∈ h_misread (note_answer u ch s (s_hist s))) =
  (if decide (v = u) then negb (is_answer m) else false) || bool_decide (v ∈ h_misread (s_hist s)).
Proof.
  intros Hq. unfold note_answer, first_message. rewrite Hq. destruct (is_answer m); simpl.
  - by case_decide.
  - case_decide as Hd; simpl.
    + apply bool_decide_eq_true. set_solver.
    + apply bool_decide_ext. set_solver.
Qed.

Lemma note_answer_same u ch s h :
  h_made (note_answer u ch s h) = h_made h /\ h_got (note_answer u ch s h) = h_got h /\ h_put (note_answer u ch s h) = h_put h /\
  h_out (note_answer u ch s h) = h_out h /\ h_lost (note_answer u ch s h) = h_lost h /\ h_in (note_answer u ch s h) = h_in h.
Proof. unfold note_answer. destruct (first_message ch s) as [m|]; [|done]. by destruct (is_answer m). Qed.

(** The queue of a trace id after a receive from its channel. *)
Lemma emits_recv s u ch q : side_ok nodeName ro s -> h_made (s_hist s) !! u = Some ch ->
  let c := set_chan_heap (<[ch := q]>) (s_ctx s) in
  queue c ch = q /\ queue c 0 = queue (s_ctx s) 0 /\
  (forall v ch', v <> u -> h_made (s_hist s) !! v = Some ch' -> queue c ch' = queue (s_ctx s) ch').
Proof.
  intros Hs Hch c. destruct (made_pos _ _ s u ch Hs Hch) as [Hch0 Hlen]. unfold c, queue. simpl. repeat split.
  - by rewrite list_lookup_insert_eq.
  - by rewrite list_lookup_insert_ne.
  - intros v ch' Hv Hm. rewrite list_lookup_insert_ne; [done|]. intros ->. apply Hv.
    by eapply (k_inj _ _ _ _ (so_ctx _ _ _ Hs)).
Qed.

Lemma edge_never_waits s u x : side_ok nodeName EdgeSide s -> g_waiting (s_go s) !! u = Some x -> False.
Proof.
  intros Hs Hw. destruct (fl_role _ _ _ (so_flow _ _ _ Hs u)) as (H & _). simpl in H. by rewrite Hw in H.
Qed.

(** The goroutine facts after an answer. *)
Lemma answered_goroutines s u cat ch (b : bool) : side_ok nodeName ro s -> h_made (s_hist s) !! u = Some ch -> forwarding cat = true ->
  let g := (if b then start_pair u cat (mkConn u ch) (upd_waiting (delete u) (s_go s)) else upd_waiting (delete u) (s_go s)) in
  (forall v c cat', g_waiting g !! v = Some (c, cat') -> exists ch, h_made (s_hist s) !! v = Some ch /\ c = mkConn v ch /\ forwarding cat' = true) /\
  (forall v cat', g_readers g !! v = Some cat' -> is_Some (h_made (s_hist s) !! v) /\ forwarding cat' = true) /\
  (forall v c, g_writers g !! v = Some c -> exists ch, h_made (s_hist s) !! v = Some ch /\ c = mkConn v ch) /\
  (forall v, isS (g_waiting g !! v) = (if decide (v = u) then false else isS (g_waiting (s_go s) !! v)) /\
             isS (g_readers g !! v) = (if decide (v = u) then b || isS (g_readers (s_go s) !! v) else isS (g_readers (s_go s) !! v)) /\
             isS (g_writers g !! v) = (if decide (v = u) then b || isS (g_writers (s_go s) !! v) else isS (g_writers (s_go s) !! v))).
Proof.
  intros Hs Hch Hc g. subst g. split; [|split; [|split]].
  - intros v c cat' Hv. destruct b; simpl in Hv; apply lookup_delete_Some in Hv as [_ Hv]; by apply (so_waiting _ _ _ Hs).
  - intros v cat' Hv. destruct b; simpl in Hv; [|by apply (so_readers _ _ _ Hs)].
    apply lookup_insert_Some in Hv as [[<- <-]|[_ Hv]]; [by split|by apply (so_readers _ _ _ Hs)].
  - intros v c Hv. destruct b; simpl in Hv; [|by apply (so_writers _ _ _ Hs)].
    apply lookup_insert_Some in Hv as [[<- <-]|[_ Hv]]; [by exists ch|by apply (so_writers _ _ _ Hs)].
  - intros v. destruct b; simpl; rewrite isS_delete, ?isS_insert; by case_decide.
Qed.

Section Answer.
Context (s : side) (u cat : string) (ch : nat) (m : StreamMsg) (q : list StreamMsg).
Hypothesis Hs : side_ok nodeName ro s.
Hypothesis Hw : g_waiting (s_go s) !! u = Some (mkConn u ch, cat).
Hypothesis Hq : chan_heap (s_ctx s) !! ch = Some (m :: q).

Definition taken : TunnelContext := set_chan_heap (<[ch := q]>) (s_ctx s).

Lemma waiting_here : h_made (s_hist s) !! u = Some ch /\ forwarding cat = true /\ v_waiting (view_of s u) = true /\
  v_queue (view_of s u) = m :: q /\ v_reg (view_of s u) = true /\ v_reader (view_of s u) = false /\ v_writer (view_of s u) = false.
Proof.
  destruct (so_waiting _ _ _ Hs _ _ _ Hw) as (ch' & Hch & [= <-] & Hc).
  assert (v_waiting (view_of s u) = true) as Hvw by (simpl; by rewrite Hw).
  destruct (fl_waiting _ _ _ (so_flow _ _ _ Hs u) Hvw) as (? & ? & ? & _). repeat split; try done.
  simpl. rewrite Hch. unfold queue. by rewrite Hq.
Qed.

(** The view of the trace id after the answer was taken. *)
Definition started_view (b : bool) : view :=
  set_flags true false b b (on_queue (fun _ => q) (set_misread (negb (is_answer m)) (view_of s u))).

Lemma started_flow b : m_Type m <> CONNECT_FAILED -> flow ro u (started_view b).
Proof.
  intros Hm. destruct waiting_here as (_ & _ & Hvw & Hvq & _). apply (flow_start ro u _ m q b); try done; [apply (so_flow _ _ _ Hs)|].
  unfold is_answer. intros H%negb_false_iff%orb_true_iff. destruct H as [H%String.eqb_eq|H%String.eqb_eq]; [done|by rewrite H in Hm].
Qed.

(** The first write to the target. *)
Definition raw_message (data : list Z) : StreamMsg := mkMsg nodeName cat TCP_FORWARD u data EmptyString.

Lemma raw_flow data : m_Type m <> CONNECT_FAILED ->
  flow ro u (on_got (fun d => d ++ data) (on_sent (fun l => l ++ [raw_message data]) (started_view true))).
Proof.
  intros Hm. destruct waiting_here as (Hch & Hc & Hvw & _). pose proof (so_flow _ _ _ Hs u) as Hfl.
  destruct (waiting_unsent _ _ _ Hfl Hvw) as [Hs0 Hg0].
  apply (flow_data ro u (started_view true) (raw_message data)); try done.
  - by apply started_flow.
  - constructor; [by left|right; by left|]. destruct ro; [simpl; by rewrite Hch|].
    exfalso. by eapply edge_never_waits.
  - simpl. by rewrite Hch.
  - simpl in Hs0, Hg0 |- *. by rewrite Hs0, Hg0.
Qed.

Definition goroutines_after (b : bool) : goroutines :=
  if b then start_pair u cat (mkConn u ch) (upd_waiting (delete u) (s_go s)) else upd_waiting (delete u) (s_go s).

Lemma taken_queues : queue taken ch = q /\ queue taken 0 = queue (s_ctx s) 0 /\
  (forall v ch', v <> u -> h_made (s_hist s) !! v = Some ch' -> queue taken ch' = queue (s_ctx s) ch').
Proof. destruct waiting_here as (Hch & _). by apply emits_recv. Qed.

Lemma other_trace v c g l d : v <> u -> (forall w, w <> u -> conns c !! w = conns (s_ctx s) !! w) ->
  (forall ch', ch' <> ch -> ch' <> O -> queue c ch' = queue taken ch') -> queue c 0 = queue taken 0 ++ l ->
  of_uid v l = [] -> isS (g_waiting g !! v) = isS (g_waiting (s_go s) !! v) ->
  isS (g_readers g !! v) = isS (g_readers (s_go s) !! v) -> isS (g_writers g !! v) = isS (g_writers (s_go s) !! v) ->
  view_of (mkSide c g (s_sending s) (s_receiving s) (s_heartbeat s) (note_got u d (note_answer u ch s (s_hist s)))) v = view_of s v.
Proof.
  intros Hv Hco Hqc H0 Hl H1 H2 H3. destruct (note_answer_same u ch s (s_hist s)) as (Hn1 & Hn2 & Hn3 & Hn4 & Hn6 & Hn5).
  destruct taken_queues as (_ & Hq00 & Hqo).
  apply view_ext; simpl; rewrite ?Hn1, ?Hn4, ?Hn5, ?Hn6, ?H1, ?H2, ?H3; try done.
  - by rewrite Hco.
  - erewrite misread_view by done. by rewrite decide_False.
  - destruct (h_made (s_hist s) !! v) as [ch'|] eqn:Hm; [|done].
    destruct waiting_here as (Hch & _). destruct (made_pos _ _ s v ch' Hs Hm) as [Hp _]. rewrite Hqc; [by eapply Hqo| |done].
    intros ->. apply Hv. by eapply (k_inj _ _ _ _ (so_ctx _ _ _ Hs)).
  - rewrite H0, Hq00, !of_uid_app, Hl. by rewrite app_nil_r.
  - rewrite got_note, decide_False by done. unfold got_by. by rewrite Hn2.
  - unfold put_by. simpl. by rewrite Hn3.
Qed.

Lemma note_got_nil v h : got_by (note_got v [] h) v = got_by h v.
Proof. rewrite got_note, decide_True by done. apply app_nil_r. Qed.

(** Started, with or without a first write of its own. *)
Lemma kept_started b : m_Type m <> CONNECT_FAILED ->
  side_ok nodeName ro (with_ctx s taken (fun _ => goroutines_after b) (note_answer u ch s)).
Proof.
  intros Hm. destruct waiting_here as (Hch & Hc & Hvw & Hvq & Hreg & Hnr & Hnw).
  destruct (answered_goroutines s u cat ch b Hs Hch Hc) as (G1 & G2 & G3 & G4). fold (goroutines_after b) in G1, G2, G3, G4.
  destruct (note_answer_same u ch s (s_hist s)) as (Hn1 & Hn2 & Hn3 & Hn4 & Hn6 & Hn5). destruct taken_queues as (Hqu & Hq00 & Hqo).
  constructor; simpl; rewrite ?Hn1; [by apply ctx_ok_recv, (so_ctx _ _ _ Hs)|done..|rewrite Hn6; apply (so_lost _ _ _ Hs)|].
  intros v. destruct (G4 v) as (W1 & W2 & W3). destruct (decide (v = u)) as [->|Hne].
  - replace (view_of _ u) with (started_view b); [by apply started_flow|].
    apply view_ext; simpl; rewrite ?Hn1, ?Hn4, ?Hn5, ?Hn6, ?W1, ?W2, ?W3; simpl in Hnr, Hnw, Hreg; rewrite ?Hnr, ?Hnw, ?orb_false_r; try done.
    + erewrite misread_view by done. by rewrite decide_True.
    + rewrite Hch. symmetry. exact Hqu.
    + by rewrite <- Hq00.
    + unfold got_by. by rewrite Hn2.
    + unfold put_by. by rewrite Hn3.
  - replace (view_of _ v) with (view_of s v); [apply (so_flow _ _ _ Hs)|].
    rewrite <- (other_trace v taken (goroutines_after b) [] []); try done; [|by rewrite app_nil_r].
    apply view_ext; simpl; try done. by rewrite got_note, decide_False.
Qed.

Lemma kept_raw data : m_Type m <> CONNECT_FAILED ->
  side_ok nodeName ro (with_ctx s (push 0 (raw_message data) taken) (fun _ => goroutines_after true)
    (fun h => note_got u data (note_answer u ch s h))).
Proof.
  intros Hm. destruct waiting_here as (Hch & Hc & Hvw & Hvq & Hreg & Hnr & Hnw).
  destruct (answered_goroutines s u cat ch true Hs Hch Hc) as (G1 & G2 & G3 & G4). fold (goroutines_after true) in G1, G2, G3, G4.
  destruct (note_answer_same u ch s (s_hist s)) as (Hn1 & Hn2 & Hn3 & Hn4 & Hn6 & Hn5). destruct taken_queues as (Hqu & Hq00 & Hqo).
  pose proof (ctx_ok_recv _ _ _ _ ch q (so_ctx _ _ _ Hs)) as Hk1. fold taken in Hk1. pose proof (k_len _ _ _ _ Hk1) as Hlen.
  destruct (made_pos _ _ s u ch Hs Hch) as [Hp _].
  assert (queue (push 0 (raw_message data) taken) 0 = queue taken 0 ++ [raw_message data]) as Hp0 by (by rewrite queue_push, decide_True).
  assert (forall ch', ch' <> O -> queue (push 0 (raw_message data) taken) ch' = queue taken ch') as Hpo
    by (intros; by rewrite queue_push, decide_False).
  constructor; simpl; rewrite ?Hn1; [by apply ctx_ok_push|done..|rewrite Hn6; apply (so_lost _ _ _ Hs)|].
  intros v. destruct (G4 v) as (W1 & W2 & W3). destruct (decide (v = u)) as [->|Hne].
  - replace (view_of _ u) with (on_got (fun d => d ++ data) (on_sent (fun l => l ++ [raw_message data]) (started_view true))); [by apply raw_flow|].
    apply view_ext; simpl; rewrite ?Hn1, ?Hn4, ?Hn5, ?Hn6, ?W1, ?W2, ?W3; simpl in Hnr, Hnw, Hreg; rewrite ?Hnr, ?Hnw, ?orb_false_r; try done.
    + erewrite misread_view by done. by rewrite decide_True.
    + rewrite Hch, Hpo by done. symmetry. exact Hqu.
    + rewrite Hp0, Hq00, !of_uid_app, (of_uid_one u (raw_message data)) by done. by rewrite <- !app_assoc.
    + rewrite got_note, decide_True by done. unfold got_by. by rewrite Hn2.
    + unfold put_by. simpl. by rewrite Hn3.
  - replace (view_of _ v) with (view_of s v); [apply (so_flow _ _ _ Hs)|]. symmetry.
    apply (other_trace v _ (goroutines_after true) [raw_message data] data); try done; [intros; by apply Hpo|by apply (of_uid_not _ u)].
Qed.

(** Refused: the connection is gone. *)
Lemma kept_refused c : m_Type m = CONNECT_FAILED -> ctx_ok nodeName (table nodeName ro) (h_made (s_hist s)) c -> conns c = conns (s_ctx s) ->
  chan_heap c = chan_heap taken ->
  side_ok nodeName ro (with_ctx s (set_conns (delete u) c) (fun _ => goroutines_after false) (note_answer u ch s)).
Proof.
  intros Hm Hk Hco Hchs. destruct waiting_here as (Hch & Hc & Hvw & Hvq & Hreg & Hnr & Hnw).
  destruct (answered_goroutines s u cat ch false Hs Hch Hc) as (G1 & G2 & G3 & G4). fold (goroutines_after false) in G1, G2, G3, G4.
  destruct (note_answer_same u ch s (s_hist s)) as (Hn1 & Hn2 & Hn3 & Hn4 & Hn6 & Hn5). destruct taken_queues as (Hqu & Hq00 & Hqo).
  assert (forall x, queue (set_conns (delete u) c) x = queue taken x) as Hqq by (intros; by apply queue_same).
  constructor; simpl; rewrite ?Hn1; [by apply ctx_ok_drop_conn|done..|rewrite Hn6; apply (so_lost _ _ _ Hs)|].
  intros v. destruct (G4 v) as (W1 & W2 & W3). destruct (decide (v = u)) as [->|Hne].
  - replace (view_of _ u) with (on_queue (fun _ => q) (set_flags false false false false (view_of s u))).
    { apply flow_queue; [apply flow_end; try done; apply (so_flow _ _ _ Hs)|done|done]. }
    apply view_ext; simpl; rewrite ?Hn1, ?Hn4, ?Hn5, ?Hn6, ?W1, ?W2, ?W3; simpl in Hnr, Hnw, Hreg; rewrite ?Hnr, ?Hnw, ?orb_false_r; try done.
    + by rewrite isS_delete, decide_True.
    + erewrite misread_view by done. rewrite decide_True by done. unfold is_answer. by rewrite Hm.
    + rewrite Hch, Hqq. symmetry. exact Hqu.
    + by rewrite Hqq, Hq00.
    + unfold got_by. by rewrite Hn2.
    + unfold put_by. by rewrite Hn3.
  - replace (view_of _ v) with (view_of s v); [apply (so_flow _ _ _ Hs)|].
    rewrite <- (other_trace v (set_conns (delete u) c) (goroutines_after false) [] []); try done; [..|by rewrite app_nil_r, Hqq].
    + apply view_ext; simpl; try done. by rewrite got_note, decide_False.
    + intros w Hw'. simpl. by rewrite lookup_delete_ne, Hco.
Qed.

End Answer.

Lemma kept_answer s u w : side_ok nodeName ro s -> kept nodeName ro (turn_answer nodeName u w s) never.
Proof.
  intros Hs. unfold turn_answer. destruct (g_waiting (s_go s) !! u) as [[c cat]|] eqn:Hw; [|done].
  destruct (so_waiting _ _ _ Hs _ _ _ Hw) as (ch & Hch & -> & Hc). pose proof (so_ctx _ _ _ Hs) as Hk.
  unfold kept. eapply turn_wpt; [|intros x c' Hb; exact Hb]. unfold answered, ConnectNode_answer. cbn [c_uid c_ch].
  apply wpt_bind, wpt_bind, wpt_recv. intros m q Hq. pose proof (ctx_ok_recv _ _ _ _ ch q Hk) as Hk1.
  assert (m_Type m <> CONNECT_FAILED -> wpt never
    (match w with
     | StatusLine ok => tret ok
     | RawRequest data => run! (Send2Node 0 (mkMsg nodeName cat TCP_FORWARD u data EmptyString)) in tret true
     end) (set_chan_heap (<[ch := q]>) (s_ctx s))
    (fun started ctx => side_ok nodeName ro (with_ctx s ctx
          (fun g => let g' := upd_waiting (delete u) g in if started : bool then start_pair u cat (mkConn u ch) g' else g')
          (fun h => let h' := note_answer u ch s h in
                    match w with
                    | RawRequest data => if started then note_got u data h' else h'
                    | StatusLine _ => h'
                    end)))) as Hgo.
  { intros Hm. destruct w as [ok|data].
    - apply wpt_ret. by apply (kept_started s u cat ch m q Hs Hw Hq ok).
    - apply wpt_bind. eapply wpt_Send2Node; [exact Hk1|]. apply wpt_ret. by apply (kept_raw s u cat ch m q Hs Hw Hq data). }
  destruct (String.eqb_spec (m_Type m) CONNECT_SUCCESSED) as [Hsu|_]; [apply wpt_ret; apply Hgo; by rewrite Hsu|].
  destruct (String.eqb_spec (m_Type m) CONNECT_FAILED) as [Hfa|Hnf]; [|by apply wpt_ret, Hgo].
  apply wpt_bind. eapply wpt_UnbindNode; [exact Hk1|]. intros c2 Hk2 (_ & Hco & Hch2). apply wpt_bind, wpt_tmod, wpt_ret, wpt_ret.
  pose proof (kept_refused s u cat ch m q Hs Hw Hq c2 Hfa Hk2 Hco Hch2) as H. by destruct w.
Qed.

(** *** The stream's own goroutines *)

Lemma stop_one s u ch : side_ok nodeName ro s -> h_made (s_hist s) !! u = Some ch ->
  side_ok nodeName ro (with_ctx s (push ch stopMsg (s_ctx s)) (fun g => g) (fun h => h)).
Proof.
  intros Hs Hch. destruct (made_pos _ _ s u ch Hs Hch) as [Hp Hlen]. pose proof (so_ctx _ _ _ Hs) as Hk.
  constructor; simpl; [by apply ctx_ok_push|apply (so_waiting _ _ _ Hs)|apply (so_readers _ _ _ Hs)|apply (so_writers _ _ _ Hs)|apply (so_lost _ _ _ Hs)|].
  intros v. assert (queue (push ch stopMsg (s_ctx s)) 0 = queue (s_ctx s) 0) as Hq0 by (rewrite queue_push by done; by rewrite decide_False).
  destruct (decide (v = u)) as [->|Hne].
  - view_is (on_queue (fun q => q ++ [stopMsg]) (view_of s u)); [apply flow_stop, (so_flow _ _ _ Hs)|..].
    + rewrite Hch. rewrite queue_push by done. by rewrite decide_True.
    + by rewrite Hq0.
  - view_is (view_of s v); [apply (so_flow _ _ _ Hs)|..].
    + destruct (h_made (s_hist s) !! v) as [ch'|] eqn:Hv; [|done]. rewrite queue_push by done. rewrite decide_False; [done|].
      intros ->. apply Hne. by eapply (k_inj _ _ _ _ Hk).
    + by rewrite Hq0.
Qed.

(** A change of the context alone. *)
Definition at_ctx (s : side) (c : TunnelContext) : side := with_ctx s c (fun g => g) (fun h => h).

Lemma wpt_send_each s l : side_ok nodeName ro s -> Forall (fun x => exists u ch, h_made (s_hist s) !! u = Some ch /\ x = mkConn u ch) l ->
  forall c, side_ok nodeName ro (at_ctx s c) -> wpt never (send_each l stopMsg) c (fun _ c' => side_ok nodeName ro (at_ctx s c')).
Proof.
  intros Hs Hl. induction Hl as [|x l (u & ch & Hch & ->) _ IH]; intros c Hc; [by apply wpt_ret|].
  apply wpt_bind, wpt_send. intros _. apply IH. by apply (stop_one (at_ctx s c) u ch).
Qed.

Lemma side_ok_drop_node s c x g : side_ok nodeName ro (at_ctx s c) -> side_ok nodeName ro (at_ctx s (set_gauge g (set_nodes (delete x) c))).
Proof.
  intros []. constructor; simpl in *; try done. by apply ctx_ok_drop_node.
Qed.

Lemma at_ctx_same s : side_ok nodeName ro s -> side_ok nodeName ro (at_ctx s (s_ctx s)).
Proof. by destruct s. Qed.

Lemma wpt_RemoveNode s : side_ok nodeName ro s ->
  wpt never (RemoveNode nodeName) (s_ctx s) (fun _ c' => side_ok nodeName ro (at_ctx s c')).
Proof.
  intros Hs. pose proof (so_ctx _ _ _ Hs) as Hk. destruct (k_node _ _ _ _ Hk) as (l & Hn & _ & _).
  unfold RemoveNode. apply wpt_bind. unfold wpt at 1, GetNode, tget. destruct (nodes (s_ctx s) !! nodeName) as [r|] eqn:Hr; [|by apply wpt_ret, at_ctx_same].
  assert (r = O) as -> by (by eapply (k_nodes _ _ _ _ Hk)).
  apply wpt_bind. unfold GetBindConns. apply wpt_bind. unfold wpt at 1, the_node. rewrite Hn. cbn [lookup list_lookup n_conns].
  apply wpt_ret, wpt_bind. eapply (wpt_mono _ _ _ (fun _ c' => side_ok nodeName ro (at_ctx s c'))).
  - destruct l as [names|]; [|by apply wpt_ret, at_ctx_same]. apply wpt_bind. unfold wpt at 1, GetConns, tget.
    apply wpt_send_each; [done| |by apply at_ctx_same]. apply Forall_forall. intros x Hx.
    apply list_elem_of_omap in Hx as (u & _ & Hu). destruct (k_conns _ _ _ _ Hk _ _ Hu) as (ch & ? & ->). by exists u, ch.
  - intros _ c' Hc'. unfold nodeContext_RemoveNode. apply wpt_bind, wpt_tmod. by apply side_ok_drop_node.
Qed.

Lemma kept_remove s : side_ok nodeName ro s -> kept nodeName ro (turn_remove nodeName s) never.
Proof. intros Hs. unfold kept, turn_remove. eapply turn_wpt; [by apply wpt_RemoveNode|]. done. Qed.

(** The stream's loops change flags of the side only. *)
Lemma side_ok_flags s c b1 b2 hb : side_ok nodeName ro (at_ctx s c) -> (b1 = true -> s_sending s = true) ->
  side_ok nodeName ro (mkSide c (s_go s) b1 b2 hb (s_hist s)).
Proof. intros [] Hb. constructor; simpl in *; try done. auto. Qed.

(** Nothing about a connection was put on the stream's node. *)
Lemma side_ok_emits s c l : side_ok nodeName ro s -> ctx_ok nodeName (table nodeName ro) (h_made (s_hist s)) c -> conns c = conns (s_ctx s) ->
  emits s c l -> (forall u, of_uid u l = []) -> side_ok nodeName ro (at_ctx s c).
Proof.
  intros Hs Hk Hco Hem Hl. constructor; simpl; [done|apply (so_waiting _ _ _ Hs)|apply (so_readers _ _ _ Hs)|apply (so_writers _ _ _ Hs)|apply (so_lost _ _ _ Hs)|].
  intros v. destruct (view_emits s c l v Hem) as [Hq Hsent]. rewrite Hl, app_nil_r in Hsent.
  view_is (view_of s v); [apply (so_flow _ _ _ Hs)|]. by rewrite Hco.
Qed.

Lemma not_forwarding m : forwarding (m_Category m) = false -> forall u, of_uid u [m] = [].
Proof. intros Hc u. apply of_uid_other. intros [_ H]. congruence. Qed.

Lemma emit_other s m : side_ok nodeName ro s -> forwarding (m_Category m) = false -> side_ok nodeName ro (at_ctx s (push 0 m (s_ctx s))).
Proof.
  intros Hs Hc. eapply (side_ok_emits s _ [m]); [done|by apply ctx_ok_push, (so_ctx _ _ _ Hs)|done|by eapply emits_one|by apply not_forwarding].
Qed.

Lemma kept_tick s : side_ok nodeName ro s -> kept nodeName ro (turn_tick nodeName ro s) (fun w => w = "exit status 1"%string).
Proof.
  intros Hs. assert (kept nodeName ro (turn_tick nodeName EdgeSide s) (fun w => w = "exit status 1"%string)) as H; [|by destruct ro].
  unfold kept, turn_tick. pose proof (so_ctx _ _ _ Hs) as Hk.
  eapply (turn_wpt _ _ _ _ (fun _ c => side_ok nodeName ro (at_ctx s c))).
  2: { intros w c Hc. by apply side_ok_flags. }
  assert (wpt never (heartbeat_tick nodeName 0 (s_heartbeat s)) (s_ctx s) (fun w c => w <> None -> side_ok nodeName ro (at_ctx s c))) as H.
  { unfold heartbeat_tick. destruct (hb_restart (s_heartbeat s)); [destruct (1 <=? hb_count (s_heartbeat s)); [by apply wpt_ret|]|].
    all: apply wpt_bind; eapply wpt_Send2Node; [exact Hk|]; apply wpt_ret; intros _; by apply emit_other. }
  unfold wpt in *. destruct (heartbeat_tick nodeName 0 (s_heartbeat s) (s_ctx s)) as [[w|] c| |w]; try done. auto.
Qed.

(** The side after a turn of [SendMsg]. *)
Definition after_send (s : side) (t : send_turn) (c : TunnelContext) : side :=
  match t with
  | Sent m => with_ctx s c (fun g => g) (note_out m)
  | SendStopped => mkSide c (s_go s) false (s_receiving s) (s_heartbeat s) (s_hist s)
  | SendFailed m => mkSide c (s_go s) false (s_receiving s) (s_heartbeat s) (note_lost m (s_hist s))
  end.

Lemma after_send_ok s t m q : side_ok nodeName ro s -> s_sending s = true -> chan_heap (s_ctx s) !! O = Some (m :: q) ->
  match t with Sent m' | SendFailed m' => m' = m | SendStopped => is_stream_closed m = true end ->
  side_ok nodeName ro (after_send s t (set_chan_heap (<[O := q]>) (s_ctx s))).
Proof.
  intros Hs Hsend Hq Ht. pose proof (so_ctx _ _ _ Hs) as Hk. pose proof (ctx_ok_recv _ _ _ _ 0 q Hk) as Hk1.
  pose proof (so_lost _ _ _ Hs Hsend) as Hl. pose proof (k_len _ _ _ _ Hk) as Hlen.
  assert (queue (s_ctx s) 0 = m :: q) as Hq0 by (unfold queue; by rewrite Hq).
  assert (queue (set_chan_heap (<[O := q]>) (s_ctx s)) 0 = q) as Hq1 by (unfold queue; simpl; by rewrite list_lookup_insert_eq).
  assert (forall v, match h_made (s_hist s) !! v with Some ch => queue (set_chan_heap (<[O := q]>) (s_ctx s)) ch | None => [] end =
    v_queue (view_of s v)) as Hqv.
  { intros v. simpl. destruct (h_made (s_hist s) !! v) as [ch|] eqn:Hv; [|done]. destruct (made_pos _ _ s v ch Hs Hv).
    unfold queue. simpl. by rewrite list_lookup_insert_ne. }
  assert (forall u, is_stream_closed m = true -> of_uid u [m] = []) as Hst.
  { intros u [Hc _]%andb_true_iff. apply not_forwarding. apply String.eqb_eq in Hc. by rewrite Hc. }
  destruct t as [m'| |m']; [subst m'| |subst m'].
  all: constructor; simpl; [done|apply (so_waiting _ _ _ Hs)|apply (so_readers _ _ _ Hs)|apply (so_writers _ _ _ Hs)|done|].
  all: intros v; specialize (Hqv v); simpl in Hqv;
    view_is (view_of s v); [apply (so_flow _ _ _ Hs)|rewrite Hq0, Hq1, Hl; simpl].
  - by rewrite <- app_assoc.
  - rewrite !of_uid_app. change (m :: q) with ([m] ++ q). by rewrite of_uid_app, Hst.
  - done.
Qed.

Lemma wpt_server_send s ok : side_ok nodeName ro s -> s_sending s = true ->
  wpt never (server_SendMsg_turn 0 ok) (s_ctx s) (fun t c => side_ok nodeName ro (after_send s t c)).
Proof.
  intros Hs Hsend. destruct (k_node _ _ _ _ (so_ctx _ _ _ Hs)) as (l & Hn & _ & _). unfold server_SendMsg_turn.
  apply wpt_bind. unfold wpt at 1, the_node. rewrite Hn. cbn [lookup list_lookup n_ch]. apply wpt_bind, wpt_recv. intros m q Hq.
  destruct (is_stream_closed m) eqn:Hc; [|destruct ok]; apply wpt_ret; by eapply after_send_ok.
Qed.

Lemma kept_send s ok : side_ok nodeName ro s -> kept nodeName ro (turn_send nodeName ro ok s) never.
Proof.
  intros Hs. unfold turn_send. destruct (s_sending s) eqn:Hsend; [|done]. unfold kept.
  eapply (turn_wpt _ _ _ _ (fun t c => side_ok nodeName ro (after_send s t c))); [|by intros [] c].
  pose proof (wpt_server_send s ok Hs Hsend) as Hsrv.
  assert (wpt never (client_SendMsg_turn nodeName 0 ok) (s_ctx s) (fun t c => side_ok nodeName ro (after_send s t c))) as Hcl; [|by destruct ro].
  unfold client_SendMsg_turn. apply wpt_bind. eapply wpt_mono; [exact Hsrv|]. intros t c Hc.
  assert (s_ctx (after_send s t c) = c) as Hctx by (by destruct t).
  pose proof (wpt_RemoveNode _ Hc) as Hr. rewrite Hctx in Hr.
  destruct t; [by apply wpt_ret|apply wpt_bind; eapply wpt_mono; [exact Hr|]; intros [] c' Hc'; by apply wpt_ret..].
Qed.

(** *** The handlers *)

Definition registered (access : CallBack) : gmap string CallBack :=
  list_to_map [(TCP_FORWARD, DirectHandler_); (CLOSED, DirectHandler_); (CONNECT_SUCCESSED, DirectHandler_);
               (CONNECT_FAILED, DirectHandler_); (CONNECT_REQ, access)].

(** The context after [LoadModules], before the node registers. *)
Definition loaded (r : role) : TunnelContext :=
  set_protocols (fun _ => list_to_map
    [(STREAM, {[STREAM_HEART_BEAT := HeartbeatHandler_]}); (EGRESS, registered ConnectingHandler_); (SSH, registered ConnectingHandler_);
     (HTTP_PROXY, registered (match r with CloudSide => AccessHandler_ | EdgeSide => ConnectingHandler_ end))]) GetContext.

Lemma LoadModules_is r : LoadModules (mode_of r) [STREAM; EGRESS; SSH; HTTP_PROXY] GetContext = Ok tt (loaded r).
Proof. destruct r; vm_compute; reflexivity. Qed.

Lemma start_ctx r : s_ctx (side_at_start nodeName (mode_of r)) =
  mkContext {[nodeName := O]} ∅ (protocols (loaded r)) [mkTunnelNode nodeName 0 None ∅] [[]] 1.
Proof.
  unfold side_at_start, boot. cbn [s_ctx]. unfold tbind at 1. rewrite LoadModules_is. reflexivity.
Qed.

Lemma table_is : table nodeName ro =
  list_to_map [(STREAM, {[STREAM_HEART_BEAT := HeartbeatHandler_]}); (EGRESS, registered ConnectingHandler_); (SSH, registered ConnectingHandler_);
               (HTTP_PROXY, registered (match ro with CloudSide => AccessHandler_ | EdgeSide => ConnectingHandler_ end))].
Proof. unfold table. by rewrite start_ctx. Qed.

(** What a handler found for a message says about it. *)
Definition handler_says (f : option CallBack) (m : StreamMsg) : Prop :=
  match f with
  | None => forwarding (m_Category m) = true -> ~ known_type m
  | Some HeartbeatHandler_ => forwarding (m_Category m) = false
  | Some DirectHandler_ => forwarding (m_Category m) = true /\ m_Type m <> CONNECT_REQ
  | Some ConnectingHandler_ => forwarding (m_Category m) = true /\ m_Type m = CONNECT_REQ
  | Some AccessHandler_ => forwarding (m_Category m) = true /\ m_Type m = CONNECT_REQ /\ ro = CloudSide
  end.

Lemma registered_says access m : forwarding (m_Category m) = true ->
  (access = ConnectingHandler_ \/ access = AccessHandler_ /\ ro = CloudSide) -> handler_says (registered access !! m_Type m) m.
Proof.
  intros Hc Ha. unfold registered. cbn [list_to_map foldr fst snd uncurry].
  repeat (rewrite lookup_insert; case_decide;
    [match goal with H : _ = m_Type m |- _ => first [by split; [done|rewrite <- H]|by destruct Ha as [->|[-> ->]]] end|]).
  rewrite lookup_empty. intros _ Hk. unfold known_type in Hk. naive_solver.
Qed.

Lemma handler_found m : handler_says (match table nodeName ro !! m_Category m with Some t => t !! m_Type m | None => None end) m.
Proof.
  rewrite table_is. cbn [list_to_map foldr fst snd uncurry].
  rewrite lookup_insert; case_decide as H1; [|rewrite lookup_insert; case_decide as H2; [|rewrite lookup_insert; case_decide as H3;
    [|rewrite lookup_insert; case_decide as H4]]].
  - rewrite lookup_singleton. case_decide; simpl; rewrite <- H1; done.
  - apply registered_says; [by rewrite <- H2|by left].
  - apply registered_says; [by rewrite <- H3|by left].
  - apply registered_says; [by rewrite <- H4|]. destruct ro; auto.
  - rewrite lookup_empty. simpl. unfold forwarding. rewrite !orb_true_iff, !String.eqb_eq. naive_solver.
Qed.

(** *** A message comes in *)

(** What the other side and the order of the stream guarantee of the next
    message. *)
Record arrives (s : side) (m : StreamMsg) : Prop := {
  ar_in : about (m_Topic m) m -> acceptable (view_of s (m_Topic m)) m;
  ar_known : forwarding (m_Category m) = true -> known_type m;
  ar_cloud : ro = CloudSide -> forwarding (m_Category m) = true -> is_Some (h_made (s_hist s) !! m_Topic m) /\ m_Type m <> CONNECT_REQ
}.

Definition after_recv (s : side) (m : StreamMsg) (l : list goroutine) (c : TunnelContext) : side :=
  mkSide c (start_all l (s_go s)) (s_sending s) (s_receiving s) (s_heartbeat s) (note_started l (note_in m (s_hist s))).

Lemma in_note u m h : of_uid u (h_in (note_in m h)) = of_uid u (h_in h) ++ of_uid u [m].
Proof. apply of_uid_app. Qed.

(** A message that starts nothing and is delivered to no connection. *)
Lemma recv_ok s m c l : side_ok nodeName ro s -> ctx_ok nodeName (table nodeName ro) (h_made (s_hist s)) c -> conns c = conns (s_ctx s) ->
  emits s c l -> (forall v, v <> m_Topic m -> of_uid v l = []) ->
  flow ro (m_Topic m) (on_sent (fun x => x ++ of_uid (m_Topic m) l) (on_in (fun x => x ++ of_uid (m_Topic m) [m]) (view_of s (m_Topic m)))) ->
  side_ok nodeName ro (after_recv s m [] c).
Proof.
  intros Hs Hk Hco Hem Hl Hfl. constructor; simpl; [done|apply (so_waiting _ _ _ Hs)|apply (so_readers _ _ _ Hs)|apply (so_writers _ _ _ Hs)|apply (so_lost _ _ _ Hs)|].
  intros v. destruct (view_emits s c l v Hem) as [Hq Hsent]. destruct (decide (v = m_Topic m)) as [->|Hne].
  - match type of Hfl with flow _ _ ?V => view_is V end; [done|by rewrite Hco|].
    symmetry. apply of_uid_app.
  - rewrite Hl, app_nil_r in Hsent by done.
    view_is (view_of s v); [apply (so_flow _ _ _ Hs)|by rewrite Hco|]. rewrite of_uid_app, (of_uid_not v (m_Topic m)) by done. by rewrite app_nil_r.
Qed.

Lemma recv_other s m : side_ok nodeName ro s -> forwarding (m_Category m) = false ->
  forall c l, ctx_ok nodeName (table nodeName ro) (h_made (s_hist s)) c -> conns c = conns (s_ctx s) -> emits s c l ->
  (forall u, of_uid u l = []) -> side_ok nodeName ro (after_recv s m [] c).
Proof.
  intros Hs Hc c l Hk Hco Hem Hl. eapply (recv_ok s m c l); try done.
  rewrite Hl, (not_forwarding m Hc). rewrite on_sent_nil by done.
  replace (on_in _ _) with (view_of s (m_Topic m)); [apply (so_flow _ _ _ Hs)|]. apply view_ext; try done. simpl. by rewrite app_nil_r.
Qed.

Lemma wpt_pair_of E s m (Q : option nat -> TunnelContext -> Prop) : side_ok nodeName ro s -> Q None (s_ctx s) -> wpt E (pair_of m) (s_ctx s) Q.
Proof.
  intros Hs HQ. pose proof (so_ctx _ _ _ Hs) as Hk. destruct (k_node _ _ _ _ Hk) as (l & Hn & _ & _).
  unfold pair_of. apply wpt_bind. unfold wpt at 1, GetNode, tget. destruct (nodes (s_ctx s) !! m_Node m) as [r|] eqn:Hr; [|done].
  assert (r = O) as -> by (by eapply (k_nodes _ _ _ _ Hk)). apply wpt_bind. unfold GetPairNode. apply wpt_bind.
  unfold wpt at 1, the_node. rewrite Hn. cbn [lookup list_lookup n_pairnodes]. apply wpt_ret. by rewrite lookup_empty.
Qed.

(** A message delivered to its connection. *)
Lemma deliver_ok s m ch : side_ok nodeName ro s -> about (m_Topic m) m -> acceptable (view_of s (m_Topic m)) m ->
  conns (s_ctx s) !! m_Topic m = Some (mkConn (m_Topic m) ch) -> h_made (s_hist s) !! m_Topic m = Some ch ->
  side_ok nodeName ro (after_recv s m [] (push ch m (s_ctx s))).
Proof.
  intros Hs Ha Hacc Hco Hch. destruct (made_pos _ _ s _ ch Hs Hch) as [Hp Hlen]. pose proof (so_ctx _ _ _ Hs) as Hk.
  constructor; simpl; [by apply ctx_ok_push|apply (so_waiting _ _ _ Hs)|apply (so_readers _ _ _ Hs)|apply (so_writers _ _ _ Hs)|apply (so_lost _ _ _ Hs)|].
  intros v. assert (queue (push ch m (s_ctx s)) 0 = queue (s_ctx s) 0) as Hq0 by (rewrite queue_push by done; by rewrite decide_False).
  destruct (decide (v = m_Topic m)) as [->|Hne].
  - view_is (on_queue (fun q => q ++ [m]) (on_in (fun l => l ++ [m]) (view_of s (m_Topic m)))).
    + apply flow_deliver; try done; [apply (so_flow _ _ _ Hs)|by (simpl; rewrite Hco)|by (simpl; rewrite Hch)].
    + rewrite Hch, queue_push by done. by rewrite decide_True.
    + by rewrite Hq0.
    + by rewrite of_uid_app, of_uid_one.
  - view_is (view_of s v); [apply (so_flow _ _ _ Hs)|..].
    + destruct (h_made (s_hist s) !! v) as [ch'|] eqn:Hv; [|done]. rewrite queue_push by done. rewrite decide_False; [done|].
      intros ->. apply Hne. by eapply (k_inj _ _ _ _ Hk).
    + by rewrite Hq0.
    + rewrite of_uid_app, (of_uid_not v (m_Topic m)) by done. by rewrite app_nil_r.
Qed.

(** The view of a message taken in and not delivered. *)
Lemma in_view s m : side_ok nodeName ro s -> arrives s m -> forwarding (m_Category m) = true -> conns (s_ctx s) !! m_Topic m = None ->
  flow ro (m_Topic m) (on_in (fun x => x ++ [m]) (view_of s (m_Topic m))).
Proof.
  intros Hs Ha Hc Hco. apply flow_in; try done; [apply (so_flow _ _ _ Hs)|by apply (ar_in _ _ Ha)|by (simpl; rewrite Hco)|].
  destruct ro eqn:Hro; [|done]. destruct (ar_cloud _ _ Ha) as [[ch Hch] _]; [done..|]. simpl. by rewrite Hch.
Qed.

Lemma wpt_DirectHandler s m : side_ok nodeName ro s -> arrives s m -> forwarding (m_Category m) = true ->
  wpt never (DirectHandler m) (s_ctx s) (fun _ c => side_ok nodeName ro (after_recv s m [] c)).
Proof.
  intros Hs Ha Hc. pose proof (so_ctx _ _ _ Hs) as Hk. unfold DirectHandler. apply wpt_bind. unfold wpt at 1, GetConn, tget.
  assert (about (m_Topic m) m) as Hab by done.
  destruct (conns (s_ctx s) !! m_Topic m) as [x|] eqn:Hx.
  - destruct (k_conns _ _ _ _ Hk _ _ Hx) as (ch & Hch & ->). apply wpt_bind, wpt_send. intros _. apply wpt_ret.
    apply deliver_ok; try done. by apply (ar_in _ _ Ha).
  - pose proof (in_view s m Hs Ha Hc Hx) as Hin. apply wpt_bind. apply wpt_pair_of; [done|].
    assert (side_ok nodeName ro (after_recv s m [] (s_ctx s))) as Hdrop.
    { apply (recv_ok s m (s_ctx s) []); try done; [by apply emits_nil|]. rewrite on_sent_nil by done. by rewrite of_uid_one. }
    destruct (String.eqb_spec (m_Type m) CLOSED) as [Hcl|Hcl]; [by apply wpt_ret|].
    apply wpt_bind. unfold wpt at 1, GetNode, tget. destruct (nodes (s_ctx s) !! m_Node m) as [r|] eqn:Hr; [|by apply wpt_bind, wpt_ret, wpt_ret].
    assert (r = O) as -> by (by eapply (k_nodes _ _ _ _ Hk)). apply wpt_bind. eapply wpt_Send2Node; [exact Hk|]. apply wpt_ret.
    match goal with |- side_ok _ _ (after_recv _ _ _ (push 0 ?x _)) => set (reply := x) end.
    apply (recv_ok s m _ [reply]); try done; [by apply ctx_ok_push|by eapply emits_one|intros v Hv; by apply (of_uid_not v (m_Topic m))|].
    rewrite !of_uid_one by done. apply flow_emit; try done.
    constructor; [unfold known_type; auto|right; by right|]. destruct ro eqn:Hro.
    + destruct (ar_cloud _ _ Ha) as [[ch Hch] _]; [done..|]. simpl. by rewrite Hch.
    + split; [done|]. simpl. by destruct (of_uid _ _).
Qed.

(** The edge takes a request. *)
Lemma request_is_first s m : ro = EdgeSide -> side_ok nodeName ro s -> arrives s m -> forwarding (m_Category m) = true -> m_Type m = CONNECT_REQ ->
  v_in (view_of s (m_Topic m)) = [] /\ v_sent (view_of s (m_Topic m)) = [] /\ h_made (s_hist s) !! m_Topic m = None.
Proof.
  intros Hro Hs Ha Hc Ht. destruct (ar_in _ _ Ha) as [Hin|[Hf|Hf]]; [done| |rewrite Hf in Ht; discriminate..].
  pose proof (fl_role _ _ _ (so_flow _ _ _ Hs (m_Topic m))) as Hr. rewrite Hro in Hr. destruct Hr as (_ & _ & _ & Hr).
  destruct (Hr Hin) as [Hsent Hm]. repeat split; try done. simpl in Hm. by destruct (h_made (s_hist s) !! m_Topic m).
Qed.

Lemma accept_ok s m ack sock c : ro = EdgeSide -> side_ok nodeName ro s -> arrives s m -> forwarding (m_Category m) = true -> m_Type m = CONNECT_REQ ->
  about (m_Topic m) ack -> m_Type ack = CONNECT_SUCCESSED ->
  let u := m_Topic m in let n := length (chan_heap (s_ctx s)) in
  ctx_ok nodeName (table nodeName ro) (<[u := n]> (h_made (s_hist s))) c -> same_but_node (add_conn u (push 0 ack (s_ctx s))) c ->
  side_ok nodeName ro (after_recv s m [Read sock 0 (m_Category m) TCP_FORWARD u; Write sock (mkConn u n)] c).
Proof.
  intros Hro Hs Ha Hc Ht Hack Hackt u n Hk (_ & Hco & Hchs).
  destruct (request_is_first s m Hro Hs Ha Hc Ht) as (Hin & Hsent0 & Hnew). fold u in Hin, Hsent0, Hnew.
  destruct (unmade s u Hs Hnew) as (Hnc & Hnw & Hnr & Hnwr & Hng & Hnp).
  pose proof (k_len _ _ _ _ (so_ctx _ _ _ Hs)) as Hlen.
  assert (forall x, queue c x = if decide (x = n) then [] else queue (push 0 ack (s_ctx s)) x) as Hqc.
  { intros x. rewrite (queue_same _ _ x Hchs), queue_add_conn. by rewrite length_push. }
  assert (emits s c [ack]) as Hem.
  { destruct (emits_one _ _ s ack Hs) as [E1 E2]. constructor.
    - intros v ch Hv. destruct (made_pos _ _ s v ch Hs Hv). rewrite Hqc, decide_False by (unfold n; lia). eauto.
    - rewrite Hqc, decide_False by (unfold n; lia). done. }
  constructor; simpl.
  - done.
  - intros v x cat Hv. destruct (so_waiting _ _ _ Hs _ _ _ Hv) as (ch & Hch & ?). exists ch. split; [by apply made_more|done].
  - intros v cat. rewrite lookup_insert_Some. intros [[<- <-]|[Hne Hv]].
    + split; [|done]. eexists. apply lookup_insert_eq.
    + destruct (so_readers _ _ _ Hs _ _ Hv) as [[ch Hch] ?]. split; [|done]. exists ch. by apply made_more.
  - intros v x. rewrite lookup_insert_Some. intros [[<- <-]|[Hne Hv]].
    + eexists. split; [apply lookup_insert_eq|done].
    + destruct (so_writers _ _ _ Hs _ _ Hv) as (ch & Hch & ?). exists ch. split; [|done]. by apply made_more.
  - apply (so_lost _ _ _ Hs).
  - intros v. destruct (view_emits s c [ack] v Hem) as [Hq Hsent]. destruct (decide (v = u)) as [->|Hne].
    + rewrite Hsent0, of_uid_one in Hsent by done. simpl in Hin.
      view_is (mkView true true false true true (v_misread (view_of s u)) [] [ack] [m] [] []).
      * apply (flow_accept ro u (view_of s u) m ack); try done. apply (so_flow _ _ _ Hs).
      * rewrite Hco. simpl. by rewrite lookup_insert_eq.
      * by rewrite Hnw.
      * rewrite lookup_insert_eq. rewrite Hqc. by rewrite decide_True.
      * by rewrite of_uid_app, Hin, of_uid_one.
    + rewrite (of_uid_not v u), app_nil_r in Hsent by (try done; apply Hack).
      view_is (view_of s v); [apply (so_flow _ _ _ Hs)|..].
      * rewrite Hco. simpl. by rewrite lookup_insert_ne.
      * by rewrite lookup_insert_ne.
      * rewrite of_uid_app, (of_uid_not v u) by done. by rewrite app_nil_r.
Qed.

(** The panic that is left: the target answers and the node is not
    registered. *)
Definition without_node (s : side) (m : StreamMsg) (w : string) : Prop :=
  ro = EdgeSide /\ m_Type m = CONNECT_REQ /\ nodes (s_ctx s) !! m_Node m = None.

Lemma wpt_ConnectingHandler s m dial : side_ok nodeName ro s -> arrives s m -> forwarding (m_Category m) = true -> m_Type m = CONNECT_REQ ->
  wpt (without_node s m) (ConnectingHandler dial m) (s_ctx s) (fun x c => side_ok nodeName ro (after_recv s m (snd x) c)).
Proof.
  intros Hs Ha Hc Ht. assert (ro = EdgeSide) as Hro.
  { destruct ro eqn:E; [|done]. by destruct (ar_cloud _ _ Ha) as [_ Hno]. }
  pose proof (so_ctx _ _ _ Hs) as Hk. destruct (request_is_first s m Hro Hs Ha Hc Ht) as (Hin & Hsent0 & Hnew).
  destruct (unmade s _ Hs Hnew) as (Hnc & _). assert (about (m_Topic m) m) as Hab by done.
  pose proof (in_view s m Hs Ha Hc Hnc) as Hfin.
  unfold ConnectingHandler. apply wpt_bind. unfold wpt at 1, GetConn, tget. rewrite Hnc.
  apply wpt_bind. unfold wpt at 1, GetNode, tget.
  assert (forall r, nodes (s_ctx s) !! m_Node m = Some r -> r = O) as Hr0 by (intros r Hr; by eapply (k_nodes _ _ _ _ Hk)).
  destruct dial as [sock|err].
  - destruct (nodes (s_ctx s) !! m_Node m) as [r|] eqn:Hr.
    + rewrite (Hr0 r eq_refl). apply wpt_bind, wpt_bind. eapply wpt_GetName; [exact Hk|]. eapply wpt_Send2Node; [exact Hk|].
      match goal with |- context [push 0 ?x _] => set (ack := x) end.
      pose proof (ctx_ok_push _ _ _ _ 0 ack Hk) as Hk1. apply wpt_bind, wpt_AddConn, wpt_bind.
      eapply wpt_BindNode; [by apply ctx_ok_add_conn|apply lookup_insert_eq|intros l Hl; by eapply (fresh_unbound nodeName _ _ (push 0 ack (s_ctx s)))|].
      intros c Hk2 Hsame. apply wpt_ret. rewrite length_push in *. by apply (accept_ok s m ack).
    + apply wpt_bind, wpt_ret, wpt_bind, wpt_AddConn. done.
  - apply wpt_bind. destruct (nodes (s_ctx s) !! m_Node m) as [r|] eqn:Hr.
    + rewrite (Hr0 r eq_refl). apply wpt_bind. eapply wpt_GetName; [exact Hk|]. eapply wpt_Send2Node; [exact Hk|]. apply wpt_ret.
      match goal with |- context [push 0 ?x _] => set (nack := x) end. apply (recv_ok s m _ [nack]); try done;
        [by apply ctx_ok_push|by eapply emits_one|intros v Hv; by apply (of_uid_not v (m_Topic m))|].
      rewrite !of_uid_one by done. apply flow_emit; try done.
      constructor; [unfold known_type; auto|by left|]. rewrite Hro. split; [done|]. simpl. by destruct (of_uid _ _).
    + apply wpt_ret, wpt_ret. apply (recv_ok s m _ []); try done; [by apply emits_nil|]. rewrite on_sent_nil by done. by rewrite of_uid_one.
Qed.

(** *** Every turn of a side keeps the invariant *)

Lemma wpt_Handler s m dial : side_ok nodeName ro s -> arrives s m ->
  wpt (without_node s m) (Handler no_access dial m (m_Type m) (m_Category m)) (s_ctx s) (fun l c => side_ok nodeName ro (after_recv s m l c)).
Proof.
  intros Hs Ha. pose proof (so_ctx _ _ _ Hs) as Hk. unfold Handler. apply wpt_bind. unfold wpt at 1, GetHandler, tget.
  rewrite (k_tbl _ _ _ _ Hk). pose proof (handler_found m) as Hf.
  destruct (match table nodeName ro !! m_Category m with Some t => t !! m_Type m | None => None end) as [[| | |]|]; simpl in Hf.
  - apply wpt_bind. unfold HeartbeatHandler. apply wpt_bind. unfold wpt at 1, GetNode, tget.
    destruct (nodes (s_ctx s) !! m_Node m) as [r|] eqn:Hr.
    + assert (r = O) as -> by (by eapply (k_nodes _ _ _ _ Hk)). apply wpt_bind. eapply wpt_Send2Node; [exact Hk|]. apply wpt_ret, wpt_ret.
      eapply (recv_other s m Hs Hf _ [m]); [by apply ctx_ok_push|done|by eapply emits_one|by apply not_forwarding].
    + apply wpt_ret, wpt_ret. by apply (recv_other s m Hs Hf _ []); [..|apply emits_nil|].
  - apply wpt_bind. eapply wpt_mono; [|intros e c Hc; apply wpt_ret; exact Hc].
    destruct Hf as [Hf _]. pose proof (wpt_DirectHandler s m Hs Ha Hf) as H. unfold wpt in *. by destruct (DirectHandler m (s_ctx s)).
  - apply wpt_bind. eapply wpt_mono; [|intros e c Hc; apply wpt_ret; exact Hc]. destruct Hf as [Hf Ht]. by apply wpt_ConnectingHandler.
  - destruct Hf as (Hf & Ht & Hro). by destruct (ar_cloud _ _ Ha Hro Hf).
  - apply wpt_ret. assert (forwarding (m_Category m) = false) as Hc.
    { destruct (forwarding (m_Category m)) eqn:E; [|done]. destruct (Hf eq_refl). by apply (ar_known _ _ Ha). }
    by apply (recv_other s m Hs Hc _ []); [..|apply emits_nil|].
Qed.

Definition excused (l : label) (s : side) (w : string) : Prop :=
  match l with
  | LRecv _ (Some m) => without_node s m w
  | LTick => w = "exit status 1"%string
  | _ => False
  end.

Lemma kept_recv s dial got : side_ok nodeName ro s -> (forall m, got = Some m -> arrives s m) ->
  kept nodeName ro (turn_recv nodeName ro dial got s) (excused (LRecv dial got) s).
Proof.
  intros Hs Ha. unfold turn_recv. destruct (s_receiving s); [|done]. unfold kept. pose proof (so_ctx _ _ _ Hs) as Hk.
  eapply (turn_wpt _ _ _ _ (fun x c => side_ok nodeName ro (mkSide c (start_all (snd (snd x)) (s_go s)) (s_sending s) (fst (snd x)) (fst x)
    (note_started (snd (snd x)) (received got (s_hist s)))))); [|done].
  assert (wpt (excused (LRecv dial got) s) (server_RecvMsg_turn no_access nodeName dial got) (s_ctx s) (fun x c => forall hb,
    side_ok nodeName ro (mkSide c (start_all (snd x) (s_go s)) (s_sending s) (fst x) hb (note_started (snd x) (received got (s_hist s)))))) as Hsrv.
  { unfold server_RecvMsg_turn. destruct got as [m|].
    - apply wpt_bind. eapply wpt_mono; [apply wpt_Handler; auto|]. intros l c Hc. apply wpt_ret. intros hb. by destruct Hc.
    - apply wpt_bind. unfold wpt at 1, GetNode, tget. apply wpt_bind. destruct (nodes (s_ctx s) !! nodeName) as [r|] eqn:Hr.
      + assert (r = O) as -> by (by eapply (k_nodes _ _ _ _ Hk)). eapply wpt_Send2Node; [exact Hk|]. apply wpt_ret. intros hb.
        apply side_ok_flags; [|done]. by apply emit_other.
      + apply wpt_ret, wpt_ret. intros hb. apply side_ok_flags; [|done]. by apply at_ctx_same. }
  set (Q := fun (x : heartbeat * (bool * list goroutine)) c => side_ok nodeName ro (mkSide c (start_all (snd (snd x)) (s_go s)) (s_sending s) (fst (snd x)) (fst x)
    (note_started (snd (snd x)) (received got (s_hist s))))) in *.
  assert (forall hb, wpt (excused (LRecv dial got) s) (do! x := server_RecvMsg_turn no_access nodeName dial got in tret (hb, x)) (s_ctx s) Q) as Hboth.
  { intros hb. apply wpt_bind. eapply wpt_mono; [exact Hsrv|]. intros x c Hc. apply wpt_ret, Hc. }
  assert (wpt (excused (LRecv dial got) s) (client_RecvMsg_turn no_access nodeName dial (s_heartbeat s) got) (s_ctx s) Q) as Hcl.
  { unfold client_RecvMsg_turn. destruct got as [m|]; [|apply Hboth].
    destruct (String.eqb (m_Category m) STREAM && String.eqb (m_Type m) STREAM_HEART_BEAT) eqn:Hb; [|apply Hboth].
    apply wpt_ret. unfold Q. simpl. apply andb_true_iff in Hb as [Hb _]. apply String.eqb_eq in Hb.
    assert (side_ok nodeName ro (after_recv s m [] (s_ctx s))) as [].
    { apply (recv_other s m Hs) with (l := []); try done; [by rewrite Hb|by apply emits_nil]. }
    by constructor. }
  unfold Q in *. by destruct ro; [apply Hboth|].
Qed.

End Turns_.
