(* ===== verification/TunnelSafety.v ===== *)
(** * tunnel: what is written is what was read

    The invariant of the two sides together, the theorems about the bytes of a
    connection and about panics, and runs that show what the code does when
    messages are misread, trace ids are used twice or nodes register again. *)

From Stdlib Require Import ZArith Lia Ascii String.
From stdpp Require Import base strings gmap numbers sorting list.
From S2P Require Import Prelude.
From S2P Require Import TunnelContext.
From S2P Require Import TunnelStream.
From S2P Require Import TunnelSystem.
From S2P Require Import TunnelFlow.
From S2P Require Import TunnelTurns.

Local Open Scope Z_scope.
Local Open Scope go_scope.

(** ** The two sides together *)

Section System.
Context (nodeName : string).

Lemma kept_step ro s l : side_ok nodeName ro s -> (ro = CloudSide -> reuses l s = false) ->
  (forall dial m, l = LRecv dial (Some m) -> arrives ro s m) ->
  kept nodeName ro (side_step nodeName ro l s) (excused ro l s).
Proof.
  intros Hs Hnew Ha.
  destruct l as [u cat addr|u w|u|u a|u a|ok|dial got| |]; cbn [side_step].
  - destruct ro; [|done]. apply kept_connect; [done| |done]. specialize (Hnew eq_refl). simpl in Hnew.
    apply bool_decide_eq_false in Hnew. by destruct (h_made _ !! u); [destruct Hnew|].
  - by apply kept_answer.
  - by apply kept_timeout.
  - by apply kept_read.
  - by apply kept_write.
  - by apply kept_send.
  - apply kept_recv; [done|]. intros m ->. by eapply Ha.
  - by apply kept_remove.
  - by apply kept_tick.
Qed.

(** What a step adds to the messages taken and given. *)
Definition taken_by (l : label) : list StreamMsg := match l with LRecv _ (Some m) => [m] | _ => [] end.

Lemma note_started_io l h : h_in (note_started l h) = h_in h /\ h_out (note_started l h) = h_out h.
Proof. revert h. induction l as [|[]]; intros h; simpl; [done|auto|]. specialize (IHl (note_made (c_uid c) (c_ch c) h)). done. Qed.

Lemma turn_inv {A : Type} (m : tm A) s k s' : turn m s k = Some (Ret s') -> exists a c, s' = k a c.
Proof. unfold turn. destruct (m (s_ctx s)) as [a c| |]; intros [=]; eauto. Qed.

Lemma step_io ro l s s' : side_step nodeName ro l s = Some (Ret s') ->
  h_in (s_hist s') = h_in (s_hist s) ++ taken_by l /\ h_out (s_hist s) `prefix_of` h_out (s_hist s').
Proof.
  destruct l as [u cat addr|u w|u|u a|u a|ok|dial got| |]; cbn [side_step taken_by]; rewrite ?app_nil_r.
  - destruct ro; [|done]. unfold turn_connect. destruct (forwarding _); [|done]. by intros (a & c & ->)%turn_inv.
  - unfold turn_answer. destruct (_ !! u) as [[c cat]|]; [|done]. intros (b & c' & ->)%turn_inv.
    destruct (note_answer_same u (c_ch c) s (s_hist s)) as (_ & _ & _ & H1 & _ & H2). simpl.
    destruct w as [ok|data]; [|destruct b]; simpl; by rewrite H1, H2.
  - unfold turn_timeout. destruct (_ !! u) as [[c cat]|]; [|done]. by intros (b & c' & ->)%turn_inv.
  - unfold turn_read. destruct (_ !! u); [|done]. by intros (b & c' & ->)%turn_inv.
  - unfold turn_write. destruct (_ !! u); [|done]. by intros (b & c' & ->)%turn_inv.
  - unfold turn_send. destruct (s_sending s); [|done]. intros (t & c & ->)%turn_inv. destruct t; simpl; try done. split; [done|by apply prefix_app_r].
  - unfold turn_recv. destruct (s_receiving s); [|done]. intros (x & c & ->)%turn_inv. simpl.
    destruct (note_started_io (snd (snd x)) (received got (s_hist s))) as [-> ->]. destruct got; simpl; [done|by rewrite app_nil_r].
  - by intros (x & c & ->)%turn_inv.
  - unfold turn_tick. destruct ro; [done|]. by intros (x & c & ->)%turn_inv.
Qed.

Record system_ok (x : system) : Prop := {
  sy_cloud : side_ok nodeName CloudSide (cloud x);
  sy_edge : side_ok nodeName EdgeSide (edge x);
  sy_down : h_in (s_hist (edge x)) `prefix_of` h_out (s_hist (cloud x));
  sy_up : h_in (s_hist (cloud x)) `prefix_of` h_out (s_hist (edge x))
}.

Lemma next_prefix from to m : h_in (s_hist to) `prefix_of` h_out (s_hist from) -> next_message from to = Some m ->
  (h_in (s_hist to) ++ [m]) `prefix_of` h_out (s_hist from).
Proof.
  intros [t Ht] Hm. unfold next_message in Hm. rewrite Ht, lookup_app_r, Nat.sub_diag in Hm by lia.
  destruct t as [|m' t]; [done|]. injection Hm as ->. rewrite Ht. exists t. by rewrite <- app_assoc.
Qed.

(** The messages given to the stream are among those sent. *)
Lemma out_sent s u : of_uid u (h_out (s_hist s)) `prefix_of` v_sent (view_of s u).
Proof. simpl. rewrite of_uid_app. by apply prefix_app_r. Qed.

Lemma next_about from to ro_from m : h_in (s_hist to) `prefix_of` h_out (s_hist from) -> next_message from to = Some m ->
  side_ok nodeName ro_from from -> about (m_Topic m) m ->
  (v_in (view_of to (m_Topic m)) ++ [m]) `prefix_of` v_sent (view_of from (m_Topic m)).
Proof.
  intros Hp Hm Hs Ha. etrans; [|apply out_sent]. pose proof (of_uid_prefix (m_Topic m) _ _ (next_prefix _ _ _ Hp Hm)) as H.
  by rewrite of_uid_app, of_uid_one in H.
Qed.

Lemma prefix_last {A : Type} (l k : list A) a : (l ++ [a]) `prefix_of` k -> a ∈ k.
Proof. intros [t ->]. set_solver. Qed.

Lemma arrives_next ro ro' from to m : side_ok nodeName ro' from -> side_ok nodeName ro to ->
  h_in (s_hist to) `prefix_of` h_out (s_hist from) -> next_message from to = Some m ->
  (ro = CloudSide -> ro' = EdgeSide /\ h_in (s_hist from) `prefix_of` h_out (s_hist to)) -> arrives ro to m.
Proof.
  intros Hf Ht Hp Hm Hro. pose proof (so_flow _ _ _ Hf (m_Topic m)) as Hfl. constructor.
  - intros Ha. pose proof (next_about _ _ _ _ Hp Hm Hf Ha) as Hpre.
    pose proof (Forall_prefix _ _ _ (tail_prefix _ _ Hpre) (fl_sent _ _ _ Hfl)) as Htl. unfold acceptable.
    destruct (v_in (view_of to (m_Topic m))) as [|y l]; [by left|right]. simpl in Htl. by apply Forall_app in Htl as [_ [? _]%Forall_cons].
  - intros Hc. assert (about (m_Topic m) m) as Ha by done. pose proof (next_about _ _ _ _ Hp Hm Hf Ha) as Hpre.
    pose proof (fl_known _ _ _ Hfl) as Hk. rewrite Forall_forall in Hk. apply Hk. by eapply prefix_last.
  - intros Hc Hfw. destruct (Hro Hc) as [-> Hback]. assert (about (m_Topic m) m) as Ha by done.
    pose proof (next_about _ _ _ _ Hp Hm Hf Ha) as Hpre. destruct (fl_role _ _ _ Hfl) as (_ & _ & Hno & Hin). split.
    + destruct (h_made (s_hist to) !! m_Topic m) as [ch|] eqn:E; [by exists ch|exfalso].
      pose proof (so_flow _ _ _ Ht (m_Topic m)) as Hft. rewrite Hc in Hft. pose proof (fl_role _ _ _ Hft) as Hrt. simpl in Hrt. rewrite E in Hrt.
      destruct (Hrt eq_refl) as [Hnone _].
      destruct (Hin) as [Hs0 _].
      { pose proof (of_uid_prefix (m_Topic m) _ _ Hback) as Hb. rewrite of_uid_app in Hnone. apply app_nil in Hnone as [Hnone _].
        rewrite Hnone in Hb. by apply prefix_nil_inv in Hb. }
      apply prefix_last in Hpre. rewrite Hs0 in Hpre. set_solver.
    + rewrite Forall_forall in Hno. apply Hno. by eapply prefix_last.
Qed.

Lemma delivered_next l from to dial m : delivered l from to = true -> l = LRecv dial (Some m) -> next_message from to = Some m.
Proof. intros H ->. simpl in H. by apply bool_decide_eq_true in H. Qed.

Lemma io_prefix (l : label) from to : h_in (s_hist to) `prefix_of` h_out (s_hist from) -> delivered l from to = true ->
  (h_in (s_hist to) ++ taken_by l) `prefix_of` h_out (s_hist from).
Proof.
  intros Hp Hd. destruct l as [| | | | | |dial [m|]| |]; simpl; rewrite ?app_nil_r; try done.
  apply next_prefix; [done|]. by eapply delivered_next.
Qed.

(** A turn of either side of a reachable system. *)
Definition this (ro : role) (x : system) : side := match ro with CloudSide => cloud x | EdgeSide => edge x end.
Definition that (ro : role) (x : system) : side := match ro with CloudSide => edge x | EdgeSide => cloud x end.

Lemma step_kept ro l x : system_ok x -> reuses l (cloud x) = false -> delivered l (that ro x) (this ro x) = true ->
  kept nodeName ro (side_step nodeName ro l (this ro x)) (excused ro l (this ro x)).
Proof.
  intros [] Hnew Hd. destruct ro; simpl in *; apply kept_step; try done; intros dial m Hl.
  - eapply (arrives_next _ EdgeSide); try done. by eapply delivered_next.
  - eapply (arrives_next _ CloudSide); try done. by eapply delivered_next.
Qed.

Lemma system_step ro l x x' : system_ok x -> reuses l (cloud x) = false -> step nodeName ro l x = Some x' -> system_ok x'.
Proof.
  intros Hx Hnew Hstep. pose proof (step_kept ro l x Hx Hnew) as Hk. destruct Hx. unfold step in Hstep.
  destruct ro; simpl in Hk.
  all: destruct (delivered l _ _) eqn:Hd; [|done]; specialize (Hk eq_refl).
  all: destruct (side_step nodeName _ l _) as [[s'|w]|] eqn:E; try done; injection Hstep as <-; simpl in Hk.
  all: destruct (step_io _ _ _ _ E) as [Hi Ho]; constructor; simpl; try done.
  all: first [rewrite Hi; by apply io_prefix | by etrans].
Qed.

Lemma run_keeps ls x x' : system_ok x -> fresh_ids nodeName ls x = true -> run nodeName ls x = Some x' -> system_ok x'.
Proof.
  revert x. induction ls as [|[ro l] ls IH]; intros x Hx; simpl; [by intros _ [= <-]|].
  intros [Hnew%negb_true_iff Hf]%andb_true_iff.
  destruct (step nodeName ro l x) as [y|] eqn:E; [|done]. apply IH; [|done]. by eapply system_step.
Qed.


(** *** The start *)

Lemma start_table ro : protocols (loaded ro) = table nodeName ro.
Proof. unfold table. by rewrite start_ctx. Qed.

Lemma start_ok ro : side_ok nodeName ro (side_at_start nodeName (mode_of ro)).
Proof.
  assert (s_hist (side_at_start nodeName (mode_of ro)) = mkHistory ∅ ∅ ∅ [] [] [] ∅) as Hh by done.
  assert (s_go (side_at_start nodeName (mode_of ro)) = mkGoroutines ∅ ∅ ∅) as Hg by done.
  constructor; rewrite ?Hh, ?Hg; cbn [g_waiting g_readers g_writers h_made h_lost];
    [|intros u c cat; by rewrite lookup_empty|intros u cat; by rewrite lookup_empty|intros u c; by rewrite lookup_empty|done|].
  - rewrite start_ctx, start_table. constructor; simpl; try done.
    + intros y r. rewrite lookup_singleton_Some. by intros [_ <-].
    + exists None. repeat split; [constructor|set_solver].
    + lia.
  - intros u. assert (view_of (side_at_start nodeName (mode_of ro)) u = mkView false false false false false false [] [] [] [] []) as ->.
    { unfold view_of. rewrite Hh, Hg, start_ctx. by apply view_ext. }
    constructor; simpl; try done. by destruct ro.
Qed.

Lemma start_system_ok : system_ok (at_start nodeName).
Proof. constructor; simpl; [apply (start_ok CloudSide)|apply (start_ok EdgeSide)|done..]. Qed.

(** ** What the system guarantees *)

Lemma side_prefix ro ro' near far u : side_ok nodeName ro near -> side_ok nodeName ro' far ->
  h_in (s_hist far) `prefix_of` h_out (s_hist near) -> u ∉ h_misread (s_hist far) ->
  put_by (s_hist far) u `prefix_of` got_by (s_hist near) u.
Proof.
  intros Hn Hf Hp Hm. etrans; [apply (fl_put _ _ _ (so_flow _ _ _ Hf u)); by apply bool_decide_eq_false|].
  etrans; [apply fwd_prefix, (of_uid_prefix u _ _ Hp)|]. etrans; [apply fwd_prefix, out_sent|].
  apply (fl_got _ _ _ (so_flow _ _ _ Hn u)).
Qed.

Lemma edge_misreads_none s u : side_ok nodeName EdgeSide s -> u ∉ h_misread (s_hist s).
Proof.
  intros Hs. destruct (fl_role _ _ _ (so_flow _ _ _ Hs u)) as (_ & Hm & _). by apply bool_decide_eq_false in Hm.
Qed.

End System.

(** C2: the bytes a connection writes at one end of the tunnel are, in order
    and without gaps, the first bytes that were read at its other end,
    whatever the interleaving of the goroutines of both processes, with the
    node removed at any time and the stream broken at any time, as long as no
    client names a trace id that the process has used before: from the client
    to the target always, and back unless [ConnectNode] took another message
    for the answer of the edge, which the end of an earlier stream of the node
    can bring about ([stop_taken_for_success]). *)
Theorem tunnel_keeps_streams (nodeName : string) (ls : list (role * label)) (x : system) :
  run nodeName ls (at_start nodeName) = Some x -> fresh_ids nodeName ls (at_start nodeName) = true -> forall u,
  put_by (s_hist (edge x)) u `prefix_of` got_by (s_hist (cloud x)) u /\
  (u ∉ h_misread (s_hist (cloud x)) -> put_by (s_hist (cloud x)) u `prefix_of` got_by (s_hist (edge x)) u).
Proof.
  intros Hrun Hnew u. destruct (run_keeps nodeName _ _ _ (start_system_ok nodeName) Hnew Hrun) as [Hc He Hd Hu]. split.
  - eapply side_prefix; try done. by eapply edge_misreads_none.
  - intros Hm. by eapply side_prefix.
Qed.

(** C3: nothing is lost while a connection is up: when its reader is running
    at one end, its writer at the other, the connection is registered there,
    and every message about it has been taken from the stream and the
    connection's channel, all that was read has been written.  The answer of
    its [ConnectNode] must have been the edge's ([stop_taken_for_success]) and
    the trace ids of the run new ones; messages about other connections may be
    under way. *)
Theorem quiet_means_delivered (nodeName : string) (ls : list (role * label)) (x : system) (ro : role) (u : string) (c : conn) :
  run nodeName ls (at_start nodeName) = Some x -> fresh_ids nodeName ls (at_start nodeName) = true ->
  let near := that ro x in let far := this ro x in
  is_Some (g_readers (s_go near) !! u) -> g_writers (s_go far) !! u = Some c -> is_Some (conns (s_ctx far) !! u) ->
  u ∉ h_misread (s_hist far) ->
  of_uid u (h_in (s_hist far)) = of_uid u (h_out (s_hist near) ++ h_lost (s_hist near) ++ queue (s_ctx near) 0) ->
  queue (s_ctx far) (c_ch c) = [] ->
  put_by (s_hist far) u = got_by (s_hist near) u.
Proof.
  intros Hrun Hnew near far [cat Hr] Hw [y Hco] Hm Hio Hch.
  destruct (run_keeps nodeName _ _ _ (start_system_ok nodeName) Hnew Hrun) as [Hc He _ _].
  assert (exists ro', side_ok nodeName ro' near) as [rn Hn] by (subst near; destruct ro; simpl; eauto).
  assert (side_ok nodeName ro far) as Hf by (subst far; by destruct ro).
  pose proof (so_flow _ _ _ Hn u) as Hfn. pose proof (so_flow _ _ _ Hf u) as Hff.
  pose proof (fl_reader _ _ _ Hfn) as Hsent. simpl in Hsent. rewrite Hr in Hsent. specialize (Hsent eq_refl).
  destruct (so_writers _ _ _ Hf _ _ Hw) as (ch & Hmade & ->).
  destruct (fl_writer _ _ _ Hff) as (_ & _ & _ & Heq); simpl; [by rewrite Hw|by apply bool_decide_eq_false|].
  simpl in Heq. rewrite Hmade, Hco in Heq. cbn [c_ch] in Hch. rewrite Hch in Heq. specialize (Heq eq_refl). rewrite app_nil_r in Heq.
  by rewrite Heq, Hio, <- Hsent.
Qed.


(** ** Runs *)

Definition demo_request : StreamMsg :=
  mkMsg "n" SSH CONNECT_REQ "u" (bytes_msg ("CONNECT 10.0.0.1:22 HTTP/1.1" +:+
    String "013" (String "010" (String "013" (String "010" (String "013" (String "010" EmptyString))))))) "10.0.0.1:22".
Definition demo_reply (type : string) (data : list Z) : StreamMsg := mkMsg "n" SSH type "u" data EmptyString.

(** A connection through the tunnel: a client sends two bytes, the target
    answers with one. *)
Definition demo_open : list (role * label) :=
  [(CloudSide, LConnect "u" SSH "10.0.0.1:22"); (CloudSide, LSend true);
   (EdgeSide, LRecv (Dialed 1) (Some demo_request)); (EdgeSide, LSend true);
   (CloudSide, LRecv (Dialed 0) (Some (demo_reply CONNECT_SUCCESSED []))); (CloudSide, LAnswer "u" (StatusLine true))].
Definition demo_data : list (role * label) :=
  [(CloudSide, LRead "u" (mkReadResult [1; 2] None)); (EdgeSide, LRead "u" (mkReadResult [3] None)); (EdgeSide, LTick);
   (CloudSide, LSend true); (EdgeSide, LSend true); (EdgeSide, LSend true);
   (EdgeSide, LRecv (Dialed 0) (Some (demo_reply TCP_FORWARD [1; 2]))); (CloudSide, LRecv (Dialed 0) (Some (demo_reply TCP_FORWARD [3])));
   (CloudSide, LWrite "u" WroteAll); (EdgeSide, LWrite "u" WroteAll)].

Definition demo_end : system := default (at_start "n") (run "n" (demo_open ++ demo_data) (at_start "n")).

Lemma demo_runs : run "n" (demo_open ++ demo_data) (at_start "n") = Some demo_end.
Proof. vm_compute. reflexivity. Qed.

Lemma demo_fresh : fresh_ids "n" (demo_open ++ demo_data) (at_start "n") = true.
Proof. vm_compute. reflexivity. Qed.

Lemma tunnel_keeps_streams_witness :
  put_by (s_hist (edge demo_end)) "u" = [1; 2] /\ put_by (s_hist (cloud demo_end)) "u" = [3] /\
  [1; 2] `prefix_of` got_by (s_hist (cloud demo_end)) "u".
Proof.
  split; [vm_compute; reflexivity|split; [vm_compute; reflexivity|]].
  exact (proj1 (tunnel_keeps_streams "n" _ demo_end demo_runs demo_fresh "u")).
Defined.

Lemma quiet_means_delivered_witness :
  put_by (s_hist (this EdgeSide demo_end)) "u" = got_by (s_hist (that EdgeSide demo_end)) "u".
Proof.
  apply (quiet_means_delivered "n" (demo_open ++ demo_data) demo_end EdgeSide "u" (mkConn "u" 1) demo_runs demo_fresh).
  - exists SSH. vm_compute. reflexivity.
  - vm_compute. reflexivity.
  - exists (mkConn "u" 1). vm_compute. reflexivity.
  - by_compute.
  - vm_compute. reflexivity.
  - vm_compute. reflexivity.
Defined.



(** The exception of the first theorem: the node is removed (by the end of an
    earlier stream of the same edge) while a connection waits for its answer.
    [ConnectNode] takes the stop message for success, and when the edge then
    reports that the target refused, the text of the error is written to the
    client as data. *)
Definition demo_misread : list (role * label) :=
  [(CloudSide, LConnect "u" SSH "10.0.0.1:22"); (CloudSide, LSend true);
   (EdgeSide, LRecv (DialFailed "refused") (Some demo_request)); (EdgeSide, LSend true);
   (CloudSide, LRemove); (CloudSide, LAnswer "u" (StatusLine true));
   (CloudSide, LRecv (Dialed 0) (Some (demo_reply CONNECT_FAILED (bytes_msg "refused")))); (CloudSide, LWrite "u" WroteAll)].

Lemma stop_taken_for_success :
  match run "n" demo_misread (at_start "n") with
  | Some x => put_by (s_hist (cloud x)) "u" = bytes_msg "refused" /\ got_by (s_hist (edge x)) "u" = []
  | None => False
  end.
Proof. vm_compute. done. Qed.

(** Bytes that arrive with the end of a connection are read and not sent. *)
Lemma last_bytes_lost :
  match run "n" (demo_open ++ [(CloudSide, LRead "u" (mkReadResult [7] (Some "EOF"%string)))]) (at_start "n") with
  | Some x => got_by (s_hist (cloud x)) "u" = [7] /\ fwd (v_sent (view_of (cloud x) "u")) = [] /\ g_readers (s_go (cloud x)) !! "u"%string = None
  | None => False
  end.
Proof. vm_compute. done. Qed.

(** A request that comes back to the edge that made it (a service whose pod
    runs on the same node) is taken for its own answer. *)
Lemma own_request_is_success :
  match (do! c := ConnectNode_request 0 HTTP_PROXY "10.0.0.9:80" "u" in
         do! _ := ConnectingHandler (Dialed 1) (mkMsg "n" HTTP_PROXY CONNECT_REQ "u" [] "10.0.0.9:80") in
         ConnectNode_answer 0 c Received) (s_ctx (side_at_start "n" EDGE)) with
  | Ok r _ => r = None
  | _ => False
  end.
Proof. vm_compute. done. Qed.

(** A trace id used twice at a time (the client names it in a header) ends in
    a panic when the second call gives up. *)
Definition demo_reused : list (role * label) :=
  [(CloudSide, LConnect "u" HTTP_PROXY "a:80"); (CloudSide, LConnect "u" HTTP_PROXY "b:80")].

Lemma same_trace_id_twice_panics :
  match run "n" demo_reused (at_start "n") with
  | Some x => side_step "n" CloudSide (LTimeout "u") (cloud x) = Some (Panic "slice bounds out of range")
      /\ fresh_ids "n" demo_reused (at_start "n") = false
  | None => False
  end.
Proof. vm_compute. done. Qed.

(** A node that registers again is counted twice, and removed by the end of
    its first stream. *)
Lemma registered_again :
  match (run! (RemoveNode "n") in tret tt) (match AddNode "n" (s_ctx (side_at_start "n" CLOUD)) with Ok _ c => c | _ => GetContext end) with
  | Ok _ c => nodes c = ∅ /\ length (node_heap c) = 2%nat /\ EdgeNodes c = 1
  | _ => False
  end.
Proof. vm_compute. done. Qed.

(** Cleaning up the HTTP proxy waits for ever. *)
Lemma shutdown_never_ends pre post s : ShutDown (pre ++ HTTP_PROXY :: post) s = Blocked.
Proof.
  revert s. induction pre as [|n pre IH]; intros s; [done|]. simpl. unfold tbind. unfold CleanUp. destruct (String.eqb n HTTP_PROXY); [done|]. apply IH.
Qed.
