(* ===== verification/TunnelNodes.v ===== *)
(** * tunnel: which node may connect and where it is connected (token/tokencache.go, register.go)

    The tokens of the edge nodes and the check of a new stream; the hosts file
    of the tunnel's own DNS, in which every tunnel-cloud pod keeps a line for
    each edge node that is connected to it.  The theorem: what a pod writes
    is read back as it was meant, and then nothing is left to write. *)

From Stdlib Require Import Ascii String ZArith Lia.
From stdpp Require Import base strings gmap numbers sorting list.
From S2P Require Import Prelude GoStd GoStrings GoScanner GoJson K8s Requests GoNet GoJsonValue GoJsonStruct TunnelContext.

Local Open Scope Z_scope.
Local Open Scope string_scope.
Local Open Scope go_scope.

(** ** Tokens *)

Module Tokens.

Definition DEFAULT : string := "default".

Record Token : Type := mkToken { NodeName : string; token : string }.

(** Every occurrence of a byte is dropped. *)
Fixpoint drop_byte (c : ascii) (s : string) : string :=
  match s with
  | EmptyString => EmptyString
  | String a s => if Ascii.eqb a c then drop_byte c s else String a (drop_byte c s)
  end.

Definition ReplaceString (line : string) : string := drop_byte LF (drop_byte " " line).

(** [node:token], and what follows a second colon is ignored. *)
Definition ParseLine (line : string) (m : gmap string string) : gmap string string :=
  match split_on ":" (ReplaceString line) with
  | k :: v :: _ => <[k := v]> m
  | _ => m
  end.

Definition tokens_of (content : string) : gmap string string :=
  foldl (fun m line => ParseLine line m) ∅ (scan_lines content).

(** [tokenData.Tokens], where [file] is what opening the file gives. *)
Definition GetTokenFromFile (file : option string) (Tokens : gomap string) : gomap string * bool :=
  match file with
  | None => (Tokens, false)
  | Some content => (Some (tokens_of content), true)
  end.

Definition GetTokenFromCache (Tokens : gomap string) (nodeName : string) : string :=
  match mp Tokens !! nodeName with
  | Some t => t
  | None => default EmptyString (mp Tokens !! DEFAULT)
  end.

(** The cache and whether the goroutine that refreshes it still runs. *)
Record TokenCache : Type := mkTokenCache { tc_Tokens : gomap string; tc_refreshing : bool }.

(** [None]: the error of the first read. *)
Definition InitTokenCache (file : option string) : option TokenCache :=
  let '(tokens, ok) := GetTokenFromFile file None in
  if ok then Some (mkTokenCache tokens true) else None.

(** Ten seconds later.  A read that fails stops the goroutine for good. *)
Definition refresh (file : option string) (c : TokenCache) : TokenCache :=
  if tc_refreshing c then
    let '(tokens, ok) := GetTokenFromFile file (tc_Tokens c) in
    mkTokenCache tokens ok
  else c.

Definition json_of_token (t : Token) : json := JObj [("nodename", JStr (NodeName t)); ("token", JStr (token t))].

Definition GetTonken (nodeName tk : string) : string := string_of (print_json (json_of_token (mkToken nodeName tk))).

Definition set_token (t : Token) (f : string) (j : json) : option Token :=
  if String.eqb f "nodename" then (fun s => mkToken s (token t)) <$> decode_str (NodeName t) j
  else (fun s => mkToken (NodeName t) s) <$> decode_str (token t) j.

Definition ParseToken (tk : string) : option Token :=
  match parse_json (bytes_of tk) with
  | Some j => decode_struct set_token ["nodename"; "token"] (mkToken EmptyString EmptyString) j
  | None => None
  end.

(** ** The check of a stream: [ServerStreamInterceptor] up to its handler *)

Inductive refusal : Type := ErrMissingMetadata | NoToken | BadToken | ErrInvalidToken.

(** The node the stream belongs to. *)
Definition verify (Tokens : gomap string) (md : option (gmap string (list string))) : string + refusal :=
  match md with
  | None => inr ErrMissingMetadata
  | Some md =>
      match default [] (md !! "authorization") with
      | [] => inr NoToken
      | tk :: _ =>
          match ParseToken (TrimPrefix tk "Bearer ") with
          | None => inr BadToken
          | Some auth =>
              if String.eqb (token auth) (GetTokenFromCache Tokens (NodeName auth)) then inl (NodeName auth)
              else inr ErrInvalidToken
          end
      end
  end.

(** What the client of a node sends along ([InitToken], [ClientStreamInterceptor]). *)
Definition credentials (nodeName tk : string) : gmap string (list string) :=
  {[ "authorization" := ["Bearer " +:+ GetTonken nodeName tk] ]}.

Example tokens_ex :
  let ts := Some (tokens_of ("node1: abc" +:+ line_end +:+ "default:d:e" +:+ line_end +:+ "junk" +:+ line_end)) in
  GetTokenFromCache ts "node1" = "abc" /\ GetTokenFromCache ts "node2" = "d" /\
  verify ts (Some (credentials "node1" "abc")) = inl "node1" /\
  verify ts (Some (credentials "node1" "d")) = inr ErrInvalidToken /\
  verify ts (Some (credentials "node2" "d")) = inl "node2".
Proof. by vm_compute. Qed.

(** A file without a default lets in every node it does not list, with the
    empty token. *)
Example unknown_node_let_in : verify (Some (tokens_of "node1:abc")) (Some (credentials "nobody" EmptyString)) = inl "nobody".
Proof. by vm_compute. Qed.

(** One failed read, and a token that changes later is never seen. *)
Example refreshing_ends :
  let c := refresh (Some "node1:new") (refresh None (mkTokenCache (Some (tokens_of "node1:old")) true)) in
  GetTokenFromCache (tc_Tokens c) "node1" = "old".
Proof. by vm_compute. Qed.

Lemma token_range n t : ascii_only n -> ascii_only t ->
  Forall (fun b => 0 <= b < 256) (print_json (json_of_token (mkToken n t))).
Proof.
  intros Hn Ht.
  assert (forall x, ascii_only x -> Forall (fun b => 0 <= b < 256) (encode_string x)) as H.
  { intros x Hx. apply (encode_elems_range [x]). by constructor. }
  assert (ascii_only "nodename" /\ ascii_only "token") as [H1 H2] by (split; by repeat constructor).
  cbn [print_json json_of_token map sep_by fst snd NodeName token]. rewrite !app_comm_cons.
  apply H in Hn, Ht, H1, H2. revert Hn Ht H1 H2.
  generalize (encode_string n) (encode_string t) (encode_string "nodename") (encode_string "token"). intros a b c d Ha Hb Hc Hd.
  repeat first [assumption|apply Forall_nil_2|apply Forall_app_2|apply Forall_cons_2; [lia|]].
Qed.

Lemma ParseToken_GetTonken n t : ascii_only n -> ascii_only t -> ParseToken (GetTonken n t) = Some (mkToken n t).
Proof.
  intros Hn Ht. unfold ParseToken, GetTonken. rewrite bytes_of_string_of by (by apply token_range).
  assert (printable (json_of_token (mkToken n t))) as Hp.
  { apply printable_obj. repeat constructor; done. }
  unfold parse_json. pose proof (parse_first_printed _ [] Hp I) as E. rewrite app_nil_r in E. by rewrite E.
Qed.

(** A node is let in exactly with the token listed for it, or for [default]. *)
Lemma verify_credentials Tokens n t : ascii_only n -> ascii_only t ->
  verify Tokens (Some (credentials n t)) = if String.eqb t (GetTokenFromCache Tokens n) then inl n else inr ErrInvalidToken.
Proof.
  intros Hn Ht. unfold verify, credentials. rewrite lookup_singleton_eq. cbn [from_option id].
  by rewrite TrimPrefix_app, ParseToken_GetTonken.
Qed.

End Tokens.

(** ** The hosts file (register.go) *)

Module Hosts.

(** A zone is cut off. *)
Definition parseIP (addr : string) : option (list Z) :=
  match Index addr "%" with
  | Some i => ParseIP (take_str i addr)
  | None => ParseIP addr
  end.

(** The fields of every line, without the lines of two fields or more whose
    first is no address. *)
Definition hosts2Array (content : string) : list (list string) :=
  omap (fun line =>
    match Fields line with
    | a :: b :: rest => match parseIP a with None => None | Some _ => Some (a :: b :: rest) end
    | f => Some f
    end) (scan_lines content).

Fixpoint writeLine (line : list string) : string :=
  match line with
  | [] => EmptyString
  | [v] => v +:+ line_end
  | v :: rest => v +:+ gap +:+ writeLine rest
  end.

Definition connected (s : TunnelContext) (n : string) : bool := bool_decide (is_Some (nodes s !! n)).
Definition node_names `{GoRange} (s : TunnelContext) : list string := (go_range (nodes s)).*1.

(** The variables of the loop of [filterPodIp]. *)
Record pod_scan : Type := mkPodScan { hostsBuffer : string; update : bool; own : nat }.

Section Filter.
Context `{GoRange} (podIp : string) (s : TunnelContext).

(** One line: a line of this pod is dropped, and asks for an update if its
    node is gone; a line of another pod is kept, unless its node is connected
    here. *)
Definition pod_line (st : pod_scan) (v : list string) : pod_scan :=
  match v with
  | a :: n :: _ =>
      match parseIP a with
      | None => st
      | Some addr =>
          if String.eqb (IP_String addr) podIp then
            if connected s n then mkPodScan (hostsBuffer st) (update st) (S (own st))
            else mkPodScan (hostsBuffer st) true (own st)
          else if connected s n then st
          else mkPodScan (hostsBuffer st +:+ writeLine v) (update st) (own st)
      end
  | _ => st
  end.

Definition filterPodIp (hostsArray : list (list string)) : string * bool :=
  let st := foldl pod_line (mkPodScan EmptyString false 0) hostsArray in
  let edgeNodes := node_names s in
  let upd := update st || negb (own st =? length edgeNodes)%nat in
  if upd then
    (foldl (fun buf v => buf +:+ podIp +:+ gap +:+ v +:+ line_end) (hostsBuffer st) edgeNodes, true)
  else (EmptyString, false).

End Filter.

(** [filterEndpoint]: the lines of pods that are no longer endpoints of the
    tunnel's service are dropped.  [eps] is nil before the registration, and
    its first subset is read for every line of an address. *)
Definition endpoint_line (eps : option Endpoints) (st : string * bool) (v : list string) : outcome (string * bool) :=
  match v with
  | a :: _ :: _ =>
      match parseIP a with
      | None => Ret st
      | Some addr =>
          match eps with
          | None => Panic "nil pointer dereference"
          | Some eps =>
              match sl (eps_Subsets eps) with
              | [] => Panic "index out of range"
              | subset :: _ =>
                  let same := List.filter (fun ep => String.eqb (ea_IP ep) (IP_String addr)) (sl (es_Addresses subset)) in
                  Ret (foldl (fun buf _ => buf +:+ writeLine v) (fst st) same,
                       snd st || match same with [] => true | _ => false end)
              end
          end
      end
  | _ => Ret st
  end.

Fixpoint endpoint_lines (eps : option Endpoints) (hostsArray : list (list string)) (st : string * bool) : outcome (string * bool) :=
  match hostsArray with
  | [] => Ret st
  | v :: rest => let* st := endpoint_line eps st v in endpoint_lines eps rest st
  end.

Definition filterEndpoint (eps : option Endpoints) (hostsArray : list (list string)) : outcome (string * bool) :=
  let* ' (buf, upd) := endpoint_lines eps hostsArray (EmptyString, false) in
  Ret (if upd then (buf, true) else (EmptyString, false)).

(** *** The two updates *)

(** A panic ends the process. *)
Inductive stop : Type := Failed (e : api_error) | Crash (why : string).

(** Reading the mounted file, the nodes connected now, and the API server. *)
Inductive request : Type :=
| OpenHosts
| Connected
| GetEndpoints
| GetHostsConfig
| UpdateHostsConfig (cm : ConfigMap).

Definition Ans (q : request) : Type :=
  match q with
  | OpenHosts => string
  | Connected => TunnelContext
  | GetEndpoints => Endpoints
  | GetHostsConfig => ConfigMap
  | UpdateHostsConfig _ => unit
  end.

Definition COREFILE_HOSTS_FILE : string := "hosts".

Definition ask (q : request) : act Ans stop (Ans q) := map_error Failed (call q).

(** The rows the config map holds, and writing it: its data must not be nil. *)
Definition hosts_of (cm : ConfigMap) : string := default EmptyString (mp (cm_Data cm) !! COREFILE_HOSTS_FILE).
Definition cm_hosts (cm : ConfigMap) : list (list string) := hosts2Array (hosts_of cm).

Definition write_hosts (cm : ConfigMap) (hosts : string) : act Ans stop unit :=
  match cm_Data cm with
  | None => fail (Crash "assignment to entry in nil map")
  | Some data => ask (UpdateHostsConfig (mkConfigMap (cm_meta cm) (Some (<[COREFILE_HOSTS_FILE := hosts]> data))))
  end.

(** [wait.Poll] calls its condition until it holds or fails: this one does
    one or the other at its first call, so that nothing is tried twice. *)
Definition syncPodIP `{GoRange} (podIp : string) : act Ans stop unit :=
  let! file := ask OpenHosts in
  let! s := ask Connected in
  if negb (snd (filterPodIp podIp s (hosts2Array file))) then ok tt else
  let! cm := ask GetHostsConfig in
  let! s := ask Connected in
  let '(hosts, flag) := filterPodIp podIp s (cm_hosts cm) in
  if flag then write_hosts cm hosts else ok tt.

(** The endpoints, as [filterEndpoint] gets them: an error is "no update". *)
Definition with_endpoints (rows : list (list string)) (k : string * bool -> act Ans stop unit) : act Ans stop unit :=
  reply! r := call GetEndpoints in
  match r with
  | inr _ => k (EmptyString, false)
  | inl eps => match filterEndpoint (Some eps) rows with
               | Panic why => fail (Crash why)
               | Ret r => k r
               end
  end.

Definition syncEndpoints : act Ans stop unit :=
  let! file := ask OpenHosts in
  with_endpoints (hosts2Array file) (fun r =>
    if negb (snd r) then ok tt else
    let! cm := ask GetHostsConfig in
    with_endpoints (cm_hosts cm) (fun r => if snd r then write_hosts cm (fst r) else ok tt)).

(** [IsEndpointIp], where [register] says whether this is a registered cloud
    pod. *)
Definition IsEndpointIp (register : bool) (eps : Endpoints + api_error) (addr : string) : outcome bool :=
  if register then
    match eps with
    | inr _ => Ret false
    | inl eps => match sl (eps_Subsets eps) with
                 | [] => Panic "index out of range"
                 | subset :: _ => Ret (existsb (fun ipv => String.eqb (ea_IP ipv) addr) (sl (es_Addresses subset)))
                 end
    end
  else Ret false.

(** *** What is written is read back *)

Definition written (rows : list (list string)) : string :=
  foldr (fun l rest => l +:+ line_end +:+ rest) EmptyString (gapped <$> rows).

Lemma writeLine_gapped v : v <> [] -> writeLine v = gapped v +:+ line_end.
Proof.
  induction v as [|x v IH]; [done|]. intros _. destruct v as [|y v]; [done|].
  change (writeLine (x :: y :: v)) with (x +:+ gap +:+ writeLine (y :: v)).
  by rewrite IH, (gapped_cons x), !append_assoc by done.
Qed.

Lemma written_app r r' : written (r ++ r') = written r +:+ written r'.
Proof.
  induction r as [|v r IH]; [done|]. unfold written in *. cbn [app fmap list_fmap foldr].
  change (list_fmap _ _ gapped) with (fmap (M := list) gapped). by rewrite IH, !append_assoc.
Qed.

(** Rows that survive the file: words, short enough, and an address first. *)
Record good (row : list string) : Prop := {
  good_words : Forall word row;
  good_fits : fits (gapped row) = true;
  good_row : match row with a :: _ :: _ => is_Some (parseIP a) | _ => False end
}.

Lemma hosts2Array_written rows : Forall good rows -> hosts2Array (written rows) = rows.
Proof.
  intros H. unfold hosts2Array, written. rewrite scan_lines_written.
  - induction H as [|row rows [Hw _ Hr] Hrows IH]; [done|]. rewrite fmap_cons. cbn [omap list_omap].
    rewrite Fields_gapped by done. destruct row as [|a [|b rest]]; try done. destruct Hr as [ip ->].
    f_equal. exact IH.
  - apply Forall_fmap. eapply Forall_impl; [exact H|]. intros row [Hw Hf _]. split; [by apply gapped_in_line|done].
Qed.

(** *** What the filter keeps *)

Section FilterLaws.
Context `{GoRange} (podIp : string) (s : TunnelContext).

Definition of_pod (v : list string) : option (bool * string) :=
  match v with
  | a :: n :: _ => (fun addr => (String.eqb (IP_String addr) podIp, n)) <$> parseIP a
  | _ => None
  end.

(** A line of another pod whose node is not here; one of this pod, of a node
    that is here, and of one that is gone. *)
Definition others (v : list string) : bool := match of_pod v with Some (false, n) => negb (connected s n) | _ => false end.
Definition mine (v : list string) : bool := match of_pod v with Some (true, n) => connected s n | _ => false end.
Definition stale (v : list string) : bool := match of_pod v with Some (true, n) => negb (connected s n) | _ => false end.

Definition own_rows : list (list string) := (fun n => [podIp; n]) <$> node_names s.

Lemma pod_lines rows st :
  foldl (pod_line podIp s) st rows =
  mkPodScan (hostsBuffer st +:+ written (List.filter others rows)) (update st || existsb stale rows)
    (own st + length (List.filter mine rows)).
Proof.
  revert st. induction rows as [|v rows IH]; intros [buf upd n].
  - cbn. by rewrite append_nil_r, orb_false_r, Nat.add_0_r.
  - cbn [foldl List.filter existsb]. rewrite IH. clear IH.
    generalize (List.filter others rows) (List.filter mine rows) (existsb stale rows). intros ro rm bs. unfold others, mine, stale, of_pod, pod_line.
    destruct v as [|a [|b rest]]; try done. destruct (parseIP a) as [ip|]; [|done]. cbn [fmap option_fmap option_map hostsBuffer update own].
    destruct (String.eqb _ podIp), (connected s b); cbn [negb hostsBuffer update own orb length]; f_equal; try (by rewrite ?orb_true_r, ?orb_false_r); try lia.
    change (written (?v :: ?l)) with (gapped v +:+ line_end +:+ written l). by rewrite writeLine_gapped, !append_assoc by done.
Qed.

Lemma own_written names buf :
  foldl (fun buf v => buf +:+ podIp +:+ gap +:+ v +:+ line_end) buf names = buf +:+ written ((fun n => [podIp; n]) <$> names).
Proof.
  revert buf. induction names as [|n names IH]; intros buf; [by rewrite append_nil_r|]. cbn [foldl]. rewrite IH, fmap_cons.
  change (written ([podIp; n] :: ?l)) with ((podIp +:+ gap +:+ n) +:+ line_end +:+ written l). by rewrite !append_assoc.
Qed.

Lemma filterPodIp_spec rows :
  filterPodIp podIp s rows =
  if existsb stale rows || negb (length (List.filter mine rows) =? length (node_names s))%nat
  then (written (List.filter others rows ++ own_rows), true) else (EmptyString, false).
Proof.
  unfold filterPodIp. rewrite pod_lines. cbn [hostsBuffer update own]. rewrite own_written. change (EmptyString +:+ ?x) with x.
  cbn [orb Nat.add]. fold own_rows. by rewrite <- written_app.
Qed.

Lemma of_pod_own n ip : parseIP podIp = Some ip -> IP_String ip = podIp -> of_pod [podIp; n] = Some (true, n).
Proof. intros Hp Hs. cbn [of_pod]. rewrite Hp. cbn [fmap option_fmap option_map]. by rewrite Hs, String.eqb_refl. Qed.

Lemma node_names_connected n : In n (node_names s) -> connected s n = true.
Proof.
  intros Hn. apply bool_decide_eq_true. apply list_elem_of_In in Hn. unfold node_names in Hn.
  apply list_elem_of_fmap in Hn as ([n' r] & -> & Hin). apply elem_of_go_range in Hin. by exists r.
Qed.

Lemma List_filter_none {A} (f : A -> bool) l : (forall x, In x l -> f x = false) -> List.filter f l = [].
Proof. induction l as [|x l IH]; [done|]. intros Hf. cbn. rewrite Hf by by left. apply IH. intros y Hy. apply Hf. by right. Qed.

Lemma List_filter_each {A} (f : A -> bool) l : (forall x, In x l -> f x = true) -> List.filter f l = l.
Proof. induction l as [|x l IH]; [done|]. intros Hf. cbn. rewrite Hf by by left. f_equal. apply IH. intros y Hy. apply Hf. by right. Qed.

Lemma not_exists {A} (f : A -> bool) l : (forall x, In x l -> f x = false) -> existsb f l = false.
Proof. intros Hf. apply not_true_is_false. intros (x & Hx & E)%existsb_exists. by rewrite Hf in E. Qed.

Lemma in_own_rows v ip : parseIP podIp = Some ip -> IP_String ip = podIp -> In v own_rows ->
  exists n, of_pod v = Some (true, n) /\ connected s n = true.
Proof.
  intros Hp Hs Hv. unfold own_rows in Hv. apply in_map_iff in Hv as (n & <- & Hn).
  exists n. split; [by apply (of_pod_own n ip)|by apply node_names_connected].
Qed.

(** Nothing is left to do to what was written. *)
Lemma filterPodIp_settled rows ip : parseIP podIp = Some ip -> IP_String ip = podIp ->
  filterPodIp podIp s (List.filter others rows ++ own_rows) = (EmptyString, false).
Proof.
  intros Hp Hs. rewrite filterPodIp_spec.
  assert (forall v, In v (List.filter others rows) -> mine v = false /\ stale v = false) as Ho.
  { intros v [_ Hv]%filter_In. unfold others, mine, stale in *. by destruct (of_pod v) as [[[] n]|]. }
  assert (forall v, In v own_rows -> mine v = true /\ stale v = false) as Hm.
  { intros v Hv. destruct (in_own_rows v ip Hp Hs Hv) as (n & E & Hc). unfold mine, stale. by rewrite E, Hc. }
  rewrite existsb_app, List.filter_app.
  rewrite (not_exists stale (List.filter others rows)) by (intros v Hv; by destruct (Ho v Hv)).
  rewrite (not_exists stale own_rows) by (intros v Hv; by destruct (Hm v Hv)).
  rewrite (List_filter_none mine (List.filter others rows)) by (intros v Hv; by destruct (Ho v Hv)).
  rewrite (List_filter_each mine own_rows) by (intros v Hv; by destruct (Hm v Hv)).
  cbn [orb app]. unfold own_rows. by rewrite length_fmap, Nat.eqb_refl.
Qed.

(** A row of other pods is good if it is readable. *)
Lemma good_others rows : Forall (fun row => Forall word row /\ fits (gapped row) = true) rows -> Forall good (List.filter others rows).
Proof.
  rewrite !Forall_forall. intros Hr v Hv. apply list_elem_of_In, filter_In in Hv as [Hv Ho].
  destruct (Hr v) as [Hw Hf]; [by apply list_elem_of_In|]. split; [done..|]. unfold others, of_pod in Ho.
  destruct v as [|a [|b rest]]; try done. by destruct (parseIP a).
Qed.

(** The nodes a list of rows says are connected to this pod. *)
Definition claimed (rows : list (list string)) : list string :=
  omap (fun v => match of_pod v with Some (true, n) => Some n | _ => None end) rows.

Lemma claimed_written rows ip : parseIP podIp = Some ip -> IP_String ip = podIp ->
  claimed (List.filter others rows ++ own_rows) = node_names s.
Proof.
  intros Hp Hs. unfold claimed. rewrite omap_app. replace (omap _ (List.filter others rows)) with (@nil string).
  - unfold own_rows. induction (node_names s) as [|n l IH]; [done|]. rewrite fmap_cons. cbn [app omap list_omap] in *.
    rewrite (of_pod_own n ip) by done. f_equal. exact IH.
  - symmetry. induction rows as [|v rows IH]; [done|]. cbn [List.filter]. destruct (others v) eqn:E; [|done].
    cbn [omap list_omap]. unfold others in E. by destruct (of_pod v) as [[[] n]|].
Qed.

(** When nothing has to be written, the rows already say what they should, as
    long as they name no node twice. *)
Lemma claimed_unchanged rows : NoDup (claimed rows) -> snd (filterPodIp podIp s rows) = false -> claimed rows ≡ₚ node_names s.
Proof.
  rewrite filterPodIp_spec. intros Hnd Hu. destruct (existsb stale rows) eqn:Hst; [done|].
  destruct (Nat.eqb_spec (length (List.filter mine rows)) (length (node_names s))) as [Hlen|]; [|done].
  assert (length (claimed rows) = length (List.filter mine rows) /\ forall n, n ∈ claimed rows -> connected s n = true) as [Hcl Hin].
  { clear Hlen Hnd Hu. induction rows as [|v rows IH]; [split; [done|intros n []%elem_of_nil]|].
    cbn [existsb] in Hst. apply orb_false_iff in Hst as [Hv Hst]. destruct (IH Hst) as [IH1 IH2].
    unfold claimed in *. cbn [omap list_omap List.filter]. unfold mine at 1. unfold stale in Hv.
    destruct (of_pod v) as [[[] n]|]; [|by split..]. destruct (connected s n) eqn:Hc; [|done].
    cbn [length]. split; [by f_equal|]. intros m [->|Hm]%elem_of_cons; [done|by apply IH2]. }
  apply submseteq_length_Permutation; [|lia]. apply NoDup_submseteq; [done|]. intros n Hn.
  specialize (Hin n Hn). apply bool_decide_eq_true in Hin as [r Hr]. unfold node_names.
  apply list_elem_of_fmap. exists (n, r). by rewrite elem_of_go_range.
Qed.

End FilterLaws.

(** *** A pod and the config map *)

Record world : Type := mkWorld { w_file : string; w_cm : ConfigMap; w_ctx : TunnelContext }.

(** Updates are taken; the endpoints are not asked for. *)
Definition serve (q : request) (w : world) : world * (Ans q + api_error) :=
  match q with
  | OpenHosts => (w, inl (w_file w))
  | Connected => (w, inl (w_ctx w))
  | GetEndpoints => (w, inr NotFound)
  | GetHostsConfig => (w, inl (w_cm w))
  | UpdateHostsConfig cm => (mkWorld (w_file w) cm (w_ctx w), inl tt)
  end.

(** The kubelet brings the mounted file up to date. *)
Definition mounted (w : world) : world := mkWorld (hosts_of (w_cm w)) (w_cm w) (w_ctx w).

(** The address of the pod, as it is printed, and what a hosts file holds. *)
Record own_address (podIp : string) : Prop := {
  oa_word : word podIp;
  oa_parses : exists ip, parseIP podIp = Some ip /\ IP_String ip = podIp
}.

Definition readable (rows : list (list string)) : Prop := Forall (fun row => Forall word row /\ fits (gapped row) = true) rows.

(** A pass that finds nothing to do. *)
Lemma syncPodIP_quiet `{GoRange} podIp w : w_file w = hosts_of (w_cm w) ->
  snd (filterPodIp podIp (w_ctx w) (cm_hosts (w_cm w))) = false ->
  run serve (syncPodIP podIp) w = (w, [OpenHosts; Connected], inl tt).
Proof.
  intros Hw Hu. unfold syncPodIP. cbn [run serve ask map_error bind call andthen snd fst]. rewrite Hw.
  fold (cm_hosts (w_cm w)). by rewrite Hu.
Qed.

Definition with_hosts (cm : ConfigMap) (data : gmap string string) (hosts : string) : ConfigMap :=
  mkConfigMap (cm_meta cm) (Some (<[COREFILE_HOSTS_FILE := hosts]> data)).

(** A pass that writes. *)
Lemma syncPodIP_writes `{GoRange} podIp cm s data hosts : cm_Data cm = Some data ->
  filterPodIp podIp s (cm_hosts cm) = (hosts, true) ->
  (run serve (syncPodIP podIp) (mkWorld (hosts_of cm) cm s)).1.1 = mkWorld (hosts_of cm) (with_hosts cm data hosts) s.
Proof.
  intros Hdata Hf. unfold syncPodIP. cbn [run serve ask map_error bind call andthen w_file w_ctx w_cm].
  fold (cm_hosts cm). rewrite Hf. cbn [snd negb run serve ask map_error bind call andthen w_cm w_ctx]. rewrite Hf.
  unfold write_hosts. by rewrite Hdata.
Qed.

(** The rows of a config map that was written. *)
Lemma rows_with_hosts `{GoRange} podIp s cm data hosts ip : parseIP podIp = Some ip -> IP_String ip = podIp ->
  readable (cm_hosts cm) -> readable ((fun n => [podIp; n]) <$> node_names s) ->
  filterPodIp podIp s (cm_hosts cm) = (hosts, true) ->
  cm_hosts (with_hosts cm data hosts) = (List.filter (others podIp s) (cm_hosts cm) ++ own_rows podIp s)%list.
Proof.
  intros Hp Hs Hr Hn Hf.
  assert (Forall good (own_rows podIp s)) as Hgo.
  { unfold readable in Hn. apply Forall_fmap in Hn. apply Forall_fmap. eapply Forall_impl; [exact Hn|].
    intros n [Hw Hfit]. split; [done..|]. by exists ip. }
  assert (hosts_of (with_hosts cm data hosts) = hosts) as Hh.
  { unfold hosts_of, with_hosts. cbn [cm_Data mp from_option id]. by rewrite lookup_insert_eq. }
  unfold cm_hosts at 1. rewrite Hh. rewrite filterPodIp_spec in Hf. destruct (_ || _); [|done]. injection Hf as <-.
  apply hosts2Array_written, Forall_app_2; [by apply good_others|done].
Qed.

(** C6: A pod that finds its hosts file out of step with the nodes connected
    to it writes one that lists exactly these nodes under its own address, and
    keeps of the other pods' lines those for the nodes that are not connected
    here.  Once the file is mounted again, the next pass reads it and
    has nothing to write.  A file whose own lines name each node once is in
    step when nothing is written; with two lines for one node it may not be,
    because only their number is compared ([missing_node_not_seen]).  The pod's
    address is one that Go parses and prints as it is given, the config map has
    data (without, the pass panics, [no_data_panics]), and the lines and node
    names are words that fit the scanner's buffer. *)
Theorem hosts_settle `{GoRange} podIp cm s :
  own_address podIp -> is_Some (cm_Data cm) ->
  readable (cm_hosts cm) -> readable ((fun n => [podIp; n]) <$> node_names s) ->
  let w1 := (run serve (syncPodIP podIp) (mkWorld (hosts_of cm) cm s)).1.1 in
  (NoDup (claimed podIp (cm_hosts cm)) \/ w_cm w1 <> cm -> claimed podIp (cm_hosts (w_cm w1)) ≡ₚ node_names s)
  /\ List.filter (others podIp s) (cm_hosts (w_cm w1)) = List.filter (others podIp s) (cm_hosts cm)
  /\ run serve (syncPodIP podIp) (mounted w1) = (mounted w1, [OpenHosts; Connected], inl tt).
Proof.
  intros [_ (ip & Hp & Hs)] [data Hdata] Hr Hn.
  destruct (filterPodIp podIp s (cm_hosts cm)) as [hosts [|]] eqn:Hf.
  - rewrite (syncPodIP_writes podIp cm s data hosts) by done. cbn [w_cm].
    pose proof (rows_with_hosts podIp s cm data hosts ip Hp Hs Hr Hn Hf) as Hrows. rewrite Hrows.
    rewrite (claimed_written podIp s _ ip) by done. split; [by intros _|]. split.
    + rewrite List.filter_app. rewrite (List_filter_none (others podIp s) (own_rows podIp s)).
      * rewrite app_nil_r. apply List_filter_each. by intros v [_ Hv]%filter_In.
      * intros v Hv. destruct (in_own_rows podIp s v ip Hp Hs Hv) as (n & E & _). unfold others. by rewrite E.
    + apply syncPodIP_quiet; [done|]. cbn [mounted w_cm w_ctx]. rewrite Hrows. by rewrite (filterPodIp_settled podIp s _ ip).
  - rewrite syncPodIP_quiet by (done || (cbn [w_cm w_ctx]; by rewrite Hf)). cbn [fst w_cm]. split; [|split; [done|]].
    + intros [Hnd|Hcm]; [|done]. apply claimed_unchanged; [done|]. by rewrite Hf.
    + apply syncPodIP_quiet; [done|]. cbn [mounted w_cm w_ctx]. by rewrite Hf.
Qed.

Lemma own_address_ok podIp : word podIp -> option_map IP_String (parseIP podIp) = Some podIp -> own_address podIp.
Proof. intros Hw H. split; [done|]. destruct (parseIP podIp) as [ip|]; [|done]. injection H as E. by exists ip. Qed.

Definition demo_ctx : TunnelContext := mkContext (list_to_map [("n1", 0%nat); ("n2", 1%nat)]) ∅ ∅ [] [] 2.
Definition demo_cm (hosts : string) : ConfigMap := mkConfigMap (named "edge-system" "tunnel-nodes") (Some {[ COREFILE_HOSTS_FILE := hosts ]}).
Definition demo_hosts : string :=
  "10.0.0.7 gone" +:+ line_end +:+ "10.0.0.8	n1" +:+ line_end +:+ "10.0.0.8 n3 alias" +:+ line_end +:+ "nowhere n4" +:+ line_end.

Lemma hosts_settle_witness :
  let _ := range_in_key_order in
  let w1 := (run serve (syncPodIP "10.0.0.7") (mkWorld demo_hosts (demo_cm demo_hosts) demo_ctx)).1.1 in
  own_address "10.0.0.7" /\ cm_hosts (w_cm w1) = [["10.0.0.8"; "n3"; "alias"]; ["10.0.0.7"; "n1"]; ["10.0.0.7"; "n2"]] /\
  (claimed "10.0.0.7" (cm_hosts (w_cm w1)) ≡ₚ ["n1"; "n2"]
   /\ List.filter (others "10.0.0.7" demo_ctx) (cm_hosts (w_cm w1)) = [["10.0.0.8"; "n3"; "alias"]]
   /\ run serve (syncPodIP "10.0.0.7") (mounted w1) = (mounted w1, [OpenHosts; Connected], inl tt)).
Proof.
  intros R w1. assert (own_address "10.0.0.7") as Ho by (apply own_address_ok; [apply (bool_decide_unpack _); by vm_compute|by vm_compute]).
  split; [done|]. split; [by vm_compute|].
  destruct (@hosts_settle R "10.0.0.7" (demo_cm demo_hosts) demo_ctx) as (H1 & H2 & H3).
  - done.
  - by eexists.
  - apply (bool_decide_unpack _). by vm_compute.
  - apply (bool_decide_unpack _). by vm_compute.
  - split; [|exact (conj H2 H3)]. apply H1. left. apply (bool_decide_unpack _). by vm_compute.
Defined.

(** A line too many for one node hides that another has none: only their
    number is compared. *)
Example missing_node_not_seen :
  let hosts := "10.0.0.7 n1" +:+ line_end +:+ "10.0.0.7 n1" +:+ line_end in
  @filterPodIp range_in_key_order "10.0.0.7" demo_ctx (hosts2Array hosts) = (EmptyString, false).
Proof. by vm_compute. Qed.

(** An endpoints object without a ready address has no subset. *)
Example no_ready_pod_panics :
  filterEndpoint (Some (mkEndpoints (named "edge-system" "tunnel-cloud") None)) (hosts2Array "10.0.0.7 n1") = Panic "index out of range".
Proof. by vm_compute. Qed.

(** A config map without data is read as an empty file, and then written to. *)
Example no_data_panics :
  let w := mkWorld EmptyString (mkConfigMap (named "edge-system" "tunnel-nodes") None) demo_ctx in
  (run serve (@syncPodIP range_in_key_order "10.0.0.7") w).2 = inr (Crash "assignment to entry in nil map").
Proof. by vm_compute. Qed.

End Hosts.
