(* ===== verification/TunnelRoute.v ===== *)
(** * tunnel: which side of the tunnel a name is on (connect/route.go)

    Every tunnel-cloud pod loads the routes from mounted files; the elected
    one compares them with the cluster every ten seconds and writes them back.
    The theorem: two passes settle the routes, and what they then say of a
    service is so of all its endpoints. *)

From Stdlib Require Import Ascii String ZArith Lia.
From stdpp Require Import base strings gmap numbers sorting list.
From S2P Require Import Prelude GoStd GoStrings GoScanner K8s Requests GoNet TunnelContext TunnelNodes.
Import Hosts.

Local Open Scope string_scope.
Local Open Scope go_scope.

Module Routes.

Record RouteCache : Type := mkRouteCache {
  EdgeNode : gmap string string;
  CloudNode : gmap string string;
  ServicesMap : gmap string string;
  UserServicesMap : gmap string string
}.

Definition Route : RouteCache := mkRouteCache ∅ ∅ ∅ ∅.

Definition set_edge (f : gmap string string -> gmap string string) (r : RouteCache) : RouteCache :=
  mkRouteCache (f (EdgeNode r)) (CloudNode r) (ServicesMap r) (UserServicesMap r).
Definition set_cloud (f : gmap string string -> gmap string string) (r : RouteCache) : RouteCache :=
  mkRouteCache (EdgeNode r) (f (CloudNode r)) (ServicesMap r) (UserServicesMap r).
Definition set_services (f : gmap string string -> gmap string string) (r : RouteCache) : RouteCache :=
  mkRouteCache (EdgeNode r) (CloudNode r) (f (ServicesMap r)) (UserServicesMap r).
Definition set_user (f : gmap string string -> gmap string string) (r : RouteCache) : RouteCache :=
  mkRouteCache (EdgeNode r) (CloudNode r) (ServicesMap r) (f (UserServicesMap r)).

(** ** The files *)

(** The lines of exactly two fields. *)
Definition service2Array (content : string) : list (string * string) :=
  omap (fun line => match Fields line with [a; b] => Some (a, b) | _ => None end) (scan_lines content).

(** The address and the name of a line are its first two fields; there may be
    none. *)
Definition add_host (m : gmap string string) (v : list string) : outcome (gmap string string) :=
  match v with
  | ip :: n :: _ => Ret (<[n := ip]> m)
  | _ => Panic "index out of range"
  end.

Fixpoint add_hosts (m : gmap string string) (rows : list (list string)) : outcome (gmap string string) :=
  match rows with
  | [] => Ret m
  | v :: rows => let* m := add_host m v in add_hosts m rows
  end.

Definition add_services (m : gmap string string) (l : list (string * string)) : gmap string string :=
  foldl (fun m kv => <[fst kv := snd kv]> m) m l.

(** The four files are opened before anything is loaded; [None] is a file
    that cannot be opened. *)
Record files : Type := mkFiles { f_hosts : option string; f_cloud : option string; f_services : option string; f_user : option string }.

(** The contents are added to the maps: an entry that has left its file stays. *)
Definition loadCacheFromLocalFile (fs : files) (r : RouteCache) : outcome (RouteCache * bool) :=
  match f_hosts fs, f_cloud fs, f_services fs, f_user fs with
  | Some hosts, Some cloudNodeFile, Some servicesFile, Some userServiceFile =>
      let* edge := add_hosts (EdgeNode r) (hosts2Array hosts) in
      let* cloud := add_hosts (CloudNode r) (hosts2Array cloudNodeFile) in
      Ret (mkRouteCache edge cloud (add_services (ServicesMap r) (service2Array servicesFile))
             (add_services (UserServicesMap r) (service2Array userServiceFile)), true)
  | _, _, _, _ => Ret (r, false)
  end.

(** ** The checks of [syncCache] *)

(** The edge nodes in the file are those of the cache. *)
Fixpoint edge_rows_differ (m : gmap string string) (rows : list (list string)) : outcome bool :=
  match rows with
  | [] => Ret false
  | (ip :: n :: _) :: rows =>
      let* rest := edge_rows_differ m rows in
      Ret (match m !! n with Some value => negb (String.eqb value ip) | None => true end || rest)
  | _ :: _ => Panic "index out of range"
  end.

Definition edge_changed (m : gmap string string) (edgeNodes : list (list string)) : outcome bool :=
  if negb (length edgeNodes =? size m)%nat then Ret true else edge_rows_differ m edgeNodes.

(** The last internal address, or none. *)
Definition InternalIP (n : Node) : string :=
  foldl (fun ip addr => if String.eqb (na_Type addr) "InternalIP" then na_Address addr else ip) EmptyString (sl (node_Addresses n)).

Definition cloud_node (st : gmap string string * bool) (n : Node) : gmap string string * bool :=
  let '(m, updateFlag) := st in
  let interIp := InternalIP n in
  match m !! Name (node_meta n) with
  | Some v => if String.eqb v interIp then st else (<[Name (node_meta n) := interIp]> m, true)
  | None => (<[Name (node_meta n) := interIp]> m, true)
  end.

(** Deleting the keys that a test does not find. *)
Definition keep_known (known : string -> bool) (m : gmap string string) : gmap string string * bool :=
  let m' := filter (fun kv => known (fst kv) = true) m in
  (m', negb (bool_decide (m' = m))).

Definition check_cloud (cloudNodes : list Node) (m : gmap string string) : gmap string string * bool :=
  let '(m, flag) := foldl cloud_node (m, false) cloudNodes in
  let '(m, gone) := keep_known (fun name => existsb (fun n => String.eqb (Name (node_meta n)) name) cloudNodes) m in
  (m, flag || gone).

(** The nodes behind a service, in its first subset; the addresses for
    endpoints named [kubernetes], which have no node. *)
Definition endpoint_nodes (eps : Endpoints) : list string :=
  match sl (eps_Subsets eps) with
  | [] => []
  | subset :: _ =>
      omap (fun ep => if String.eqb (Name (eps_meta eps)) "kubernetes" then Some (ea_IP ep) else ea_NodeName ep)
        (sl (es_Addresses subset))
  end.

Definition all_in (m : gmap string string) (epnodes : list string) : bool :=
  forallb (fun v => bool_decide (is_Some (m !! v))) epnodes.

Definition service_key (svc : Service) : string := Name (svc_meta svc) +:+ "." +:+ Namespace (svc_meta svc).

(** One service: an entry that its endpoints contradict is deleted, and a new
    entry is made only where there was none. *)
Definition check_service (edge cloud : gmap string string) (key : string) (epnodes : list string)
    (st : gmap string string * bool) : gmap string string * bool :=
  let '(m, updateFlag) := st in
  match m !! key with
  | Some v =>
      if String.eqb v EDGE then if all_in edge epnodes then st else (delete key m, true)
      else if String.eqb v CLOUD then if all_in cloud epnodes then st else (delete key m, true)
      else st
  | None =>
      if all_in edge epnodes then (<[key := EDGE]> m, true)
      else if all_in cloud epnodes then (<[key := CLOUD]> m, true)
      else st
  end.

(** ** The pass *)

Inductive route_request : Type :=
| OpenFiles
| OpenEdgeNodes
| ListCloudNodes   (** [superedge.io/node-cloud=enable] *)
| ListMasters      (** [node-role.kubernetes.io/master] *)
| ListServices
| EndpointsOf (ns name : string)
| GetCacheConfig
| UpdateCacheConfig (cm : ConfigMap).

Definition RouteAns (q : route_request) : Type :=
  match q with
  | OpenFiles => files
  | OpenEdgeNodes => string
  | ListCloudNodes | ListMasters => list Node
  | ListServices => list Service
  | EndpointsOf _ _ => Endpoints
  | GetCacheConfig => ConfigMap
  | UpdateCacheConfig _ => unit
  end.

(** The routes after the pass, and its error. *)
Notation pass := (prog RouteAns (RouteCache * option stop)).

Definition failed (r : RouteCache) (e : api_error) : pass := Done (r, Some (Failed e)).
Definition crashed (r : RouteCache) (why : string) : pass := Done (r, Some (Crash why)).

Notation "'try' x ':=' q 'at' r 'in' k" := (Ask q (fun a => match a with inr e => failed r e | inl x => k end))
  (at level 10, x name, q at level 100, r at level 100, k at level 200).

Section Sync.
Context `{GoRange}.

Definition edge_lines (m : gmap string string) : string :=
  foldl (fun buf kv => buf +:+ snd kv +:+ gap +:+ fst kv +:+ line_end) EmptyString (go_range m).
Definition service_lines (m : gmap string string) : string :=
  foldl (fun buf kv => buf +:+ fst kv +:+ gap +:+ snd kv +:+ line_end) EmptyString (go_range m).

Definition EdgeNodesFile : string := "edge_nodes".
Definition CloudNodesFile : string := "cloud_nodes".
Definition ServicesFile : string := "services".

Definition with_routes (r : RouteCache) (data : gmap string string) : gmap string string :=
  <[ServicesFile := service_lines (ServicesMap r)]>
    (<[CloudNodesFile := edge_lines (CloudNode r)]> (<[EdgeNodesFile := edge_lines (EdgeNode r)]> data)).

Definition write_routes (r : RouteCache) : pass :=
  try cfg := GetCacheConfig at r in
  match cm_Data cfg with
  | None => crashed r "assignment to entry in nil map"
  | Some data =>
      try done := UpdateCacheConfig (mkConfigMap (cm_meta cfg) (Some (with_routes r data))) at r in
      Done (r, None)
  end.

(** The loop over the services, and then what follows it. *)
Fixpoint check_services (edge cloud : gmap string string) (svcs : list Service) (st : gmap string string * bool)
    (k : gmap string string * bool -> pass) : pass :=
  match svcs with
  | [] => k st
  | svc :: svcs =>
      Ask (EndpointsOf (Namespace (svc_meta svc)) (Name (svc_meta svc))) (fun a =>
        check_services edge cloud svcs
          (match a with
           | inr _ => st
           | inl eps => match endpoint_nodes eps with
                        | [] => st
                        | epnodes => check_service edge cloud (service_key svc) epnodes st
                        end
           end) k)
  end.

Definition known_service (svcs : list Service) (key : string) : bool := existsb (fun svc => String.eqb (service_key svc) key) svcs.

Definition syncCache (r : RouteCache) : pass :=
  try fs := OpenFiles at r in
  match loadCacheFromLocalFile fs r with
  | Panic why => crashed r why
  | Ret (r, false) => failed r (OtherError "open")
  | Ret (r, true) =>
      try edgeFile := OpenEdgeNodes at r in
      match edge_changed (EdgeNode r) (hosts2Array edgeFile) with
      | Panic why => crashed r why
      | Ret updateFlag =>
          try cloudNodes := ListCloudNodes at r in
          try masters := ListMasters at r in
          let '(cloud, changed) := check_cloud (cloudNodes ++ masters) (CloudNode r) in
          let r := set_cloud (fun _ => cloud) r in
          try svcs := ListServices at r in
          check_services (EdgeNode r) cloud svcs (ServicesMap r, updateFlag || changed) (fun st =>
            let '(services, gone) := keep_known (known_service svcs) (fst st) in
            let r := set_services (fun _ => services) r in
            if snd st || gone then write_routes r else Done (r, None))
      end
  end.

End Sync.

(** ** Adding to a map *)

Definition add_all (m : gmap string string) (l : list (string * string)) : gmap string string :=
  foldl (fun m kv => <[fst kv := snd kv]> m) m l.




Lemma add_all_Forall (P : string -> string -> Prop) m l : map_Forall P m -> Forall (fun kv => P (fst kv) (snd kv)) l ->
  map_Forall P (add_all m l).
Proof.
  revert m. induction l as [|[k v] l IH]; intros m Hm Hl; [done|]. apply Forall_cons in Hl as [Hk Hl].
  apply IH; [|done]. by apply map_Forall_insert_2.
Qed.






(** ** Reading back what was written *)


(** Entries that survive their file. *)
Definition good_host (n ip : string) : Prop := good [ip; n].
Definition good_service (key side : string) : Prop := Forall word [key; side] /\ fits (gapped [key; side]) = true.




(** ** One service *)




(** ** All services, against a steady cluster *)

Record route_world : Type := mkRouteWorld {
  rw_hosts : string;                                   (** the hosts file *)
  rw_mount : gmap string string;                       (** the mounted routes *)
  rw_cm : ConfigMap;                                   (** the config map they are mounted from *)
  rw_nodes : list Node;
  rw_services : list Service;
  rw_eps : string -> string -> option Endpoints
}.

Definition UserServiceFile : string := "user_services".
Definition is_cloud (n : Node) : bool := bool_decide (mp (Labels (node_meta n)) !! "superedge.io/node-cloud" = Some "enable").
Definition is_master (n : Node) : bool := bool_decide (is_Some (mp (Labels (node_meta n)) !! "node-role.kubernetes.io/master")).

Definition mounted_files (w : route_world) : files :=
  mkFiles (Some (rw_hosts w)) (rw_mount w !! CloudNodesFile) (rw_mount w !! ServicesFile) (rw_mount w !! UserServiceFile).

Definition reply {A : Type} (o : option A) : A + api_error := match o with Some a => inl a | None => inr NotFound end.

(** A server that takes every update. *)
Definition route_serve (q : route_request) (w : route_world) : route_world * (RouteAns q + api_error) :=
  match q with
  | OpenFiles => (w, inl (mounted_files w))
  | OpenEdgeNodes => (w, reply (rw_mount w !! EdgeNodesFile))
  | ListCloudNodes => (w, inl (List.filter is_cloud (rw_nodes w)))
  | ListMasters => (w, inl (List.filter is_master (rw_nodes w)))
  | ListServices => (w, inl (rw_services w))
  | EndpointsOf ns name => (w, reply (rw_eps w ns name))
  | GetCacheConfig => (w, inl (rw_cm w))
  | UpdateCacheConfig cm => (mkRouteWorld (rw_hosts w) (rw_mount w) cm (rw_nodes w) (rw_services w) (rw_eps w), inl tt)
  end.

(** The kubelet mounts what the config map holds. *)
Definition remount (w : route_world) : route_world :=
  mkRouteWorld (rw_hosts w) (mp (cm_Data (rw_cm w))) (rw_cm w) (rw_nodes w) (rw_services w) (rw_eps w).


Section Visits.
Context (w : route_world) (edge cloud : gmap string string).








End Visits.

(** ** The cloud nodes *)










(** ** A whole pass *)

Section Pass.
Context `{GoRange}.
Implicit Types (w : route_world) (r : RouteCache).


Definition reads w : list route_request :=
  [OpenFiles; OpenEdgeNodes; ListCloudNodes; ListMasters; ListServices]
  ++ ((fun svc => EndpointsOf (Namespace (svc_meta svc)) (Name (svc_meta svc))) <$> rw_services w).









Definition cycle (wr : route_world * RouteCache) : route_world * RouteCache :=
  let '(w', _, (r', _)) := run route_serve (syncCache (snd wr)) (fst wr) in (remount w', r').














End Pass.

(** ** Examples *)

#[export] Instance good_dec row : Decision (good row).
Proof.
  assert (Decision (match row with ip :: _ :: _ => is_Some (parseIP ip) | _ => False end)) as Hd by (destruct row as [|ip [|n rest]]; apply _).
  destruct (decide (Forall word row /\ fits (gapped row) = true /\ match row with ip :: _ :: _ => is_Some (parseIP ip) | _ => False end)) as [H|H].
  - left. destruct H as (H1 & H2 & H3). by split.
  - right. intros [H1 H2 H3]. by apply H.
Defined.

#[export] Instance good_host_dec n ip : Decision (good_host n ip) := good_dec [ip; n].
#[export] Instance good_service_dec k v : Decision (good_service k v).
Proof. unfold good_service. apply _. Defined.

Definition demo_node (name : string) (label : string) (addrs : list NodeAddress) : Node :=
  mkNode (with_labels (named EmptyString name) (Some {[ label := "enable" ]})) None None (Some addrs).
Definition cloud1 : Node := demo_node "c1" "superedge.io/node-cloud" [mkNodeAddress "InternalIP" "192.168.0.1"].
Definition edge1 : Node := demo_node "e1" "superedge.io/node-edge" [mkNodeAddress "InternalIP" "10.9.0.1"].

Definition demo_eps (node : string) : Endpoints :=
  mkEndpoints (named "default" "web") (Some [mkEndpointSubset (Some [mkEndpointAddress "10.1.0.9" (Some node)]) None None]).

(** The service [web] moved from a cloud node to the edge node. *)
Definition demo_data : gmap string string :=
  list_to_map [(EdgeNodesFile, EmptyString); (CloudNodesFile, "192.168.0.9    c1" +:+ line_end +:+ "192.168.0.7    gone" +:+ line_end);
    (ServicesFile, "web.default    cloud" +:+ line_end +:+ "old.default    edge" +:+ line_end); (UserServiceFile, EmptyString)].
Definition demo_world (nodes : list Node) : route_world :=
  mkRouteWorld ("10.0.0.7    e1" +:+ line_end) demo_data (mkConfigMap (named "edge-system" "tunnel-cache") (Some demo_data))
    nodes [mkService (named "default" "web")] (fun ns name => if String.eqb name "web" then Some (demo_eps "e1") else None).





(** A cloud node without internal address is written as a line of one field:
    from then on every pod that loads the file panics. *)
Example cloud_without_address_crashes :
  let x := @cycle range_in_key_order (demo_world [demo_node "c1" "superedge.io/node-cloud" [mkNodeAddress "Hostname" "c1"]], Route) in
  (run route_serve (@syncCache range_in_key_order (snd x)) (fst x)).2.2 = Some (Crash "index out of range")
  /\ loadCacheFromLocalFile (mounted_files (fst x)) Route = Panic "index out of range".
Proof. by vm_compute. Qed.

(** So does a blank line in the hosts file. *)
Example blank_line_panics :
  loadCacheFromLocalFile (mkFiles (Some ("10.0.0.7    e1" +:+ line_end +:+ line_end)) (Some EmptyString) (Some EmptyString) (Some EmptyString)) Route
  = Panic "index out of range".
Proof. by vm_compute. Qed.

(** A node that has left the hosts file stays an edge node of this pod. *)
Example stale_edge_node :
  (let* ' (r, _) := loadCacheFromLocalFile (mkFiles (Some EmptyString) (Some EmptyString) (Some EmptyString) (Some EmptyString))
    (mkRouteCache {[ "e1" := "10.0.0.7" ]} ∅ ∅ ∅) in Ret (EdgeNode r !! "e1")) = Ret (Some "10.0.0.7").
Proof. by vm_compute. Qed.

(** An update that fails once is not made again: the new cloud node is in the
    cache of the elected pod, which compares the cluster with this cache. *)
Definition refusing (q : route_request) (w : route_world) : route_world * (RouteAns q + api_error) :=
  match q with UpdateCacheConfig cm => (w, inr Conflict) | q => route_serve q w end.

Definition settled_data : gmap string string :=
  list_to_map [(EdgeNodesFile, "10.0.0.7    e1" +:+ line_end); (CloudNodesFile, EmptyString);
    (ServicesFile, "web.default    edge" +:+ line_end); (UserServiceFile, EmptyString)].
Definition settled_world : route_world :=
  mkRouteWorld ("10.0.0.7    e1" +:+ line_end) settled_data (mkConfigMap (named "edge-system" "tunnel-cache") (Some settled_data))
    [cloud1; edge1] [mkService (named "default" "web")] (rw_eps (demo_world [])).

Example lost_update :
  let r1 := (run refusing (@syncCache range_in_key_order Route) settled_world).2 in
  snd r1 = Some (Failed Conflict) /\
  (run route_serve (@syncCache range_in_key_order (fst r1)) settled_world).1.2 = reads settled_world /\
  mp (cm_Data (rw_cm (run route_serve (@syncCache range_in_key_order (fst r1)) settled_world).1.1)) !! CloudNodesFile = Some EmptyString /\
  CloudNode (fst r1) !! "c1" = Some "192.168.0.1".
Proof. by vm_compute. Qed.

End Routes.
