(* ===== verification/TunnelServe.v ===== *)
(** * tunnel: the proxy servers (handlers, proxy/common, http-proxy/connect, util/proxy.go)

    What a tunnel-cloud pod does with a connection to one of its proxies, and
    with a request of an edge node for a target on the other side: who may
    use it, where the target is, and how it is reached.  The theorems: with
    the authorization switched on nothing is reached without the password of a
    user file, and no request is passed on between tunnel-cloud pods
    twice. *)

From Stdlib Require Import Ascii String ZArith Lia.
From stdpp Require Import base strings gmap numbers sorting list.
From S2P Require Import Prelude GoStd GoStrings GoBase64 K8s Requests GoNet GoHostPort TunnelContext TunnelNodes TunnelRoute.
Import Hosts Routes.

Local Open Scope string_scope.
Local Open Scope go_scope.

(** ** Forbidden targets (util/proxy.go) *)

Module NoProxy.

(** Regular expressions and lower case are the standard library's; [None] is
    a pattern that does not compile. *)
Section NoProxy.
Context (MatchString : string -> string -> option bool) (ToLower : string -> string).

Inductive matcher : Type :=
| cidrMatch (cidr : IPNet)
| ipMatch (ip : list Z) (port : string)
| domainMatch (host port : string) (matchHost : bool)
| allMatch.

Definition port_ok (mport port : string) : bool := String.eqb mport EmptyString || String.eqb mport port.

(** The host of a domain starts with a dot. *)
Definition match_ (m : matcher) (host port : string) (ip : list Z) : outcome bool :=
  match m with
  | cidrMatch cidr => Ret (Contains cidr ip)
  | ipMatch mip mport => Ret (if IP_Equal mip ip then port_ok mport port else false)
  | domainMatch mhost mport matchHost =>
      if HasSuffix host mhost || (matchHost && String.eqb host (drop_str 1 mhost)) then Ret (port_ok mport port)
      else match MatchString (drop_str 1 mhost) host with
           | None => Panic "regexp: Compile"
           | Some flag => Ret (if flag then port_ok mport port else false)
           end
  | allMatch => Ret true
  end.

Record Config : Type := mkConfig { ipMatchers : list matcher; domainMatchers : list matcher }.

(** One entry of the list; an empty host makes it void. *)
Definition entry_matcher (p : string) : option (matcher + matcher) :=
  match ParseCIDR p with
  | Some pnet => Some (inl (cidrMatch pnet))
  | None =>
      let '(phost, pport) := match SplitHostPort p with
                             | inl (h, port) => (Some h, port)
                             | inr _ => (None, EmptyString)
                             end in
      match phost with
      | Some EmptyString => None
      | _ =>
          let phost := match phost with
                       | Some h => if HasPrefix h "[" && HasSuffix h "]" then take_str (String.length h - 2) (drop_str 1 h) else h
                       | None => p
                       end in
          match ParseIP phost with
          | Some pip => Some (inl (ipMatch pip pport))
          | None =>
              match phost with
              | EmptyString => None
              | _ =>
                  let phost := if HasPrefix phost "*." then drop_str 1 phost else phost in
                  if HasPrefix phost "." then Some (inr (domainMatch phost pport false))
                  else Some (inr (domainMatch ("." +:+ phost) pport true))
              end
          end
      end
  end.

(** A star stands for everything, and ends the list. *)
Fixpoint add_entries (c : Config) (l : list string) : Config :=
  match l with
  | [] => c
  | p :: l =>
      let p := ToLower (TrimSpace p) in
      if String.eqb p EmptyString then add_entries c l
      else if String.eqb p "*" then mkConfig [allMatch] [allMatch]
      else match entry_matcher p with
           | None => add_entries c l
           | Some (inl m) => add_entries (mkConfig (ipMatchers c ++ [m]) (domainMatchers c)) l
           | Some (inr m) => add_entries (mkConfig (ipMatchers c) (domainMatchers c ++ [m])) l
           end
  end.

Definition NewHttpProxyConfig (proxy : string) : Config := add_entries (mkConfig [] []) (split_on "," proxy).

Fixpoint any_match (ms : list matcher) (host port : string) (ip : list Z) : outcome bool :=
  match ms with
  | [] => Ret false
  | m :: ms => let* b := match_ m host port ip in if b then Ret true else any_match ms host port ip
  end.

(** An address without port is not let through. *)
Definition UseProxy (cfg : Config) (addr : string) : outcome bool :=
  if String.eqb addr EmptyString then Ret true else
  match SplitHostPort addr with
  | inr _ => Ret false
  | inl (host, port) =>
      if String.eqb host "localhost" then Ret false else
      let ip := ParseIP host in
      if match ip with Some i => IsLoopback i | None => false end then Ret false else
      let addr := ToLower (TrimSpace host) in
      let* byip := match ip with Some i => any_match (ipMatchers cfg) addr port i | None => Ret false end in
      if byip then Ret false else
      let* bydomain := any_match (domainMatchers cfg) addr port (default [] ip) in
      Ret (negb bydomain)
  end.

End NoProxy.

(** Patterns that are plain texts. *)
Definition plain (pattern s : string) : option bool := Some (bool_decide (is_Some (Index s pattern))).

Example UseProxy_ex :
  let use list addr := UseProxy plain (fun s => s) (NewHttpProxyConfig (fun s => s) list) addr in
  use "10.0.0.0/8, foo.com:80" "10.1.2.3:443" = Ret false /\ use "10.0.0.0/8, foo.com:80" "11.1.2.3:443" = Ret true /\
  use "10.0.0.0/8, foo.com:80" "bar.foo.com:80" = Ret false /\ use "10.0.0.0/8, foo.com:80" "bar.foo.com:443" = Ret true /\
  use "*" "web.default:80" = Ret false /\ use EmptyString "127.0.0.2:80" = Ret false /\ use EmptyString "web.default" = Ret false.
Proof. by vm_compute. Qed.

(** A domain is also looked for inside the host. *)
Example domain_inside : UseProxy plain (fun s => s) (NewHttpProxyConfig (fun s => s) "foo.com") "foo.com.evil.org:80" = Ret false.
Proof. by vm_compute. Qed.

End NoProxy.

(** ** Where a target is (cloud_server_handler.go, common/indexers)

    The texts of errors are shortened. *)

Module Forward.

(** The fields of a service that are read here. *)
Record TService : Type := mkTService { ts_meta : ObjectMeta; ts_Type : string; ts_ClusterIP : string; ts_ExternalName : string }.

Definition ServiceTypeExternalName : string := "ExternalName".

Record forwardInfo : Type := mkForwardInfo { fi_podIp : string; fi_port : string; fi_nodeName : string }.

(** The index functions of the caches. *)
Inductive cached : Type := CPod (p : Pod) | CService (s : TService) | COther.

Definition PodIPKeyFunc (obj : cached) : list string := match obj with CPod p => [pod_PodIP p] | _ => [] end.
Definition ServiceIPKeyFunc (obj : cached) : list string := match obj with CService s => [ts_ClusterIP s] | _ => [] end.

(** The caches, once [InitCache] is over; [None] is an indexer that has not
    been set.  [ResolveEndpoint] is that of k8s.io/apiserver. *)
Record caches : Type := mkCaches {
  NodeLister : string -> Node + api_error;
  ServiceLister : string -> string -> TService + api_error;
  serviceIndexer : option (list TService);
  podIndexer : option (list Pod);
  ResolveEndpoint : string -> string -> Z -> (string * string) + api_error
}.

Section Caches.
Context (c : caches) (routes : RouteCache).

Definition GetNodeByPodIP (podIp : string) : string + api_error :=
  match podIndexer c with
  | None => inr (OtherError "podIndexer is not initialized")
  | Some pods =>
      match List.filter (fun p => existsb (String.eqb podIp) (PodIPKeyFunc (CPod p))) pods with
      | [] => inr NotFound
      | p :: _ => inl (pod_NodeName p)
      end
  end.

Definition GetServiceByClusterIP (clusterIp : string) : TService + api_error :=
  match serviceIndexer c with
  | None => inr (OtherError "serviceIndexer is not initialized")
  | Some svcs =>
      match List.filter (fun s => existsb (String.eqb clusterIp) (ServiceIPKeyFunc (CService s))) svcs with
      | [] => inr NotFound
      | s :: _ => inl s
      end
  end.

Definition getForwardInfoFromEdgeService (svc : TService) (port : string) : forwardInfo + api_error :=
  match ParseInt port 32 with
  | None => inr (OtherError "strconv.ParseInt")
  | Some p =>
      match ResolveEndpoint c (Namespace (ts_meta svc)) (Name (ts_meta svc)) p with
      | inr e => inr e
      | inl (host, port) =>
          match GetNodeByPodIP host with
          | inr e => inr e
          | inl nodeName => inl (mkForwardInfo host port nodeName)
          end
      end
  end.

(** Where to, and whether it is dialled from here. *)
Notation found := ((option forwardInfo * bool) + api_error)%type.

(** What a table says of a service; an entry of another value says nothing. *)
Definition by_table (table : gmap string string) (svc : TService) (port : string) : option found :=
  match table !! (Name (ts_meta svc) +:+ "." +:+ Namespace (ts_meta svc)) with
  | Some v =>
      if String.eqb v CLOUD then Some (inl (None, true))
      else if String.eqb v EDGE then
        Some (match getForwardInfoFromEdgeService svc port with inl info => inl (Some info, false) | inr e => inr e end)
      else None
  | None => None
  end.

Definition resolvForwardInfo (svc : TService) (port : string) : found :=
  if String.eqb (ts_Type svc) ServiceTypeExternalName then
    inl (Some (mkForwardInfo (ts_ExternalName svc) port EmptyString), true)
  else match by_table (UserServicesMap routes) svc port with
       | Some r => r
       | None =>
           match by_table (ServicesMap routes) svc port with
           | Some r => r
           | None => inr (OtherError "failed to forward service request")
           end
       end.

(** A name is a node, then a service; anything else is outside the cluster.
    An address is a service, then a pod. *)
Definition getForwardInfo (host port : string) : found :=
  match ParseIP host with
  | None =>
      match NodeLister c host with
      | inl n =>
          let info := mkForwardInfo (InternalIP n) port (Name (node_meta n)) in
          if bool_decide (is_Some (CloudNode routes !! Name (node_meta n))) then inl (Some info, true)
          else if bool_decide (is_Some (EdgeNode routes !! Name (node_meta n))) then inl (Some info, false)
          else inr (OtherError ("node " +:+ Name (node_meta n) +:+ " is not registered with routeCache"))
      | inr _ =>
          match split_on "." host with
          | [name; ns] =>
              match ServiceLister c ns name with
              | inl svc => resolvForwardInfo svc port
              | inr NotFound => inl (None, true)
              | inr e => inr e
              end
          | _ => inl (None, true)
          end
      end
  | Some _ =>
      match GetServiceByClusterIP host with
      | inl svc => resolvForwardInfo svc port
      | inr NotFound =>
          match GetNodeByPodIP host with
          | inl nodeName => inl (Some (mkForwardInfo host port nodeName), false)
          | inr NotFound => inl (None, true)
          | inr e => inr e
          end
      | inr e => inr e
      end
  end.

End Caches.

(** What is not dialled from here has a target on a node. *)
Lemma forward_has_info c routes host port r : getForwardInfo c routes host port = inl (r, false) -> is_Some r.
Proof.
  assert (forall table svc, by_table c table svc port = Some (inl (r, false)) -> is_Some r) as Ht.
  { intros table svc. unfold by_table. destruct (table !! _) as [v|]; [|done]. destruct (String.eqb v CLOUD); [done|].
    destruct (String.eqb v EDGE); [|done]. destruct (getForwardInfoFromEdgeService c svc port) as [info|e]; [|done]. by intros [= <-]. }
  assert (forall svc, resolvForwardInfo c routes svc port = inl (r, false) -> is_Some r) as Hs.
  { intros svc. unfold resolvForwardInfo. destruct (String.eqb _ _); [done|].
    destruct (by_table c (UserServicesMap routes) svc port) as [f|] eqn:Eu; [intros ->; by eapply Ht|].
    destruct (by_table c (ServicesMap routes) svc port) as [f|] eqn:Es; [intros ->; by eapply Ht|done]. }
  unfold getForwardInfo. repeat case_match; try done; try (by apply Hs); intros [= <-]; done.
Qed.

End Forward.

(** ** The servers *)

Module Serve.
Import Forward.

(** A request, as far as it is looked at; [rq_TraceIds] are the values of the
    header [Traceid], if it has any. *)
Record http_request : Type := mkRequest {
  rq_Method : string;
  rq_Host : string;
  rq_Scheme : string;
  rq_TraceIds : option (list string);
  rq_ProxyAuth : string;
  rq_Raw : list Z
}.

Definition MethodConnect : string := "CONNECT".

(** What the servers ask of the world.  [RelayConn] and [RelayNode] are the
    loops that copy bytes between the client and a connection, or a node, and
    return when the client's side is over. *)
Inductive io : Type :=
| ReadRequest
| NewV4
| Stat (path : string)
| ReadFile (path : string)
| Respond (code : Z) (text trace : string)
| WriteConnectMsg
| Ping (host : string)
| Dial (addr : string)
| WriteConnect (addr trace : string)   (** a CONNECT request to the dialled server *)
| WriteOriginal                        (** the client's request to the dialled server *)
| ReadResponse                         (** its status code and text *)
| RelayConn
| TunnelEndpoints
| GetNode_ (name : string)
| ConnectNode_ (node category addr trace : string)
| Send2Node_ (node : string) (msg : StreamMsg)
| RelayNode (node category uid : string)
| Attach (node category uid : string)  (** the dialled server becomes a connection of the node *)
| AddPairNode_ (node uid other : string).

Definition IoAns (q : io) : Type :=
  match q with
  | ReadRequest => http_request
  | NewV4 => string
  | ReadFile _ => string
  | ReadResponse => (Z * string)%type
  | TunnelEndpoints => Endpoints
  | GetNode_ _ => bool
  | ConnectNode_ _ _ _ _ => string
  | _ => unit
  end.

Notation io_act A := (act IoAns stop A).

Definition ask (q : io) : io_act (IoAns q) := map_error Failed (call q).
(** The reply does not matter. *)
Definition tell {A : Type} (q : io) (k : io_act A) : io_act A := Ask q (fun _ => k).
Definition crash {A : Type} (why : string) : io_act A := fail (Crash why).

(** [err.Error()]. *)
Definition Error (e : api_error) : string :=
  match e with OtherError msg => msg | NotFound => "not found" | AlreadyExists => "already exists" | Invalid => "invalid" | Conflict => "conflict" end.

(** An answer whose failure is only logged, or is what is returned. *)
Definition refuse {A : Type} (code : Z) (text trace : string) (e : api_error) : io_act A :=
  tell (Respond code text trace) (fail (Failed e)).
Definition refuse500 {A : Type} (text trace : string) (e : api_error) : io_act A :=
  let! u := ask (Respond 500 text trace) in fail (Failed e).

(** The address and the ports of this pod's configuration, and the two ends
    of the client's connection. *)
Record server : Type := mkServer {
  sv_caches : caches;
  sv_routes : RouteCache;
  SSHPort : Z;
  ProxyPort : Z;
  RemoteAddr : string;
  LocalAddr : string
}.

Section Serve.
Context (sv : server).

(** *** common/proxy.go *)

Definition GetRemoteAddr (category host : string) : string :=
  if String.eqb category SSH then host +:+ ":" +:+ dec (SSHPort sv)
  else if String.eqb category EGRESS || String.eqb category HTTP_PROXY then host +:+ ":" +:+ dec (ProxyPort sv)
  else host.

Definition DirectDial (host port category trace : string) : io_act unit :=
  reply! r := call (Ping host) in
  match r with
  | inr pingErr => refuse500 "failed to get the node where the pod is located" trace pingErr
  | inl _ =>
      reply! r := call (Dial (JoinHostPort host port)) in
      match r with
      | inr err => refuse500 "failed to establish tcp connection with server outside the cluster" trace err
      | inl _ => do! (ask WriteConnectMsg) in ask RelayConn
      end
  end.

(** The part of an address before its first colon. *)
Definition addr_host (addr : string) : string := default EmptyString (head (split_on ":" addr)).

Definition loopback (addr : string) : bool := match ParseIP (addr_host addr) with Some ip => IsLoopback ip | None => false end.

(** Has the client's connection come from another tunnel-cloud pod? *)
Definition from_tunnel (k : bool -> io_act unit) : io_act unit :=
  reply! r := call TunnelEndpoints in
  match IsEndpointIp true r (addr_host (RemoteAddr sv)) with
  | Panic why => crash why
  | Ret b => k (b && negb (loopback (LocalAddr sv)))
  end.

Definition ForwardNode (nodename host port category trace : string) : io_act unit :=
  let! here := ask (GetNode_ nodename) in
  if here then
    reply! r := call (ConnectNode_ nodename category (JoinHostPort host port) trace) in
    match r with
    | inl uid => do! (ask WriteConnectMsg) in tell (RelayNode nodename category uid) (ok tt)
    | inr err => refuse500 (Error err) trace err
    end
  else
    let addr := EdgeNode (sv_routes sv) !! nodename in
    if negb (bool_decide (is_Some addr)) && bool_decide (is_Some (CloudNode (sv_routes sv) !! nodename))
    then DirectDial host port category trace
    else from_tunnel (fun loop =>
      if loop then refuse500 "loop forwarding" trace (OtherError "loop forwarding")
      else
        reply! r := call (Dial (GetRemoteAddr category (default EmptyString addr))) in
        match r with
        | inr err => refuse500 "failed to establish a connection between proxyServer and backendServer" trace err
        | inl _ =>
            reply! r := call (WriteConnect (JoinHostPort host port) trace) in
            match r with
            | inr err => refuse500 "failed to write data to remoteConn" trace err
            | inl _ => ask RelayConn
            end
        end).

(** *** HandleServerConn *)

Definition AuthorizationPath : string := "/etc/tunnel/auth".

(** The text of a base64 error. *)
Definition CorruptInput : api_error := OtherError "illegal base64 data".

(** The user and the password of the request, or why there is none. *)
Inductive auth_header : Type := NoAuth | BadAuth | BadBase64 | NoField | User (name : string) (password : option string).

Definition read_auth (proxyAuth : string) : auth_header :=
  if String.eqb proxyAuth EmptyString then NoAuth else
  let auths := split_on " " proxyAuth in
  if negb (length auths =? 2)%nat && negb (String.eqb (default EmptyString (head auths)) "Basic") then BadAuth else
  match auths !! 1%nat with
  | None => NoField
  | Some field =>
      match b64_decode (bytes_of field) with
      | None => BadBase64
      | Some infos =>
          let userinfos := split_on ":" (string_of infos) in
          User (default EmptyString (head userinfos)) (userinfos !! 1%nat)
      end
  end.

Definition user_file (name : string) : string := AuthorizationPath +:+ "/" +:+ name.

(** The check of the user's password. *)
Definition authorize (proxyAuth trace : string) : io_act unit :=
  match read_auth proxyAuth with
  | NoAuth => refuse 401 "No username and password provided" trace (OtherError "no username and password provided")
  | BadAuth => refuse 403 "failed to parse  the Proxy-Authorization field of the request.Header" trace (OtherError "failed to parse  the Proxy-Authorization field of the request.Header")
  | NoField => crash "index out of range"
  | BadBase64 => refuse 403 "failed to decode authInfo" trace CorruptInput
  | User name password =>
      reply! r := call (Stat (user_file name)) in
      match r with
      | inr err => refuse 403 ("user " +:+ name +:+ " does not exist") trace err
      | inl _ =>
          reply! r := call (ReadFile (user_file name)) in
          match r with
          | inr err => refuse 403 "user does not exist" trace err
          | inl pwd =>
              match password with
              | None => crash "index out of range"
              | Some p =>
                  if String.eqb pwd p then ok tt
                  else refuse 403 "incorrect password" trace (OtherError ("incorrect password, username:" +:+ name))
              end
          end
      end
  end.

(** A request for a node that is connected to another tunnel-cloud pod, which
    is asked for a connection and then given the request. *)
Definition through_tunnel (category tunnelCloudPodIp trace : string) (info : forwardInfo) : io_act unit :=
  let target := JoinHostPort (fi_podIp info) (fi_port info) in
  reply! r := call (Dial (GetRemoteAddr category tunnelCloudPodIp)) in
  match r with
  | inr err => refuse 500 "failed to forward http request through localhost [Dial]" trace err
  | inl _ =>
      reply! r := call (WriteConnect target trace) in
      match r with
      | inr err => refuse 500 "failed to forward http request through localhost [Write Request]" trace err
      | inl _ =>
          reply! r := call ReadResponse in
          match r with
          | inr err => refuse 500 "failed to forward http request through localhost [Write Request]" trace err
          | inl (code, text) =>
              if (code =? 200)%Z then
                reply! r := call WriteOriginal in
                match r with
                | inr err => refuse 500 "failed to forward http request through localhost [Write Origin Request]" trace err
                | inl _ => ask RelayConn
                end
              else
                let msg := "failed to establish a connection with the target server of the edge node, errorResponse:" +:+ text in
                refuse 500 msg EmptyString (OtherError msg)
          end
      end
  end.

(** A request that is not CONNECT. *)
Definition forward_plain (req : http_request) (category trace : string) (info : option forwardInfo) (directDial : bool) : io_act unit :=
  if directDial then
    let remoteAddr := match info with Some i => JoinHostPort (fi_podIp i) (fi_port i) | None => rq_Host req end in
    reply! r := call (Dial remoteAddr) in
    match r with
    | inr err => refuse500 "failed to establish a connection between proxyServer and backendServer" trace err
    | inl _ =>
        reply! r := call WriteOriginal in
        match r with
        | inr err => refuse500 "failed to write request data to remoteConn" trace err
        | inl _ => ask RelayConn
        end
    end
  else
    match info with
    | None => crash "nil pointer dereference"
    | Some info =>
        let node := fi_nodeName info in
        let! here := ask (GetNode_ node) in
        if here then
          reply! r := call (ConnectNode_ node category (JoinHostPort (fi_podIp info) (fi_port info)) trace) in
          match r with
          | inl uid =>
              tell (Send2Node_ node (mkMsg node category TCP_FORWARD uid (rq_Raw req) EmptyString))
                (tell (RelayNode node category uid) (ok tt))
          | inr err => refuse500 (Error err) trace err
          end
        else
          match EdgeNode (sv_routes sv) !! node with
          | Some tunnelCloudPodIp => through_tunnel category tunnelCloudPodIp trace info
          | None =>
              refuse 500 ("the edge node is disconnected from the cloud, nodeName:" +:+ node) trace
                (OtherError ("the edge node is disconnected from the cloud, nodeName:" +:+ node))
          end
    end.

(** A request that is let in. *)
Definition serve_request (req : http_request) (category trace : string) : io_act unit :=
  match SplitHostPort (rq_Host req) with
  | inr why => refuse 500 why trace (OtherError why)
  | inl (host, port) =>
      match getForwardInfo (sv_caches sv) (sv_routes sv) host port with
      | inr err => refuse 500 ("failed to get forwarding info, error:" +:+ Error err) trace err
      | inl (info, directDial) =>
          if String.eqb (rq_Method req) MethodConnect then
            if directDial then
              match info with
              | Some i => DirectDial (fi_podIp i) (fi_port i) category trace
              | None => DirectDial host port category trace
              end
            else match info with
                 | None => crash "nil pointer dereference"
                 | Some i => ForwardNode (fi_nodeName i) (fi_podIp i) (fi_port i) category trace
                 end
          else if negb (String.eqb category HTTP_PROXY) then
            refuse 405 "request.Method must be CONNECT" trace (OtherError "request.Method must be CONNECT")
          else forward_plain req category trace info directDial
      end
  end.

(** [authorization] is the environment's [PROXY_AUTHORIZATION] being [true],
    [noAccess] the test of the host, if there is one. *)
Definition HandleServerConn (authorization : bool) (category : string) (noAccess : option (string -> outcome (option api_error))) : io_act unit :=
  let! req := ask ReadRequest in
  let! trace := match rq_TraceIds req with Some [id] => ok id | _ => ask NewV4 end in
  do! (if authorization && String.eqb category HTTP_PROXY then authorize (rq_ProxyAuth req) trace else ok tt) in
  match match noAccess with Some f => f (rq_Host req) | None => Ret None end with
  | Panic why => crash why
  | Ret (Some err) => fail (Failed err)
  | Ret None => serve_request req category trace
  end.

(** The test of the cloud's proxy (http_proxy.go), where [CLOUD_PROXY] is the
    environment's list of forbidden hosts. *)
Definition proxy_noAccess (MatchString : string -> string -> option bool) (ToLower : string -> string) (CLOUD_PROXY host : string)
    : outcome (option api_error) :=
  if String.eqb CLOUD_PROXY EmptyString then Ret None else
  let* ok := NoProxy.UseProxy MatchString ToLower (NoProxy.NewHttpProxyConfig ToLower CLOUD_PROXY) host in
  Ret (if ok then None else Some (OtherError ("forbid access to service " +:+ host +:+ " in the cluster"))).

(** *** AccessHandler (edge_access_handler.go) *)

Section Access.
Context (MatchString : string -> string -> option bool) (ToLower : string -> string) (EDGE_NO_PROXY : string).
(** [http.ReadRequest]: the method of the request. *)
Context (read_method : list Z -> string + api_error).

(** The answer of a connection attempt to the node it came from. *)
Definition errMsg (msg : StreamMsg) (text : string) : StreamMsg :=
  mkMsg (m_Node msg) (m_Category msg) CONNECT_FAILED (m_Topic msg) (bytes_msg text) EmptyString.
Definition ConnectMsg : list Z := bytes_msg ("HTTP/1.1 200 Connection established" +:+
  String "013" (String "010" (String "013" (String "010" EmptyString)))).
Definition successMsg (msg : StreamMsg) : StreamMsg :=
  mkMsg (m_Node msg) (m_Category msg) CONNECT_SUCCESSED (m_Topic msg) ConnectMsg EmptyString.

Definition report_failure {A : Type} (msg : StreamMsg) (e : api_error) : io_act A :=
  tell (Send2Node_ (m_Node msg) (errMsg msg (Error e))) (fail (Failed e)).

Definition broken (name : string) : api_error := OtherError ("the  tunnel of node " +:+ name +:+ " is broken").

(** The connection is established: the node is told, and the dialled server
    becomes a connection of the node. *)
Definition established (msg : StreamMsg) : io_act unit :=
  tell (Send2Node_ (m_Node msg) (successMsg msg))
    (tell (Attach (m_Node msg) (m_Category msg) (m_Topic msg)) (ok tt)).

Definition directDial (msg : StreamMsg) (ip port : string) : io_act unit :=
  let! here := ask (GetNode_ (m_Node msg)) in
  if negb here then fail (Failed (broken (m_Node msg))) else
  reply! r := call (Dial (JoinHostPort ip port)) in
  match r with
  | inr err => report_failure msg err
  | inl _ => established msg
  end.

Inductive TargetType : Type := LocalPodType | RemotePodType | DisconnectNodeType.

Definition GetTargetType (nodeName : string) : io_act TargetType :=
  let! here := ask (GetNode_ nodeName) in
  ok (if here then LocalPodType
      else if bool_decide (is_Some (EdgeNode (sv_routes sv) !! nodeName)) then RemotePodType else DisconnectNodeType).

(** A target on a node that is connected here: the request goes on to it, and
    each node knows the other for this connection. *)
Definition to_local_node (msg : StreamMsg) (info : forwardInfo) : io_act unit :=
  let remote := fi_nodeName info in
  let! here := ask (GetNode_ remote) in
  if here then
    tell (AddPairNode_ remote (m_Topic msg) (m_Node msg))
      (tell (AddPairNode_ (m_Node msg) (m_Topic msg) remote)
        (tell (Send2Node_ remote (mkMsg remote (m_Category msg) (m_Type msg) (m_Topic msg) (m_Data msg)
                 (JoinHostPort (fi_podIp info) (fi_port info)))) (ok tt)))
  else fail (Failed (OtherError ("the remote edge node " +:+ remote +:+ " is not connected to the cloud"))).

(** A target on a node that is connected to another tunnel-cloud pod. *)
Definition to_remote_pod (msg : StreamMsg) (info : forwardInfo) : io_act unit :=
  match EdgeNode (sv_routes sv) !! fi_nodeName info with
  | None => report_failure msg (OtherError ("the edge node " +:+ fi_nodeName info +:+ " disconnected"))
  | Some remoteIp =>
      reply! r := call (Dial (GetRemoteAddr (m_Category msg) remoteIp)) in
      match r with
      | inr err => report_failure msg err
      | inl _ =>
          reply! r := call (WriteConnect (JoinHostPort (fi_podIp info) (fi_port info)) (m_Topic msg)) in
          match r with
          | inr err => report_failure msg err
          | inl _ =>
              reply! r := call ReadResponse in
              match r with
              | inr err => report_failure msg err
              | inl (code, text) =>
                  if (code =? 200)%Z then established msg
                  else report_failure msg (OtherError ("failed to connect edge node " +:+ fi_nodeName info +:+ ", error:" +:+ text))
              end
          end
      end
  end.

Definition AccessHandler (msg : StreamMsg) : io_act unit :=
  let! here := ask (GetNode_ (m_Node msg)) in
  if negb here then fail (Failed (broken (m_Node msg))) else
  match read_method (m_Data msg) with
  | inr err => tell (Send2Node_ (m_Node msg) (errMsg msg ("failed to parse httpRequest, error:" +:+ Error err))) (fail (Failed err))
  | inl method =>
      if negb (String.eqb method MethodConnect) then
        tell (Send2Node_ (m_Node msg) (errMsg msg "does not handle non-httpConnect requests")) (ok tt)
      else
        match (if String.eqb EDGE_NO_PROXY EmptyString then Ret true
               else NoProxy.UseProxy MatchString ToLower (NoProxy.NewHttpProxyConfig ToLower EDGE_NO_PROXY) (m_Addr msg)) with
        | Panic why => crash why
        | Ret false => fail (Failed (OtherError ("edge nodes are prohibited from accessing the addr " +:+ m_Addr msg)))
        | Ret true =>
            match SplitHostPort (m_Addr msg) with
            | inr why => tell (Send2Node_ (m_Node msg) (errMsg msg ("failed to resolve host, error: " +:+ why))) (fail (Failed (OtherError why)))
            | inl (host, port) =>
                match getForwardInfo (sv_caches sv) (sv_routes sv) host port with
                | inr err => tell (Send2Node_ (m_Node msg) (errMsg msg ("failed to get forwarding info, error:" +:+ Error err))) (fail (Failed err))
                | inl (Some i, true) => directDial msg (fi_podIp i) (fi_port i)
                | inl (None, true) => directDial msg host port
                | inl (None, false) => crash "nil pointer dereference"
                | inl (Some info, false) =>
                    let! t := GetTargetType (fi_nodeName info) in
                    match t with
                    | LocalPodType => to_local_node msg info
                    | RemotePodType => to_remote_pod msg info
                    | DisconnectNodeType => report_failure msg (OtherError ("the target node " +:+ fi_nodeName info +:+ " is not registered in the route cache"))
                    end
                end
            end
        end
  end.

End Access.

(** *** HttpProxyEdgeServer (http-proxy/connect/edge_server.go) *)

(** The target of a request; [None] is a host that cannot be read. *)
Definition edge_target (req : http_request) : option (string * string) :=
  match SplitHostPort (rq_Host req) with
  | inl hp => Some hp
  | inr _ =>
      if (length (split_on ":" (rq_Host req)) <? 2)%nat then
        Some (rq_Host req, if String.eqb (rq_Scheme req) "http" then "80" else if String.eqb (rq_Scheme req) "https" then "443" else EmptyString)
      else None
  end.

(** [NODE_NAME] is the environment's.  It returns nothing; a failed attempt to
    connect does not end the handling of a CONNECT request. *)
Definition HttpProxyEdgeServer (NODE_NAME : string) : io_act unit :=
  let stop_ : io_act unit := ok tt in
  let say (text trace : string) (k : io_act unit) : io_act unit :=
    reply! r := call (Respond 500 text trace) in match r with inr _ => stop_ | inl _ => k end in
  reply! r := call ReadRequest in
  match r with
  | inr _ => stop_
  | inl req =>
      let! uuid := ask NewV4 in
      match edge_target req with
      | None => stop_
      | Some (host, port) =>
          if match ParseIP host with None => (length (split_on "." host) <? 2)%nat | Some _ => false end then
            tell (Respond 500 "the service format is incorrect, supported format: serviceName.nameSpace" uuid) stop_
          else
            let! here := ask (GetNode_ NODE_NAME) in
            if negb here then say ("failed to get edge node " +:+ NODE_NAME) uuid stop_ else
            let addr := JoinHostPort host port in
            let relay := tell (RelayNode NODE_NAME HTTP_PROXY uuid) stop_ in
            reply! r := call (ConnectNode_ NODE_NAME HTTP_PROXY addr uuid) in
            if String.eqb (rq_Method req) MethodConnect then
              let welcome := reply! w := call WriteConnectMsg in match w with inr _ => stop_ | inl _ => relay end in
              match r with
              | inl _ => welcome
              | inr err => say (Error err) uuid welcome
              end
            else
              match r with
              | inl _ => tell (Send2Node_ NODE_NAME (mkMsg NODE_NAME HTTP_PROXY TCP_FORWARD uuid (rq_Raw req) (rq_Host req))) relay
              | inr err => say (Error err) uuid stop_
              end
      end
  end.

End Serve.

(** ** The password *)

(** Requests that reach neither a node nor another server. *)
Definition harmless (q : io) : Prop :=
  match q with ReadRequest | NewV4 | Stat _ | ReadFile _ | Respond _ _ _ => True | _ => False end.

(** The replies of a client that sends [req] and a file system [fs]. *)
Definition client_and_files (req : http_request) (fs : string -> string + api_error) (q : io) : IoAns q + api_error -> Prop :=
  match q with
  | ReadRequest => fun r => r = inl req
  | ReadFile path => fun r => r = fs path
  | _ => fun _ => True
  end.

(** The header carries the password that the user's file holds. *)
Definition password_known (req : http_request) (fs : string -> string + api_error) : Prop :=
  exists name password, read_auth (rq_ProxyAuth req) = User name (Some password) /\ fs (user_file name) = inl password.

(** A header cut in half, on which the handler panics, and the whole process
    with it: "Basic" alone, or a user without the colon. *)
Definition half_header (proxyAuth : string) : bool :=
  match read_auth proxyAuth with NoField | User _ None => true | _ => false end.

(** How the handler ends without the password. *)
Definition turned_away (req : http_request) (r : unit + stop) : Prop :=
  match r with
  | inl _ => False
  | inr (Crash _) => half_header (rq_ProxyAuth req) = true
  | inr (Failed _) => True
  end.

Lemma under_refuse R (P : io -> Prop) (Q : unit + stop -> Prop) code text trace e :
  P (Respond code text trace) -> Q (inr (Failed e)) -> under R P Q (refuse code text trace e).
Proof. intros HP HQ. split; [done|]. by intros r _. Qed.

Lemma authorize_refuses req fs trace : ~ password_known req fs ->
  under (client_and_files req fs) harmless (turned_away req) (authorize (rq_ProxyAuth req) trace).
Proof.
  intros Hno. unfold authorize. destruct (read_auth (rq_ProxyAuth req)) as [| | | |name password] eqn:Ha; try (by apply under_refuse);
    [by unfold under, turned_away, half_header; simpl; rewrite Ha|].
  split; [done|]. intros [u|e] _; [|by apply under_refuse]. split; [done|]. intros r Hr. cbn in Hr. subst r.
  destruct (fs (user_file name)) as [pwd|e] eqn:Hfs; [|by apply under_refuse].
  destruct password as [p|]; [|by unfold under, turned_away, half_header; simpl; rewrite Ha].
  cbn [bind]. destruct (String.eqb_spec pwd p) as [->|]; [|by apply under_refuse]. destruct Hno. by exists name, p.
Qed.

(** C5: With the authorization switched on, a client of the HTTP proxy that
    does not send the password held by the file of the user it names gets an
    answer or none, but it reaches nothing: no server is dialled or pinged and
    no node is sent anything.  The handler ends with an error, or panics, and
    with it the process; it panics only on a header cut in half, "Basic" with
    nothing after it or a user without a password ([short_header_panics]). *)
Theorem serve_needs_password {S : Type} (serve : forall q : io, S -> S * (IoAns q + api_error)) sv noAccess req fs s :
  (forall q s, client_and_files req fs q (snd (serve q s))) -> ~ password_known req fs ->
  wp serve (HandleServerConn sv true HTTP_PROXY noAccess) (fun _ t r => Forall harmless t /\ turned_away req r) s.
Proof.
  intros Hserve Hno. eapply wp_under; [exact Hserve|]. unfold HandleServerConn. split; [done|]. intros r Hr. cbn in Hr. subst r.
  cbn [andthen bind]. apply under_bind with (Q := fun a => match a with inr (Crash _) => False | _ => True end).
  { destruct (rq_TraceIds req) as [[|id [|]]|]; try exact I; (split; [exact I|]; intros [a|a] _; exact I). }
  intros [trace|[w|e]] Ha; [|done..]. apply under_bind with (Q := turned_away req); [by apply authorize_refuses|].
  by intros [[]|[w|e]] Ha'.
Qed.

(** ** Between tunnel-cloud pods *)

(** A CONNECT request is not passed on. *)
Definition not_relayed (q : io) : Prop := match q with WriteConnect _ _ => False | _ => True end.

(** The replies of a client at [remote] that sends [req], when [remote] is the
    address of a tunnel-cloud pod. *)
Definition from_pod (req : http_request) (remote : string) (q : io) : IoAns q + api_error -> Prop :=
  match q with
  | ReadRequest => fun r => r = inl req
  | TunnelEndpoints => fun r => exists eps subset rest, r = inl eps /\ sl (eps_Subsets eps) = subset :: rest
      /\ existsb (fun ipv => String.eqb (ea_IP ipv) remote) (sl (es_Addresses subset)) = true
  | _ => fun _ => True
  end.

Lemma all_refuse (P : io -> Prop) code text trace e : P (Respond code text trace) -> all_requests P (A := unit + stop) (refuse code text trace e).
Proof. by split. Qed.
Lemma all_refuse500 (P : io -> Prop) text trace e : P (Respond 500 text trace) -> all_requests P (A := unit + stop) (refuse500 text trace e).
Proof. intros HP. split; [done|]. by intros [|]. Qed.
Lemma all_ask (P : io -> Prop) q : P q -> all_requests P (ask q).
Proof. split; [done|]. by intros [|]. Qed.

Lemma all_authorize auth trace : all_requests not_relayed (authorize auth trace).
Proof.
  unfold authorize. destruct (read_auth auth); try (by apply all_refuse); [done|]. split; [done|].
  intros [|]; [|by apply all_refuse]. split; [done|]. intros [pwd|]; cbn [bind]; [|by apply all_refuse].
  destruct password as [p|]; [|done]. destruct (String.eqb pwd p); [done|by apply all_refuse].
Qed.

Lemma all_DirectDial host port category trace : all_requests not_relayed (DirectDial host port category trace).
Proof.
  split; [done|]. intros [|]; cbn [bind]; [|by apply all_refuse500]. split; [done|]. intros [|]; cbn [bind]; [|by apply all_refuse500].
  apply all_andthen; [by apply all_ask|]. intros _. by apply all_ask.
Qed.

Lemma ForwardNode_from_pod sv req nodename host port category trace : loopback (LocalAddr sv) = false ->
  under (from_pod req (addr_host (RemoteAddr sv))) not_relayed (fun _ => True) (ForwardNode sv nodename host port category trace).
Proof.
  intros Hlocal. split; [done|]. intros [here|e] _; [|done]. cbn [bind andthen map_error]. destruct here.
  - split; [done|]. intros [uid|e] _; cbn [bind]; [|apply under_all; by apply all_refuse500].
    apply under_all, all_andthen; [by apply all_ask|]. intros _. by split.
  - destruct (_ && _); [apply under_all, all_DirectDial|]. split; [done|]. intros r (eps & subset & rest & -> & Hs & Hin). cbn [bind].
    unfold IsEndpointIp. rewrite Hs, Hin, Hlocal. apply under_all. by apply all_refuse500.
Qed.

(** A CONNECT request that comes from another tunnel-cloud pod is
    answered, dialled or handed to a node that is connected here, but it is
    never passed on to a further pod: the request of a client crosses the
    network between tunnel-cloud pods at most once. *)
Theorem relayed_once {S : Type} (serve : forall q : io, S -> S * (IoAns q + api_error)) sv authorization category noAccess req s :
  rq_Method req = MethodConnect -> loopback (LocalAddr sv) = false ->
  (forall q s, from_pod req (addr_host (RemoteAddr sv)) q (snd (serve q s))) ->
  wp serve (HandleServerConn sv authorization category noAccess) (fun _ t _ => Forall not_relayed t) s.
Proof.
  intros Hm Hlocal Hserve. eapply wp_mono; [apply (wp_under serve (from_pod req (addr_host (RemoteAddr sv))) not_relayed (fun _ => True)); [exact Hserve|]|by intros s' t a [Ht _]].
  unfold HandleServerConn. split; [done|]. intros r Hr. cbn in Hr. subst r. cbn [bind andthen map_error ask].
  apply under_bind with (Q := fun _ => True).
  { apply under_all. destruct (rq_TraceIds req) as [[|id [|]]|]; try exact I; by apply all_ask. }
  intros [trace|e] _; [|done]. apply under_bind with (Q := fun _ => True).
  { apply under_all. destruct (authorization && _); [apply all_authorize|exact I]. }
  intros [u|e] _; [|done]. destruct (match noAccess with Some f => f _ | None => _ end) as [[err|]|why]; [done| |done].
  unfold serve_request. destruct (SplitHostPort (rq_Host req)) as [[host port]|why]; [|by apply under_all, all_refuse].
  destruct (getForwardInfo _ _ host port) as [[info direct]|err]; [|by apply under_all, all_refuse].
  rewrite Hm, String.eqb_refl. destruct direct, info as [i|]; [apply under_all, all_DirectDial..|by apply ForwardNode_from_pod|done].
Qed.

(** ** Examples *)

Definition demo_pod (node : string) : Pod := mkPod (named "default" "web-0") node "10.9.0.1" "10.1.0.9".

Definition demo_caches (node : string) : caches :=
  mkCaches (fun _ => inr NotFound) (fun _ _ => inr NotFound) (Some []) (Some [demo_pod node]) (fun _ _ _ => inr NotFound).

(** The node [e1] is connected to the pod 10.0.0.8. *)
Definition demo_server (node remote local : string) : server :=
  mkServer (demo_caches node) (mkRouteCache {[ "e1" := "10.0.0.8" ]} ∅ ∅ ∅) 22 8000 remote local.

Definition basic (infos : string) : string := "Basic " +:+ string_of (b64_encode (bytes_of infos)).
Definition demo_request (method auth : string) : http_request := mkRequest method "10.1.0.9:80" "http" (Some ["id1"]) auth [].

(** A client, files, the endpoints of the tunnel's service, and no node. *)
Definition demo_replies (req : http_request) (fs : string -> string + api_error) (q : io) (s : unit) : unit * (IoAns q + api_error) :=
  (s, match q return IoAns q + api_error with
      | ReadRequest => inl req
      | NewV4 => inl "id2"
      | ReadFile path => fs path
      | ReadResponse => inl (200%Z, EmptyString)
      | TunnelEndpoints => inl (mkEndpoints (named "edge-system" "tunnel-cloud")
          (Some [mkEndpointSubset (Some [mkEndpointAddress "10.0.0.7" None; mkEndpointAddress "10.0.0.8" None]) None None]))
      | GetNode_ _ => inl false
      | ConnectNode_ _ _ _ _ => inr (OtherError "timed out")
      | Stat _ | Respond _ _ _ | WriteConnectMsg | Ping _ | Dial _ | WriteConnect _ _ | WriteOriginal | RelayConn
      | Send2Node_ _ _ | RelayNode _ _ _ | Attach _ _ _ | AddPairNode_ _ _ _ => inl tt
      end).

Definition demo_files (path : string) : string + api_error :=
  if String.eqb path "/etc/tunnel/auth/user" then inl "good"
  else if String.eqb path "/etc/tunnel/auth/../../../dev/null" then inl EmptyString else inr NotFound.

Definition demo_run (req : http_request) (sv : server) : list io * (unit + stop) :=
  let '(_, t, r) := run (demo_replies req demo_files) (HandleServerConn sv true HTTP_PROXY None) tt in (t, r).

(** A client with the right password is connected through the pod that the
    node is connected to. *)
Example right_password :
  demo_run (demo_request "CONNECT" (basic "user:good")) (demo_server "e1" "192.168.1.5:4000" "10.0.0.7:8000") =
  ([ReadRequest; Stat "/etc/tunnel/auth/user"; ReadFile "/etc/tunnel/auth/user"; GetNode_ "e1"; TunnelEndpoints;
    Dial "10.0.0.8:8000"; WriteConnect "10.1.0.9:80" "id1"; RelayConn], inl tt).
Proof. by vm_compute. Qed.

Lemma serve_needs_password_witness :
  let req := demo_request "CONNECT" (basic "user:bad") in
  let sv := demo_server "e1" "192.168.1.5:4000" "10.0.0.7:8000" in
  ~ password_known req demo_files /\
  wp (demo_replies req demo_files) (HandleServerConn sv true HTTP_PROXY None) (fun _ t r => Forall harmless t /\ turned_away req r) tt.
Proof.
  intros req sv. assert (~ password_known req demo_files) as Hno.
  { intros (name & password & Ha & Hf). assert (read_auth (rq_ProxyAuth req) = User "user" (Some "bad")) as E by by vm_compute.
    rewrite E in Ha. injection Ha as <- <-. by vm_compute in Hf. }
  split; [exact Hno|]. apply (serve_needs_password (demo_replies req demo_files) sv None req demo_files); [|exact Hno].
  intros [] []; reflexivity || exact I.
Defined.

Lemma relayed_once_witness :
  let req := demo_request "CONNECT" (basic "user:good") in
  let sv := demo_server "e1" "10.0.0.8:4000" "10.0.0.7:8000" in
  snd (demo_run req sv) = inr (Failed (OtherError "loop forwarding")) /\
  wp (demo_replies req demo_files) (HandleServerConn sv true HTTP_PROXY None) (fun _ t _ => Forall not_relayed t) tt.
Proof.
  intros req sv. split; [by vm_compute|].
  apply (relayed_once (demo_replies req demo_files) sv true HTTP_PROXY None req); [reflexivity|reflexivity|].
  intros [] []; try (reflexivity || exact I). by do 3 eexists.
Defined.

(** The name of the user is part of a path: any file whose content is known
    will do, and an empty one needs no password. *)
Example no_account_needed :
  snd (demo_run (demo_request "CONNECT" (basic "../../../dev/null:")) (demo_server "e1" "192.168.1.5:4000" "10.0.0.7:8000")) = inl tt.
Proof. by vm_compute. Qed.

(** A header of one word, and a user without password: the process ends. *)
Example short_header_panics :
  snd (demo_run (demo_request "CONNECT" "Basic") (demo_server "e1" "192.168.1.5:4000" "10.0.0.7:8000")) = inr (Crash "index out of range")
  /\ snd (demo_run (demo_request "CONNECT" (basic "user")) (demo_server "e1" "192.168.1.5:4000" "10.0.0.7:8000")) = inr (Crash "index out of range").
Proof. by vm_compute. Qed.

(** Only a header that is neither of two words nor of the scheme [Basic] is
    refused: another scheme is taken for it. *)
Example any_scheme : read_auth ("Digest " +:+ string_of (b64_encode (bytes_of "user:good"))) = User "user" (Some "good").
Proof. by vm_compute. Qed.

(** A pod on a node that no pod is connected to: the empty address is dialled,
    which is this very server, with the same request; as it then comes from
    the loopback address, nothing ends this. *)
Example unknown_node_dials_itself :
  let again := run (demo_replies (demo_request "CONNECT" EmptyString) demo_files)
    (HandleServerConn (demo_server "e9" "127.0.0.1:5000" "127.0.0.1:8000") false HTTP_PROXY None) tt in
  again.1.2 = [ReadRequest; GetNode_ "e9"; TunnelEndpoints; Dial ":8000"; WriteConnect "10.1.0.9:80" "id1"; RelayConn].
Proof. by vm_compute. Qed.

Definition demo_msg (addr : string) : StreamMsg := mkMsg "e1" HTTP_PROXY CONNECT_REQ "id3" [] addr.
Definition here (q : io) (s : unit) : unit * (IoAns q + api_error) :=
  match q return unit * (IoAns q + api_error) with
  | GetNode_ n => (s, inl (String.eqb n "e1"))
  | q => demo_replies (demo_request "GET" EmptyString) demo_files q s
  end.
Definition access (EDGE_NO_PROXY addr : string) : list io * (unit + stop) :=
  let '(_, t, r) := run here (AccessHandler (demo_server "e9" EmptyString EmptyString) NoProxy.plain (fun s => s) EDGE_NO_PROXY
    (fun _ => inl "CONNECT") (demo_msg addr)) tt in (t, r).

(** An edge node is told that the target's node is not known, but not that it
    may not reach a target: it waits until its own timeout. *)
Example access_ex :
  access EmptyString "10.1.0.9:80" =
    ([GetNode_ "e1"; GetNode_ "e9"; Send2Node_ "e1" (errMsg (demo_msg "10.1.0.9:80") "the target node e9 is not registered in the route cache")],
     inr (Failed (OtherError "the target node e9 is not registered in the route cache")))
  /\ access EmptyString "8.8.8.8:53" =
    ([GetNode_ "e1"; GetNode_ "e1"; Dial "8.8.8.8:53"; Send2Node_ "e1" (successMsg (demo_msg "8.8.8.8:53")); Attach "e1" HTTP_PROXY "id3"], inl tt)
  /\ access "8.8.0.0/16" "8.8.8.8:53" =
    ([GetNode_ "e1"], inr (Failed (OtherError "edge nodes are prohibited from accessing the addr 8.8.8.8:53"))).
Proof. by vm_compute. Qed.

(** A client of the edge's proxy is told that the attempt failed, and then
    that it is connected. *)
Definition no_answer (q : io) (s : unit) : unit * (IoAns q + api_error) :=
  match q return unit * (IoAns q + api_error) with
  | GetNode_ _ => (s, inl true)
  | q => demo_replies (demo_request "CONNECT" EmptyString) demo_files q s
  end.

Example connected_after_failure :
  (run no_answer (HttpProxyEdgeServer "e1") tt).1.2 =
  [ReadRequest; NewV4; GetNode_ "e1"; ConnectNode_ "e1" HTTP_PROXY "10.1.0.9:80" "id2"; Respond 500 "timed out" "id2"; WriteConnectMsg;
   RelayNode "e1" HTTP_PROXY "id2"].
Proof. by vm_compute. Qed.

End Serve.
