(* ===== verification/PenetratorJob.v ===== *)
(** * The job that installs nodes (pkg/penetrator/job, pkg/penetrator/util)

    A task's job installs its machines over ssh, several at a time.  Module
    [Install] has the configuration the job reads and the installation of one
    node as a program of requests, with its deferred calls.  Module [Pool] has
    [AddNodes] as a transition system: the main goroutine, which passes the
    machines through the variables of its loop, the goroutines that read them
    when they get to run, the channel of slots and the channel of errors.  The
    theorems say that no run blocks or goes on for ever, how many installations
    run at once, which machine is tried for certain, and what the node's label
    means after installations that ran side by side. *)

From Stdlib Require Import ZArith Lia Ascii String.
From stdpp Require Import base strings gmap numbers sorting list.
From S2P Require Import Prelude.
From S2P Require Import GoStd.
From S2P Require Import GoTemplate.
From S2P Require Import K8s.
From S2P Require Import Requests.
From S2P Require Import KubeNode.
From S2P Require Import GoNet.

Local Open Scope Z_scope.
Local Open Scope go_scope.

Module Install.

(** ** The configuration of the job (job/conf) *)

Record JobSecret : Type := mkJobSecret {
  PassWd : string;
  PwPath : string;
  SshKey : option string;
  KeyPath : string
}.

Record JobConfig : Type := mkJobConfig {
  NodesIps : gomap string;
  SSHPort : Z;
  NodeLabel : string;
  AdmToken : string;
  ApiserverAddr : string;
  ApiserverPort : string;
  CaHash : string;
  Secret : JobSecret
}.

Definition no_secret : JobSecret := mkJobSecret EmptyString EmptyString None EmptyString.

Definition with_secret (c : JobConfig) (s : JobSecret) : JobConfig :=
  mkJobConfig (NodesIps c) (SSHPort c) (NodeLabel c) (AdmToken c) (ApiserverAddr c) (ApiserverPort c) (CaHash c) s.

Definition NodeLabelKey : string := "app.superedge.io/node-label".
Definition InstallPackage : string := "/etc/superedge/penetrator/job/install/edgeadm-".
Definition AddNodeScript : string := "/etc/superedge/penetrator/job/script/addnode.sh".

(** [strings.Replace(s, "\n", "", -1)] *)
Fixpoint remove_newlines (s : string) : string :=
  match s with
  | EmptyString => EmptyString
  | String c s => if Ascii.eqb c newline then remove_newlines s else String c (remove_newlines s)
  end.

Definition getArch (arch : string) : string :=
  match remove_newlines arch with
  | "x86_64" => "amd64"
  | "aarch64" => "arm64"
  | _ => EmptyString
  end%string.

(** ** Errors and requests *)

Inductive job_error : Type :=
| Wrapped (what : string) (e : api_error)
| Polled (what : string) (e : poll_error)
| UnsupportedArch (arch : string)
| BadTemplate (msg : string)
| ScriptFailed (err script stdout : string).

(** The files, the ssh connections and the keys are those of libraries. *)
Section Job.
Context {Client Session Signer : Type} (ParsePrivateKey : string -> Signer + string).

Inductive AuthMethod : Type := PublicKeys (s : Signer) | Password (pw : string).

(** What a goroutine does to the world, a look at the loop's variable [node],
    and the operations on the job's two channels. *)
Inductive job_request : Type :=
| Api (q : node_request (P := Empty_set))
| DeleteNode (name : string)
| ShellCommand (cmd : string)
| Dial (addr user : string) (auth : list AuthMethod)
| NewSession (c : Client)
| CombinedOutput (s : Session) (cmd : string)
| CloseClient (c : Client)
| Stat (path : string)
| ReadFile (path : string)
| ReportEvent (reason : string) (e : job_error)
| ReadNode
| ReportNode (ip : string)
| ReleaseSlot.

(** A command's output comes with its error. *)
Definition job_answer (q : job_request) : Type :=
  match q with
  | Api q => node_answer q
  | Dial _ _ _ => Client
  | NewSession _ => Session
  | CombinedOutput _ _ => (string * option string)%type
  | ReadFile _ | ReadNode => string
  | _ => unit
  end.

Notation job A := (act job_answer job_error A).
Notation os A := (act job_answer api_error A).

Definition api {A : Type} (p : prog node_answer A) : prog job_answer A := lift Api (fun _ a => a) p.
Definition shell (cmd : string) : os unit := call (ShellCommand cmd).
Definition dial (addr user : string) (auth : list AuthMethod) : os Client := call (Dial addr user auth).
Definition new_session (c : Client) : os Session := call (NewSession c).
Definition combined_output (s : Session) (cmd : string) : os (string * option string) := call (CombinedOutput s cmd).
Definition read_file (path : string) : os string := call (ReadFile path).
Definition stat (path : string) : os unit := call (Stat path).

(** [return fmt.Errorf("...: %v", err)] *)
Definition or_fail {A : Type} (what : string) (m : os A) : job A := map_error (Wrapped what) m.

(** [defer]: a last request, whatever was returned. *)
Definition deferred {A : Type} (q : job_request) (p : prog job_answer A) : prog job_answer A :=
  reply! r := p in Ask q (fun _ => Done r).

(** *** Loading the configuration (conf.InitJobConfig) *)

Context (Unmarshal : string -> JobConfig + string).

Definition load_secret (secretpath : string) : os JobSecret :=
  reply! r := stat (secretpath +:+ "sshkey") in
  match r with
  | inr NotFound =>
      let! passwd := read_file (secretpath +:+ "passwd") in
      ok (mkJobSecret passwd (secretpath +:+ "passwd") None EmptyString)
  | inr keyerr => fail keyerr
  | inl _ =>
      let! sshkey := read_file (secretpath +:+ "sshkey") in
      ok (mkJobSecret EmptyString EmptyString (Some sshkey) (secretpath +:+ "sshkey"))
  end.

Definition InitJobConfig (jobpath secretpath : string) : os JobConfig :=
  let! secret := load_secret secretpath in
  let! conf := read_file (jobpath +:+ "job.toml") in
  match Unmarshal conf with
  | inr err => fail (OtherError err)
  | inl job => ok (with_secret job secret)
  end.

(** ** One node (util/ssh_util.go, addnode.go) *)

Definition SShConnectNode (ip : string) (port : Z) (secret : JobSecret) : os Client :=
  do! shell "rm -f /root/.ssh/known_hosts" in
  let addr := ip +:+ ":" +:+ Itoa port in
  match SshKey secret with
  | Some key =>
      match ParsePrivateKey key with
      | inr err => fail (OtherError err)
      | inl signer => dial addr "root" [PublicKeys signer]
      end
  | None =>
      dial addr "root"
        (if String.eqb (PassWd secret) EmptyString then [] else [Password (remove_newlines (PassWd secret))])
  end.

Definition ScpFile (ip file : string) (port : Z) (secret : JobSecret) : os unit :=
  if negb (String.eqb (KeyPath secret) EmptyString) then
    shell ("scp -P " +:+ Itoa port +:+ " -i " +:+ KeyPath secret +:+ " " +:+ file +:+ " root@" +:+ ip +:+ ":/root")
  else if negb (String.eqb (PassWd secret) EmptyString) then
    shell ("sshpass -f " +:+ PwPath secret +:+ " scp  -P " +:+ Itoa port +:+ "  " +:+ file +:+ " root@" +:+ ip +:+ ":/root")
  else ok tt.

(** [kubeclient.CompleteTemplate] *)
Definition CompleteTemplate (strtmpl : string) (context : tvalue) : string + string :=
  match Parse strtmpl with
  | None => inr "error when parsing template"
  | Some tmpl => match Execute tmpl context with
                 | None => inr "error when executing template"
                 | Some s => inl s
                 end
  end%string.

Definition script_options (JobConf : JobConfig) (nodeName version advertiseAddress simpleArch : string) : tvalue :=
  TMap [("NodeName", TString nodeName); ("CaHash", TString (CaHash JobConf));
        ("AdvertiseAddress", TString advertiseAddress); ("BindPort", TString (ApiserverPort JobConf));
        ("AdmToken", TString (AdmToken JobConf)); ("Arch", TString simpleArch); ("K8sVersion", TString version)]%string.

(** The machine is dialled, and what follows runs with [defer client.Close()]. *)
Definition on_machine (JobConf : JobConfig) (attempts : nat) (nodeName nodeIp version advertiseAddress : string) (client : Client) : job unit :=
  let! archSession := or_fail "failed to get ssh client session" (new_session client) in
  let! out := or_fail "failed to get arch" (combined_output archSession "uname -m") in
  match out with
  | (_, Some err) => fail (Wrapped "failed to get arch" (OtherError err))
  | (arch, None) =>
      let simpleArch := getArch arch in
      if String.eqb simpleArch EmptyString then fail (UnsupportedArch arch)
      else
        do! or_fail "Failed to copy installation package"
              (ScpFile nodeIp (InstallPackage +:+ simpleArch +:+ "-" +:+ version +:+ ".tar.gz") (SSHPort JobConf) (Secret JobConf)) in
        let! scriptTmep := or_fail ("Failed to read file:" +:+ AddNodeScript) (read_file AddNodeScript) in
        match CompleteTemplate scriptTmep (script_options JobConf nodeName version advertiseAddress simpleArch) with
        | inr err => fail (BadTemplate err)
        | inl script =>
            let! scriptSession := or_fail "Failed to get ssh client session" (new_session client) in
            let! out := or_fail "Failed to add node" (combined_output scriptSession script) in
            match out with
            | (stdout, Some err) => fail (ScriptFailed err script stdout)
            | (_, None) =>
                reply! r := api (AddNodeLabel attempts nodeName (Some {[ NodeLabelKey := NodeLabel JobConf ]})) in
                match r with
                | inr err => fail (Polled ("Failed to label node " +:+ nodeName) err)
                | inl _ => ok tt
                end
            end
        end
  end.

(** From the second [defer] of [addNode] on: the address goes into the
    channel of errors at every return, the successful one included. *)
Definition install (JobConf : JobConfig) (attempts : nat) (nodeName nodeIp version advertiseAddress : string) : job unit :=
  deferred (ReportNode nodeIp)
    (let! client := or_fail "failed to get ssh client" (SShConnectNode nodeIp (SSHPort JobConf) (Secret JobConf)) in
     deferred (CloseClient client) (on_machine JobConf attempts nodeName nodeIp version advertiseAddress client)).

(** Its first [defer] gives the slot back. *)
Definition addNode (JobConf : JobConfig) (attempts : nat) (nodeName nodeIp version advertiseAddress : string) : job unit :=
  deferred ReleaseSlot
    (reply! r := api (get_node nodeName) in
     match r with
     | inr NotFound => install JobConf attempts nodeName nodeIp version advertiseAddress
     | inr err => fail (Wrapped ("failed to get node:" +:+ nodeName) err)
     | inl node =>
         if String.eqb (default EmptyString (mp (Labels (node_meta node)) !! NodeLabelKey)) (NodeLabel JobConf) then ok tt
         else
           reply! r := call (DeleteNode (Name (node_meta node))) in
           match r with
           | inr err => Ask (ReportNode nodeIp) (fun _ => fail (Wrapped ("failed to delete node:" +:+ nodeName) err))
           | inl _ => install JobConf attempts nodeName nodeIp version advertiseAddress
           end
     end).

(** The goroutine: an error is reported as an event, for the node that the
    variable of the loop names by then. *)
Definition goroutine (JobConf : JobConfig) (attempts : nat) (version : string) (nodeName nodeIp : string) : job unit :=
  reply! r := addNode JobConf attempts nodeName nodeIp version (ApiserverAddr JobConf) in
  match r with
  | inl _ => ok tt
  | inr err =>
      Ask ReadNode (fun r =>
        Ask (ReportEvent ("Node:" +:+ match r with inl node => node | inr _ => EmptyString end +:+ " installation failed") err)
          (fun _ => fail err))
  end.

End Job.

Arguments AuthMethod : clear implicits.
Arguments job_request : clear implicits.

End Install.

(** ** What the installation of a node asks for *)

Module InstallLog.
Import Install.

Lemma asks_poll {St : Type} (P : node_request (P := Empty_set) -> Prop) n (cond : St -> prog node_answer (St * (bool + poll_error))) attempts st :
  (forall st, asks P n (cond st)) -> asks P (attempts * n) (poll attempts cond st).
Proof.
  intros Hc. revert st. induction attempts as [|attempts IH]; intros st; [done|]. cbn [poll Nat.mul]. apply asks_bind; [apply Hc|].
  intros [st' [[]|e]]; [by destruct (attempts * n)%nat|apply IH|by destruct (attempts * n)%nat].
Qed.

Section Logs.
Context {Client Session Signer : Type} (ParsePrivateKey : string -> Signer + string).
Context (JobConf : JobConfig) (attempts : nat) (version : string).

Notation rq := (job_request Client Session Signer).

(** Neither channel is touched. *)
Definition quiet (q : rq) : Prop := match q with ReportNode _ | ReleaseSlot => False | _ => True end.

Lemma asks_label (name : string) (labels : gomap string) :
  asks quiet (2 * attempts) (api (AddNodeLabel attempts name labels)).
Proof.
  apply asks_lift. unfold AddNodeLabel. replace (2 * attempts)%nat with (attempts * 2 + 0)%nat by lia.
  apply asks_bind; [|done]. apply asks_poll. intros _. split; [done|]. intros [n|e]; [|done]. split; [done|]. by intros [|].
Qed.

Lemma asks_or_fail {A : Type} (P : rq -> Prop) n what (m : act job_answer api_error A) : asks P n m -> asks P n (or_fail what m).
Proof. intros Hm. replace n with (n + 0)%nat by lia. by apply asks_bind. Qed.

Lemma asks_connect ip port secret : asks quiet 2 (SShConnectNode (Session := Session) (Client := Client) ParsePrivateKey ip port secret).
Proof.
  unfold SShConnectNode. apply (asks_andthen _ 1 1); [by apply asks_call|]. intros _.
  destruct (SshKey secret) as [key|]; [|by apply asks_call]. destruct (ParsePrivateKey key); [by apply asks_call|done].
Qed.

Lemma asks_scp ip file port secret : asks quiet 1 (ScpFile (Client := Client) (Session := Session) (Signer := Signer) ip file port secret).
Proof. unfold ScpFile. destruct (negb _); [by apply asks_call|]. destruct (negb _); [by apply asks_call|done]. Qed.

Lemma asks_on_machine name ip adv client :
  asks quiet (6 + 2 * attempts) (on_machine (Session := Session) (Signer := Signer) JobConf attempts name ip version adv client).
Proof.
  unfold on_machine. apply (asks_andthen _ 1); [by apply asks_or_fail, asks_call|]. intros s1.
  apply (asks_andthen _ 1); [by apply asks_or_fail, asks_call|]. intros [arch [err|]]; [done|]. destruct (String.eqb _ _); [done|].
  apply (asks_andthen _ 1); [by apply asks_or_fail, asks_scp|]. intros _.
  apply (asks_andthen _ 1); [by apply asks_or_fail, asks_call|]. intros tmp. destruct (CompleteTemplate _ _) as [script|]; [|done].
  apply (asks_andthen _ 1); [by apply asks_or_fail, asks_call|]. intros s2.
  apply (asks_andthen _ 1); [by apply asks_or_fail, asks_call|]. intros [stdout [err|]]; [by destruct (2 * attempts)%nat|].
  replace (2 * attempts)%nat with (2 * attempts + 0)%nat by lia. apply asks_bind; [apply asks_label|]. by intros [|].
Qed.

(** The requests of a call that never touches a channel before it reports. *)
Definition installs (ip : string) (t t' : list rq) : Prop :=
  exists l, t' = t ++ l ++ [ReportNode ip] /\ Forall quiet l /\ (length l <= 9 + 2 * attempts)%nat.

Lemma deferred_log {A : Type} (Q : list rq -> A -> Prop) (q : rq) (p : prog job_answer A) t :
  histories (fun t' a => Q (t' ++ [q]) a) t p -> histories Q t (deferred q p).
Proof. intros Hp. apply histories_bind. eapply histories_mono; [exact Hp|]. intros t' a H r. exact H. Qed.

Lemma install_log name ip adv t :
  histories (fun t' _ => installs ip t t') t (install ParsePrivateKey JobConf attempts name ip version adv).
Proof.
  apply deferred_log. eapply histories_mono.
  - apply (asks_histories quiet (2 + (6 + 2 * attempts + 1))). apply asks_andthen; [apply asks_or_fail, asks_connect|]. intros c.
    apply asks_bind; [apply asks_on_machine|]. intros r. by split.
  - intros t' r (l & -> & Hl & Hn). exists l. rewrite <- app_assoc. split_and!; [done|done|lia].
Qed.

(** The history of a call: either the node was only looked at, or the address
    was reported, whether the installation succeeded or not; the slot is given
    back last. *)
Definition call_log (name ip : string) (t : list rq) : Prop :=
  exists l, t = l ++ [ReleaseSlot]
  /\ (l = [Api (GetNode name)]
      \/ exists l1, l = l1 ++ [ReportNode ip] /\ Forall quiet l1 /\ (length l1 <= 11 + 2 * attempts)%nat).

Lemma addNode_log name ip adv :
  histories (fun t _ => call_log name ip t) [] (addNode ParsePrivateKey JobConf attempts name ip version adv).
Proof.
  apply deferred_log. cbn [bind api lift get_node call].
  assert (forall t0, Forall quiet t0 -> (length t0 <= 2)%nat ->
    histories (fun t' _ => call_log name ip (t' ++ [ReleaseSlot])) t0 (install ParsePrivateKey JobConf attempts name ip version adv)) as Hins.
  { intros t0 Hq Hl. eapply histories_mono; [apply install_log|]. intros t' r (l & -> & Hl' & Hn). eexists. split; [done|]. right.
    exists (t0 ++ l). rewrite app_assoc. split_and!; [done|by apply Forall_app|rewrite length_app; lia]. }
  intros [node|e].
  - destruct (String.eqb _ _); [eexists; split; [done|by left]|]. intros [u|err]; [apply Hins; [by repeat constructor|simpl; lia]|].
    intros r. eexists. split; [done|]. right. exists [Api (GetNode name); DeleteNode (Name (node_meta node))].
    split_and!; [done|by repeat constructor|simpl; lia].
  - destruct e; try (eexists; split; [done|by left]). apply Hins; [by repeat constructor|simpl; lia].
Qed.

(** The whole goroutine; an error is reported as an event after the slot was
    given back. *)
Definition body_log (name ip : string) (t : list rq) : Prop :=
  exists t1 t2, t = t1 ++ t2 /\ call_log name ip t1
  /\ (t2 = [] \/ exists reason e, t2 = [ReadNode; ReportEvent reason e]).

Lemma goroutine_log name ip :
  histories (fun t _ => body_log name ip t) [] (goroutine ParsePrivateKey JobConf attempts version name ip).
Proof.
  apply histories_bind. eapply histories_mono; [apply addNode_log|]. intros t [u|err] Ht.
  - exists t, []. rewrite app_nil_r. split_and!; [done|done|by left].
  - intros r r'. exists t, [ReadNode; ReportEvent ("Node:" +:+ match r with inl node => node | inr _ => EmptyString end +:+ " installation failed") err].
    rewrite <- app_assoc. split_and!; [done|done|right; eauto].
Qed.

(** *** What the histories imply *)

Definition is_report (q : rq) : bool := match q with ReportNode _ => true | _ => false end.
Definition is_release (q : rq) : bool := match q with ReleaseSlot => true | _ => false end.
Definition reports (t : list rq) : nat := length (filter (fun q => is_report q = true) t).
Definition releases (t : list rq) : nat := length (filter (fun q => is_release q = true) t).

(** The most requests of a goroutine. *)
Definition longest : nat := 15 + 2 * attempts.

Lemma quiet_counts (l : list rq) : Forall quiet l -> reports l = 0%nat /\ releases l = 0%nat.
Proof.
  unfold reports, releases. induction 1 as [|q l Hq _ [IH1 IH2]]; [done|]. by rewrite !filter_cons; destruct q.
Qed.

Lemma counts_app (l l' : list rq) : reports (l ++ l') = (reports l + reports l')%nat /\ releases (l ++ l') = (releases l + releases l')%nat.
Proof. unfold reports, releases. by rewrite !filter_app, !length_app. Qed.

Lemma call_log_counts name ip t l : call_log name ip t -> t = l ++ [ReleaseSlot] ->
  (reports l <= 1)%nat /\ releases l = 0%nat /\ (length l <= 12 + 2 * attempts)%nat
  /\ (reports l = 0%nat -> l = [Api (GetNode name)]).
Proof.
  intros (l' & -> & Hl) E. apply app_inj_tail in E as [<- _]. destruct Hl as [-> |(l1 & -> & Hq & Hn)].
  - split_and!; [vm_compute; lia|done|simpl; lia|done].
  - destruct (quiet_counts l1 Hq) as [Hr Hs], (counts_app l1 [ReportNode ip]) as [Hr' Hs']. rewrite Hr in Hr'. rewrite Hs in Hs'.
    change (reports [ReportNode ip]) with 1%nat in Hr'. change (releases [ReportNode ip]) with 0%nat in Hs'.
    split_and!; [lia|lia|rewrite length_app; simpl; lia|lia].
Qed.

Lemma body_log_counts name ip t : body_log name ip t ->
  (reports t <= 1)%nat /\ releases t = 1%nat /\ (length t <= longest)%nat.
Proof.
  intros (t1 & t2 & -> & Hc & H2). pose proof Hc as (l & -> & _).
  destruct (call_log_counts name ip _ l Hc eq_refl) as (Hr & Hs & Hn & _).
  destruct (counts_app (l ++ [ReleaseSlot]) t2) as [-> ->], (counts_app l [ReleaseSlot]) as [-> ->].
  change (reports [ReleaseSlot]) with 0%nat. change (releases [ReleaseSlot]) with 1%nat. rewrite !length_app. unfold longest.
  assert (reports t2 = 0%nat /\ releases t2 = 0%nat /\ (length t2 <= 2)%nat) as (-> & -> & ?).
  { destruct H2 as [-> |(reason & e & ->)]; split_and!; done || (simpl; lia). }
  simpl length. lia.
Qed.

(** Before the slot is given back, the rest of a call's history can only be
    what follows; afterwards there is at most the event. *)
Lemma released_log name ip t t' : body_log name ip (t ++ t') -> (0 < releases t)%nat ->
  reports t' = 0%nat /\ releases t' = 0%nat.
Proof.
  intros Hb Hr. pose proof (body_log_counts _ _ _ Hb) as (_ & Hs & _).
  destruct (counts_app t t') as [_ Hs']. split; [|lia].
  destruct Hb as (t1 & t2 & E & (l & -> & Hl) & H2).
  assert (releases l = 0%nat) as Hl0.
  { eapply (call_log_counts name ip); [|reflexivity]. by eexists. }
  assert (reports t2 = 0%nat) as H20 by (by destruct H2 as [-> |(? & ? & ->)]).
  rewrite <- app_assoc in E. simpl in E. apply app_eq_app in E as (m & [[-> Em]|[-> ->]]).
  - destruct m as [|q m]; [rewrite app_nil_r in Hr; lia|]. simplify_eq/=. pose proof (counts_app m t') as [E _]. lia.
  - pose proof (counts_app t m) as [_ E]. lia.
Qed.

End Logs.

Arguments longest : clear implicits.

End InstallLog.
