(* ===== verification/PenetratorPool.v ===== *)
(** * Installing several nodes at once (pkg/penetrator/job/addnode.go, AddNodes)

    The main goroutine of the job starts one goroutine per machine and hands
    it the machine through the two variables of its loop, which it has often
    overwritten by the time the goroutine reads them.  It fills a channel of
    slots, waits until the channel is empty and looks at the channel of
    errors.  A state has the place of the main goroutine, the variables, the
    channels and the goroutines; a step is one of the main goroutine, one of
    another, or a meeting of the two on a channel without a buffer. *)

From Stdlib Require Import ZArith Lia Ascii String.
From stdpp Require Import base strings gmap numbers sorting list.
From S2P Require Import Prelude.
From S2P Require Import GoStd.
From S2P Require Import K8s.
From S2P Require Import Requests.
From S2P Require Import KubeNode.
From S2P Require Import PenetratorJob.
Import Install InstallLog.

Local Open Scope Z_scope.
Local Open Scope go_scope.

Module Pool.

(** Where the main goroutine is: at the top of the loop with the machines
    still to come; between the assignments of its two variables; at the [go]
    statement; at the send on the channel of slots; at the wait for the slots;
    in the loop that empties the channel of errors; at the end, with the exit
    status and the addresses of the last event. *)
Inductive main_at : Type :=
| Next (todo : list (string * string))
| Assigned (ip : string) (todo : list (string * string))
| Spawn (todo : list (string * string))
| Sending (todo : list (string * string))
| Waiting
| Draining (errNodes : list string) (i : nat)
| Exited (code : Z) (reported : option (list string)).

(** What rest.InClusterConfig, kubernetes.NewForConfig and ServerVersion gave. *)
Inductive cluster : Type := NoClient | NoVersion | GitVersion.

Inductive label : Type :=
| LMain
| LName (i : nat)
| LIp (i : nat)
| LRun (i : nat)
| LMeet (i : nat).

Section Pool.
Context `{R : GoRange} {Client Session Signer : Type} (ParsePrivateKey : string -> Signer + string).
Context {World : Type} (serve : forall q : job_request Client Session Signer, World -> World * (job_answer q + api_error)).
Context (JobConf : JobConfig) (attempts : nat) (version : string).

Notation rq := (job_request Client Session Signer).
Notation code := (prog (@job_answer Client Session Signer) (unit + job_error)).

(** A goroutine reads the two variables, in either order, and then runs; the
    requests it has made are kept as its history. *)
Inductive worker : Type :=
| Reading (name ip : option string)
| Running (name ip : string) (log : list rq) (p : code).

Definition called (name ip : option string) : worker :=
  match name, ip with
  | Some name, Some ip => Running name ip [] (goroutine ParsePrivateKey JobConf attempts version name ip)
  | _, _ => Reading name ip
  end.

Record pool : Type := mkPool {
  j_main : main_at;
  j_name : string;
  j_ip : string;
  j_addch : nat;
  j_errch : list string;
  j_workers : list worker;
  j_world : World
}.

Definition with_main (s : pool) (m : main_at) : pool :=
  mkPool m (j_name s) (j_ip s) (j_addch s) (j_errch s) (j_workers s) (j_world s).
Definition with_addch (s : pool) (n : nat) : pool :=
  mkPool (j_main s) (j_name s) (j_ip s) n (j_errch s) (j_workers s) (j_world s).
Definition with_errch (s : pool) (l : list string) : pool :=
  mkPool (j_main s) (j_name s) (j_ip s) (j_addch s) l (j_workers s) (j_world s).
Definition with_worker (s : pool) (i : nat) (w : worker) : pool :=
  mkPool (j_main s) (j_name s) (j_ip s) (j_addch s) (j_errch s) (<[i := w]> (j_workers s)) (j_world s).
Definition with_world (s : pool) (w : World) : pool :=
  mkPool (j_main s) (j_name s) (j_ip s) (j_addch s) (j_errch s) (j_workers s) w.

(** The machines, in the order of the loop. *)
Definition machines : list (string * string) := go_range (mp (NodesIps JobConf)).

Section Run.
(** The capacity of the channel of slots. *)
Context (nodes : nat).

(** The [for i := 0; i < len(errch); i++] loop compares with what is left in
    the channel. *)
Definition step_main (s : pool) : option pool :=
  match j_main s with
  | Next [] => Some (with_main s Waiting)
  | Next ((name, ip) :: todo) =>
      Some (mkPool (Assigned ip todo) name (j_ip s) (j_addch s) (j_errch s) (j_workers s) (j_world s))
  | Assigned ip todo =>
      Some (mkPool (Spawn todo) (j_name s) ip (j_addch s) (j_errch s) (j_workers s) (j_world s))
  | Spawn todo =>
      Some (mkPool (Sending todo) (j_name s) (j_ip s) (j_addch s) (j_errch s) (j_workers s ++ [Reading None None]) (j_world s))
  | Sending todo => if decide (j_addch s < nodes)%nat then Some (with_main (with_addch s (S (j_addch s))) (Next todo)) else None
  | Waiting =>
      match j_addch s with
      | O => Some (with_main s (match j_errch s with
                                | [] => Exited 0 None
                                | _ => Draining (replicate (length (j_errch s)) EmptyString) 0
                                end))
      | S _ => None
      end
  | Draining errNodes i =>
      match j_errch s with
      | e :: errch =>
          if decide (i < length (j_errch s))%nat then Some (with_main (with_errch s errch) (Draining (<[i := e]> errNodes) (S i)))
          else Some (with_main s (Exited 1 (Some errNodes)))
      | [] => Some (with_main s (Exited 1 (Some errNodes)))
      end
  | Exited _ _ => None
  end.

(** A request of a goroutine.  The channel of errors has room for one address
    per machine. *)
Definition step_request (s : pool) (q : rq) (k : job_answer q + api_error -> code) : option (pool * code) :=
  match q return (job_answer q + api_error -> code) -> option (pool * code) with
  | ReportNode ip => fun k =>
      if decide (length (j_errch s) < length machines)%nat then Some (with_errch s (j_errch s ++ [ip]), k (inl tt)) else None
  | ReleaseSlot => fun k => match j_addch s with O => None | S n => Some (with_addch s n, k (inl tt)) end
  | ReadNode => fun k => Some (s, k (inl (j_name s)))
  | q => fun k => let '(w, r) := serve q (j_world s) in Some (with_world s w, k r)
  end k.

Definition step_worker (i : nat) (s : pool) : option pool :=
  match j_workers s !! i with
  | Some (Running name ip log (Ask q k)) =>
      option_map (fun '(s', p) => with_worker s' i (Running name ip (log ++ [q]) p)) (step_request s q k)
  | _ => None
  end.

(** A send on a channel without a buffer, and its receive. *)
Definition step_meet (i : nat) (s : pool) : option pool :=
  match nodes, j_main s, j_workers s !! i with
  | O, Sending todo, Some (Running name ip log (Ask q k)) =>
      match q return (job_answer q + api_error -> code) -> option pool with
      | ReleaseSlot => fun k => Some (with_main (with_worker s i (Running name ip (log ++ [ReleaseSlot]) (k (inl tt)))) (Next todo))
      | _ => fun _ => None
      end k
  | _, _, _ => None
  end.

(** The process is over when its main goroutine is. *)
Definition step (l : label) (s : pool) : option pool :=
  match j_main s with
  | Exited _ _ => None
  | _ =>
      match l with
      | LMain => step_main s
      | LName i => match j_workers s !! i with
                   | Some (Reading None ip) => Some (with_worker s i (called (Some (j_name s)) ip))
                   | _ => None
                   end
      | LIp i => match j_workers s !! i with
                 | Some (Reading name None) => Some (with_worker s i (called name (Some (j_ip s))))
                 | _ => None
                 end
      | LRun i => step_worker i s
      | LMeet i => step_meet i s
      end
  end.

Fixpoint run_steps (ls : list label) (s : pool) : option pool :=
  match ls with
  | [] => Some s
  | l :: ls => match step l s with Some s' => run_steps ls s' | None => None end
  end.

End Run.

Definition at_main (m : main_at) (w : World) : pool := mkPool m EmptyString EmptyString 0 [] [] w.

(** [AddNodes]; without the server's version it returns, and the job has
    succeeded. *)
Definition AddNodes (nodes : Z) (c : cluster) (w : World) : outcome pool :=
  if nodes <? 0 then Panic "makechan: size out of range"
  else match c with
       | NoClient => Ret (at_main (Exited 255 None) w)
       | NoVersion => Ret (at_main (Exited 0 None) w)
       | GitVersion => Ret (at_main (Next machines) w)
       end.

Inductive reachable (nodes : Z) (w : World) : pool -> Prop :=
| reachable_start s : AddNodes nodes GitVersion w = Ret s -> reachable nodes w s
| reachable_step s l s' : reachable nodes w s -> step (Z.to_nat nodes) l s = Some s' -> reachable nodes w s'.

End Pool.
End Pool.

(** ** Counting over the goroutines *)

Module Counting.

Fixpoint total {A : Type} (f : A -> nat) (l : list A) : nat := match l with [] => 0 | x :: l => f x + total f l end%nat.

Section Total.
Context {A : Type} (f : A -> nat).
Implicit Types (l : list A).

Lemma total_app l l' : total f (l ++ l') = (total f l + total f l')%nat.
Proof. induction l as [|x l IH]; simpl; lia. Qed.

Lemma total_insert l i x y : l !! i = Some x -> (total f (<[i := y]> l) + f x = total f l + f y)%nat.
Proof.
  revert i. induction l as [|z l IH]; intros [|i] H; simpl in *; simplify_eq; [lia|].
  specialize (IH i H). lia.
Qed.

Lemma total_le l : (forall i x, l !! i = Some x -> (f x <= 1)%nat) -> (total f l <= length l)%nat.
Proof.
  induction l as [|z l IH]; intros H; simpl; [lia|].
  pose proof (H 0%nat z eq_refl). specialize (IH (fun i => H (S i))). lia.
Qed.

Lemma total_lt l i x : (forall i x, l !! i = Some x -> (f x <= 1)%nat) -> l !! i = Some x -> f x = 0%nat -> (total f l < length l)%nat.
Proof.
  intros H Hx H0. revert i Hx H. induction l as [|z l IH]; intros [|i] Hx H; simpl in *; simplify_eq.
  - rewrite H0. pose proof (total_le l (fun i => H (S i))). lia.
  - pose proof (H 0%nat z eq_refl). specialize (IH i Hx (fun i => H (S i))). lia.
Qed.

(** One that does not count, if they are fewer than all. *)
Lemma total_some l : (forall i x, l !! i = Some x -> (f x <= 1)%nat) -> (total f l < length l)%nat -> exists i x, l !! i = Some x /\ f x = 0%nat.
Proof.
  induction l as [|z l IH]; intros H Hl; simpl in *; [lia|].
  destruct (decide (f z = 0%nat)) as [|Hz]; [by exists 0%nat, z|].
  pose proof (H 0%nat z eq_refl). destruct IH as (i & x & Hx & Hfx); [intros i; apply (H (S i))|lia|]. by exists (S i), x.
Qed.

Lemma total_zero l : total f l = 0%nat <-> forall i x, l !! i = Some x -> f x = 0%nat.
Proof.
  split.
  - induction l as [|z l IH]; intros H [|i] x Hx; simpl in *; simplify_eq; [lia|]. apply (IH ltac:(lia) i x Hx).
  - induction l as [|z l IH]; intros H; simpl; [done|]. rewrite (H 0%nat z eq_refl), IH; [done|]. intros i. apply (H (S i)).
Qed.

End Total.
End Counting.

(** ** What holds in every state *)

Module PoolInv.
Import Pool Counting.

Section Inv.
Context `{R : GoRange} {Client Session Signer : Type} (ParsePrivateKey : string -> Signer + string).
Context {World : Type} (serve : forall q : job_request Client Session Signer, World -> World * (job_answer q + api_error)).
Context (JobConf : JobConfig) (attempts : nat) (version : string) (nodes : nat).

Notation worker := (worker (Client := Client) (Session := Session) (Signer := Signer)).
Notation pool := (@pool Client Session Signer World).
Notation step := (step ParsePrivateKey serve JobConf attempts version nodes).
Notation machines := (machines JobConf).

(** What a goroutine does is what its code allows. *)
Definition worker_ok (w : worker) : Prop :=
  match w with
  | Reading name ip => name = None \/ ip = None
  | Running name ip log p => histories (fun t _ => body_log attempts name ip t) log p
  end.

Definition released (w : worker) : nat := match w with Running _ _ log _ => releases log | Reading _ _ => 0 end.
Definition reported (w : worker) : nat := match w with Running _ _ log _ => reports log | Reading _ _ => 0 end.

(** Machines not handed out yet, and whether the send is still to come. *)
Definition left (m : main_at) : nat :=
  match m with
  | Next todo | Sending todo => length todo
  | Assigned _ todo | Spawn todo => S (length todo)
  | _ => 0
  end.
Definition unsent (m : main_at) : nat := match m with Sending _ => 1 | _ => 0 end.

(** The channel of errors, by the place of the main goroutine. *)
Definition errors_ok (m : main_at) (errch n addch : nat) : Prop :=
  match m with
  | Draining errNodes i => (errch + i = n)%nat /\ (0 < n)%nat /\ addch = 0%nat /\ length errNodes = n
  | Exited code _ => addch = 0%nat /\ (code = 0 <-> n = 0%nat) /\ (code = 0 \/ code = 1)
  | _ => errch = n
  end.

Record inv (s : pool) : Prop := {
  inv_workers : forall i w, j_workers s !! i = Some w -> worker_ok w;
  inv_left : (length (j_workers s) + left (j_main s) = length machines)%nat;
  inv_slots : (j_addch s + total released (j_workers s) + unsent (j_main s) = length (j_workers s))%nat;
  inv_cap : (j_addch s <= nodes)%nat;
  inv_errors : errors_ok (j_main s) (length (j_errch s)) (total reported (j_workers s)) (j_addch s)
}.

Lemma worker_counts w : worker_ok w -> (released w <= 1)%nat /\ (reported w <= 1)%nat.
Proof.
  destruct w as [|name ip log p]; simpl; [lia|]. intros (t & a & Hb)%histories_some.
  pose proof (body_log_counts _ _ _ _ Hb) as (Hr & Hs & _). destruct (counts_app log t). lia.
Qed.

(** A goroutine that has made one more request. *)
Lemma asked_counts name ip log q k : worker_ok (Running name ip log (Ask q k)) ->
  (reports log + (if is_report q then 1 else 0) <= 1)%nat /\ (releases log + (if is_release q then 1 else 0) <= 1)%nat
  /\ (length log < longest attempts)%nat /\ (is_report q = true -> releases log = 0%nat).
Proof.
  intros Hw. destruct (histories_some _ _ _ (Hw (inr NotFound))) as (t & a & Hb). rewrite <- app_assoc in Hb.
  pose proof (body_log_counts _ _ _ _ Hb) as (Hr & Hs & Hl). destruct (counts_app log ([q] ++ t)) as [E1 E2], (counts_app [q] t) as [E3 E4].
  rewrite E1, E3 in Hr. rewrite E2, E4 in Hs. rewrite !length_app in Hl. simpl in Hl.
  assert (reports [q] = if is_report q then 1 else 0)%nat as Hq1 by (by destruct q).
  assert (releases [q] = if is_release q then 1 else 0)%nat as Hq2 by (by destruct q).
  split_and!; [lia|lia|lia|]. intros Hq. rewrite Hq in Hq1. destruct (decide (releases log = 0%nat)) as [|Hne]; [done|].
  destruct (released_log _ _ _ _ _ Hb) as [H1 _]; lia.
Qed.

Lemma worker_asked name ip log q k r : worker_ok (Running name ip log (Ask q k)) -> worker_ok (Running name ip (log ++ [q]) (k r)).
Proof. intros Hw. apply Hw. Qed.

Lemma asked_released name ip log q p :
  released (Running name ip (log ++ [q]) p) = (releases log + if is_release q then 1 else 0)%nat
  /\ reported (Running name ip (log ++ [q]) p) = (reports log + if is_report q then 1 else 0)%nat.
Proof. simpl. destruct (counts_app log [q]) as [-> ->]. by destruct q. Qed.

Lemma workers_counts s : inv s -> forall i w, j_workers s !! i = Some w -> (released w <= 1)%nat /\ (reported w <= 1)%nat.
Proof. intros Hs i w Hw. eapply worker_counts, inv_workers; eauto. Qed.

(** When no slot is taken and none is to come, every call is over. *)
Lemma all_released s : inv s -> j_addch s = 0%nat -> unsent (j_main s) = 0%nat ->
  forall i w, j_workers s !! i = Some w -> released w = 1%nat.
Proof.
  intros Hs H0 Hu i w Hw. pose proof (workers_counts s Hs i w Hw) as [H1 _].
  destruct (decide (released w = 0%nat)) as [E|]; [|lia].
  pose proof (total_lt released _ _ _ (fun j x Hx => proj1 (workers_counts s Hs j x Hx)) Hw E). pose proof (inv_slots s Hs). lia.
Qed.

Lemma room_to_report s i name ip log q k : inv s ->
  j_workers s !! i = Some (Running name ip log (Ask q k)) -> is_report q = true ->
  (match j_main s with Draining _ _ | Exited _ _ => False | _ => True end) /\ (length (j_errch s) < length machines)%nat.
Proof.
  intros Hs Hw Hq. pose proof (asked_counts _ _ _ _ _ (inv_workers s Hs i _ Hw)) as (Hr & _ & _ & Hrel). rewrite Hq in Hr.
  pose proof (inv_errors s Hs) as He.
  assert (match j_main s with Draining _ _ | Exited _ _ => False | _ => True end) as Hm.
  { destruct (j_main s) eqn:E; try done; simpl in He;
      [assert (j_addch s = 0%nat) as H0 by apply He|assert (j_addch s = 0%nat) as H0 by apply He];
      pose proof (all_released s Hs H0 ltac:(by rewrite E) i _ Hw) as H1; simpl in H1; rewrite (Hrel Hq) in H1; done. }
  split; [done|]. assert (length (j_errch s) = total reported (j_workers s)) as -> by (by destruct (j_main s)).
  assert (total reported (j_workers s) < length (j_workers s))%nat.
  { apply (total_lt reported _ i _ (fun j x Hx => proj2 (workers_counts s Hs j x Hx)) Hw). simpl. lia. }
  pose proof (inv_left s Hs). lia.
Qed.

(** *** Steps *)

(** A goroutine moves without a channel. *)
Lemma inv_quiet s i w w' world : inv s -> j_workers s !! i = Some w -> worker_ok w' ->
  released w' = released w -> reported w' = reported w ->
  inv (with_worker (with_world s world) i w').
Proof.
  intros Hs Hw Hok Hr Hp. pose proof (total_insert released _ i w w' Hw). pose proof (total_insert reported _ i w w' Hw).
  destruct s as [m n a sl er ws wo]; destruct Hs as [H1 H2 H3 H4 H5]; constructor; simpl in *.
  - intros j x [(-> & <- & _)|[_ Hx]]%list_lookup_insert_Some; [done|by eapply H1].
  - by rewrite length_insert.
  - rewrite length_insert. lia.
  - done.
  - by replace (total reported (<[i:=w']> ws)) with (total reported ws) by lia.
Qed.

Lemma inv_request s i name ip log q k s' p : inv s ->
  j_workers s !! i = Some (Running name ip log (Ask q k)) -> step_request serve JobConf s q k = Some (s', p) ->
  inv (with_worker s' i (Running name ip (log ++ [q]) p)).
Proof.
  intros Hs Hw Hstep. pose proof (inv_workers s Hs i _ Hw) as Hok.
  destruct (asked_released name ip log q p) as [Hrel Hrep].
  set (w := Running name ip log (Ask q k)) in *. set (w' := Running name ip (log ++ [q]) p) in *.
  assert (worker_ok w') as Hok'.
  { destruct q; simpl in Hstep; try (destruct (serve _ _) as [wo r]; simplify_eq; by apply worker_asked);
      [simplify_eq; by apply worker_asked|case_decide; simplify_eq; by apply worker_asked|destruct (j_addch s); simplify_eq; by apply worker_asked]. }
  pose proof (total_insert released _ i w w' Hw) as Et. pose proof (total_insert reported _ i w w' Hw) as Ep.
  destruct (is_report q) eqn:Hq; [|destruct (is_release q) eqn:Hq'].
  - destruct (room_to_report s i name ip log q k Hs Hw Hq) as [Hm Hroom]. destruct q; try done. simpl in Hstep.
    case_decide; simplify_eq. simpl in Hrel, Hrep, Et, Ep.
    destruct s as [m n a sl er ws wo]; destruct Hs as [H1 H2 H3 H4 H5]; constructor; simpl in *.
    + intros j x [(-> & <- & _)|[_ Hx]]%list_lookup_insert_Some; [done|by eapply H1].
    + by rewrite length_insert.
    + rewrite length_insert. lia.
    + done.
    + rewrite length_app. simpl. destruct m; simpl in *; try done; lia.
  - destruct q; try done. simpl in Hstep. destruct (j_addch s) as [|sl'] eqn:Esl; simplify_eq. simpl in Hrel, Hrep, Et, Ep.
    destruct s as [m n a sl er ws wo]; destruct Hs as [H1 H2 H3 H4 H5]; constructor; simpl in *; subst sl.
    + intros j x [(-> & <- & _)|[_ Hx]]%list_lookup_insert_Some; [done|by eapply H1].
    + by rewrite length_insert.
    + rewrite length_insert. lia.
    + lia.
    + replace (total reported (<[i:=w']> ws)) with (total reported ws) by lia. destruct m; simpl in *; try done; lia.
  - assert (exists wo, s' = with_world s wo) as [wo ->].
    { destruct q; simpl in Hstep; try done; try (destruct (serve _ _) as [wo r]; simplify_eq; by eauto).
      simplify_eq. exists (j_world s'). by destruct s'. }
    apply (inv_quiet s i w w' wo Hs Hw Hok'); simpl in *; lia.
Qed.

Lemma called_ok name ip : worker_ok (called ParsePrivateKey JobConf attempts version name ip).
Proof. destruct name as [name|], ip as [ip|]; simpl; auto. apply goroutine_log. Qed.

Lemma called_counts name ip :
  released (called ParsePrivateKey JobConf attempts version name ip) = 0%nat
  /\ reported (called ParsePrivateKey JobConf attempts version name ip) = 0%nat.
Proof. by destruct name, ip. Qed.

Lemma inv_meet s i s' : inv s -> step_meet nodes i s = Some s' -> inv s'.
Proof.
  intros Hs Hstep. unfold step_meet in Hstep. destruct nodes as [|] eqn:En; [|done].
  destruct (j_main s) as [| | |todo| | |] eqn:Em; try done. destruct (j_workers s !! i) as [[|name ip log [|q k]]|] eqn:Hw; try done.
  pose proof (inv_workers s Hs i _ Hw) as Hok. destruct q; try done. simplify_eq.
  destruct (asked_released name ip log ReleaseSlot (k (inl tt))) as [Hrel Hrep].
  pose proof (total_insert released _ i _ (Running name ip (log ++ [ReleaseSlot]) (k (inl tt))) Hw) as Et.
  pose proof (total_insert reported _ i _ (Running name ip (log ++ [ReleaseSlot]) (k (inl tt))) Hw) as Ep.
  set (w' := Running name ip (log ++ [ReleaseSlot]) (k (inl tt))) in *.
  destruct s as [m n a sl er ws wo]; destruct Hs as [H1 H2 H3 H4 H5]; simpl in *; subst m; constructor; simpl in *.
  - intros j x [(-> & <- & _)|[_ Hx]]%list_lookup_insert_Some; [exact (Hok (inl tt))|by eapply H1].
  - by rewrite length_insert.
  - rewrite length_insert. lia.
  - lia.
  - lia.
Qed.

Lemma inv_main s s' : inv s -> step_main nodes s = Some s' -> inv s'.
Proof.
  intros Hs Hstep. unfold step_main in Hstep. destruct s as [m n a sl er ws wo]; destruct Hs as [H1 H2 H3 H4 H5]; simpl in *.
  destruct m as [[|[name ip] todo]|ip todo|todo|todo| |errNodes i|]; simplify_eq; simpl in *.
  - by constructor.
  - by constructor.
  - by constructor.
  - constructor; simpl.
    + intros j x [Hx|[_ Hx]]%lookup_app_Some; [by eapply H1|]. apply list_lookup_singleton_Some in Hx as [_ <-]. by left.
    + rewrite length_app. simpl. lia.
    + rewrite length_app, total_app. simpl. lia.
    + done.
    + rewrite total_app. simpl. lia.
  - case_decide; simplify_eq. constructor; simpl; [done|lia|lia|lia|done].
  - destruct sl as [|sl]; [|done]. simplify_eq. constructor; simpl; [done| | |done|]; destruct er as [|e er]; simpl in *; try lia.
    rewrite length_replicate. split_and!; lia.
  - destruct H5 as (He & Hn & -> & Hl). destruct er as [|e er].
    + simplify_eq. constructor; simpl; [done|lia|lia|done|]. split_and!; [done|split; intros; lia|by right].
    + case_decide; simplify_eq; constructor; simpl in *; try done; try lia.
      rewrite length_insert. split_and!; lia.
Qed.

Lemma job_inv_step l s s' : inv s -> step l s = Some s' -> inv s'.
Proof.
  intros Hs Hstep. unfold Pool.step in Hstep.
  assert (match l with
    | LMain => step_main nodes s
    | LName i => match j_workers s !! i with
                 | Some (Reading None ip) => Some (with_worker s i (called ParsePrivateKey JobConf attempts version (Some (j_name s)) ip))
                 | _ => None end
    | LIp i => match j_workers s !! i with
                 | Some (Reading name None) => Some (with_worker s i (called ParsePrivateKey JobConf attempts version name (Some (j_ip s))))
                 | _ => None end
    | LRun i => step_worker serve JobConf i s
    | LMeet i => step_meet nodes i s
    end = Some s') as H by (by destruct (j_main s)). clear Hstep.
  destruct l as [|i|i|i|i].
  - by apply (inv_main s).
  - destruct (j_workers s !! i) as [[[|] ip|]|] eqn:Hw; simplify_eq. destruct (called_counts (Some (j_name s)) ip).
    replace s with (with_world s (j_world s)) at 1 by (by destruct s). eapply inv_quiet; eauto. apply called_ok.
  - destruct (j_workers s !! i) as [[name [|]|]|] eqn:Hw; simplify_eq. destruct (called_counts name (Some (j_ip s))).
    replace s with (with_world s (j_world s)) at 1 by (by destruct s). eapply inv_quiet; eauto. apply called_ok.
  - unfold step_worker in H. destruct (j_workers s !! i) as [[|name ip log [|q k]]|] eqn:Hw; try done.
    destruct (step_request serve JobConf s q k) as [[s1 p]|] eqn:Hq; simplify_eq/=. by eapply inv_request.
  - by eapply inv_meet.
Qed.

Lemma job_inv_start w : inv (at_main (Next machines) w).
Proof. constructor; simpl; [done|done|done|lia|done]. Qed.

End Inv.
End PoolInv.

(** ** Runs *)

Module PoolRuns.
Import Pool Counting PoolInv.

Section Runs.
Context `{R : GoRange} {Client Session Signer : Type} (ParsePrivateKey : string -> Signer + string).
Context {World : Type} (serve : forall q : job_request Client Session Signer, World -> World * (job_answer q + api_error)).
Context (JobConf : JobConfig) (attempts : nat) (version : string) (nodes : nat).

Notation worker := (worker (Client := Client) (Session := Session) (Signer := Signer)).
Notation pool := (@pool Client Session Signer World).
Notation step := (step ParsePrivateKey serve JobConf attempts version nodes).
Notation run_steps := (run_steps ParsePrivateKey serve JobConf attempts version nodes).
Notation called := (called ParsePrivateKey JobConf attempts version).
Notation machines := (machines JobConf).
Notation inv := (inv JobConf attempts nodes).

(** Requests that are answered in the process. *)
Definition is_local (q : job_request Client Session Signer) : bool :=
  match q with ReadNode | ReportNode _ | ReleaseSlot => true | _ => false end.

(** What a goroutine does in a step of its own. *)
Inductive moves (s : pool) : worker -> worker -> World -> Prop :=
| reads_name ip : moves s (Reading None ip) (called (Some (j_name s)) ip) (j_world s)
| reads_ip name : moves s (Reading name None) (called name (Some (j_ip s))) (j_world s)
| uses_channel name ip log q k r : is_local q = true ->
    moves s (Running name ip log (Ask q k)) (Running name ip (log ++ [q]) (k r)) (j_world s)
| asks_world name ip log q k : is_local q = false ->
    moves s (Running name ip log (Ask q k)) (Running name ip (log ++ [q]) (k (snd (serve q (j_world s))))) (fst (serve q (j_world s))).

Definition after_worker (s s' : pool) : Prop :=
  exists i w w', j_workers s !! i = Some w /\ moves s w w' (j_world s') /\ j_workers s' = <[i := w']> (j_workers s)
  /\ j_name s' = j_name s /\ j_ip s' = j_ip s
  /\ (j_main s' = j_main s \/ exists todo, j_main s = Sending todo /\ j_main s' = Next todo)
  /\ (j_errch s' = j_errch s \/ exists name ip log q k, w = Running name ip log (Ask q k) /\ is_report q = true).

Lemma step_cases l s s' : step l s = Some s' -> step_main nodes s = Some s' \/ after_worker s s'.
Proof.
  intros Hstep. unfold Pool.step in Hstep.
  destruct l as [|i|i|i|i]; [left; by destruct (j_main s)|right..].
  - destruct (j_main s); try done; destruct (j_workers s !! i) as [[[|] ip'|? ? ? ?]|] eqn:Hw; simplify_eq;
      exists i, (Reading None ip'), (called (Some (j_name s)) ip');
      (split_and!; [exact Hw|apply (reads_name s ip')|done|done|done|by left|by left]).
  - destruct (j_main s); try done; destruct (j_workers s !! i) as [[name' [|]|? ? ? ?]|] eqn:Hw; simplify_eq;
      exists i, (Reading name' None), (called name' (Some (j_ip s)));
      (split_and!; [exact Hw|apply (reads_ip s name')|done|done|done|by left|by left]).
  - assert (step_worker serve JobConf i s = Some s') as H by (by destruct (j_main s)). clear Hstep. unfold step_worker in H.
    destruct (j_workers s !! i) as [[|name ip log [|q k]]|] eqn:Hw; try done.
    destruct (step_request serve JobConf s q k) as [[s1 p]|] eqn:Hq; simplify_eq/=.
    exists i, (Running name ip log (Ask q k)), (Running name ip (log ++ [q]) p). split; [done|].
    destruct q; simpl in Hq; try (destruct (serve _ _) as [wo r] eqn:E; simplify_eq; (split_and!; [|done|done|done|by left|by left]);
      match goal with |- moves _ _ (Running _ _ (_ ++ [?q]) _) _ => pose proof (asks_world s name ip log q k eq_refl) as H; by rewrite E in H end).
    + simplify_eq. split_and!; [by apply (uses_channel s1)|done|done|done|by left|by left].
    + case_decide; simplify_eq. split_and!; [apply (uses_channel s); auto|done|done|done|by left|right; by repeat eexists].
    + destruct (j_addch s); simplify_eq. split_and!; [apply (uses_channel s); auto|done|done|done|by left|by left].
  - assert (step_meet nodes i s = Some s') as H by (by destruct (j_main s)). clear Hstep. unfold step_meet in H.
    destruct nodes; [|done]. destruct (j_main s) as [| | |todo| | |] eqn:Em; try done.
    destruct (j_workers s !! i) as [[|name ip log [|q k]]|] eqn:Hw; try done. destruct q; try done. simplify_eq.
    exists i, (Running name ip log (Ask ReleaseSlot k)), (Running name ip (log ++ [ReleaseSlot]) (k (inl tt))).
    split_and!; [done|apply (uses_channel s name ip log ReleaseSlot k); auto|done|done|done|right; eauto|by left].
Qed.

(** *** Every run ends *)

#[local] Opaque longest.

Definition work (w : worker) : nat :=
  match w with
  | Reading name ip => longest attempts + (if name then 0 else 1) + (if ip then 0 else 1)
  | Running _ _ log _ => longest attempts - length log
  end.

Definition per_machine : nat := longest attempts + 6.

Definition main_work (m : main_at) (errch : nat) : nat :=
  match m with
  | Next todo => length todo * per_machine + length machines + 3
  | Assigned _ todo => length todo * per_machine + length machines + longest attempts + 8
  | Spawn todo => length todo * per_machine + length machines + longest attempts + 7
  | Sending todo => length todo * per_machine + length machines + 4
  | Waiting => length machines + 2
  | Draining _ _ => errch + 1
  | Exited _ _ => 0
  end.

Definition weight (s : pool) : nat := main_work (j_main s) (length (j_errch s)) + total work (j_workers s).

Lemma called_work name ip : work (called name ip) = (longest attempts + (if name then 0 else 1) + (if ip then 0 else 1))%nat.
Proof. destruct name, ip; simpl; lia. Qed.

Lemma moves_work s w w' wo : worker_ok attempts w -> moves s w w' wo -> (work w' < work w)%nat.
Proof.
  intros Hw H. destruct H; rewrite ?called_work; simpl; [lia|destruct name; lia| |];
    apply asked_counts in Hw as (_ & _ & Hl & _); rewrite length_app; simpl; lia.
Qed.

Lemma weight_step l s s' : inv s -> step l s = Some s' -> (weight s' < weight s)%nat.
Proof.
  intros Hs Hstep. destruct (step_cases l s s' Hstep) as [H|(i & w & w' & Hw & Hm & Hws & _ & _ & Hmain & Herr)].
  - pose proof (inv_errors _ _ _ s Hs) as He. pose proof (inv_left _ _ _ s Hs) as Hl.
    pose proof (total_le reported _ (fun j x Hx => proj2 (workers_counts _ _ _ s Hs j x Hx))) as Hr.
    clear Hstep Hs. unfold step_main in H. destruct s as [m n a sl er ws wo]; simpl in *. unfold weight, per_machine.
    destruct m as [[|[name ip] todo]|ip todo|todo|todo| |errNodes j|]; simplify_eq; simpl in *; unfold per_machine in *; try lia.
    + rewrite total_app. simpl. lia.
    + case_decide; simplify_eq. simpl. unfold per_machine. lia.
    + destruct sl; simplify_eq. destruct er; simpl in *; lia.
    + destruct er; [|case_decide]; simplify_eq; simpl; lia.
  - pose proof (total_insert work _ i w w' Hw) as Ht. pose proof (moves_work s w w' _ (inv_workers _ _ _ s Hs i w Hw) Hm) as Hlt.
    assert (main_work (j_main s') (length (j_errch s')) <= main_work (j_main s) (length (j_errch s)))%nat as Hle.
    { destruct Hmain as [-> |(todo & -> & ->)]; [|simpl; lia]. destruct Herr as [-> |(name & ip & log & q & k & -> & Hq)]; [lia|].
      destruct (room_to_report _ _ _ s i _ _ _ _ _ Hs Hw Hq) as [Hno _]. by destruct (j_main s). }
    unfold weight. rewrite Hws. lia.
Qed.

Lemma run_inv ls s s' : inv s -> run_steps ls s = Some s' -> inv s' /\ (length ls + weight s' <= weight s)%nat.
Proof.
  revert s. induction ls as [|l ls IH]; intros s Hs H; simpl in H; [by simplify_eq|].
  destruct (step l s) as [s1|] eqn:E; [|done]. pose proof (weight_step l s s1 Hs E) as Hlt.
  destruct (IH s1 (job_inv_step _ _ _ _ _ _ l s s1 Hs E) H) as [H1 H2]. split; [done|simpl; lia].
Qed.

(** *** No run blocks *)

(** A goroutine that holds a slot it can give back has a step. *)
Lemma worker_can_step s : inv s -> (total released (j_workers s) < length (j_workers s))%nat ->
  (match j_main s with Exited _ _ => False | _ => True end) ->
  (0 < j_addch s)%nat \/ (nodes = 0%nat /\ exists todo, j_main s = Sending todo) -> exists l, is_Some (step l s).
Proof.
  intros Hs Hlt Hrun Hslot.
  destruct (total_some released _ (fun j x Hx => proj1 (workers_counts _ _ _ s Hs j x Hx)) Hlt) as (i & w & Hw & H0).
  pose proof (inv_workers _ _ _ s Hs i w Hw) as Hok.
  assert (forall l s', (match j_main s with Exited _ _ => True | _ => step l s = Some s' end) -> exists l, is_Some (step l s)) as Hdone.
  { intros l s' H. exists l. destruct (j_main s); try done; by rewrite H. }
  destruct w as [name ip|name ip log [a|q k]].
  - destruct name as [name|]; [destruct ip as [ip|]; [by destruct Hok|]|].
    + eapply (Hdone (LIp i)). unfold Pool.step. rewrite Hw. by destruct (j_main s).
    + eapply (Hdone (LName i)). unfold Pool.step. rewrite Hw. by destruct (j_main s).
  - destruct (body_log_counts _ _ _ _ Hok) as (_ & H1 & _). simpl in H0. lia.
  - destruct (is_report q) eqn:Hq.
    + destruct (room_to_report _ _ _ s i _ _ _ _ _ Hs Hw Hq) as [_ Hroom]. destruct q as [| | | | | | | | | | |a|]; try done.
      eapply (Hdone (LRun i)). unfold Pool.step, step_worker. rewrite Hw. simpl. rewrite decide_True by done. by destruct (j_main s).
    + destruct (is_release q) eqn:Hq'.
      * destruct q; try done. destruct Hslot as [Hslot|(En & todo & Em)].
        -- destruct (j_addch s) as [|n] eqn:Esl; [lia|]. eapply (Hdone (LRun i)). unfold Pool.step, step_worker. rewrite Hw. simpl.
           rewrite Esl. by destruct (j_main s).
        -- eapply (Hdone (LMeet i)). unfold Pool.step, step_meet. rewrite Em, Hw, En. reflexivity.
      * assert (is_Some (step_worker serve JobConf i s)) as [s' Hs'].
        { unfold step_worker. rewrite Hw. destruct q; try done; simpl; try (destruct (serve _ _)); by eexists. }
        apply (Hdone (LRun i) s'). unfold Pool.step. by destruct (j_main s).
Qed.

Lemma can_step s : inv s -> (forall l, step l s = None) -> exists code reported, j_main s = Exited code reported.
Proof.
  intros Hs Hno. assert (~ exists l, is_Some (step l s)) as Hn by (intros (l & x & H); by rewrite Hno in H).
  pose proof (inv_slots _ _ _ s Hs) as Hsl. pose proof (inv_cap _ _ _ s Hs) as Hcap. specialize (Hno LMain).
  unfold Pool.step, step_main in Hno.
  destruct (j_main s) as [[|[name ip] todo]|ip todo|todo|todo| |errNodes j|] eqn:Em; try done; eauto; simpl in Hsl.
  - case_decide; [done|]. destruct Hn. apply worker_can_step; [done|lia|by rewrite Em|].
    destruct (j_addch s) as [|n]; [right; split; [lia|eauto]|left; lia].
  - destruct (j_addch s) as [|n] eqn:E; [done|]. destruct Hn. apply worker_can_step; [done|lia|by rewrite Em|left; lia].
  - destruct (j_errch s); [done|]. by case_decide.
Qed.

End Runs.
End PoolRuns.
