(* ===== verification/PenetratorSafety.v ===== *)
(** * What a run of the job brings about (pkg/penetrator/job/addnode.go)

    Module [Last] follows the variables of the loop: the last machine of the
    loop is called by its own name and address.  Module [Labelled] follows the
    label that marks a node as installed through calls that may look at, delete
    and install the same node at the same time.  Module [JobRuns] has the
    theorems about a whole run, and runs that show what the sharing of the
    variables and the reports of the calls lead to. *)

From Stdlib Require Import ZArith Lia Ascii String.
From stdpp Require Import base strings gmap numbers sorting list.
From S2P Require Import Prelude.
From S2P Require Import GoStd.
From S2P Require Import K8s.
From S2P Require Import Requests.
From S2P Require Import KubeNode.
From S2P Require Import PenetratorJob.
From S2P Require Import PenetratorPool.
Import Install InstallLog Pool PoolInv PoolRuns.

Local Open Scope Z_scope.
Local Open Scope go_scope.

(** ** The last machine *)

Module Last.

Section Last.
Context `{R : GoRange} {Client Session Signer : Type} (ParsePrivateKey : string -> Signer + string).
Context {World : Type} (serve : forall q : job_request Client Session Signer, World -> World * (job_answer q + api_error)).
Context (JobConf : JobConfig) (attempts : nat) (version : string) (nodes : nat).

Notation worker := (worker (Client := Client) (Session := Session) (Signer := Signer)).
Notation pool := (@pool Client Session Signer World).
Notation step := (step ParsePrivateKey serve JobConf attempts version nodes).
Notation machines := (machines JobConf).

(** A goroutine that has read nothing but the machine [x]. *)
Definition fits (x : string * string) (w : worker) : Prop :=
  match w with
  | Reading name ip => (name = None \/ name = Some x.1) /\ (ip = None \/ ip = Some x.2)
  | Running name ip _ _ => name = x.1 /\ ip = x.2
  end.

Definition newest_fits (ws : list worker) (x : string * string) : Prop := exists w, last ws = Some w /\ fits x w.

(** While no assignment is to come, the newest goroutine can only read the
    machine it was started for. *)
Definition handed (s : pool) : Prop :=
  match j_main s with
  | Next todo | Sending todo =>
      exists done, machines = done ++ todo
      /\ forall x, last done = Some x -> (j_name s, j_ip s) = x /\ newest_fits (j_workers s) x
  | Assigned ip todo => exists done, machines = done ++ (j_name s, ip) :: todo
  | Spawn todo => exists done, machines = done ++ (j_name s, j_ip s) :: todo
  | _ => forall x, last machines = Some x -> (j_name s, j_ip s) = x /\ newest_fits (j_workers s) x
  end.

Lemma newest_insert ws i w w' x : ws !! i = Some w -> (fits x w -> fits x w') -> newest_fits ws x -> newest_fits (<[i := w']> ws) x.
Proof.
  intros Hw Hf (v & Hv & Hx). unfold newest_fits. rewrite last_lookup in *. rewrite length_insert.
  destruct (decide (i = pred (length ws))) as [-> |Hne].
  - rewrite Hw in Hv. simplify_eq. exists w'. split; [|by apply Hf]. apply list_lookup_insert_eq. by eapply lookup_lt_Some.
  - exists v. split; [|done]. by rewrite list_lookup_insert_ne.
Qed.

Lemma moves_fits s w w' wo x : moves ParsePrivateKey serve JobConf attempts version s w w' wo ->
  (j_name s, j_ip s) = x -> fits x w -> fits x w'.
Proof. intros H <-. destruct H; simpl; [destruct ip|destruct name| |]; simpl; naive_solver. Qed.

Lemma handed_step l s s' : handed s -> step l s = Some s' -> handed s'.
Proof.
  intros Hs Hstep. destruct (step_cases _ _ _ _ _ _ _ _ _ Hstep) as [H|(i & w & w' & Hw & Hm & Hws & Hn & Hip & Hmain & _)].
  - clear Hstep. unfold handed, step_main in *. destruct s as [m n a sl er ws wo]; simpl in *.
    destruct m as [[|[name ip] todo]|ip todo|todo|todo| |errNodes j|]; simplify_eq; simpl.
    + destruct Hs as (done & Hdone & Hx). rewrite app_nil_r in Hdone. by rewrite Hdone.
    + destruct Hs as (done & Hdone & _). by exists done.
    + done.
    + destruct Hs as (done & Hdone). exists (done ++ [(n, a)]). rewrite <- app_assoc. split; [done|]. intros x. rewrite last_snoc.
      intros [= <-]. split; [done|]. exists (Reading None None). rewrite last_snoc. split; [done|]. simpl. auto.
    + case_decide; by simplify_eq.
    + destruct sl; simplify_eq. by destruct er.
    + destruct er; [|case_decide]; by simplify_eq.
  - assert (forall x, (j_name s, j_ip s) = x /\ newest_fits (j_workers s) x -> (j_name s, j_ip s) = x /\ newest_fits (<[i:=w']> (j_workers s)) x) as Hgo.
    { intros x [Hx Hf]. split; [done|]. eapply newest_insert; [done| |done]. by eapply moves_fits. }
    unfold handed in *. rewrite Hn, Hip, Hws.
    assert (forall done todo : list (string * string), machines = done ++ todo /\ (forall x, last done = Some x -> (j_name s, j_ip s) = x /\ newest_fits (j_workers s) x) ->
      exists done, machines = done ++ todo /\ forall x, last done = Some x -> (j_name s, j_ip s) = x /\ newest_fits (<[i:=w']> (j_workers s)) x) as Hgo'.
    { intros d todo [Hd Hx]. exists d. split; [done|]. intros x Hl. by apply Hgo, Hx. }
    destruct Hmain as [-> |(todo & Em & ->)]; [|rewrite Em in Hs; destruct Hs; by eapply Hgo'].
    destruct (j_main s); try done; try (destruct Hs; by eapply Hgo'); intros x Hx; by apply Hgo, Hs.
Qed.

Lemma handed_start w : handed (at_main (Next machines) w).
Proof. exists []. split; [done|]. by intros x. Qed.

End Last.
End Last.

(** ** The label of an installed node *)

Module Labelled.

(** The node carries the task's label. *)
Definition wears (JobConf : JobConfig) (n : Node) : Prop :=
  default EmptyString (mp (Labels (node_meta n)) !! NodeLabelKey) = NodeLabel JobConf.

(** Requests that do not take the label off the node [x]. *)
Definition spares {Client Session Signer : Type} (x : string) (q : job_request Client Session Signer) : Prop :=
  match q with
  | DeleteNode y => y <> x
  | Api (UpdateNode n) => Name (node_meta n) <> x
  | _ => True
  end.

(** What the API server does with nodes: a node is returned under the name
    that was asked for, an accepted update is in place, and only deletions and
    updates of a node change its labels. *)
Class NodeServer {Client Session Signer World : Type}
    (serve : forall q : job_request Client Session Signer, World -> World * (job_answer q + api_error))
    (JobConf : JobConfig) (labelled : World -> string -> Prop) : Prop := {
  get_named : forall w y n, snd (serve (Api (GetNode y)) w) = inl n -> Name (node_meta n) = y;
  get_labelled : forall w y n, snd (serve (Api (GetNode y)) w) = inl n -> wears JobConf n -> labelled (fst (serve (Api (GetNode y)) w)) y;
  update_labelled : forall w n, snd (serve (Api (UpdateNode n)) w) = inl tt -> wears JobConf n ->
    labelled (fst (serve (Api (UpdateNode n)) w)) (Name (node_meta n));
  keeps_labelled : forall q w x, spares x q -> labelled w x -> labelled (fst (serve q w)) x
}.

Section Code.
Context {Client Session Signer : Type} (ParsePrivateKey : string -> Signer + string).
Context (JobConf : JobConfig) (attempts : nat) (version : string).

Notation rq := (job_request Client Session Signer).
Notation program A := (prog (@job_answer Client Session Signer) A).

(** Requests of a call about the node [x], and those of no effect on nodes. *)
Definition fair (x : string) (q : rq) : Prop :=
  match q with
  | DeleteNode y => y = x
  | Api (UpdateNode n) => Name (node_meta n) = x /\ wears JobConf n
  | Api (GetNode y) => y = x
  | _ => True
  end.

Definition harmless (q : rq) : Prop :=
  match q with DeleteNode _ | Api _ => False | _ => True end.

Definition named_reply (q : rq) : job_answer q + api_error -> Prop :=
  match q return job_answer q + api_error -> Prop with
  | Api (GetNode y) => fun r => match r with inl n => Name (node_meta n) = y | inr _ => True end
  | _ => fun _ => True
  end.

(** The reply says that the node is there with its label. *)
Definition settles (x : string) (q : rq) : job_answer q + api_error -> Prop :=
  match q return job_answer q + api_error -> Prop with
  | Api (GetNode y) => fun r => match r with inl n => y = x /\ wears JobConf n | inr _ => False end
  | Api (UpdateNode n) => fun r => match r with inl _ => Name (node_meta n) = x /\ wears JobConf n | inr _ => False end
  | _ => fun _ => False
  end.

(** The call is over as far as nodes are concerned. *)
Definition over {A : Type} (p : program A) : Prop := all_requests harmless p.

(** The call still has to see the label, or else ends with [F]. *)
Fixpoint tends {A : Type} (x : string) (F : A -> Prop) (p : program A) : Prop :=
  match p with
  | Done a => F a
  | Ask q k => fair x q /\ forall r, named_reply q r -> (settles x q r /\ over (k r)) \/ tends x F (k r)
  end.

Definition failed {A E : Type} (r : A + E) : Prop := exists e, r = inr e.

Lemma failed_inr {A E : Type} (e : E) : failed (inr e : A + E).
Proof. by exists e. Qed.

(** A part without nodes, and then the rest. *)
Lemma tends_before {A B : Type} x (F : B -> Prop) (p : program A) (f : A -> program B) :
  over p -> (forall a, tends x F (f a)) -> tends x F (bind p f).
Proof.
  intros Hp Hf. induction p as [a|q k IH]; [apply Hf|]. destruct Hp as [Hq Hk]. split; [by destruct q|].
  intros r _. right. by apply IH, Hk.
Qed.

(** A part that sees the label or fails, and then a rest without nodes. *)
Lemma tends_after {A B : Type} x (F : A -> Prop) (G : B -> Prop) (p : program A) (f : A -> program B) :
  tends x F p -> (forall a, over (f a)) -> (forall a, F a -> tends x G (f a)) -> tends x G (bind p f).
Proof.
  intros Hp Ho Hf. induction p as [a|q k IH]; [by apply Hf|]. destruct Hp as [Hq Hk]. split; [done|].
  intros r Hr. destruct (Hk r Hr) as [[Hs Hov]|Ht]; [left; split; [done|by apply all_bind]|right; by apply IH].
Qed.

Lemma tends_andthen {A B E : Type} x (m : program (A + E)) (f : A -> program (B + E)) :
  over m -> (forall a, tends x failed (f a)) -> tends x failed (andthen m f).
Proof. intros Hm Hf. apply tends_before; [done|]. intros [a|e]; [apply Hf|apply failed_inr]. Qed.

Lemma tends_deferred {A : Type} x (F : A -> Prop) (q : rq) (p : program A) : harmless q -> tends x F p -> tends x F (deferred q p).
Proof.
  intros Hq Hp. eapply tends_after; [exact Hp|by split|]. intros a Ha. split; [by destruct q|]. intros r _. by right.
Qed.

Lemma over_or_fail {A : Type} what (m : program (A + api_error)) : over m -> over (or_fail what m).
Proof. intros Hm. by apply all_map_error. Qed.

Lemma over_call (q : rq) : harmless q -> over (call q).
Proof. by split. Qed.

Lemma label_worn (n : Node) : wears JobConf (with_node_labels n (Some (mp (Some {[ NodeLabelKey := NodeLabel JobConf ]}) ∪ mp (Labels (node_meta n))))).
Proof. unfold wears. simpl. by rewrite (lookup_union_Some_l _ _ _ (NodeLabel JobConf)) by apply lookup_singleton_eq. Qed.

(** Labelling succeeds only with the label in place. *)
Lemma label_tends x : tends x failed (api (AddNodeLabel attempts x (Some {[ NodeLabelKey := NodeLabel JobConf ]}))).
Proof.
  unfold AddNodeLabel. induction attempts as [|n IH]; [by eexists|].
  split; [done|]. intros [node|e] Hn; right; [|apply IH]. split; [split; [done|apply label_worn]|].
  intros [[]|e] _; [|right; apply IH]. left. split; [split; [done|apply label_worn]|done].
Qed.

Lemma over_connect ip port secret : over (SShConnectNode (Client := Client) (Session := Session) ParsePrivateKey ip port secret).
Proof.
  apply all_andthen; [by apply over_call|]. intros _. destruct (SshKey secret); [|by apply over_call].
  destruct (ParsePrivateKey _); [by apply over_call|done].
Qed.

Lemma over_scp ip file port secret : over (ScpFile (Client := Client) (Session := Session) (Signer := Signer) ip file port secret).
Proof. unfold ScpFile. destruct (negb _); [by apply over_call|]. destruct (negb _); [by apply over_call|done]. Qed.

Lemma on_machine_tends name ip adv client :
  tends name failed (on_machine (Session := Session) (Signer := Signer) JobConf attempts name ip version adv client).
Proof.
  apply tends_andthen; [by apply over_or_fail, over_call|]. intros s1.
  apply tends_andthen; [by apply over_or_fail, over_call|]. intros [arch [err|]]; [apply failed_inr|].
  cbv zeta. destruct (String.eqb _ _); [apply failed_inr|].
  apply tends_andthen; [apply over_or_fail, over_scp|]. intros _.
  apply tends_andthen; [by apply over_or_fail, over_call|]. intros tmp. destruct (CompleteTemplate _ _); [|apply failed_inr].
  apply tends_andthen; [by apply over_or_fail, over_call|]. intros s2.
  apply tends_andthen; [by apply over_or_fail, over_call|]. intros [stdout [err|]]; [apply failed_inr|].
  eapply tends_after; [apply label_tends| |]; [by intros [|]|]. intros r [e ->]. apply failed_inr.
Qed.

Lemma install_tends name ip adv : tends name failed (install ParsePrivateKey JobConf attempts name ip version adv).
Proof.
  apply tends_deferred; [done|]. apply tends_andthen; [apply over_or_fail, over_connect|]. intros client.
  apply tends_deferred; [done|]. apply on_machine_tends.
Qed.

Lemma addNode_tends name ip adv : tends name failed (addNode ParsePrivateKey JobConf attempts name ip version adv).
Proof.
  apply tends_deferred; [done|]. split; [done|]. intros [n|e] Hn; simpl in Hn.
  - cbn. match goal with |- context [String.eqb ?a ?b] => destruct (String.eqb a b) eqn:E end.
    + left. apply String.eqb_eq in E. by split.
    + right. split; [done|]. intros [u|e] _; right; [apply install_tends|]. split; [done|]. intros r _. right. apply failed_inr.
  - right. destruct e; try apply failed_inr. apply install_tends.
Qed.

Lemma goroutine_tends name ip : tends name failed (goroutine ParsePrivateKey JobConf attempts version name ip).
Proof.
  eapply tends_after; [apply addNode_tends| |]; [by intros [|]|]. intros r [e ->].
  split; [done|]. intros r _. right. split; [done|]. intros r' _. right. apply failed_inr.
Qed.

End Code.

Section System.
Context `{R : GoRange} {Client Session Signer : Type} (ParsePrivateKey : string -> Signer + string).
Context {World : Type} (serve : forall q : job_request Client Session Signer, World -> World * (job_answer q + api_error)).
Context (JobConf : JobConfig) (attempts : nat) (version : string) (nodes : nat).
Context (labelled : World -> string -> Prop) `{!NodeServer serve JobConf labelled}.

Notation worker := (worker (Client := Client) (Session := Session) (Signer := Signer)).
Notation pool := (@pool Client Session Signer World).
Notation step := (step ParsePrivateKey serve JobConf attempts version nodes).

(** A goroutine, with whether its call has seen the label. *)
Definition goes (e : worker * bool) : Prop :=
  match e with
  | (Reading _ _, m) => m = false
  | (Running x _ _ p, true) => over p
  | (Running x _ _ p, false) => tends JobConf x failed p
  end.

Definition about (x : string) (m : bool) (e : worker * bool) : Prop :=
  match e with
  | (Running name _ _ _, m') => name = x /\ m' = m
  | _ => False
  end.

(** Where a call has seen the label, the node has it, or another call about
    the same node is still under way or has failed. *)
Definition labels_ok (s : pool) : Prop :=
  exists ms : list (worker * bool), ms.*1 = j_workers s
  /\ (forall i e, ms !! i = Some e -> goes e)
  /\ forall x, (exists i e, ms !! i = Some e /\ about x true e) ->
       labelled (j_world s) x \/ exists i e, ms !! i = Some e /\ about x false e.

Lemma replies_named q w : named_reply q (snd (serve q w)).
Proof.
  destruct q as [[y| | | |]| | | | | | | | | | | |]; simpl; try done.
  match goal with |- match ?r with _ => _ end => destruct r as [n|e] eqn:E end; [|done]. exact (get_named w y n E).
Qed.

Lemma settled_labelled x q w : settles JobConf x q (snd (serve q w)) -> labelled (fst (serve q w)) x.
Proof.
  destruct q as [[y|n| | |]| | | | | | | | | | | |]; simpl; try done.
  - match goal with |- match ?r with _ => _ end -> _ => destruct r as [a|e] eqn:E end; [|done]. intros [<- Hn]. by eapply get_labelled.
  - match goal with |- match ?r with _ => _ end -> _ => destruct r as [[]|e] eqn:E end; [|done]. intros [<- Hn]. by apply update_labelled.
Qed.

Lemma harmless_spares x (q : job_request Client Session Signer) : harmless q -> spares x q.
Proof. by destruct q. Qed.

Lemma fair_spares x y (q : job_request Client Session Signer) : fair JobConf y q -> y <> x -> spares x q.
Proof. destruct q as [[]| | | | | | | | | | | |]; simpl; try done; naive_solver. Qed.

(** One step of one goroutine, for every node. *)
Lemma moves_goes s w w' wo m : goes (w, m) -> moves ParsePrivateKey serve JobConf attempts version s w w' wo ->
  exists m', goes (w', m') /\ forall x,
    (about x true (w', m') -> about x true (w, m) \/ labelled wo x)
    /\ (about x false (w, m) -> about x false (w', m') \/ labelled wo x)
    /\ (labelled (j_world s) x -> labelled wo x \/ about x false (w', m')).
Proof.
  intros Hg H. destruct H as [ip|name|name ip log q k r Hq|name ip log q k Hq].
  - exists false. split; [|intros x; destruct ip; simpl; naive_solver]. destruct ip; [|done]. apply goroutine_tends.
  - exists false. split; [|intros x; destruct name; simpl; naive_solver]. destruct name; [|done]. apply goroutine_tends.
  - exists m. split; [|intros x; simpl; naive_solver]. destruct m; [apply Hg|].
    destruct Hg as [_ Hg]. destruct (Hg r) as [[Hs _]|Ht]; [destruct q; naive_solver|destruct q; naive_solver|done].
  - destruct m.
    + destruct Hg as [Hq' Hg]. exists true. split; [apply Hg|]. intros x. split_and!; [by left|by intros []|].
      intros Hx. left. by apply keeps_labelled; [apply harmless_spares|].
    + destruct Hg as [Hf Hg]. destruct (Hg _ (replies_named q (j_world s))) as [[Hs Ho]|Ht].
      * exists true. split; [done|]. apply settled_labelled in Hs. intros x. split_and!; [by intros [<- _]; right|by intros [<- _]; right|].
        intros Hx. left. destruct (decide (name = x)) as [<-|]; [done|]. apply keeps_labelled; [by eapply fair_spares|done].
      * exists false. split; [done|]. intros x. split_and!; [by intros []|by left|].
        intros Hx. destruct (decide (name = x)) as [<-|]; [by right|]. left. apply keeps_labelled; [by eapply fair_spares|done].
Qed.

Lemma main_keeps (s s' : pool) : step_main nodes s = Some s' ->
  j_world s' = j_world s /\ (j_workers s' = j_workers s \/ j_workers s' = j_workers s ++ [Reading None None]).
Proof.
  unfold step_main. intros H. destruct s as [m n a sl er ws wo]; simpl in *.
  destruct m as [[|[name ip] todo]|ip todo|todo|todo| |errNodes j|]; simplify_eq; simpl; auto.
  - case_decide; simplify_eq; auto.
  - destruct sl; simplify_eq; auto.
  - destruct er; [|case_decide]; simplify_eq; auto.
Qed.

Lemma labels_step l s s' : labels_ok s -> step l s = Some s' -> labels_ok s'.
Proof.
  intros (ms & Hms & Hgoes & Hlab) Hstep. destruct (step_cases _ _ _ _ _ _ _ _ _ Hstep) as [H|(i & w & w' & Hw & Hm & Hws & _)].
  - apply main_keeps in H as [Hwo [Hws|Hws]]; unfold labels_ok; rewrite Hwo, Hws; [by exists ms|].
    exists (ms ++ [(Reading None None, false)]). split_and!; [by rewrite fmap_app, Hms| |].
    + intros j e [He|[_ He]]%lookup_app_Some; [by eapply Hgoes|]. by apply list_lookup_singleton_Some in He as [_ <-].
    + intros x (j & e & [He|[_ He]]%lookup_app_Some & Hx); [|by apply list_lookup_singleton_Some in He as [_ <-]].
      destruct (Hlab x) as [|(j' & e' & He' & Hx')]; [by exists j, e|by left|]. right. exists j', e'. split; [by apply lookup_app_l_Some|done].
  - assert (exists m, ms !! i = Some (w, m)) as [m Hi].
    { rewrite <- Hms, list_lookup_fmap in Hw. destruct (ms !! i) as [[w0 m]|]; simplify_eq/=. eauto. }
    destruct (moves_goes s w w' _ m (Hgoes i _ Hi) Hm) as (m' & Hg' & Hx').
    assert (<[i := (w', m')]> ms !! i = Some (w', m')) as Hii by (apply list_lookup_insert_eq; by eapply lookup_lt_Some).
    exists (<[i := (w', m')]> ms). split_and!.
    + by rewrite list_fmap_insert, Hms, Hws.
    + intros j e [(-> & <- & _)|[_ He]]%list_lookup_insert_Some; [done|by eapply Hgoes].
    + intros x Hgood. destruct (Hx' x) as (Ha & Hb & Hc).
      assert (labelled (j_world s') x \/ exists j e, ms !! j = Some e /\ about x true e) as [?|Hold]; [|by left|].
      { destruct Hgood as (j & e & [(-> & <- & _)|[_ He]]%list_lookup_insert_Some & Hx); [|right; eauto].
        destruct (Ha Hx) as [Hold|]; [right; eauto|by left]. }
      destruct (Hlab x Hold) as [Hlx|(j & e & He & Hx)].
      { destruct (Hc Hlx) as [|Hopen]; [by left|right; eauto]. }
      destruct (decide (j = i)) as [-> |Hne].
      { simplify_eq. destruct (Hb Hx) as [Hopen|]; [right; eauto|by left]. }
      right. exists j, e. by rewrite list_lookup_insert_ne.
Qed.

Lemma labels_start w : labels_ok (at_main (Next (machines JobConf)) w).
Proof. exists []. split_and!; [done|done|]. intros x (i & e & He & _). done. Qed.

(** When no call about the node failed or is under way, the node has the
    label. *)
Lemma labels_end s x i log p : labels_ok s ->
  (exists ip, j_workers s !! i = Some (Running x ip log p)) ->
  (forall i ip log p, j_workers s !! i = Some (Running x ip log p) -> p = Done (inl tt)) -> labelled (j_world s) x.
Proof.
  intros (ms & Hms & Hgoes & Hlab) [ip Hi] Hall.
  assert (forall j e, ms !! j = Some e -> ~ about x false e) as Hno.
  { intros j [[|name ip' log' p'] m] He; [by intros []|]. simpl. intros [-> ->].
    assert (j_workers s !! j = Some (Running x ip' log' p')) as Hw by (by rewrite <- Hms, list_lookup_fmap, He).
    apply Hall in Hw as ->. specialize (Hgoes _ _ He). simpl in Hgoes. destruct Hgoes as [e He']. done. }
  destruct (Hlab x) as [|(j & e & He & Hx)]; [|done|by destruct (Hno j e He)].
  rewrite <- Hms, list_lookup_fmap in Hi. destruct (ms !! i) as [[w m]|] eqn:E; simplify_eq/=.
  exists i, (Running x ip log p, m). split; [done|]. destruct m; [done|]. by destruct (Hno i _ E).
Qed.

End System.
End Labelled.

(** ** Whole runs *)

Module JobRuns.
Import Counting Last Labelled.

Section Runs.
Context `{R : GoRange} {Client Session Signer : Type} (ParsePrivateKey : string -> Signer + string).
Context {World : Type} (serve : forall q : job_request Client Session Signer, World -> World * (job_answer q + api_error)).
Context (JobConf : JobConfig) (attempts : nat) (version : string).

Notation worker := (worker (Client := Client) (Session := Session) (Signer := Signer)).
Notation pool := (@pool Client Session Signer World).
Notation step := (step ParsePrivateKey serve JobConf attempts version).
Notation run_steps := (run_steps ParsePrivateKey serve JobConf attempts version).
Notation reachable := (reachable ParsePrivateKey serve JobConf attempts version).
Notation machines := (machines JobConf).

(** The calls of [addNode] that have not given their slot back. *)
Definition in_call (s : pool) : nat := length (filter (fun w => released w = 0%nat) (j_workers s)).

Lemma in_call_total s nodes : inv JobConf attempts nodes s -> (in_call s + total released (j_workers s) = length (j_workers s))%nat.
Proof.
  intros Hs. pose proof (fun i w Hw => proj1 (workers_counts _ _ _ s Hs i w Hw)) as H1. clear Hs. unfold in_call.
  induction (j_workers s) as [|w ws IH]; [done|]. specialize (IH (fun i => H1 (S i))). pose proof (H1 0%nat w eq_refl).
  rewrite filter_cons. case_decide; simpl; lia.
Qed.

(** The history of a goroutine whose call only looked at its node. *)
Definition only_looked (w : worker) : Prop :=
  exists name ip e p, w = Running name ip (Api (GetNode name) :: ReleaseSlot :: e) p.

Lemma looked_or_reported name ip log p : worker_ok attempts (Running name ip log p) -> releases log = 1%nat ->
  (reports log = 0%nat <-> only_looked (Running name ip log p)).
Proof.
  intros (t & a & Hb)%histories_some H1. split.
  - intros H0. pose proof Hb as (t1 & t2 & E & (l & -> & Hl) & H2).
    assert (releases l = 0%nat /\ (reports l = 0%nat -> l = [Api (GetNode name)])) as [Hl0 Hget].
    { destruct (call_log_counts attempts name ip (l ++ [ReleaseSlot]) l) as (_ & ? & _ & ?); [by eexists|done|done]. }
    rewrite <- app_assoc in E. simpl in E. apply app_eq_app in E as (m & [[-> Em]|[-> ->]]).
    + destruct (counts_app l m) as [Hc Hd]. destruct m as [|q m]; [rewrite app_nil_r in *; lia|]. simplify_eq/=.
      rewrite Hget by lia. exists name, ip, m, p. done.
    + destruct (counts_app log m) as [_ Hd]. lia.
  - intros (name' & ip' & e & p' & [= -> -> -> ->]).
    destruct (released_log attempts name' ip' [Api (GetNode name'); ReleaseSlot] (e ++ t)) as [Hr _]; [exact Hb|vm_compute; lia|].
    destruct (counts_app e t) as [He _], (counts_app [Api (GetNode name'); ReleaseSlot] e) as [Hc _].
    change (reports (Client := Client) (Session := Session) (Signer := Signer) [Api (GetNode name'); ReleaseSlot]) with 0%nat in Hc. simpl app in Hc. lia.
Qed.

Lemma reachable_inv nodes w s : reachable nodes w s -> inv JobConf attempts (Z.to_nat nodes) s /\ handed JobConf s.
Proof.
  induction 1 as [s H|s l s' _ [Hi Hh] Hstep].
  - unfold AddNodes in H. destruct (nodes <? 0); [done|]. simplify_eq. split; [apply job_inv_start|apply handed_start].
  - split; [by eapply job_inv_step|by eapply handed_step].
Qed.

Lemma run_reachable nodes w ls s s' : reachable nodes w s -> run_steps (Z.to_nat nodes) ls s = Some s' -> reachable nodes w s'.
Proof.
  revert s. induction ls as [|l ls IH]; intros s Hs H; simpl in H; [by simplify_eq|].
  destruct (step _ l s) as [s1|] eqn:E; [|done]. eapply IH; [|done]. by eapply reachable_step.
Qed.

(** At the end the newest goroutine has called the last machine. *)
Lemma exited_last nodes (s : pool) code r x : inv JobConf attempts nodes s -> handed JobConf s -> j_main s = Exited code r ->
  last machines = Some x -> exists log p, last (j_workers s) = Some (Running x.1 x.2 log p).
Proof.
  intros Hi Hh Em Hx. unfold handed in Hh. rewrite Em in Hh. destruct (Hh x Hx) as (_ & v & Hv & Hf).
  pose proof (inv_errors _ _ _ s Hi) as He. rewrite Em in He. destruct He as (Ha & _).
  pose proof (all_released _ _ _ s Hi Ha ltac:(by rewrite Em) (pred (length (j_workers s))) v ltac:(by rewrite <- last_lookup)) as Hrel.
  destruct v as [|name ip log p]; [done|]. destruct Hf as [-> ->]. eauto.
Qed.

(** C13: however the goroutines of a job interleave, and whatever the API
    server and the machines reply: at most one call of [addNode] more than the
    capacity of the channel of slots is under way; a call that reports its
    address never waits for room; and when the job ends, every machine's
    goroutine was started and every call is over, and the exit status is 0
    exactly if no call did more than look at its node, and 1 otherwise. *)
Theorem job_bounded (nodes : Z) (w : World) (s : pool) (Hs : reachable nodes w s) :
  (in_call s <= Z.to_nat nodes + 1)%nat
  /\ (forall i name ip log a k, j_workers s !! i = Some (Running name ip log (Ask (ReportNode a) k)) ->
        (length (j_errch s) < length machines)%nat)
  /\ forall code reported, j_main s = Exited code reported ->
       length (j_workers s) = length machines /\ in_call s = 0%nat
       /\ (code = 0 <-> Forall only_looked (j_workers s)) /\ (code = 0 \/ code = 1).
Proof.
  destruct (reachable_inv nodes w s Hs) as [Hi _]. pose proof (in_call_total s _ Hi) as Hc. split_and!.
  - pose proof (inv_slots _ _ _ s Hi). pose proof (inv_cap _ _ _ s Hi). destruct (j_main s); simpl in *; lia.
  - intros i name ip log a k Hw. by eapply room_to_report.
  - intros code r Em. pose proof (inv_left _ _ _ s Hi) as Hl. pose proof (inv_errors _ _ _ s Hi) as He.
    pose proof (inv_slots _ _ _ s Hi) as Hsl. rewrite Em in Hl, He, Hsl. destruct He as (H0 & Hcode & H01). simpl in Hl, Hsl.
    split_and!; [lia|lia| |done]. rewrite Hcode, total_zero, Forall_lookup.
    pose proof (all_released _ _ _ s Hi H0 ltac:(by rewrite Em)) as Hrel.
    apply forall_proper. intros i. apply forall_proper. intros [n' i'|name ip log p].
    + split; intros H Hw; specialize (Hrel i _ Hw); done.
    + split; intros H Hw; apply (looked_or_reported name ip log p (inv_workers _ _ _ s Hi i _ Hw) (Hrel i _ Hw)), H, Hw.
Qed.

(** C14: with a capacity that is not negative every run of the job is finite,
    with a bound that depends only on the number of machines and on how often
    the labelling is tried, and it stops nowhere but at the end of the main
    goroutine; there the last machine of the loop was handed to a call under
    its own name and address. *)
Theorem job_ends (nodes : Z) (w : World) (s0 s : pool) (ls : list label)
  (H0 : AddNodes JobConf nodes GitVersion w = Ret s0)
  (Hrun : run_steps (Z.to_nat nodes) ls s0 = Some s) :
  (length ls <= length machines * (22 + 2 * attempts) + 3)%nat
  /\ ((forall l, step (Z.to_nat nodes) l s = None) ->
      exists code reported, j_main s = Exited code reported
      /\ forall x, last machines = Some x -> exists log p, last (j_workers s) = Some (Running x.1 x.2 log p)).
Proof.
  pose proof (run_reachable nodes w ls s0 s (reachable_start _ _ _ _ _ _ _ _ H0) Hrun) as Hs.
  destruct (reachable_inv nodes w s Hs) as [Hi Hh]. split.
  - destruct (reachable_inv nodes w s0 (reachable_start _ _ _ _ _ _ _ _ H0)) as [Hi0 _].
    destruct (run_inv _ _ _ _ _ _ ls s0 s Hi0 Hrun) as [_ Hle]. unfold AddNodes in H0. destruct (nodes <? 0); [done|]. simplify_eq.
    unfold weight in Hle at 2. simpl in Hle. unfold per_machine, longest in Hle. lia.
  - intros Hno. destruct (can_step _ _ _ _ _ _ s Hi Hno) as (code & r & Em). exists code, r. split; [done|]. intros x Hx.
    by eapply exited_last.
Qed.

Section Labels.
Context (labelled : World -> string -> Prop) (Hserver : NodeServer serve JobConf labelled).

Lemma reachable_labels nodes w s : reachable nodes w s -> labels_ok JobConf labelled s.
Proof.
  induction 1 as [s H|s l s' _ IH Hstep].
  - unfold AddNodes in H. destruct (nodes <? 0); [done|]. simplify_eq. apply labels_start.
  - by eapply labels_step.
Qed.

(** A node that no call is about keeps its label. *)
Lemma label_kept nodes w s x : reachable nodes w s -> labelled w x ->
  labelled (j_world s) x \/ exists i ip log p, j_workers s !! i = Some (Running x ip log p).
Proof.
  intros Hs Hx. induction Hs as [s H|s l s' Hs IH Hstep].
  - unfold AddNodes in H. destruct (nodes <? 0); [done|]. simplify_eq. by left.
  - destruct (reachable_labels _ _ _ Hs) as (ms & Hms & Hgoes & _).
    destruct (step_cases _ _ _ _ _ _ _ _ _ Hstep) as [H|(i & w0 & w' & Hw & Hm & Hws & _)].
    + apply main_keeps in H as [-> [-> | ->]]; [done|]. destruct IH as [|(i & ip & log & p & Hi)]; [by left|right].
      exists i, ip, log, p. by apply lookup_app_l_Some.
    + assert (exists m, ms !! i = Some (w0, m)) as [m Hi].
      { rewrite <- Hms, list_lookup_fmap in Hw. destruct (ms !! i) as [[w1 m]|]; simplify_eq/=. eauto. }
      destruct (moves_goes _ _ _ _ _ labelled s w0 w' _ m (Hgoes i _ Hi) Hm) as (m' & _ & Hx'). destruct (Hx' x) as (_ & _ & Hc).
      rewrite Hws. destruct IH as [Hl|(j & ip & log & p & Hj)].
      * destruct (Hc Hl) as [|Ha]; [by left|]. right. destruct w' as [|name ip log p]; [done|]. destruct Ha as [-> _].
        exists i, ip, log, p. apply list_lookup_insert_eq. by eapply lookup_lt_Some.
      * right. destruct (decide (j = i)) as [-> |Hne]; [|by exists j, ip, log, p; rewrite list_lookup_insert_ne].
        rewrite Hw in Hj. simplify_eq. inversion Hm; simplify_eq; do 4 eexists; apply list_lookup_insert_eq; by eapply lookup_lt_Some.
Qed.

End Labels.

(** Calls about the same node may run side by side, each looking at it,
    deleting it or labelling it between the steps of the others.  Whenever
    there was a call about a node and every call about it has returned without
    an error, the node has the task's label. *)
Theorem calls_label (labelled : World -> string -> Prop) (Hserver : NodeServer serve JobConf labelled)
  (nodes : Z) (w : World) (s : pool) (x : string) (Hs : reachable nodes w s)
  (Hcall : exists i ip log p, j_workers s !! i = Some (Running x ip log p))
  (Hnil : forall i ip log p, j_workers s !! i = Some (Running x ip log p) -> p = Done (inl tt)) :
  labelled (j_world s) x.
Proof.
  destruct Hcall as (i & ip & log & p & Hi). eapply (labels_end JobConf labelled s x i log p); [|by exists ip|done].
  by eapply reachable_labels.
Qed.

End Runs.
End JobRuns.

(** ** Runs of a job with two machines *)

Module JobDemo.
Import Labelled JobRuns.

(** A cluster of nodes with their labels; a script is the name of the node
    that joins. *)
Notation World := (gmap string (gomap string)).

Definition node_with (name : string) (l : gomap string) : Node :=
  mkNode (with_labels (named EmptyString name) l) None None None.

Notation rq := (job_request unit unit unit).

Definition demo_serve (q : rq) (w : World) : World * (job_answer q + api_error) :=
  match q return World * (job_answer q + api_error) with
  | Api q =>
      match q return World * (node_answer q + api_error) with
      | GetNode y => (w, match w !! y with Some l => inl (node_with y l) | None => inr NotFound end)
      | UpdateNode n =>
          match w !! Name (node_meta n) with
          | Some _ => (<[Name (node_meta n) := Labels (node_meta n)]> w, inl tt)
          | None => (w, inr NotFound)
          end
      | PatchNodeRequest _ _ | GetNamespace _ | UpdateNamespace _ => (w, inr NotFound)
      end
  | DeleteNode y => (delete y w, match w !! y with Some _ => inl tt | None => inr NotFound end)
  | CombinedOutput _ cmd =>
      if String.eqb cmd "uname -m" then (w, inl ("x86_64", None))%string
      else match w !! cmd with
           | Some _ => (w, inl ("already joined", Some "exit status 1"))%string
           | None => (<[cmd := None]> w, inl (EmptyString, None))
           end
  | ReadFile _ => (w, inl "{{.NodeName}}"%string)
  | ReadNode => (w, inr NotFound)
  | Dial _ _ _ | NewSession _ | ShellCommand _ | CloseClient _ | Stat _ | ReportEvent _ _ | ReportNode _ | ReleaseSlot => (w, inl tt)
  end.

Definition demo_secret : JobSecret := mkJobSecret "pw" "/passwd" None EmptyString.
Definition demo_conf : JobConfig :=
  mkJobConfig (Some {[ "a" := "1"; "b" := "2" ]}) 22 "task" "token" "host" "6443" "hash" demo_secret.

Definition labelled (w : World) (x : string) : Prop :=
  exists l, w !! x = Some l /\ default EmptyString (mp l !! NodeLabelKey) = "task"%string.

Lemma demo_server (conf : JobConfig) : NodeLabel conf = "task"%string -> NodeServer demo_serve conf labelled.
Proof.
  intros Htask. constructor; unfold wears; rewrite ?Htask.
  - intros w y n. simpl. destruct (w !! y); [|done]. by intros [= <-].
  - intros w y n. simpl. destruct (w !! y) as [l|] eqn:E; [|done]. intros [= <-] Hn. by exists l.
  - intros w n. cbn [demo_serve]. destruct (w !! Name (node_meta n)) as [l|] eqn:E; [|done]. intros _ Hn. exists (Labels (node_meta n)).
    split; [apply lookup_insert_eq|exact Hn].
  - intros q w x Hq (l & Hl & Ht). exists l. split; [|done].
    destruct q as [[y|n|y p|y|ns]|y| | | |c cmd| | | | | | |]; cbn [demo_serve spares] in *; try done.
    + case_match; [|done]. cbn [fst]. by rewrite lookup_insert_ne.
    + cbn [fst]. by rewrite lookup_delete_ne.
    + case_match; [done|]. case_match eqn:E; [done|]. cbn [fst]. rewrite lookup_insert_ne; [done|]. intros ->. congruence.
Qed.

Notation demo_run ls :=
  (run_steps (R := range_in_key_order) (fun _ => inl tt) demo_serve demo_conf 1 "v1" 5 ls
    (at_main (Next (machines (R := range_in_key_order) demo_conf)) ∅)).

(** The place of the main goroutine, the calls, and the nodes with the task's
    label. *)
Definition outcome_of (s : option (@pool unit unit unit World)) :
    option (main_at * list (string * string) * list (string * option string)) :=
  option_map (fun s => (j_main s,
    omap (fun w => match w with Running name ip _ _ => Some (name, ip) | Reading _ _ => None end) (j_workers s),
    map (fun x => (fst x, mp (snd x) !! NodeLabelKey)) (map_to_list (j_world s)))) s.

Definition main_steps (n : nat) : list label := replicate n LMain.
Definition worker_steps (i n : nat) : list label := replicate n (LRun i).
Definition reads (i : nat) : list label := [LName i; LIp i].

(** Each goroutine reads the variables before they change. *)
Definition in_turn : list label :=
  main_steps 3 ++ reads 0 ++ main_steps 4 ++ reads 1 ++ main_steps 2 ++ worker_steps 0 14 ++ worker_steps 1 14 ++ main_steps 3.

(** Both machines are installed and labelled; the job fails nevertheless, with
    an event that names one of them. *)
Lemma success_is_reported :
  outcome_of (demo_run in_turn)
  = Some (Exited 1 (Some ["1"; EmptyString]), [("a", "1"); ("b", "2")], [("a", Some "task"); ("b", Some "task")])%string.
Proof. vm_compute. reflexivity. Qed.

(** The goroutines read the variables after the loop: one machine is installed,
    and the other is not even tried. *)
Lemma machine_not_tried :
  outcome_of (demo_run (main_steps 9 ++ reads 0 ++ reads 1 ++ worker_steps 0 14 ++ worker_steps 1 2 ++ main_steps 3))
  = Some (Exited 1 (Some ["2"]), [("b", "2"); ("b", "2")], [("b", Some "task")])%string.
Proof. vm_compute. reflexivity. Qed.

(** A goroutine reads one variable before and one after they change: the
    machine of the one node is called by the name of the other. *)
Lemma wrong_machine :
  outcome_of (demo_run (main_steps 3 ++ [LName 0] ++ main_steps 6 ++ [LIp 0] ++ reads 1))
  = Some (Waiting, [("a", "2"); ("b", "2")], [])%string.
Proof. vm_compute. reflexivity. Qed.

(** A call may delete the node that another call about it has just installed
    and returned without an error. *)
Lemma installed_then_deleted :
  outcome_of (demo_run (main_steps 9 ++ reads 0 ++ reads 1 ++ worker_steps 0 9 ++ worker_steps 1 1 ++ worker_steps 0 5))
  = Some (Waiting, [("b", "2"); ("b", "2")], [("b", Some "task")])%string
  /\ outcome_of (demo_run (main_steps 9 ++ reads 0 ++ reads 1 ++ worker_steps 0 9 ++ worker_steps 1 1 ++ worker_steps 0 5 ++ worker_steps 1 1))
  = Some (Waiting, [("b", "2"); ("b", "2")], [])%string.
Proof. vm_compute. split; reflexivity. Qed.

(** *** The theorems at the run in turn *)

Definition demo_start : @pool unit unit unit World := at_main (Next (machines (R := range_in_key_order) demo_conf)) ∅.
Definition demo_end : @pool unit unit unit World := default demo_start (demo_run in_turn).

Lemma demo_end_run : demo_run in_turn = Some demo_end.
Proof. vm_compute. reflexivity. Qed.

Lemma demo_reachable : reachable (R := range_in_key_order) (fun _ => inl tt) demo_serve demo_conf 1 "v1" 5 ∅ demo_end.
Proof. apply (run_reachable _ _ _ _ _ 5 ∅ in_turn demo_start); [by apply reachable_start|apply demo_end_run]. Qed.

Lemma job_bounded_witness : (in_call demo_end <= 6)%nat /\ length (j_workers demo_end) = 2%nat /\ (1 = 0 <-> Forall only_looked (j_workers demo_end)).
Proof.
  destruct (job_bounded (R := range_in_key_order) (fun _ => inl tt) demo_serve demo_conf 1 "v1" 5 ∅ demo_end demo_reachable) as (H1 & _ & H3).
  destruct (H3 1 (Some ["1"; EmptyString]%string)) as (H4 & _ & H5 & _); [vm_compute; reflexivity|]. split; [exact H1|]. split; [exact H4|exact H5].
Defined.

Lemma job_ends_witness : (length in_turn <= 51)%nat
  /\ exists log p, last (j_workers demo_end) = Some (Running "b" "2" log p).
Proof.
  destruct (job_ends (R := range_in_key_order) (fun _ => inl tt) demo_serve demo_conf 1 "v1" 5 ∅ demo_start demo_end in_turn) as [H1 H2];
    [reflexivity|exact demo_end_run|].
  split; [exact H1|]. destruct H2 as (code & r & _ & H2); [intros l; vm_compute; reflexivity|].
  apply (H2 ("b", "2")%string). vm_compute. reflexivity.
Defined.

Lemma calls_label_witness : labelled (j_world demo_end) "a".
Proof.
  apply (calls_label (R := range_in_key_order) (fun _ => inl tt) demo_serve demo_conf 1 "v1" labelled (demo_server demo_conf eq_refl) 5 ∅ demo_end "a" demo_reachable).
  - exists 0%nat. vm_compute. by repeat eexists.
  - intros [|[|i]] ip log p H; vm_compute in H; [by injection H as <- <- <-|discriminate H|discriminate H].
Defined.

End JobDemo.
