(* ===== verification/PenetratorTask.v ===== *)
(** * Tasks of new nodes (pkg/penetrator/operator/controller, operator/crd)

    A NodeTask names machines to be installed.  Its controller compares them
    with the nodes that carry the task's label, writes the configuration of a
    job for the rest of them, creates the job and deletes it when it is done.
    All of it is a program of requests; the libraries that read and write TOML,
    kubeconfigs, certificates, URLs and times are parameters.  The theorems say
    what a synchronisation may ask for and, with the runs of PenetratorSafety,
    that a task whose machines can be installed gets ready. *)

From Stdlib Require Import ZArith Lia Ascii String.
From stdpp Require Import base strings gmap numbers sorting list.
From S2P Require Import Prelude.
From S2P Require Import GoStd.
From S2P Require Import GoStrings.
From S2P Require Import GoTemplate.
From S2P Require Import K8s.
From S2P Require Import Requests.
From S2P Require Import WorkQueue.
From S2P Require Import KubeClient.
From S2P Require Import GoBase64.
From S2P Require Import Sha256.
From S2P Require Import GridEvents.
From S2P Require Import PenetratorJob.

Local Open Scope Z_scope.
Local Open Scope go_scope.

Module Task.
Import Install.

(** ** Data (apis/nodetask.apps.superedge.io/v1beta1, constants) *)

Record NodeTaskSpec : Type := mkNodeTaskSpec {
  NodeNamePrefix : string;
  TargetMachines : gslice string;
  NodeNamesOverride : gomap string;
  ProxyNode : string;
  SSHCredential : string;
  TaskSSHPort : Z
}.

Record NodeTaskStatus : Type := mkNodeTaskStatus {
  NodeStatus : gomap string;
  TaskStatus : string
}.

#[export] Instance NodeTaskStatus_eq_dec : EqDecision NodeTaskStatus.
Proof. solve_decision. Defined.

Record NodeTask : Type := mkNodeTask {
  nt_meta : ObjectMeta;
  nt_Spec : NodeTaskSpec;
  nt_Status : NodeTaskStatus
}.

Definition with_nt_status (nt : NodeTask) (st : NodeTaskStatus) : NodeTask := mkNodeTask (nt_meta nt) (nt_Spec nt) st.

Definition NodeTaskStatusCreating : string := "creating".
Definition NodeTaskStatusReady : string := "ready".
Definition AnnotationAddNodeJobName : string := "app.superedge.io/job-name".
Definition AnnotationAddNodeConfigmapName : string := "app.superedge.io/configmap-name".
Definition JobConfKey : string := "job.toml".
Definition NameSpaceEdge : string := "edge-system".
Definition Expiration : Z := 24 * 60 * 60.
Definition BootStrapTokenSecert : string := "/etc/superedge/penetrator/manifests/bootstraper-token-secret.yaml".
Definition DirectAddNodeJob : string := "/etc/superedge/penetrator/manifests/direct-addnode-job.yaml".
Definition SpringboardAddNodeJob : string := "/etc/superedge/penetrator/manifests/springboard-addnode-job.yaml".

(** [util.KubernetesControlPlaneLabel], with the equals sign it has there. *)
Definition KubernetesControlPlaneLabel : string := "node-role.kubernetes.io/control-plane=".

Definition annotation (nt : NodeTask) (key : string) : string := default EmptyString (mp (Annotations (nt_meta nt)) !! key).
Definition task_label (nt : NodeTask) : string := default EmptyString (mp (Labels (nt_meta nt)) !! NodeLabelKey).

(** ** The event handler (NewNodeTaskController) *)

(** Whether an update is put into the queue. *)
Definition update_enqueues (oldNodeTask newNodeTask : NodeTask) : bool :=
  if negb (bool_decide (DeletionTimestamp (nt_meta oldNodeTask) = DeletionTimestamp (nt_meta newNodeTask))) then true
  else String.eqb (TaskStatus (nt_Status newNodeTask)) NodeTaskStatusCreating
       || bool_decide (nt_Status newNodeTask = mkNodeTaskStatus None EmptyString).

(** ** The nodes that are left to install (filterNodeIps) *)

Section Filter.
Context `{R : GoRange}.

Definition swap (kv : string * string) : string * string := (snd kv, fst kv).

(** [for k, v := range m { r[v] = k }]: a later key replaces an earlier one. *)
Definition inverted (m : gmap string string) : gmap string string :=
  fold_left (fun r kv => <[snd kv := fst kv]> r) (go_range m) ∅.

Definition node_status (override : gomap string) : gomap string :=
  let ipMap := inverted (mp override) in
  if Nat.eqb (size ipMap) (size (mp override)) then override else Some (inverted ipMap).

(** [delete] on a nil map does nothing. *)
Definition without_nodes (status : gomap string) (nodes : list Node) : gomap string :=
  fold_left (fun st node => option_map (delete (Name (node_meta node))) st) nodes status.

Definition filtered (nt : NodeTask) (nodes : list Node) : NodeTask :=
  let st := without_nodes (node_status (NodeNamesOverride (nt_Spec nt))) nodes in
  with_nt_status nt (mkNodeTaskStatus st
    (if Nat.eqb (size (mp st)) 0 then NodeTaskStatusReady else NodeTaskStatusCreating)).

End Filter.

(** ** Standard library *)

(** [strings.ToLower], for ASCII *)
Definition lower (a : ascii) : ascii :=
  let b := byte_of a in if (65 <=? b) && (b <=? 90) then ascii_of_byte (b + 32) else a.

(** [URL.Port]: what follows the last colon of the host, if it is a number. *)
Definition validOptionalPort (port : string) : bool :=
  match port with
  | EmptyString => true
  | String c digits => Ascii.eqb c ":"%char && all_chars (fun a => is_digit (byte_of a)) digits
  end.

Definition Port (host : string) : string :=
  match LastIndexByte host ":"%char with
  | Some colon => if validOptionalPort (drop_str colon host) then drop_str (S colon) host else EmptyString
  | None => EmptyString
  end.

(** ** Requests *)

Inductive task_error : Type :=
| TApi (e : api_error)
| TManifest (e : kube_error)
| TText (msg : string)
| TCrash (why : string).

Record Secret : Type := mkSecret { sec_Data : gmap string string }.
Record JobCondition : Type := mkJobCondition { jc_Type : string; jc_Status : string }.
Record Cluster : Type := mkCluster { CertificateAuthorityData : string; Server : string }.

Definition IsJobFinished (conditions : list JobCondition) : bool :=
  existsb (fun c => (String.eqb (jc_Type c) "Complete" || String.eqb (jc_Type c) "Failed") && String.eqb (jc_Status c) "True") conditions.

Section Controller.
Context `{R : GoRange} {B : Type}.

(** [GetTask] reads the informer's store; [GenerateBootstrapToken] is the
    library's generator, and [Now] the clock, in seconds. *)
Inductive task_request : Type :=
| GetTask (name : string)
| GetJob (namespace name : string)
| RemoveJob (namespace name : string)
| GetClusterNode (name : string)
| ListNodes (labelSelector : string)
| GetConfigMap (namespace name : string)
| CreateConfigMap (namespace : string) (cm : ConfigMap)
| UpdateConfigMap (namespace : string) (cm : ConfigMap)
| ListSecrets (namespace : string) (fields : gmap string string)
| ReadManifest (path : string)
| Kube (q : @kube_request B)
| UpdateStatus (nt : NodeTask)
| GenerateBootstrapToken
| Now.

Definition task_answer (q : task_request) : Type :=
  match q with
  | GetTask _ => NodeTask
  | GetJob _ _ => list JobCondition
  | GetClusterNode _ => Node
  | ListNodes _ => list Node
  | GetConfigMap _ _ => ConfigMap
  | ListSecrets _ _ => list Secret
  | ReadManifest _ | GenerateBootstrapToken => string
  | Kube q => kube_answer q
  | Now => Z
  | RemoveJob _ _ | CreateConfigMap _ _ | UpdateConfigMap _ _ | UpdateStatus _ => unit
  end.

Notation task A := (act task_answer task_error A).

(** [if err != nil { return err }] after a request. *)
Definition ask (q : task_request) : task (task_answer q) := map_error TApi (call q).

Context (Marshal : JobConfig -> string + string) (Unmarshal : string -> JobConfig + string).
Context (Load : string -> gmap string Cluster + string) (ParseCertsPEM : string -> list (list Z) + string).
Context (UrlParse : string -> string + string).
Context (ParseTime : string -> Z + string) (FormatTime : Z -> string).
Context (TokenFromIDAndSecret : string -> string -> string).
Context (UnmarshalKind : string -> string + string) (DecodeInto : Kind -> string -> Object B + string).

Definition or_text {A : Type} (r : A + string) : task A := match r with inl a => ok a | inr msg => fail (TText msg) end.

Definition create_resources (yamlStr : string) (options : tvalue) : task unit :=
  map_error TManifest (lift Kube (fun _ a => a) (CreateResourceWithFile UnmarshalKind DecodeInto yamlStr (Some options))).

(** *** The bootstrap token (getBootStrapToken) *)

Definition base64 (s : string) : string := string_of (b64_encode (bytes_of s)).

Definition expiration_of (s : Secret) : Z + string := ParseTime (default EmptyString (sec_Data s !! "expiration"%string)).

(** The secret that expires last, the first of them. *)
Fixpoint latest (best : Secret * Z) (items : list Secret) : Secret + string :=
  match items with
  | [] => inl (fst best)
  | item :: items =>
      match expiration_of item with
      | inr err => inr err
      | inl tmp => latest (if snd best <? tmp then (item, tmp) else best) items
      end
  end.

Definition choose_secret (first : Secret) (items : list Secret) : Secret + string :=
  match expiration_of first with inr err => inr err | inl t => latest (first, t) items end.

Definition new_token (expiration : Z) : task string :=
  let! token := ask GenerateBootstrapToken in
  match split_on "."%char token with
  | id :: secret :: _ =>
      let! now := ask Now in
      let! secretTmep := ask (ReadManifest BootStrapTokenSecert) in
      do! create_resources secretTmep
            (TMap [("Base64TokenId", TString (base64 id)); ("Base64TokenSecret", TString (base64 secret));
                   ("TokenId", TString id); ("Base64Expiration", TString (base64 (FormatTime (now + expiration))))]%string) in
      ok token
  | _ => fail (TCrash "index out of range")
  end.

Definition getBootStrapToken (expiration : Z) : task string :=
  let! secrets := ask (ListSecrets "kube-system" {[ "type"%string := "bootstrap.kubernetes.io/token"%string ]}) in
  match secrets with
  | [] => new_token expiration
  | first :: items =>
      let! secret := or_text (choose_secret first items) in
      ok (TokenFromIDAndSecret (default EmptyString (sec_Data secret !! "token-id"%string))
            (default EmptyString (sec_Data secret !! "token-secret"%string)))
  end.

(** *** The address of the cluster (getCaHashAndApiserverAddr) *)

Definition Hash (rawSubjectPublicKeyInfo : list Z) : string := "sha256:" +:+ map_str lower (string_of (hex_of (sha256 rawSubjectPublicKeyInfo))).

(** [net/url]: what the library parses a URL into is its host with its port. *)
Definition getCaHashAndApiserverAddr : task (string * string * string) :=
  let! clusterInfo := ask (GetConfigMap "kube-public" "cluster-info") in
  let! clusters := or_text (Load (default EmptyString (mp (cm_Data clusterInfo) !! "kubeconfig"%string))) in
  match clusters !! EmptyString with
  | None => fail (TCrash "invalid memory address or nil pointer dereference")
  | Some c =>
      let! cacert := or_text (ParseCertsPEM (CertificateAuthorityData c)) in
      let! url := or_text (UrlParse (Server c)) in
      match cacert with
      | [] => fail (TCrash "index out of range")
      | cert :: _ => ok (Hash cert, url, Port url)
      end
  end.

(** *** The job's configuration (prepareJob) *)

Definition filterNodeIps (nt : NodeTask) : task NodeTask :=
  let! nl := ask (ListNodes (NodeLabelKey +:+ "=" +:+ task_label nt)) in
  ok (filtered nt nl).

Definition job_owner (nt : NodeTask) : OwnerReference :=
  mkOwnerReference "batch/v1" "Job" (annotation nt AnnotationAddNodeJobName) (UID (nt_meta nt)) (Some true) (Some true).

Definition new_config_map (nt : NodeTask) (data : string) : ConfigMap :=
  mkConfigMap
    (mkObjectMeta (annotation nt AnnotationAddNodeJobName) (Namespace (nt_meta nt)) EmptyString None None (Some [job_owner nt]) None)
    (Some {[ JobConfKey := data ]}).

Definition new_job_config (nt : NodeTask) (token caHash apiserverAddr apiserverPort : string) : JobConfig :=
  mkJobConfig (NodeStatus (nt_Status nt)) (TaskSSHPort (nt_Spec nt)) (task_label nt) token apiserverAddr apiserverPort caHash no_secret.

Definition updated_job_config (cmconf : JobConfig) (nt : NodeTask) (token : string) : JobConfig :=
  mkJobConfig (NodeStatus (nt_Status nt)) (SSHPort cmconf) (NodeLabel cmconf) token (ApiserverAddr cmconf) (ApiserverPort cmconf)
    (CaHash cmconf) (Install.Secret cmconf).

(** The status is filled in first; with it the task is ready or the
    configuration is written. *)
Definition prepareJob (nt : NodeTask) : task NodeTask :=
  let! nt := filterNodeIps nt in
  if String.eqb (TaskStatus (nt_Status nt)) NodeTaskStatusReady then ok nt
  else
    let! bootStrapToken := getBootStrapToken Expiration in
    reply! r := call (GetConfigMap NameSpaceEdge (annotation nt AnnotationAddNodeConfigmapName)) in
    match r with
    | inr NotFound =>
        let! addr := getCaHashAndApiserverAddr in
        let '(caHash, apiserverAddr, apiserverPort) := addr in
        let! jobConfigBD := or_text (Marshal (new_job_config nt bootStrapToken caHash apiserverAddr apiserverPort)) in
        do! ask (CreateConfigMap NameSpaceEdge (new_config_map nt jobConfigBD)) in
        ok nt
    | inr err => fail (TApi err)
    | inl jobConf =>
        let! cmconf := or_text (Unmarshal (default EmptyString (mp (cm_Data jobConf) !! JobConfKey))) in
        let! cmjb := or_text (Marshal (updated_job_config cmconf nt bootStrapToken)) in
        match cm_Data jobConf with
        | None => fail (TCrash "assignment to entry in nil map")
        | Some data =>
            do! ask (UpdateConfigMap NameSpaceEdge (mkConfigMap (cm_meta jobConf) (Some (<[JobConfKey := cmjb]> data)))) in
            ok nt
        end
    end.

(** *** The job (createNodeJob) *)

Definition job_options (nt : NodeTask) : tvalue :=
  TMap [("JobName", TString (annotation nt AnnotationAddNodeJobName)); ("NameSpace", TString NameSpaceEdge);
        ("SecretName", TString (SSHCredential (nt_Spec nt))); ("JobConfig", TString (annotation nt AnnotationAddNodeConfigmapName));
        ("NodeName", TString (ProxyNode (nt_Spec nt))); ("NodeTaskName", TString (annotation nt AnnotationAddNodeJobName));
        ("Uid", TString (UID (nt_meta nt)))]%string.

Definition createNodeJob (nt : NodeTask) (hasMasterRoleLabel : bool) : task unit :=
  let! secretTemp := ask (ReadManifest (if hasMasterRoleLabel then DirectAddNodeJob else SpringboardAddNodeJob)) in
  create_resources secretTemp (job_options nt).

(** *** One key (syncHandler, processNextWorkItem) *)

(** The job is only looked for by the name in the annotation; a job that
    cannot be read is passed over. *)
Definition sync_task (nt : NodeTask) : task unit :=
  let jobName := annotation nt AnnotationAddNodeJobName in
  reply! r := call (GetJob NameSpaceEdge jobName) in
  match r with
  | inr NotFound =>
      let! ntCopy := prepareJob nt in
      do! (if String.eqb (TaskStatus (nt_Status ntCopy)) NodeTaskStatusCreating then
             let! node := ask (GetClusterNode (ProxyNode (nt_Spec ntCopy))) in
             createNodeJob nt (bool_decide (is_Some (mp (Labels (node_meta node)) !! KubernetesControlPlaneLabel)))
           else ok tt) in
      if bool_decide (nt_Status nt = nt_Status ntCopy) then ok tt
      else ask (UpdateStatus ntCopy)
  | inr _ => ok tt
  | inl conditions => if IsJobFinished conditions then ask (RemoveJob NameSpaceEdge jobName) else ok tt
  end.

Definition syncHandler (key : string) : task unit :=
  match SplitMetaNamespaceKey key with
  | None => fail (TText ("unexpected key format: " +:+ key))
  | Some (ns, name) =>
      let! nt := ask (GetTask name) in
      sync_task nt
  end.

(** What becomes of a key; a crash ends the process.  A failing key is always
    put back. *)
Definition processed (r : unit + task_error) : outcome queue_action :=
  match r with
  | inl _ => Ret Forget
  | inr (TCrash why) => Panic why
  | inr _ => Ret AddRateLimited
  end.

End Controller.

Arguments task_request : clear implicits.

(** ** The custom resource definition (operator/crd) *)

Inductive crd_request : Type :=
| GetCrd (name : string)
| CreateCrd (name resourceVersion : string)
| UpdateCrd (name resourceVersion : string).

Definition crd_answer (q : crd_request) : Type := match q with GetCrd _ => string | _ => unit end.

Definition get_crd (name : string) : act crd_answer api_error string := call (GetCrd name).
Definition create_crd (name resourceVersion : string) : act crd_answer api_error unit := call (CreateCrd name resourceVersion).
Definition update_crd (name resourceVersion : string) : act crd_answer api_error unit := call (UpdateCrd name resourceVersion).

(** The definition is shared by the attempts, and keeps the version that was
    written into it. *)
Definition install_crd (name resourceVersion : string) : prog crd_answer (string * (unit + api_error)) :=
  reply! r := get_crd name in
  match r with
  | inr NotFound => reply! r := create_crd name resourceVersion in Done (resourceVersion, r)
  | inr err => Done (resourceVersion, inr err)
  | inl existing => reply! r := update_crd name existing in Done (existing, r)
  end.

(** [InstallWithMaxRetry]; [err] is the error of the attempt before. *)
Fixpoint InstallWithMaxRetry (maxRetry : nat) (name resourceVersion : string) (err : unit + api_error) : act crd_answer api_error unit :=
  match maxRetry with
  | O => Done err
  | S maxRetry =>
      reply! r := install_crd name resourceVersion in
      match snd r with
      | inl _ => ok tt
      | inr _ => InstallWithMaxRetry maxRetry name (fst r) (snd r)
      end
  end.

End Task.

(** ** The machines of a task and the nodes that are there *)

Module TaskNodes.
Import Task.

Section Nodes.
Context `{R : GoRange}.
Implicit Types (m : gmap string string) (nodes : list Node).

(** No address has two names. *)
Definition distinct m : Prop := forall k1 k2 v, m !! k1 = Some v -> m !! k2 = Some v -> k1 = k2.

Definition names (nodes : list Node) : list string := map (fun n => Name (node_meta n)) nodes.

Lemma inverted_list (l : list (string * string)) (r : gmap string string) k v :
  fold_left (fun r kv => <[snd kv := fst kv]> r) l r !! v = Some k -> (k, v) ∈ l \/ r !! v = Some k.
Proof.
  revert r. induction l as [|[k' v'] l IH]; intros r H; [by right|]. simpl in H. apply IH in H as [H|H]; [left; by right|].
  apply lookup_insert_Some in H as [[<- <-]|[_ H]]; [left; by left|by right].
Qed.

Lemma inverted_covers_list (l : list (string * string)) (r : gmap string string) v :
  (is_Some (r !! v) \/ v ∈ l.*2) <-> is_Some (fold_left (fun r kv => <[snd kv := fst kv]> r) l r !! v).
Proof.
  revert r. induction l as [|[k' v'] l IH]; intros r; simpl; [rewrite elem_of_nil; tauto|]. rewrite <- IH, elem_of_cons, lookup_insert_is_Some.
  destruct (decide (v' = v)) as [->|]; naive_solver.
Qed.

Lemma inverted_some m v k : inverted m !! v = Some k -> m !! k = Some v.
Proof. intros [H|H]%inverted_list; [by apply elem_of_go_range|by rewrite lookup_empty in H]. Qed.

Lemma inverted_covers m v : is_Some (inverted m !! v) <-> exists k, m !! k = Some v.
Proof.
  unfold inverted. rewrite <- inverted_covers_list, lookup_empty. split.
  - intros [[? H]|H]; [done|]. apply list_elem_of_fmap in H as ([k v'] & -> & H). exists k. by apply elem_of_go_range.
  - intros [k H]. right. apply list_elem_of_fmap. exists (k, v). split; [done|]. by apply elem_of_go_range.
Qed.

Lemma inverted_distinct m : distinct (inverted m).
Proof. intros v1 v2 k H1%inverted_some H2%inverted_some. by simplify_eq. Qed.

Lemma inverted_twice m k v : distinct m -> inverted m !! v = Some k <-> m !! k = Some v.
Proof.
  intros Hd. split; [apply inverted_some|]. intros H.
  destruct (proj2 (inverted_covers m v) (ex_intro _ k H)) as [k' Hk']. pose proof (inverted_some _ _ _ Hk').
  by rewrite (Hd k k' v).
Qed.

Lemma inverted_back m k v : inverted (inverted m) !! k = Some v <-> inverted m !! v = Some k.
Proof. apply inverted_twice, inverted_distinct. Qed.

(** A map has as many entries as its inverse if no address has two names. *)
Lemma size_inverted m : distinct m -> size (inverted m) = size m.
Proof.
  intros Hd. rewrite <- !length_map_to_list, <- (length_fmap swap (map_to_list m)). apply Permutation_length, NoDup_Permutation.
  - apply NoDup_map_to_list.
  - apply NoDup_fmap; [by intros [] [] [=]; subst|apply NoDup_map_to_list].
  - intros [v k]. rewrite elem_of_map_to_list, list_elem_of_fmap, inverted_twice by done. split.
    + intros H. exists (k, v). by rewrite elem_of_map_to_list.
    + intros ([k' v'] & [= -> ->] & H). by rewrite elem_of_map_to_list in H.
Qed.

(** Whatever the names, a status has only names and addresses of the task,
    and one name for every address. *)
Lemma node_status_some (o : gomap string) k v : mp (node_status o) !! k = Some v -> mp o !! k = Some v.
Proof.
  unfold node_status. destruct (Nat.eqb _ _); [done|]. simpl. intros H. exact (inverted_some _ _ _ (proj1 (inverted_back _ _ _) H)).
Qed.

Lemma node_status_covers (o : gomap string) k v : mp o !! k = Some v -> exists k', mp (node_status o) !! k' = Some v.
Proof.
  unfold node_status. destruct (Nat.eqb _ _); [eauto|]. simpl. intros H.
  destruct (proj2 (inverted_covers (mp o) v) (ex_intro _ k H)) as [k' Hk']. exists k'. exact (proj2 (inverted_back _ _ _) Hk').
Qed.

Lemma node_status_distinct (o : gomap string) : distinct (mp o) -> node_status o = o.
Proof. intros Hd. unfold node_status. by rewrite size_inverted, Nat.eqb_refl by done. Qed.

Lemma without_nodes_lookup (st : gomap string) nodes k :
  mp (without_nodes st nodes) !! k = if decide (k ∈ names nodes) then None else mp st !! k.
Proof.
  unfold without_nodes. revert st. induction nodes as [|n nodes IH]; intros st; simpl; [done|]. rewrite IH. simpl.
  destruct (decide (k = Name (node_meta n))) as [->|Hne].
  - rewrite (decide_True (P := _ ∈ _ :: _)) by by left. case_decide; [done|]. destruct st as [m|]; [|done]. apply lookup_delete_eq.
  - assert (mp (option_map (delete (Name (node_meta n))) st) !! k = mp st !! k) as ->.
    { destruct st as [m|]; [|done]. by apply lookup_delete_ne. }
    repeat case_decide; try done; [destruct H0; by right|]. by apply elem_of_cons in H0 as [?|?].
Qed.

(** What is left of a task whose addresses have one name each. *)
Definition remaining (o : gomap string) nodes : gmap string string := filter (fun kv => kv.1 ∉ names nodes) (mp o).

Lemma filtered_remaining nt nodes : distinct (mp (NodeNamesOverride (nt_Spec nt))) ->
  mp (NodeStatus (nt_Status (filtered nt nodes))) = remaining (NodeNamesOverride (nt_Spec nt)) nodes.
Proof.
  intros Hd. apply map_eq. intros k. unfold filtered, remaining. simpl. rewrite without_nodes_lookup, node_status_distinct by done.
  destruct (mp _ !! k) as [v|] eqn:E.
  - destruct (decide (k ∈ names nodes)) as [Hk|Hk]; symmetry.
    + apply map_lookup_filter_None. right. intros x _ Hx. by destruct Hx.
    + by apply map_lookup_filter_Some.
  - destruct (decide _); symmetry; apply map_lookup_filter_None; by left.
Qed.

Lemma filtered_ready nt nodes : TaskStatus (nt_Status (filtered nt nodes)) = NodeTaskStatusReady
  <-> mp (NodeStatus (nt_Status (filtered nt nodes))) = ∅.
Proof.
  unfold filtered. simpl. destruct (Nat.eqb _ _) eqn:E.
  - apply Nat.eqb_eq in E. apply map_size_empty_inv in E. tauto.
  - apply Nat.eqb_neq in E. split; [done|]. intros H. by rewrite H, map_size_empty in E.
Qed.

Lemma filtered_creating nt nodes : TaskStatus (nt_Status (filtered nt nodes)) <> NodeTaskStatusReady ->
  TaskStatus (nt_Status (filtered nt nodes)) = NodeTaskStatusCreating.
Proof. unfold filtered. simpl. by destruct (Nat.eqb _ _). Qed.

End Nodes.
End TaskNodes.

(** ** What a synchronisation asks for *)

Module Sync.
Import Install Task TaskNodes.

Section Sync.
Context `{R : GoRange} {B : Type}.
Context (Marshal : JobConfig -> string + string) (Unmarshal : string -> JobConfig + string).
Context (Load : string -> gmap string Cluster + string) (ParseCertsPEM : string -> list (list Z) + string).
Context (UrlParse : string -> string + string).
Context (ParseTime : string -> Z + string) (FormatTime : Z -> string).
Context (TokenFromIDAndSecret : string -> string -> string).
Context (UnmarshalKind : string -> string + string) (DecodeInto : Kind -> string -> Object B + string).

Notation sync_now := (sync_task (B := B) Marshal Unmarshal Load ParseCertsPEM UrlParse ParseTime FormatTime TokenFromIDAndSecret UnmarshalKind DecodeInto).
Notation prepare_now := (prepareJob (B := B) Marshal Unmarshal Load ParseCertsPEM UrlParse ParseTime FormatTime TokenFromIDAndSecret UnmarshalKind DecodeInto).
Notation create_now := (createNodeJob (B := B) UnmarshalKind DecodeInto).
Notation token_now := (getBootStrapToken (B := B) ParseTime FormatTime TokenFromIDAndSecret UnmarshalKind DecodeInto).
Notation address_now := (getCaHashAndApiserverAddr (B := B) Load ParseCertsPEM UrlParse).
Notation resources_now := (create_resources (B := B) UnmarshalKind DecodeInto).

(** The nodes with the task's label are [nl], if they can be listed. *)
Definition lists (nl : list Node) (q : task_request B) : task_answer q + api_error -> Prop :=
  match q return task_answer q + api_error -> Prop with
  | ListNodes _ => fun r => match r with inl l => l = nl | inr _ => True end
  | _ => fun _ => True
  end.

(** A configuration for what [left] says, in the format of the library. *)
Definition configures (left : gomap string) (data : string) : Prop :=
  exists c, Marshal c = inl data /\ NodesIps c = left.

Definition allowed (nt : NodeTask) (nl : list Node) (q : task_request B) : Prop :=
  let st := nt_Status (filtered nt nl) in
  match q with
  | CreateConfigMap ns cm | UpdateConfigMap ns cm =>
      ns = NameSpaceEdge /\ TaskStatus st = NodeTaskStatusCreating
      /\ exists data, mp (cm_Data cm) !! JobConfKey = Some data /\ configures (NodeStatus st) data
  | Kube _ => TaskStatus st = NodeTaskStatusCreating
  | ReadManifest _ => TaskStatus st = NodeTaskStatusCreating
  | UpdateStatus nt' => nt' = filtered nt nl /\ nt_Status nt <> st
  | RemoveJob ns name => ns = NameSpaceEdge /\ name = annotation nt AnnotationAddNodeJobName
  | _ => True
  end.

Definition writes_config (q : task_request B) : Prop := match q with CreateConfigMap _ _ | UpdateConfigMap _ _ => True | _ => False end.
Definition reads_job (q : task_request B) : Prop := q = ReadManifest DirectAddNodeJob \/ q = ReadManifest SpringboardAddNodeJob.

Lemma all_task_ask (P : task_request B -> Prop) q : P q -> all_requests P (ask q).
Proof. intros Hq. by apply all_map_error, all_call. Qed.

Lemma all_or_text {A : Type} (P : task_request B -> Prop) (r : A + string) : all_requests P (or_text (B := B) r).
Proof. by destruct r. Qed.

Lemma all_create_resources (P : task_request B -> Prop) y o : (forall q, P (Kube q)) -> all_requests P (resources_now y o).
Proof. intros HP. apply all_map_error, all_lift, all_of_all. exact HP. Qed.

(** The token's requests. *)
Lemma all_token (P : task_request B -> Prop) e :
  (forall ns f, P (ListSecrets ns f)) -> P GenerateBootstrapToken -> P Now -> P (ReadManifest BootStrapTokenSecert) ->
  (forall q, P (Kube q)) -> all_requests P (token_now e).
Proof.
  intros H1 H2 H3 H4 H5. apply all_andthen; [by apply all_task_ask|]. intros [|first items].
  - apply all_andthen; [by apply all_task_ask|]. intros token. destruct (split_on _ token) as [|id [|secret rest]]; [done|done|].
    apply all_andthen; [by apply all_task_ask|]. intros now. apply all_andthen; [by apply all_task_ask|]. intros y.
    apply all_andthen; [by apply all_create_resources|done].
  - apply all_andthen; [apply all_or_text|done].
Qed.

Lemma all_address (P : task_request B -> Prop) : (forall ns n, P (GetConfigMap ns n)) -> all_requests P address_now.
Proof.
  intros H. apply all_andthen; [by apply all_task_ask|]. intros cm. apply all_andthen; [apply all_or_text|]. intros cl.
  destruct (cl !! _) as [c|]; [|done]. apply all_andthen; [apply all_or_text|]. intros certs.
  apply all_andthen; [apply all_or_text|]. intros url. by destruct certs.
Qed.

Lemma under_any {A : Type} nl (P : task_request B -> Prop) (p : act task_answer task_error A) :
  all_requests P p -> under (lists nl) P (if_ok (fun _ => True)) p.
Proof. intros Hp. eapply under_mono; [by apply under_all|]. by intros [|]. Qed.

(** With the nodes listed, the prepared task has the status they leave. *)
Lemma prepare_under nt nl : under (lists nl) (allowed nt nl) (if_ok (fun nt' => nt' = filtered nt nl)) (prepare_now nt).
Proof.
  eapply (under_andthen _ _ (fun nt' => nt' = filtered nt nl)); [|done|].
  { eapply (under_andthen _ _ (fun l => l = nl)); [|done|by intros l ->]. split; [done|]. intros [l|e] Hr; [exact Hr|done]. }
  intros nt' ->. destruct (String.eqb _ _) eqn:E; [done|].
  assert (TaskStatus (nt_Status (filtered nt nl)) = NodeTaskStatusCreating) as Hc.
  { apply filtered_creating. intros H. apply String.eqb_neq in E. done. }
  eapply (under_andthen _ _ (fun _ => True)); [|done|].
  { apply under_any, all_token; try done. }
  intros token _. split; [done|]. intros [cm|e] _; cbn [bind].
  - eapply (under_andthen _ _ (fun _ => True)); [apply under_any, all_or_text|done|]. intros c _.
    destruct (Marshal _) as [data|] eqn:Em; [|done]. simpl. destruct (cm_Data cm) as [d|]; [|done].
    split; [|intros [u|e] _; done]. split_and!; [done|done|]. exists data. simpl. split; [by rewrite lookup_insert_eq|]. by eexists.
  - destruct e; try done. eapply (under_andthen _ _ (fun _ => True)); [by apply under_any, all_address|done|].
    intros [[ca host] port] _. destruct (Marshal _) as [data|] eqn:Em; [|done].
    split; [|intros [u|e] _; done]. split_and!; [done|done|]. exists data. simpl. split; [by rewrite lookup_singleton_eq|]. by eexists.
Qed.

(** The job's manifest is read after a configuration was written. *)
Definition config_first (t : list (task_request B)) : Prop :=
  forall t1 q t2, t = t1 ++ q :: t2 -> reads_job q -> Exists writes_config t1.

Lemma config_first_none t : Forall (fun q => ~ reads_job q) t -> config_first t.
Proof. intros Ht t1 q t2 -> Hq. apply Forall_app in Ht as [_ Ht]. by apply Forall_cons in Ht as [Hq' _]. Qed.

Lemma config_first_after t l : Forall (fun q => ~ reads_job q) t -> Exists writes_config t -> config_first (t ++ l).
Proof.
  intros Hn Hw t1 q t2 E Hq. apply app_eq_app in E as (m & [[-> Em]|[-> ->]]).
  - destruct m as [|q' m]; [by rewrite app_nil_r in Hw|]. simplify_eq/=. apply Forall_app in Hn as [_ Hn].
    by apply Forall_cons in Hn as [Hq' _].
  - apply Exists_app. by left.
Qed.

Lemma not_job (q : task_request B) : (match q with ReadManifest p => p = BootStrapTokenSecert | _ => True end) -> ~ reads_job q.
Proof. intros H [-> | ->]; by discriminate H. Qed.

Lemma prepare_no_job nt : all_requests (fun q => ~ reads_job q) (prepare_now nt).
Proof.
  apply all_andthen; [apply all_andthen; [by apply all_task_ask, not_job|done]|]. intros nt'. destruct (String.eqb _ _); [done|].
  apply all_andthen; [apply all_token; intros; by apply not_job|]. intros token.
  apply all_bind; [by apply all_call, not_job|]. intros [cm|e].
  - apply all_andthen; [apply all_or_text|]. intros c. apply all_andthen; [apply all_or_text|]. intros d.
    destruct (cm_Data cm); [|done]. apply all_andthen; [by apply all_task_ask, not_job|done].
  - destruct e; try done. apply all_andthen; [apply all_address; intros; by apply not_job|]. intros [[ca host] port].
    apply all_andthen; [apply all_or_text|]. intros d. apply all_andthen; [by apply all_task_ask, not_job|done].
Qed.

Lemma traces_any {A : Type} Ok (p : prog (task_answer (B := B)) A) t : traces Ok (fun _ _ => True) t p.
Proof. revert t. induction p as [a|q k IH]; intros t; [done|]. intros r _. apply IH. Qed.

(** A task is prepared as ready or with a configuration. *)
Lemma prepare_writes Ok nt t :
  traces Ok (fun t r => forall nt', r = inl nt' -> TaskStatus (nt_Status nt') <> NodeTaskStatusReady -> Exists writes_config t) t (prepare_now nt).
Proof.
  apply traces_andthen. eapply traces_mono; [apply traces_any|]. intros t1 [nt1|e] _; [|done].
  destruct (String.eqb _ _) eqn:E; [intros nt' [= <-] Hne; by apply String.eqb_eq in E|].
  apply traces_andthen. eapply traces_mono; [apply traces_any|]. intros t2 [token|e] _; [|done].
  assert (forall t q (nt' : NodeTask), writes_config q -> @inl NodeTask task_error nt1 = inl nt' -> TaskStatus (nt_Status nt') <> NodeTaskStatusReady -> Exists writes_config (t ++ [q])) as Hw.
  { intros t' q nt' Hq _ _. apply Exists_app. right. by constructor. }
  intros [cm|e] _; cbn [bind].
  - apply traces_andthen. eapply traces_mono; [apply traces_any|]. intros t3 [c|e] _; [|done].
    apply traces_andthen. eapply traces_mono; [apply traces_any|]. intros t4 [d|e] _; [|done].
    destruct (cm_Data cm); [|done]. intros [u|e] _; [|done]. intros nt'. by apply Hw.
  - destruct e; try done. apply traces_andthen. eapply traces_mono; [apply traces_any|]. intros t3 [[[ca host] port]|e] _; [|done].
    apply traces_andthen. eapply traces_mono; [apply traces_any|]. intros t4 [d|e] _; [|done].
    intros [u|e] _; [|done]. intros nt'. by apply Hw.
Qed.

(** The rest of a synchronisation after the task was prepared. *)
Definition absent (q : task_request B) : task_answer q + api_error -> Prop :=
  match q return task_answer q + api_error -> Prop with
  | GetJob _ _ => fun r => r = inr NotFound
  | _ => fun _ => True
  end.

Lemma sync_order nt t : Forall (fun q => ~ reads_job q) t ->
  traces (fun _ _ => True) (fun t _ => config_first t) t (sync_now nt).
Proof.
  intros Ht r _. assert (Forall (fun q => ~ reads_job q) (t ++ [GetJob NameSpaceEdge (annotation nt AnnotationAddNodeJobName)])) as Ht1.
  { apply Forall_app. split; [done|]. constructor; [by apply not_job|done]. }
  revert Ht1. generalize (t ++ [GetJob NameSpaceEdge (annotation nt AnnotationAddNodeJobName)]). clear t Ht. intros t Ht.
  destruct r as [conditions|e]; cbn [bind].
  - destruct (IsJobFinished conditions); [|by apply config_first_none]. intros r _. cbn. destruct r; apply config_first_none; apply Forall_app;
      (split; [done|constructor; [by apply not_job|done]]).
  - destruct e; try by apply config_first_none. apply traces_andthen.
    eapply traces_mono; [apply traces_conj; [by apply traces_all, prepare_no_job|apply prepare_writes]|].
    intros t' [nt'|e] [Hn Hw]; [|by apply config_first_none]. apply traces_andthen.
    destruct (String.eqb _ _) eqn:E.
    + apply String.eqb_eq in E. assert (Exists writes_config t') as Hw' by (apply (Hw nt'); [done|by rewrite E]).
      eapply traces_mono; [apply traces_prefix|]. intros t2 r [l ->]. destruct r as [u|e]; [|by apply config_first_after].
      eapply traces_mono; [apply traces_prefix|]. intros t3 r [l' ->]. rewrite <- app_assoc. by apply config_first_after.
    + cbn. destruct (bool_decide _); [by apply config_first_none|]. intros r _. cbn. destruct r; apply config_first_none; apply Forall_app;
      (split; [done|constructor; [by apply not_job|done]]).
Qed.

(** Without a job and with machines left, a synchronisation that succeeds has
    written a configuration and read the manifest of the job. *)
Lemma sync_complete nt nl t : TaskStatus (nt_Status (filtered nt nl)) = NodeTaskStatusCreating ->
  traces (fun q r => lists nl q r /\ absent q r) (fun t r => r = inl tt -> Exists writes_config t /\ Exists reads_job t) t (sync_now nt).
Proof.
  intros Hc r [_ Hr]. simpl in Hr. subst r. cbn [bind]. apply traces_andthen.
  eapply traces_mono; [apply traces_conj; [|apply prepare_writes]|].
  { eapply traces_weaken; [|eapply traces_under, (prepare_under nt nl)]. by intros q r [H _]. }
  intros t' [nt'|e] [Hnt Hw]; [|done]. simpl in Hnt. subst nt'. specialize (Hw _ eq_refl). rewrite Hc in Hw. specialize (Hw ltac:(done)).
  rewrite Hc. cbn [String.eqb Ascii.eqb Bool.eqb NodeTaskStatusCreating].
  apply traces_andthen, traces_andthen. eapply traces_mono; [apply traces_prefix|]. intros t1 [node|e] [l1 ->]; [|done].
  apply traces_andthen. set (b := bool_decide _). clearbody b.
  assert (Exists reads_job [ReadManifest (B := B) (if b then DirectAddNodeJob else SpringboardAddNodeJob)]) as Hj.
  { constructor. destruct b; [by left|by right]. }
  intros r _. cbn. destruct r as [y|e]; [|done].
  eapply traces_mono; [apply traces_prefix|]. intros t2 [u|e] [l2 ->]; [|done].
  eapply traces_mono; [apply traces_prefix|]. intros t3 r [l3 ->] _. rewrite !Exists_app. tauto.
Qed.

Lemma sync_under nt nl : under (lists nl) (allowed nt nl) (fun _ => True) (sync_now nt).
Proof.
  split; [done|]. intros [conditions|e] _; cbn [bind].
  - destruct (IsJobFinished conditions); [|done]. by apply under_all, all_task_ask.
  - destruct e; try done. eapply under_andthen; [apply prepare_under|done|]. intros nt' ->.
    eapply (under_andthen _ _ (fun _ => True)); [|done|].
    + destruct (String.eqb _ _) eqn:E; [|done]. apply String.eqb_eq in E.
      apply under_any, all_andthen; [by apply all_task_ask|]. intros node. apply all_andthen; [apply all_task_ask; exact E|]. intros y.
      by apply all_create_resources.
    + intros _ _. case_bool_decide; [done|]. by apply under_all, all_task_ask.
Qed.

(** Whatever a synchronisation of a task meets, and whether it succeeds or
    fails on the way: the configuration that it writes for the job names
    exactly the machines whose nodes, in the list it was given, do not carry
    the task's label; it writes one, and asks for anything that creates the
    job, only when such machines are left; it reads the manifest of the job
    only after a configuration was written; and it only ever deletes the task's
    own job.  If there was no job, machines are left, and no request fails, the
    configuration is written and the job's manifest read. *)
Theorem sync_writes {S : Type} (serve : forall q : task_request B, S -> S * (task_answer q + api_error))
  (nt : NodeTask) (nl : list Node) (s : S)
  (Hlist : forall q s, lists nl q (snd (serve q s))) :
  wp serve (sync_now nt) (fun _ t r =>
    Forall (allowed nt nl) t /\ config_first t
    /\ ((forall q s, absent q (snd (serve q s))) -> TaskStatus (nt_Status (filtered nt nl)) = NodeTaskStatusCreating ->
        r = inl tt -> Exists writes_config t /\ Exists reads_job t)) s.
Proof.
  assert (wp serve (sync_now nt) (fun _ t r => (Forall (allowed nt nl) t /\ True) /\ config_first t) s) as H1.
  { apply wp_conj; [by apply (wp_under serve (lists nl)), sync_under|].
    apply (wp_traces serve (fun _ _ => True) (fun t _ => config_first t) _ [] s); [done|by apply sync_order]. }
  unfold wp in *. destruct (run serve (sync_now nt) s) as [[s' t] r] eqn:E. destruct H1 as [[H1 _] H2]. split_and!; [done|done|].
  intros Habs Hc. pose proof (wp_traces serve (fun q r => lists nl q r /\ absent q r) _ _ [] s (fun q s => conj (Hlist q s) (Habs q s))
    (sync_complete nt nl [] Hc)) as H3. unfold wp in H3. by rewrite E in H3.
Qed.

End Sync.
End Sync.

(** ** The token, and tasks that are gone *)

Module TaskFacts.
Import Install Task.

Section Facts.
Context `{R : GoRange} {B : Type}.
Context (Marshal : JobConfig -> string + string) (Unmarshal : string -> JobConfig + string).
Context (Load : string -> gmap string Cluster + string) (ParseCertsPEM : string -> list (list Z) + string).
Context (UrlParse : string -> string + string).
Context (ParseTime : string -> Z + string) (FormatTime : Z -> string).
Context (TokenFromIDAndSecret : string -> string -> string).
Context (UnmarshalKind : string -> string + string) (DecodeInto : Kind -> string -> Object B + string).

Notation expires := (expiration_of ParseTime).

Lemma latest_spec best items s : expires (fst best) = inl (snd best) -> latest ParseTime best items = inl s ->
  exists t, expires s = inl t /\ s ∈ fst best :: items
  /\ forall s', s' ∈ fst best :: items -> exists t', expires s' = inl t' /\ t' <= t.
Proof.
  revert best. induction items as [|item items IH]; intros best Hb H; simpl in H.
  - injection H as <-. exists (snd best). split_and!; [done|by left|]. intros s' ->%list_elem_of_singleton. exists (snd best). by split; [|lia].
  - destruct (expires item) as [tmp|] eqn:E; [|done]. destruct (Z.ltb_spec (snd best) tmp) as [Hlt|Hle].
    + destruct (IH (item, tmp) E H) as (t & Hs & Hin & Hmax). exists t. split_and!; [done|by right|].
      intros s' [-> |Hs']%elem_of_cons; [|by apply Hmax]. exists (snd best). split; [done|].
      destruct (Hmax item ltac:(by left)) as (t' & E' & Ht'). rewrite E in E'. injection E' as <-. lia.
    + destruct (IH best Hb H) as (t & Hs & Hin & Hmax). exists t. split_and!; [done|set_solver|].
      intros s' [-> |[-> |Hs']%elem_of_cons]%elem_of_cons; [apply Hmax; by left| |apply Hmax; by right].
      exists tmp. split; [done|]. destruct (Hmax (fst best) ltac:(by left)) as (t' & E' & Ht'). rewrite Hb in E'. injection E' as <-. lia.
Qed.

(** The token given to a job is that of the secret that expires last. *)
Lemma choose_secret_latest first items s : choose_secret ParseTime first items = inl s ->
  exists t, expires s = inl t /\ s ∈ first :: items
  /\ forall s', s' ∈ first :: items -> exists t', expires s' = inl t' /\ t' <= t.
Proof. unfold choose_secret. destruct (expires first) as [t|] eqn:E; [|done]. intros H. by apply (latest_spec (first, t)). Qed.

(** The key of a task that was deleted fails, and is put back, whenever it is
    taken. *)
Lemma deleted_task_retried {S : Type} (serve : forall q : task_request B, S -> S * (task_answer q + api_error)) (s : S) ns name :
  snd (serve (GetTask name) s) = inr NotFound ->
  SplitMetaNamespaceKey name = Some (ns, name) ->
  wp serve (syncHandler Marshal Unmarshal Load ParseCertsPEM UrlParse ParseTime FormatTime TokenFromIDAndSecret UnmarshalKind DecodeInto name)
    (fun _ t r => t = [GetTask name] /\ processed r = Ret AddRateLimited) s.
Proof. intros Hgone Hkey. unfold syncHandler. rewrite Hkey. unfold wp. cbn. destruct (serve (GetTask name) s) as [s' r]. simpl in Hgone. by subst r. Qed.

End Facts.
End TaskFacts.

(** ** A synchronisation of a task with one machine *)

Module SyncDemo.
Import Install Task Sync.

Definition sync_nt : NodeTask :=
  mkNodeTask
    (mkObjectMeta "nodes" EmptyString "uid" (Some {[ NodeLabelKey := "task" ]})
       (Some {[ AnnotationAddNodeJobName := "task"; AnnotationAddNodeConfigmapName := "task" ]}) None None)
    (mkNodeTaskSpec EmptyString None (Some {[ "a" := "1" ]}) "proxy" "login" 22) (mkNodeTaskStatus None EmptyString).

Definition sync_serve (q : task_request unit) (s : unit) : unit * (task_answer q + api_error) :=
  match q return unit * (task_answer q + api_error) with
  | GetTask _ => (s, inl sync_nt)
  | GetJob _ _ => (s, inr NotFound)
  | GetClusterNode n => (s, inl (mkNode (named EmptyString n) None None None))
  | ListNodes _ => (s, inl [])
  | GetConfigMap _ n =>
      (s, if String.eqb n "cluster-info" then inl (mkConfigMap (named "kube-public" n) (Some {[ "kubeconfig"%string := "kubeconfig"%string ]})) else inr NotFound)
  | ListSecrets _ _ => (s, inl [mkSecret {[ "expiration" := "t"; "token-id" := "i"; "token-secret" := "s" ]}%string])
  | ReadManifest _ => (s, inl EmptyString)
  | GenerateBootstrapToken => (s, inl "id.secret"%string)
  | Kube q => (s, inr NotFound)
  | Now => (s, inl 0)
  | RemoveJob _ _ | CreateConfigMap _ _ | UpdateConfigMap _ _ | UpdateStatus _ => (s, inl tt)
  end.

Notation demo_sync :=
  (sync_task (R := range_in_key_order) (B := unit) (fun c => inl (NodeLabel c)) (fun _ => inr EmptyString)
     (fun _ => inl {[ EmptyString := mkCluster "cert" "https://10.0.0.1:6443" ]}) (fun _ => inl [[1]]) (fun _ => inl "10.0.0.1:6443"%string)
     (fun _ => inl 5) (fun _ => EmptyString) (fun i s => i +:+ "." +:+ s) (fun _ => inl EmptyString) (fun _ _ => inr EmptyString) sync_nt).

Lemma sync_writes_witness :
  wp sync_serve demo_sync (fun _ t r => r = inl tt /\ config_first t /\ Exists writes_config t /\ Exists reads_job t) tt.
Proof.
  pose proof (sync_writes (R := range_in_key_order) (B := unit) (fun c => inl (NodeLabel c)) (fun _ => inr EmptyString)
     (fun _ => inl {[ EmptyString := mkCluster "cert" "https://10.0.0.1:6443" ]}) (fun _ => inl [[1]]) (fun _ => inl "10.0.0.1:6443"%string)
     (fun _ => inl 5) (fun _ => EmptyString) (fun i s => i +:+ "." +:+ s) (fun _ => inl EmptyString) (fun _ _ => inr EmptyString)
     sync_serve sync_nt [] tt) as H.
  assert (snd (run sync_serve demo_sync tt) = inl tt) as Hr by (vm_compute; reflexivity).
  unfold wp in *. destruct (run sync_serve demo_sync tt) as [[s t] r]. simpl in Hr. subst r.
  destruct H as (_ & H2 & H3); [by intros [] []|]. split_and!; [reflexivity|exact H2| |]; (apply H3; [by intros [] []|vm_compute; reflexivity|reflexivity]).
Defined.

End SyncDemo.
