(* ===== verification/PenetratorProgress.v ===== *)
(** * A task gets ready (pkg/penetrator: controller and job together)

    The controller and its jobs take turns: a synchronisation compares the
    task with the nodes, a job installs what is left, the next synchronisation
    compares again.  The theorem of this file composes [filtered], which gives
    the job its machines, with the runs of the job, and bounds the number of
    jobs; two examples show what it takes for its hypotheses. *)

From Stdlib Require Import ZArith Lia Ascii String.
From stdpp Require Import base strings gmap numbers sorting list.
From S2P Require Import Prelude.
From S2P Require Import GoStd.
From S2P Require Import K8s.
From S2P Require Import Requests.
From S2P Require Import WorkQueue.
From S2P Require Import KubeClient.
From S2P Require Import PenetratorJob.
From S2P Require Import PenetratorPool.
From S2P Require Import PenetratorSafety.
From S2P Require Import PenetratorTask.
Import Install Pool PoolInv PoolRuns Labelled JobRuns Task TaskNodes.

Local Open Scope Z_scope.
Local Open Scope go_scope.

Module Progress.

Section Rounds.
Context `{R : GoRange} {Client Session Signer : Type} (ParsePrivateKey : string -> Signer + string).
Context {World : Type} (serve : forall q : job_request Client Session Signer, World -> World * (job_answer q + api_error)).
Context (attempts : nat) (version : string).

Notation reachable := (reachable ParsePrivateKey serve).

(** A job ran to its end, and every call returned without an error. *)
Definition job_round (JobConf : JobConfig) (nodes : Z) (w w' : World) : Prop :=
  exists s, reachable JobConf attempts version nodes w s /\ (exists code r, j_main s = Exited code r)
  /\ (forall i name ip log p, j_workers s !! i = Some (Running name ip log p) -> p = Done (inl tt))
  /\ w' = j_world s.

Section Round.
Context (JobConf : JobConfig) (nodes : Z) (labelled : World -> string -> Prop).
Context (Hserver : NodeServer serve JobConf labelled).

(** No label is lost, and one machine of the configuration has gained it. *)
Lemma round_keeps w w' x : job_round JobConf nodes w w' -> labelled w x -> labelled w' x.
Proof.
  intros (s & Hs & _ & Hnil & ->) Hx. destruct (label_kept _ _ _ _ _ labelled Hserver _ _ _ _ Hs Hx) as [|(i & ip & log & p & Hi)]; [done|].
  eapply labels_end; [by eapply reachable_labels|by exists ip|]. intros j ip' log' p'. apply Hnil.
Qed.

Lemma round_adds w w' : job_round JobConf nodes w w' -> mp (NodesIps JobConf) <> ∅ ->
  exists x, is_Some (mp (NodesIps JobConf) !! x) /\ labelled w' x.
Proof.
  intros (s & Hs & (code & r & Em) & Hnil & ->) Hne. destruct (reachable_inv _ _ _ _ _ _ _ _ Hs) as [Hi Hh].
  destruct (last (machines JobConf)) as [[name ip]|] eqn:El.
  - destruct (exited_last _ _ _ _ _ _ _ Hi Hh Em El) as (log & p & Hl). exists name. split.
    + exists ip. apply last_Some_elem_of in El. by apply elem_of_go_range in El.
    + rewrite last_lookup in Hl. eapply labels_end; [by eapply reachable_labels|by exists ip|]. intros j ip' log' p'. apply Hnil.
  - destruct Hne. apply last_None in El. apply map_size_empty_inv. unfold machines in El. by rewrite <- length_go_range, El.
Qed.

End Round.

(** *** Rounds *)

Context (labelled : World -> string -> Prop) (nodes_with : World -> list Node).
Context (Hnodes : forall w x, x ∈ names (nodes_with w) <-> labelled w x).

Lemma remaining_round (o : gomap string) w w' :
  (forall x, labelled w x -> labelled w' x) -> (exists x, is_Some (remaining o (nodes_with w) !! x) /\ labelled w' x) ->
  (size (remaining o (nodes_with w')) < size (remaining o (nodes_with w)))%nat.
Proof.
  intros Hk (x & [v Hv] & Hx). apply map_subset_size. split.
  - apply map_subseteq_spec. intros k u. unfold remaining. rewrite !map_lookup_filter_Some. simpl. intros [Hu Hn]. split; [done|].
    rewrite Hnodes in *. auto.
  - intros Hsub. rewrite map_subseteq_spec in Hsub. specialize (Hsub x v Hv). apply map_lookup_filter_Some in Hsub as [_ Hn]. simpl in Hn.
    by rewrite Hnodes in Hn.
Qed.

(** C12: a task whose addresses have one name each, and which is synchronised
    again after each of its jobs.  As long as the task is not ready, the
    controller's status gives the next job its machines; let that job end, with
    every call returned without an error.  Then the task is ready after at most
    as many jobs as it has machines, although a job may miss all machines but
    one. *)
Theorem task_settles (nt : NodeTask) (worlds : nat -> World)
  (Hdistinct : distinct (mp (NodeNamesOverride (nt_Spec nt))))
  (Hserver : forall conf, NodeLabel conf = task_label nt -> NodeServer serve conf labelled)
  (Hround : forall n, TaskStatus (nt_Status (filtered nt (nodes_with (worlds n)))) = NodeTaskStatusCreating ->
     exists conf nodes, NodesIps conf = NodeStatus (nt_Status (filtered nt (nodes_with (worlds n)))) /\ NodeLabel conf = task_label nt
     /\ job_round conf nodes (worlds n) (worlds (S n))) :
  exists n, (n <= size (mp (NodeNamesOverride (nt_Spec nt))))%nat
  /\ TaskStatus (nt_Status (filtered nt (nodes_with (worlds n)))) = NodeTaskStatusReady.
Proof.
  set (o := NodeNamesOverride (nt_Spec nt)) in *.
  assert (forall k n, (size (remaining o (nodes_with (worlds n))) <= k)%nat ->
    exists m, (m <= n + k)%nat /\ TaskStatus (nt_Status (filtered nt (nodes_with (worlds m)))) = NodeTaskStatusReady) as Hgo.
  { induction k as [|k IH]; intros n Hn.
    - exists n. split; [lia|]. apply filtered_ready. rewrite filtered_remaining by done. apply map_size_empty_inv. unfold o in Hn. lia.
    - destruct (decide (TaskStatus (nt_Status (filtered nt (nodes_with (worlds n)))) = NodeTaskStatusReady)) as [|Hne]; [exists n; split; [lia|done]|].
      destruct (Hround n (filtered_creating _ _ Hne)) as (conf & nodes & Hips & Hlabel & Hjob). specialize (Hserver conf Hlabel).
      assert (mp (NodesIps conf) = remaining o (nodes_with (worlds n))) as Hmp by (rewrite Hips; by apply filtered_remaining).
      destruct (IH (S n)) as (m & Hm & Hr); [|exists m; split; [lia|done]].
      assert (size (remaining o (nodes_with (worlds (S n)))) < size (remaining o (nodes_with (worlds n))))%nat; [|lia].
      apply remaining_round; [intros x; by eapply round_keeps|]. rewrite <- Hmp. eapply round_adds; [done|done|].
      intros E. apply Hne, filtered_ready. rewrite filtered_remaining by done. fold o. by rewrite <- Hmp. }
  destruct (Hgo (size (mp o)) 0%nat) as (n & Hn & Hr); [|exists n; split; [lia|done]].
  apply map_subseteq_size, map_filter_subseteq.
Qed.

End Rounds.
End Progress.

(** ** A task with two machines *)

Module TaskDemo.
Import JobDemo Progress.

Definition demo_task (override : gmap string string) : NodeTask :=
  mkNodeTask
    (mkObjectMeta "nodes" EmptyString "uid" (Some {[ NodeLabelKey := "task" ]})
       (Some {[ AnnotationAddNodeJobName := "task"; AnnotationAddNodeConfigmapName := "task" ]}) None None)
    (mkNodeTaskSpec EmptyString None (Some override) "proxy" "login" 22) (mkNodeTaskStatus None EmptyString).

Definition two_machines : gmap string string := {[ "a" := "1"; "b" := "2" ]}.

Lemma two_machines_distinct : distinct two_machines.
Proof.
  unfold two_machines. intros k1 k2 v [[<- <-]|[_ H1]]%lookup_insert_Some [[<- E]|[_ H2]]%lookup_insert_Some; try done.
  - apply lookup_singleton_Some in H2 as [<- H2]. discriminate H2.
  - subst v. apply lookup_singleton_Some in H1 as [<- H1]. discriminate H1.
  - apply lookup_singleton_Some in H1 as [<- _]. by apply lookup_singleton_Some in H2 as [<- _].
Qed.

(** The nodes that a list with the task's label returns. *)
Definition demo_nodes (w : gmap string (gomap string)) : list Node :=
  map (fun x => node_with x.1 x.2) (filter (fun x => default EmptyString (mp x.2 !! NodeLabelKey) = "task"%string) (map_to_list w)).

Lemma demo_nodes_labelled w x : x ∈ names (demo_nodes w) <-> labelled w x.
Proof.
  unfold names, demo_nodes, labelled. rewrite map_map. split.
  - intros ([y l] & -> & H)%list_elem_of_fmap. apply list_elem_of_filter in H as [Ht H]. exists l. by apply elem_of_map_to_list in H.
  - intros (l & H & Ht). apply list_elem_of_fmap. exists (x, l). split; [done|]. apply list_elem_of_filter. by rewrite elem_of_map_to_list.
Qed.

Definition demo_worlds (n : nat) : gmap string (gomap string) := match n with O => ∅ | S _ => j_world demo_end end.

Lemma demo_round : job_round (R := range_in_key_order) (fun _ => inl tt) demo_serve 1 "v1" demo_conf 5 ∅ (j_world demo_end).
Proof.
  exists demo_end. split_and!; [exact demo_reachable| | |done].
  - exists 1, (Some ["1"; EmptyString]%string). vm_compute. reflexivity.
  - intros [|[|i]] name ip log p H; vm_compute in H; [by injection H as <- <- <- <-|by injection H as <- <- <- <-|discriminate H].
Qed.

Lemma task_settles_witness : exists n, (n <= 2)%nat
  /\ TaskStatus (nt_Status (filtered (R := range_in_key_order) (demo_task two_machines) (demo_nodes (demo_worlds n)))) = NodeTaskStatusReady.
Proof.
  apply (task_settles (R := range_in_key_order) (fun _ => inl tt) demo_serve 1 "v1" labelled demo_nodes demo_nodes_labelled
    (demo_task two_machines) demo_worlds).
  - exact two_machines_distinct.
  - intros conf Hc. by apply demo_server.
  - intros [|n] H; [|exfalso; revert H; vm_compute; discriminate].
    exists demo_conf, 5. split_and!; [vm_compute; reflexivity|reflexivity|exact demo_round].
Defined.

(** *** An address with two names *)

(** The order in which a map is visited is the runtime's choice. *)
Program Definition range_backwards : GoRange := {| go_range := fun K V _ _ m => rev (map_to_list m) |}.
Next Obligation. intros. symmetry. apply Permutation_rev. Qed.

Definition one_machine : gmap string string := {[ "a" := "1"; "b" := "1" ]}.

(** Which of the two names is installed changes from one synchronisation to the
    next, and so does whether the task is ready. *)
Lemma names_change :
  map_to_list (mp (NodeStatus (nt_Status (filtered (R := range_in_key_order) (demo_task one_machine) [])))) = [("b", "1")]%string
  /\ TaskStatus (nt_Status (filtered (R := range_in_key_order) (demo_task one_machine) [node_with "b" None])) = NodeTaskStatusReady
  /\ TaskStatus (nt_Status (filtered (R := range_backwards) (demo_task one_machine) [node_with "b" None])) = NodeTaskStatusCreating
  /\ map_to_list (mp (NodeStatus (nt_Status (filtered (R := range_backwards) (demo_task one_machine) [node_with "b" None])))) = [("a", "1")]%string.
Proof. vm_compute. split_and!; reflexivity. Qed.

(** The script joins the address of the cluster with its port, which the
    address has already. *)
Lemma port_twice : Port "10.0.0.1:6443" = "6443"%string
  /\ CompleteTemplate "join {{.AdvertiseAddress}}:{{.BindPort}}"
       (script_options (mkJobConfig None 22 "task" "t" "10.0.0.1:6443" (Port "10.0.0.1:6443") "h" no_secret) "a" "v1" "10.0.0.1:6443" "amd64")
     = inl "join 10.0.0.1:6443:6443"%string.
Proof. vm_compute. split; reflexivity. Qed.

End TaskDemo.
