(* ===== verification/PenetratorWebhook.v ===== *)
(** * Admission of tasks (pkg/penetrator/operator/admission)

    The webhook refuses a task that it cannot carry out, and any change of a
    task; to a new task it adds the names of the nodes to be installed, the
    names of its job and configuration, and the label of its nodes.  [Handle]
    is the handler, a program that asks the API server and draws random
    strings.  The theorem says which tasks are let in and what the names added
    to them are. *)

From Stdlib Require Import ZArith Lia Ascii String.
From stdpp Require Import base strings gmap numbers sorting list.
From S2P Require Import Prelude.
From S2P Require Import GoStd.
From S2P Require Import K8s.
From S2P Require Import Requests.
From S2P Require Import WorkQueue.
From S2P Require Import KubeClient.
From S2P Require Import PenetratorJob.
From S2P Require Import PenetratorTask.

Local Open Scope Z_scope.
Local Open Scope go_scope.

Module Webhook.
Import Install Task.

(** ** Data *)

Record AdmissionRequest : Type := mkAdmissionRequest {
  req_UID : string;
  req_Operation : string;
  req_Object : string
}.

(** The values of the webhook's patches are maps. *)
Record Patch : Type := mkPatch { p_Op : string; p_Path : string; p_Value : gmap string string }.

Record AdmissionResponse : Type := mkAdmissionResponse {
  resp_Allowed : bool;
  resp_UID : string;
  resp_Message : option string;
  resp_Patch : option (list Patch)
}.

Definition denied (uid message : string) : AdmissionResponse := mkAdmissionResponse false uid (Some message) None.
Definition admitted (uid : string) : AdmissionResponse := mkAdmissionResponse true uid None None.

(** Reading the body and the clock-seeded random strings are requests, too. *)
Inductive hook_request : Type :=
| ReadBody
| RandString (n : nat)
| GetLoginSecret (namespace name : string)
| ListTasks
| GetNodeTask (name : string)
| ListAllNodes.

Definition hook_answer (q : hook_request) : Type :=
  match q with
  | ReadBody | RandString _ => string
  | GetLoginSecret _ _ => gmap string string
  | ListTasks => list NodeTask
  | GetNodeTask _ => NodeTask
  | ListAllNodes => list Node
  end.

Notation hook A := (act hook_answer api_error A).

Definition read_body : hook string := call ReadBody.
Definition get_secret (namespace name : string) : hook (gmap string string) := call (GetLoginSecret namespace name).
Definition list_tasks : hook (list NodeTask) := call ListTasks.
Definition get_task (name : string) : hook NodeTask := call (GetNodeTask name).
Definition list_all_nodes : hook (list Node) := call ListAllNodes.

(** A random string does not fail. *)
Definition randString (n : nat) : prog hook_answer string :=
  Ask (RandString n) (fun r => Done (match r with inl s => s | inr _ => EmptyString end)).

Section Webhook.
Context `{R : GoRange}.
Context (DecodeReview : string -> option AdmissionRequest + string) (DecodeTask : string -> NodeTask + string).
Context (error_text : api_error -> string) (fld_Key : string -> string).

(** ** Checks (validate) *)

Definition bad_ip (ip : string) : bool := match ParseIP ip with None => true | Some _ => false end.

Definition target_errors (nt : NodeTask) : list string :=
  let override := size (mp (NodeNamesOverride (nt_Spec nt))) in
  let machines := length (sl (TargetMachines (nt_Spec nt))) in
  (if Nat.eqb override 0 && Nat.eqb machines 0
   then [fld_Key "spec.ips" +:+ " or " +:+ fld_Key "spec.nameIps" +:+ " must be specified"] else [])
  ++ (if negb (Nat.eqb override 0) && negb (Nat.eqb machines 0)
      then ["only one of " +:+ fld_Key "spec.ips" +:+ " and " +:+ fld_Key "spec.nameIps" +:+ " can be selected"] else [])
  ++ (if existsb bad_ip (sl (TargetMachines (nt_Spec nt)))
      then ["The ip format of the " +:+ fld_Key "spec.Ips" +:+ " array is err "] else [])
  ++ (if existsb bad_ip (go_range (mp (NodeNamesOverride (nt_Spec nt)))).*2
      then ["The ip format of the " +:+ fld_Key "spec.nameIps" +:+ " array is err"] else []).

Definition secret_errors (r : gmap string string + api_error) : list string :=
  match r with
  | inr err => ["Failed to get secret, error: " +:+ error_text err]
  | inl data =>
      if bool_decide (is_Some (data !! "passwd"%string) \/ is_Some (data !! "sshkey"%string)) then []
      else ["Failed to obtain login password (passwd) or private key (sshkey) from secret"%string]
  end.

Definition task_errors (r : list NodeTask + api_error) : list string :=
  match r with
  | inr err => ["Failed to list nodestask, error: " +:+ error_text err]
  | inl [] => []
  | inl (nt :: _) =>
      let name := Name (nt_meta nt) in
      let delete := ", please delete the task 'kubectl -n " +:+ Namespace (nt_meta nt) +:+ " delete task " +:+ name
        +:+ "' that is currently running, and then create it " in
      if String.eqb (TaskStatus (nt_Status nt)) NodeTaskStatusCreating then ["The task '" +:+ name +:+ "' is executing" +:+ delete]
      else ["The task '" +:+ name +:+ "' has been completed" +:+ delete]
  end.

Definition validate (nt : NodeTask) : prog hook_answer (list string) :=
  reply! secret := get_secret NameSpaceEdge (SSHCredential (nt_Spec nt)) in
  reply! tasks := list_tasks in
  Done (target_errors nt ++ secret_errors secret ++ task_errors tasks).

(** ** Patches (getCreatePatch) *)

(** [ipsMap], and the machines without repetitions if there were any. *)
Definition last_index (machines : list string) : gmap string nat :=
  fst (fold_left (fun '(m, k) v => (<[v := k]> m, S k)) machines (∅, 0%nat)).

Definition unique_machines (machines : list string) : list string :=
  let ipsMap := last_index machines in
  if Nat.eqb (size ipsMap) (length machines) then machines else (go_range ipsMap).*1.

(** The [for true] loop, with the number of strings it may draw. *)
Fixpoint fresh_name (fuel : nat) (prefix : string) (taken : list string) : prog hook_answer (option string) :=
  match fuel with
  | O => Done None
  | S fuel =>
      reply! s := randString 6 in
      let nodeName := prefix +:+ "-" +:+ s in
      if bool_decide (nodeName ∈ taken) then fresh_name fuel prefix taken else Done (Some nodeName)
  end.

(** A name drawn twice takes the place of the first. *)
Fixpoint name_machines (fuel : nat) (prefix : string) (taken machines : list string) (nameIps : gmap string string) :
    prog hook_answer (option (gmap string string)) :=
  match machines with
  | [] => Done (Some nameIps)
  | v :: machines =>
      reply! nodeName := fresh_name fuel prefix taken in
      match nodeName with
      | None => Done None
      | Some nodeName => name_machines fuel prefix taken machines (<[nodeName := v]> nameIps)
      end
  end.

Definition node_names (nodes : list Node) : list string := map (fun n => Name (node_meta n)) nodes.

Inductive patch_error : Type := EmptyTargets | NodesError (e : api_error) | Spinning.

Definition name_patch (nameIps : gmap string string) : Patch := mkPatch "add" "/spec/nodeNamesOverride" nameIps.

Definition meta_patches (randomToken : string) : list Patch :=
  [mkPatch "add" "/metadata/annotations" {[ AnnotationAddNodeJobName := randomToken; AnnotationAddNodeConfigmapName := randomToken ]};
   mkPatch "add" "/metadata/labels" {[ NodeLabelKey := randomToken ]}].

(** Without names of its own: a name for every machine. *)
Definition name_all (fuel : nat) (nt : NodeTask) (machines : list string) (randomToken : string) (nodes : list Node) :
    prog hook_answer (list Patch + patch_error) :=
  reply! m := name_machines fuel (NodeNamePrefix (nt_Spec nt)) (node_names nodes) (unique_machines machines) ∅ in
  Done (match m with
        | Some nameIps => inl (name_patch nameIps :: meta_patches randomToken)
        | None => inr Spinning
        end).

(** [Spinning] is the loop that has drawn as often as the fuel says. *)
Definition getCreatePatch (fuel : nat) (nt : NodeTask) : prog hook_answer (list Patch + patch_error) :=
  reply! token := randString 6 in
  let randomToken := Name (nt_meta nt) +:+ "-" +:+ token in
  match NodeNamesOverride (nt_Spec nt) with
  | Some _ => Done (inl (meta_patches randomToken))
  | None =>
      match TargetMachines (nt_Spec nt) with
      | None => Done (inr EmptyTargets)
      | Some machines =>
          if String.eqb (NodeNamePrefix (nt_Spec nt)) EmptyString then Done (inr EmptyTargets)
          else
            reply! r := list_all_nodes in
            match r with
            | inl nodes => name_all fuel nt machines randomToken nodes
            | inr NotFound => name_all fuel nt machines randomToken []
            | inr err => Done (inr (NodesError err))
            end
      end
  end.

(** ** The handler (Handle) *)

(** [None] is a handler that returns without writing a response; the library
    recovers from a panic. *)
Definition created (fuel : nat) (uid : string) (nt : NodeTask) : prog hook_answer (outcome (option AdmissionResponse)) :=
  reply! errs := validate nt in
  match errs with
  | _ :: _ => Done (Ret (Some (denied uid (join_with "," errs))))
  | [] =>
      reply! r := getCreatePatch fuel nt in
      Done (match r with
            | inl patches => Ret (Some (mkAdmissionResponse true uid None (Some patches)))
            | inr EmptyTargets => Ret (Some (denied uid "targetMachines or NodeNamePrefix are empty"))
            | inr (NodesError err) => Ret (Some (denied uid (error_text err)))
            | inr Spinning => Ret None
            end)
  end.

Definition spec_equal (a b : NodeTaskSpec) : bool :=
  String.eqb (NodeNamePrefix a) (NodeNamePrefix b) && bool_decide (TargetMachines a = TargetMachines b)
  && bool_decide (NodeNamesOverride a = NodeNamesOverride b) && String.eqb (ProxyNode a) (ProxyNode b)
  && String.eqb (SSHCredential a) (SSHCredential b) && (TaskSSHPort a =? TaskSSHPort b).

Definition updated (uid : string) (nt : NodeTask) : prog hook_answer (outcome (option AdmissionResponse)) :=
  reply! r := get_task (Name (nt_meta nt)) in
  Done (Ret (Some (match r with
                   | inr err => denied uid ("webhook failed to get nodetask, error: " +:+ error_text err)
                   | inl old => if spec_equal (nt_Spec old) (nt_Spec nt) then admitted uid
                                else denied uid "nodetask does not support update"
                   end))).

(** An undecodable review is answered without its UID. *)
Definition Handle (fuel : nat) (contentType : string) (hasBody : bool) : prog hook_answer (outcome (option AdmissionResponse)) :=
  if negb (String.eqb contentType "application/json") || negb hasBody then Done (Ret None)
  else
    reply! data := read_body in
    match data with
    | inr err => Done (Ret (Some (denied EmptyString (error_text err))))
    | inl data =>
        match DecodeReview data with
        | inr err => Done (Ret (Some (denied EmptyString err)))
        | inl None => Done (Panic "invalid memory address or nil pointer dereference")
        | inl (Some req) =>
            match DecodeTask (req_Object req) with
            | inr err => Done (Ret (Some (denied (req_UID req) err)))
            | inl nt =>
                if String.eqb (req_Operation req) "CREATE" then created fuel (req_UID req) nt
                else if String.eqb (req_Operation req) "UPDATE" then updated (req_UID req) nt
                else Done (Ret (Some (admitted (req_UID req))))
            end
        end
    end.

End Webhook.
End Webhook.

(** ** Names and addresses *)

Module WebhookNames.
Import Install Task Webhook.

Section Names.
Context `{R : GoRange}.

(** The names in the order they were drawn, given to the machines. *)
Definition assign (drawn machines : list string) (m : gmap string string) : gmap string string :=
  fold_left (fun m nv => <[fst nv := snd nv]> m) (zip drawn machines) m.

Lemma last_index_list (l : list string) (m : gmap string nat) k v :
  is_Some (fst (fold_left (fun '(m, k) v => (<[v := k]> m, S k)) l (m, k)) !! v) <-> is_Some (m !! v) \/ v ∈ l.
Proof.
  revert m k. induction l as [|x l IH]; intros m k; simpl; [rewrite elem_of_nil; tauto|]. rewrite IH, elem_of_cons, lookup_insert_is_Some.
  destruct (decide (x = v)) as [->|]; naive_solver.
Qed.

Lemma last_index_in machines v : is_Some (last_index machines !! v) <-> v ∈ machines.
Proof. unfold last_index. rewrite last_index_list, lookup_empty. split; [by intros [[]|]|auto]. Qed.

Lemma size_set_le (l : list string) : (size (list_to_set l : gset string) <= length l)%nat
  /\ (size (list_to_set l : gset string) = length l -> NoDup l).
Proof.
  induction l as [|x l [IH1 IH2]]; [split; [vm_compute; lia|constructor]|]. simpl.
  destruct (decide (x ∈ (list_to_set l : gset string))) as [Hx|Hx].
  - rewrite (subseteq_union_1_L {[x]}) by set_solver. split; lia.
  - rewrite size_union, size_singleton by set_solver. split; [lia|]. intros E. constructor; [set_solver|apply IH2; lia].
Qed.

Lemma size_last_index machines : size (last_index machines) = size (list_to_set machines : gset string).
Proof.
  rewrite <- size_dom. f_equal. apply set_eq. intros v. rewrite elem_of_dom, last_index_in. by rewrite elem_of_list_to_set.
Qed.

(** The machines that are named: each address once. *)
Lemma unique_machines_ok machines : NoDup (unique_machines machines) /\ forall v, v ∈ unique_machines machines <-> v ∈ machines.
Proof.
  unfold unique_machines. destruct (Nat.eqb _ _) eqn:E.
  - apply Nat.eqb_eq in E. rewrite size_last_index in E. by apply size_set_le in E.
  - split; [apply NoDup_go_range_fst|]. intros v. rewrite <- (last_index_in machines), list_elem_of_fmap. split.
    + intros ([v' k] & -> & H). exists k. by apply elem_of_go_range.
    + intros [k H]. exists (v, k). split; [done|]. by apply elem_of_go_range.
Qed.

Lemma assign_lookup drawn machines m n v : NoDup drawn -> length drawn = length machines -> (forall n, n ∈ drawn -> m !! n = None) ->
  assign drawn machines m !! n = Some v <-> (n, v) ∈ zip drawn machines \/ m !! n = Some v.
Proof.
  unfold assign. revert machines m. induction drawn as [|d drawn IH]; intros [|x machines] m Hnd Hl Hm; simpl in *; try done.
  - rewrite elem_of_nil. tauto.
  - apply NoDup_cons in Hnd as [Hd Hnd]. rewrite IH; [|done|lia|].
    + rewrite elem_of_cons, lookup_insert_Some. pose proof (Hm d ltac:(by left)) as H0. split.
      * intros [H|[[-> ->]|[Hne H]]]; [auto|left; by left|auto].
      * intros [[[= -> ->]|H]|H]; [by right; left|by left|]. right. right. split; [|done]. intros ->. congruence.
    + intros n' Hn'. rewrite lookup_insert_ne by (intros ->; done). apply Hm. by right.
Qed.

(** Names that are all different reach every machine, each once. *)
Lemma assign_covers drawn machines : NoDup drawn -> NoDup machines -> length drawn = length machines ->
  TaskNodes.distinct (assign drawn machines ∅) /\ forall v, (exists n, assign drawn machines ∅ !! n = Some v) <-> v ∈ machines.
Proof.
  intros Hd Hm Hl.
  assert (forall n v, assign drawn machines ∅ !! n = Some v <-> exists i, drawn !! i = Some n /\ machines !! i = Some v) as Hlook.
  { intros n v. rewrite assign_lookup; [|done|done|by intros; apply lookup_empty]. rewrite lookup_empty. split.
    - intros [H|H]; [|done]. apply list_elem_of_lookup in H as [i H]. exists i. by apply lookup_zip_Some in H.
    - intros (i & H1 & H2). left. apply list_elem_of_lookup. exists i. by apply lookup_zip_Some. }
  split.
  - intros k1 k2 v (i & H1 & H2)%Hlook (j & H3 & H4)%Hlook. rewrite (NoDup_lookup _ _ _ _ Hm H2 H4) in H1. congruence.
  - intros v. split.
    + intros (n & (i & _ & H)%Hlook). apply list_elem_of_lookup. eauto.
    + intros [i H]%list_elem_of_lookup. destruct (lookup_lt_is_Some_2 drawn i) as [n Hn].
      { rewrite Hl. by eapply lookup_lt_Some. }
      exists n. apply Hlook. eauto.
Qed.

End Names.
End WebhookNames.

(** ** Which tasks are let in *)

Module WebhookChecks.
Import Install Task Webhook WebhookNames.

Section Checks.
Context `{R : GoRange}.
Context (DecodeReview : string -> option AdmissionRequest + string) (DecodeTask : string -> NodeTask + string).
Context (error_text : api_error -> string) (fld_Key : string -> string).

Notation created := (created error_text fld_Key).
Notation machines_of nt := (sl (TargetMachines (nt_Spec nt))).
Notation override_of nt := (mp (NodeNamesOverride (nt_Spec nt))).

(** Machines or names, not both; addresses that parse; a secret with a
    password or a key; and no other task. *)
Record acceptable (nt : NodeTask) (secret : gmap string string + api_error) (tasks : list NodeTask + api_error) : Prop := {
  one_target : override_of nt = ∅ <-> machines_of nt <> [];
  machines_parse : forall ip, ip ∈ machines_of nt -> exists addr, ParseIP ip = Some addr;
  override_parses : forall name ip, override_of nt !! name = Some ip -> exists addr, ParseIP ip = Some addr;
  has_credential : exists data, secret = inl data /\ (is_Some (data !! "passwd"%string) \/ is_Some (data !! "sshkey"%string));
  no_task : tasks = inl []
}.

Lemma existsb_bad l : existsb bad_ip l = false <-> forall ip, ip ∈ l -> exists addr, ParseIP ip = Some addr.
Proof.
  rewrite <- not_true_iff_false, existsb_exists. split.
  - intros H ip Hip. destruct (ParseIP ip) as [addr|] eqn:E; [by exists addr|]. destruct H. exists ip. unfold bad_ip. rewrite E.
    split; [by apply list_elem_of_In|done].
  - intros H (ip & Hip & Hb). apply list_elem_of_In, H in Hip as [addr E]. unfold bad_ip in Hb. by rewrite E in Hb.
Qed.

Lemma if_nil (b : bool) (s : string) : (if b then [s] else []) = [] <-> b = false.
Proof. by destruct b. Qed.

Lemma target_errors_nil nt : target_errors fld_Key nt = [] <->
  (override_of nt = ∅ <-> machines_of nt <> [])
  /\ (forall ip, ip ∈ machines_of nt -> exists addr, ParseIP ip = Some addr)
  /\ (forall name ip, override_of nt !! name = Some ip -> exists addr, ParseIP ip = Some addr).
Proof.
  unfold target_errors. rewrite !app_nil, !if_nil, !existsb_bad.
  assert ((forall ip, ip ∈ (go_range (override_of nt)).*2 -> exists addr, ParseIP ip = Some addr)
          <-> forall name ip, override_of nt !! name = Some ip -> exists addr, ParseIP ip = Some addr) as ->.
  { split.
    - intros H name ip E. apply H, list_elem_of_fmap. exists (name, ip). split; [done|]. by apply elem_of_go_range.
    - intros H ip ([name ip'] & -> & E)%list_elem_of_fmap. apply elem_of_go_range in E. by eapply H. }
  assert (size (override_of nt) = 0%nat <-> override_of nt = ∅) as Hs by apply map_size_empty_iff.
  assert (length (machines_of nt) = 0%nat <-> machines_of nt = []) as Hl by apply length_zero_iff_nil.
  set (P := forall ip, _) in *. set (Q := forall name ip, _) in *. clearbody P Q.
  destruct (Nat.eqb_spec (size (override_of nt)) 0) as [E1|E1], (Nat.eqb_spec (length (machines_of nt)) 0) as [E2|E2];
    simpl; intuition congruence.
Qed.

Lemma secret_errors_nil r : secret_errors error_text r = []
  <-> exists data, r = inl data /\ (is_Some (data !! "passwd"%string) \/ is_Some (data !! "sshkey"%string)).
Proof.
  destruct r as [data|e]; simpl; [|naive_solver]. case_bool_decide; naive_solver.
Qed.

Lemma task_errors_nil r : task_errors error_text r = [] <-> r = inl [].
Proof. destruct r as [[|nt l]|e]; simpl; try done. by destruct (String.eqb _ _). Qed.

Lemma validate_nil nt secret tasks :
  target_errors fld_Key nt ++ secret_errors error_text secret ++ task_errors error_text tasks = [] <-> acceptable nt secret tasks.
Proof.
  rewrite !app_nil, target_errors_nil, secret_errors_nil, task_errors_nil. split.
  - intros ((H1 & H2 & H3) & H4 & H5). by constructor.
  - intros []. done.
Qed.

(** *** The names *)

Definition taken (nodes : list Node + api_error) : list string := match nodes with inl l => node_names l | inr _ => [] end.

(** One name per machine, with the prefix, and of no node of the cluster. *)
Definition names_for (prefix : string) (used drawn machines : list string) : Prop :=
  length drawn = length machines /\ Forall (fun n => (exists s, n = prefix +:+ "-" +:+ s) /\ n ∉ used) drawn.

Lemma fresh_name_under Ok fuel prefix used :
  under Ok (fun _ => True) (fun r => forall n, r = Some n -> (exists s, n = prefix +:+ "-" +:+ s) /\ n ∉ used) (fresh_name fuel prefix used).
Proof.
  induction fuel as [|fuel IH]; [done|]. split; [done|]. intros r _. cbn [bind]. set (s := match r with inl s => s | inr _ => EmptyString end).
  case_bool_decide as Hd; [apply IH|]. intros n [= <-]. split; [by exists s|done].
Qed.

Lemma name_machines_under Ok fuel prefix used machines m :
  under Ok (fun _ => True) (fun r => forall m', r = Some m' -> exists drawn, names_for prefix used drawn machines /\ m' = assign drawn machines m)
    (name_machines fuel prefix used machines m).
Proof.
  revert m. induction machines as [|v machines IH]; intros m.
  - intros m' [= <-]. exists []. by split; [split|].
  - eapply under_bind; [apply fresh_name_under|]. intros [n|] Hn; [|done]. specialize (Hn n eq_refl).
    eapply under_mono; [apply IH|]. intros r H m' Hr. destruct (H m' Hr) as (drawn & [Hl Hf] & ->).
    exists (n :: drawn). split; [|done]. split; [simpl; lia|by constructor].
Qed.

(** The first string is fresh if there are no nodes. *)
Lemma fresh_name_found Ok fuel prefix : (0 < fuel)%nat -> under Ok (fun _ => True) (fun r => r <> None) (fresh_name fuel prefix []).
Proof. destruct fuel as [|fuel]; [lia|]. intros _. split; [done|]. intros r _. done. Qed.

Lemma name_machines_found Ok fuel prefix machines m : (0 < fuel)%nat ->
  under Ok (fun _ => True) (fun r => r <> None) (name_machines fuel prefix [] machines m).
Proof.
  intros Hf. revert m. induction machines as [|v machines IH]; intros m; [done|].
  eapply under_bind; [by apply fresh_name_found|]. intros [n|] Hn; [apply IH|done].
Qed.

(** *** The replies of the API server *)

Definition answers (secret : gmap string string + api_error) (tasks : list NodeTask + api_error) (nodes : list Node + api_error)
    (q : hook_request) : hook_answer q + api_error -> Prop :=
  match q return hook_answer q + api_error -> Prop with
  | GetLoginSecret _ _ => fun r => r = secret
  | ListTasks => fun r => r = tasks
  | ListAllNodes => fun r => r = nodes
  | _ => fun _ => True
  end.

(** What a patch adds to an accepted task. *)
Definition patched (nt : NodeTask) (nodes : list Node + api_error) (patches : list Patch) : Prop :=
  exists token,
    match NodeNamesOverride (nt_Spec nt) with
    | Some _ => patches = meta_patches token
    | None => exists drawn, names_for (NodeNamePrefix (nt_Spec nt)) (taken nodes) drawn (unique_machines (machines_of nt))
        /\ patches = name_patch (assign drawn (unique_machines (machines_of nt)) ∅) :: meta_patches token
    end.

Definition can_name (nt : NodeTask) (nodes : list Node + api_error) : Prop :=
  NodeNamesOverride (nt_Spec nt) = None ->
  is_Some (TargetMachines (nt_Spec nt)) /\ NodeNamePrefix (nt_Spec nt) <> EmptyString /\ (nodes = inr NotFound \/ exists l, nodes = inl l).

Definition patch_result (fuel : nat) (nt : NodeTask) (nodes : list Node + api_error) (r : list Patch + patch_error) : Prop :=
  match r with
  | inl patches => patched nt nodes patches
  | inr Spinning => NodeNamesOverride (nt_Spec nt) = None /\ (fuel = 0%nat \/ taken nodes <> [])
  | inr _ => ~ can_name nt nodes
  end.

Lemma name_all_under secret tasks nodes fuel nt machines token l :
  NodeNamesOverride (nt_Spec nt) = None -> TargetMachines (nt_Spec nt) = Some machines -> taken nodes = node_names l ->
  under (answers secret tasks nodes) (fun _ => True) (patch_result fuel nt nodes) (name_all fuel nt machines token l).
Proof.
  intros Ho Em El. unfold name_all. rewrite <- El. eapply under_bind.
  - eapply (under_conj _ _ _ (fun r => (0 < fuel)%nat /\ taken nodes = [] -> r <> None)); [apply name_machines_under|].
    destruct (decide ((0 < fuel)%nat /\ taken nodes = [])) as [[Hf Ht]|Hn].
    + eapply under_mono; [rewrite Ht; by apply name_machines_found|]. auto.
    + eapply under_mono; [apply name_machines_under|]. by intros a _ ?.
  - intros [m|] [Hm Hf]; simpl; unfold patched.
    + destruct (Hm m eq_refl) as (drawn & Hd & ->). exists token. rewrite Ho, Em. by exists drawn.
    + split; [done|]. destruct fuel as [|fuel]; [by left|]. right. intros Ht. by destruct Hf; [split; [lia|]|].
Qed.

Lemma create_patch_under secret tasks nodes fuel nt :
  under (answers secret tasks nodes) (fun _ => True) (patch_result fuel nt nodes) (getCreatePatch fuel nt).
Proof.
  split; [done|]. intros r _. cbn [bind]. set (token := Name (nt_meta nt) +:+ "-" +:+ match r with inl s => s | inr _ => EmptyString end).
  destruct (NodeNamesOverride (nt_Spec nt)) as [o|] eqn:Ho; [unfold patch_result, under, patched; rewrite Ho; by exists token|].
  destruct (TargetMachines (nt_Spec nt)) as [machines|] eqn:Em; [|simpl; intros H; destruct (H Ho) as [[x Hx] _]; congruence].
  destruct (String.eqb _ _) eqn:Ep.
  { apply String.eqb_eq in Ep. simpl. intros H. by destruct (H Ho) as (_ & ? & _). }
  split; [done|]. intros r' Hr'. simpl in Hr'. subst r'. cbn [bind].
  destruct nodes as [l|e]; [by apply (name_all_under _ _ (inl l))|].
  destruct e; try (simpl; intros H; destruct (H Ho) as (_ & _ & [?|[? ?]]); discriminate).
  by apply (name_all_under _ _ (inr NotFound)).
Qed.

(** A new task is let in only if it has either machines or names, all their
    addresses parse, its secret holds a password or a key, and there is no
    other task; and such a task is let in, unless names cannot be made up for
    it.  A task that came without names gets one name for each machine, with
    its prefix and of no node there is; if the strings that were drawn are all
    different, every machine has exactly one of the names. *)
Theorem task_admission {S : Type} (serve : forall q : hook_request, S -> S * (hook_answer q + api_error))
  (secret : gmap string string + api_error) (tasks : list NodeTask + api_error) (nodes : list Node + api_error)
  (fuel : nat) (uid : string) (nt : NodeTask) (s : S)
  (Hserve : forall q s, answers secret tasks nodes q (snd (serve q s))) :
  wp serve (created fuel uid nt) (fun _ _ res =>
    (forall resp, res = Ret (Some resp) ->
       (resp_Allowed resp = true -> acceptable nt secret tasks
          /\ exists patches, resp_Patch resp = Some patches /\ patched nt nodes patches)
       /\ (acceptable nt secret tasks -> can_name nt nodes -> resp_Allowed resp = true))
    /\ ((0 < fuel)%nat -> taken nodes = [] -> exists resp, res = Ret (Some resp))) s
  /\ forall drawn, names_for (NodeNamePrefix (nt_Spec nt)) (taken nodes) drawn (unique_machines (machines_of nt)) -> NoDup drawn ->
       TaskNodes.distinct (assign drawn (unique_machines (machines_of nt)) ∅)
       /\ forall ip, (exists name, assign drawn (unique_machines (machines_of nt)) ∅ !! name = Some ip) <-> ip ∈ machines_of nt.
Proof.
  destruct (unique_machines_ok (machines_of nt)) as [Hnd Hin]. split.
  - eapply wp_mono; [apply (wp_under serve (answers secret tasks nodes) (fun _ => True) (fun res =>
      (forall resp, res = Ret (Some resp) ->
       (resp_Allowed resp = true -> acceptable nt secret tasks
          /\ exists patches, resp_Patch resp = Some patches /\ patched nt nodes patches)
       /\ (acceptable nt secret tasks -> can_name nt nodes -> resp_Allowed resp = true))
      /\ ((0 < fuel)%nat -> taken nodes = [] -> exists resp, res = Ret (Some resp)))); [done|]|by intros s' t r [_ H]].
    split; [done|]. intros r1 H1. split; [done|]. intros r2 H2. simpl in H1, H2. subst r1 r2. cbn [bind].
    pose proof (validate_nil nt secret tasks) as Hv. destruct (target_errors fld_Key nt ++ _) as [|err errs] eqn:E.
    + eapply under_bind; [apply create_patch_under|]. intros [patches|[|e|]] Hr; simpl in Hr |- *; (split; [|eauto]).
      * intros resp [= <-]. split; [|done]. intros _. split; [by apply Hv|]. by exists patches.
      * intros resp [= <-]. split; [done|]. by intros _ ?.
      * intros resp [= <-]. split; [done|]. by intros _ ?.
      * done.
      * intros Hf Ht. destruct Hr as (_ & [->|?]); [lia|done].
    + split; [|eauto]. intros resp [= <-]. split; [done|]. intros Ha. by apply Hv in Ha.
  - intros drawn [Hl _] Hd. destruct (assign_covers drawn (unique_machines (machines_of nt)) Hd Hnd Hl) as [H1 H2].
    split; [done|]. intros ip. by rewrite H2, Hin.
Qed.

End Checks.
End WebhookChecks.

(** ** Admission of a task with two machines *)

Module WebhookDemo.
Import Task Webhook WebhookNames WebhookChecks.

Definition hook_nt (override : gomap string) : NodeTask :=
  mkNodeTask (named EmptyString "nodes")
    (mkNodeTaskSpec "edge" (Some ["10.0.0.1"; "10.0.0.2"]%string) override "proxy" "login" 22) (mkNodeTaskStatus None EmptyString).

(** Random strings are taken from a list. *)
Definition hook_serve (q : hook_request) (s : list string) : list string * (hook_answer q + api_error) :=
  match q return list string * (hook_answer q + api_error) with
  | ReadBody => (s, inl EmptyString)
  | RandString _ => (drop 1 s, match s with x :: _ => inl x | [] => inl EmptyString end)
  | GetLoginSecret _ _ => (s, inl {[ "passwd"%string := "pw"%string ]})
  | ListTasks => (s, inl [])
  | GetNodeTask _ => (s, inr NotFound)
  | ListAllNodes => (s, inl [])
  end.

Notation demo_created override s :=
  (run hook_serve (created (R := range_in_key_order) (fun _ => EmptyString) (fun k => "nodetask[" +:+ k +:+ "]") 3 "uid" (hook_nt override)) s).

Definition names_of (res : outcome (option AdmissionResponse)) : option (bool * list (list (string * string))) :=
  match res with
  | Ret (Some resp) => Some (resp_Allowed resp, map (fun p => map_to_list (p_Value p)) (default [] (resp_Patch resp)))
  | _ => None
  end.

(** A string that is drawn twice loses a machine, and nothing says so. *)
Lemma machine_lost :
  option_map (fun x => (fst x, head (snd x))) (names_of (snd (demo_created None ["t"; "x"; "x"]%string)))
  = Some (true, Some [("edge-x", "10.0.0.2")]%string).
Proof. vm_compute. reflexivity. Qed.

(** An empty map of names, which is not nil, is let in with machines, and
    nothing is named. *)
Lemma empty_names_admitted :
  option_map (fun x => (fst x, length (snd x))) (names_of (snd (demo_created (Some ∅) ["t"]%string))) = Some (true, 2%nat).
Proof. vm_compute. reflexivity. Qed.

Lemma task_admission_witness :
  resp_Allowed (match snd (demo_created None ["t"; "x"; "y"]%string) with Ret (Some r) => r | _ => denied EmptyString EmptyString end) = true
  /\ acceptable (hook_nt None) (inl {[ "passwd"%string := "pw"%string ]}) (inl []).
Proof.
  destruct (task_admission (R := range_in_key_order) (fun _ => EmptyString) (fun k => "nodetask[" +:+ k +:+ "]") hook_serve
    (inl {[ "passwd"%string := "pw"%string ]}) (inl []) (inl []) 3 "uid" (hook_nt None) ["t"; "x"; "y"]%string) as [H _];
    [by intros [] s|].
  assert (names_of (snd (demo_created None ["t"; "x"; "y"]%string)) <> None) as Hn by (vm_compute; discriminate).
  assert (resp_Allowed (match snd (demo_created None ["t"; "x"; "y"]%string) with Ret (Some r) => r | _ => denied EmptyString EmptyString end) = true) as Ha
    by (vm_compute; reflexivity).
  split; [exact Ha|]. unfold wp in H. destruct (demo_created None ["t"; "x"; "y"]%string) as [[s t] [[resp|]|w]]; [|destruct Hn; reflexivity|destruct Hn; reflexivity].
  destruct H as [H _]. exact (proj1 (proj1 (H resp eq_refl) Ha)).
Defined.

End WebhookDemo.
