(* ===== verification/NodeFiles.v ===== *)
(** * Files of a node (pkg/util/file.go)

    The daemons that work on a node read and write its files through a few
    helpers.  A file system is a server of requests, one per call of package
    os; [NodeFiles] says what such a server promises, [ReliableFiles] that it
    never fails.  [WriteWithBufio] opens a file without truncating it and
    writes from its start, so that a shorter content leaves the end of the old
    one: [overwrite]. *)

From Stdlib Require Import ZArith Lia Ascii String.
From stdpp Require Import base strings gmap numbers sorting list.
From S2P Require Import Prelude.
From S2P Require Import GoStrings.
From S2P Require Import Requests.

Local Open Scope go_scope.

(** ** Requests *)

(** The flags of [os.OpenFile], next to [O_RDWR|O_CREATE]. *)
Inductive open_mode : Type := Keep | AppendTo | Truncate.

Inductive file_request : Type :=
| StatFile (path : string)
| OpenFile (path : string) (mode : open_mode)
| WriteData (path : string) (mode : open_mode) (data : string)
| ReadAll (path : string)
| RemovePath (path : string)
| RemoveTree (path : string)
| MakeDirs (path : string)
| RenamePath (oldpath newpath : string).

Definition file_answer (q : file_request) : Type :=
  match q with
  | ReadAll _ => string
  | _ => unit
  end.

Notation files_act A := (act file_answer api_error A).

Definition stat_file (path : string) : files_act unit := call (StatFile path).
Definition remove_path (path : string) : files_act unit := call (RemovePath path).
Definition remove_tree (path : string) : files_act unit := call (RemoveTree path).
Definition make_dirs (path : string) : files_act unit := call (MakeDirs path).
Definition rename_path (oldpath newpath : string) : files_act unit := call (RenamePath oldpath newpath).
Definition open_file (path : string) (mode : open_mode) : files_act unit := call (OpenFile path mode).
Definition write_data (path : string) (mode : open_mode) (data : string) : files_act unit := call (WriteData path mode data).

(** ** The helpers *)

(** [os.IsExist], [os.IsNotExist] *)
Definition IsExist (e : api_error) : bool := bool_decide (e = AlreadyExists).
Definition IsNotExist (e : api_error) : bool := bool_decide (e = NotFound).

Definition IsFileExist (path : string) : prog file_answer bool :=
  reply! r := stat_file path in
  Done (match r with inr err => IsExist err | inl _ => true end).

Definition RemoveFile (filePath : string) : files_act unit :=
  reply! exist := IsFileExist filePath in
  if exist : bool then remove_path filePath else ok tt.

(** [utils.PathExists] of the apps-manager *)
Definition PathExists (path : string) : prog file_answer (bool * option api_error) :=
  reply! r := stat_file path in
  Done (match r with
        | inl _ => (true, None)
        | inr err => if IsNotExist err then (false, None) else (false, Some err)
        end).

(** [ioutil.WriteFile] *)
Definition WriteFile (file ctx : string) : files_act unit :=
  do! open_file file Truncate in
  write_data file Truncate ctx.

Definition ReadFile (path : string) : files_act string := call (ReadAll path).

(** [Write] on a [bufio.Writer] of 4096 bytes and [Flush]: a short content
    waits for [Flush], a longer one goes straight to the file; an empty one is
    never written. *)
Definition buffered_write (name : string) (mode : open_mode) (content : string) : files_act unit :=
  if String.eqb content EmptyString then ok tt else write_data name mode content.

Definition WriteWithBufio (name content : string) : files_act unit :=
  do! open_file name Keep in
  buffered_write name Keep content.

Definition WriteWithAppend (name content : string) : files_act unit :=
  do! open_file name AppendTo in
  buffered_write name AppendTo content.

Definition CopyFile (sourceFile destinationFile : string) : files_act unit :=
  let! input := ReadFile sourceFile in
  WriteFile destinationFile input.

(** ** What a file system does *)

(** A write at the start of a file that holds [old]. *)
Fixpoint overwrite (old new : string) : string :=
  match new with
  | EmptyString => old
  | String c new => String c (overwrite (match old with EmptyString => EmptyString | String _ old => old end) new)
  end.

Definition written (mode : open_mode) (old new : string) : string :=
  match mode with
  | AppendTo => old +:+ new
  | Keep | Truncate => overwrite old new
  end.

Definition opened (mode : open_mode) (old : option string) : string :=
  match mode with
  | Truncate => EmptyString
  | Keep | AppendTo => default EmptyString old
  end.

Definition content (fs : gmap string string) (path : string) : string := default EmptyString (fs !! path).

(** The files outside a tree of directories. *)
Definition outside (path : string) (fs : gmap string string) : gmap string string :=
  filter (fun kv => String.prefix path (fst kv) = false) fs.

(** The files after a request that succeeded with an answer. *)
Definition effect (q : file_request) (fs : gmap string string) : gmap string string :=
  match q with
  | OpenFile p m => <[p := opened m (fs !! p)]> fs
  | WriteData p m d => <[p := written m (content fs p) d]> fs
  | RemovePath p => delete p fs
  | RemoveTree p => outside p fs
  | RenamePath a b => <[b := content fs a]> (delete a fs)
  | StatFile _ | ReadAll _ | MakeDirs _ => fs
  end.

(** The paths a request is about. *)
Definition about (q : file_request) (path : string) : Prop :=
  match q with
  | OpenFile p _ | WriteData p _ _ | RemovePath p => path = p
  | RemoveTree p => String.prefix p path = true
  | RenamePath a b => path = a \/ path = b
  | StatFile _ | ReadAll _ | MakeDirs _ => False
  end.

#[export] Instance about_dec q p : Decision (about q p).
Proof. destruct q; cbn [about]; apply _. Defined.

Definition read_back (q : file_request) (fs : gmap string string) : file_answer q -> Prop :=
  match q with
  | ReadAll p => fun c => fs !! p = Some c
  | _ => fun _ => True
  end.

(** A node's file system: a request that succeeds has its effect, one that
    fails changes at most the files it is about, and a file that is not found
    is not there. *)
Class NodeFiles (S : Type) : Type := {
  file_serve : forall q : file_request, S -> S * (file_answer q + api_error);
  files : S -> gmap string string;
  file_effect : forall q s a, snd (file_serve q s) = inl a ->
    files (fst (file_serve q s)) = effect q (files s) /\ read_back q (files s) a;
  file_failed : forall q s e p, snd (file_serve q s) = inr e -> ~ about q p ->
    files (fst (file_serve q s)) !! p = files s !! p;
  not_found : forall p s, snd (file_serve (StatFile p) s) = inr NotFound -> files s !! p = None
}.

(** Requests succeed, but for those about a file that is not there. *)
Definition present (q : file_request) (fs : gmap string string) : Prop :=
  match q with
  | StatFile p | ReadAll p | RemovePath p | RenamePath p _ => is_Some (fs !! p)
  | _ => True
  end.

Class ReliableFiles (S : Type) `{NodeFiles S} : Prop := {
  file_succeeds : forall q s, present q (files s) -> exists a, snd (file_serve q s) = inl a;
  file_missing : forall q s, ~ present q (files s) -> snd (file_serve q s) = inr NotFound /\ files (fst (file_serve q s)) = files s
}.

(** ** The helpers on any file system *)

Lemma overwrite_start old new : exists rest, overwrite old new = new +:+ rest.
Proof.
  revert old. induction new as [|c new IH]; intros old; [by exists old|].
  destruct (IH (match old with EmptyString => EmptyString | String _ o => o end)) as [rest E]. exists rest. simpl. by rewrite E.
Qed.

(** Nothing is left of a content that is not longer. *)
Lemma overwrite_all old new : (String.length old <= String.length new)%nat -> overwrite old new = new.
Proof.
  revert old. induction new as [|c new IH]; intros [|d old] Hle; simpl in *; [done|lia|by rewrite IH by (simpl; lia)|by rewrite IH by lia].
Qed.

Lemma overwrite_empty new : overwrite EmptyString new = new.
Proof. apply overwrite_all. simpl. lia. Qed.

Section Helpers.
Context {St : Type} `{NodeFiles St}.
Implicit Types (s : St).

(** Outside [P] a program changes no file; if it succeeds it has had an
    effect. *)
Definition does {A : Type} (P : string -> Prop) (E : gmap string string -> gmap string string -> A -> Prop)
    (s s' : St) (_ : list file_request) (r : A + api_error) : Prop :=
  (forall p, ~ P p -> files s' !! p = files s !! p) /\ (forall a, r = inl a -> E (files s) (files s') a).

Lemma wp_request q s : wp file_serve (call q) (does (about q) (fun fs fs' a => fs' = effect q fs /\ read_back q fs a) s) s.
Proof.
  apply wp_call. split; [|intros a; apply file_effect].
  intros p Hp. destruct (snd (file_serve q s)) as [a|e] eqn:E; [|by eapply file_failed].
  destruct (file_effect q s a E) as [-> _].
  destruct q; simpl in *; rewrite ?lookup_insert_ne, ?lookup_delete_ne by naive_solver; try done.
  unfold outside. destruct (files s !! p) eqn:Ef; [by apply map_lookup_filter_Some; split; [|apply not_true_is_false]|].
  apply map_lookup_filter_None. by left.
Qed.

Lemma wp_request_kept q s p : files (fst (file_serve q s)) !! p = files s !! p \/ about q p.
Proof.
  destruct (decide (files (fst (file_serve q s)) !! p = files s !! p)) as [E|E]; [by left|]. right. apply dec_stable. intros Hp. destruct E.
  destruct (wp_call file_serve q (does (about q) (fun fs fs' a => fs' = effect q fs /\ read_back q fs a) s) s) as [Hw _].
  by apply Hw; [apply wp_request|].
Qed.

Lemma does_andthen {A B : Type} (P : string -> Prop) (E1 : gmap string string -> gmap string string -> A -> Prop)
    (E : gmap string string -> gmap string string -> B -> Prop) (m : files_act A) (f : A -> files_act B) s :
  wp file_serve m (does P E1 s) s ->
  (forall a s1, E1 (files s) (files s1) a ->
     wp file_serve (f a) (does P (fun _ fs' b => E (files s) fs' b) s1) s1) ->
  wp file_serve (andthen m f) (does P E s) s.
Proof.
  intros Hm Hf. apply wp_andthen. eapply wp_mono; [exact Hm|]. intros s1 t1 [a|e] [Hkept Ha]; [|by split; [|intros ? [=]]].
  eapply wp_mono; [apply Hf; by apply Ha|]. intros s2 t2 r [Hkept2 Hb]. split; [|done].
  intros p Hp. by rewrite Hkept2, Hkept.
Qed.

Lemma wp_buffered_write n m c s :
  wp file_serve (buffered_write n m c)
    (does (fun p => p = n) (fun fs fs' _ => fs' = if String.eqb c EmptyString then fs else <[n := written m (content fs n) c]> fs) s) s.
Proof.
  unfold buffered_write. destruct (String.eqb c EmptyString); [by apply wp_ok; split; [|intros a [= <-]]|].
  eapply wp_mono; [apply (wp_request (WriteData n m c))|]. intros s' t r [Hk He]. split; [done|]. intros a Ha. by destruct (He a Ha).
Qed.

Lemma wp_write_open n m m' c s (w : files_act unit) :
  (forall s, wp file_serve w (does (fun p => p = n) (fun fs fs' _ => fs' = if String.eqb c EmptyString then fs else <[n := written m' (content fs n) c]> fs) s) s) ->
  (forall old, written m' old EmptyString = old) ->
  wp file_serve (do! open_file n m in w)
    (does (fun p => p = n) (fun fs fs' _ => fs' = <[n := written m' (opened m (fs !! n)) c]> fs) s) s.
Proof.
  intros Hw He. eapply does_andthen; [apply (wp_request (OpenFile n m))|]. cbn beta. intros [] s1 [E _]. eapply wp_mono; [apply Hw|].
  intros s2 t2 r [Hk Hf]. split; [done|]. intros a Ha. rewrite (Hf a Ha), E. simpl. unfold content. rewrite lookup_insert_eq. simpl.
  destruct (String.eqb_spec c EmptyString) as [->|_]; [by rewrite He|by rewrite insert_insert_eq].
Qed.

Lemma wp_WriteWithBufio n c s :
  wp file_serve (WriteWithBufio n c) (does (fun p => p = n) (fun fs fs' _ => fs' = <[n := overwrite (content fs n) c]> fs) s) s.
Proof. apply (wp_write_open n Keep Keep c s); [|done]. intros s1. apply wp_buffered_write. Qed.

Lemma wp_WriteWithAppend n c s :
  wp file_serve (WriteWithAppend n c) (does (fun p => p = n) (fun fs fs' _ => fs' = <[n := content fs n +:+ c]> fs) s) s.
Proof. apply (wp_write_open n AppendTo AppendTo c s); [|apply append_nil_r]. intros s1. apply wp_buffered_write. Qed.

Lemma wp_WriteFile n c s :
  wp file_serve (WriteFile n c) (does (fun p => p = n) (fun fs fs' _ => fs' = <[n := c]> fs) s) s.
Proof.
  eapply does_andthen; [apply (wp_request (OpenFile n Truncate))|]. cbn beta. intros [] s1 [E _]. eapply wp_mono; [apply (wp_request (WriteData n Truncate c))|].
  intros s2 t2 r [Hk He]. split; [done|]. intros a Ha. destruct (He a Ha) as [-> _]. rewrite E. simpl.
  unfold content. by rewrite lookup_insert_eq, insert_insert_eq, overwrite_empty.
Qed.

Lemma wp_stat p s : wp file_serve (stat_file p) (fun s' _ r => files s' = files s /\ (r = inr NotFound -> files s !! p = None)) s.
Proof.
  apply (wp_call file_serve (StatFile p)). split; [|apply not_found]. apply map_eq. intros k. destruct (snd (file_serve (StatFile p) s)) as [a|e] eqn:E.
  - destruct (file_effect (StatFile p) s a E) as [Ef _]. rewrite Ef. reflexivity.
  - apply (file_failed (StatFile p) s e k E). by intros [].
Qed.

Lemma wp_PathExists p s :
  wp file_serve (PathExists p) (fun s' _ r => files s' = files s /\ (r = (false, None) -> files s !! p = None)) s.
Proof.
  unfold PathExists. apply wp_bind. eapply wp_mono; [apply wp_stat|]. intros s1 t r [E Hn]. apply wp_done. split; [done|].
  destruct r as [a|e]; [done|]. unfold IsNotExist. case_bool_decide as He; [|done]. intros _. apply Hn. by subst.
Qed.

(** A file that is gone afterwards, if nothing fails. *)
Lemma wp_remove_path p s : wp file_serve (remove_path p) (does (fun k => k = p) (fun fs fs' _ => fs' = delete p fs) s) s.
Proof. eapply wp_mono; [apply (wp_request (RemovePath p))|]. intros s' t r [Hk He]. split; [done|]. intros a Ha. by destruct (He a Ha). Qed.

(** ** On a reliable file system *)

Context `{!ReliableFiles St}.

Lemma ok_request q s : present q (files s) -> wp file_serve (call q) (fun _ _ r => exists a, r = inl a) s.
Proof. intros Hp. by apply wp_call, file_succeeds. Qed.

Lemma ok_andthen {A B : Type} P E (m : files_act A) (f : A -> files_act B) s :
  wp file_serve m (does P E s) s -> wp file_serve m (fun _ _ r => exists a, r = inl a) s ->
  (forall a s1, E (files s) (files s1) a -> wp file_serve (f a) (fun _ _ r => exists b, r = inl b) s1) ->
  wp file_serve (andthen m f) (fun _ _ r => exists b, r = inl b) s.
Proof.
  intros Hm Hok Hf. apply wp_andthen. eapply wp_mono; [exact (wp_conj file_serve _ _ _ _ Hm Hok)|]. intros s1 t1 r [[_ He] [a ->]].
  apply Hf. by apply He.
Qed.

Lemma ok_open_then n m (w : files_act unit) s :
  (forall s, wp file_serve w (fun _ _ r => exists a, r = inl a) s) -> wp file_serve (do! open_file n m in w) (fun _ _ r => exists a, r = inl a) s.
Proof. intros Hw. eapply (ok_andthen _ _ (open_file n m)); [apply (wp_request (OpenFile n m))|by apply (ok_request (OpenFile n m))|]. intros [] s1 _. apply Hw. Qed.

Lemma ok_buffered_write n m c s : wp file_serve (buffered_write n m c) (fun _ _ r => exists a, r = inl a) s.
Proof. unfold buffered_write. destruct (String.eqb c EmptyString); [apply wp_ok; by exists tt|]. by apply (ok_request (WriteData n m c)). Qed.

Lemma ok_WriteWithBufio n c s : wp file_serve (WriteWithBufio n c) (fun _ _ r => exists a, r = inl a) s.
Proof. apply ok_open_then. intros s1. apply ok_buffered_write. Qed.

(** A program that succeeds has its effect. *)
Lemma wp_sure {A : Type} P E (m : files_act A) s :
  wp file_serve m (does P E s) s -> wp file_serve m (fun _ _ r => exists a, r = inl a) s ->
  wp file_serve m (fun s' _ r => exists a, r = inl a /\ E (files s) (files s') a) s.
Proof.
  intros Hm Hok. eapply wp_mono; [exact (wp_conj file_serve _ _ _ _ Hm Hok)|]. intros s' t r [[_ He] [a Ha]]. exists a. split; [done|by apply He].
Qed.

Lemma sure_WriteWithBufio n c s :
  wp file_serve (WriteWithBufio n c) (fun s' _ r => exists a, r = inl a /\ files s' = <[n := overwrite (content (files s) n) c]> (files s)) s.
Proof. apply (wp_sure _ _ _ _ (wp_WriteWithBufio n c s)), ok_WriteWithBufio. Qed.

Lemma sure_WriteWithAppend n c s :
  wp file_serve (WriteWithAppend n c) (fun s' _ r => exists a, r = inl a /\ files s' = <[n := content (files s) n +:+ c]> (files s)) s.
Proof. apply (wp_sure _ _ _ _ (wp_WriteWithAppend n c s)), ok_open_then. intros s1. apply ok_buffered_write. Qed.

Lemma sure_WriteFile n c s : wp file_serve (WriteFile n c) (fun s' _ r => exists a, r = inl a /\ files s' = <[n := c]> (files s)) s.
Proof. apply (wp_sure _ _ _ _ (wp_WriteFile n c s)), ok_open_then. intros s1. by apply (ok_request (WriteData n Truncate c)). Qed.

Lemma sure_request q s : present q (files s) ->
  wp file_serve (call q) (fun s' _ r => exists a, r = inl a /\ files s' = effect q (files s) /\ read_back q (files s) a) s.
Proof. intros Hp. by apply (wp_sure _ _ _ _ (wp_request q s)), ok_request. Qed.

(** A file system that does not fail says whether a file is there. *)
Lemma ok_PathExists p s :
  wp file_serve (PathExists p) (fun s' _ r => files s' = files s /\ r = (bool_decide (is_Some (files s !! p)), None)) s.
Proof.
  unfold PathExists. apply wp_bind, (wp_call file_serve (StatFile p)). case_bool_decide as Hp.
  - destruct (file_succeeds (StatFile p) s Hp) as [a Ha]. rewrite Ha. apply wp_done. by destruct (file_effect (StatFile p) s a Ha).
  - destruct (file_missing (StatFile p) s Hp) as [Ha Hf]. apply wp_done. by rewrite Ha, Hf.
Qed.

Lemma ok_remove_path p s : is_Some (files s !! p) -> wp file_serve (remove_path p) (fun s' _ r => r = inl tt /\ files s' = delete p (files s)) s.
Proof.
  intros Hp. eapply wp_mono; [exact (wp_sure _ _ _ _ (wp_remove_path p s) (ok_request (RemovePath p) s Hp))|].
  by intros s' t r ([] & -> & E).
Qed.

Lemma ok_IsFileExist p s :
  wp file_serve (IsFileExist p) (fun s' _ r => files s' = files s /\ r = bool_decide (is_Some (files s !! p))) s.
Proof.
  unfold IsFileExist. apply wp_bind, (wp_call file_serve (StatFile p)). case_bool_decide as Hp.
  - destruct (file_succeeds (StatFile p) s Hp) as [a Ha]. rewrite Ha. apply wp_done. by destruct (file_effect (StatFile p) s a Ha).
  - destruct (file_missing (StatFile p) s Hp) as [Ha Hf]. apply wp_done. by rewrite Ha, Hf.
Qed.

Lemma sure_RemoveFile p s : wp file_serve (RemoveFile p) (fun s' _ r => exists a, r = inl a /\ files s' = delete p (files s)) s.
Proof.
  unfold RemoveFile. apply wp_bind. eapply wp_mono; [apply ok_IsFileExist|]. intros s1 t r [E ->]. case_bool_decide as Hp.
  - eapply wp_mono; [apply ok_remove_path; by rewrite E|]. cbn beta. intros s2 t2 r [-> ->]. exists tt. by rewrite E.
  - apply wp_ok. exists tt. split; [done|]. rewrite E. symmetry. by apply delete_id, eq_None_not_Some.
Qed.

End Helpers.

(** ** File requests among others *)

Lemma wp_ext {Rq A St : Type} {Ans : Rq -> Type} (serve1 serve2 : forall q : Rq, St -> St * (Ans q + api_error)) (p : prog Ans A) Q s :
  (forall q s, serve1 q s = serve2 q s) -> wp serve2 p Q s -> wp serve1 p Q s.
Proof. intros E. revert Q s. induction p as [a|q k IH]; intros Q s; [done|]. rewrite !wp_ask, E. apply IH. Qed.

Lemma wp_embedded {St Rq A : Type} `{NodeFiles St} {Ans : Rq -> Type} (serve : forall q : Rq, St -> St * (Ans q + api_error))
    (inj : file_request -> Rq) (back : forall q, Ans (inj q) -> file_answer q) (p : prog file_answer A) (Q : St -> A -> Prop) s :
  (forall q s, served inj back serve q s = file_serve q s) ->
  wp file_serve p (fun s' _ a => Q s' a) s -> wp serve (lift inj back p) (fun s' _ a => Q s' a) s.
Proof. intros E Hp. apply wp_lift. by eapply wp_ext. Qed.

(** ** A disk *)

(** A file system that runs out of luck at given requests. *)
Record node_disk : Type := mkNodeDisk { nd_files : gmap string string; nd_faults : list bool }.

Definition disk_answer (q : file_request) (fs : gmap string string) : file_answer q + api_error :=
  match q with
  | ReadAll p => match fs !! p with Some c => inl c | None => inr NotFound end
  | StatFile p | RemovePath p | RenamePath p _ => match fs !! p with Some _ => inl tt | None => inr NotFound end
  | _ => inl tt
  end.

Definition disk_serve (q : file_request) (d : node_disk) : node_disk * (file_answer q + api_error) :=
  match nd_faults d with
  | true :: faults => (mkNodeDisk (nd_files d) faults, inr (OtherError "input/output error"))
  | faults =>
      let r := disk_answer q (nd_files d) in
      (mkNodeDisk (match r with inl _ => effect q (nd_files d) | inr _ => nd_files d end) (tail faults), r)
  end.

#[export] Instance disk_files : NodeFiles node_disk.
Proof.
  refine {| file_serve := disk_serve; files := nd_files |}.
  - intros q [fs [|[] l]] a; unfold disk_serve; simpl; [|done|]; intros Ha; rewrite Ha; (split; [done|]); destruct q; simpl in *;
      try done; by destruct (fs !! path); simplify_eq.
  - intros q [fs [|[] l]] e p; unfold disk_serve; simpl; [|done|]; intros Ha; by rewrite Ha.
  - intros p [fs [|[] l]]; unfold disk_serve; simpl; [|done|]; by destruct (fs !! p).
Defined.

(** A disk without faults. *)
Record good_disk : Type := mkGoodDisk { gd_files : gmap string string }.

Definition good_serve (q : file_request) (d : good_disk) : good_disk * (file_answer q + api_error) :=
  let r := disk_answer q (gd_files d) in
  (mkGoodDisk (match r with inl _ => effect q (gd_files d) | inr _ => gd_files d end), r).

#[export] Instance good_files : NodeFiles good_disk.
Proof.
  refine {| file_serve := good_serve; files := gd_files |}.
  - intros q [fs] a; unfold good_serve; simpl; intros Ha; rewrite Ha; (split; [done|]); destruct q; simpl in *;
      try done; by destruct (fs !! path); simplify_eq.
  - intros q [fs] e p; unfold good_serve; simpl; intros Ha; by rewrite Ha.
  - intros p [fs]; unfold good_serve; simpl; by destruct (fs !! p).
Defined.

#[export] Instance good_reliable : ReliableFiles good_disk.
Proof.
  split.
  - intros q [fs]; destruct q; simpl; try (by eexists); intros [c Hc]; rewrite Hc; by eexists.
  - intros q [fs]; destruct q; simpl; try (by intros []); intros Hc; apply eq_None_not_Some in Hc; by rewrite Hc.
Qed.

(** The end of a longer content stays. *)
Example overwrite_leaves_tail : overwrite "replicas: 10" "replicas: 2" = "replicas: 20"%string.
Proof. reflexivity. Qed.
