(* ===== verification/AppsManager.v ===== *)
(** * The apps-manager daemon (pkg/apps-manager)

    A daemon on each node turns the EDeployments that select the node into
    manifests of static pods in the kubelet's directory: module [EDeploy].
    [follow] is what a notification of the informer does to the files when no
    request fails, the theorems of [StaticPods] say that the handlers do just
    that and, over any sequence of notifications, that the manifests are those
    of the EDeployments; whatever fails, no other file changes. *)

From Stdlib Require Import ZArith Lia Ascii String.
From stdpp Require Import base strings gmap numbers sorting list pretty.
From S2P Require Import Prelude.
From S2P Require Import GoStd.
From S2P Require Import GoStrings.
From S2P Require Import K8s.
From S2P Require Import GoNet.
From S2P Require Import Requests.
From S2P Require Import NodeFiles.

Local Open Scope Z_scope.
Local Open Scope go_scope.

Module EDeploy.

(** ** Objects (apis/apps/v1) *)

Section EDeploy.
(** The fields of a pod's specification that are only copied. *)
Context {Body : Type}.

Record PodSpec : Type := mkPodSpec { NodeSelector : gomap string; other_fields : Body }.

Record PodTemplateSpec : Type := mkPodTemplateSpec { tpl_meta : ObjectMeta; tpl_Spec : PodSpec }.

Record EDeployment : Type := mkEDeployment {
  ed_meta : ObjectMeta;
  ed_ResourceVersion : string;
  ed_Replicas : option Z;
  ed_Template : PodTemplateSpec
}.

Record StaticPod : Type := mkStaticPod {
  sp_Kind : string;
  sp_APIVersion : string;
  sp_meta : ObjectMeta;
  sp_Spec : PodSpec
}.

Definition KubeManifestsDir : string := "/etc/kubernetes/manifests/".

Definition with_name (m : ObjectMeta) (name : string) : ObjectMeta :=
  mkObjectMeta name (Namespace m) (UID m) (Labels m) (Annotations m) (OwnerReferences m) (DeletionTimestamp m).

(** [podTemplate.Name = name], where [podTemplate] points into the object. *)
Definition set_template_name (e : EDeployment) (name : string) : EDeployment :=
  mkEDeployment (ed_meta e) (ed_ResourceVersion e) (ed_Replicas e)
    (mkPodTemplateSpec (with_name (tpl_meta (ed_Template e)) name) (tpl_Spec (ed_Template e))).

Definition template_name (e : EDeployment) : string := Name (tpl_meta (ed_Template e)).

(** ** Requests *)

Inductive manager_request : Type :=
| Files (q : file_request)
| ListNodes (labelSelector : string).

Definition manager_answer (q : manager_request) : Type :=
  match q with
  | Files q => file_answer q
  | ListNodes _ => list Node
  end.

Definition on_files {A : Type} (p : prog file_answer A) : prog manager_answer A := lift Files (fun _ a => a) p.

(** Encoding and the printing of a label selector are library calls. *)
Context (Marshal : StaticPod -> string + string) (JSONToYAML : string -> string + string).
Context (selector_string : gmap string string -> string + api_error).

(** [util.PodToYaml] *)
Definition PodToYaml (pod : StaticPod) : string + string :=
  match Marshal pod with
  | inr err => inr err
  | inl podJson => match JSONToYAML podJson with
                   | inr err => inr err
                   | inl data => inl data
                   end
  end.

(** ** utils/edploy.go *)

Definition SchedulableNode (edeploy : EDeployment) : act manager_answer api_error (list Node) :=
  match NodeSelector (tpl_Spec (ed_Template edeploy)) with
  | None => fail (OtherError "not fit node")
  | Some matchLabels =>
      match selector_string matchLabels with
      | inr err => fail err
      | inl selector => call (ListNodes selector)
      end
  end.

Definition pod_name (edeploy : EDeployment) (i : Z) : string := Name (ed_meta edeploy) +:+ "-" +:+ Itoa i.

Definition manifest (staticPodDir podName : string) : string := staticPodDir +:+ podName +:+ ".yaml".

(** The pod of the template as it is now. *)
Definition static_pod (edeploy : EDeployment) : StaticPod :=
  mkStaticPod "Pod" "v1" (tpl_meta (ed_Template edeploy)) (tpl_Spec (ed_Template edeploy)).

(** An error of [PodToYaml] is overwritten; the data are nil then. *)
Definition pod_data (edeploy : EDeployment) : string :=
  match PodToYaml (static_pod edeploy) with inl data => data | inr _ => EmptyString end.

(** One round of the loop that writes the manifests; an error of the write is
    logged.  The template of the object is renamed. *)
Definition write_manifest (staticPodDir : string) (edeploy : EDeployment) (i : Z) : prog manager_answer EDeployment :=
  let edeploy := set_template_name edeploy (pod_name edeploy i) in
  reply! _ := on_files (WriteWithBufio (manifest staticPodDir (template_name edeploy)) (pod_data edeploy)) in
  Done edeploy.

Fixpoint write_manifests (staticPodDir : string) (edeploy : EDeployment) (l : list Z) : prog manager_answer EDeployment :=
  match l with
  | [] => Done edeploy
  | i :: l => reply! edeploy := write_manifest staticPodDir edeploy i in write_manifests staticPodDir edeploy l
  end.

(** [if b, _ := PathExists(path); b { if err := os.Remove(path) ... }] *)
Definition remove_manifest (path : string) : act manager_answer api_error unit :=
  reply! r := on_files (PathExists path) in
  if (fst r : bool) then on_files (remove_path path) else ok tt.

Fixpoint delete_manifests (staticPodDir : string) (edeploy : EDeployment) (l : list Z) :
    prog manager_answer (EDeployment * (unit + api_error)) :=
  match l with
  | [] => Done (edeploy, inl tt)
  | i :: l =>
      let edeploy := set_template_name edeploy (pod_name edeploy i) in
      reply! r := remove_manifest (manifest staticPodDir (template_name edeploy)) in
      match r with
      | inr err => Done (edeploy, inr err)
      | inl _ => delete_manifests staticPodDir edeploy l
      end
  end.

(** A run ends with the object as it is left, or dereferences a nil pointer. *)
Notation edited := (outcome (EDeployment * (unit + api_error))).

Definition nil_replicas {A : Type} : outcome A := Panic "invalid memory address or nil pointer dereference".

Definition WriteEdeployToStaticPod (edeploy : EDeployment) (staticPodDir : string) : prog manager_answer edited :=
  match ed_Replicas edeploy with
  | None => Done nil_replicas
  | Some replicas =>
      reply! edeploy := write_manifests staticPodDir edeploy (seqZ 1 replicas) in
      Done (Ret (edeploy, inl tt))
  end.

Definition UpdateEdeployToStaticPod (oldEDeployment curEDeployment : EDeployment) (staticPodDir : string) : prog manager_answer edited :=
  match ed_Replicas oldEDeployment, ed_Replicas curEDeployment with
  | Some oldReplicas, Some curReplicas =>
      reply! r :=
        if curReplicas <? oldReplicas then
          each (fun i => remove_manifest (manifest staticPodDir (pod_name oldEDeployment i)))
            (reverse (seqZ (curReplicas + 1) (oldReplicas - curReplicas)))
        else ok tt in
      match r with
      | inr err => Done (Ret (curEDeployment, inr err))
      | inl _ =>
          reply! curEDeployment := write_manifests staticPodDir curEDeployment (seqZ 1 curReplicas) in
          Done (Ret (curEDeployment, inl tt))
      end
  | _, _ => Done nil_replicas
  end.

Definition DeleteStaticPodFromEdeploy (edeploy : EDeployment) (staticPodDir : string) : prog manager_answer edited :=
  match ed_Replicas edeploy with
  | None => Done nil_replicas
  | Some replicas => reply! r := delete_manifests staticPodDir edeploy (seqZ 1 replicas) in Done (Ret r)
  end.

(** ** The handlers (controller/edeploy.go) *)

Section Handlers.
Context (hostName : string).

(** The body of [deleteNodeUnit] is a comment. *)
Definition deleteNodeUnit (edeploy : EDeployment) : EDeployment := edeploy.

(** The object is handled if one of the nodes is this one; errors are logged. *)
Definition if_selected (edeploy : EDeployment) (handle : prog manager_answer edited) : prog manager_answer (outcome EDeployment) :=
  reply! r := SchedulableNode edeploy in
  match r with
  | inr _ => Done (Ret edeploy)
  | inl selectedNodes =>
      if existsb (fun node => String.eqb (Name (node_meta node)) hostName) selectedNodes then
        reply! r := handle in
        Done (let* r := r in Ret (fst r))
      else Done (Ret edeploy)
  end.

Definition addEDeploy (edeploy : EDeployment) : prog manager_answer (outcome EDeployment) :=
  match DeletionTimestamp (ed_meta edeploy) with
  | Some _ => Done (Ret (deleteNodeUnit edeploy))
  | None => if_selected edeploy (WriteEdeployToStaticPod edeploy KubeManifestsDir)
  end.

Definition updateEDeploy (oldEDeployment curEDeployment : EDeployment) : prog manager_answer (outcome EDeployment) :=
  if String.eqb (ed_ResourceVersion oldEDeployment) (ed_ResourceVersion curEDeployment) then Done (Ret curEDeployment)
  else if_selected curEDeployment (UpdateEdeployToStaticPod oldEDeployment curEDeployment KubeManifestsDir).

(** A deletion that the informer has missed is told with a
    [cache.DeletedFinalStateUnknown], which the type assertion does not expect. *)
Inductive deleted_object : Type :=
| FinalState (e : EDeployment)
| DeletedFinalStateUnknown (key : string).

Definition deleteEDeploy (obj : deleted_object) : prog manager_answer (outcome EDeployment) :=
  match obj with
  | DeletedFinalStateUnknown _ => Done (Panic "interface conversion")
  | FinalState edeploy =>
      match DeletionTimestamp (ed_meta edeploy) with
      | Some _ => Done (Ret (deleteNodeUnit edeploy))
      | None => if_selected edeploy (DeleteStaticPodFromEdeploy edeploy KubeManifestsDir)
      end
  end.

(** The informer calls the handlers one after the other; a panic ends the
    process. *)
Inductive notification : Type :=
| Added (e : EDeployment)
| Updated (old cur : EDeployment)
| Deleted (obj : deleted_object).

Definition handle (n : notification) : prog manager_answer (outcome EDeployment) :=
  match n with
  | Added e => addEDeploy e
  | Updated old cur => updateEDeploy old cur
  | Deleted obj => deleteEDeploy obj
  end.

Fixpoint handle_all (l : list notification) : prog manager_answer (outcome unit) :=
  match l with
  | [] => Done (Ret tt)
  | n :: l => reply! r := handle n in
              match r with
              | Panic w => Done (Panic w)
              | Ret _ => handle_all l
              end
  end.

End Handlers.
End EDeploy.

Arguments PodSpec Body : clear implicits.
Arguments PodTemplateSpec Body : clear implicits.
Arguments EDeployment Body : clear implicits.
Arguments StaticPod Body : clear implicits.
Arguments deleted_object Body : clear implicits.
Arguments notification Body : clear implicits.

End EDeploy.

(** ** Names of manifests *)

Module Names.

Import EDeploy.

Lemma last_part sep d d' : all_chars (fun a => negb (Ascii.eqb a sep)) d = true -> all_chars (fun a => negb (Ascii.eqb a sep)) d' = true ->
  forall s s', s +:+ String sep d = s' +:+ String sep d' -> s = s' /\ d = d'.
Proof.
  intros Hd Hd'.
  assert (forall t x : string, all_chars (fun a => negb (Ascii.eqb a sep)) (t +:+ String sep x) = false) as Hsep.
  { intros t x. rewrite all_chars_app. cbn [all_chars]. rewrite Ascii.eqb_refl. by rewrite andb_false_r. }
  induction s as [|c s IH]; intros [|c' s']; cbn; [by intros [= ->]| | |].
  - intros [= _ ->]. by rewrite Hsep in Hd.
  - intros [= _ <-]. by rewrite Hsep in Hd'.
  - intros [= -> E]. by destruct (IH s' E) as [-> ->].
Qed.

Definition digit (a : ascii) : bool := let n := nat_of_ascii a in (48 <=? n)%nat && (n <=? 57)%nat.

Lemma digits_pretty (n : N) : all_chars digit (pretty n) = true.
Proof.
  assert (forall s, all_chars digit s = true -> all_chars digit (pretty_N_go n s) = true) as Hgo.
  { induction (N.lt_wf_0 n) as [n _ IH]. intros s Hs. destruct (decide (n = 0%N)) as [->|Hn]; [by rewrite pretty_N_go_0|].
    rewrite pretty_N_go_step by lia. apply IH; [by apply N.div_lt; lia|]. cbn [all_chars]. rewrite Hs, andb_true_r.
    assert (n mod 10 < 10)%N as Hlt by (by apply N.mod_lt). revert Hlt. generalize (n mod 10)%N. intros m Hm.
    do 10 (destruct m as [|m] using N.peano_ind; [done|clear IHm; rewrite <- ?N.add_1_l in * ]); try lia. }
  unfold pretty, pretty_N. case_decide; [done|]. by apply Hgo.
Qed.

Lemma digits_Itoa i : 0 <= i -> all_chars digit (Itoa i) = true.
Proof. intros Hi. unfold Itoa. rewrite (proj2 (Z.ltb_ge i 0)) by lia. apply digits_pretty. Qed.

Lemma Itoa_inj i j : 0 <= i -> 0 <= j -> Itoa i = Itoa j -> i = j.
Proof.
  intros Hi Hj. unfold Itoa. rewrite !(proj2 (Z.ltb_ge _ 0)) by lia. unfold dec. intros E%(inj pretty). by apply Z2N.inj.
Qed.

(** A manifest tells the EDeployment and the number. *)
Lemma manifest_inj dir n m i j : 0 <= i -> 0 <= j ->
  manifest dir (n +:+ "-" +:+ Itoa i) = manifest dir (m +:+ "-" +:+ Itoa j) -> n = m /\ i = j.
Proof.
  intros Hi Hj. unfold manifest. intros E%(inj (String.append dir)).
  apply (last_part "." "yaml" "yaml") in E as [E _]; [|done..].
  apply (last_part "-") in E as [-> E]; [by apply Itoa_inj in E| |];
    (eapply all_chars_mono; [|by apply digits_Itoa]); intros a; unfold digit; intros Ha; destruct (Ascii.eqb_spec a "-"); by subst.
Qed.

End Names.

(** ** What the manifests become *)

Module StaticPods.

Import EDeploy.

Section Follow.
Context {Body : Type} (Marshal : StaticPod Body -> string + string) (JSONToYAML : string -> string + string).
Context (selector_string : gmap string string -> string + api_error).
Context (hostName : string).

(** Whether a node list answered with a selector has this node. *)
Context (on_host : string -> bool).

Implicit Types (e : EDeployment Body) (fs : gmap string string).

Definition selected e : bool :=
  match NodeSelector (tpl_Spec (ed_Template e)) with
  | None => false
  | Some l => match selector_string l with inl sel => on_host sel | inr _ => false end
  end.

(** The manifest of a pod, and what it is to hold. *)
Definition path e (i : Z) : string := manifest KubeManifestsDir (pod_name e i).
Definition data e (i : Z) : string := pod_data Marshal JSONToYAML (set_template_name e (pod_name e i)).

Definition put_manifest e fs (i : Z) : gmap string string := <[path e i := overwrite (content fs (path e i)) (data e i)]> fs.
Definition drop_pod e fs (i : Z) : gmap string string := delete (path e i) fs.

Definition follow (n : notification Body) fs : gmap string string :=
  match n with
  | Added e =>
      match DeletionTimestamp (ed_meta e), ed_Replicas e with
      | None, Some r => if selected e then foldl (put_manifest e) fs (seqZ 1 r) else fs
      | _, _ => fs
      end
  | Updated old cur =>
      match ed_Replicas old, ed_Replicas cur with
      | Some r0, Some r =>
          if negb (String.eqb (ed_ResourceVersion old) (ed_ResourceVersion cur)) && selected cur
          then foldl (put_manifest cur) (foldl (drop_pod old) fs (reverse (seqZ (r + 1) (r0 - r)))) (seqZ 1 r)
          else fs
      | _, _ => fs
      end
  | Deleted (FinalState e) =>
      match DeletionTimestamp (ed_meta e), ed_Replicas e with
      | None, Some r => if selected e then foldl (drop_pod e) fs (seqZ 1 r) else fs
      | _, _ => fs
      end
  | Deleted (DeletedFinalStateUnknown _) => fs
  end.

(** The replicas are never nil, and deletions are not missed. *)
Definition tame (n : notification Body) : Prop :=
  match n with
  | Added e | Deleted (FinalState e) => is_Some (ed_Replicas e)
  | Updated old cur => is_Some (ed_Replicas old) /\ is_Some (ed_Replicas cur)
  | Deleted (DeletedFinalStateUnknown _) => False
  end.

(** ** EDeployments and manifests *)

Notation view := (gmap string (EDeployment Body)).

Definition replicas e : Z := default 0 (ed_Replicas e).
Definition pod_path (n : string) (i : Z) : string := manifest KubeManifestsDir (n +:+ "-" +:+ Itoa i).
Notation ename e := (Name (ed_meta e)).

(** The EDeployments of this node, as the informer has told them. *)
Definition seen (v : view) (n : notification Body) : view :=
  match n with
  | Added e => <[ename e := e]> v
  | Updated old cur => if String.eqb (ed_ResourceVersion old) (ed_ResourceVersion cur) then v else <[ename cur := cur]> v
  | Deleted (FinalState e) => delete (ename e) v
  | Deleted (DeletedFinalStateUnknown _) => v
  end.

(** The EDeployment whose pod has a name and a number. *)
Definition wanted (v : view) (n : string) (i : Z) : option (EDeployment Body) :=
  match v !! n with
  | Some e => if selected e && (i <=? replicas e) then Some e else None
  | None => None
  end.

(** The manifests are those of the EDeployments, each begins with what it is to
    hold, and if [exact] it holds nothing more. *)
Definition mirrors (exact : bool) (v : view) fs : Prop :=
  forall n i, 1 <= i ->
    match wanted v n i with
    | Some e => exists rest, fs !! pod_path n i = Some (data e i +:+ rest) /\ (exact = true -> rest = EmptyString)
    | None => fs !! pod_path n i = None
    end.

(** A notification that comes after [v]: the old object is the one told before,
    a selected EDeployment stays selected while it is there, one that is added
    again has not lost pods, and a deleted one carries no deletion timestamp;
    with [exact], no manifest gets shorter. *)
Definition grows (exact : bool) e0 e : Prop :=
  exact = true -> forall i, (String.length (data e0 i) <= String.length (data e i))%nat.

Definition told (exact : bool) (v : view) (n : notification Body) : Prop :=
  tame n /\
  match n with
  | Added e =>
      DeletionTimestamp (ed_meta e) = None
      /\ forall e0, v !! ename e = Some e0 -> selected e0 = true -> selected e = true /\ replicas e0 <= replicas e /\ grows exact e0 e
  | Updated old cur =>
      exists e0, v !! ename cur = Some e0 /\ ename old = ename cur /\ replicas old = replicas e0 /\ 0 <= replicas cur
      /\ (selected e0 = true -> selected cur = true) /\ grows exact e0 cur
  | Deleted (FinalState e) =>
      exists e0, v !! ename e = Some e0 /\ replicas e = replicas e0
      /\ (selected e0 = true -> selected e = true /\ DeletionTimestamp (ed_meta e) = None)
  | Deleted (DeletedFinalStateUnknown _) => False
  end.

Fixpoint told_all (exact : bool) (v : view) (l : list (notification Body)) : Prop :=
  match l with
  | [] => True
  | n :: l => told exact v n /\ told_all exact (seen v n) l
  end.

Lemma pod_path_inj n m i j : 0 <= i -> 0 <= j -> pod_path n i = pod_path m j -> n = m /\ i = j.
Proof. apply Names.manifest_inj. Qed.

Lemma lookup_puts e l n i fs : NoDup l -> Forall (fun j => 1 <= j) l -> 1 <= i ->
  foldl (put_manifest e) fs l !! pod_path n i =
  if decide (n = ename e /\ i ∈ l) then Some (overwrite (content fs (pod_path n i)) (data e i)) else fs !! pod_path n i.
Proof.
  intros Hnd Hl Hi. revert fs. induction Hnd as [|j l Hj Hnd IH]; intros fs; inversion_clear Hl as [|? ? H1 H2]; cbn [foldl].
  { rewrite decide_False; [done|]. intros [_ ?]. by apply (not_elem_of_nil i). }
  rewrite IH by done. unfold put_manifest, content. change (path e j) with (pod_path (ename e) j).
  destruct (decide (n = ename e /\ i = j)) as [[-> ->]|Hne].
  - rewrite decide_False, decide_True by set_solver. by rewrite lookup_insert_eq.
  - assert (pod_path (ename e) j <> pod_path n i) as Hp by (intros E; destruct Hne; apply pod_path_inj in E as [-> ->]; [done|lia..]).
    rewrite !lookup_insert_ne by done. apply decide_ext. rewrite elem_of_cons. naive_solver.
Qed.

Lemma lookup_drops e l n i fs : Forall (fun j => 0 <= j) l -> 1 <= i ->
  foldl (drop_pod e) fs l !! pod_path n i = if decide (n = ename e /\ i ∈ l) then None else fs !! pod_path n i.
Proof.
  intros Hl Hi. revert fs. induction Hl as [|j l Hj Hl IH]; intros fs; cbn [foldl].
  { rewrite decide_False; [done|]. intros [_ ?]. by apply (not_elem_of_nil i). }
  rewrite IH. unfold drop_pod. change (path e j) with (pod_path (ename e) j).
  destruct (decide (n = ename e /\ i = j)) as [[-> ->]|Hne].
  - rewrite lookup_delete_eq, (decide_True (P := _ /\ _ ∈ _ :: _)) by set_solver. by case_decide.
  - assert (pod_path (ename e) j <> pod_path n i) as Hp by (intros E; destruct Hne; apply pod_path_inj in E as [-> ->]; [done|lia..]).
    rewrite lookup_delete_ne by done. apply decide_ext. rewrite elem_of_cons. naive_solver.
Qed.

Lemma lookup_put_range e r n i fs : 1 <= i ->
  foldl (put_manifest e) fs (seqZ 1 r) !! pod_path n i =
  if decide (n = ename e /\ i <= r) then Some (overwrite (content fs (pod_path n i)) (data e i)) else fs !! pod_path n i.
Proof.
  intros Hi. rewrite lookup_puts; [|apply NoDup_seqZ|by apply Forall_seqZ; lia|done]. apply decide_ext. rewrite elem_of_seqZ. split; intros []; split; (done || lia).
Qed.

Lemma lookup_drop_range e a b n i fs l : 0 <= a -> 1 <= i -> l ≡ₚ seqZ a b ->
  foldl (drop_pod e) fs l !! pod_path n i = if decide (n = ename e /\ a <= i < a + b) then None else fs !! pod_path n i.
Proof.
  intros Ha Hi Hl. rewrite lookup_drops; [|rewrite Hl; by apply Forall_seqZ; lia|done]. apply decide_ext. by rewrite Hl, elem_of_seqZ.
Qed.

(** Of a path of no EDeployment nothing is held. *)
Lemma mirrors_absent exact v fs n i : mirrors exact v fs -> 1 <= i ->
  (forall e0, v !! n = Some e0 -> selected e0 = true -> replicas e0 < i) -> fs !! pod_path n i = None.
Proof.
  intros Hm Hi Hv. specialize (Hm n i Hi). unfold wanted in Hm. destruct (v !! n) as [e0|]; [|done].
  destruct (selected e0) eqn:Hs; [|done]. rewrite (proj2 (Z.leb_gt i (replicas e0))) in Hm by (by apply Hv). done.
Qed.

(** A manifest that is written over what was there. *)
Lemma put_holds exact v fs e i : mirrors exact v fs -> 1 <= i ->
  (forall e0, v !! ename e = Some e0 -> selected e0 = true -> grows exact e0 e) ->
  exists rest, overwrite (content fs (pod_path (ename e) i)) (data e i) = data e i +:+ rest /\ (exact = true -> rest = EmptyString).
Proof.
  intros Hm Hi Hv. destruct exact; [|destruct (overwrite_start (content fs (pod_path (ename e) i)) (data e i)) as [rest ->]; by exists rest].
  exists EmptyString. rewrite append_nil_r. split; [|done]. apply overwrite_all. unfold content.
  specialize (Hm (ename e) i Hi). unfold wanted in Hm. destruct (v !! ename e) as [e0|]; [|rewrite Hm; simpl; lia].
  destruct (selected e0) eqn:Hs; [|rewrite Hm; simpl; lia]. cbn [andb] in Hm. destruct (i <=? replicas e0); [|rewrite Hm; simpl; lia].
  destruct Hm as (rest & -> & Hrest). rewrite Hrest, append_nil_r by done. by apply (Hv e0 eq_refl Hs eq_refl i).
Qed.

(** The manifests after those of [e] have been written, and none of its later
    pods is left. *)
Lemma mirrors_put exact v fs e r : mirrors exact v fs -> ed_Replicas e = Some r -> selected e = true ->
  (forall e0, v !! ename e = Some e0 -> selected e0 = true -> grows exact e0 e) ->
  forall fs1, (forall n i, 1 <= i -> fs1 !! pod_path n i = if decide (n = ename e /\ r < i) then None else fs !! pod_path n i) ->
  mirrors exact (<[ename e := e]> v) (foldl (put_manifest e) fs1 (seqZ 1 r)).
Proof.
  intros Hm Hr Hs Hg fs1 Hfs n i Hi. rewrite lookup_put_range by done.
  unfold wanted. destruct (decide (n = ename e)) as [->|Hn].
  - rewrite lookup_insert_eq, Hs. cbn [andb]. assert (replicas e = r) as -> by (unfold replicas; by rewrite Hr).
    destruct (Z.leb_spec i r); [rewrite decide_True by (split; [done|lia])|rewrite decide_False by (intros []; lia)].
    + destruct (put_holds exact v fs e i Hm Hi Hg) as (rest & E & Hx). exists rest. split; [|done]. rewrite <- E. unfold content.
      rewrite Hfs by done. by rewrite decide_False by (intros []; lia).
    + rewrite Hfs by done. by rewrite decide_True.
  - rewrite lookup_insert_ne, decide_False by naive_solver. rewrite Hfs, decide_False by naive_solver. apply (Hm n i Hi).
Qed.

(** An EDeployment that is of no concern to this node. *)
Lemma mirrors_skip exact v fs e : mirrors exact v fs -> selected e = false ->
  (forall e0, v !! ename e = Some e0 -> selected e0 = false) -> mirrors exact (<[ename e := e]> v) fs.
Proof.
  intros Hm Hs Hv n i Hi. specialize (Hm n i Hi). unfold wanted in *. destruct (decide (n = ename e)) as [->|Hn]; [|by rewrite lookup_insert_ne].
  rewrite lookup_insert_eq, Hs. simpl. destruct (v !! ename e) as [e0|]; [|done]. by rewrite Hv in Hm.
Qed.

Lemma mirrors_step exact v n fs : told exact v n -> mirrors exact v fs -> mirrors exact (seen v n) (follow n fs).
Proof.
  intros [Ht Hn] Hm. destruct n as [e|old cur|[e|key]]; cbn [told tame seen follow] in *; [| | |done].
  - destruct Ht as [r Hr], Hn as [-> Hv]. rewrite Hr. destruct (selected e) eqn:Hs; [|apply mirrors_skip; [done..|]].
    + apply (mirrors_put exact v fs); [done..|by intros; eapply Hv|]. intros n i Hi. case_decide as Hc; [|done]. destruct Hc as [-> Hc].
      eapply mirrors_absent; [done..|]. intros e0 H0 Hs0. destruct (Hv e0 H0 Hs0) as (_ & Hle & _). unfold replicas in *. rewrite Hr in Hle. simpl in Hle. lia.
    + intros e0 H0. apply not_true_is_false. intros Hs0. destruct (Hv e0 H0 Hs0). congruence.
  - destruct Ht as [[r0 Hr0] [r Hr]], Hn as (e0 & H0 & Hname & Hrep & Hpos & Hsel & Hg). rewrite Hr0, Hr. unfold replicas in Hrep, Hpos. rewrite Hr0 in Hrep. rewrite Hr in Hpos. simpl in Hrep, Hpos.
    destruct (String.eqb _ _); [done|]. cbn [negb andb]. destruct (selected cur) eqn:Hs; [|apply mirrors_skip; [done..|]].
    + apply (mirrors_put exact v fs); [done..|by intros e1 H1 _; simplify_eq|]. intros n i Hi.
      rewrite (lookup_drop_range old (r + 1) (r0 - r)) by (lia || apply reverse_Permutation). rewrite Hname.
      destruct (decide (n = ename cur /\ r < i)) as [[-> Hlt]|Hc]; [|by rewrite decide_False by (intros [-> ?]; apply Hc; split; [done|lia])].
      case_decide as Hc; [done|]. apply (mirrors_absent exact v); [done..|]. intros e1 H1 _. rewrite H0 in H1. injection H1 as <-. unfold replicas. rewrite <- Hrep.
      destruct (decide (r0 < i)); [done|]. destruct Hc. split; [done|lia].
    + intros e1 H1. rewrite H0 in H1. injection H1 as <-. apply not_true_is_false. intros Hs0. specialize (Hsel Hs0). congruence.
  - destruct Ht as [r Hr], Hn as (e0 & H0 & Hrep & Hsel). rewrite Hr. unfold replicas in Hrep. rewrite Hr in Hrep. simpl in Hrep.
    intros n i Hi. pose proof (Hm n i Hi) as Hni. unfold wanted in *. destruct (decide (n = ename e)) as [->|Hne].
    + rewrite lookup_delete_eq. rewrite H0 in Hni. destruct (selected e0) eqn:Hs0.
      * destruct Hsel as [-> ->]; [done|]. rewrite (lookup_drop_range e 1 r) by (lia || done). cbn [andb] in Hni.
        case_decide as Hc; [done|]. rewrite (proj2 (Z.leb_gt i (replicas e0))) in Hni; [done|].
        unfold replicas. rewrite <- Hrep. destruct (decide (r < i)); [done|]. destruct Hc. split; [done|lia].
      * cbn [andb] in Hni. destruct (DeletionTimestamp _); [done|]. destruct (selected e); [|done].
        rewrite (lookup_drop_range e 1 r) by (lia || done). by case_decide.
    + rewrite lookup_delete_ne by done. destruct (DeletionTimestamp _); [done|]. destruct (selected e); [|done].
      rewrite (lookup_drop_range e 1 r) by (lia || done). by rewrite decide_False by naive_solver.
Qed.

Lemma mirrors_all exact l : forall v fs, told_all exact v l -> mirrors exact v fs ->
  mirrors exact (foldl seen v l) (foldl (fun fs n => follow n fs) fs l).
Proof. induction l as [|n l IH]; intros v fs; [done|]. intros [Hn Hl] Hm. apply IH; [done|]. by apply mirrors_step. Qed.

Lemma told_tame exact l : forall v, told_all exact v l -> Forall tame l.
Proof. induction l as [|n l IH]; intros v; [done|]. intros [[Hn _] Hl]. constructor; [done|by eapply IH]. Qed.

(** ** Runs of the handlers *)

Section Server.
Context {St : Type} `{!NodeFiles St}.
Context (serve : forall q : manager_request, St -> St * (manager_answer q + api_error)).
Hypothesis serve_files : forall q s, serve (Files q) s = file_serve q s.

Lemma wp_on_files {A : Type} (p : prog file_answer A) (Q : St -> A -> Prop) s :
  wp file_serve p (fun s' _ a => Q s' a) s -> wp serve (on_files p) (fun s' _ a => Q s' a) s.
Proof.
  intros Hp. apply wp_embedded; [|exact Hp]. intros q s1. unfold served. rewrite serve_files. by destruct (file_serve q s1) as [s2 [a|e]].
Qed.

(** *** Whatever fails *)

Hypothesis serve_nodes_files : forall sel s, files (fst (serve (ListNodes sel) s)) = files s.

(** The files a notification is about. *)
Definition own (n : notification Body) (p : string) : Prop :=
  match n with
  | Added e | Deleted (FinalState e) => exists i, 1 <= i <= replicas e /\ p = path e i
  | Updated old cur =>
      (exists i, replicas cur < i <= replicas old /\ p = path old i) \/ (exists i, 1 <= i <= replicas cur /\ p = path cur i)
  | Deleted (DeletedFinalStateUnknown _) => False
  end.

Definition only (P : string -> Prop) (q : manager_request) : Prop :=
  match q with Files q => forall p, about q p -> P p | ListNodes _ => True end.

Lemma all_WriteWithBufio (P : string -> Prop) n c : P n -> all_requests (only P) (on_files (WriteWithBufio n c)).
Proof.
  intros Hn. apply all_lift. apply all_andthen; [apply (all_call (fun q => only P (Files q)) (OpenFile n Keep)); by intros p ->|].
  intros _. unfold buffered_write. destruct (String.eqb _ _); [done|]. apply (all_call (fun q => only P (Files q)) (WriteData n Keep c)). by intros p ->.
Qed.

Lemma all_write_manifests (P : string -> Prop) l e : (forall i, i ∈ l -> P (path e i)) ->
  all_requests (only P) (write_manifests Marshal JSONToYAML KubeManifestsDir e l).
Proof.
  revert e. induction l as [|i l IH]; intros e Hl; [done|]. cbn [write_manifests]. apply all_bind_results.
  - unfold write_manifest. apply all_bind; [|done]. apply all_WriteWithBufio, (Hl i). by left.
  - eapply results_bind; [apply results_any|]. intros a _. apply IH. intros j Hj. apply (Hl j). by right.
Qed.

Lemma all_remove_manifest (P : string -> Prop) p : P p -> all_requests (only P) (remove_manifest p).
Proof.
  intros Hp. unfold remove_manifest. apply all_bind; [apply all_lift; split; [by intros ? []|by intros r]|]. intros [[] err]; [|done].
  apply all_lift, (all_call (fun q => only P (Files q)) (RemovePath p)). by intros p' ->.
Qed.

Lemma all_delete_manifests (P : string -> Prop) l e : (forall i, i ∈ l -> P (path e i)) ->
  all_requests (only P) (delete_manifests KubeManifestsDir e l).
Proof.
  revert e. induction l as [|i l IH]; intros e Hl; [done|]. cbn [delete_manifests]. apply all_bind.
  - apply all_remove_manifest, (Hl i). by left.
  - intros [a|err]; [|done]. apply IH. intros j Hj. apply (Hl j). by right.
Qed.

Lemma all_if_selected (P : string -> Prop) e (h : prog manager_answer (outcome (EDeployment Body * (unit + api_error)))) :
  all_requests (only P) h -> all_requests (only P) (if_selected selector_string hostName e h).
Proof.
  intros Hh. unfold if_selected. apply all_bind.
  - unfold SchedulableNode. destruct (NodeSelector _) as [l|]; [|done]. destruct (selector_string l); [|done]. by apply (all_call (only P) (ListNodes _)).
  - intros [nodes|err]; [|done]. destruct (existsb _ nodes); [|done]. by apply all_bind.
Qed.

Lemma all_handle n : all_requests (only (own n)) (handle Marshal JSONToYAML selector_string hostName n).
Proof.
  destruct n as [e|old cur|[e|key]]; cbn [handle]; [| | |done].
  - unfold addEDeploy, WriteEdeployToStaticPod. destruct (DeletionTimestamp _); [done|]. apply all_if_selected.
    destruct (ed_Replicas e) as [r|] eqn:Hr; [|done]. apply all_bind; [|done]. apply all_write_manifests.
    intros i Hi%elem_of_seqZ. exists i. split; [|done]. unfold replicas. rewrite Hr. simpl. lia.
  - unfold updateEDeploy, UpdateEdeployToStaticPod. destruct (String.eqb _ _); [done|]. apply all_if_selected.
    destruct (ed_Replicas old) as [r0|] eqn:Hr0; [|done]. destruct (ed_Replicas cur) as [r|] eqn:Hr; [|done]. apply all_bind.
    + destruct (r <? r0); [|done]. apply all_each. intros i Hi. apply all_remove_manifest. left. exists i.
      rewrite elem_of_reverse, elem_of_seqZ in Hi. split; [|done]. unfold replicas. rewrite Hr, Hr0. simpl. lia.
    + intros [[]|err]; [|done]. apply all_bind; [|done]. apply all_write_manifests. intros i Hi%elem_of_seqZ. right. exists i.
      split; [|done]. unfold replicas. rewrite Hr. simpl. lia.
  - unfold deleteEDeploy, DeleteStaticPodFromEdeploy. destruct (DeletionTimestamp _); [done|]. apply all_if_selected.
    destruct (ed_Replicas e) as [r|] eqn:Hr; [|done]. apply all_bind; [|done]. apply all_delete_manifests.
    intros i Hi%elem_of_seqZ. exists i. split; [|done]. unfold replicas. rewrite Hr. simpl. lia.
Qed.

(** However the node's file system and the API server answer, a notification
    changes only files of its EDeployment. *)
Theorem other_files_stay n s :
  wp serve (handle Marshal JSONToYAML selector_string hostName n)
    (fun s' _ _ => forall p, ~ own n p -> files s' !! p = files s !! p) s.
Proof.
  eapply wp_mono; [apply (wp_all_requests (only (own n)) serve _ (fun s' => forall p, ~ own n p -> files s' !! p = files s !! p))|].
  - apply all_handle.
  - intros [q|sel] s1 Hq Hs1 p Hp; [|by rewrite serve_nodes_files, Hs1]. rewrite serve_files.
    destruct (wp_request_kept q s1 p) as [Hk|Hk]; [etrans; [exact Hk|by apply Hs1]|]. destruct Hp. by apply Hq.
  - done.
  - by intros s' t r [H _].
Qed.

(** *** When nothing fails *)

Context `{!ReliableFiles St}.
Hypothesis serve_nodes : forall sel s, exists nodes,
  serve (ListNodes sel) s = (fst (serve (ListNodes sel) s), inl nodes)
  /\ existsb (fun n => String.eqb (Name (node_meta n)) hostName) nodes = on_host sel
  /\ files (fst (serve (ListNodes sel) s)) = files s.

Lemma wp_write_manifest e i s :
  wp serve (write_manifest Marshal JSONToYAML KubeManifestsDir e i)
    (fun s' _ e' => e' = set_template_name e (pod_name e i) /\ files s' = put_manifest e (files s) i) s.
Proof.
  unfold write_manifest. apply wp_bind. eapply wp_mono; [apply wp_on_files, sure_WriteWithBufio|].
  intros s1 t r (a & _ & E). by apply wp_done.
Qed.

Lemma wp_write_manifests l e s :
  wp serve (write_manifests Marshal JSONToYAML KubeManifestsDir e l) (fun s' _ _ => files s' = foldl (put_manifest e) (files s) l) s.
Proof.
  revert e s. induction l as [|i l IH]; intros e s; [done|]. cbn [write_manifests]. apply wp_bind.
  eapply wp_mono; [apply wp_write_manifest|]. intros s1 t1 e1 [-> E]. eapply wp_mono; [apply IH|]. cbn beta. intros s2 t2 _ ->. by rewrite E.
Qed.

Lemma wp_remove_manifest p s :
  wp serve (remove_manifest p) (fun s' _ r => r = inl tt /\ files s' = delete p (files s)) s.
Proof.
  unfold remove_manifest. apply wp_bind. eapply wp_mono; [apply wp_on_files, ok_PathExists|]. intros s1 t1 r [E ->]. cbn [fst].
  case_bool_decide as Hp.
  - eapply wp_mono; [apply wp_on_files, ok_remove_path; by rewrite E|]. cbn beta. intros s2 t2 r [-> ->]. by rewrite E.
  - apply wp_ok. split; [done|]. rewrite E. symmetry. by apply delete_id, eq_None_not_Some.
Qed.

Lemma wp_delete_manifests l e s :
  wp serve (delete_manifests KubeManifestsDir e l) (fun s' _ _ => files s' = foldl (drop_pod e) (files s) l) s.
Proof.
  revert e s. induction l as [|i l IH]; intros e s; [done|]. cbn [delete_manifests]. apply wp_bind.
  eapply wp_mono; [apply wp_remove_manifest|]. intros s1 t1 r [-> E]. eapply wp_mono; [apply IH|]. cbn beta. intros s2 t2 _ ->. by rewrite E.
Qed.

Lemma wp_remove_each l e s :
  wp serve (each (fun i => remove_manifest (manifest KubeManifestsDir (pod_name e i))) l)
    (fun s' _ r => r = inl tt /\ files s' = foldl (drop_pod e) (files s) l) s.
Proof.
  apply (wp_each serve _ l (fun done s' _ => files s' = foldl (drop_pod e) (files s) done)); [done|].
  intros done i todo s1 t _ E. eapply wp_mono; [apply wp_remove_manifest|]. intros s2 t2 r [-> ->]. split; [done|]. by rewrite E, foldl_app.
Qed.

Lemma wp_if_selected e (h : prog manager_answer (outcome (EDeployment Body * (unit + api_error)))) (Q : gmap string string -> Prop) s :
  (selected e = true -> forall s1, files s1 = files s -> wp serve h (fun s' _ r => (exists x, r = Ret x) /\ Q (files s')) s1) ->
  (selected e = false -> Q (files s)) ->
  wp serve (if_selected selector_string hostName e h) (fun s' _ r => (exists e', r = Ret e') /\ Q (files s')) s.
Proof.
  unfold if_selected, SchedulableNode, selected. intros Hyes Hno.
  destruct (NodeSelector _) as [l|]; [|by split; [eexists|apply Hno]].
  destruct (selector_string l) as [sel|err]; [|by split; [eexists|apply Hno]].
  apply wp_bind, (wp_call serve (ListNodes sel)). destruct (serve_nodes sel s) as (nodes & E & Hn & Hf). rewrite E. cbn [fst snd]. rewrite Hn.
  destruct (on_host sel); [|split; [by eexists|rewrite Hf; by apply Hno]].
  apply wp_bind. eapply wp_mono; [by apply Hyes|]. intros s2 t2 r [[x ->] HQ]. apply wp_done. split; [by eexists|done].
Qed.

(** A notification is handled, and its effect on the files is [follow]. *)
Lemma wp_handle n s : tame n ->
  wp serve (handle Marshal JSONToYAML selector_string hostName n) (fun s' _ r => (exists e, r = Ret e) /\ files s' = follow n (files s)) s.
Proof.
  destruct n as [e|old cur|[e|key]]; cbn [handle follow tame]; [intros [r Hr]|intros [[r0 Hr0] [r Hr]]|intros [r Hr]|done].
  - unfold addEDeploy, WriteEdeployToStaticPod. rewrite Hr. destruct (DeletionTimestamp _); [by split; [eexists|]|].
    apply (wp_if_selected _ _ (fun fs => fs = _)); intros ->; [|done]. intros s1 E. apply wp_bind. eapply wp_mono; [apply wp_write_manifests|].
    intros s2 t2 e2 H2. apply wp_done. split; [by eexists|by rewrite H2, E].
  - unfold updateEDeploy, UpdateEdeployToStaticPod. rewrite Hr0, Hr. destruct (String.eqb _ _); [by split; [eexists|]|].
    apply (wp_if_selected _ _ (fun fs => fs = _)); intros ->; [|done]. intros s1 E. apply wp_bind.
    assert (wp serve (if r <? r0 then each (fun i => remove_manifest (manifest KubeManifestsDir (pod_name old i))) (reverse (seqZ (r + 1) (r0 - r))) else ok tt)
      (fun s' _ x => x = inl tt /\ files s' = foldl (drop_pod old) (files s1) (reverse (seqZ (r + 1) (r0 - r)))) s1) as Hrm.
    { destruct (Z.ltb_spec r r0); [apply wp_remove_each|]. apply wp_ok. by rewrite seqZ_nil by lia. }
    eapply wp_mono; [exact Hrm|]. intros s2 t2 x [-> H2]. apply wp_bind. eapply wp_mono; [apply wp_write_manifests|].
    intros s3 t3 e3 H3. apply wp_done. split; [by eexists|]. by rewrite H3, H2, E.
  - unfold deleteEDeploy, DeleteStaticPodFromEdeploy. rewrite Hr. destruct (DeletionTimestamp _); [by split; [eexists|]|].
    apply (wp_if_selected _ _ (fun fs => fs = _)); intros ->; [|done]. intros s1 E. apply wp_bind. eapply wp_mono; [apply wp_delete_manifests|].
    intros s2 t2 e2 H2. apply wp_done. split; [by eexists|by rewrite H2, E].
Qed.

Lemma wp_handle_all l s : Forall tame l ->
  wp serve (handle_all Marshal JSONToYAML selector_string hostName l) (fun s' _ r => r = Ret tt /\ files s' = foldl (fun fs n => follow n fs) (files s) l) s.
Proof.
  intros Hl. revert s. induction Hl as [|n l Hn Hl IH]; intros s; [done|]. cbn [handle_all]. apply wp_bind.
  eapply wp_mono; [by apply wp_handle|]. intros s1 t1 r [[e ->] E]. eapply wp_mono; [apply IH|]. cbn beta. intros s2 t2 r [-> ->]. by rewrite E.
Qed.

(** C36: Over any sequence of notifications, each fitting what was told before, no
    handler panics and the kubelet's directory holds the manifests of exactly
    the pods of the EDeployments that select this node: each begins with the
    manifest of the present template, and is nothing else if manifests never
    get shorter ([shorter_manifest]).  The notifications are such that every
    EDeployment has a replica count and no deletion is missed ([daemon_dies]),
    an EDeployment that selects this node does so until it is deleted
    ([left_behind]) and carries no deletion timestamp when it is added or
    deleted, and one that is added again has not lost pods.  EDeployments are
    known by their names alone: those of different namespaces share their
    manifests ([namespaces_share]).  Nodes are listed, templates rendered and
    files written and removed without fail. *)
Theorem manifests_follow exact l v s :
  told_all exact v l -> mirrors exact v (files s) ->
  wp serve (handle_all Marshal JSONToYAML selector_string hostName l)
    (fun s' _ r => r = Ret tt /\ mirrors exact (foldl seen v l) (files s')) s.
Proof.
  intros Hl Hm. eapply wp_mono; [by eapply wp_handle_all, told_tame|]. intros s' t r [-> ->]. split; [done|]. by apply mirrors_all.
Qed.

End Server.
End Follow.
End StaticPods.

(** ** A node with two EDeployments *)

Module PodsDemo.

Import EDeploy StaticPods.

Definition image (pod : StaticPod string) : string + string := inl (Name (sp_meta pod) +:+ ": " +:+ other_fields (sp_Spec pod))%string.
Definition yaml (j : string) : string + string := inl j.
Definition selector (l : gmap string string) : string + api_error :=
  match l !! "zone"%string with Some z => inl z | None => inr (OtherError "selector") end.

Definition zone_nodes (z : string) : list Node :=
  if String.eqb z "west" then [mkNode (named "" "edge-1") None None None; mkNode (named "" "edge-2") None None None]
  else [mkNode (named "" "edge-3") None None None].

Definition west (z : string) : bool := String.eqb z "west".

Definition demo_serve (q : manager_request) (d : good_disk) : good_disk * (manager_answer q + api_error) :=
  match q with
  | Files q => good_serve q d
  | ListNodes sel => (d, inl (zone_nodes sel))
  end.

Definition edeploy (name rv : string) (replicas : option Z) (zone img : string) : EDeployment string :=
  mkEDeployment (named "default" name) rv replicas
    (mkPodTemplateSpec (named "" "") (mkPodSpec (Some {["zone"%string := zone]}) img)).

Definition run_all (l : list (notification string)) (fs : gmap string string) : gmap string string * outcome unit :=
  let '(d, _, r) := run demo_serve (handle_all image yaml selector "edge-2" l) (mkGoodDisk fs) in (gd_files d, r).

Definition kubelet : string := "/etc/kubernetes/manifests/kube-proxy.yaml".
Definition at_start : gmap string string := {[ kubelet := "kube-proxy"%string ]}.

Definition history : list (notification string) :=
  [Added (edeploy "web" "1" (Some 3) "west" "nginx");
   Added (edeploy "db" "2" (Some 1) "east" "mysql");
   Updated (edeploy "web" "1" (Some 3) "west" "nginx") (edeploy "web" "3" (Some 2) "west" "nginx:1.19");
   Updated (edeploy "db" "2" (Some 1) "east" "mysql") (edeploy "db" "4" (Some 1) "west" "mysql");
   Deleted (FinalState (edeploy "web" "3" (Some 2) "west" "nginx:1.19"))].

Example history_files :
  run_all history at_start = ({[ kubelet := "kube-proxy"; "/etc/kubernetes/manifests/db-1.yaml" := "db-1: mysql" ]}%string, Ret tt)
  /\ run_all (take 3 history) at_start =
     ({[ kubelet := "kube-proxy"; "/etc/kubernetes/manifests/web-1.yaml" := "web-1: nginx:1.19";
         "/etc/kubernetes/manifests/web-2.yaml" := "web-2: nginx:1.19" ]}%string, Ret tt).
Proof. split; vm_compute; reflexivity. Qed.

Lemma demo_serve_files q s : demo_serve (Files q) s = file_serve q s.
Proof. done. Qed.

Lemma demo_serve_nodes sel s : exists nodes,
  demo_serve (ListNodes sel) s = (fst (demo_serve (ListNodes sel) s), inl nodes)
  /\ existsb (fun n => String.eqb (Name (node_meta n)) "edge-2") nodes = west sel
  /\ files (fst (demo_serve (ListNodes sel) s)) = files s.
Proof. exists (zone_nodes sel). split; [done|]. split; [|done]. unfold zone_nodes, west. by destruct (String.eqb sel "west"). Qed.

Lemma kubelet_apart n i : 1 <= i -> pod_path n i <> kubelet.
Proof.
  intros Hi E. change kubelet with (KubeManifestsDir +:+ "kube-proxy" +:+ String "." "yaml")%string in E.
  unfold pod_path, manifest in E. apply (inj (String.append KubeManifestsDir)) in E.
  apply (Names.last_part "." "yaml" "yaml") in E as [E _]; [|done..].
  change "kube-proxy"%string with ("kube" +:+ String "-" "proxy")%string in E. apply (Names.last_part "-") in E as [_ E].
  - pose proof (Names.digits_Itoa i ltac:(lia)) as Hd. by rewrite E in Hd.
  - eapply all_chars_mono; [|apply Names.digits_Itoa; lia]. intros c. unfold Names.digit. intros Hc. by destruct (Ascii.eqb_spec c "-"); subst.
  - done.
Qed.

Lemma start_mirrors : mirrors image yaml selector west true ∅ at_start.
Proof.
  intros n i Hi. unfold wanted. rewrite lookup_empty. unfold at_start. apply lookup_singleton_ne. intros E. by apply (kubelet_apart n i Hi).
Qed.

(** Images of the same length or a longer one make no manifest shorter. *)
Lemma image_grows e0 e : Name (ed_meta e0) = Name (ed_meta e) ->
  (String.length (other_fields (tpl_Spec (ed_Template e0))) <= String.length (other_fields (tpl_Spec (ed_Template e))))%nat ->
  grows image yaml true e0 e.
Proof.
  intros Hn Hl _ i. unfold data, pod_data, PodToYaml, image, yaml, static_pod. cbn. rewrite !length_str_app. unfold pod_name. rewrite Hn. simpl. lia.
Qed.

Lemma history_told : told_all image yaml selector west true ∅ history.
Proof.
  cbn [told_all history]. split; [|split; [|split; [|split; [|split; [|done]]]]]; (split; [by repeat eexists|]).
  - split; [done|]. intros e0. by rewrite lookup_empty.
  - split; [done|]. intros e0. cbn. by rewrite lookup_insert_ne, lookup_empty.
  - eexists. split; [by vm_compute|]. split_and!; [done..|]. by apply image_grows; [|cbn; lia].
  - eexists. split; [by vm_compute|]. split_and!; [done..|]. by apply image_grows; [|cbn; lia].
  - eexists. split; [by vm_compute|]. by split_and!.
Qed.

Lemma manifests_follow_witness :
  wp demo_serve (handle_all image yaml selector "edge-2" history)
    (fun s' _ r => r = Ret tt /\ mirrors image yaml selector west true (foldl seen ∅ history) (files s')) (mkGoodDisk at_start).
Proof.
  apply (manifests_follow image yaml selector "edge-2" west demo_serve demo_serve_files demo_serve_nodes);
    [apply history_told|apply start_mirrors].
Defined.

Definition faulty_serve (q : manager_request) (d : node_disk) : node_disk * (manager_answer q + api_error) :=
  match q with
  | Files q => disk_serve q d
  | ListNodes sel => (d, inl (zone_nodes sel))
  end.

Definition web3 : notification string := Added (edeploy "web" "1" (Some 3) "west" "nginx").

Lemma other_files_stay_witness :
  wp faulty_serve (handle image yaml selector "edge-2" web3)
    (fun s' _ _ => forall p, ~ own web3 p -> files s' !! p = at_start !! p) (mkNodeDisk at_start [false; true; false; false; true]).
Proof.
  exact (other_files_stay image yaml selector "edge-2" faulty_serve (fun q s => eq_refl) (fun sel s => eq_refl) web3
    (mkNodeDisk at_start [false; true; false; false; true])).
Defined.

(** *** What the handlers leave *)

(** The name of the last pod ends up in the template of the informer's object. *)
Example template_renamed :
  snd (run demo_serve (addEDeploy image yaml selector "edge-2" (edeploy "web" "1" (Some 3) "west" "nginx")) (mkGoodDisk ∅))
  = Ret (set_template_name (edeploy "web" "1" (Some 3) "west" "nginx") "web-3").
Proof. by vm_compute. Qed.

(** A manifest that gets shorter keeps the end of the old one. *)
Example shorter_manifest :
  fst (run_all [Added (edeploy "web" "1" (Some 1) "west" "nginx:1.19");
                Updated (edeploy "web" "1" (Some 1) "west" "nginx:1.19") (edeploy "web" "2" (Some 1) "west" "httpd")] ∅)
  = {[ "/etc/kubernetes/manifests/web-1.yaml" := "web-1: httpd:1.19" ]}%string.
Proof. by vm_compute. Qed.

(** An update that selects other nodes leaves the pods on this one. *)
Example left_behind :
  fst (run_all [Added (edeploy "web" "1" (Some 1) "west" "nginx");
                Updated (edeploy "web" "1" (Some 1) "west" "nginx") (edeploy "web" "2" (Some 1) "east" "nginx");
                Deleted (FinalState (edeploy "web" "2" (Some 1) "east" "nginx"))] ∅)
  = {[ "/etc/kubernetes/manifests/web-1.yaml" := "web-1: nginx" ]}%string.
Proof. by vm_compute. Qed.

(** EDeployments of one name in two namespaces share their manifests. *)
Example namespaces_share :
  let web ns img := mkEDeployment (named ns "web") "1" (Some 1)
    (mkPodTemplateSpec (named "" "") (mkPodSpec (Some {["zone"%string := "west"%string]}) img)) in
  fst (run_all [Added (web "blue" "nginx"); Added (web "green" "httpd"); Deleted (FinalState (web "green" "httpd"))] ∅) = ∅.
Proof. by vm_compute. Qed.

(** Without replicas, or when a deletion was missed, the daemon dies. *)
Example daemon_dies :
  snd (run_all [Added (edeploy "web" "1" None "west" "nginx")] ∅) = nil_replicas
  /\ snd (run_all [Deleted (DeletedFinalStateUnknown "default/web")] ∅) = Panic "interface conversion".
Proof. by vm_compute. Qed.

End PodsDemo.
