(* ===== verification/HelperFacts.v ===== *)
(** * What the helper job does (pkg/helper-job)

    Module [Ready] holds whatever fails: a node is not labelled unless its
    kubelet was restarted, seen healthy and seen ready.  Module [Calm] gives
    what the jobs do to the files and the labels when the node and the cluster
    answer: a master that is changed and reverted has its manifest back, a
    changed node has the files of the lite API server.  [HelperDemo] runs the
    jobs on a node, also where they do not do what they mean to. *)

From Stdlib Require Import ZArith Lia Ascii String.
From stdpp Require Import base strings gmap numbers sorting list.
From S2P Require Import Prelude.
From S2P Require Import GoStd.
From S2P Require Import GoStrings.
From S2P Require Import GoTemplate.
From S2P Require Import K8s.
From S2P Require Import Requests.
From S2P Require Import KubeNode.
From S2P Require Import NodeFiles.
From S2P Require Import PenetratorJob.
From S2P Require Import HelperJob.

Local Open Scope Z_scope.
Local Open Scope go_scope.

(** ** Labels come last *)

Module Ready.

Import Helper.

Section Ready.
Context {Client : Type} `{GoRange} (attempts : nat) (LoadConfig : string -> Kubeconfig + string) (WriteConfig : Kubeconfig -> string + string).

Notation rq := (helper_request Client).
Notation job A := (act (helper_answer (Client := Client)) helper_error A).

(** The request that labels a node as an edge node. *)
Definition labels_edge (q : rq) : Prop :=
  match q with
  | Api (UpdateNode n) => mp (Labels (node_meta n)) !! EdgeNodeLabelKey = Some enable
  | _ => False
  end.

(** Why a kubelet is not at work: systemctl fails, the health check fails, or
    the lite API server never shows its node ready. *)
Inductive trouble : Type := NoRestart | Unhealthy | NotReady.

Definition troubled (c : trouble) (q : rq) : helper_answer q + api_error -> Prop :=
  match c, q return helper_answer q + api_error -> Prop with
  | NoRestart, ShellCommand _ => fun r => exists e, r = inr e
  | Unhealthy, HttpGet _ => fun r => r <> inl 200
  | NotReady, NodeWith _ _ => fun r => match r with inl n => IsReadyNode n = false | inr _ => True end
  | _, _ => fun _ => True
  end.

Notation quiet := (all_requests (fun q : rq => ~ labels_edge q)).
Notation safe c := (under (troubled c) (fun q : rq => ~ labels_edge q)).

Lemma quiet_files {A : Type} (p : act file_answer api_error A) : quiet (on_files p).
Proof. apply all_map_error, all_lift, all_of_all. by intros q []. Qed.

Lemma quiet_ask q : ~ labels_edge q -> quiet (ask q).
Proof. intros Hq. by apply all_map_error, all_call. Qed.

Lemma quiet_check name l : quiet (on_api_once (CheckNodeLabel name l)).
Proof. apply all_map_error, all_lift. split; [by intros []|]. by intros [|]. Qed.

Lemma quiet_running n i pod : quiet (isRunningLiteAPIServer n i pod).
Proof.
  revert i. induction n as [|n IH]; intros i; [done|]. split; [by intros []|]. intros _. split; [by intros []|].
  intros [phase|e]; cbn [bind call]; [|apply IH]. destruct (String.eqb phase _); [done|apply IH].
Qed.

(** Taking the label away is not putting it on. *)
Lemma quiet_unlabel name : quiet (on_api (DeleteNodeLabel attempts name nodeLabel)).
Proof.
  apply all_map_error, all_lift. unfold DeleteNodeLabel. apply all_bind; [|done].
  induction attempts as [|a IH]; [done|]. cbn [poll]. apply all_bind; [|intros [[] [[]|e]]; [done|exact IH|done]].
  split; [by intros []|]. intros [n|e]; [|done]. cbn [bind call get_node update_node]. split; [|by intros [|]].
  cbn. unfold without_labels. destruct (Labels (node_meta n)) as [l|]; cbn; [|by rewrite lookup_empty].
  intros Hl. apply map_lookup_filter_Some in Hl as [_ Hl]. apply Hl. by vm_compute.
Qed.

Lemma quiet_deployed name : quiet (isDeployLiteAPIServer attempts name).
Proof.
  unfold isDeployLiteAPIServer. apply all_andthen; [apply quiet_check|]. intros isLabel. apply all_bind; [apply quiet_running|].
  intros isRunning. destruct (isLabel && isRunning); [done|]. destruct (negb isRunning && isLabel); [|done].
  apply all_andthen; [apply quiet_unlabel|done].
Qed.

Lemma quiet_static fuel i path c e : quiet (writeStaticYaml fuel i path c e).
Proof.
  revert i e. induction fuel as [|fuel IH]; intros i e; [done|]. cbn [writeStaticYaml]. destruct (negb _); [by destruct e|].
  apply all_bind.
  - apply all_bind; [apply all_lift, all_of_all; by intros q []|]. intros [|]; [apply quiet_files|done].
  - intros [u|err]; [|split; [by intros []|intros _; apply IH]]. apply all_bind; [apply quiet_files|]. intros [u'|err]; [done|apply IH].
Qed.

Lemma quiet_deploy fuel ip name : quiet (deployLiteAPIServer fuel ip name).
Proof.
  unfold deployLiteAPIServer. apply all_andthen.
  - unfold completeLiteApiServer. apply all_andthen; [apply quiet_ask; by intros []|]. intros cm.
    do 2 (apply all_andthen; [apply quiet_files|intros _]). apply all_each. intros kv _. apply quiet_files.
  - intros _. apply all_andthen; [apply quiet_files|]. intros yaml. destruct (String.eqb name _); [done|].
    destruct (Install.CompleteTemplate _ _); [|done]. apply all_andthen; [apply quiet_files|]. intros _. apply quiet_static.
Qed.

Lemma quiet_config src dst : quiet (updateKubeletConfig LoadConfig WriteConfig src dst).
Proof.
  unfold updateKubeletConfig. apply all_andthen; [apply quiet_files|]. intros bytes. destruct (LoadConfig bytes); [|done].
  destruct (WriteConfig _); [|done]. apply all_andthen; [apply quiet_files|]. intros _. apply quiet_files.
Qed.

Lemma quiet_healthz : quiet (checkKubeletHealthz attempts).
Proof. unfold checkKubeletHealthz. induction attempts as [|a IH]; [done|]. cbn [poll_until]. split; [by intros []|]. intros r. cbn [bind]. by case_match. Qed.

Lemma quiet_ready n c name : quiet (isRunningKubelet n c name).
Proof.
  induction n as [|n IH]; [done|]. cbn [isRunningKubelet]. split; [by intros []|]. intros _. split; [by intros []|].
  intros [node|e]; cbn [bind call]; [|exact IH]. destruct (IsReadyNode node); [done|exact IH].
Qed.

(** A part that is quiet, and one that does not succeed. *)
Lemma quiet_then {A B : Type} c (m : job A) (f : A -> job B) Q :
  quiet m -> (forall e, Q (inr e)) -> (forall a, safe c Q (f a)) -> safe c Q (andthen m f).
Proof. intros Hm He Hf. eapply (under_andthen _ _ (fun _ => True)); [|exact He|intros a _; apply Hf]. eapply under_mono; [by apply under_all|]. by intros [a|e] _. Qed.

Lemma stuck_then {A B : Type} c (m : job A) (f : A -> job B) Q :
  safe c (fun r => exists e, r = inr e) m -> (forall e, Q (inr e)) -> safe c Q (andthen m f).
Proof.
  intros Hm He. eapply (under_andthen _ _ (fun _ => False)); [|exact He|done]. eapply under_mono; [exact Hm|]. by intros r [e ->].
Qed.

Lemma shell_stuck cmd : safe NoRestart (fun r => exists e, r = inr e) (shell cmd).
Proof. split; [by intros []|]. intros r [e ->]. by eexists. Qed.

Lemma healthz_stuck : safe Unhealthy (fun r => exists e, r = inr e) (checkKubeletHealthz attempts).
Proof.
  unfold checkKubeletHealthz. induction attempts as [|a IH]; [by eexists|]. cbn [poll_until]. split; [by intros []|]. cbn [bind].
  intros [status|e] Hr; [|exact IH]. destruct (Z.eqb_spec status 200) as [->|]; [by destruct Hr|exact IH].
Qed.

Lemma never_ready n cl name : safe NotReady (fun r => r = false) (isRunningKubelet n cl name).
Proof.
  induction n as [|n IH]; [done|]. cbn [isRunningKubelet]. split; [by intros []|]. intros _ _. split; [by intros []|].
  intros [node|e] Hr; cbn [bind call]; [|exact IH]. by rewrite Hr.
Qed.

Lemma restart_safe c name : safe c (fun r => exists e, r = inr e) (restartKubelet attempts LoadConfig WriteConfig name).
Proof.
  unfold restartKubelet. apply quiet_then; [apply quiet_config|by eexists|intros _].
  apply quiet_then; [apply quiet_files|by eexists|intros _].
  destruct c; [apply stuck_then; [apply shell_stuck|by eexists]|..];
    (do 2 (apply quiet_then; [apply quiet_ask; by intros []|by eexists|intros _]));
    [apply stuck_then; [apply healthz_stuck|by eexists]|].
  apply quiet_then; [apply quiet_healthz|by eexists|intros _]. apply quiet_then; [apply quiet_ask; by intros []|by eexists|intros cl].
  eapply under_bind; [apply never_ready|]. intros r ->. by eexists.
Qed.

(** C39: While systemctl fails, the kubelet's health check fails, or its node does
    not get ready behind the lite API server, the job never labels the node,
    however the rest of its requests are answered. *)
Theorem labelled_when_ready {St : Type} (serve : forall q : rq, St -> St * (helper_answer q + api_error)) (c : trouble)
    (fuel : nat) (masterIP nodeName : string) (s : St) :
  (forall q s, troubled c q (snd (serve q s))) ->
  wp serve (changeNodeJob attempts LoadConfig WriteConfig fuel masterIP nodeName) (fun _ t _ => Forall (fun q => ~ labels_edge q) t) s.
Proof.
  intros Hc. eapply wp_mono; [apply (wp_under serve (troubled c) (fun q => ~ labels_edge q) (fun _ => True)); [exact Hc|]|by intros s' t r []].
  unfold changeNodeJob. apply quiet_then; [apply quiet_deployed|done|]. intros [|]; [done|].
  apply quiet_then; [apply quiet_deploy|done|]. intros _. eapply under_mono; [apply restart_safe|done].
Qed.

End Ready.
End Ready.

(** ** When the node and the cluster answer *)

Module Calm.

Import Helper.

Section Calm.
Context {Client : Type} `{GoRange} {St : Type} `{!NodeFiles St} `{!ReliableFiles St}.
Context (serve : forall q : helper_request Client, St -> St * (helper_answer q + api_error)) (labels : St -> gmap string string).
Context (nodeName : string) (masters : list Node) (dns : string) (certs : gmap string string).

(** The node's labels are kept by the API server, its files by the disk, and
    every other request is answered as on a healthy cluster. *)
Record calm : Prop := {
  calm_files : forall q s, serve (Files q) s = file_serve q s;
  calm_labels : forall q s, labels (fst (file_serve q s)) = labels s;
  calm_get : forall s, exists n, serve (Api (GetNode nodeName)) s = (s, inl n) /\ mp (Labels (node_meta n)) = labels s;
  calm_update : forall n s, exists s', serve (Api (UpdateNode n)) s = (s', inl tt) /\ files s' = files s /\ labels s' = mp (Labels (node_meta n));
  calm_list : forall s, serve ListAllNodes s = (s, inl masters);
  calm_dns : forall s, serve (GetClusterIP NamespaceEdgeSystem "tunnel-coredns") s = (s, inl dns);
  calm_certs : forall s, serve (GetConfigMapData NamespaceEdgeSystem EDGE_CERT_CM) s = (s, inl (Some certs));
  calm_pod : forall p s, exists r, serve (GetPodPhase NamespaceEdgeSystem p) s = (s, r);
  calm_shell : forall cmd s, serve (ShellCommand cmd) s = (s, inl tt);
  calm_http : forall s, serve (HttpGet KubeletHealthzURl) s = (s, inl 200);
  calm_client : forall f s, exists c, serve (GetClientSet f) s = (s, inl c);
  calm_node : forall c s, exists n, serve (NodeWith c nodeName) s = (s, inl n) /\ IsReadyNode n = true;
  calm_healthz : forall c s, serve (HealthzWith c) s = (s, inl 200);
  calm_sleep : forall n s, fst (serve (Sleep n) s) = s
}.

Hypothesis quiet_day : calm.

Notation job A := (act (helper_answer (Client := Client)) helper_error A).
Notation yields m E := (wp serve m (fun s' _ r => exists a, r = inl a /\ E a s')).

Lemma wp_then {A B : Type} (m : job A) (f : A -> job B) (E : A -> St -> Prop) (Q : St -> B + helper_error -> Prop) s :
  yields m E s -> (forall a s1, E a s1 -> wp serve (f a) (fun s2 _ r => Q s2 r) s1) -> wp serve (andthen m f) (fun s2 _ r => Q s2 r) s.
Proof. intros Hm Hf. apply wp_andthen. eapply wp_mono; [exact Hm|]. intros s1 t1 r (a & -> & Ha). eapply wp_mono; [by apply Hf|]. done. Qed.

Lemma wp_lifted {A : Type} (p : prog file_answer A) (Q : A -> gmap string string -> Prop) s :
  wp file_serve p (fun s' _ a => Q a (files s')) s ->
  wp serve (lift Files (fun _ a => a) p) (fun s' _ a => Q a (files s') /\ labels s' = labels s) s.
Proof.
  intros Hp. apply (wp_embedded serve Files (fun _ a => a) p (fun s' a => Q a (files s') /\ labels s' = labels s)).
  - intros q s1. unfold served. rewrite (calm_files quiet_day). by destruct (file_serve q s1) as [s2 [a|e]].
  - assert (wp file_serve p (fun s' _ _ => labels s' = labels s) s) as Hl.
    { apply (wp_invariant file_serve p (fun s' => labels s' = labels s)); [|done]. intros q s1 <-. apply (calm_labels quiet_day). }
    exact (wp_conj file_serve _ _ _ _ Hp Hl).
Qed.

Lemma wp_node_files {A : Type} (p : act file_answer api_error A) (E : A -> gmap string string -> Prop) s :
  wp file_serve p (fun s' _ r => exists a, r = inl a /\ E a (files s')) s ->
  yields (on_files p) (fun a s' => E a (files s') /\ labels s' = labels s) s.
Proof.
  intros Hp. unfold on_files, map_error. apply wp_bind.
  eapply wp_mono; [apply (wp_lifted p (fun r fs => exists a, r = inl a /\ E a fs)); exact Hp|].
  intros s1 t r [(a & -> & Ha) Hl]. apply wp_done. by exists a.
Qed.

Lemma wp_answer q a s : serve q s = (s, inl a) -> yields (ask q) (fun a' s' => a' = a /\ s' = s) s.
Proof. intros E. unfold ask, map_error. apply wp_bind, wp_call. rewrite E. apply wp_done. by exists a. Qed.

(** *** Labels *)

Definition unlabelled (l m : gmap string string) : gmap string string := filter (fun '(k, v) => l !! k <> Some v) m.

Lemma wp_check l s : yields (on_api_once (CheckNodeLabel nodeName l)) (fun a s' => a = bool_decide (mp l ⊆ labels s) /\ s' = s) s.
Proof.
  destruct (calm_get quiet_day s) as (n & E & Hn). unfold on_api_once, map_error, CheckNodeLabel. apply wp_bind, wp_lift. apply wp_andthen, (wp_call (served Api (fun _ a => a) serve) (GetNode nodeName)).
  unfold served. rewrite E. cbn [fst snd]. apply wp_done. rewrite Hn. by eexists.
Qed.

Lemma wp_add_label k l s :
  yields (on_api (AddNodeLabel (S k) nodeName l)) (fun _ s' => files s' = files s /\ labels s' = mp l ∪ labels s) s.
Proof.
  destruct (calm_get quiet_day s) as (n & E & Hn). unfold on_api, map_error, AddNodeLabel. apply wp_bind, wp_lift. cbn [poll].
  apply wp_bind. apply wp_bind. apply wp_bind. apply (wp_call (served Api (fun _ a => a) serve) (GetNode nodeName)). unfold served. rewrite E. cbn [fst snd].
  apply wp_bind. apply (wp_call (served Api (fun _ a => a) serve) (UpdateNode _)).
  destruct (calm_update quiet_day (with_node_labels n (Some (mp l ∪ mp (Labels (node_meta n))))) s) as (s' & E' & Hf & Hl).
  unfold served. rewrite E'. cbn [fst snd]. repeat apply wp_done. exists tt. split; [done|]. split; [done|]. by rewrite Hl, <- Hn.
Qed.

Lemma wp_delete_label k l s :
  yields (on_api (DeleteNodeLabel (S k) nodeName l)) (fun _ s' => files s' = files s /\ labels s' = unlabelled (mp l) (labels s)) s.
Proof.
  destruct (calm_get quiet_day s) as (n & E & Hn). unfold on_api, map_error, DeleteNodeLabel. apply wp_bind, wp_lift. cbn [poll].
  apply wp_bind. apply wp_bind. apply wp_bind. apply (wp_call (served Api (fun _ a => a) serve) (GetNode nodeName)). unfold served. rewrite E. cbn [fst snd].
  apply wp_bind. apply (wp_call (served Api (fun _ a => a) serve) (UpdateNode _)).
  destruct (calm_update quiet_day (with_node_labels n (without_labels l (Labels (node_meta n)))) s) as (s' & E' & Hf & Hl).
  unfold served. rewrite E'. cbn [fst snd]. repeat apply wp_done. exists tt. split; [done|]. split; [done|]. rewrite Hl, <- Hn.
  cbn. unfold unlabelled, without_labels. by destruct (Labels (node_meta n)).
Qed.

(** *** Masters *)

(** The hosts file with the masters it did not have. *)
Definition with_masters (h : string) : string := h +:+ new_hosts h (masters_of masters).

Lemma wp_read p c s : files s !! p = Some c -> yields (on_files (ReadFile p)) (fun a s' => (files s' = files s /\ a = c) /\ labels s' = labels s) s.
Proof.
  intros Hp. eapply wp_mono; [apply (wp_node_files (ReadFile p) (fun a fs => fs = files s /\ a = c)); eapply wp_mono; [apply (sure_request (ReadAll p)); by exists c|]|done].
  cbn. intros s' _ r (a & -> & -> & Ha). exists a. split_and!; [done..|]. rewrite Hp in Ha. by injection Ha.
Qed.

Lemma wp_bufio p c s :
  yields (on_files (WriteWithBufio p c)) (fun _ s' => files s' = <[p := overwrite (content (files s) p) c]> (files s) /\ labels s' = labels s) s.
Proof. apply (wp_node_files (WriteWithBufio p c) (fun _ fs => fs = <[p := overwrite (content (files s) p) c]> (files s))), sure_WriteWithBufio. Qed.

Lemma wp_write_anyway p c s :
  yields (write_anyway p c) (fun _ s' => files s' = <[p := overwrite (content (files s) p) c]> (files s) /\ labels s' = labels s) s.
Proof.
  unfold write_anyway. apply wp_bind. eapply wp_mono; [apply wp_bufio|]. intros s1 t r (a & -> & Hs). apply wp_ok. by exists tt.
Qed.

Lemma wp_addMasterHosts h s : files s !! MasterHostsFilePath = Some h ->
  yields addMasterHosts (fun _ s' => files s' = <[MasterHostsFilePath := with_masters h]> (files s) /\ labels s' = labels s) s.
Proof.
  intros Hh. unfold addMasterHosts. eapply wp_then; [by apply wp_read|]. intros a s1 [[Hf ->] Hl]. cbn beta.
  eapply (wp_then GetMasterHosts _ (fun m s' => m = masters_of masters /\ s' = s1)).
  - unfold GetMasterHosts. eapply wp_then; [apply (wp_answer ListAllNodes), (calm_list quiet_day)|]. intros ns s2 [-> ->]. apply wp_ok. by eexists.
  - intros m s2 [-> ->]. eapply wp_mono; [apply (wp_node_files (WriteWithAppend _ _) (fun _ fs => fs = <[MasterHostsFilePath := content (files s1) MasterHostsFilePath +:+ new_hosts h (masters_of masters)]> (files s1))), sure_WriteWithAppend|].
    intros s3 t r (b & -> & E & Hl3). exists b. split; [done|]. rewrite E, Hl3, Hf, Hl. unfold content, with_masters. by rewrite Hh.
Qed.

Lemma wp_coredns fuel s : yields (tunnel_coredns (S fuel)) (fun ip s' => ip = dns /\ s' = s) s.
Proof.
  cbn [tunnel_coredns]. apply wp_bind, (wp_call serve (GetClusterIP _ _)). rewrite (calm_dns quiet_day). apply wp_ok. by eexists.
Qed.

Section Masters.
Context (DecodePod : string -> option ApiPod + string) (MarshalPod : ApiPod -> string + string) (JSONToYAML : string -> string + string).

(** The pod with the flag and the name server. *)
Definition changed_pod (pod : ApiPod) : ApiPod :=
  with_dns pod
    (match sl (Containers pod) with
     | [] => Containers pod
     | c :: cs => Some (mkContainer (preferred_hostname <$> Command c) (container_rest c) :: cs)
     end) dns.

(** The manifest of the API server, and what is written for it. *)
Record api_manifest (c : string) (pod : ApiPod) (data : string) : Prop := {
  am_decodes : DecodePod c = inl (Some pod);
  am_container : sl (Containers pod) <> [];
  am_dns : dns <> EmptyString;
  am_encodes : exists j, MarshalPod (changed_pod pod) = inl j /\ JSONToYAML j = inl data
}.

Definition master_files (h c data : string) (fs : gmap string string) : gmap string string :=
  <[KubeAPIServerSrcYamlPath := overwrite c data]>
    (<[KubeAPIServerBackUPYamlPath := overwrite (content fs KubeAPIServerBackUPYamlPath) c]>
      (<[MasterHostsFilePath := with_masters h]> fs)).

Lemma wp_writeKubeAPIYaml fuel c pod data s : files s !! KubeAPIServerSrcYamlPath = Some c -> api_manifest c pod data ->
  yields (writeKubeAPIYaml DecodePod MarshalPod JSONToYAML (S fuel) KubeAPIServerSrcYamlPath KubeAPIServerBackUPYamlPath)
    (fun _ s' => files s' = <[KubeAPIServerSrcYamlPath := overwrite c data]>
                              (<[KubeAPIServerBackUPYamlPath := overwrite (content (files s) KubeAPIServerBackUPYamlPath) c]> (files s))
                 /\ labels s' = labels s) s.
Proof.
  intros Hc [Hd Hcs Hdns (j & Hj & Hy)]. unfold writeKubeAPIYaml. eapply wp_then; [by apply wp_read|]. intros a s1 [[Hf1 ->] Hl1].
  eapply wp_then; [apply wp_write_anyway|]. intros _ s2 [Hf2 Hl2]. rewrite Hd.
  eapply (wp_then (updateKubeAPIPod (S fuel) pod) _ (fun p s' => p = changed_pod pod /\ s' = s2)).
  - unfold updateKubeAPIPod, changed_pod. destruct (sl (Containers pod)) as [|c0 cs]; [done|].
    eapply wp_then; [apply wp_coredns|]. intros ip s3 [-> ->]. destruct (String.eqb_spec dns EmptyString); [done|]. apply wp_ok. by eexists.
  - intros p s3 [-> ->]. rewrite Hj, Hy. eapply wp_mono; [apply wp_write_anyway|]. intros s4 t r (b & -> & Hf4 & Hl4). exists b.
    split; [done|]. rewrite Hf4, Hl4, Hl2, Hf2, Hf1. split; [|done]. f_equal. unfold content. by rewrite lookup_insert_ne, Hc.
Qed.

Lemma wp_changeMasterJob k fuel h c pod data s :
  files s !! MasterHostsFilePath = Some h -> files s !! KubeAPIServerSrcYamlPath = Some c -> api_manifest c pod data ->
  ~ mp masterLabel ⊆ labels s ->
  yields (changeMasterJob (S k) DecodePod MarshalPod JSONToYAML (S fuel) nodeName)
    (fun _ s' => files s' = master_files h c data (files s) /\ labels s' = mp masterLabel ∪ labels s) s.
Proof.
  intros Hh Hc Ham Hl. unfold changeMasterJob. eapply wp_then; [by apply wp_addMasterHosts|]. intros _ s1 [Hf1 Hl1].
  eapply wp_then; [apply wp_check|]. intros b s2 [-> ->]. rewrite bool_decide_eq_false_2 by by rewrite Hl1.
  eapply wp_then; [eapply wp_writeKubeAPIYaml; [by rewrite Hf1, lookup_insert_ne|done]|]. intros _ s3 [Hf3 Hl3].
  eapply wp_mono; [apply wp_add_label|]. intros s4 t r (b & -> & Hf4 & Hl4). exists b. split; [done|].
  rewrite Hf4, Hl4, Hl3, Hl1, Hf3, Hf1. split; [|done]. unfold master_files. do 2 f_equal. unfold content. by rewrite lookup_insert_ne.
Qed.

Lemma wp_revertMasterJob k s : is_Some (files s !! KubeAPIServerBackUPYamlPath) ->
  yields (revertMasterJob (S k) nodeName)
    (fun _ s' => files s' = <[KubeAPIServerSrcYamlPath := content (files s) KubeAPIServerBackUPYamlPath]> (delete KubeAPIServerBackUPYamlPath (files s))
                 /\ labels s' = unlabelled (mp (reverted_labels EdgeMasterLabelKey)) (labels s)) s.
Proof.
  intros Hb. unfold revertMasterJob.
  eapply wp_then; [apply (wp_node_files (rename_path _ _) (fun _ fs => fs = effect (RenamePath KubeAPIServerBackUPYamlPath KubeAPIServerSrcYamlPath) (files s)))|].
  { eapply wp_mono; [by apply (sure_request (RenamePath KubeAPIServerBackUPYamlPath KubeAPIServerSrcYamlPath))|]. cbn. intros s' _ r (a & -> & E & _). by exists a. }
  intros _ s1 [Hf1 Hl1]. eapply (wp_then (isRunningMaster (S k)) _ (fun _ s' => s' = s1)).
  - unfold isRunningMaster. cbn [poll_until]. apply wp_bind, wp_bind, (wp_call serve (GetClientSet _)).
    destruct (calm_client quiet_day EmptyString s1) as [cl E]. rewrite E. cbn [fst snd].
    apply wp_bind, (wp_call serve (HealthzWith cl)). rewrite (calm_healthz quiet_day). by exists tt.
  - intros _ s2 ->. eapply wp_mono; [apply wp_delete_label|]. intros s3 t r (b & -> & Hf & Hl). exists b. by rewrite Hf, Hl, Hf1, Hl1.
Qed.

(** C37: A master that is changed and then reverted: both jobs succeed, the API
    server has its manifest back byte for byte, the backup is gone, the hosts
    file has the lines of the masters it did not have, no other file has
    changed; the master's label and an enabled change label are gone, the other
    labels are as before.  At the start there is a hosts file, a manifest that
    decodes to a pod with a container and whose changed form encodes, no backup
    of an earlier change and no master label, and every request, of the files
    and of the cluster, is answered without an error.  A change that failed and
    was retried is not undone: the backup is then the changed manifest
    ([retried_backup]). *)
Theorem master_roundtrip (k fuel : nat) (h c data : string) (pod : ApiPod) (s : St)
    (Hhosts : files s !! MasterHostsFilePath = Some h) (Hsrc : files s !! KubeAPIServerSrcYamlPath = Some c)
    (Hbackup : files s !! KubeAPIServerBackUPYamlPath = None) (Hmanifest : api_manifest c pod data)
    (Hnew : labels s !! EdgeMasterLabelKey = None) :
  wp serve (do! changeMasterJob (S k) DecodePod MarshalPod JSONToYAML (S fuel) nodeName in revertMasterJob (S k) nodeName)
    (fun s' _ r => r = inl tt
      /\ files s' = <[MasterHostsFilePath := with_masters h]> (files s)
      /\ labels s' = unlabelled {[ EdgeChangeLabelKey := enable ]} (labels s)) s.
Proof.
  eapply wp_then.
  { eapply wp_changeMasterJob; [done..|]. intros Hl%(fun Hs => lookup_weaken _ _ EdgeMasterLabelKey enable (lookup_singleton_eq _ _) Hs). congruence. }
  intros _ s1 [Hf1 Hl1]. assert (files s1 !! KubeAPIServerBackUPYamlPath = Some c) as Hb.
  { rewrite Hf1. unfold master_files, content. rewrite lookup_insert_ne, lookup_insert_eq, Hbackup by done. cbn [default]. by rewrite overwrite_empty. }
  eapply wp_mono; [by apply wp_revertMasterJob; exists c|]. intros s2 t r ([] & -> & Hf2 & Hl2). split; [done|].
  rewrite Hf2, Hl2, Hl1, Hf1. unfold content. rewrite <- Hf1, Hb, Hf1. cbn [default]. split.
  - apply map_eq. intros p. unfold master_files. destruct (decide (p = KubeAPIServerSrcYamlPath)) as [->|Hp].
    { by rewrite lookup_insert_eq, lookup_insert_ne, Hsrc. }
    rewrite lookup_insert_ne by done. destruct (decide (p = KubeAPIServerBackUPYamlPath)) as [->|Hp'].
    { by rewrite lookup_delete_eq, lookup_insert_ne, Hbackup. }
    by rewrite lookup_delete_ne, lookup_insert_ne, lookup_insert_ne.
  - apply map_eq. intros p. unfold unlabelled. apply option_eq. intros v. rewrite !map_lookup_filter_Some.
    change (mp (reverted_labels EdgeMasterLabelKey)) with (<[EdgeChangeLabelKey := enable]> {[ EdgeMasterLabelKey := enable ]} : gmap string string).
    change (mp masterLabel) with ({[ EdgeMasterLabelKey := enable ]} : gmap string string).
    destruct (decide (p = EdgeMasterLabelKey)) as [->|Hp].
    + rewrite (lookup_union_Some_l _ _ _ enable) by apply lookup_singleton_eq. rewrite Hnew. split; [|by intros []]. intros [[= <-] Hv]. destruct Hv.
      by rewrite lookup_insert_ne, lookup_singleton_eq by done.
    + rewrite lookup_union_r by by apply lookup_singleton_ne. destruct (decide (p = EdgeChangeLabelKey)) as [->|Hp'].
      * by rewrite lookup_insert_eq, lookup_singleton_eq.
      * by rewrite lookup_insert_ne, !lookup_singleton_ne by done.
Qed.

End Masters.

(** *** Nodes *)

Context (LoadConfig : string -> Kubeconfig + string) (WriteConfig : Kubeconfig -> string + string).

Definition in_edge (k : string) : string := KubeadmKubeletEdgeCert +:+ k.

#[local] Instance in_edge_inj : Inj (=) (=) in_edge.
Proof. intros k k'. apply (inj (String.append KubeadmKubeletEdgeCert)). Qed.

(** The directory of the edge certificates, as the config map has it. *)
Definition edge_dir (fs : gmap string string) : gmap string string :=
  kmap in_edge certs ∪ outside KubeadmKubeletEdgeCert fs.

Lemma prefix_app (d k : string) : String.prefix d (d +:+ k) = true.
Proof.
  induction d as [|c d IH]; [by destruct k|]. change (String c d +:+ k) with (String c (d +:+ k)). cbn [String.prefix].
  destruct (ascii_dec c c); [exact IH|done].
Qed.

Lemma in_edge_prefix k : String.prefix KubeadmKubeletEdgeCert (in_edge k) = true.
Proof. apply prefix_app. Qed.

Lemma edge_dir_outside fs p : String.prefix KubeadmKubeletEdgeCert p = false -> edge_dir fs !! p = fs !! p.
Proof.
  intros Hp. unfold edge_dir. rewrite lookup_union_r.
  - unfold outside. apply option_eq. intros v. rewrite map_lookup_filter_Some. naive_solver.
  - apply lookup_kmap_None; [apply _|]. intros k ->. by rewrite in_edge_prefix in Hp.
Qed.

Lemma edge_dir_cert fs k c : certs !! k = Some c -> edge_dir fs !! in_edge k = Some c.
Proof. intros Hk. unfold edge_dir. apply lookup_union_Some_l. by rewrite (lookup_kmap in_edge). Qed.

Notation prefixed := (fun l : list (string * string) => list_to_map (M := gmap string string) (prod_map in_edge id <$> l)).

Lemma prefixed_fst (l : list (string * string)) : (prod_map in_edge id <$> l).*1 = in_edge <$> l.*1.
Proof. induction l as [|[k c] l IH]; [done|]. by rewrite !fmap_cons, IH. Qed.

Lemma certs_kmap : prefixed (go_range certs) = kmap in_edge certs.
Proof.
  unfold kmap. apply list_to_map_proper; [|by rewrite go_range_perm]. rewrite prefixed_fst.
  apply NoDup_fmap_2; [apply _|apply NoDup_go_range_fst].
Qed.

(** A certificate that is written for the first time. *)
Lemma add_cert done k c fs : k ∉ done.*1 ->
  <[in_edge k := overwrite (content (prefixed done ∪ outside KubeadmKubeletEdgeCert fs) (in_edge k)) c]> (prefixed done ∪ outside KubeadmKubeletEdgeCert fs)
  = prefixed (done ++ [(k, c)]) ∪ outside KubeadmKubeletEdgeCert fs.
Proof.
  intros Hk. assert (in_edge k ∉ (prod_map in_edge id <$> done).*1) as Hk'.
  { rewrite prefixed_fst. intros (k' & E & Hin)%list_elem_of_fmap. apply (inj in_edge) in E. by subst. }
  assert (outside KubeadmKubeletEdgeCert fs !! in_edge k = None) as Ho.
  { unfold outside. apply map_lookup_filter_None. right. intros x _. cbn. by rewrite in_edge_prefix. }
  unfold content. rewrite lookup_union_r by by apply not_elem_of_list_to_map_1. rewrite Ho. cbn [default]. rewrite overwrite_empty.
  rewrite fmap_app. cbn [fmap list_fmap]. change (prod_map in_edge id (k, c)) with (in_edge k, c).
  rewrite list_to_map_snoc by done. by rewrite insert_union_l.
Qed.

Lemma wp_completeLiteApiServer s :
  yields completeLiteApiServer (fun _ s' => files s' = edge_dir (files s) /\ labels s' = labels s) s.
Proof.
  unfold completeLiteApiServer. eapply wp_then; [apply (wp_answer (GetConfigMapData _ _)), (calm_certs quiet_day)|]. intros cm s0 [-> ->].
  eapply wp_then; [apply (wp_node_files (remove_tree _) (fun _ fs => fs = outside KubeadmKubeletEdgeCert (files s)))|].
  { eapply wp_mono; [apply (sure_request (RemoveTree KubeadmKubeletEdgeCert)); exact I|]. cbn. intros s' _ r (a & -> & E & _). by exists a. }
  intros _ s1 [Hf1 Hl1]. eapply wp_then; [apply (wp_node_files (make_dirs _) (fun _ fs => fs = files s1))|].
  { eapply wp_mono; [apply (sure_request (MakeDirs KubeadmKubeletEdgeCert)); exact I|]. cbn. intros s' _ r (a & -> & E & _). by exists a. }
  intros _ s2 [Hf2 Hl2]. eapply wp_mono; [apply (wp_each serve _ (go_range certs) (fun done s' _ =>
    files s' = list_to_map (prod_map in_edge id <$> done) ∪ outside KubeadmKubeletEdgeCert (files s) /\ labels s' = labels s))|].
  - cbn. by rewrite Hl2, Hl1, Hf2, Hf1, (left_id_L ∅ (∪)).
  - intros done [k c] todo s3 t Hgo [Hf3 Hl3]. eapply wp_mono; [apply wp_bufio|]. intros s4 t4 r (a & -> & Hf4 & Hl4).
    split; [by destruct a|]. split; [|by rewrite Hl4]. rewrite Hf4, Hf3. apply add_cert.
    pose proof (NoDup_go_range_fst certs) as Hnd. rewrite Hgo, fmap_app, fmap_cons in Hnd. apply NoDup_app in Hnd as (_ & Hnd & _).
    intros Hk. destruct (Hnd k Hk). by left.
  - intros s3 t r (-> & Hf & Hl). exists tt. rewrite Hf, Hl. by rewrite certs_kmap.
Qed.

Lemma wp_make_dirs d s : yields (on_files (make_dirs d)) (fun _ s' => files s' = files s /\ labels s' = labels s) s.
Proof.
  apply (wp_node_files (make_dirs d) (fun _ fs => fs = files s)). eapply wp_mono; [apply (sure_request (MakeDirs d)); exact I|].
  cbn. intros s' _ r (a & -> & E & _). by exists a.
Qed.

(** A static manifest replaces an old one. *)
Lemma wp_writeStaticYaml fuel p c e s :
  yields (writeStaticYaml (S fuel) 0 p c e) (fun _ s' => files s' = <[p := c]> (files s) /\ labels s' = labels s) s.
Proof.
  cbn [writeStaticYaml]. change (negb (0 <? 3)) with false. cbn iota.
  assert (yields (reply! exist := lift Files (fun _ a => a) (IsFileExist p) in if exist : bool then on_files (remove_path p) else ok tt)
    (fun _ s' => files s' = delete p (files s) /\ labels s' = labels s) s) as Hrm.
  { apply wp_bind. eapply wp_mono; [apply (wp_lifted (IsFileExist p) (fun b fs => fs = files s /\ b = bool_decide (is_Some (files s !! p)))), ok_IsFileExist|].
    intros s1 t b [[Hf ->] Hl]. case_bool_decide as Hp.
    - eapply wp_mono; [apply (wp_node_files (remove_path p) (fun _ fs => fs = delete p (files s)))|].
      + eapply wp_mono; [apply ok_remove_path; by rewrite Hf|]. cbn. intros s2 t2 r [-> ->]. exists tt. by rewrite Hf.
      + cbn. intros s2 t2 r (a & -> & Hf2 & Hl2). exists a. by rewrite Hf2, Hl2.
    - apply wp_ok. exists tt. split; [done|]. rewrite Hf. split; [|done]. symmetry. by apply delete_id, eq_None_not_Some. }
  apply wp_bind. eapply wp_mono; [exact Hrm|]. intros s1 t r (a & -> & Hf1 & Hl1). apply wp_bind.
  eapply wp_mono; [apply wp_bufio|]. intros s2 t2 r (b & -> & Hf2 & Hl2). apply wp_ok. exists tt. split; [done|].
  rewrite Hf2, Hl2, Hf1. unfold content. rewrite lookup_delete_eq. cbn [default]. by rewrite overwrite_empty, insert_delete_eq.
Qed.

Lemma wp_deployLiteAPIServer fuel masterIP tmpl yaml s :
  nodeName <> EmptyString -> certs !! "lite-apiserver.yaml"%string = Some tmpl ->
  Install.CompleteTemplate tmpl (TMap [("MasterIP", TString masterIP)]%string) = inl yaml ->
  yields (deployLiteAPIServer (S fuel) masterIP nodeName)
    (fun _ s' => files s' = <[LiteAPIServerYamlPath := yaml]> (edge_dir (files s)) /\ labels s' = labels s) s.
Proof.
  intros Hn Ht Hy. unfold deployLiteAPIServer. eapply wp_then; [apply wp_completeLiteApiServer|]. intros _ s1 [Hf1 Hl1].
  eapply wp_then; [apply wp_read; rewrite Hf1; exact (edge_dir_cert _ _ _ Ht)|]. intros y s2 [[Hf2 ->] Hl2].
  destruct (String.eqb_spec nodeName EmptyString); [done|]. rewrite Hy.
  eapply wp_then; [apply wp_make_dirs|]. intros _ s3 [Hf3 Hl3]. eapply wp_mono; [apply wp_writeStaticYaml|].
  intros s4 t r (a & -> & Hf4 & Hl4). exists a. by rewrite Hf4, Hl4, Hf3, Hl3, Hf2, Hl2, Hf1.
Qed.

Lemma wp_updateKubeletConfig conf cfg out s :
  files s !! KubeadmKubeletConfig = Some conf -> LoadConfig conf = inl cfg -> WriteConfig (with_servers cfg) = inl out ->
  yields (updateKubeletConfig LoadConfig WriteConfig KubeadmKubeletConfig EdgeadmKubeletConfig)
    (fun _ s' => files s' = <[EdgeadmKubeletConfig := out]> (files s) /\ labels s' = labels s) s.
Proof.
  intros Hc Hl Hw. unfold updateKubeletConfig. eapply wp_then; [by apply wp_read|]. intros b s1 [[Hf1 ->] Hl1]. rewrite Hl, Hw.
  eapply wp_then; [apply wp_make_dirs|]. intros _ s2 [Hf2 Hl2].
  eapply wp_mono; [apply (wp_node_files (WriteFile _ _) (fun _ fs => fs = <[EdgeadmKubeletConfig := out]> (files s2))), sure_WriteFile|].
  intros s3 t r (a & -> & Hf3 & Hl3). exists a. by rewrite Hf3, Hl3, Hf2, Hl2, Hf1, Hl1.
Qed.

Lemma wp_shell cmd s : yields (shell cmd) (fun _ s' => s' = s) s.
Proof. eapply wp_mono; [apply (wp_answer (ShellCommand cmd)), (calm_shell quiet_day)|]. cbn. intros s' t r (a & -> & _ & ->). by exists a. Qed.

Lemma wp_checkKubeletHealthz k s : yields (checkKubeletHealthz (S k)) (fun _ s' => s' = s) s.
Proof.
  unfold checkKubeletHealthz. cbn [poll_until]. apply wp_bind, wp_bind, (wp_call serve (HttpGet _)). rewrite (calm_http quiet_day). by exists tt.
Qed.

Lemma wp_isRunningKubelet n c s : wp serve (isRunningKubelet (S n) c nodeName) (fun s' _ r => r = true /\ s' = s) s.
Proof.
  cbn [isRunningKubelet]. apply wp_bind. apply wp_ask. cbn [fst snd]. apply wp_done. apply wp_bind, (wp_call serve (NodeWith c nodeName)).
  rewrite (calm_sleep quiet_day). destruct (calm_node quiet_day c s) as (node & E & Hr). rewrite E. cbn [fst snd]. rewrite Hr. by apply wp_done.
Qed.

Definition kubelet_files (out : string) (fs : gmap string string) : gmap string string :=
  <[KubeletStartEnvFile := overwrite (content fs KubeletStartEnvFile) CHANGE_KUBELET_KUBECONFIG_ARGS]> (<[EdgeadmKubeletConfig := out]> fs).

Lemma wp_restartKubelet k conf cfg out s :
  files s !! KubeadmKubeletConfig = Some conf -> LoadConfig conf = inl cfg -> WriteConfig (with_servers cfg) = inl out ->
  yields (restartKubelet (S k) LoadConfig WriteConfig nodeName)
    (fun _ s' => files s' = kubelet_files out (files s) /\ labels s' = mp nodeLabel ∪ labels s) s.
Proof.
  intros Hc Hl Hw. unfold restartKubelet. eapply wp_then; [by eapply wp_updateKubeletConfig|]. intros _ s1 [Hf1 Hl1].
  eapply wp_then; [apply wp_bufio|]. intros _ s2 [Hf2 Hl2].
  do 2 (eapply wp_then; [apply wp_shell|]; intros _ ? ->). eapply wp_then; [apply wp_checkKubeletHealthz|]. intros _ ? ->.
  destruct (calm_client quiet_day EdgeadmKubeletConfig s2) as [cl E].
  eapply wp_then; [apply (wp_answer (GetClientSet _)), E|]. intros c ? [-> ->]. apply wp_bind.
  eapply wp_mono; [apply wp_isRunningKubelet|]. intros s3 t r [-> ->]. eapply wp_mono; [apply wp_add_label|].
  intros s4 t4 r (a & -> & Hf4 & Hl4). exists a. split; [done|]. rewrite Hf4, Hl4, Hl2, Hl1, Hf2, Hf1. split; [|done].
  unfold kubelet_files. f_equal. unfold content. by rewrite lookup_insert_ne.
Qed.

Lemma wp_isRunningLiteAPIServer n i pod s : wp serve (isRunningLiteAPIServer n i pod) (fun s' _ _ => s' = s) s.
Proof.
  revert i. induction n as [|n IH]; intros i; [done|]. cbn [isRunningLiteAPIServer]. apply wp_bind, wp_ask, wp_done.
  apply wp_bind, (wp_call serve (GetPodPhase _ _)). rewrite (calm_sleep quiet_day). destruct (calm_pod quiet_day pod s) as [r E]. rewrite E.
  cbn [fst snd]. destruct r as [phase|e]; [|eapply wp_mono; [apply IH|done]]. destruct (String.eqb phase _); [done|]. eapply wp_mono; [apply IH|done].
Qed.

(** C38: A node without the label goes behind the lite API server: the job succeeds
    and labels it; the edge directory holds the certificates of the config map
    and the kubelet's configuration with every server replaced, the manifest of
    the lite API server is written whole, the kubelet's environment begins with
    the new arguments, and no other file changes. *)
Theorem node_joins_edge (k fuel : nat) (masterIP tmpl yaml conf out : string) (cfg : Kubeconfig) (s : St)
    (Hname : nodeName <> EmptyString) (Hnew : labels s !! EdgeNodeLabelKey = None)
    (Htmpl : certs !! "lite-apiserver.yaml"%string = Some tmpl)
    (Hyaml : Install.CompleteTemplate tmpl (TMap [("MasterIP", TString masterIP)]%string) = inl yaml)
    (Hconf : files s !! KubeadmKubeletConfig = Some conf)
    (Hload : LoadConfig conf = inl cfg) (Hout : WriteConfig (with_servers cfg) = inl out) :
  wp serve (changeNodeJob (S k) LoadConfig WriteConfig (S fuel) masterIP nodeName)
    (fun s' _ r => r = inl tt
      /\ files s' = kubelet_files out (<[LiteAPIServerYamlPath := yaml]> (edge_dir (files s)))
      /\ labels s' = <[EdgeNodeLabelKey := enable]> (labels s)) s.
Proof.
  unfold changeNodeJob. eapply (wp_then _ _ (fun b s' => b = false /\ s' = s)).
  { unfold isDeployLiteAPIServer. eapply wp_then; [apply wp_check|]. intros b s1 [-> ->]. apply wp_bind.
    eapply wp_mono; [apply wp_isRunningLiteAPIServer|]. intros s1 t running ->. rewrite bool_decide_eq_false_2.
    - rewrite andb_false_r. apply wp_ok. by exists false.
    - intros Hl%(fun Hs => lookup_weaken _ _ EdgeNodeLabelKey enable (lookup_singleton_eq _ _) Hs). congruence. }
  intros b s1 [-> ->]. eapply wp_then; [by eapply wp_deployLiteAPIServer|]. intros _ s1 [Hf1 Hl1].
  eapply wp_mono; [eapply wp_restartKubelet; [|exact Hload|exact Hout]|].
  { rewrite Hf1, lookup_insert_ne by done. by rewrite edge_dir_outside, Hconf. }
  intros s2 t r ([] & -> & Hf2 & Hl2). split; [done|]. rewrite Hf2, Hl2, Hf1, Hl1. split; [done|]. symmetry. apply insert_union_singleton_l.
Qed.

(** The job that takes it back. *)
Lemma wp_revertNodeJob k s :
  yields (revertNodeJob (S k) nodeName)
    (fun _ s' => files s' = delete LiteAPIServerYamlPath (<[KubeletStartEnvFile := EmptyString]> (files s))
                 /\ labels s' = unlabelled (mp (reverted_labels EdgeNodeLabelKey)) (labels s)) s.
Proof.
  unfold revertNodeJob. eapply wp_then; [apply (wp_node_files (WriteFile _ _) (fun _ fs => fs = <[KubeletStartEnvFile := EmptyString]> (files s))), sure_WriteFile|].
  intros _ s1 [Hf1 Hl1]. do 2 (eapply wp_then; [apply wp_shell|]; intros _ ? ->). eapply wp_then; [apply wp_checkKubeletHealthz|]. intros _ ? ->.
  eapply wp_then; [apply (wp_node_files (RemoveFile _) (fun _ fs => fs = delete LiteAPIServerYamlPath (files s1))), sure_RemoveFile|].
  intros _ s2 [Hf2 Hl2]. eapply wp_mono; [apply wp_delete_label|]. intros s3 t r (a & -> & Hf3 & Hl3). exists a. by rewrite Hf3, Hl3, Hf2, Hl2, Hf1, Hl1.
Qed.

End Calm.
End Calm.

(** ** A node of a small cluster *)

Module HelperDemo.

Import Helper Ready Calm.

#[local] Existing Instance range_in_key_order.

(** The files of the node and its labels at the API server. *)
Record machine : Type := mkMachine { m_disk : good_disk; m_labels : gmap string string }.

Definition machine_serve (q : file_request) (m : machine) : machine * (file_answer q + api_error) :=
  let '(d, r) := good_serve q (m_disk m) in (mkMachine d (m_labels m), r).

#[local] Instance machine_files : NodeFiles machine.
Proof.
  refine {| file_serve := machine_serve; files := fun m => gd_files (m_disk m) |}.
  - intros q [d l] a. exact (file_effect q d a).
  - intros q [d l] e p. exact (file_failed q d e p).
  - intros p [d l]. exact (not_found p d).
Defined.

#[local] Instance machine_reliable : ReliableFiles machine.
Proof.
  split; intros q [d l].
  - exact (file_succeeds q d).
  - exact (file_missing q d).
Qed.

Definition node_of (name : string) (l : gmap string string) (conditions : gslice NodeCondition) : Node :=
  mkNode (with_labels (named EmptyString name) (Some l)) None conditions None.

Definition master (name ip : string) : Node :=
  mkNode (with_labels (named EmptyString name) (Some {[ KubernetesDefaultRoleLabel := EmptyString ]})) None None (Some [mkNodeAddress "InternalIP" ip]).

Definition the_masters : list Node := [master "m1" "10.0.0.1"; master "m2" "10.0.0.2"].
Definition the_certs : gmap string string :=
  <["lite-apiserver.yaml"%string := "server: {{.MasterIP}}"%string]> {[ "ca.crt"%string := "CERT"%string ]}.

(** What the cluster answers; the job runs on [edge-1]. *)
Definition cluster (healthz : Z) (update : bool) (q : helper_request unit) (m : machine) : machine * (helper_answer q + api_error) :=
  match q with
  | Files q => machine_serve q m
  | Api (GetNode name) => (m, inl (node_of name (m_labels m) None))
  | Api (UpdateNode n) => if update then (mkMachine (m_disk m) (mp (Labels (node_meta n))), inl tt) else (m, inr Conflict)
  | Api (GetNamespace _) => (m, inr NotFound)
  | Api (PatchNodeRequest _ _) | Api (UpdateNamespace _) => (m, inr NotFound)
  | ListAllNodes => (m, inl the_masters)
  | GetPodPhase _ _ => (m, inr NotFound)
  | GetClusterIP _ _ => (m, inl "10.96.0.53"%string)
  | GetConfigMapData _ _ => (m, inl (Some the_certs))
  | ShellCommand _ => (m, inl tt)
  | HttpGet _ => (m, inl healthz)
  | GetClientSet _ => (m, inl tt)
  | NodeWith _ name => (m, inl (node_of name ∅ (Some [mkNodeCondition "Ready" "True"])))
  | HealthzWith _ => (m, inl 200)
  | Sleep _ => (m, inl tt)
  end.

(** The codecs of the libraries, for the files of this node. *)
Definition decode (yaml : string) : option ApiPod + string :=
  match cut_at " "%char yaml with
  | Some (flag, rest) => inl (Some (mkApiPod (Some [mkContainer (Some [flag]) EmptyString]) None EmptyString rest))
  | None => inr "no pod"%string
  end.
Definition flags (pod : ApiPod) : string := foldr (fun c acc => join_with " " (sl (Command c)) +:+ acc) EmptyString (sl (Containers pod)).
Definition marshal (pod : ApiPod) : string + string :=
  inl (flags pod +:+ " " +:+ pod_rest pod +:+ match DNSConfig pod with None => EmptyString | Some c => " dns " +:+ join_with " " (sl (Nameservers c)) end).
Definition yaml_of (j : string) : string + string := inl j.

Definition load (c : string) : Kubeconfig + string := inl (mkKubeconfig (Some {[ "edge"%string := mkCluster c EmptyString ]}) EmptyString).
Definition store (c : Kubeconfig) : string + string :=
  match mp (Clusters c) !! "edge"%string with Some cl => inl ("server: " +:+ Server cl)%string | None => inr "no cluster"%string end.

Definition old_manifest : string := "--kubelet-preferred-address-types=InternalIP,ExternalIP,Hostname kube-apiserver".
Definition new_manifest : string := "--kubelet-preferred-address-types=Hostname kube-apiserver dns 10.96.0.53".

Definition fresh_machine : machine :=
  mkMachine (mkGoodDisk (<[KubeAPIServerSrcYamlPath := old_manifest]> (<[KubeadmKubeletConfig := "https://10.0.0.1:6443"%string]>
    {[ MasterHostsFilePath := host_line "m1" "10.0.0.1" ]}))) (<[EdgeChangeLabelKey := enable]> {[ "arch"%string := "arm64"%string ]}).

Definition run_job (healthz : Z) (update : bool) (m : machine) (j : act (helper_answer (Client := unit)) helper_error unit) :
    machine * (unit + helper_error) :=
  let '(m, _, r) := run (cluster healthz update) j m in (m, r).

Notation change_master := (changeMasterJob 3 decode marshal yaml_of 2 "edge-1").
Notation change_node := (changeNodeJob 3 load store 2 "10.0.0.1" "edge-1").

Lemma cluster_calm : calm (cluster 200 true) m_labels "edge-1" the_masters "10.96.0.53" the_certs.
Proof.
  split; try (intros; reflexivity); intros; by eexists.
Qed.

Lemma manifest_ok : api_manifest "10.96.0.53" decode marshal yaml_of old_manifest
  (mkApiPod (Some [mkContainer (Some ["--kubelet-preferred-address-types=InternalIP,ExternalIP,Hostname"%string]) EmptyString]) None EmptyString "kube-apiserver")
  new_manifest.
Proof. split; [by vm_compute|done|done|]. eexists. split; [reflexivity|]. by vm_compute. Qed.

Lemma master_roundtrip_witness :
  wp (cluster 200 true) (do! change_master in revertMasterJob 3 "edge-1")
    (fun s' _ r => r = inl tt
      /\ files s' = <[MasterHostsFilePath := with_masters the_masters (host_line "m1" "10.0.0.1")]> (files fresh_machine)
      /\ m_labels s' = unlabelled {[ EdgeChangeLabelKey := enable ]} (m_labels fresh_machine)) fresh_machine.
Proof.
  eapply (master_roundtrip (cluster 200 true) m_labels "edge-1" the_masters "10.96.0.53" the_certs cluster_calm decode marshal yaml_of 2 1);
    [by vm_compute|by vm_compute|by vm_compute|exact manifest_ok|by vm_compute].
Defined.

Lemma node_joins_edge_witness :
  wp (cluster 200 true) change_node
    (fun s' _ r => r = inl tt
      /\ files s' = kubelet_files "server: https://127.0.0.1:51003" (<[LiteAPIServerYamlPath := "server: 10.0.0.1"%string]> (edge_dir the_certs (files fresh_machine)))
      /\ m_labels s' = <[EdgeNodeLabelKey := enable]> (m_labels fresh_machine)) fresh_machine.
Proof.
  eapply (node_joins_edge (cluster 200 true) m_labels "edge-1" the_masters "10.96.0.53" the_certs cluster_calm load store 2 1);
    [done|by vm_compute|by vm_compute|by vm_compute|by vm_compute|by vm_compute|by vm_compute].
Defined.

Lemma labelled_when_ready_witness :
  wp (cluster 500 true) change_node (fun _ t _ => Forall (fun q => ~ labels_edge q) t) fresh_machine.
Proof. apply (labelled_when_ready 3 load store (cluster 500 true) Unhealthy). by intros []. Defined.

(** *** What the jobs leave *)

(** The hosts file gets the line of the master it did not have. *)
Example changed_hosts :
  content (files (fst (run_job 200 true fresh_machine change_master))) MasterHostsFilePath
  = host_line "m1" "10.0.0.1" +:+ host_line "m2" "10.0.0.2".
Proof. by vm_compute. Qed.

(** A manifest that gets shorter keeps the end of the old one. *)
Example changed_manifest :
  content (files (fst (run_job 200 true fresh_machine change_master))) KubeAPIServerSrcYamlPath = new_manifest +:+ "iserver".
Proof. by vm_compute. Qed.

(** A job that could not label the node has changed the manifest; the next one
    takes that for the original. *)
Example retried_backup :
  let failed := run_job 200 false fresh_machine change_master in
  let again := run_job 200 true (fst failed) change_master in
  let back := run_job 200 true (fst again) (revertMasterJob 3 "edge-1") in
  (snd failed, snd again, snd back) = (inr (Polled Timeout), inl tt, inl tt)
  /\ content (files (fst back)) KubeAPIServerSrcYamlPath <> old_manifest.
Proof. split; [by vm_compute|]. vm_compute. discriminate. Qed.

(** The kubelet's arguments end up in front of the end of a longer environment
    file, and the old arguments are not put back. *)
Definition with_env (env : string) : machine :=
  mkMachine (mkGoodDisk (<[KubeletStartEnvFile := env]> (files fresh_machine))) (m_labels fresh_machine).

Definition long_env : string := CHANGE_KUBELET_KUBECONFIG_ARGS +:+ " KUBELET_EXTRA_ARGS=--v=2".

Example kubelet_environment :
  content (files (fst (run_job 200 true (with_env long_env) change_node))) KubeletStartEnvFile = long_env
  /\ content (files (fst (run_job 200 true (fst (run_job 200 true (with_env "KUBELET_EXTRA_ARGS=") change_node)) (revertNodeJob 3 "edge-1"))))
       KubeletStartEnvFile = EmptyString.
Proof. by vm_compute. Qed.

(** Without an action the job does nothing and succeeds. *)
Example no_action :
  run_job 200 true fresh_machine (Run 3 decode marshal yaml_of load store 2 (mkEnv "edge-1" "node" EmptyString EmptyString)) = (fresh_machine, inl tt).
Proof. by vm_compute. Qed.

(** Without the master's address the lite API server is set up all the same. *)
Example no_master_address :
  files (fst (run_job 200 true fresh_machine (changeNodeJob 3 load store 2 EmptyString "edge-1"))) !! LiteAPIServerYamlPath = Some "server: "%string.
Proof. by vm_compute. Qed.

(** A manifest that cannot be removed is tried for ever. *)
Lemma removal_for_ever (serve : forall q : helper_request unit, machine -> machine * (helper_answer q + api_error)) fuel p c e m :
  (forall m, snd (serve (Files (StatFile p)) m) = inl tt) -> (forall m, exists err, snd (serve (Files (RemovePath p)) m) = inr err) ->
  wp serve (writeStaticYaml fuel 0 p c e) (fun _ _ r => r = inr Hangs) m.
Proof.
  intros Hs Hr. revert e m. induction fuel as [|fuel IH]; intros e m; [done|]. cbn [writeStaticYaml]. change (negb (0 <? 3)) with false. cbn iota.
  apply wp_bind, wp_bind, wp_lift, wp_bind, (wp_call (served Files (fun _ a => a) serve) (StatFile p)). unfold served. specialize (Hs m).
  destruct (serve (Files (StatFile p)) m) as [m1 r1]. cbn in Hs. subst r1. cbn [fst snd]. apply wp_done. unfold on_files, map_error.
  apply wp_bind, wp_lift, (wp_call (served Files (fun _ a => a) serve) (RemovePath p)). unfold served. destruct (Hr m1) as [err E].
  destruct (serve (Files (RemovePath p)) m1) as [m2 r2]. cbn in E. subst r2. cbn [fst snd]. apply wp_done, wp_bind, wp_ask, wp_done.
  eapply wp_mono; [apply IH|done].
Qed.

End HelperDemo.
